(* ===== verification/_CoqProject ===== *)
-Q . S2P
Prelude.v
Memory.v
KString.v
Kalloc.v
KallocSpec.v
Vm.v
VmSpec.v
VmMap.v
VmCopy.v
VmUser.v
VmGrow.v
VmAlloc.v
VmFork.v
VmFree.v
VmLife.v
VmKernel.v
Sleeplock.v
Bio.v
BioSpec.v
BioRefine.v
Virtio.v
VirtioSpec.v
VirtioInv.v
VirtioRefine.v
VirtioLive.v
Bytes.v
Log.v
LogSpec.v
LogCommit.v
LogRecover.v
LogOps.v
LogReserve.v
Crash.v
Fs.v
FsFile.v
FsTxn.v
FsExample.v
FsBitmap.v
FsAlloc.v
FsInode.v
FsInodeOps.v
FsRead.v
FsBlocks.v
FsBmap.v
FsWrite.v
FsTrunc.v
FsPath.v
FsDir.v
FsDirlink.v
Mkfs.v
MkfsSpec.v
MkfsImage.v
MkfsRoot.v
Spinlock.v
SleepWakeup.v
Ring.v
KState.v
Machine.v
Pipe.v
Console.v
ConsoleSpec.v
File.v
Proc.v
Syscall.v
Sysfile.v
Ulib.v
Printf.v
Exec.v
Quiet.v
ProcInv.v
FileRefs.v
Umalloc.v
Trap.v
Boot.v
Typing.v
Grep.v
Wc.v
Sh.v
ShRun.v
Progs.v
