(* ===== verification/Prelude.v ===== *)
(** * A verification of the xv6-riscv kernel

    This library models the xv6 kernel for RISC-V (src/kernel), the program that
    makes its disk image (src/mkfs) and some user programs (src/user) as Rocq
    functions and proves what makes them correct.  The parts build on each other
    as in the source:

    - memory: string.c on byte memory (KString.v), the page allocator kalloc.c
      (Kalloc.v, KallocSpec.v), page tables and user memory vm.c (Vm.v and the
      files Vm*.v that specify it);
    - the disk: sleep locks (Sleeplock.v), the buffer cache bio.c (Bio.v,
      BioSpec.v, BioRefine.v), the driver virtio_disk.c with the device it talks
      to (Virtio.v to VirtioLive.v), the write-ahead log log.c (Log.v to Crash.v,
      LogReserve.v), the file system fs.c (Fs.v, FsFile.v and Fs*.v), the program
      mkfs.c that makes one (Mkfs.v to MkfsRoot.v);
    - concurrency: spin locks spinlock.c on any number of CPUs (Spinlock.v),
      sleep, wakeup and the scheduler of proc.c on any number of CPUs
      (SleepWakeup.v);
    - the kernel proper, on one state with the process table, the file table,
      pipes, console and UART (KState.v): pipe.c (Pipe.v), console.c and uart.c
      (Console.v, ConsoleSpec.v), file.c (File.v), proc.c (Proc.v), syscall.c
      and sysproc.c (Syscall.v), sysfile.c (Sysfile.v), exec.c and the system
      call table (Exec.v), traps and interrupts trap.c (Trap.v), booting start.c
      and main.c (Boot.v);
    - output: the formatted printing of kernel and user programs, printf.c in
      both directories (Printf.v);
    - user programs: the string library ulib.c (Ulib.v), malloc and free of
      umalloc.c (Umalloc.v), grep.c (Grep.v), wc.c and cat.c
      (Wc.v), the shell sh.c, its parser in Sh.v and the processes it starts in
      ShRun.v; echo, cat, rm, mkdir, ln, kill, ls, zombie and init as interaction
      trees over their system calls (Progs.v).

    ** How code is modelled

    A C function is a Rocq function of the same name.  Code with effects is a
    computation [K S A := S -> outcome S A] (below) on the state [S] of its
    layer: it returns a value and a state ([Ret]), panics with a message
    ([Panic]), goes to sleep ([Sleep]: the state in which the CPU is given
    up), or runs out of the fuel of a loop ([Diverge]).  Integers are [Z],
    with the wrap-around of their C type written where the code computes
    ([uint32], [int32], ...); bytes in memory and on disk are little-endian as
    on RISC-V.  Loops recurse on a bound read off the code, or on fuel that
    the functions around them choose from their arguments; the theorems show
    that the fuel suffices wherever they state a result.

    The layers have their own states, each a record that contains the one
    below: [kmem] (memory and the free list), [bstate] (buffers, device,
    running process), [lstate] (cache and log), [fstate] (log, superblock,
    inode table, memory), [kstate] (all of it with processes, files, pipes,
    console).  [liftB], [liftL], [liftM], [liftF] and [liftW] run the code of a
    layer in the one above.

    The buffer cache transfers a block in one step; that this is what the
    driver amounts to is the theorem of VirtioRefine.v, where calls, interrupt
    handler and device are interleaved.

    A critical section of a spin lock is one atomic step of the model; that
    no two CPUs are in one is the theorem of Spinlock.v, where the steps are
    the single instructions of acquire and release.  A process that sleeps
    leaves the state it sleeps in; it runs its waiting loop again when woken.
    After a panic there are no more states, so the tests of [panicked] in uart.c
    are left out.

    ** What is proved

    - Crash.v: a transaction survives a crash at any device write entirely or
      not at all, and recovery may be interrupted and repeated.  LogReserve.v:
      operations within their share of different blocks never overflow the log,
      if it has more than LOGSIZE blocks, thanks to the absorption of blocks
      written again; and do, if it has LOGSIZE.
    - BioRefine.v: the buffer cache refines an array of blocks.
      VirtioRefine.v: seen from outside, a call of the disk driver is one
      transfer of its block, whatever the interleaving of calls, interrupts and
      device; VirtioLive.v: every call can come to its end.
    - KallocSpec.v, VmLife.v: no page is handed out twice or lost; address
      spaces are isolated from each other across fork, and a fork that fails
      keeps nothing but page-table pages of the child, which freeing it gives
      back; copies between kernel
      and user memory are exact and fail exactly on memory the user may not
      access.  VmKernel.v: the kernel's page table maps what it should and
      nothing else, and building it cannot fail.
    - Boot.v: from reset the machine reaches the first process, in a state in
      which the invariants of the theorems on system calls hold.  Typing.v: from
      then on every trap keeps the data of the kernel within their C types, and
      all ring buffers well formed.
    - FsAlloc.v, FsInodeOps.v, FsRead.v, FsPath.v, FsDir.v: the bitmap, inodes
      on disk, file contents, path names and directories.  FsBlocks.v, FsBmap.v,
      FsWrite.v, FsDirlink.v: writing files with all the allocation it needs,
      reading back what was written, updating no inode but the file's, adding names to directories.  FsTrunc.v:
      an unlinked file gives back exactly its blocks and its inode.  MkfsRoot.v:
      the image mkfs writes is a well-formed file system with the given files.
    - Spinlock.v: mutual exclusion, panics, nesting of interrupt disabling.
      SleepWakeup.v: no wakeup is lost, no process runs on two CPUs.
    - Pipe.v, Console.v, ConsoleSpec.v: ring buffers with wrapping counters
      refine queues and a line discipline.
    - Quiet.v, ProcInv.v: what each system call may do to the process table,
      and the invariant of the table under all of them.  FileRefs.v: the counts
      of open files are the numbers of their descriptors.  Trap.v: a trap from
      user space keeps the invariant and returns only to a process that was not
      killed when the trap was served, in user mode and with its own page table;
      a timer interrupt lets others run first, and the process then returns
      without another look at its killed flag.
    - KString.v, Grep.v: overlapping moves, bounded string copies; the regular
      expression matcher decides its language and grep prints matching lines.
    - Umalloc.v: blocks of malloc never overlap and none are lost, for requests
      below 2 GB.  Sh.v, ShRun.v: the parser ends on every line and inverts
      printing; pipelines and redirections connect the right descriptors,
      programs get no others, and a shell that waits for a pipe has closed it.  Printf.v, Wc.v: printed numbers are read back; wc counts lines,
      words and bytes; the kernel's printint overruns its buffer on large
      numbers.  Progs.v: init never has two shells and ends only on errors.
      There too, ls, cat and echo print what they should on every kernel that keeps the
      laws of the class [Files], and ls and cat close what they open.

    The files that end in Spec, and Vm*.v, Log*.v, Fs*.v between the models and
    these theorems, hold the abstractions ([as_wf], [bst], [txn], ...) and one
    lemma per operation.  Machine.v and FsExample.v hold concrete states at
    which theorems are instantiated.

    ** Parameters

    The addresses the linker chooses (the end of the kernel, of its text, the
    trampoline page) are the class [KernelImage], with what kernel.ld
    guarantees as [KernelImageOk].  The disk's interrupt handler is, for
    Trap.v, the class [DiskIntr]: it only wakes processes up.  What other
    processes do between a timer interrupt's [yield] and the next turn of the
    process is an argument of [usertrap] and [kerneltrap]; the theorems ask of
    it the invariant they show of a trap, and [turns] in Trap.v is an instance.
    For the shell and for malloc, the descriptor table and the end of memory
    behave as their system calls promise.  For user programs
    (Progs.v) the kernel answers system calls as it likes, for init, or by the
    laws of the class [Files], for ls, cat and echo.  The bits of the
    UART's line status register, what the disk's registers read as in Boot.v and
    the results of reads in grep, wc and mkfs are part of the state or arguments.

    ** Not modelled

    Assembly (entry.S, swtch.S, trampoline.S, kernelvec.S, initcode.S), and
    the test programs (usertests, grind, forktest, stressfs), whose correctness is
    what they report of the kernel.  Out of the shell, [cd] and the
    allocation of command structures. *)

From stdpp Require Export base option list gmap strings.
From Stdlib Require Export ZArith Lia.
From stdpp Require Import options.

Set Default Goal Selector "!".
Global Open Scope Z_scope.

(** ** Machine integers *)

(** Unsigned and signed integers of the widths the C sources use
    (kernel/types.h); every value is kept in range by writing the wrap-around
    where the C code computes at that width. *)
Definition uint8 (z : Z) : Z := z mod 2 ^ 8.
Definition uint16 (z : Z) : Z := z mod 2 ^ 16.
Definition uint32 (z : Z) : Z := z mod 2 ^ 32.
Definition uint64 (z : Z) : Z := z mod 2 ^ 64.
Definition int32 (z : Z) : Z := (z + 2 ^ 31) mod 2 ^ 32 - 2 ^ 31.
Definition int16 (z : Z) : Z := (z + 2 ^ 15) mod 2 ^ 16 - 2 ^ 15.

Lemma uint8_range z : 0 <= uint8 z < 256.
Proof. unfold uint8. change (2 ^ 8) with 256. apply Z.mod_pos_bound. lia. Qed.

Lemma uint32_range z : 0 <= uint32 z < 2 ^ 32.
Proof. unfold uint32. apply Z.mod_pos_bound. lia. Qed.

Lemma uint64_range z : 0 <= uint64 z < 2 ^ 64.
Proof. unfold uint64. apply Z.mod_pos_bound. lia. Qed.

Lemma uint8_small z : 0 <= z < 256 -> uint8 z = z.
Proof. intros. unfold uint8. apply Z.mod_small. lia. Qed.

Lemma uint32_small z : 0 <= z < 2 ^ 32 -> uint32 z = z.
Proof. intros. unfold uint32. by apply Z.mod_small. Qed.

Lemma uint64_small z : 0 <= z < 2 ^ 64 -> uint64 z = z.
Proof. intros. unfold uint64. by apply Z.mod_small. Qed.

Lemma uint8_idemp z : uint8 (uint8 z) = uint8 z.
Proof. apply uint8_small, uint8_range. Qed.

Lemma int32_range z : - 2 ^ 31 <= int32 z < 2 ^ 31.
Proof.
  unfold int32. pose proof (Z.mod_pos_bound (z + 2 ^ 31) (2 ^ 32)). lia.
Qed.

Lemma int32_small z : - 2 ^ 31 <= z < 2 ^ 31 -> int32 z = z.
Proof. intros. unfold int32. rewrite Z.mod_small; lia. Qed.

(** ** The outcome of a piece of kernel code

    A C function that reads and writes a state [S] is a function
    [S -> outcome S A].  It returns a value and the new state, calls
    [panic()] (which never returns), calls [sleep()] and gives up the CPU
    in the middle ([Sleep] carries the state it leaves behind), or does not
    terminate ([Diverge]; also the value of a bounded loop that has run out
    of iterations, which the theorems show unreachable). *)
Inductive outcome (S A : Type) : Type :=
| Ret (a : A) (s : S)
| Panic (msg : string)
| Sleep (s : S)
| Diverge.
Arguments Ret {S A} a s.
Arguments Panic {S A} msg.
Arguments Sleep {S A} s.
Arguments Diverge {S A}.

Definition K (S A : Type) : Type := S -> outcome S A.

Definition kret {S A} (a : A) : K S A := fun s => Ret a s.
Definition kbind {S A B} (c : K S A) (f : A -> K S B) : K S B := fun s =>
  match c s with
  | Ret a s' => f a s'
  | Panic msg => Panic msg
  | Sleep s' => Sleep s'
  | Diverge => Diverge
  end.
Definition kget {S} : K S S := fun s => Ret s s.
Definition kput {S} (s' : S) : K S unit := fun _ => Ret tt s'.
Definition kmod {S} (f : S -> S) : K S unit := fun s => Ret tt (f s).
Definition panic {S A} (msg : string) : K S A := fun _ => Panic msg.
Definition kdiverge {S A} : K S A := fun _ => Diverge.

Declare Scope kernel_scope.
Delimit Scope kernel_scope with kernel.
Global Open Scope kernel_scope.

Notation "x <- c ;; k" := (kbind c (fun x => k))
  (at level 100, c at next level, right associativity) : kernel_scope.
Notation "c ;;; k" := (kbind c (fun _ => k))
  (at level 100, right associativity) : kernel_scope.

Lemma kbind_ret {S A B} (c : K S A) (f : A -> K S B) s a s' :
  c s = Ret a s' -> kbind c f s = f a s'.
Proof. intros H. unfold kbind. by rewrite H. Qed.

Lemma kbind_panic {S A B} (c : K S A) (f : A -> K S B) s msg :
  c s = Panic msg -> kbind c f s = Panic msg.
Proof. intros H. unfold kbind. by rewrite H. Qed.

Lemma kbind_inv {S A B} (c : K S A) (f : A -> K S B) s b s' :
  kbind c f s = Ret b s' -> exists a s1, c s = Ret a s1 /\ f a s1 = Ret b s'.
Proof. unfold kbind. destruct (c s); naive_solver. Qed.

Lemma kbind_assoc {S A B C} (c : K S A) (f : A -> K S B) (g : B -> K S C) s :
  kbind c (fun a => kbind (f a) g) s = kbind (kbind c f) g s.
Proof. unfold kbind. by destruct (c s). Qed.

Lemma kbind_assoc3 {S A B C D} (a : K S A) (b : K S B) (c : K S C) (k : C -> K S D) s :
  kbind a (fun _ => kbind b (fun _ => kbind c k)) s = kbind (kbind a (fun _ => kbind b (fun _ => c))) k s.
Proof. unfold kbind. destruct (a s) as [? s1| | |]; try done. by destruct (b s1). Qed.

(** [kstep H] rewrites the first bind of the goal with a known result. *)
Ltac kstep H := erewrite kbind_ret; [ | exact H ]; cbv beta.
Ltac kunfold := unfold kget, kput, kmod, kret, panic; cbv beta.

Lemma elem_of_rev {A} (x : A) l : x ∈ rev l <-> x ∈ l.
Proof. by rewrite !list_elem_of_In, <- in_rev. Qed.

(** The computation returned. *)
Definition is_ret {S A} (r : outcome S A) : bool := match r with Ret _ _ => true | _ => false end.

Lemma is_ret_true {S A} (r : outcome S A) : is_ret r = true -> exists a s, r = Ret a s.
Proof. destruct r; [by eauto|done..]. Qed.
