(* ===== verification/Memory.v ===== *)
(** * Byte-addressed memory

    RAM as the kernel sees it through its direct map: a finite map from
    addresses to bytes, with the little-endian 64-bit loads and stores that
    the page-table walk and the free list of kalloc.c use, and block reads
    and writes for buffers. *)

From S2P Require Import Prelude.

(** A finite map from addresses to bytes; cells never written read as 0. *)
Abbreviation memory := (gmap Z Z).

Definition ld8 (m : memory) (a : Z) : Z := uint8 (default 0 (m !! a)).
Definition st8 (m : memory) (a v : Z) : memory := <[a := uint8 v]> m.

(** Little-endian loads and stores of [n] bytes. *)
Fixpoint ld_le (n : nat) (m : memory) (a : Z) : Z :=
  match n with
  | O => 0
  | S n' => ld8 m a + 256 * ld_le n' m (a + 1)
  end.

Fixpoint st_le (n : nat) (m : memory) (a v : Z) : memory :=
  match n with
  | O => m
  | S n' => st_le n' (st8 m a v) (a + 1) (v / 256)
  end.

Definition ld64 (m : memory) (a : Z) : Z := ld_le 8 m a.
Definition st64 (m : memory) (a v : Z) : memory := st_le 8 m a v.
Arguments ld64 : simpl never.
Arguments st64 : simpl never.

(** Reading and writing a run of bytes. *)
Fixpoint read_bytes (n : nat) (m : memory) (a : Z) : list Z :=
  match n with
  | O => []
  | S n' => ld8 m a :: read_bytes n' m (a + 1)
  end.

Fixpoint write_bytes (m : memory) (a : Z) (bs : list Z) : memory :=
  match bs with
  | [] => m
  | b :: bs' => write_bytes (st8 m a b) (a + 1) bs'
  end.

Lemma ld8_range m a : 0 <= ld8 m a < 256.
Proof. apply uint8_range. Qed.

Lemma ld8_st8 m a v b :
  ld8 (st8 m a v) b = if decide (a = b) then uint8 v else ld8 m b.
Proof.
  unfold ld8, st8. destruct (decide (a = b)) as [->|Hne].
  - rewrite lookup_insert_eq. simpl. apply uint8_idemp.
  - by rewrite lookup_insert_ne.
Qed.

Lemma ld8_st8_same m a v : ld8 (st8 m a v) a = uint8 v.
Proof. rewrite ld8_st8. by rewrite decide_True. Qed.

Lemma ld8_st8_other m a v b : a <> b -> ld8 (st8 m a v) b = ld8 m b.
Proof. intros. rewrite ld8_st8. by rewrite decide_False. Qed.

Lemma ld_le_ext n m m' a :
  (forall b, a <= b < a + Z.of_nat n -> ld8 m b = ld8 m' b) ->
  ld_le n m a = ld_le n m' a.
Proof.
  revert a. induction n as [|n IH]; intros a H; [done|]. cbn [ld_le].
  rewrite (H a) by lia. rewrite (IH (a + 1)); [done|]. intros b Hb. apply H. lia.
Qed.

Lemma ld_le_range n m a : 0 <= ld_le n m a < 256 ^ Z.of_nat n.
Proof.
  revert a. induction n as [|n IH]; intros a; [simpl; lia|]. cbn [ld_le].
  pose proof (ld8_range m a). specialize (IH (a + 1)).
  rewrite Nat2Z.inj_succ, Z.pow_succ_r by lia. lia.
Qed.

Lemma ld8_st_le_other n m a v b :
  ~ (a <= b < a + Z.of_nat n) -> ld8 (st_le n m a v) b = ld8 m b.
Proof.
  revert m a v. induction n as [|n IH]; intros m a v H; [done|]. cbn [st_le].
  rewrite IH by lia. apply ld8_st8_other. lia.
Qed.

Lemma ld_st_le_same n m a v : ld_le n (st_le n m a v) a = v mod 256 ^ Z.of_nat n.
Proof.
  revert m a v. induction n as [|n IH]; intros m a v.
  { cbn [st_le ld_le]. change (256 ^ Z.of_nat 0) with 1. by rewrite Z.mod_1_r. }
  cbn [st_le ld_le]. rewrite IH.
  rewrite ld8_st_le_other by lia. rewrite ld8_st8_same.
  rewrite Nat2Z.inj_succ, Z.pow_succ_r by lia.
  rewrite Z.rem_mul_r by lia. done.
Qed.

Lemma ld64_range m a : 0 <= ld64 m a < 2 ^ 64.
Proof. pose proof (ld_le_range 8 m a). unfold ld64. change (256 ^ Z.of_nat 8) with (2 ^ 64) in *. lia. Qed.

Lemma ld64_ext m m' a :
  (forall b, a <= b < a + 8 -> ld8 m b = ld8 m' b) -> ld64 m a = ld64 m' a.
Proof. intros H. apply ld_le_ext. intros b Hb. apply H. lia. Qed.

Lemma ld8_st64_other m a v b : ~ (a <= b < a + 8) -> ld8 (st64 m a v) b = ld8 m b.
Proof. intros H. apply ld8_st_le_other. lia. Qed.

Lemma ld64_st64_same m a v : ld64 (st64 m a v) a = uint64 v.
Proof. unfold ld64, st64. by rewrite ld_st_le_same. Qed.

Lemma ld64_st64_other m a v b : a + 8 <= b \/ b + 8 <= a -> ld64 (st64 m a v) b = ld64 m b.
Proof. intros H. apply ld64_ext. intros c Hc. apply ld8_st64_other. lia. Qed.

Lemma ld64_zero m a : (forall b, a <= b < a + 8 -> ld8 m b = 0) -> ld64 m a = 0.
Proof.
  intros H. unfold ld64. cbn [ld_le]. rewrite !H by lia. done.
Qed.

Lemma length_read_bytes n m a : length (read_bytes n m a) = n.
Proof. revert a. induction n; intros; simpl; [done|]. by rewrite IHn. Qed.

Lemma lookup_read_bytes n m a i :
  (i < n)%nat -> read_bytes n m a !! i = Some (ld8 m (a + Z.of_nat i)).
Proof.
  revert a i. induction n as [|n IH]; intros a i Hi; [lia|].
  destruct i as [|i]; cbn [read_bytes].
  - simpl. by rewrite Z.add_0_r.
  - simpl. rewrite IH by lia. f_equal. f_equal. lia.
Qed.

Lemma read_bytes_ext n m m' a :
  (forall b, a <= b < a + Z.of_nat n -> ld8 m b = ld8 m' b) ->
  read_bytes n m a = read_bytes n m' a.
Proof.
  revert a. induction n as [|n IH]; intros a H; [done|]. cbn [read_bytes].
  rewrite (H a) by lia. f_equal. apply IH. intros b Hb. apply H. lia.
Qed.

Lemma read_bytes_app n k m a :
  read_bytes (n + k) m a = read_bytes n m a ++ read_bytes k m (a + Z.of_nat n).
Proof.
  revert a. induction n as [|n IH]; intros a.
  - simpl. by rewrite Z.add_0_r.
  - cbn [Nat.add read_bytes]. rewrite IH. simpl.
    replace (a + 1 + Z.of_nat n) with (a + Z.of_nat (S n)) by lia. done.
Qed.

Lemma ld8_write_bytes_other m a bs b :
  ~ (a <= b < a + Z.of_nat (length bs)) -> ld8 (write_bytes m a bs) b = ld8 m b.
Proof.
  revert m a. induction bs as [|x bs IH]; intros m a H; [done|].
  cbn [write_bytes]. simpl length in H. rewrite IH by lia. apply ld8_st8_other. lia.
Qed.

Lemma ld8_write_bytes_in m a bs i x :
  bs !! i = Some x -> ld8 (write_bytes m a bs) (a + Z.of_nat i) = uint8 x.
Proof.
  revert m a i. induction bs as [|y bs IH]; intros m a i H; [done|].
  destruct i as [|i]; cbn [write_bytes]; simpl in H.
  - injection H as ->. rewrite ld8_write_bytes_other by lia.
    rewrite Z.add_0_r. apply ld8_st8_same.
  - replace (a + Z.of_nat (S i)) with (a + 1 + Z.of_nat i) by lia. by apply IH.
Qed.

Lemma read_write_bytes m a bs :
  Forall (fun b => 0 <= b < 256) bs ->
  read_bytes (length bs) (write_bytes m a bs) a = bs.
Proof.
  intros Hb. apply list_eq. intros i. destruct (decide (i < length bs)%nat) as [Hi|Hi].
  - destruct (lookup_lt_is_Some_2 bs i Hi) as [x Hx].
    rewrite lookup_read_bytes by lia. rewrite Hx. f_equal.
    rewrite (ld8_write_bytes_in _ _ _ _ x Hx). apply uint8_small.
    eapply Forall_lookup_1 in Hb; eauto.
  - rewrite !lookup_ge_None_2; [done|lia|rewrite length_read_bytes; lia].
Qed.
