(* ===== verification/KString.v ===== *)
(** * kernel/string.c

    The kernel's memory and string routines, over the byte-addressed memory
    of [Memory].  Each C loop is a structural recursion on the number of
    iterations its counter allows; [char] is unsigned on RISC-V, so a
    character is a byte value between 0 and 255. *)

From S2P Require Import Prelude Memory.

(** ** memset *)

(** [for(i = 0; i < n; i++) cdst[i] = c;] *)
Fixpoint memset_loop (k : nat) (m : memory) (dst c i : Z) : memory :=
  match k with
  | O => m
  | S k' => memset_loop k' (st8 m (dst + i) c) dst c (i + 1)
  end.

Definition memset (m : memory) (dst c n : Z) : memory :=
  memset_loop (Z.to_nat n) m dst c 0.

(** ** memcmp *)

Fixpoint memcmp_loop (n : nat) (m : memory) (s1 s2 : Z) : Z :=
  match n with
  | O => 0
  | S n' =>
      if ld8 m s1 =? ld8 m s2 then memcmp_loop n' m (s1 + 1) (s2 + 1)
      else ld8 m s1 - ld8 m s2
  end.

Definition memcmp (m : memory) (v1 v2 n : Z) : Z := memcmp_loop (Z.to_nat n) m v1 v2.

(** ** memmove *)

(** [while(n-- > 0) *d++ = *s++;] *)
Fixpoint move_up (n : nat) (m : memory) (d s : Z) : memory :=
  match n with
  | O => m
  | S n' => move_up n' (st8 m d (ld8 m s)) (d + 1) (s + 1)
  end.

(** [while(n-- > 0) *--d = *--s;] *)
Fixpoint move_down (n : nat) (m : memory) (d s : Z) : memory :=
  match n with
  | O => m
  | S n' => move_down n' (st8 m (d - 1) (ld8 m (s - 1))) (d - 1) (s - 1)
  end.

Definition memmove (m : memory) (dst src n : Z) : memory :=
  if n =? 0 then m
  else if (src <? dst) && (dst <? src + n)
  then move_down (Z.to_nat n) m (dst + n) (src + n)
  else move_up (Z.to_nat n) m dst src.

Definition memcpy (m : memory) (dst src n : Z) : memory := memmove m dst src n.

(** ** String routines *)

Fixpoint strncmp_loop (n : nat) (m : memory) (p q : Z) : Z :=
  match n with
  | O => 0
  | S n' =>
      if negb (ld8 m p =? 0) && (ld8 m p =? ld8 m q)
      then strncmp_loop n' m (p + 1) (q + 1)
      else ld8 m p - ld8 m q
  end.

Definition strncmp (m : memory) (p q n : Z) : Z := strncmp_loop (Z.to_nat n) m p q.

(** The second loop of strncpy, [while(n-- > 0) *s++ = 0;]. *)
Fixpoint zero_loop (n : nat) (m : memory) (s : Z) : memory :=
  match n with
  | O => m
  | S n' => zero_loop n' (st8 m s 0) (s + 1)
  end.

Fixpoint strncpy_loop (n : nat) (m : memory) (s t : Z) : memory :=
  match n with
  | O => m
  | S n' =>
      let c := ld8 m t in
      let m' := st8 m s c in
      if c =? 0 then zero_loop n' m' (s + 1) else strncpy_loop n' m' (s + 1) (t + 1)
  end.

Definition strncpy (m : memory) (s t n : Z) : memory := strncpy_loop (Z.to_nat n) m s t.

(** [while(--n > 0 && ( *s++ = *t++) != 0); *s = 0;] with [k] the copies left. *)
Fixpoint safestrcpy_loop (k : nat) (m : memory) (s t : Z) : memory :=
  match k with
  | O => st8 m s 0
  | S k' =>
      let c := ld8 m t in
      let m' := st8 m s c in
      if c =? 0 then st8 m' (s + 1) 0 else safestrcpy_loop k' m' (s + 1) (t + 1)
  end.

Definition safestrcpy (m : memory) (s t n : Z) : memory :=
  if n <=? 0 then m else safestrcpy_loop (Z.to_nat (n - 1)) m s t.

(** [strlen] runs until it meets a NUL; [None] when [fuel] bytes have none. *)
Fixpoint strlen_loop (fuel : nat) (m : memory) (s n : Z) : option Z :=
  match fuel with
  | O => None
  | S fuel' => if ld8 m (s + n) =? 0 then Some n else strlen_loop fuel' m s (n + 1)
  end.

Definition strlen (fuel : nat) (m : memory) (s : Z) : option Z := strlen_loop fuel m s 0.

(** ** Specifications *)

(** The C string at [p], looking at no more than [n] bytes. *)
Fixpoint cstring (n : nat) (m : memory) (p : Z) : list Z :=
  match n with
  | O => []
  | S n' => if ld8 m p =? 0 then [] else ld8 m p :: cstring n' m (p + 1)
  end.

Lemma ld8_memset_loop k m dst c i a :
  ld8 (memset_loop k m dst c i) a =
    if decide (dst + i <= a < dst + i + Z.of_nat k) then uint8 c else ld8 m a.
Proof.
  revert m i. induction k as [|k IH]; intros m i; cbn [memset_loop].
  { rewrite decide_False by lia. done. }
  rewrite IH, ld8_st8. repeat case_decide; try lia; done.
Qed.

Lemma ld8_memset m dst c n a :
  ld8 (memset m dst c n) a = if decide (dst <= a < dst + n) then uint8 c else ld8 m a.
Proof.
  unfold memset. rewrite ld8_memset_loop. repeat case_decide; try lia; done.
Qed.

Lemma ld8_memset_in m dst c n a :
  dst <= a < dst + n -> ld8 (memset m dst c n) a = uint8 c.
Proof. intros. rewrite ld8_memset. by rewrite decide_True. Qed.

Lemma ld8_memset_out m dst c n a :
  ~ (dst <= a < dst + n) -> ld8 (memset m dst c n) a = ld8 m a.
Proof. intros. rewrite ld8_memset. by rewrite decide_False. Qed.

Lemma ld64_memset_out m dst c n a :
  a + 8 <= dst \/ dst + n <= a -> ld64 (memset m dst c n) a = ld64 m a.
Proof. intros. apply ld64_ext. intros b Hb. apply ld8_memset_out. lia. Qed.

Lemma ld64_memset_zero m dst n a :
  dst <= a -> a + 8 <= dst + n -> ld64 (memset m dst 0 n) a = 0.
Proof. intros. apply ld64_zero. intros b Hb. by rewrite ld8_memset_in by lia. Qed.

Lemma ld8_move_up n m d s a :
  ~ (s < d < s + Z.of_nat n) ->
  ld8 (move_up n m d s) a =
    if decide (d <= a < d + Z.of_nat n) then ld8 m (s + (a - d)) else ld8 m a.
Proof.
  revert m d s. induction n as [|n IH]; intros m d s Hov; cbn [move_up].
  { rewrite decide_False by lia. done. }
  rewrite IH by lia. rewrite !ld8_st8.
  repeat case_decide; subst; try lia; try done.
  - f_equal. lia.
  - rewrite uint8_small by apply ld8_range. f_equal. lia.
Qed.

Lemma ld8_move_down n m d s a :
  ~ (d < s < d + Z.of_nat n) ->
  ld8 (move_down n m d s) a =
    if decide (d - Z.of_nat n <= a < d) then ld8 m (s + (a - d)) else ld8 m a.
Proof.
  revert m d s. induction n as [|n IH]; intros m d s Hov; cbn [move_down].
  { rewrite decide_False by lia. done. }
  rewrite IH by lia. rewrite !ld8_st8.
  repeat case_decide; subst; try lia; try done.
  - f_equal. lia.
  - rewrite uint8_small by apply ld8_range. f_equal. lia.
Qed.

Lemma ld8_memmove m dst src n a :
  ld8 (memmove m dst src n) a =
    if decide (dst <= a < dst + n) then ld8 m (src + (a - dst)) else ld8 m a.
Proof.
  unfold memmove. destruct (n =? 0) eqn:Hn.
  { rewrite decide_False by lia. done. }
  destruct ((src <? dst) && (dst <? src + n)) eqn:Hb.
  - rewrite ld8_move_down by lia. repeat case_decide; try lia; try done. f_equal. lia.
  - rewrite ld8_move_up by lia. repeat case_decide; try lia; done.
Qed.

Lemma ld8_zero_loop n m s a :
  ld8 (zero_loop n m s) a = if decide (s <= a < s + Z.of_nat n) then 0 else ld8 m a.
Proof.
  revert m s. induction n as [|n IH]; intros m s; cbn [zero_loop].
  { rewrite decide_False by lia. done. }
  rewrite IH, ld8_st8. repeat case_decide; try lia; done.
Qed.

Lemma length_cstring n m p : (length (cstring n m p) <= n)%nat.
Proof.
  revert p. induction n as [|n IH]; intros p; cbn [cstring]; [simpl; lia|].
  destruct (_ =? _); simpl; [lia|]. specialize (IH (p + 1)). lia.
Qed.

Lemma cstring_nonzero n m p : Forall (fun c => 0 < c < 256) (cstring n m p).
Proof.
  revert p. induction n as [|n IH]; intros p; cbn [cstring]; [constructor|].
  destruct (_ =? _) eqn:E; constructor; [|apply IH].
  pose proof (ld8_range m p). lia.
Qed.

Lemma cstring_ext n m m' p :
  (forall a, p <= a < p + Z.of_nat n -> ld8 m a = ld8 m' a) -> cstring n m p = cstring n m' p.
Proof.
  revert p. induction n as [|n IH]; intros p H; cbn [cstring]; [done|].
  rewrite (H p) by lia. rewrite (IH (p + 1)); [done|]. intros; apply H; lia.
Qed.

Lemma memcmp_loop_sign n m p q :
  (memcmp_loop n m p q = 0 <-> read_bytes n m p = read_bytes n m q) /\
  -255 <= memcmp_loop n m p q <= 255.
Proof.
  revert p q. induction n as [|n IH]; intros p q; cbn [memcmp_loop read_bytes].
  { split; [done|lia]. }
  pose proof (ld8_range m p). pose proof (ld8_range m q).
  destruct (ld8 m p =? ld8 m q) eqn:E.
  - destruct (IH (p + 1) (q + 1)) as [IH1 IH2]. split; [|lia].
    rewrite IH1. assert (ld8 m p = ld8 m q) as -> by lia.
    split; [by intros ->|by intros [= ->]].
  - split; [|lia]. split; [lia|]. intros [= Heq _]. lia.
Qed.

Lemma strncmp_loop_spec n m p q :
  (strncmp_loop n m p q = 0 <-> cstring n m p = cstring n m q).
Proof.
  revert p q. induction n as [|n IH]; intros p q; cbn [strncmp_loop cstring]; [done|].
  destruct (ld8 m p =? 0) eqn:Hp; simpl.
  - destruct (ld8 m q =? 0) eqn:Hq; [split; [done|lia]|]. split; [lia|done].
  - destruct (ld8 m p =? ld8 m q) eqn:E; simpl.
    + rewrite IH. assert ((ld8 m q =? 0) = false) as -> by lia.
      assert (ld8 m p = ld8 m q) as -> by lia.
      split; [by intros ->|by intros [= ->]].
    + split; [lia|]. destruct (ld8 m q =? 0); [done|]. intros [= Heq _]. lia.
Qed.

(** Bytes of a list, then zeros. *)
Definition padded (l : list Z) (i : Z) : Z := default 0 (l !! Z.to_nat i).

Lemma padded_cons x l i : 0 < i -> padded (x :: l) i = padded l (i - 1).
Proof.
  intros. unfold padded. replace (Z.to_nat i) with (S (Z.to_nat (i - 1))) by lia. done.
Qed.

Lemma ld8_strncpy_loop n m s t a :
  s + Z.of_nat n <= t \/ t + Z.of_nat n <= s ->
  ld8 (strncpy_loop n m s t) a =
    if decide (s <= a < s + Z.of_nat n) then padded (cstring n m t) (a - s) else ld8 m a.
Proof.
  revert m s t. induction n as [|n IH]; intros m s t Hd; cbn [strncpy_loop cstring].
  { rewrite decide_False by lia. done. }
  destruct (ld8 m t =? 0) eqn:Ht.
  - rewrite ld8_zero_loop, ld8_st8. assert (ld8 m t = 0) as -> by lia.
    repeat case_decide; try lia; done.
  - rewrite IH by lia. rewrite ld8_st8.
    rewrite (cstring_ext n (st8 m s (ld8 m t)) m).
    2:{ intros b Hb. apply ld8_st8_other. lia. }
    repeat case_decide; try lia; try done.
    + rewrite padded_cons by lia. f_equal. lia.
    + replace (a - s) with 0 by lia. cbn. apply uint8_small, ld8_range.
Qed.

Lemma ld8_safestrcpy_loop k m s t a :
  s + Z.of_nat k < t \/ t + Z.of_nat k <= s ->
  s <= a <= s + Z.of_nat (length (cstring k m t)) ->
  ld8 (safestrcpy_loop k m s t) a = padded (cstring k m t) (a - s).
Proof.
  revert m s t. induction k as [|k IH]; intros m s t Hd Ha; cbn [safestrcpy_loop cstring] in *.
  { simpl in Ha. replace a with s by lia. rewrite ld8_st8_same. by rewrite Z.sub_diag. }
  destruct (ld8 m t =? 0) eqn:Ht.
  - simpl in Ha. replace a with s by lia. rewrite ld8_st8_other by lia.
    rewrite ld8_st8_same, Z.sub_diag. assert (ld8 m t = 0) as -> by lia. done.
  - simpl length in Ha.
    assert (cstring k (st8 m s (ld8 m t)) (t + 1) = cstring k m (t + 1)) as Hc.
    { apply cstring_ext. intros b Hb. apply ld8_st8_other. lia. }
    destruct (decide (a = s)) as [->|Hne].
    + rewrite Z.sub_diag. cbn.
      assert (forall k' m' s' t', s < s' -> ld8 (safestrcpy_loop k' m' s' t') s = ld8 m' s) as Hlow.
      { clear. induction k' as [|k' IH]; intros m' s' t' Hs; cbn [safestrcpy_loop].
        - apply ld8_st8_other. lia.
        - destruct (_ =? _); [rewrite !ld8_st8_other by lia; done|].
          rewrite IH by lia. apply ld8_st8_other. lia. }
      rewrite Hlow by lia. rewrite ld8_st8_same. apply uint8_small, ld8_range.
    + rewrite IH; [|lia|rewrite Hc; lia]. rewrite Hc, padded_cons by lia. f_equal. lia.
Qed.

Lemma ld8_safestrcpy_loop_out k m s t a :
  ~ (s <= a <= s + Z.of_nat k) -> ld8 (safestrcpy_loop k m s t) a = ld8 m a.
Proof.
  revert m s t. induction k as [|k IH]; intros m s t Ha; cbn [safestrcpy_loop].
  { apply ld8_st8_other. lia. }
  destruct (_ =? _); [rewrite !ld8_st8_other by lia; done|].
  rewrite IH by lia. apply ld8_st8_other. lia.
Qed.

Lemma strlen_loop_spec k m s i fuel :
  (forall j, 0 <= j < Z.of_nat k -> ld8 m (s + i + j) <> 0) ->
  ld8 m (s + i + Z.of_nat k) = 0 -> (k < fuel)%nat ->
  strlen_loop fuel m s i = Some (i + Z.of_nat k).
Proof.
  revert i fuel. induction k as [|k IH]; intros i fuel Hnz Hz Hf;
    (destruct fuel as [|fuel]; [lia|]); cbn [strlen_loop].
  - rewrite Z.add_0_r in Hz. rewrite Hz. simpl. f_equal. lia.
  - pose proof (Hnz 0 ltac:(lia)) as H0. rewrite Z.add_0_r in H0.
    destruct (ld8 m (s + i) =? 0) eqn:E; [lia|].
    rewrite IH; [f_equal; lia| |rewrite <- Hz; f_equal; lia|lia].
    intros j Hj. replace (s + (i + 1) + j) with (s + i + (j + 1)) by lia. apply Hnz. lia.
Qed.

(** ** The contracts *)

(** [memmove] copies [n] bytes whether or not the regions overlap: the
    destination ends up with what the source held before, and nothing else
    changes. *)
Theorem memmove_moves m dst src n :
  read_bytes (Z.to_nat n) (memmove m dst src n) dst = read_bytes (Z.to_nat n) m src /\
  forall a, ~ (dst <= a < dst + n) -> ld8 (memmove m dst src n) a = ld8 m a.
Proof.
  split.
  - apply list_eq. intros i. destruct (decide (i < Z.to_nat n)%nat) as [Hi|Hi].
    + rewrite !lookup_read_bytes by done. f_equal. rewrite ld8_memmove, decide_True by lia. f_equal. lia.
    + rewrite !lookup_ge_None_2; [done|rewrite length_read_bytes; lia..].
  - intros a Ha. by rewrite ld8_memmove, decide_False.
Qed.

(** [safestrcpy] into a buffer of [n] bytes that does not overlap the
    source writes at most [n] bytes and always terminates the result: the
    buffer then holds the source string, cut to [n - 1] characters, and a
    NUL. *)
Theorem safestrcpy_terminates m s t n :
  0 < n -> s + n <= t \/ t + n <= s ->
  let str := cstring (Z.to_nat (n - 1)) m t in
  let m' := safestrcpy m s t n in
  read_bytes (length str) m' s = str /\ ld8 m' (s + Z.of_nat (length str)) = 0 /\
  Z.of_nat (length str) < n /\ forall a, ~ (s <= a < s + n) -> ld8 m' a = ld8 m a.
Proof.
  intros Hn Hd str m'. pose proof (length_cstring (Z.to_nat (n - 1)) m t) as Hl. fold str in Hl.
  assert (m' = safestrcpy_loop (Z.to_nat (n - 1)) m s t) as ->
    by (unfold m', safestrcpy; by replace (n <=? 0) with false by lia).
  assert (forall a, s <= a <= s + Z.of_nat (length str) ->
    ld8 (safestrcpy_loop (Z.to_nat (n - 1)) m s t) a = padded str (a - s)) as Hp
    by (intros a Ha; apply ld8_safestrcpy_loop; [lia|done]).
  split; [|split; [|split; [lia|]]].
  - apply list_eq. intros i. destruct (decide (i < length str)%nat) as [Hi|Hi].
    + rewrite lookup_read_bytes by done. rewrite Hp by lia. unfold padded.
      replace (Z.to_nat (s + Z.of_nat i - s)) with i by lia. by destruct (lookup_lt_is_Some_2 str i Hi) as [x ->].
    + rewrite !lookup_ge_None_2; [done|lia|rewrite length_read_bytes; lia].
  - rewrite Hp by lia. unfold padded. by rewrite lookup_ge_None_2 by lia.
  - intros a Ha. apply ld8_safestrcpy_loop_out. lia.
Qed.

Lemma safestrcpy_terminates_witness :
  let m := write_bytes ∅ 100 [104; 101; 108; 108; 111; 0] in
  read_bytes 3 (safestrcpy m 0 100 4) 0 = [104; 101; 108] /\ ld8 (safestrcpy m 0 100 4) 3 = 0.
Proof.
  intros m. destruct (safestrcpy_terminates m 0 100 4) as (H1 & H2 & _); [lia|lia|]. split; [exact H1|exact H2].
Defined.
