(* ===== verification/Kalloc.v ===== *)
(** * kernel/kalloc.c, kernel/memlayout.h and the page macros of kernel/riscv.h

    The physical page allocator.  Free pages form a linked list threaded
    through the pages themselves ([struct run]): the first 8 bytes of a free
    page hold the address of the next one.  [free_pages] relates that list in
    memory to the list of free page addresses, and the theorems show that
    kalloc.c implements a stack of distinct pages. *)

From S2P Require Import Prelude Memory KString.

(** ** Memory layout *)

Definition PGSIZE : Z := 4096.
Definition KERNBASE : Z := 0x80000000.
Definition PHYSTOP : Z := KERNBASE + 128 * 1024 * 1024.

(** [#define PGROUNDUP(sz)  (((sz)+PGSIZE-1) & ~(PGSIZE-1))] at uint64. *)
Definition PGROUNDUP (sz : Z) : Z := Z.land (uint64 (sz + PGSIZE - 1)) (uint64 (Z.lnot (PGSIZE - 1))).
Definition PGROUNDDOWN (a : Z) : Z := Z.land (uint64 a) (uint64 (Z.lnot (PGSIZE - 1))).

(** Addresses that the linker script and the assembly files define. *)
Class KernelImage := {
  kernel_end : Z;        (* end[], first address after the kernel *)
  etext : Z;             (* etext[], end of the kernel code *)
  trampoline : Z         (* trampoline[], the page of trampoline.S *)
}.

(** kernel.ld places the kernel at KERNBASE, page-aligns the trampoline and
    the end of the text, and the image fits in RAM. *)
Class KernelImageOk (I : KernelImage) : Prop := {
  kernel_end_range : KERNBASE < kernel_end < PHYSTOP;
  etext_range : KERNBASE < etext <= kernel_end;
  etext_aligned : etext mod PGSIZE = 0;
  trampoline_range : KERNBASE <= trampoline < etext;
  trampoline_aligned : trampoline mod PGSIZE = 0
}.

(** ** State and operations *)

(** RAM and the head of the list of free pages (0 is the null pointer).
    [kmem.lock] makes each operation one atomic step. *)
Record kmem := Kmem { km_mem : memory; km_freelist : Z }.

Section kalloc.
Context `{I : KernelImage}.

Definition kfree (pa : Z) : K kmem unit := fun s =>
  if negb (pa mod PGSIZE =? 0) || (pa <? kernel_end) || (PHYSTOP <=? pa)
  then Panic "kfree"
  else
    let m := memset (km_mem s) pa 1 PGSIZE in
    Ret tt (Kmem (st64 m pa (km_freelist s)) pa).

Definition kalloc : K kmem Z := fun s =>
  let r := km_freelist s in
  if r =? 0 then Ret 0 s
  else Ret r (Kmem (memset (km_mem s) r 5 PGSIZE) (ld64 (km_mem s) r)).

(** [for(; p + PGSIZE <= pa_end; p += PGSIZE) kfree(p);] *)
Fixpoint freerange_loop (fuel : nat) (p pa_end : Z) : K kmem unit :=
  match fuel with
  | O => kdiverge
  | S fuel' =>
      if p + PGSIZE <=? pa_end
      then kfree p ;;; freerange_loop fuel' (p + PGSIZE) pa_end
      else kret tt
  end.

Definition freerange (pa_start pa_end : Z) : K kmem unit :=
  let p := PGROUNDUP pa_start in
  freerange_loop (S (Z.to_nat ((pa_end - p) / PGSIZE))) p pa_end.

Definition kinit : K kmem unit := freerange kernel_end PHYSTOP.

(** ** Invariant *)

(** A page that kfree accepts. *)
Definition ram_page (a : Z) : Prop := a mod PGSIZE = 0 /\ kernel_end <= a < PHYSTOP.

(** The list threaded through memory from [p] visits exactly the pages [l]. *)
Fixpoint free_list (m : memory) (p : Z) (l : list Z) : Prop :=
  match l with
  | [] => p = 0
  | x :: l' => p = x /\ free_list m (ld64 m x) l'
  end.

(** The allocator's invariant: the free list is the list [l] of distinct
    pages of RAM. *)
Definition free_pages (s : kmem) (l : list Z) : Prop :=
  free_list (km_mem s) (km_freelist s) l /\ NoDup l /\ Forall ram_page l.

End kalloc.

(** The page that holds an address. *)
Definition in_page (p a : Z) : Prop := p <= a < p + PGSIZE.

(** ** Arithmetic on pages *)

Lemma land_page_mask a : 0 <= a < 2 ^ 64 ->
  Z.land a (uint64 (Z.lnot (PGSIZE - 1))) = a - a mod PGSIZE.
Proof.
  intros Ha. change (uint64 (Z.lnot (PGSIZE - 1))) with (Z.shiftl (Z.ones 52) 12).
  assert (a - a mod PGSIZE = Z.shiftl (Z.shiftr a 12) 12) as ->.
  { rewrite Z.shiftr_div_pow2, Z.shiftl_mul_pow2 by lia. unfold PGSIZE.
    pose proof (Z.div_mod a 4096). change (2 ^ 12) with 4096. lia. }
  apply Z.bits_inj'. intros n Hn. rewrite Z.land_spec, !Z.shiftl_spec by lia.
  destruct (decide (n < 12)).
  { rewrite !(Z.testbit_neg_r _ (n - 12)) by lia. by rewrite andb_false_r. }
  rewrite Z.shiftr_spec by lia. replace (n - 12 + 12) with n by lia.
  destruct (decide (n < 64)).
  { rewrite Z.ones_spec_low by lia. by rewrite andb_true_r. }
  assert (Z.testbit a n = false) as ->; [|done].
  destruct (decide (a = 0)) as [->|]; [apply Z.bits_0|].
  apply Z.bits_above_log2; [lia|]. apply Z.log2_lt_pow2; [lia|].
  apply Z.lt_le_trans with (2 ^ 64); [lia|]. apply Z.pow_le_mono_r; lia.
Qed.

Lemma PGROUNDDOWN_eq a : 0 <= a < 2 ^ 64 -> PGROUNDDOWN a = a - a mod PGSIZE.
Proof. intros. unfold PGROUNDDOWN. rewrite uint64_small by lia. by apply land_page_mask. Qed.

Lemma PGROUNDUP_eq a : 0 <= a <= 2 ^ 64 - PGSIZE ->
  PGROUNDUP a = (a + PGSIZE - 1) - (a + PGSIZE - 1) mod PGSIZE.
Proof.
  intros. unfold PGROUNDUP. unfold PGSIZE in *. rewrite uint64_small by lia.
  apply land_page_mask. lia.
Qed.

Lemma PGROUNDUP_spec a : 0 <= a <= 2 ^ 64 - PGSIZE ->
  PGROUNDUP a mod PGSIZE = 0 /\ a <= PGROUNDUP a < a + PGSIZE.
Proof.
  intros H. rewrite PGROUNDUP_eq by done. unfold PGSIZE in *.
  Z.div_mod_to_equations. lia.
Qed.

Lemma PGROUNDDOWN_spec a : 0 <= a < 2 ^ 64 ->
  PGROUNDDOWN a mod PGSIZE = 0 /\ PGROUNDDOWN a <= a < PGROUNDDOWN a + PGSIZE.
Proof.
  intros H. rewrite PGROUNDDOWN_eq by done. unfold PGSIZE in *.
  Z.div_mod_to_equations. lia.
Qed.

Lemma pages_apart p q : p mod PGSIZE = 0 -> q mod PGSIZE = 0 -> p <> q ->
  p + PGSIZE <= q \/ q + PGSIZE <= p.
Proof. unfold PGSIZE. intros. Z.div_mod_to_equations. lia. Qed.

(** ** The allocator is a stack of distinct pages *)

Section theorems.
Context `{I : KernelImage} `{Ok : !KernelImageOk I}.

Lemma kernel_end_pos : 0 < kernel_end.
Proof. pose proof kernel_end_range. unfold KERNBASE in *. lia. Qed.

Lemma ram_page_pos a : ram_page a -> 0 < a.
Proof. pose proof kernel_end_pos. unfold ram_page. lia. Qed.

Lemma ram_page_bound a : ram_page a -> a + PGSIZE <= PHYSTOP.
Proof.
  unfold ram_page, PHYSTOP, KERNBASE, PGSIZE. intros [H1 H2].
  Z.div_mod_to_equations. lia.
Qed.

Lemma ram_pages_apart a b : ram_page a -> ram_page b -> a <> b ->
  a + PGSIZE <= b \/ b + PGSIZE <= a.
Proof. intros [Ha _] [Hb _]. by apply pages_apart. Qed.

(** The list is unchanged when memory is, at the first 8 bytes of its pages. *)
Lemma free_list_ext m m' p l :
  (forall x, x ∈ l -> ld64 m' x = ld64 m x) -> free_list m p l -> free_list m' p l.
Proof.
  revert p. induction l as [|x l IH]; intros p H Hl; [done|].
  destruct Hl as [-> Hl]. split; [done|]. rewrite H by left.
  apply IH; [|done]. intros y Hy. apply H. by right.
Qed.

Lemma free_pages_head s x l : free_pages s (x :: l) -> km_freelist s = x /\ ram_page x /\ x ∉ l.
Proof.
  intros ([Hx _] & Hnd & Hram). apply NoDup_cons in Hnd as [? _].
  apply Forall_cons in Hram as [? _]. done.
Qed.

(** A write outside the free pages keeps the invariant. *)
Lemma free_pages_ext s m' l :
  (forall x a, x ∈ l -> in_page x a -> ld8 m' a = ld8 (km_mem s) a) ->
  free_pages s l -> free_pages (Kmem m' (km_freelist s)) l.
Proof.
  intros H (Hl & Hnd & Hram). split; [|done]. simpl.
  eapply free_list_ext; [|exact Hl]. intros x Hx. apply ld64_ext.
  intros b Hb. apply (H x); [done|]. unfold in_page, PGSIZE. lia.
Qed.

Lemma kalloc_some s x l :
  free_pages s (x :: l) ->
  kalloc s = Ret x (Kmem (memset (km_mem s) x 5 PGSIZE) (ld64 (km_mem s) x)) /\
  free_pages (Kmem (memset (km_mem s) x 5 PGSIZE) (ld64 (km_mem s) x)) l.
Proof.
  intros Hf. pose proof (free_pages_head _ _ _ Hf) as (Hhd & Hx & Hnx).
  destruct Hf as ((_ & Hl) & Hnd & Hram).
  pose proof (ram_page_pos x Hx).
  apply NoDup_cons in Hnd as [_ Hnd]. apply Forall_cons in Hram as [_ Hram].
  split.
  - unfold kalloc. rewrite Hhd. destruct (x =? 0) eqn:E; [lia|done].
  - split; [|done]. cbn [km_mem km_freelist]. eapply free_list_ext; [|exact Hl].
    intros y Hy. rewrite Forall_forall in Hram. specialize (Hram y Hy).
    assert (x <> y) by congruence.
    pose proof (ram_pages_apart x y Hx Hram ltac:(done)).
    apply ld64_memset_out. unfold PGSIZE in *. lia.
Qed.

Lemma kalloc_none s : free_pages s [] -> kalloc s = Ret 0 s.
Proof. intros [Hl _]. unfold kalloc. simpl in Hl. rewrite Hl. done. Qed.

Lemma kfree_ok s pa l :
  free_pages s l -> ram_page pa -> pa ∉ l ->
  let s' := Kmem (st64 (memset (km_mem s) pa 1 PGSIZE) pa (km_freelist s)) pa in
  kfree pa s = Ret tt s' /\ free_pages s' (pa :: l).
Proof.
  intros (Hl & Hnd & Hram) Hpa Hn s'. pose proof Hpa as [Hal Hr]. split.
  { unfold kfree. rewrite Hal. simpl.
    destruct (pa <? kernel_end) eqn:E1; [lia|]. destruct (PHYSTOP <=? pa) eqn:E2; [lia|]. done. }
  split; [|by split; constructor].
  cbn [s' km_mem km_freelist free_list]. split; [done|].
  rewrite ld64_st64_same, uint64_small.
  2:{ destruct l as [|y l]; simpl in Hl; [lia|]. destruct Hl as [-> _].
      apply Forall_cons in Hram as [[? ?] _]. pose proof kernel_end_pos.
      unfold PHYSTOP, KERNBASE in *. lia. }
  eapply free_list_ext; [|exact Hl]. intros x Hx.
  rewrite Forall_forall in Hram. specialize (Hram x Hx).
  assert (pa <> x) by congruence.
  pose proof (ram_pages_apart pa x Hpa Hram ltac:(done)). unfold PGSIZE in *.
  rewrite ld64_st64_other by lia. rewrite ld64_memset_out by lia. done.
Qed.

Lemma kfree_panics s pa : ~ ram_page pa -> kfree pa s = Panic "kfree".
Proof.
  intros H. unfold kfree.
  destruct (pa mod PGSIZE =? 0) eqn:E1; simpl; [|done].
  destruct (pa <? kernel_end) eqn:E2; simpl; [done|].
  destruct (PHYSTOP <=? pa) eqn:E3; [done|].
  exfalso. apply H. split; lia.
Qed.

(** The pages that [freerange] frees, lowest address last. *)
Fixpoint pages_from (n : nat) (p : Z) : list Z :=
  match n with
  | O => []
  | S n' => p :: pages_from n' (p + PGSIZE)
  end.

Lemma elem_of_pages_from n p a :
  a ∈ pages_from n p <-> exists i, 0 <= i < Z.of_nat n /\ a = p + i * PGSIZE.
Proof.
  revert p. induction n as [|n IH]; intros p; cbn [pages_from].
  { rewrite elem_of_nil. split; [done|]. intros (i & ? & _). lia. }
  rewrite elem_of_cons, IH. split.
  - intros [->|(i & Hi & ->)]; [exists 0; lia|]. exists (i + 1). lia.
  - intros (i & Hi & ->). destruct (decide (i = 0)) as [->|]; [left; lia|].
    right. exists (i - 1). lia.
Qed.

Lemma NoDup_pages_from n p : NoDup (pages_from n p).
Proof.
  revert p. induction n as [|n IH]; intros p; cbn [pages_from]; constructor; [|apply IH].
  rewrite elem_of_pages_from. intros (i & Hi & Heq). unfold PGSIZE in *. lia.
Qed.

Lemma freerange_loop_ok n : forall fuel p pa_end s l,
  (n < fuel)%nat -> p mod PGSIZE = 0 -> kernel_end <= p -> pa_end <= PHYSTOP ->
  p + Z.of_nat n * PGSIZE <= pa_end < p + Z.of_nat n * PGSIZE + PGSIZE ->
  free_pages s l -> (forall x, x ∈ l -> x < p) ->
  exists s', freerange_loop fuel p pa_end s = Ret tt s' /\
    free_pages s' (rev (pages_from n p) ++ l).
Proof.
  induction n as [|n IH]; intros fuel p pa_end s l Hfuel Hal Hlo Hhi Hend Hf Hlt;
    (destruct fuel as [|fuel]; [lia|]); cbn [freerange_loop].
  { destruct (p + PGSIZE <=? pa_end) eqn:E; [lia|]. exists s. done. }
  assert (ram_page p) as Hp by (unfold ram_page, PGSIZE in *; lia).
  destruct (p + PGSIZE <=? pa_end) eqn:E; [|unfold PGSIZE in *; lia].
  destruct (kfree_ok s p l Hf Hp) as [Hk Hf'].
  { intros Hin. specialize (Hlt _ Hin). lia. }
  kstep Hk.
  edestruct (IH fuel (p + PGSIZE) pa_end) as (s' & Hs' & Hfp);
    [| | | | |exact Hf'| |]; try (unfold PGSIZE in *; lia).
  - unfold PGSIZE in *. rewrite <- Hal. change 4096 with (1 * 4096) at 1.
    by rewrite Z.mod_add by lia.
  - intros x [->|Hx]%elem_of_cons; [unfold PGSIZE; lia|]. specialize (Hlt _ Hx).
    unfold PGSIZE; lia.
  - exists s'. split; [done|]. cbn [pages_from rev]. by rewrite <- app_assoc.
Qed.

Lemma freerange_ok pa_start pa_end s :
  kernel_end <= pa_start -> pa_start <= pa_end -> pa_end <= PHYSTOP ->
  km_freelist s = 0 ->
  exists s' n, freerange pa_start pa_end s = Ret tt s' /\
    free_pages s' (rev (pages_from n (PGROUNDUP pa_start))) /\
    PGROUNDUP pa_start + Z.of_nat n * PGSIZE <= Z.max pa_end (PGROUNDUP pa_start) /\
    pa_end < PGROUNDUP pa_start + Z.of_nat n * PGSIZE + PGSIZE.
Proof.
  intros Hlo Hle Hhi Hs. pose proof kernel_end_pos. unfold freerange.
  destruct (PGROUNDUP_spec pa_start) as [Hal Hr].
  { unfold PHYSTOP, KERNBASE, PGSIZE in *. lia. }
  set (p := PGROUNDUP pa_start) in *.
  assert (free_pages s []) as Hf by (split; [done|split; constructor]).
  destruct (decide (p <= pa_end)) as [Hp|Hp].
  - set (n := Z.to_nat ((pa_end - p) / PGSIZE)).
    assert (Z.of_nat n * PGSIZE <= pa_end - p < Z.of_nat n * PGSIZE + PGSIZE) as Hn.
    { unfold n, PGSIZE in *. rewrite Z2Nat.id by (apply Z.div_pos; lia).
      Z.div_mod_to_equations. lia. }
    destruct (freerange_loop_ok n (S n) p pa_end s []) as (s' & Hs' & Hfp);
      try lia; try done; [intros x Hx; by apply elem_of_nil in Hx|].
    exists s', n. rewrite app_nil_r in Hfp. repeat split; try done; try lia; apply Hfp.
  - exists s, 0%nat. rewrite Z.max_r by lia.
    assert ((pa_end - p) / PGSIZE = -1) as ->.
    { unfold PGSIZE in *. Z.div_mod_to_equations. lia. }
    cbn [Z.to_nat freerange_loop]. destruct (p + PGSIZE <=? pa_end) eqn:E; [lia|].
    repeat split; try done; try lia; apply Hf.
Qed.

End theorems.

(** ** A concrete layout *)

(** A kernel of 256 KiB. *)
Definition image0 : KernelImage := {|
  kernel_end := 0x80040000;
  etext := 0x80010000;
  trampoline := 0x8000f000
|}.

Lemma image0_ok : KernelImageOk image0.
Proof. split; by vm_compute. Qed.
