(* ===== verification/KallocSpec.v ===== *)
(** * The contract of the page allocator

    Clients of kalloc.c hold the pages they were given, write to them as they
    like and give them back.  In every run from the state [kinit] leaves, the
    pages held and the pages free are together exactly the pages of RAM above
    the kernel, each once: [kalloc] never hands out a page that is held, and
    fails only when every page is held. *)

From S2P Require Import Prelude Memory KString Kalloc.

Section contract.
Context `{I : KernelImage} `{Ok : !KernelImageOk I}.

(** The allocator and the pages its clients hold. *)
Inductive cstep : kmem * list Z -> kmem * list Z -> Prop :=
| c_alloc s h r s' : kalloc s = Ret r s' -> r <> 0 -> cstep (s, h) (s', r :: h)
| c_free s h p s' : p ∈ h -> kfree p s = Ret tt s' -> cstep (s, h) (s', filter (fun q => q <> p) h)
| c_write s h m : (forall b, (forall p, p ∈ h -> ~ in_page p b) -> ld8 m b = ld8 (km_mem s) b) ->
    cstep (s, h) (Kmem m (km_freelist s), h).

Definition creach (s : kmem) (c : kmem * list Z) : Prop := rtc cstep (s, []) c.

Definition owned (c : kmem * list Z) : Prop :=
  exists F, free_pages (fst c) F /\ NoDup (snd c ++ F) /\ (forall p, p ∈ snd c ++ F <-> ram_page p).

Lemma kinit_pages s : km_freelist s = 0 -> exists s' F, kinit s = Ret tt s' /\ free_pages s' F /\
  forall p, p ∈ F <-> ram_page p.
Proof.
  intros Hs. pose proof kernel_end_range as He.
  destruct (freerange_ok kernel_end PHYSTOP s) as (s' & n & H1 & H2 & H3 & H4); [lia..|done|].
  exists s'. eexists. split; [done|]. split; [exact H2|].
  destruct (PGROUNDUP_spec kernel_end) as [Ha Hr]; [pose proof kernel_end_pos; unfold PHYSTOP, KERNBASE, PGSIZE in *; lia|].
  set (p0 := PGROUNDUP kernel_end) in *. assert (PHYSTOP mod PGSIZE = 0) as Hp by done.
  intros p. rewrite elem_of_rev, elem_of_pages_from. unfold ram_page.
  unfold PHYSTOP, KERNBASE, PGSIZE in *. split.
  - intros (i & Hi & ->). split; [|lia]. by rewrite Z.mod_add by lia.
  - intros [Hm Hrp]. exists ((p - p0) / 4096). Z.div_mod_to_equations. lia.
Qed.

(** Pages of RAM that are not the same do not share an address. *)
Lemma in_page_ram p q b : ram_page p -> ram_page q -> in_page p b -> in_page q b -> p = q.
Proof.
  intros Hp Hq Hpb Hqb. destruct (decide (p = q)) as [|Hne]; [done|].
  pose proof (ram_pages_apart p q Hp Hq Hne). unfold in_page, PGSIZE in *. lia.
Qed.

Lemma owned_step c c' : cstep c c' -> owned c -> owned c'.
Proof.
  intros [s h r s' Hk Hr|s h p s' Hp Hk|s h m Hm] (F & Hf & Hnd & Hall); cbn [fst snd] in *.
  - destruct F as [|x F].
    { rewrite kalloc_none in Hk by done. injection Hk as <- <-. done. }
    destruct (kalloc_some s x F Hf) as [Hk' Hf']. rewrite Hk' in Hk. injection Hk as <- <-.
    exists F. cbn [fst snd]. split; [done|].
    assert ((x :: h) ++ F ≡ₚ h ++ x :: F) as Hperm by (cbn; by rewrite Permutation_middle).
    split; [by rewrite Hperm|]. intros q. by rewrite Hperm.
  - assert (ram_page p) as Hrp by (apply Hall, elem_of_app; by left).
    apply NoDup_app in Hnd as (Hnh & Hd & HnF).
    destruct (kfree_ok s p F Hf Hrp (Hd p Hp)) as [Hk' Hf']. rewrite Hk' in Hk. injection Hk as <-.
    exists (p :: F). cbn [fst snd]. split; [done|].
    split.
    + apply NoDup_app. split; [by apply NoDup_filter|]. split; [|constructor; [by apply Hd|done]].
      intros q [Hq Hqh]%list_elem_of_filter [->|Hin]%elem_of_cons; [done|]. by apply (Hd q).
    + intros q. rewrite <- Hall, !elem_of_app, list_elem_of_filter, elem_of_cons.
      destruct (decide (q = p)) as [->|]; tauto.
  - exists F. split; [|done]. cbn [fst snd]. apply free_pages_ext; [|done].
    intros x a Hx Ha. apply Hm. intros p Hp Hpa. apply NoDup_app in Hnd as (_ & Hd & _).
    assert (p = x) as -> by (eapply in_page_ram; [..|exact Hpa|exact Ha]; apply Hall, elem_of_app; tauto).
    by apply (Hd x).
Qed.

(** C12: The page allocator keeps its contract.  [kinit] returns, and whatever
    clients then do with [kalloc], [kfree] and the pages they hold, pages held
    are distinct, [kalloc] returns either a page of RAM that no client holds,
    or 0 and then every page of RAM above the kernel is held, and [kfree] of a
    page held returns. *)
Theorem kalloc_contract s0 : km_freelist s0 = 0 ->
  exists s1, kinit s0 = Ret tt s1 /\ forall s h, creach s1 (s, h) ->
    NoDup h /\
    (exists r s', kalloc s = Ret r s' /\
       (r = 0 /\ (forall p, p ∈ h <-> ram_page p) \/ r <> 0 /\ ram_page r /\ r ∉ h)) /\
    (forall p, p ∈ h -> exists s', kfree p s = Ret tt s').
Proof.
  intros Hs. destruct (kinit_pages s0 Hs) as (s1 & F1 & H1 & Hf1 & Hall1). exists s1. split; [done|]. intros s h Hr.
  assert (owned (s, h)) as (F & Hf & Hnd & Hall).
  { assert (owned (s1, [])) as Ho by (exists F1; split; [done|]; split; [apply Hf1|done]).
    unfold creach in Hr. clear -Hr Ho Ok. revert Ho. induction Hr as [c|c c1 c2 Hst _ IH]; [done|].
    intros Ho. apply IH. by apply owned_step with c. }
  cbn [fst snd] in *. pose proof Hnd as (Hnh & Hd & _)%NoDup_app. split; [done|]. split.
  - destruct F as [|x F].
    + exists 0, s. split; [by apply kalloc_none|]. left. split; [done|]. intros p. by rewrite <- Hall, app_nil_r.
    + destruct (kalloc_some s x F Hf) as [Hk _]. eexists x, _. split; [exact Hk|]. right.
      destruct (free_pages_head _ _ _ Hf) as (_ & Hx & _). split; [|split; [done|]].
      * pose proof (ram_page_pos x Hx). lia.
      * intros Hin. apply (Hd x Hin). by left.
  - intros p Hp. destruct (kfree_ok s p F Hf) as [Hk _]; [apply Hall, elem_of_app; by left|by apply Hd|].
    by eexists.
Qed.

End contract.

Lemma kalloc_contract_witness : exists s1, @kinit image0 (Kmem ∅ 0) = Ret tt s1 /\
  exists r s', kalloc s1 = Ret r s' /\ r <> 0.
Proof.
  destruct (@kalloc_contract image0 image0_ok (Kmem ∅ 0) eq_refl) as (s1 & H1 & H2). exists s1. split; [exact H1|].
  destruct (H2 s1 [] (rtc_refl _ _)) as (_ & (r & s' & Hk & [[_ Hall]|[Hr _]]) & _).
  - exfalso. clear -Hall. apply (not_elem_of_nil 0x80040000), Hall. split; done.
  - exists r, s'. by split.
Defined.
