(* ===== verification/Vm.v ===== *)
(** * kernel/vm.c: page tables and user memory

    The Sv39 page-table code of vm.c over the memory and allocator of
    [Kalloc].  Page tables live in RAM: a page-table page is 512
    little-endian 64-bit entries, and [walk] reads and writes them there.
    Pointers are addresses, 0 is the null pointer.  Kernel buffers that are
    not pages of the allocator (stack variables, buffer-cache data) are
    byte lists. *)

From S2P Require Import Prelude Memory KString Kalloc.

(** ** Constants and macros of riscv.h and memlayout.h *)

Definition PTE_V : Z := 1.
Definition PTE_R : Z := 2.
Definition PTE_W : Z := 4.
Definition PTE_X : Z := 8.
Definition PTE_U : Z := 16.

Definition PA2PTE (pa : Z) : Z := uint64 (Z.shiftl (Z.shiftr pa 12) 10).
Definition PTE2PA (pte : Z) : Z := uint64 (Z.shiftl (Z.shiftr pte 10) 12).
Definition PTE_FLAGS (pte : Z) : Z := Z.land pte 0x3FF.

Definition PXMASK : Z := 0x1FF.
Definition PXSHIFT (level : Z) : Z := 12 + 9 * level.
Definition PX (level va : Z) : Z := Z.land (Z.shiftr va (PXSHIFT level)) PXMASK.

Definition MAXVA : Z := Z.shiftl 1 (9 + 9 + 9 + 12 - 1).
Definition TRAMPOLINE : Z := MAXVA - PGSIZE.
Definition TRAPFRAME : Z := TRAMPOLINE - PGSIZE.
Definition KSTACK (p : Z) : Z := TRAMPOLINE - (p + 1) * 2 * PGSIZE.

Definition UART0 : Z := 0x10000000.
Definition VIRTIO0 : Z := 0x10001000.
Definition PLIC : Z := 0x0c000000.
Definition NPROC : Z := 64.

(** The C test [x & flag]. *)
Definition has (x flag : Z) : bool := negb (Z.land x flag =? 0).

(** Reading and writing RAM through a pointer. *)
Definition kld64 (a : Z) : K kmem Z := fun s => Ret (ld64 (km_mem s) a) s.
Definition kst64 (a v : Z) : K kmem unit := fun s => Ret tt (Kmem (st64 (km_mem s) a v) (km_freelist s)).
Definition kmemset (dst c n : Z) : K kmem unit := fun s =>
  Ret tt (Kmem (memset (km_mem s) dst c n) (km_freelist s)).
Definition kmemmove (dst src n : Z) : K kmem unit := fun s =>
  Ret tt (Kmem (memmove (km_mem s) dst src n) (km_freelist s)).
Definition kwrite (a : Z) (bs : list Z) : K kmem unit := fun s =>
  Ret tt (Kmem (write_bytes (km_mem s) a bs) (km_freelist s)).
Definition kread (a n : Z) : K kmem (list Z) := fun s =>
  Ret (read_bytes (Z.to_nat n) (km_mem s) a) s.

Section vm.
Context `{I : KernelImage}.

(** ** Walking the page table *)

(** The loop of [walk] from [level] down to level 0. *)
Fixpoint walk_from (level : nat) (pagetable va : Z) (alloc : bool) : K kmem Z :=
  match level with
  | O => kret (pagetable + 8 * PX 0 va)
  | S level' =>
      let pte := pagetable + 8 * PX (Z.of_nat level) va in
      v <- kld64 pte ;;
      if has v PTE_V then walk_from level' (PTE2PA v) va alloc
      else if negb alloc then kret 0
      else
        pagetable' <- kalloc ;;
        if pagetable' =? 0 then kret 0
        else
          kmemset pagetable' 0 PGSIZE ;;;
          kst64 pte (Z.lor (PA2PTE pagetable') PTE_V) ;;;
          walk_from level' pagetable' va alloc
  end.

Definition walk (pagetable va : Z) (alloc : bool) : K kmem Z :=
  if MAXVA <=? va then panic "walk" else walk_from 2 pagetable va alloc.

Definition walkaddr (pagetable va : Z) : K kmem Z :=
  if MAXVA <=? va then kret 0
  else
    pte <- walk pagetable va false ;;
    if pte =? 0 then kret 0
    else
      v <- kld64 pte ;;
      if negb (has v PTE_V) then kret 0
      else if negb (has v PTE_U) then kret 0
      else kret (PTE2PA v).

(** ** Adding and removing mappings *)

Fixpoint mappages_loop (fuel : nat) (pagetable a last pa perm : Z) : K kmem Z :=
  match fuel with
  | O => kdiverge
  | S fuel' =>
      pte <- walk pagetable a true ;;
      if pte =? 0 then kret (-1)
      else
        v <- kld64 pte ;;
        if has v PTE_V then panic "mappages: remap"
        else
          kst64 pte (Z.lor (Z.lor (PA2PTE pa) perm) PTE_V) ;;;
          if a =? last then kret 0
          else mappages_loop fuel' pagetable (uint64 (a + PGSIZE)) last (uint64 (pa + PGSIZE)) perm
  end.

Definition mappages (pagetable va size pa perm : Z) : K kmem Z :=
  if negb (va mod PGSIZE =? 0) then panic "mappages: va not aligned"
  else if negb (size mod PGSIZE =? 0) then panic "mappages: size not aligned"
  else if size =? 0 then panic "mappages: size"
  else mappages_loop (Z.to_nat (size / PGSIZE)) pagetable va (uint64 (va + size - PGSIZE)) pa perm.

Definition kvmmap (kpgtbl va pa sz perm : Z) : K kmem unit :=
  r <- mappages kpgtbl va sz pa perm ;;
  if negb (r =? 0) then panic "kvmmap" else kret tt.

Fixpoint uvmunmap_loop (fuel : nat) (pagetable a last : Z) (do_free : bool) : K kmem unit :=
  match fuel with
  | O => kdiverge
  | S fuel' =>
      if a <? last then
        pte <- walk pagetable a false ;;
        if pte =? 0 then panic "uvmunmap: walk"
        else
          v <- kld64 pte ;;
          if negb (has v PTE_V) then panic "uvmunmap: not mapped"
          else if PTE_FLAGS v =? PTE_V then panic "uvmunmap: not a leaf"
          else
            (if do_free then kfree (PTE2PA v) else kret tt) ;;;
            kst64 pte 0 ;;;
            uvmunmap_loop fuel' pagetable (uint64 (a + PGSIZE)) last do_free
      else kret tt
  end.

Definition uvmunmap (pagetable va npages : Z) (do_free : bool) : K kmem unit :=
  if negb (va mod PGSIZE =? 0) then panic "uvmunmap: not aligned"
  else uvmunmap_loop (S (Z.to_nat npages)) pagetable va (uint64 (va + npages * PGSIZE)) do_free.

(** ** Creating, growing and shrinking user memory *)

Definition uvmcreate : K kmem Z :=
  pagetable <- kalloc ;;
  if pagetable =? 0 then kret 0
  else kmemset pagetable 0 PGSIZE ;;; kret pagetable.

Definition uvmfirst (pagetable : Z) (src : list Z) : K kmem unit :=
  let sz := Z.of_nat (length src) in
  if PGSIZE <=? sz then panic "uvmfirst: more than a page"
  else
    mem <- kalloc ;;
    kmemset mem 0 PGSIZE ;;;
    mappages pagetable 0 PGSIZE mem (Z.lor (Z.lor (Z.lor PTE_W PTE_R) PTE_X) PTE_U) ;;;
    kwrite mem src.

Definition uvmdealloc (pagetable oldsz newsz : Z) : K kmem Z :=
  if oldsz <=? newsz then kret oldsz
  else
    (if PGROUNDUP newsz <? PGROUNDUP oldsz then
       let npages := int32 ((PGROUNDUP oldsz - PGROUNDUP newsz) / PGSIZE) in
       uvmunmap pagetable (PGROUNDUP newsz) (uint64 npages) true
     else kret tt) ;;;
    kret newsz.

Fixpoint uvmalloc_loop (fuel : nat) (pagetable a oldsz newsz xperm : Z) : K kmem Z :=
  match fuel with
  | O => kdiverge
  | S fuel' =>
      if a <? newsz then
        mem <- kalloc ;;
        if mem =? 0 then uvmdealloc pagetable a oldsz ;;; kret 0
        else
          kmemset mem 0 PGSIZE ;;;
          r <- mappages pagetable a PGSIZE mem (Z.lor (Z.lor PTE_R PTE_U) xperm) ;;
          if negb (r =? 0) then
            kfree mem ;;; uvmdealloc pagetable a oldsz ;;; kret 0
          else uvmalloc_loop fuel' pagetable (uint64 (a + PGSIZE)) oldsz newsz xperm
      else kret newsz
  end.

Definition uvmalloc (pagetable oldsz newsz xperm : Z) : K kmem Z :=
  if newsz <? oldsz then kret oldsz
  else
    let oldsz := PGROUNDUP oldsz in
    uvmalloc_loop (S (S (Z.to_nat ((newsz - oldsz) / PGSIZE)))) pagetable oldsz oldsz newsz xperm.

(** The loop of [freewalk] over the entries from [i] on, with the recursive
    call as an argument. *)
Fixpoint freewalk_loop (freewalk : Z -> K kmem unit) (pagetable : Z) (k : nat) (i : Z) : K kmem unit :=
  match k with
  | O => kfree pagetable
  | S k' =>
      pte <- kld64 (pagetable + 8 * i) ;;
      if has pte PTE_V && (Z.land pte (Z.lor (Z.lor PTE_R PTE_W) PTE_X) =? 0) then
        freewalk (PTE2PA pte) ;;;
        kst64 (pagetable + 8 * i) 0 ;;;
        freewalk_loop freewalk pagetable k' (i + 1)
      else if has pte PTE_V then panic "freewalk: leaf"
      else freewalk_loop freewalk pagetable k' (i + 1)
  end.

(** [depth] bounds the recursion; a page table has three levels. *)
Fixpoint freewalk (depth : nat) (pagetable : Z) : K kmem unit :=
  match depth with
  | O => kdiverge
  | S depth' => freewalk_loop (freewalk depth') pagetable 512 0
  end.

Definition uvmfree (pagetable sz : Z) : K kmem unit :=
  (if 0 <? sz then uvmunmap pagetable 0 (PGROUNDUP sz / PGSIZE) true else kret tt) ;;;
  freewalk 3 pagetable.

Fixpoint uvmcopy_loop (fuel : nat) (old new i sz : Z) : K kmem Z :=
  match fuel with
  | O => kdiverge
  | S fuel' =>
      if i <? sz then
        pte <- walk old i false ;;
        if pte =? 0 then panic "uvmcopy: pte should exist"
        else
          v <- kld64 pte ;;
          if negb (has v PTE_V) then panic "uvmcopy: page not present"
          else
            let pa := PTE2PA v in
            let flags := PTE_FLAGS v in
            mem <- kalloc ;;
            if mem =? 0 then uvmunmap new 0 (i / PGSIZE) true ;;; kret (-1)
            else
              kmemmove mem pa PGSIZE ;;;
              r <- mappages new i PGSIZE mem flags ;;
              if negb (r =? 0) then
                kfree mem ;;; uvmunmap new 0 (i / PGSIZE) true ;;; kret (-1)
              else uvmcopy_loop fuel' old new (uint64 (i + PGSIZE)) sz
      else kret 0
  end.

Definition uvmcopy (old new sz : Z) : K kmem Z :=
  uvmcopy_loop (S (S (Z.to_nat (sz / PGSIZE)))) old new 0 sz.

Definition uvmclear (pagetable va : Z) : K kmem unit :=
  pte <- walk pagetable va false ;;
  if pte =? 0 then panic "uvmclear"
  else
    v <- kld64 pte ;;
    kst64 pte (Z.land v (uint64 (Z.lnot PTE_U))).

(** ** Copying between kernel and user memory *)

Fixpoint copyout_loop (fuel : nat) (pagetable dstva : Z) (src : list Z) : K kmem Z :=
  match fuel with
  | O => kdiverge
  | S fuel' =>
      let len := Z.of_nat (length src) in
      if 0 <? len then
        let va0 := PGROUNDDOWN dstva in
        if MAXVA <=? va0 then kret (-1)
        else
          pte <- walk pagetable va0 false ;;
          if pte =? 0 then kret (-1)
          else
            v <- kld64 pte ;;
            if negb (has v PTE_V) || negb (has v PTE_U) || negb (has v PTE_W) then kret (-1)
            else
              let pa0 := PTE2PA v in
              let n := PGSIZE - (dstva - va0) in
              let n := if len <? n then len else n in
              kwrite (pa0 + (dstva - va0)) (take (Z.to_nat n) src) ;;;
              copyout_loop fuel' pagetable (uint64 (va0 + PGSIZE)) (drop (Z.to_nat n) src)
      else kret 0
  end.

(** Copy [len] bytes, the list [src], to virtual address [dstva]. *)
Definition copyout (pagetable dstva : Z) (src : list Z) : K kmem Z :=
  copyout_loop (S (length src)) pagetable dstva src.

(** The result is the return value and the bytes stored at [dst]. *)
Fixpoint copyin_loop (fuel : nat) (pagetable srcva len : Z) : K kmem (Z * list Z) :=
  match fuel with
  | O => kdiverge
  | S fuel' =>
      if 0 <? len then
        let va0 := PGROUNDDOWN srcva in
        pa0 <- walkaddr pagetable va0 ;;
        if pa0 =? 0 then kret (-1, [])
        else
          let n := PGSIZE - (srcva - va0) in
          let n := if len <? n then len else n in
          bs <- kread (pa0 + (srcva - va0)) n ;;
          r <- copyin_loop fuel' pagetable (uint64 (va0 + PGSIZE)) (len - n) ;;
          kret (fst r, bs ++ snd r)
      else kret (0, [])
  end.

Definition copyin (pagetable srcva len : Z) : K kmem (Z * list Z) :=
  copyin_loop (S (Z.to_nat len)) pagetable srcva len.

(** The inner loop of copyinstr: bytes copied and whether a NUL was met. *)
Fixpoint copystr_page (n : nat) (m : memory) (p : Z) : list Z * bool :=
  match n with
  | O => ([], false)
  | S n' =>
      if ld8 m p =? 0 then ([0], true)
      else let r := copystr_page n' m (p + 1) in (ld8 m p :: fst r, snd r)
  end.

Fixpoint copyinstr_loop (fuel : nat) (pagetable srcva max : Z) : K kmem (Z * list Z) :=
  match fuel with
  | O => kdiverge
  | S fuel' =>
      if 0 <? max then
        let va0 := PGROUNDDOWN srcva in
        pa0 <- walkaddr pagetable va0 ;;
        if pa0 =? 0 then kret (-1, [])
        else
          let n := PGSIZE - (srcva - va0) in
          let n := if max <? n then max else n in
          s <- kget ;;
          let p := copystr_page (Z.to_nat n) (km_mem s) (pa0 + (srcva - va0)) in
          if snd p then kret (0, fst p)
          else
            r <- copyinstr_loop fuel' pagetable (uint64 (va0 + PGSIZE)) (max - n) ;;
            kret (fst r, fst p ++ snd r)
      else kret (-1, [])
  end.

Definition copyinstr (pagetable srcva max : Z) : K kmem (Z * list Z) :=
  copyinstr_loop (S (Z.to_nat max)) pagetable srcva max.

(** ** The kernel page table *)

Fixpoint proc_mapstacks_loop (k : nat) (kpgtbl p : Z) : K kmem unit :=
  match k with
  | O => kret tt
  | S k' =>
      pa <- kalloc ;;
      if pa =? 0 then panic "kalloc"
      else
        kvmmap kpgtbl (KSTACK p) pa PGSIZE (Z.lor PTE_R PTE_W) ;;;
        proc_mapstacks_loop k' kpgtbl (p + 1)
  end.

Definition proc_mapstacks (kpgtbl : Z) : K kmem unit :=
  proc_mapstacks_loop (Z.to_nat NPROC) kpgtbl 0.

Definition kvmmake : K kmem Z :=
  kpgtbl <- kalloc ;;
  kmemset kpgtbl 0 PGSIZE ;;;
  kvmmap kpgtbl UART0 UART0 PGSIZE (Z.lor PTE_R PTE_W) ;;;
  kvmmap kpgtbl VIRTIO0 VIRTIO0 PGSIZE (Z.lor PTE_R PTE_W) ;;;
  kvmmap kpgtbl PLIC PLIC 0x4000000 (Z.lor PTE_R PTE_W) ;;;
  kvmmap kpgtbl KERNBASE KERNBASE (etext - KERNBASE) (Z.lor PTE_R PTE_X) ;;;
  kvmmap kpgtbl etext etext (PHYSTOP - etext) (Z.lor PTE_R PTE_W) ;;;
  kvmmap kpgtbl TRAMPOLINE trampoline PGSIZE (Z.lor PTE_R PTE_X) ;;;
  proc_mapstacks kpgtbl ;;;
  kret kpgtbl.

End vm.
