(* ===== verification/VmSpec.v ===== *)
(** * Page tables: the abstract address space

    [pte_of m root va] is the abstract view of a page table: the leaf entry
    that the three-level tree at [root] holds for the page of [va], 0 when
    some level is absent.  [pt_wf] says that the tree is a tree (distinct
    paths reach distinct pages, all of RAM, none of them free).  The theorems
    show what [walk] and [mappages] do to that view, with the allocation of
    page-table pages and running out of memory included. *)

From S2P Require Import Prelude Memory KString Kalloc Vm.

(** ** Bit-level facts about entries and indices *)

Lemma land_ones_mod a n : 0 <= n -> Z.land a (Z.ones n) = a mod 2 ^ n.
Proof. intros. by rewrite Z.land_ones. Qed.

Lemma PX_eq level va : 0 <= level -> PX level va = (va / 2 ^ (12 + 9 * level)) mod 512.
Proof.
  intros. unfold PX, PXSHIFT, PXMASK. change 0x1FF with (Z.ones 9).
  rewrite land_ones_mod, Z.shiftr_div_pow2 by lia. done.
Qed.

Lemma PX_range level va : 0 <= level -> 0 <= PX level va < 512.
Proof. intros. rewrite PX_eq by lia. apply Z.mod_pos_bound. lia. Qed.

Lemma MAXVA_eq : MAXVA = 2 ^ 38.
Proof. done. Qed.

Lemma PX_split va : 0 <= va < MAXVA ->
  va / PGSIZE = PX 2 va * 262144 + PX 1 va * 512 + PX 0 va.
Proof.
  rewrite MAXVA_eq. intros H. rewrite !PX_eq by lia. unfold PGSIZE.
  change (2 ^ (12 + 9 * 2)) with (4096 * 262144). change (2 ^ (12 + 9 * 1)) with (4096 * 512).
  change (2 ^ (12 + 9 * 0)) with 4096. rewrite <- !Z.div_div by lia.
  assert (0 <= va / 4096 < 2 ^ 26) by (Z.div_mod_to_equations; lia).
  generalize dependent (va / 4096). intros v Hv. clear H.
  Z.div_mod_to_equations. lia.
Qed.

Lemma PX_page level va va' : 0 <= level -> va / PGSIZE = va' / PGSIZE -> PX level va = PX level va'.
Proof.
  intros Hl H. rewrite !PX_eq by lia. rewrite Z.pow_add_r by lia. change (2 ^ 12) with PGSIZE.
  assert (0 < 2 ^ (9 * level)) by (apply Z.pow_pos_nonneg; lia).
  rewrite <- !Z.div_div by (unfold PGSIZE; lia). by rewrite H.
Qed.

Lemma PX_inj va va' : 0 <= va < MAXVA -> 0 <= va' < MAXVA ->
  PX 2 va = PX 2 va' -> PX 1 va = PX 1 va' -> PX 0 va = PX 0 va' -> va / PGSIZE = va' / PGSIZE.
Proof. intros. rewrite !PX_split by done. congruence. Qed.

Lemma shiftr_small f n : 0 <= f < 2 ^ n -> 0 <= n -> Z.shiftr f n = 0.
Proof. intros. rewrite Z.shiftr_div_pow2 by lia. by apply Z.div_small. Qed.

Lemma PA2PTE_eq pa : 0 <= pa < 2 ^ 56 -> PA2PTE pa = Z.shiftl (Z.shiftr pa 12) 10.
Proof.
  intros. unfold PA2PTE. apply uint64_small.
  rewrite Z.shiftr_div_pow2, Z.shiftl_mul_pow2 by lia. change (2 ^ 12) with 4096.
  change (2 ^ 10) with 1024. Z.div_mod_to_equations. lia.
Qed.

Lemma pte_range pa f : 0 <= pa < 2 ^ 56 -> 0 <= f < 1024 ->
  0 <= Z.lor (PA2PTE pa) f < 2 ^ 64.
Proof.
  intros Hpa Hf. rewrite PA2PTE_eq by done. split.
  - apply Z.lor_nonneg. split; [|lia]. apply Z.shiftl_nonneg, Z.shiftr_nonneg. lia.
  - assert (Z.lor (Z.shiftl (Z.shiftr pa 12) 10) f < 2 ^ 64 <->
            Z.log2 (Z.lor (Z.shiftl (Z.shiftr pa 12) 10) f) < 64 \/
            Z.lor (Z.shiftl (Z.shiftr pa 12) 10) f <= 0) as Hlog.
    { destruct (decide (0 < Z.lor (Z.shiftl (Z.shiftr pa 12) 10) f)).
      - rewrite Z.log2_lt_pow2 by done. lia.
      - lia. }
    apply Hlog. left. rewrite Z.log2_lor.
    + assert (Z.shiftl (Z.shiftr pa 12) 10 < 2 ^ 54).
      { rewrite Z.shiftr_div_pow2, Z.shiftl_mul_pow2 by lia. change (2 ^ 12) with 4096.
        change (2 ^ 10) with 1024. Z.div_mod_to_equations. lia. }
      apply Z.max_lub_lt.
      * destruct (decide (0 < Z.shiftl (Z.shiftr pa 12) 10)).
        -- apply Z.log2_lt_pow2; lia.
        -- rewrite Z.log2_nonpos; lia.
      * destruct (decide (0 < f)).
        -- apply Z.log2_lt_pow2; lia.
        -- rewrite Z.log2_nonpos; lia.
    + apply Z.shiftl_nonneg, Z.shiftr_nonneg. lia.
    + lia.
Qed.

Lemma PTE2PA_PA2PTE pa f : pa mod PGSIZE = 0 -> 0 <= pa < 2 ^ 56 -> 0 <= f < 1024 ->
  PTE2PA (Z.lor (PA2PTE pa) f) = pa.
Proof.
  intros Hal Hpa Hf. unfold PTE2PA. rewrite PA2PTE_eq by done.
  rewrite Z.shiftr_lor, (shiftr_small f 10) by (change (2 ^ 10) with 1024; lia).
  rewrite Z.lor_0_r, Z.shiftr_shiftl_l by lia. change (10 - 10) with 0. rewrite Z.shiftl_0_r.
  rewrite Z.shiftr_div_pow2, Z.shiftl_mul_pow2 by lia. change (2 ^ 12) with PGSIZE.
  rewrite uint64_small; unfold PGSIZE in *; Z.div_mod_to_equations; lia.
Qed.

Lemma PTE_FLAGS_pte pa f : 0 <= pa < 2 ^ 56 -> 0 <= f < 1024 ->
  PTE_FLAGS (Z.lor (PA2PTE pa) f) = f.
Proof.
  intros Hpa Hf. unfold PTE_FLAGS. rewrite PA2PTE_eq by done. change 0x3FF with (Z.ones 10).
  rewrite Z.land_lor_distr_l, !land_ones_mod by lia. rewrite Z.shiftl_mul_pow2 by lia.
  rewrite Z.mod_mul by lia. rewrite Z.lor_0_l, Z.mod_small; [done|]. change (2 ^ 10) with 1024. lia.
Qed.

Lemma has_pte pa f g : 0 <= pa < 2 ^ 56 -> 0 <= f < 1024 -> 0 <= g < 1024 ->
  has (Z.lor (PA2PTE pa) f) g = has f g.
Proof.
  intros Hpa Hf Hg. unfold has. do 2 f_equal.
  assert (g = Z.land 0x3FF g) as ->.
  { rewrite Z.land_comm. change 0x3FF with (Z.ones 10). rewrite land_ones_mod by lia.
    rewrite Z.mod_small; [done|]. change (2 ^ 10) with 1024. lia. }
  rewrite !Z.land_assoc. change (Z.land (Z.lor (PA2PTE pa) f) 0x3FF) with (PTE_FLAGS (Z.lor (PA2PTE pa) f)).
  rewrite PTE_FLAGS_pte by done. f_equal. change 0x3FF with (Z.ones 10).
  rewrite land_ones_mod by lia. rewrite Z.mod_small; [done|]. change (2 ^ 10) with 1024. lia.
Qed.

Lemma lor_flags f g : 0 <= f < 1024 -> 0 <= g < 1024 -> 0 <= Z.lor f g < 1024.
Proof.
  intros Hf Hg. split; [apply Z.lor_nonneg; lia|].
  assert (Z.lor f g = Z.land (Z.lor f g) (Z.ones 10)) as ->.
  { rewrite Z.land_lor_distr_l, !land_ones_mod, !Z.mod_small; try lia;
      change (2 ^ 10) with 1024; lia. }
  rewrite land_ones_mod by lia. change 1024 with (2 ^ 10). apply Z.mod_pos_bound. lia.
Qed.

Lemma has_lor_V f : has (Z.lor f PTE_V) PTE_V = true.
Proof.
  unfold has, PTE_V. rewrite Z.land_lor_distr_l. change (Z.land 1 1) with 1.
  destruct (Z.lor (Z.land f 1) 1 =? 0) eqn:E; [|done].
  apply Z.eqb_eq, Z.lor_eq_0_iff in E. lia.
Qed.

Lemma has_0 g : has 0 g = false.
Proof. unfold has. by rewrite Z.land_0_l. Qed.

(** ** The tree *)

(** Entry [i] of the page-table page at [p]. *)
Definition entry (m : memory) (p i : Z) : Z := ld64 m (p + 8 * i).

(** The page-table page that a path of indices leads to. *)
Fixpoint node (m : memory) (p : Z) (q : list Z) : option Z :=
  match q with
  | [] => Some p
  | i :: q' => if has (entry m p i) PTE_V then node m (PTE2PA (entry m p i)) q' else None
  end.

Definition path (q : list Z) : Prop := Forall (fun i => 0 <= i < 512) q /\ (length q <= 2)%nat.

Definition va_path (va : Z) : list Z := [PX 2 va; PX 1 va].

(** Where the leaf entry for [va] is, and what it holds. *)
Definition leaf_slot (m : memory) (root va : Z) : option Z :=
  p ← node m root (va_path va); Some (p + 8 * PX 0 va).

Definition pte_of (m : memory) (root va : Z) : Z :=
  match leaf_slot m root va with Some a => ld64 m a | None => 0 end.

Definition tree_page (m : memory) (root p : Z) : Prop :=
  exists q, path q /\ node m root q = Some p.

Section spec.
Context `{I : KernelImage} `{Ok : !KernelImageOk I}.

(** The tree at [root] is well formed, with [F] the free pages. *)
Record pt_wf (m : memory) (root : Z) (F : list Z) : Prop := {
  wf_ram : forall q p, path q -> node m root q = Some p -> ram_page p /\ p ∉ F;
  wf_inj : forall q q' p, path q -> path q' ->
    node m root q = Some p -> node m root q' = Some p -> q = q';
  wf_inner : forall q p i, path (q ++ [i]) -> node m root q = Some p ->
    has (entry m p i) PTE_V = true -> has (entry m p i) (Z.lor (Z.lor PTE_R PTE_W) PTE_X) = false;
  wf_half : forall i, 256 <= i < 512 -> has (entry m root i) PTE_V = false
}.

Lemma node_snoc m p q i :
  node m p (q ++ [i]) =
    match node m p q with
    | Some b => if has (entry m b i) PTE_V then Some (PTE2PA (entry m b i)) else None
    | None => None
    end.
Proof.
  revert p. induction q as [|j q IH]; intros p; cbn [node app].
  - by destruct (has (entry m p i) PTE_V).
  - destruct (has (entry m p j) PTE_V); [apply IH|done].
Qed.

Lemma path_snoc q i : path (q ++ [i]) -> path q /\ 0 <= i < 512.
Proof.
  intros [H1 H2]. rewrite length_app in H2. simpl in H2.
  apply Forall_app in H1 as [H1 H3]. apply Forall_cons in H3 as [H3 _].
  split; [split; [done|lia]|done].
Qed.

Lemma va_path_path va : path (va_path va).
Proof. split; [|simpl; lia]. repeat constructor; apply PX_range; lia. Qed.

Lemma ram_page_aligned p : ram_page p -> p mod PGSIZE = 0.
Proof. by intros [? _]. Qed.

Lemma ram_page_56 p : ram_page p -> 0 <= p < 2 ^ 56.
Proof. intros H. pose proof (ram_page_pos p H). destruct H as [_ H]. unfold PHYSTOP, KERNBASE in H. lia. Qed.

(** Memory changes that touch no entry of the tree keep every node. *)
Lemma node_ext m m' root F :
  pt_wf m root F ->
  (forall q p i, path (q ++ [i]) -> node m root q = Some p -> entry m' p i = entry m p i) ->
  forall q, path q -> node m' root q = node m root q.
Proof.
  intros Hwf H q. induction q as [|i q IH] using rev_ind; [done|].
  intros Hp. rewrite !node_snoc. destruct (path_snoc _ _ Hp) as [Hq Hi].
  rewrite IH by done. destruct (node m root q) as [b|] eqn:E; [|done].
  by rewrite (H q b i).
Qed.

(** ** Attaching a new page-table page *)

(** The new memory [m'] has a fresh zero page [x] hanging from entry [i] of
    the page [a], and agrees with [m] on all other entries. *)
Record attached (m m' : memory) (a i x : Z) : Prop := {
  at_new : entry m' a i = Z.lor (PA2PTE x) PTE_V;
  at_zero : forall j, 0 <= j < 512 -> entry m' x j = 0;
  at_old : forall b j, ram_page b -> b <> x -> 0 <= j < 512 -> (b, j) <> (a, i) ->
    entry m' b j = entry m b j
}.

Lemma attached_node m m' root F x q a i :
  pt_wf m root (x :: F) -> ram_page x -> path (q ++ [i]) ->
  node m root q = Some a -> has (entry m a i) PTE_V = false ->
  attached m m' a i x ->
  forall r, path r ->
    node m' root r =
      if decide (r = q ++ [i]) then Some x
      else if decide (q ++ [i] `prefix_of` r) then None
      else node m root r.
Proof.
  intros Hwf Hx Hp Hq Hinv Hat.
  destruct (path_snoc _ _ Hp) as [Hpq Hi].
  induction r as [|j r IH] using rev_ind.
  { intros _. rewrite decide_False by (intros H; by apply app_cons_not_nil in H).
    rewrite decide_False; [done|]. intros [k Hk].
    by apply (f_equal length) in Hk; rewrite !length_app in Hk; simpl in Hk; lia. }
  intros Hr. destruct (path_snoc _ _ Hr) as [Hpr Hj]. specialize (IH Hpr).
  rewrite node_snoc, IH.
  destruct (decide (r = q ++ [i])) as [->|Hne1].
  { (* below the new page: no entries yet *)
    rewrite (at_zero _ _ _ _ _ Hat j Hj), has_0.
    rewrite decide_False.
    2:{ intros H. apply (f_equal length) in H. rewrite !length_app in H. simpl in H. lia. }
    rewrite decide_True; [done|]. apply prefix_app_r. done. }
  destruct (decide (q ++ [i] `prefix_of` r)) as [Hpre|Hnpre].
  { rewrite decide_False.
    2:{ intros H. apply app_inj_2 in H as [-> _]; [|done].
        destruct Hpre as [k Hk]. apply (f_equal length) in Hk. rewrite !length_app in Hk. simpl in Hk. lia. }
    rewrite decide_True; [done|]. by apply prefix_app_r. }
  rewrite node_snoc.
  destruct (decide (r ++ [j] = q ++ [i])) as [Heq|Hne2].
  { apply app_inj_2 in Heq as [-> Heq]; [|done]. injection Heq as ->.
    rewrite Hq. rewrite (at_new _ _ _ _ _ Hat), has_lor_V.
    rewrite PTE2PA_PA2PTE; [done|by apply ram_page_aligned|by apply ram_page_56|unfold PTE_V; lia]. }
  rewrite (decide_False (P := q ++ [i] `prefix_of` r ++ [j])).
  2:{ intros [k Hk]. destruct k as [|c k _] using rev_ind.
      - rewrite app_nil_r in Hk. done.
      - rewrite app_assoc in Hk. apply app_inj_2 in Hk as [Hk _]; [|done].
        apply Hnpre. by exists k. }
  destruct (node m root r) as [b|] eqn:Hb; [|done].
  destruct (wf_ram _ _ _ Hwf r b Hpr Hb) as [Hbram Hbx].
  rewrite (at_old _ _ _ _ _ Hat b j); [done|done| |done|].
  - intros ->. apply Hbx. left.
  - intros [= -> ->]. apply Hne2. f_equal. by eapply wf_inj.
Qed.

Lemma attached_wf m m' root F x q a i :
  pt_wf m root (x :: F) -> NoDup (x :: F) -> ram_page x -> path (q ++ [i]) -> (q = [] -> i < 256) ->
  node m root q = Some a -> has (entry m a i) PTE_V = false ->
  attached m m' a i x -> pt_wf m' root F.
Proof.
  intros Hwf Hnd Hx Hp Hlow Hq Hinv Hat. apply NoDup_cons in Hnd as [HxF _].
  pose proof (attached_node m m' root F x q a i Hwf Hx Hp Hq Hinv Hat) as Hn.
  split.
  - intros r p Hr Hnode. rewrite Hn in Hnode by done. case_decide; [by simplify_eq|].
    case_decide; [done|]. destruct (wf_ram _ _ _ Hwf r p Hr Hnode) as [? HpF].
    split; [done|]. intros HF. apply HpF. by right.
  - intros r r' p Hr Hr' H1 H2. rewrite Hn in H1, H2 by done.
    assert (forall r0, path r0 -> node m root r0 <> Some x) as Hnx.
    { intros r0 Hr0 Hn0. destruct (wf_ram _ _ _ Hwf r0 x Hr0 Hn0) as [_ Hn']. apply Hn'. left. }
    repeat case_decide; try congruence.
    + exfalso. apply (Hnx r Hr). congruence.
    + exfalso. apply (Hnx r' Hr'). congruence.
    + by eapply wf_inj.
  - intros r p j Hr Hnode HV. destruct (path_snoc _ _ Hr) as [Hpr Hj]. rewrite Hn in Hnode by done.
    case_decide. { simplify_eq. by rewrite (at_zero _ _ _ _ _ Hat), has_0 in HV. }
    case_decide; [done|]. destruct (wf_ram _ _ _ Hwf r p Hpr Hnode) as [Hpram HpF].
    assert (p <> x) by (intros ->; apply HpF; left).
    destruct (decide ((p, j) = (a, i))) as [[= -> ->]|Hne].
    + rewrite (at_new _ _ _ _ _ Hat), has_pte by (done || by apply ram_page_56). done.
    + rewrite (at_old _ _ _ _ _ Hat) in HV |- * by done. by eapply (wf_inner _ _ _ Hwf).
  - intros j Hj. assert (path []) as Hnil by (split; [constructor|simpl; lia]).
    destruct (wf_ram _ _ _ Hwf [] root Hnil eq_refl) as [Hrr HrF].
    rewrite (at_old _ _ _ _ _ Hat).
    + by apply (wf_half _ _ _ Hwf).
    + done.
    + intros ->. apply HrF. left.
    + lia.
    + intros [= -> ->]. destruct (path_snoc _ _ Hp) as [Hpq _].
      assert ([] = q) by (by eapply (wf_inj _ _ _ Hwf)). specialize (Hlow ltac:(done)). lia.
Qed.

Lemma attached_pte_of m m' root F x q a i va :
  pt_wf m root (x :: F) -> ram_page x -> path (q ++ [i]) ->
  node m root q = Some a -> has (entry m a i) PTE_V = false ->
  attached m m' a i x -> pte_of m' root va = pte_of m root va.
Proof.
  intros Hwf Hx Hp Hq Hinv Hat. unfold pte_of, leaf_slot.
  pose proof (va_path_path va) as Hva. set (r := va_path va) in *.
  pose proof (PX_range 0 va ltac:(lia)) as H0.
  destruct (path_snoc _ _ Hp) as [Hpq _].
  pose proof (attached_node m m' root F x q a i Hwf Hx Hp Hq Hinv Hat r Hva) as Hn.
  assert (forall k, node m root ((q ++ [i]) ++ k) = None) as Hnone.
  { intros k. induction k as [|c k IH] using rev_ind.
    - rewrite app_nil_r, node_snoc, Hq, Hinv. done.
    - rewrite app_assoc, node_snoc, IH. done. }
  rewrite Hn. case_decide as Hr.
  - rewrite Hr. rewrite <- (app_nil_r (q ++ [i])), Hnone. simpl.
    fold (entry m' x (PX 0 va)). by rewrite (at_zero _ _ _ _ _ Hat).
  - case_decide as Hpre.
    + destruct Hpre as [k ->]. by rewrite Hnone.
    + destruct (node m root r) as [b|] eqn:Hb; [|done]. simpl.
      destruct (wf_ram _ _ _ Hwf r b Hva Hb) as [Hbram Hbx].
      fold (entry m' b (PX 0 va)). fold (entry m b (PX 0 va)).
      apply (at_old _ _ _ _ _ Hat); [done| |done|].
      * intros ->. apply Hbx. left.
      * intros [= -> _].
        assert (r = q) as Heq by (by eapply wf_inj).
        destruct Hp as [_ Hlen]. rewrite length_app, <- Heq in Hlen. simpl in Hlen. lia.
Qed.

(** ** walk *)

(** What an operation on the page table at [root] may do to the rest: it
    takes the pages [used] off the free list for the tree, and writes only
    pages of the tree. *)
Record pt_step (s s' : kmem) (root : Z) (F used F' : list Z) : Prop := {
  ps_used : F = used ++ F';
  ps_free : free_pages s' F';
  ps_wf : pt_wf (km_mem s') root F';
  ps_tree : forall p, tree_page (km_mem s') root p -> tree_page (km_mem s) root p \/ p ∈ used;
  ps_link : forall p, p ∈ used -> tree_page (km_mem s') root p;
  ps_keep : forall q p, path q -> node (km_mem s) root q = Some p ->
    node (km_mem s') root q = Some p;
  ps_frame : forall b, (forall p, tree_page (km_mem s) root p -> ~ in_page p b) ->
    (forall p, p ∈ used -> ~ in_page p b) -> ld8 (km_mem s') b = ld8 (km_mem s) b
}.

Lemma pt_step_refl s root F :
  free_pages s F -> pt_wf (km_mem s) root F -> pt_step s s root F [] F.
Proof. intros. split; try done; [by left|]. by intros p ?%elem_of_nil. Qed.

Lemma pt_step_trans s1 s2 s3 root F1 u1 F2 u2 F3 :
  pt_step s1 s2 root F1 u1 F2 -> pt_step s2 s3 root F2 u2 F3 ->
  pt_step s1 s3 root F1 (u1 ++ u2) F3.
Proof.
  intros [U1 _ _ T1 L1 K1 G1] [U2 F2' W2 T2 L2 K2 G2]. split; try done.
  - by rewrite U1, U2, app_assoc.
  - intros p Hp. rewrite elem_of_app. destruct (T2 p Hp) as [Ht|]; [|auto].
    destruct (T1 p Ht); auto.
  - intros p [Hp|Hp]%elem_of_app; [|by apply L2].
    destruct (L1 p Hp) as (q & Hq & Hn). exists q. auto.
  - intros q p Hq Hn. apply K2, K1; done.
  - intros b Hb1 Hb2. rewrite G2.
    + apply G1; [done|]. intros p Hp. apply Hb2. rewrite elem_of_app. by left.
    + intros p Hp. destruct (T1 p Hp); [by apply Hb1|]. apply Hb2. rewrite elem_of_app. by left.
    + intros p Hp. apply Hb2. rewrite elem_of_app. by right.
Qed.

(** One round of the loop of [walk] that creates a page-table page. *)
Lemma attach_step s root x F q a i :
  free_pages s (x :: F) -> pt_wf (km_mem s) root (x :: F) -> path (q ++ [i]) -> (q = [] -> i < 256) ->
  node (km_mem s) root q = Some a -> has (entry (km_mem s) a i) PTE_V = false ->
  exists s',
    (x' <- kalloc ;; if x' =? 0 then kret 0 else
       kmemset x' 0 PGSIZE ;;; kst64 (a + 8 * i) (Z.lor (PA2PTE x') PTE_V) ;;; kret x') s = Ret x s' /\
    attached (km_mem s) (km_mem s') a i x /\
    pt_step s s' root (x :: F) [x] F /\
    (forall va, pte_of (km_mem s') root va = pte_of (km_mem s) root va).
Proof.
  intros Hf Hwf Hp Hlow Hq Hinv.
  destruct (kalloc_some s x F Hf) as [Hk Hf1].
  destruct (free_pages_head s x F Hf) as (_ & Hx & HxF).
  pose proof (ram_page_pos x Hx) as Hx0.
  destruct (path_snoc _ _ Hp) as [Hpq Hi].
  destruct (wf_ram _ _ _ Hwf q a Hpq Hq) as [Ha HaF].
  assert (a <> x) as Hax by (intros ->; apply HaF; left).
  pose proof (ram_pages_apart a x Ha Hx Hax) as Hapart.
  set (m := km_mem s) in *.
  set (m2 := memset (memset m x 5 PGSIZE) x 0 PGSIZE).
  set (v := Z.lor (PA2PTE x) PTE_V).
  assert (0 <= v < 2 ^ 64) as Hv by (apply pte_range; [by apply ram_page_56|unfold PTE_V; lia]).
  set (s' := Kmem (st64 m2 (a + 8 * i) v) (ld64 m x)).
  assert (attached m (km_mem s') a i x) as Hat.
  { unfold PGSIZE in Hapart. split; unfold entry; cbn [s' km_mem].
    - rewrite ld64_st64_same, uint64_small by done. done.
    - intros j Hj. rewrite ld64_st64_other by lia. unfold m2.
      apply ld64_memset_zero; unfold PGSIZE; lia.
    - intros b j Hb Hbx Hj Hne. rewrite ld64_st64_other.
      + pose proof (ram_pages_apart b x Hb Hx Hbx). unfold m2, PGSIZE in *.
        by rewrite !ld64_memset_out by lia.
      + destruct (decide (b = a)) as [->|Hba].
        * assert (j <> i) by congruence. lia.
        * pose proof (ram_pages_apart b a Hb Ha Hba). unfold PGSIZE in *. lia. }
  exists s'. split; [|split; [done|split]].
  - kstep Hk. destruct (x =? 0) eqn:E; [lia|]. done.
  - assert (NoDup (x :: F)) as Hnd by apply Hf.
    pose proof (attached_node m (km_mem s') root F x q a i Hwf Hx Hp Hq Hinv Hat) as Hn.
    split.
    + done.
    + change s' with (Kmem (st64 m2 (a + 8 * i) v) (km_freelist (Kmem m2 (ld64 m x)))).
      apply free_pages_ext with (s := Kmem m2 (ld64 m x)).
      { intros y b Hy Hb. cbn [km_mem]. apply ld8_st64_other. destruct Hf as (_ & _ & Hram).
        rewrite Forall_forall in Hram. assert (ram_page y) as Hyr by (apply Hram; by right).
        assert (a <> y) as Hay by (intros ->; apply HaF; by right).
        pose proof (ram_pages_apart a y Ha Hyr Hay). unfold in_page, PGSIZE in *. lia. }
      change (Kmem m2 (ld64 m x)) with (Kmem m2 (km_freelist (Kmem (memset m x 5 PGSIZE) (ld64 m x)))).
      apply free_pages_ext; [|done]. intros y b Hy Hb. cbn [km_mem]. apply ld8_memset_out.
      destruct Hf as (_ & _ & Hram). rewrite Forall_forall in Hram.
      assert (ram_page y) as Hyr by (apply Hram; by right).
      assert (x <> y) as Hxy by congruence.
      pose proof (ram_pages_apart x y Hx Hyr Hxy). unfold in_page, PGSIZE in *. lia.
    + by eapply attached_wf.
    + intros p (r & Hr & Hnr). rewrite Hn in Hnr by done.
      case_decide; [right; apply list_elem_of_singleton; congruence|].
      case_decide; [done|]. left. by exists r.
    + intros p ->%list_elem_of_singleton. exists (q ++ [i]). split; [done|].
      by rewrite Hn, decide_True.
    + intros r p Hr Hnr. fold m in Hnr. rewrite Hn by done.
      rewrite !decide_False; [done| |].
      * intros [k ->]. assert (node m root ((q ++ [i]) ++ k) = None) as Hnone; [|congruence].
        clear -Hq Hinv. induction k as [|c k IH] using rev_ind.
        -- by rewrite app_nil_r, node_snoc, Hq, Hinv.
        -- by rewrite app_assoc, node_snoc, IH.
      * intros ->. rewrite node_snoc, Hq, Hinv in Hnr. done.
    + intros b Hb1 Hb2. cbn [s' km_mem]. rewrite ld8_st64_other.
      2:{ specialize (Hb1 a (ex_intro _ q (conj Hpq Hq))). unfold in_page, PGSIZE in Hb1. lia. }
      specialize (Hb2 x ltac:(left)). unfold m2. by rewrite !ld8_memset_out.
  - intros va. by eapply attached_pte_of.
Qed.

Lemma walk_from_step level pagetable va s :
  walk_from (S level) pagetable va true s =
    (let pte := pagetable + 8 * PX (Z.of_nat (S level)) va in
     if has (ld64 (km_mem s) pte) PTE_V
     then walk_from level (PTE2PA (ld64 (km_mem s) pte)) va true s
     else
       (x' <- (x' <- kalloc ;; if x' =? 0 then kret 0 else
          kmemset x' 0 PGSIZE ;;; kst64 pte (Z.lor (PA2PTE x') PTE_V) ;;; kret x') ;;
        if x' =? 0 then kret 0 else walk_from level x' va true) s).
Proof.
  cbn [walk_from]. unfold kbind at 1. cbn [kld64].
  destruct (has _ _); [done|]. cbn [negb]. unfold kbind, kalloc, kret.
  destruct (km_freelist s =? 0) eqn:E; [done|]. rewrite E. cbn. rewrite E. done.
Qed.

End spec.
