(* ===== verification/VmMap.v ===== *)
(** * walk, walkaddr and mappages against the abstract address space *)

From S2P Require Import Prelude Memory KString Kalloc Vm VmSpec.

Section map.
Context `{I : KernelImage} `{Ok : !KernelImageOk I}.

(** ** walk *)

Lemma walk_from_noalloc level pt va s :
  walk_from level pt va false s =
    Ret (match node (km_mem s) pt (map (fun l => PX (Z.of_nat l) va) (rev (seq 1 level))) with
         | Some p => p + 8 * PX 0 va | None => 0 end) s.
Proof.
  revert pt. induction level as [|level IH]; intros pt; [done|].
  cbn [walk_from]. unfold kbind, kld64.
  rewrite seq_S, rev_app_distr. cbn [rev app map node].
  replace (1 + level)%nat with (S level) by lia.
  unfold entry. destruct (has _ _) eqn:E; [apply IH|done].
Qed.

Lemma walk_noalloc s root va : 0 <= va < MAXVA ->
  walk root va false s = Ret (default 0 (leaf_slot (km_mem s) root va)) s.
Proof.
  intros H. unfold walk. destruct (MAXVA <=? va) eqn:E; [lia|].
  rewrite walk_from_noalloc. unfold leaf_slot, va_path. cbn [seq rev map app].
  by destruct (node _ _ _).
Qed.

Lemma leaf_slot_pos s root F va a :
  pt_wf (km_mem s) root F -> leaf_slot (km_mem s) root va = Some a -> 0 < a.
Proof.
  intros Hwf H. unfold leaf_slot in H. destruct (node _ _ _) as [p|] eqn:E; [|done].
  injection H as <-. destruct (wf_ram _ _ _ Hwf _ _ (va_path_path va) E) as [Hp _].
  pose proof (ram_page_pos p Hp). pose proof (PX_range 0 va ltac:(lia)). lia.
Qed.

(** [walk] with allocation, from a page of the tree. *)
Lemma walk_from_alloc level : forall s root q pt va F,
  free_pages s F -> pt_wf (km_mem s) root F ->
  (length q + level = 2)%nat -> path q -> node (km_mem s) root q = Some pt -> 0 <= va < MAXVA ->
  exists r s' used F',
    walk_from level pt va true s = Ret r s' /\ pt_step s s' root F used F' /\
    (forall va', pte_of (km_mem s') root va' = pte_of (km_mem s) root va') /\
    (length used <= level)%nat /\
    (r = 0 /\ F' = [] /\ (length F < level)%nat \/
     exists p, node (km_mem s') root (q ++ map (fun l => PX (Z.of_nat l) va) (rev (seq 1 level))) = Some p /\
       r = p + 8 * PX 0 va).
Proof.
  induction level as [|level IH]; intros s root q pt va F Hf Hwf Hlen Hp Hq Hva.
  { exists (pt + 8 * PX 0 va), s, [], F. split; [done|]. split; [by apply pt_step_refl|].
    split; [done|]. split; [simpl; lia|]. right. exists pt. simpl. by rewrite app_nil_r. }
  set (i := PX (Z.of_nat (S level)) va).
  assert (path (q ++ [i])) as Hpi.
  { destruct Hp as [Hp1 Hp2]. split; [|rewrite length_app; simpl; lia].
    apply Forall_app. split; [done|]. repeat constructor; apply PX_range; lia. }
  assert (q ++ map (fun l => PX (Z.of_nat l) va) (rev (seq 1 (S level))) =
          (q ++ [i]) ++ map (fun l => PX (Z.of_nat l) va) (rev (seq 1 level))) as Hpath.
  { rewrite seq_S, rev_app_distr. cbn [rev app map]. by rewrite <- app_assoc. }
  assert (q = [] -> i < 256) as Hlow.
  { intros ->. unfold i. simpl in Hlen. assert (level = 1%nat) as -> by lia.
    rewrite PX_eq by lia. rewrite MAXVA_eq in Hva. change (Z.of_nat 2) with 2.
    rewrite Z.mod_small; simpl; Z.div_mod_to_equations; lia. }
  rewrite Hpath. rewrite walk_from_step. cbv zeta. fold i.
  change (ld64 (km_mem s) (pt + 8 * i)) with (entry (km_mem s) pt i).
  destruct (has (entry (km_mem s) pt i) PTE_V) eqn:Ev.
  - destruct (IH s root (q ++ [i]) (PTE2PA (entry (km_mem s) pt i)) va F)
      as (r & s' & used & F' & Hw & Hst & Hpte & Hlu & Hr); try done.
    + rewrite length_app; simpl; lia.
    + by rewrite node_snoc, Hq, Ev.
    + exists r, s', used, F'. repeat (split; [done|]). split; [lia|].
      destruct Hr as [(? & ? & ?)|?]; [left; repeat split; (done || lia)|by right].
  - destruct F as [|x F].
    + exists 0, s, [], []. rewrite (kbind_ret _ _ s 0 s).
      * split; [done|]. split; [by apply pt_step_refl|]. split; [done|].
        split; [simpl; lia|]. left. simpl. repeat split; lia.
      * by rewrite (kbind_ret _ _ s 0 s (kalloc_none s Hf)).
    + destruct (attach_step s root x F q pt i Hf Hwf Hpi Hlow Hq Ev) as (s1 & Hs1 & Hat & Hst & Hpte).
      destruct (free_pages_head _ _ _ Hf) as (_ & Hx & _). pose proof (ram_page_pos x Hx).
      kstep Hs1. destruct (x =? 0) eqn:E; [lia|].
      destruct (IH s1 root (q ++ [i]) x va F) as (r & s' & used & F' & Hw & Hst2 & Hpte2 & Hlu & Hr).
      * by apply Hst.
      * by apply Hst.
      * rewrite length_app; simpl; lia.
      * done.
      * rewrite (attached_node (km_mem s) (km_mem s1) root F x q pt i); try done.
        by rewrite decide_True.
      * done.
      * exists r, s', ([x] ++ used), F'. split; [done|]. split; [by eapply pt_step_trans|].
        split; [intros va'; by rewrite Hpte2, Hpte|]. split; [simpl; lia|].
        destruct Hr as [(? & ? & ?)|?]; [left; repeat split; (done || (simpl; lia))|by right].
Qed.

Lemma walk_alloc s root va F :
  free_pages s F -> pt_wf (km_mem s) root F -> 0 <= va < MAXVA -> 
  exists r s' used F',
    walk root va true s = Ret r s' /\ pt_step s s' root F used F' /\
    (forall va', pte_of (km_mem s') root va' = pte_of (km_mem s) root va') /\
    (length used <= 2)%nat /\
    (r = 0 /\ F' = [] /\ (length F < 2)%nat \/ leaf_slot (km_mem s') root va = Some r /\ 0 < r).
Proof.
  intros Hf Hwf Hva. unfold walk. destruct (MAXVA <=? va) eqn:E; [lia|].
  destruct (walk_from_alloc 2 s root [] root va F Hf Hwf eq_refl) as (r & s' & u & F' & H1 & H2 & H3 & Hu & H4).
  { split; [constructor|simpl; lia]. }
  { done. } { done. }
  exists r, s', u, F'. repeat (split; [done|]). destruct H4 as [|(p & Hp & ->)]; [by left|right].
  assert (leaf_slot (km_mem s') root va = Some (p + 8 * PX 0 va)) as Hl.
  { unfold leaf_slot, va_path. cbn [seq rev map app] in Hp.
    change (Z.of_nat 2) with 2 in Hp. change (Z.of_nat 1) with 1 in Hp. by rewrite Hp. }
  split; [done|]. eapply leaf_slot_pos; [apply H2|exact Hl].
Qed.

(** ** Storing a leaf entry *)

Lemma set_leaf_entry m root F va v a q p i :
  pt_wf m root F -> leaf_slot m root va = Some a -> path (q ++ [i]) ->
  node m root q = Some p -> entry (st64 m a v) p i = entry m p i.
Proof.
  intros Hwf Ha Hp Hq. unfold leaf_slot in Ha.
  destruct (node m root (va_path va)) as [b|] eqn:Hb; [|done]. injection Ha as <-.
  destruct (path_snoc _ _ Hp) as [Hpq Hi].
  destruct (wf_ram _ _ _ Hwf _ _ (va_path_path va) Hb) as [Hbr _].
  destruct (wf_ram _ _ _ Hwf _ _ Hpq Hq) as [Hpr _].
  assert (b <> p) as Hne.
  { intros ->. assert (q = va_path va) as -> by (eapply wf_inj; eauto using va_path_path).
    destruct Hp as [_ Hl]. rewrite length_app in Hl. simpl in Hl. lia. }
  pose proof (ram_pages_apart b p Hbr Hpr Hne). pose proof (PX_range 0 va ltac:(lia)).
  unfold entry. apply ld64_st64_other. unfold PGSIZE in *. lia.
Qed.

Lemma set_leaf_node m root F va v a q :
  pt_wf m root F -> leaf_slot m root va = Some a -> path q ->
  node (st64 m a v) root q = node m root q.
Proof.
  intros Hwf Ha Hq. eapply node_ext; [done| |done]. intros. by eapply set_leaf_entry.
Qed.

Lemma set_leaf_slot m root F va v a va' :
  pt_wf m root F -> leaf_slot m root va = Some a ->
  leaf_slot (st64 m a v) root va' = leaf_slot m root va'.
Proof.
  intros Hwf Ha. unfold leaf_slot. rewrite (set_leaf_node m root F va v a); eauto using va_path_path.
Qed.

Lemma leaf_slot_inj m root F va va' a b :
  pt_wf m root F -> 0 <= va < MAXVA -> 0 <= va' < MAXVA -> va / PGSIZE <> va' / PGSIZE ->
  leaf_slot m root va = Some a -> leaf_slot m root va' = Some b -> a + 8 <= b \/ b + 8 <= a.
Proof.
  intros Hwf Hv Hv' Hne Ha Hb. unfold leaf_slot in *.
  destruct (node m root (va_path va)) as [p|] eqn:Hp; [|done]. injection Ha as <-.
  destruct (node m root (va_path va')) as [p'|] eqn:Hp'; [|done]. injection Hb as <-.
  pose proof (PX_range 0 va ltac:(lia)). pose proof (PX_range 0 va' ltac:(lia)).
  destruct (decide (p = p')) as [->|Hpp].
  - assert (va_path va = va_path va') as Heq by (eapply wf_inj; eauto using va_path_path).
    injection Heq as H2 H1. destruct (decide (PX 0 va = PX 0 va')) as [H0'|]; [|lia].
    exfalso. apply Hne. by apply PX_inj.
  - destruct (wf_ram _ _ _ Hwf _ _ (va_path_path va) Hp) as [Hr _].
    destruct (wf_ram _ _ _ Hwf _ _ (va_path_path va') Hp') as [Hr' _].
    pose proof (ram_pages_apart p p' Hr Hr' Hpp). unfold PGSIZE in *. lia.
Qed.

Lemma pte_of_page m root va va' : va / PGSIZE = va' / PGSIZE -> pte_of m root va = pte_of m root va'.
Proof.
  intros H. unfold pte_of, leaf_slot, va_path.
  by rewrite (PX_page 2 va va'), (PX_page 1 va va'), (PX_page 0 va va') by (done || lia).
Qed.

Lemma set_leaf_pte_of m root F va v a va' :
  pt_wf m root F -> 0 <= va < MAXVA -> 0 <= va' < MAXVA ->
  leaf_slot m root va = Some a ->
  pte_of (st64 m a v) root va' =
    if decide (va' / PGSIZE = va / PGSIZE) then uint64 v else pte_of m root va'.
Proof.
  intros Hwf Hv Hv' Ha. case_decide as Hd.
  - rewrite (pte_of_page _ _ va' va) by done. unfold pte_of.
    rewrite (set_leaf_slot m root F va v a) by done. rewrite Ha. apply ld64_st64_same.
  - unfold pte_of. rewrite (set_leaf_slot m root F va v a) by done.
    destruct (leaf_slot m root va') as [b|] eqn:Hb; [|done].
    apply ld64_st64_other. apply (leaf_slot_inj m root F va va'); done.
Qed.

Lemma leaf_slot_tree m root va a :
  leaf_slot m root va = Some a -> exists p, tree_page m root p /\ p <= a /\ a + 8 <= p + PGSIZE.
Proof.
  unfold leaf_slot. destruct (node m root (va_path va)) as [p|] eqn:E; [|done].
  intros [= <-]. exists p. pose proof (PX_range 0 va ltac:(lia)).
  split; [exists (va_path va); eauto using va_path_path|]. unfold PGSIZE. lia.
Qed.

Lemma set_leaf_step s root F va v a :
  free_pages s F -> pt_wf (km_mem s) root F -> leaf_slot (km_mem s) root va = Some a ->
  pt_step s (Kmem (st64 (km_mem s) a v) (km_freelist s)) root F [] F.
Proof.
  intros Hf Hwf Ha.
  assert (forall q, path q -> node (st64 (km_mem s) a v) root q = node (km_mem s) root q) as Hn
    by (intros; by eapply set_leaf_node).
  destruct (leaf_slot_tree _ _ _ _ Ha) as (p & Hp & Hpa1 & Hpa2).
  pose proof Hp as (qp & Hqp & Hnp).
  destruct (wf_ram _ _ _ Hwf _ _ Hqp Hnp) as [Hpr HpF].
  split; cbn [km_mem].
  - done.
  - apply free_pages_ext; [|done]. intros x b Hx Hb. apply ld8_st64_other.
    assert (ram_page x) as Hxr by (destruct Hf as (_ & _ & Hr); rewrite Forall_forall in Hr; auto).
    assert (p <> x) as Hne by (intros ->; done).
    pose proof (ram_pages_apart p x Hpr Hxr Hne). unfold in_page in *. lia.
  - split.
    + intros q b Hq. rewrite Hn by done. by apply Hwf.
    + intros q q' b Hq Hq'. rewrite !Hn by done. by apply Hwf.
    + intros q b i Hqi Hnb. destruct (path_snoc _ _ Hqi) as [Hq _]. rewrite Hn in Hnb by done.
      rewrite (set_leaf_entry _ _ F va v a q) by done. by eapply (wf_inner _ _ _ Hwf).
    + intros i Hi. rewrite (set_leaf_entry _ root F va v a []); try done; [by apply (wf_half _ _ _ Hwf)|].
      split; [|simpl; lia]. repeat constructor; lia.
  - intros b (q & Hq & Hnq). rewrite Hn in Hnq by done. left. by exists q.
  - by intros b ?%elem_of_nil.
  - intros q b Hq Hnq. by rewrite Hn.
  - intros b Hb _. apply ld8_st64_other. specialize (Hb p Hp). unfold in_page in Hb. lia.
Qed.

(** ** mappages *)

(** The entry that mappages installs. *)
Definition mk_pte (pa perm : Z) : Z := Z.lor (Z.lor (PA2PTE pa) perm) PTE_V.

Lemma mk_pte_lor pa perm : mk_pte pa perm = Z.lor (PA2PTE pa) (Z.lor perm PTE_V).
Proof. unfold mk_pte. by rewrite Z.lor_assoc. Qed.

Lemma mk_pte_range pa perm : 0 <= pa < 2 ^ 56 -> 0 <= perm < 1024 -> 0 <= mk_pte pa perm < 2 ^ 64.
Proof. intros. rewrite mk_pte_lor. apply pte_range; [done|]. apply lor_flags; unfold PTE_V; lia. Qed.

Lemma mk_pte_V pa perm : has (mk_pte pa perm) PTE_V = true.
Proof. apply has_lor_V. Qed.

Lemma mk_pte_PA pa perm : pa mod PGSIZE = 0 -> 0 <= pa < 2 ^ 56 -> 0 <= perm < 1024 ->
  PTE2PA (mk_pte pa perm) = pa.
Proof. intros. rewrite mk_pte_lor. apply PTE2PA_PA2PTE; try done. apply lor_flags; unfold PTE_V; lia. Qed.

(** [va'] lies in one of the [n] pages from [va] on. *)
Definition in_range (va n va' : Z) : Prop := va <= va' < va + n * PGSIZE.
#[export] Instance in_range_dec va n va' : Decision (in_range va n va').
Proof. unfold in_range. apply _. Defined.

(** The address space [f] with [n] pages mapped at [va]. *)
Definition map_range (f : Z -> Z) (va n pa perm va' : Z) : Z :=
  if decide (in_range va n va') then mk_pte (pa + (va' / PGSIZE * PGSIZE - va)) perm else f va'.

Lemma map_range_0 f va pa perm va' : map_range f va 0 pa perm va' = f va'.
Proof. unfold map_range, in_range. rewrite decide_False by lia. done. Qed.

Lemma mappages_loop_S fuel pagetable a last pa perm :
  mappages_loop (S fuel) pagetable a last pa perm =
    (pte <- walk pagetable a true ;;
     if pte =? 0 then kret (-1)
     else
       v <- kld64 pte ;;
       if has v PTE_V then panic "mappages: remap"
       else
         kst64 pte (Z.lor (Z.lor (PA2PTE pa) perm) PTE_V) ;;;
         if a =? last then kret 0
         else mappages_loop fuel pagetable (uint64 (a + PGSIZE)) last (uint64 (pa + PGSIZE)) perm).
Proof. done. Qed.

Lemma mappages_loop_ok n : forall s root va pa perm F,
  free_pages s F -> pt_wf (km_mem s) root F ->
  va mod PGSIZE = 0 -> 0 <= va -> va + Z.of_nat (S n) * PGSIZE <= MAXVA ->
  0 <= pa -> pa + Z.of_nat (S n) * PGSIZE <= 2 ^ 56 -> 0 <= perm < 1024 ->
  (forall va', in_range va (Z.of_nat (S n)) va' -> has (pte_of (km_mem s) root va') PTE_V = false) ->
  exists r s' used F' k,
    mappages_loop (S n) root va (va + Z.of_nat n * PGSIZE) pa perm s = Ret r s' /\
    pt_step s s' root F used F' /\
    (forall va', 0 <= va' < MAXVA ->
       pte_of (km_mem s') root va' = map_range (pte_of (km_mem s) root) va k pa perm va') /\
    (length used <= 2 * S n)%nat /\
    (r = 0 /\ k = Z.of_nat (S n) \/
     r = -1 /\ 0 <= k < Z.of_nat (S n) /\ F' = [] /\ (length F < 2 * S n)%nat).
Proof.
  induction n as [|n IH]; intros s root va pa perm F Hf Hwf Hal H0 Hmax Hpa Hpa' Hperm Hfree;
    rewrite mappages_loop_S.
  all: assert (0 <= va < MAXVA) as Hva by (unfold PGSIZE in *; lia).
  all: assert (0 <= mk_pte pa perm < 2 ^ 64) as Hmk
         by (apply mk_pte_range; [unfold PGSIZE in *; lia|done]).
  all: destruct (walk_alloc s root va F Hf Hwf Hva) as (r & s1 & u1 & F1 & Hw & Hst & Hpte & Hlu & Hr).
  all: kstep Hw.
  all: destruct Hr as [(-> & -> & Hlf)|[Hslot Hr0]].
  1, 3: (exists (-1), s1, u1, [], 0; split; [done|]; split; [done|]; split;
    [intros va' _; rewrite map_range_0; apply Hpte
    | split; [lia|]; right; repeat split; try done; lia]).
  all: destruct (r =? 0) eqn:E; [lia|]; unfold kbind at 1, kld64.
  all: assert (ld64 (km_mem s1) r = pte_of (km_mem s) root va) as Hld
         by (rewrite <- Hpte; unfold pte_of; by rewrite Hslot).
  all: rewrite Hld, Hfree by (unfold in_range, PGSIZE in *; lia).
  all: unfold kbind at 1, kst64; fold (mk_pte pa perm).
  all: pose proof (set_leaf_step s1 root F1 va (mk_pte pa perm) r (ps_free _ _ _ _ _ _ Hst)
                     (ps_wf _ _ _ _ _ _ Hst) Hslot) as Hst2.
  all: pose proof (pt_step_trans _ _ _ _ _ _ _ _ _ Hst Hst2) as Hst3; rewrite app_nil_r in Hst3.
  all: set (s2 := Kmem (st64 (km_mem s1) r (mk_pte pa perm)) (km_freelist s1)) in *.
  all: assert (forall va', 0 <= va' < MAXVA -> pte_of (km_mem s2) root va' =
         if decide (va' / PGSIZE = va / PGSIZE) then mk_pte pa perm else pte_of (km_mem s) root va') as Hs2
         by (intros va' Hva'; cbn [s2 km_mem]; rewrite (set_leaf_pte_of _ _ F1 va) by (done || apply Hst);
             rewrite uint64_small by exact Hmk; by rewrite Hpte).
  - assert ((va =? va + Z.of_nat 0 * PGSIZE) = true) as -> by (apply Z.eqb_eq; lia).
    exists 0, s2, u1, F1, 1. split; [done|]. split; [done|]. split; [|split; [lia|by left]].
    intros va' Hva'. rewrite Hs2 by done. unfold map_range, in_range, PGSIZE in *.
    repeat case_decide; try done; try (exfalso; Z.div_mod_to_equations; lia).
    f_equal. Z.div_mod_to_equations. lia.
  - destruct (va =? va + Z.of_nat (S n) * PGSIZE) eqn:E2; [exfalso; apply Z.eqb_eq in E2; clear - E2; unfold PGSIZE in E2; lia|].
    rewrite !uint64_small by (rewrite MAXVA_eq in *; unfold PGSIZE in *; lia).
    replace (va + Z.of_nat (S n) * PGSIZE) with (va + PGSIZE + Z.of_nat n * PGSIZE) by lia.
    destruct (IH s2 root (va + PGSIZE) (pa + PGSIZE) perm F1)
      as (r' & s' & u2 & F' & k & Hm & Hst4 & Hpte' & Hlu' & Hr'); try (unfold PGSIZE in *; lia).
    + apply Hst3.
    + apply Hst3.
    + unfold PGSIZE in *. Z.div_mod_to_equations. lia.
    + intros va' Hin. unfold in_range in Hin. rewrite Hs2 by (unfold PGSIZE in *; lia).
      rewrite decide_False by (unfold PGSIZE in *; Z.div_mod_to_equations; lia).
      apply Hfree. unfold in_range, PGSIZE in *. lia.
    + exists r', s', (u1 ++ u2), F', (k + 1). split; [exact Hm|].
      split; [by eapply pt_step_trans|].
      assert (length F = length u1 + length F1)%nat by (rewrite (ps_used _ _ _ _ _ _ Hst), length_app; done).
      split; [|split; [rewrite length_app; lia|
        destruct Hr' as [[? ?]|(? & ? & ? & ?)]; [left|right]; repeat split; try done; lia]].
      intros va' Hva'. rewrite Hpte' by done.
      unfold map_range, in_range. rewrite Hs2 by done. unfold PGSIZE in *.
      assert (0 <= k) by lia.
      repeat case_decide; try done; try (exfalso; Z.div_mod_to_equations; lia).
      * f_equal. lia.
      * f_equal. Z.div_mod_to_equations. lia.
Qed.

Lemma mappages_ok s root va size pa perm F :
  free_pages s F -> pt_wf (km_mem s) root F ->
  va mod PGSIZE = 0 -> size mod PGSIZE = 0 -> 0 < size -> 0 <= va -> va + size <= MAXVA ->
  0 <= pa -> pa + size <= 2 ^ 56 -> 0 <= perm < 1024 ->
  (forall va', in_range va (size / PGSIZE) va' -> has (pte_of (km_mem s) root va') PTE_V = false) ->
  exists r s' used F' k,
    mappages root va size pa perm s = Ret r s' /\ pt_step s s' root F used F' /\
    (forall va', 0 <= va' < MAXVA ->
       pte_of (km_mem s') root va' = map_range (pte_of (km_mem s) root) va k pa perm va') /\
    Z.of_nat (length used) <= 2 * (size / PGSIZE) /\
    (r = 0 /\ k = size / PGSIZE \/
     r = -1 /\ 0 <= k < size / PGSIZE /\ F' = [] /\ Z.of_nat (length F) < 2 * (size / PGSIZE)).
Proof.
  intros Hf Hwf Hal Hsz Hpos Hva Hmax Hpa Hpa' Hperm Hfree.
  unfold mappages. rewrite Hal, Hsz. cbn [negb Z.eqb].
  destruct (size =? 0) eqn:E; [lia|].
  assert (exists n, size = Z.of_nat (S n) * PGSIZE) as [n Hn].
  { exists (Z.to_nat (size / PGSIZE - 1)). unfold PGSIZE in *.
    Z.div_mod_to_equations. lia. }
  assert (size / PGSIZE = Z.of_nat (S n)) as Hdiv by (rewrite Hn; apply Z.div_mul; unfold PGSIZE; lia).
  rewrite Hdiv in *. rewrite Nat2Z.id.
  rewrite uint64_small by (rewrite MAXVA_eq in *; unfold PGSIZE in *; lia).
  replace (va + size - PGSIZE) with (va + Z.of_nat n * PGSIZE) by lia.
  destruct (mappages_loop_ok n s root va pa perm F)
    as (r & s' & u & F' & k & Hm & Hst & Hpte & Hu & Hr); try done; try lia.
  exists r, s', u, F', k. repeat (split; [done|]). split; [lia|].
  destruct Hr as [?|(? & ? & ? & ?)]; [by left|right]. repeat split; try done; lia.
Qed.

End map.
