(* ===== verification/VmCopy.v ===== *)
(** * copyout, copyin and copyinstr

    User memory as the kernel reads and writes it.  [user_addr] is the
    physical address of a user virtual address; [as_wf] is the invariant of a
    user address space (its data pages are pages of RAM that are neither
    free nor page-table pages, and no two virtual pages share one). *)

From S2P Require Import Prelude Memory KString Kalloc Vm VmSpec VmMap.

Definition readable (pte : Z) : bool := has pte PTE_V && has pte PTE_U.
Definition writable (pte : Z) : bool := has pte PTE_V && has pte PTE_U && has pte PTE_W.

Definition user_addr (m : memory) (root va : Z) : Z :=
  PTE2PA (pte_of m root va) + va mod PGSIZE.

Section copy.
Context `{I : KernelImage} `{Ok : !KernelImageOk I}.

(** The address space of a process: below TRAPFRAME every mapping is a leaf
    whose page frame belongs to this virtual page alone; the two pages above
    are not accessible to the user. *)
Record as_wf (m : memory) (root : Z) (F : list Z) : Prop := {
  as_tree : pt_wf m root F;
  as_user : forall va, TRAPFRAME <= va < MAXVA -> readable (pte_of m root va) = false;
  as_leaf : forall va, 0 <= va < TRAPFRAME -> has (pte_of m root va) PTE_V = true ->
    PTE_FLAGS (pte_of m root va) <> PTE_V;
  as_data : forall va, 0 <= va < TRAPFRAME -> has (pte_of m root va) PTE_V = true ->
    ram_page (PTE2PA (pte_of m root va)) /\ (PTE2PA (pte_of m root va) ∉ F) /\
    ~ tree_page m root (PTE2PA (pte_of m root va));
  as_inj : forall va va', 0 <= va < TRAPFRAME -> 0 <= va' < TRAPFRAME ->
    has (pte_of m root va) PTE_V = true -> has (pte_of m root va') PTE_V = true ->
    PTE2PA (pte_of m root va) = PTE2PA (pte_of m root va') -> va / PGSIZE = va' / PGSIZE
}.

Lemma readable_low m root F va : as_wf m root F -> 0 <= va < MAXVA ->
  readable (pte_of m root va) = true -> 0 <= va < TRAPFRAME /\ has (pte_of m root va) PTE_V = true.
Proof.
  intros Hwf Hva Hr. destruct (decide (va < TRAPFRAME)).
  - split; [lia|]. unfold readable in Hr. by apply andb_true_iff in Hr as [? _].
  - rewrite (as_user _ _ _ Hwf) in Hr by lia. done.
Qed.

Lemma as_rdata m root F va : as_wf m root F -> 0 <= va < MAXVA ->
  readable (pte_of m root va) = true ->
  ram_page (PTE2PA (pte_of m root va)) /\ (PTE2PA (pte_of m root va) ∉ F) /\
  ~ tree_page m root (PTE2PA (pte_of m root va)).
Proof. intros Hwf Hva Hr. destruct (readable_low m root F va) as [? ?]; try done. by apply as_data. Qed.

Lemma as_rinj m root F va va' : as_wf m root F -> 0 <= va < MAXVA -> 0 <= va' < MAXVA ->
  readable (pte_of m root va) = true -> readable (pte_of m root va') = true ->
  PTE2PA (pte_of m root va) = PTE2PA (pte_of m root va') -> va / PGSIZE = va' / PGSIZE.
Proof.
  intros Hwf Hva Hva' Hr Hr' He.
  destruct (readable_low m root F va) as [? ?]; try done.
  destruct (readable_low m root F va') as [? ?]; try done. by eapply as_inj.
Qed.

(** ** Frame: writes outside the page-table pages *)

Lemma tree_frame m m' root F :
  pt_wf m root F ->
  (forall p b, tree_page m root p -> in_page p b -> ld8 m' b = ld8 m b) ->
  forall q, path q -> node m' root q = node m root q.
Proof.
  intros Hwf H. eapply node_ext; [done|]. intros q p i Hp Hq. unfold entry.
  destruct (path_snoc _ _ Hp) as [Hpq Hi]. apply ld64_ext. intros b Hb.
  apply (H p); [by exists q|]. unfold in_page, PGSIZE. lia.
Qed.

Lemma pte_of_frame m m' root F va :
  pt_wf m root F ->
  (forall p b, tree_page m root p -> in_page p b -> ld8 m' b = ld8 m b) ->
  pte_of m' root va = pte_of m root va.
Proof.
  intros Hwf H. unfold pte_of, leaf_slot. pose proof (va_path_path va) as Hp.
  rewrite (tree_frame m m' root F) by done.
  destruct (node m root (va_path va)) as [p|] eqn:E; [|done]. simpl.
  apply ld64_ext. intros b Hb. pose proof (PX_range 0 va ltac:(lia)).
  apply (H p); [by exists (va_path va)|]. unfold in_page, PGSIZE. lia.
Qed.

Lemma pt_wf_frame m m' root F :
  pt_wf m root F ->
  (forall p b, tree_page m root p -> in_page p b -> ld8 m' b = ld8 m b) ->
  pt_wf m' root F /\ (forall p, tree_page m' root p <-> tree_page m root p).
Proof.
  intros Hwf H. pose proof (tree_frame m m' root F Hwf H) as Hn. split; [split|].
  - intros q p Hq. rewrite Hn by done. by apply Hwf.
  - intros q q' p Hq Hq'. rewrite !Hn by done. by apply Hwf.
  - intros q p i Hqi Hnp. destruct (path_snoc _ _ Hqi) as [Hq Hi]. rewrite Hn in Hnp by done.
    assert (entry m' p i = entry m p i) as ->; [|by eapply (wf_inner _ _ _ Hwf)].
    apply ld64_ext. intros b Hb. apply (H p); [by exists q|]. unfold in_page, PGSIZE. lia.
  - intros i Hi. assert (entry m' root i = entry m root i) as ->; [|by apply (wf_half _ _ _ Hwf)].
    apply ld64_ext. intros b Hb. apply (H root); [|unfold in_page, PGSIZE; lia].
    exists []. split; [|done]. split; [constructor|simpl; lia].
  - intros p. split; intros (q & Hq & Hp); exists q; split; try done.
    + by rewrite <- Hn.
    + by rewrite Hn.
Qed.

Lemma as_wf_frame m m' root F :
  as_wf m root F ->
  (forall p b, tree_page m root p -> in_page p b -> ld8 m' b = ld8 m b) ->
  as_wf m' root F.
Proof.
  intros [Hwf Hu Hl Hd Hi] H.
  assert (forall va, pte_of m' root va = pte_of m root va) as Hp
    by (intros; by eapply pte_of_frame).
  destruct (pt_wf_frame m m' root F Hwf H) as [Hwf' Ht].
  split; [done| | | |].
  - intros va Hva. rewrite Hp. by apply Hu.
  - intros va Hva. rewrite Hp. by apply Hl.
  - intros va Hva. rewrite Hp. intros Hr. rewrite Ht. by apply Hd.
  - intros va va' Hva Hva'. rewrite !Hp. by apply Hi.
Qed.

(** ** Pages of a virtual range *)

Lemma PGROUNDDOWN_page va : 0 <= va < MAXVA ->
  PGROUNDDOWN va = va - va mod PGSIZE /\ PGROUNDDOWN va / PGSIZE = va / PGSIZE /\
  0 <= PGROUNDDOWN va <= va.
Proof.
  intros H. rewrite MAXVA_eq in H. rewrite PGROUNDDOWN_eq by lia.
  unfold PGSIZE. Z.div_mod_to_equations. lia.
Qed.

Lemma same_page va i : 0 <= va -> 0 <= i -> va mod PGSIZE + i < PGSIZE ->
  (va + i) / PGSIZE = va / PGSIZE /\ (va + i) mod PGSIZE = va mod PGSIZE + i.
Proof. unfold PGSIZE. intros. Z.div_mod_to_equations. lia. Qed.

Lemma user_addr_add m root va i : 0 <= va -> 0 <= i -> va mod PGSIZE + i < PGSIZE ->
  user_addr m root (va + i) = user_addr m root va + i.
Proof.
  intros Hva Hi H. destruct (same_page va i Hva Hi H) as [Hd Hm].
  unfold user_addr. rewrite Hm, (pte_of_page m root (va + i) va) by done. lia.
Qed.

Lemma user_addr_inj m root F va va' :
  as_wf m root F -> 0 <= va < MAXVA -> 0 <= va' < MAXVA ->
  readable (pte_of m root va) = true -> readable (pte_of m root va') = true ->
  user_addr m root va = user_addr m root va' -> va = va'.
Proof.
  intros Hwf Hva Hva' Hr Hr' Heq.
  destruct (as_rdata _ _ _ va Hwf Hva Hr) as (Hp & _).
  destruct (as_rdata _ _ _ va' Hwf Hva' Hr') as (Hp' & _).
  unfold user_addr in Heq.
  pose proof (Z.mod_pos_bound va PGSIZE ltac:(unfold PGSIZE; lia)).
  pose proof (Z.mod_pos_bound va' PGSIZE ltac:(unfold PGSIZE; lia)).
  destruct (decide (PTE2PA (pte_of m root va) = PTE2PA (pte_of m root va'))) as [He|Hne].
  - pose proof (as_rinj _ _ _ va va' Hwf Hva Hva' Hr Hr' He). unfold PGSIZE in *.
    Z.div_mod_to_equations. lia.
  - pose proof (ram_pages_apart _ _ Hp Hp' Hne). lia.
Qed.

Lemma writable_readable pte : writable pte = true -> readable pte = true.
Proof. unfold writable, readable. by intros [-> _]%andb_true_iff. Qed.

(** The leaf slot that a valid entry comes from. *)
Lemma walk_mapped s root F va : pt_wf (km_mem s) root F -> 0 <= va < MAXVA ->
  has (pte_of (km_mem s) root va) PTE_V = true ->
  exists a, 0 < a /\ walk root va false s = Ret a s /\ ld64 (km_mem s) a = pte_of (km_mem s) root va.
Proof.
  intros Hwf Hva HV. rewrite walk_noalloc by done. unfold pte_of in *.
  destruct (leaf_slot (km_mem s) root va) as [a|] eqn:E.
  - exists a. split; [by eapply leaf_slot_pos|]. done.
  - by rewrite has_0 in HV.
Qed.

Lemma walk_unmapped s root F va : pt_wf (km_mem s) root F -> 0 <= va < MAXVA ->
  exists a, walk root va false s = Ret a s /\
    (a = 0 /\ pte_of (km_mem s) root va = 0 \/
     0 < a /\ ld64 (km_mem s) a = pte_of (km_mem s) root va).
Proof.
  intros Hwf Hva. rewrite walk_noalloc by done. unfold pte_of.
  destruct (leaf_slot (km_mem s) root va) as [a|] eqn:E.
  - exists a. split; [done|]. right. split; [by eapply leaf_slot_pos|done].
  - exists 0. split; [done|]. by left.
Qed.

(** walkaddr returns the page frame of a user page, 0 for any other address. *)
Lemma walkaddr_ok s root F va : as_wf (km_mem s) root F -> 0 <= va ->
  walkaddr root va s =
    Ret (if (va <? MAXVA) && readable (pte_of (km_mem s) root va)
         then PTE2PA (pte_of (km_mem s) root va) else 0) s.
Proof.
  intros Hwf Hva. unfold walkaddr. destruct (MAXVA <=? va) eqn:E.
  { assert ((va <? MAXVA) = false) as -> by lia. done. }
  assert ((va <? MAXVA) = true) as -> by lia. cbn [andb].
  destruct (walk_unmapped s root F va (as_tree _ _ _ Hwf) ltac:(lia)) as (a & Hw & Ha).
  kstep Hw. destruct Ha as [[-> Hp]|[Ha Hp]].
  - rewrite Hp. unfold readable. by rewrite has_0.
  - destruct (a =? 0) eqn:E2; [lia|]. unfold kbind at 1, kld64. rewrite Hp. unfold readable.
    destruct (has _ PTE_V); cbn [negb andb]; [|done]. by destruct (has _ PTE_U).
Qed.

(** A write confined to a data page keeps all the invariants. *)
Lemma data_write s root F pa m1 :
  free_pages s F -> as_wf (km_mem s) root F ->
  ram_page pa -> pa ∉ F -> ~ tree_page (km_mem s) root pa ->
  (forall b, ~ in_page pa b -> ld8 m1 b = ld8 (km_mem s) b) ->
  free_pages (Kmem m1 (km_freelist s)) F /\ as_wf m1 root F /\
  (forall va, pte_of m1 root va = pte_of (km_mem s) root va).
Proof.
  intros Hf Hwf Hpram HpF Hpt Hm1.
  assert (forall p b, tree_page (km_mem s) root p -> in_page p b -> ld8 m1 b = ld8 (km_mem s) b) as Htree.
  { intros p b Hp Hb. apply Hm1. intros Hb'. assert (p <> pa) as Hne by (intros ->; done).
    pose proof Hp as (q & Hq & Hnq). destruct (wf_ram _ _ _ (as_tree _ _ _ Hwf) _ _ Hq Hnq) as [Hpr _].
    pose proof (ram_pages_apart p pa Hpr Hpram Hne). unfold in_page in *. lia. }
  split; [|split].
  - apply free_pages_ext; [|done]. intros x b Hx Hb. apply Hm1. intros Hb'.
    assert (x <> pa) as Hne by (intros ->; done).
    assert (ram_page x) as Hxr by (destruct Hf as (_ & _ & Hr); rewrite Forall_forall in Hr; auto).
    pose proof (ram_pages_apart x pa Hxr Hpram Hne). unfold in_page in *. lia.
  - by eapply as_wf_frame.
  - intros va. eapply pte_of_frame; [apply Hwf|done].
Qed.

(** ** copyout *)

Lemma copyout_loop_S fuel pagetable dstva src :
  copyout_loop (S fuel) pagetable dstva src =
    (let len := Z.of_nat (length src) in
      if 0 <? len then
        let va0 := PGROUNDDOWN dstva in
        if MAXVA <=? va0 then kret (-1)
        else
          pte <- walk pagetable va0 false ;;
          if pte =? 0 then kret (-1)
          else
            v <- kld64 pte ;;
            if negb (has v PTE_V) || negb (has v PTE_U) || negb (has v PTE_W) then kret (-1)
            else
              let pa0 := PTE2PA v in
              let n := PGSIZE - (dstva - va0) in
              let n := if len <? n then len else n in
              kwrite (pa0 + (dstva - va0)) (take (Z.to_nat n) src) ;;;
              copyout_loop fuel pagetable (uint64 (va0 + PGSIZE)) (drop (Z.to_nat n) src)
      else kret 0).
Proof. done. Qed.

(** The length of the piece of a transfer of [len] bytes at [va] that lies in
    the page of [va]. *)
Definition chunk (va len : Z) : Z :=
  let n := PGSIZE - va mod PGSIZE in if len <? n then len else n.

Lemma chunk_bounds va len : 0 < len ->
  0 < chunk va len <= len /\ va mod PGSIZE + chunk va len <= PGSIZE /\
  (chunk va len < len -> chunk va len = PGSIZE - va mod PGSIZE).
Proof.
  intros H. unfold chunk. pose proof (Z.mod_pos_bound va PGSIZE ltac:(unfold PGSIZE; lia)).
  destruct (len <? _) eqn:E; lia.
Qed.

Lemma copyout_step fuel s root F dstva src :
  as_wf (km_mem s) root F -> 0 <= dstva < MAXVA -> src <> [] ->
  copyout_loop (S fuel) root dstva src s =
    if writable (pte_of (km_mem s) root dstva) then
      let n := Z.to_nat (chunk dstva (Z.of_nat (length src))) in
      copyout_loop fuel root (dstva - dstva mod PGSIZE + PGSIZE) (drop n src)
        (Kmem (write_bytes (km_mem s) (user_addr (km_mem s) root dstva) (take n src)) (km_freelist s))
    else Ret (-1) s.
Proof.
  intros Hwf Hva Hsrc. rewrite copyout_loop_S. cbv zeta.
  assert (0 < Z.of_nat (length src)) by (destruct src; [done|simpl; lia]).
  destruct (0 <? Z.of_nat (length src)) eqn:E0; [|lia].
  destruct (PGROUNDDOWN_page dstva Hva) as (H1 & H2 & H3).
  destruct (MAXVA <=? PGROUNDDOWN dstva) eqn:E1; [lia|].
  destruct (walk_unmapped s root F (PGROUNDDOWN dstva) (as_tree _ _ _ Hwf) ltac:(lia)) as (a & Hw & Ha).
  rewrite (pte_of_page _ _ (PGROUNDDOWN dstva) dstva) in Ha by done.
  kstep Hw. destruct Ha as [[-> Hp]|[Ha Hp]].
  { rewrite Hp. unfold writable. by rewrite has_0. }
  destruct (a =? 0) eqn:E2; [lia|]. unfold kbind at 1, kld64. rewrite Hp. unfold writable.
  destruct (has _ PTE_V); cbn [negb orb andb]; [|done].
  destruct (has _ PTE_U); cbn [negb orb andb]; [|done].
  destruct (has _ PTE_W); cbn [negb orb andb]; [|done].
  unfold kbind, kwrite. rewrite H1. replace (dstva - (dstva - dstva mod PGSIZE)) with (dstva mod PGSIZE) by lia.
  rewrite uint64_small by (rewrite MAXVA_eq in *; unfold PGSIZE in *; lia).
  done.
Qed.

Lemma copyout_loop_ok fuel : forall s root F dstva src,
  free_pages s F -> as_wf (km_mem s) root F ->
  (length src < fuel)%nat -> 0 <= dstva -> dstva + Z.of_nat (length src) <= MAXVA ->
  (forall i, 0 <= i < Z.of_nat (length src) -> writable (pte_of (km_mem s) root (dstva + i)) = true) ->
  exists m', copyout_loop fuel root dstva src s = Ret 0 (Kmem m' (km_freelist s)) /\
    free_pages (Kmem m' (km_freelist s)) F /\ as_wf m' root F /\
    (forall va, pte_of m' root va = pte_of (km_mem s) root va) /\
    (forall i x, src !! i = Some x ->
       ld8 m' (user_addr (km_mem s) root (dstva + Z.of_nat i)) = uint8 x) /\
    (forall b, (forall i, 0 <= i < Z.of_nat (length src) ->
       b <> user_addr (km_mem s) root (dstva + i)) -> ld8 m' b = ld8 (km_mem s) b).
Proof.
  induction fuel as [|fuel IH]; intros s root F dstva src Hf Hwf Hfuel H0 Hmax Hw; [lia|].
  destruct (decide (src = [])) as [->|Hsrc].
  { exists (km_mem s). destruct s as [m fl]. cbn [km_mem km_freelist] in *.
    split; [done|]. split; [done|]. split; [done|]. split; [done|]. split; [|done].
    intros i x Hx. by rewrite lookup_nil in Hx. }
  assert (0 < Z.of_nat (length src)) as Hlen by (destruct src; [done|simpl; lia]).
  set (m := km_mem s) in *. set (n := chunk dstva (Z.of_nat (length src))).
  destruct (chunk_bounds dstva (Z.of_nat (length src)) Hlen) as (Hn1 & Hn2 & Hn3). fold n in Hn1, Hn2, Hn3.
  assert (0 <= dstva < MAXVA) as Hva by lia.
  pose proof (Hw 0 ltac:(lia)) as Hw0. rewrite Z.add_0_r in Hw0.
  destruct (as_rdata _ _ _ dstva Hwf Hva (writable_readable _ Hw0)) as (Hpram & HpF & Hpt).
  rewrite (copyout_step _ s root F) by done. fold m. rewrite Hw0. cbv zeta. fold n.
  set (pa := PTE2PA (pte_of m root dstva)) in *.
  assert (user_addr m root dstva = pa + dstva mod PGSIZE) as Hua by done.
  set (m1 := write_bytes m (user_addr m root dstva) (take (Z.to_nat n) src)).
  assert (length (take (Z.to_nat n) src) = Z.to_nat n) as Htl by (rewrite length_take; lia).
  pose proof (Z.mod_pos_bound dstva PGSIZE ltac:(unfold PGSIZE; lia)) as Hmod.
  assert (forall b, ~ in_page pa b -> ld8 m1 b = ld8 m b) as Hm1.
  { intros b Hb. apply ld8_write_bytes_other. rewrite Htl, Hua. unfold in_page in Hb. lia. }
  destruct (data_write s root F pa m1 Hf Hwf Hpram HpF Hpt Hm1) as (Hf1 & Hwf1 & Hpte).
  assert (forall va, user_addr m1 root va = user_addr m root va) as Hua1
    by (intros; unfold user_addr; by rewrite Hpte).
  assert (length (drop (Z.to_nat n) src) = (length src - Z.to_nat n)%nat) as Hdl by apply length_drop.
  assert (drop (Z.to_nat n) src <> [] -> dstva - dstva mod PGSIZE + PGSIZE = dstva + n) as Hnext.
  { intros Hd. assert (n < Z.of_nat (length src)); [|lia].
    destruct (drop (Z.to_nat n) src); [done|]. simpl in Hdl. lia. }
  set (va1 := dstva - dstva mod PGSIZE + PGSIZE) in *.
  destruct (drop (Z.to_nat n) src) as [|y rest] eqn:Hdrop.
  - (* last chunk *)
    exists m1. assert (Z.to_nat n = length src) as Hnl by (simpl in Hdl; lia).
    split; [destruct fuel; [simpl in *; lia|done]|].
    repeat (split; [done|]). split.
    + intros i x Hx. pose proof (lookup_lt_Some _ _ _ Hx).
      rewrite user_addr_add by lia. unfold m1.
      apply ld8_write_bytes_in. rewrite lookup_take_lt by lia. done.
    + intros b Hb. apply ld8_write_bytes_other. rewrite Htl. intros Hin.
      apply (Hb (b - user_addr m root dstva)); [lia|]. rewrite user_addr_add by lia. lia.
  - rewrite <- Hdrop in *. specialize (Hnext ltac:(by rewrite Hdrop)).
    destruct (IH (Kmem m1 (km_freelist s)) root F va1 (drop (Z.to_nat n) src))
      as (m' & Hr & Hf' & Hwf' & Hpte' & Hin & Hout); try done; try lia.
    { intros i Hi. cbn [km_mem]. rewrite Hpte, Hnext, <- Z.add_assoc. apply Hw. lia. }
    cbn [km_mem km_freelist] in *. exists m'.
    split; [done|]. split; [done|]. split; [done|]. split; [intros; by rewrite Hpte'|]. split.
    + intros i x Hx. pose proof (lookup_lt_Some _ _ _ Hx) as Hi.
      destruct (decide (Z.of_nat i < n)) as [Hin1|Hin2].
      * rewrite Hout.
        -- rewrite user_addr_add by lia. unfold m1. apply ld8_write_bytes_in.
           rewrite lookup_take_lt by lia. done.
        -- intros j Hj Heq. rewrite Hua1, Hnext in Heq.
           assert (dstva + Z.of_nat i = dstva + n + j); [|lia].
           eapply user_addr_inj; [exact Hwf|lia|lia| | |exact Heq]; apply writable_readable.
           ++ apply Hw. lia.
           ++ rewrite <- Z.add_assoc. apply Hw. lia.
      * replace (dstva + Z.of_nat i) with (va1 + Z.of_nat (i - Z.to_nat n)) by lia.
        rewrite <- Hua1. apply Hin. rewrite lookup_drop. rewrite <- Hx. f_equal. lia.
    + intros b Hb. rewrite Hout.
      * apply ld8_write_bytes_other. rewrite Htl. intros Hin'.
        apply (Hb (b - user_addr m root dstva)); [lia|]. rewrite user_addr_add by lia. lia.
      * intros i Hi. rewrite Hua1, Hnext, <- Z.add_assoc. apply Hb. lia.
Qed.

(** A user address that copyout accepts. *)
Definition out_ok (m : memory) (root va : Z) : bool := (va <? MAXVA) && writable (pte_of m root va).

Lemma copyout_loop_fail fuel : forall s root F dstva src i,
  free_pages s F -> as_wf (km_mem s) root F ->
  (length src < fuel)%nat -> 0 <= dstva < 2 ^ 64 ->
  0 <= i < Z.of_nat (length src) -> out_ok (km_mem s) root (dstva + i) = false ->
  exists m', copyout_loop fuel root dstva src s = Ret (-1) (Kmem m' (km_freelist s)) /\
    free_pages (Kmem m' (km_freelist s)) F /\ as_wf m' root F /\
    (forall va, pte_of m' root va = pte_of (km_mem s) root va).
Proof.
  induction fuel as [|fuel IH]; intros s root F dstva src i Hf Hwf Hfuel H0 Hi Hbad; [lia|].
  assert (src <> []) as Hsrc by (intros ->; simpl in Hi; lia).
  destruct (decide (dstva < MAXVA)) as [Hva|Hva].
  2:{ exists (km_mem s). rewrite copyout_loop_S. cbv zeta.
      destruct (0 <? Z.of_nat (length src)) eqn:E; [|lia].
      assert (MAXVA <= PGROUNDDOWN dstva) as Hge.
      { rewrite PGROUNDDOWN_eq by done. rewrite MAXVA_eq in *. unfold PGSIZE. Z.div_mod_to_equations. lia. }
      destruct (MAXVA <=? PGROUNDDOWN dstva) eqn:E1; [|lia].
      destruct s as [m fl]. cbn [km_mem km_freelist] in *. done. }
  rewrite (copyout_step _ s root F) by (done || lia).
  destruct (writable (pte_of (km_mem s) root dstva)) eqn:Hw0.
  2:{ exists (km_mem s). destruct s as [m fl]. cbn [km_mem km_freelist] in *. done. }
  cbv zeta. set (n := chunk dstva (Z.of_nat (length src))).
  destruct (chunk_bounds dstva (Z.of_nat (length src)) ltac:(lia)) as (Hn1 & Hn2 & Hn3). fold n in Hn1, Hn2, Hn3.
  (* the bad address is in a later page *)
  assert (n <= i) as Hin.
  { destruct (decide (n <= i)); [done|exfalso].
    destruct (same_page dstva i) as [Hpg _]; [lia|lia|lia|].
    unfold out_ok in Hbad. rewrite (pte_of_page _ _ (dstva + i) dstva), Hw0, andb_true_r in Hbad by done.
    rewrite MAXVA_eq in *. unfold PGSIZE in *. Z.div_mod_to_equations. lia. }
  specialize (Hn3 ltac:(lia)).
  destruct (as_rdata _ _ _ dstva Hwf ltac:(lia) (writable_readable _ Hw0)) as (Hpram & HpF & Hpt).
  set (m := km_mem s) in *.
  set (pa := PTE2PA (pte_of m root dstva)) in *.
  set (m1 := write_bytes m (user_addr m root dstva) (take (Z.to_nat n) src)).
  pose proof (Z.mod_pos_bound dstva PGSIZE ltac:(unfold PGSIZE; lia)) as Hmod.
  assert (length (take (Z.to_nat n) src) = Z.to_nat n) as Htl by (rewrite length_take; lia).
  assert (forall b, ~ in_page pa b -> ld8 m1 b = ld8 m b) as Hm1.
  { intros b Hb. apply ld8_write_bytes_other. rewrite Htl.
    change (user_addr m root dstva) with (pa + dstva mod PGSIZE). unfold in_page in Hb. lia. }
  destruct (data_write s root F pa m1 Hf Hwf Hpram HpF Hpt Hm1) as (Hf1 & Hwf1 & Hpte).
  destruct (IH (Kmem m1 (km_freelist s)) root F (dstva - dstva mod PGSIZE + PGSIZE)
              (drop (Z.to_nat n) src) (i - n)) as (m' & Hr & Hf' & Hwf' & Hpte'); try done.
  { rewrite length_drop. lia. }
  { rewrite MAXVA_eq in *. unfold PGSIZE in *. lia. }
  { rewrite length_drop. lia. }
  { cbn [km_mem]. unfold out_ok in *. rewrite Hpte.
    replace (dstva - dstva mod PGSIZE + PGSIZE + (i - n)) with (dstva + i) by lia. done. }
  exists m'. cbn [km_mem km_freelist] in *. split; [done|]. split; [done|]. split; [done|].
  intros va. by rewrite Hpte', Hpte.
Qed.

(** ** copyin *)

Fixpoint user_bytes (n : nat) (m : memory) (root va : Z) : list Z :=
  match n with
  | O => []
  | S n' => ld8 m (user_addr m root va) :: user_bytes n' m root (va + 1)
  end.

Lemma length_user_bytes n m root va : length (user_bytes n m root va) = n.
Proof. revert va. induction n as [|n IH]; intros; simpl; [done|]. by rewrite IH. Qed.

Lemma user_bytes_app n k m root va :
  user_bytes (n + k) m root va = user_bytes n m root va ++ user_bytes k m root (va + Z.of_nat n).
Proof.
  revert va. induction n as [|n IH]; intros va; cbn [Nat.add user_bytes app].
  - by rewrite Z.add_0_r.
  - rewrite IH. replace (va + 1 + Z.of_nat n) with (va + Z.of_nat (S n)) by lia. done.
Qed.

Lemma lookup_user_bytes n m root va i : (i < n)%nat ->
  user_bytes n m root va !! i = Some (ld8 m (user_addr m root (va + Z.of_nat i))).
Proof.
  revert va i. induction n as [|n IH]; intros va i Hi; [lia|].
  destruct i as [|i]; cbn [user_bytes]; simpl.
  - by rewrite Z.add_0_r.
  - rewrite IH by lia. do 3 f_equal. lia.
Qed.

Lemma user_bytes_page n m root va :
  0 <= va -> va mod PGSIZE + Z.of_nat n <= PGSIZE ->
  user_bytes n m root va = read_bytes n m (user_addr m root va).
Proof.
  intros Hva Hn. apply list_eq. intros i. destruct (decide (i < n)%nat) as [Hi|Hi].
  - rewrite lookup_user_bytes, lookup_read_bytes by done. by rewrite user_addr_add by lia.
  - rewrite !lookup_ge_None_2; [done| |]; rewrite ?length_read_bytes, ?length_user_bytes; lia.
Qed.

Definition in_ok (m : memory) (root va : Z) : bool := (va <? MAXVA) && readable (pte_of m root va).

Lemma in_ok_page m root va va' : 0 <= va -> 0 <= va' -> va / PGSIZE = va' / PGSIZE ->
  in_ok m root va = in_ok m root va'.
Proof.
  intros H H' Hd. unfold in_ok. rewrite (pte_of_page m root va va') by done.
  destruct (va <? MAXVA) eqn:E1, (va' <? MAXVA) eqn:E2; try done;
    rewrite MAXVA_eq in *; unfold PGSIZE in *; exfalso; Z.div_mod_to_equations; lia.
Qed.

Lemma walkaddr_down s root F va : as_wf (km_mem s) root F -> 0 <= va < 2 ^ 64 ->
  exists pa, walkaddr root (PGROUNDDOWN va) s = Ret pa s /\
    (pa =? 0) = negb (in_ok (km_mem s) root va) /\
    (in_ok (km_mem s) root va = true ->
       pa + (va - PGROUNDDOWN va) = user_addr (km_mem s) root va /\ va - PGROUNDDOWN va = va mod PGSIZE).
Proof.
  intros Hwf Hva. pose proof (PGROUNDDOWN_spec va Hva) as [_ Hd].
  assert (0 <= PGROUNDDOWN va) as Hd0 by (rewrite PGROUNDDOWN_eq by done; unfold PGSIZE; Z.div_mod_to_equations; lia).
  assert (PGROUNDDOWN va / PGSIZE = va / PGSIZE) as Hp.
  { rewrite PGROUNDDOWN_eq by done. unfold PGSIZE. Z.div_mod_to_equations. lia. }
  rewrite (walkaddr_ok s root F) by done.
  change ((PGROUNDDOWN va <? MAXVA) && readable (pte_of (km_mem s) root (PGROUNDDOWN va)))
    with (in_ok (km_mem s) root (PGROUNDDOWN va)).
  rewrite (in_ok_page _ _ (PGROUNDDOWN va) va), (pte_of_page _ _ (PGROUNDDOWN va) va) by (done || lia).
  destruct (in_ok (km_mem s) root va) eqn:E.
  - unfold in_ok in E. apply andb_true_iff in E as [E1 E2].
    destruct (as_rdata _ _ _ va Hwf ltac:(lia) E2) as (Hr & _). pose proof (ram_page_pos _ Hr).
    eexists. split; [done|]. split; [simpl; lia|]. intros _.
    rewrite (PGROUNDDOWN_eq va) by done. unfold user_addr. lia.
  - exists 0. done.
Qed.

Lemma copyin_loop_S fuel pagetable srcva len :
  copyin_loop (S fuel) pagetable srcva len =
      (if 0 <? len then
        let va0 := PGROUNDDOWN srcva in
        pa0 <- walkaddr pagetable va0 ;;
        if pa0 =? 0 then kret (-1, [])
        else
          let n := PGSIZE - (srcva - va0) in
          let n := if len <? n then len else n in
          bs <- kread (pa0 + (srcva - va0)) n ;;
          r <- copyin_loop fuel pagetable (uint64 (va0 + PGSIZE)) (len - n) ;;
          kret (fst r, bs ++ snd r)
      else kret (0, [])).
Proof. done. Qed.

Lemma copyin_loop_spec fuel : forall s root F srcva len,
  as_wf (km_mem s) root F -> len < Z.of_nat fuel -> 0 <= len -> 0 <= srcva < 2 ^ 64 ->
  ((forall i, 0 <= i < len -> in_ok (km_mem s) root (srcva + i) = true) ->
   copyin_loop fuel root srcva len s = Ret (0, user_bytes (Z.to_nat len) (km_mem s) root srcva) s) /\
  ((exists i, 0 <= i < len /\ in_ok (km_mem s) root (srcva + i) = false) ->
   exists bs, copyin_loop fuel root srcva len s = Ret (-1, bs) s).
Proof.
  induction fuel as [|fuel IH]; intros s root F srcva len Hwf Hfuel Hlen Hva; [lia|].
  rewrite copyin_loop_S. destruct (0 <? len) eqn:E0.
  2:{ assert (len = 0) as -> by lia. split; [done|]. intros (i & ? & _). lia. }
  cbv zeta. destruct (walkaddr_down s root F srcva Hwf Hva) as (pa & Hw & Hz & Hpa).
  rewrite (kbind_ret _ _ _ _ _ Hw), Hz.
  destruct (in_ok (km_mem s) root srcva) eqn:Hok; cbn [negb].
  2:{ split; [|by exists []]. intros H. specialize (H 0 ltac:(lia)).
      rewrite Z.add_0_r in H. congruence. }
  destruct (Hpa eq_refl) as [Hu Hoff]. rewrite Hu, Hoff.
  change (if len <? PGSIZE - srcva mod PGSIZE then len else PGSIZE - srcva mod PGSIZE) with (chunk srcva len).
  set (n := chunk srcva len).
  destruct (chunk_bounds srcva len ltac:(lia)) as (Hn1 & Hn2 & Hn3). fold n in Hn1, Hn2, Hn3.
  rewrite (kbind_ret (kread _ _) _ s _ s eq_refl). rewrite <- user_bytes_page by lia.
  assert (srcva < MAXVA) as HM by (unfold in_ok in Hok; lia).
  destruct (PGROUNDDOWN_page srcva ltac:(lia)) as (_ & _ & Hdn).
  set (va1 := uint64 (PGROUNDDOWN srcva + PGSIZE)).
  assert (n < len -> va1 = srcva + n) as Hva1.
  { intros Hlt. unfold va1. rewrite uint64_small; [lia|]. rewrite MAXVA_eq in *. unfold PGSIZE in *. lia. }
  assert (0 <= va1 < 2 ^ 64) as Hva1r by apply uint64_range.
  destruct (IH s root F va1 (len - n) Hwf ltac:(lia) ltac:(lia) Hva1r) as [IH1 IH2].
  split.
  - intros Hall. assert (forall i, 0 <= i < len - n -> in_ok (km_mem s) root (va1 + i) = true) as Hrest.
    { intros i Hi. rewrite Hva1, <- Z.add_assoc by lia. apply Hall. lia. }
    rewrite (kbind_ret _ _ _ _ _ (IH1 Hrest)).
    { cbn [fst snd]. unfold kret. do 2 f_equal.
      replace (Z.to_nat len) with (Z.to_nat n + Z.to_nat (len - n))%nat by lia.
      rewrite user_bytes_app. destruct (decide (n < len)).
      - rewrite Hva1, Z2Nat.id by lia. done.
      - replace (len - n) with 0 by lia. done. }
  - intros (i & Hi & Hbad).
    assert (n <= i) as Hin.
    { destruct (decide (n <= i)); [done|exfalso].
      destruct (same_page srcva i) as [Hpg _]; [lia|lia|lia|].
      rewrite (in_ok_page _ _ (srcva + i) srcva) in Hbad by (done || lia). congruence. }
    destruct IH2 as [bs Hbs].
    { exists (i - n). split; [lia|]. rewrite Hva1 by lia. rewrite <- Hbad. f_equal. lia. }
    exists (user_bytes (Z.to_nat n) (km_mem s) root srcva ++ bs).
    by rewrite (kbind_ret _ _ _ _ _ Hbs).
Qed.

(** ** copyinstr *)

Lemma copystr_page_found n k m p :
  (k < n)%nat -> (forall i, 0 <= i < Z.of_nat k -> ld8 m (p + i) <> 0) -> ld8 m (p + Z.of_nat k) = 0 ->
  copystr_page n m p = (read_bytes (S k) m p, true).
Proof.
  revert k p. induction n as [|n IH]; intros k p Hk Hnz Hz; [lia|]. cbn [copystr_page].
  destruct k as [|k].
  - rewrite Z.add_0_r in Hz. cbn [read_bytes]. by rewrite Hz.
  - pose proof (Hnz 0 ltac:(lia)) as H0. rewrite Z.add_0_r in H0.
    destruct (ld8 m p =? 0) eqn:E; [lia|].
    rewrite (IH k (p + 1)); [done|lia| |].
    + intros i Hi. replace (p + 1 + i) with (p + (i + 1)) by lia. apply Hnz. lia.
    + rewrite <- Hz. f_equal. lia.
Qed.

Lemma copystr_page_full n m p :
  (forall i, 0 <= i < Z.of_nat n -> ld8 m (p + i) <> 0) ->
  copystr_page n m p = (read_bytes n m p, false).
Proof.
  revert p. induction n as [|n IH]; intros p Hnz; [done|]. cbn [copystr_page].
  pose proof (Hnz 0 ltac:(lia)) as H0. rewrite Z.add_0_r in H0.
  destruct (ld8 m p =? 0) eqn:E; [lia|].
  rewrite IH; [done|]. intros i Hi. replace (p + 1 + i) with (p + (i + 1)) by lia. apply Hnz. lia.
Qed.

Lemma copyinstr_loop_S fuel pagetable srcva max :
  copyinstr_loop (S fuel) pagetable srcva max =
      (if 0 <? max then
        let va0 := PGROUNDDOWN srcva in
        pa0 <- walkaddr pagetable va0 ;;
        if pa0 =? 0 then kret (-1, [])
        else
          let n := PGSIZE - (srcva - va0) in
          let n := if max <? n then max else n in
          s <- kget ;;
          let p := copystr_page (Z.to_nat n) (km_mem s) (pa0 + (srcva - va0)) in
          if snd p then kret (0, fst p)
          else
            r <- copyinstr_loop fuel pagetable (uint64 (va0 + PGSIZE)) (max - n) ;;
            kret (fst r, fst p ++ snd r)
      else kret (-1, [])).
Proof. done. Qed.

(** The byte of user memory at [va]. *)
Definition user_byte (m : memory) (root va : Z) : Z := ld8 m (user_addr m root va).

Lemma copyinstr_loop_spec fuel : forall s root F srcva max k,
  as_wf (km_mem s) root F -> max < Z.of_nat fuel -> 0 <= k <= max -> 0 <= srcva < 2 ^ 64 ->
  (forall i, 0 <= i < k -> in_ok (km_mem s) root (srcva + i) = true /\
     user_byte (km_mem s) root (srcva + i) <> 0) ->
  (k < max -> in_ok (km_mem s) root (srcva + k) = true ->
     user_byte (km_mem s) root (srcva + k) = 0 ->
     copyinstr_loop fuel root srcva max s = Ret (0, user_bytes (S (Z.to_nat k)) (km_mem s) root srcva) s) /\
  ((k = max \/ in_ok (km_mem s) root (srcva + k) = false) ->
     exists bs, copyinstr_loop fuel root srcva max s = Ret (-1, bs) s).
Proof.
  induction fuel as [|fuel IH]; intros s root F srcva max k Hwf Hfuel Hk Hva Hpre; [lia|].
  rewrite copyinstr_loop_S. destruct (0 <? max) eqn:E0.
  2:{ split; [lia|]. intros _. by exists []. }
  cbv zeta. destruct (walkaddr_down s root F srcva Hwf Hva) as (pa & Hw & Hz & Hpa).
  rewrite (kbind_ret _ _ _ _ _ Hw), Hz.
  destruct (in_ok (km_mem s) root srcva) eqn:Hok; cbn [negb].
  2:{ split; [|intros _; by exists []].
      destruct (decide (k = 0)) as [->|].
      - rewrite Z.add_0_r. congruence.
      - destruct (Hpre 0 ltac:(lia)) as [Hb _]. rewrite Z.add_0_r in Hb. congruence. }
  destruct (Hpa eq_refl) as [Hu Hoff]. rewrite Hu, Hoff.
  change (if max <? PGSIZE - srcva mod PGSIZE then max else PGSIZE - srcva mod PGSIZE) with (chunk srcva max).
  set (n := chunk srcva max).
  destruct (chunk_bounds srcva max ltac:(lia)) as (Hn1 & Hn2 & Hn3). fold n in Hn1, Hn2, Hn3.
  rewrite (kbind_ret kget _ s _ s eq_refl). unfold user_byte in *.
  assert (srcva < MAXVA) as HM by (unfold in_ok in Hok; lia).
  assert (forall i, 0 <= i < n -> user_addr (km_mem s) root srcva + i = user_addr (km_mem s) root (srcva + i)) as Hadd
    by (intros; rewrite user_addr_add; lia).
  assert (forall i, 0 <= i < n -> in_ok (km_mem s) root (srcva + i) = true) as Hin.
  { intros i Hi. destruct (same_page srcva i) as [Hpg _]; [lia|lia|lia|].
    rewrite (in_ok_page _ _ (srcva + i) srcva) by (done || lia). done. }
  destruct (decide (k < n)) as [Hkn|Hkn].
  - (* the string ends in this page, or the limit is reached *)
    split.
    + intros _ _ Hz0. rewrite (copystr_page_found _ (Z.to_nat k)).
      * cbn [fst snd]. unfold kret. do 2 f_equal. rewrite user_bytes_page by lia. done.
      * lia.
      * intros i Hi. rewrite Hadd by lia. apply Hpre. lia.
      * rewrite Z2Nat.id, Hadd by lia. done.
    + intros [->|Hbad]; [lia|]. rewrite Hin in Hbad by lia. done.
  - rewrite copystr_page_full by (intros i Hi; rewrite Hadd by lia; apply Hpre; lia).
    cbn [fst snd]. rewrite <- user_bytes_page by lia.
    destruct (PGROUNDDOWN_page srcva ltac:(lia)) as (_ & _ & Hdn).
    set (va1 := uint64 (PGROUNDDOWN srcva + PGSIZE)).
    assert (n < max -> va1 = srcva + n) as Hva1.
    { intros Hlt. unfold va1. rewrite uint64_small; [lia|]. rewrite MAXVA_eq in *. unfold PGSIZE in *. lia. }
    assert (0 <= va1 < 2 ^ 64) as Hva1r by apply uint64_range.
    destruct (IH s root F va1 (max - n) (k - n) Hwf ltac:(lia) ltac:(lia) Hva1r) as [IH1 IH2].
    { intros i Hi. rewrite Hva1 by lia. rewrite <- Z.add_assoc. apply Hpre. lia. }
    split.
    + intros Hlt Hok' Hz'. specialize (Hva1 ltac:(lia)).
      rewrite Hva1 in IH1. replace (srcva + n + (k - n)) with (srcva + k) in IH1 by lia.
      rewrite Hva1. rewrite (kbind_ret _ _ _ _ _ (IH1 ltac:(lia) Hok' Hz')).
      cbn [fst snd]. unfold kret. do 2 f_equal.
      replace (S (Z.to_nat k)) with (Z.to_nat n + S (Z.to_nat (k - n)))%nat by lia.
      rewrite user_bytes_app, Z2Nat.id by lia. done.
    + intros Hbad. destruct IH2 as [bs Hbs].
      { destruct Hbad as [->|Hbad]; [left; lia|].
        destruct (decide (n < max)) as [Hlt|]; [|left; lia].
        right. rewrite Hva1 by lia. rewrite <- Hbad. f_equal. lia. }
      exists (user_bytes (Z.to_nat n) (km_mem s) root srcva ++ bs).
      by rewrite (kbind_ret _ _ _ _ _ Hbs).
Qed.

End copy.
