(* ===== verification/VmUser.v ===== *)
(** * uvmunmap, uvmdealloc and uvmalloc

    Growing and shrinking a user address space, against the invariant
    [as_wf]: what is mapped afterwards, which pages go back to the free list,
    and that a failed allocation leaves the address space as it was and loses
    no page. *)

From S2P Require Import Prelude Memory KString Kalloc Vm VmSpec VmMap VmCopy.

Section user.
Context `{I : KernelImage} `{Ok : !KernelImageOk I}.

Lemma TRAPFRAME_lt : TRAPFRAME < MAXVA.
Proof. unfold TRAPFRAME, TRAMPOLINE, PGSIZE. lia. Qed.

Lemma TRAPFRAME_aligned : TRAPFRAME mod PGSIZE = 0.
Proof. done. Qed.

Lemma pt_wf_cons m root F p : pt_wf m root F -> ~ tree_page m root p -> pt_wf m root (p :: F).
Proof.
  intros [Hr Hi Hx Hh] Hp. split; [|done|done|done]. intros q b Hq Hn. destruct (Hr q b Hq Hn) as [? HbF].
  split; [done|]. intros [->|?]%elem_of_cons; [|done]. apply Hp. by exists q.
Qed.

(** ** Unmapping one page *)

Lemma unmap_page s root F va :
  free_pages s F -> as_wf (km_mem s) root F -> 0 <= va < TRAPFRAME ->
  has (pte_of (km_mem s) root va) PTE_V = true ->
  let pa := PTE2PA (pte_of (km_mem s) root va) in
  exists a s',
    walk root va false s = Ret a s /\ 0 < a /\ ld64 (km_mem s) a = pte_of (km_mem s) root va /\
    (kfree pa ;;; kst64 a 0) s = Ret tt s' /\
    free_pages s' (pa :: F) /\ as_wf (km_mem s') root (pa :: F) /\
    (forall va', 0 <= va' < MAXVA -> pte_of (km_mem s') root va' =
       if decide (va' / PGSIZE = va / PGSIZE) then 0 else pte_of (km_mem s) root va') /\
    (forall p, tree_page (km_mem s') root p <-> tree_page (km_mem s) root p) /\
    (forall b, (forall p, tree_page (km_mem s) root p -> ~ in_page p b) -> ~ in_page pa b ->
       ld8 (km_mem s') b = ld8 (km_mem s) b).
Proof.
  intros Hf Hwf Hva HV pa. pose proof TRAPFRAME_lt as HT.
  destruct (as_data _ _ _ Hwf va Hva HV) as (Hpram & HpF & Hpt). fold pa in Hpram, HpF, Hpt.
  destruct (leaf_slot (km_mem s) root va) as [a|] eqn:Hslot.
  2:{ unfold pte_of in HV. rewrite Hslot, has_0 in HV. done. }
  destruct (kfree_ok s pa F Hf Hpram HpF) as [Hk Hf1].
  set (s1 := Kmem (st64 (memset (km_mem s) pa 1 PGSIZE) pa (km_freelist s)) pa) in *.
  assert (forall b, ~ in_page pa b -> ld8 (km_mem s1) b = ld8 (km_mem s) b) as Hm1.
  { intros b Hb. cbn [s1 km_mem]. unfold in_page, PGSIZE in *.
    rewrite ld8_st64_other by lia. by rewrite ld8_memset_out by lia. }
  clearbody s1.
  destruct (data_write s root F pa (km_mem s1) Hf Hwf Hpram HpF Hpt Hm1) as (_ & Hwf1 & Hpte1).
  assert (forall p b, tree_page (km_mem s) root p -> in_page p b -> ld8 (km_mem s1) b = ld8 (km_mem s) b) as Htree.
  { intros p b Hp Hb. apply Hm1. intros Hb'. assert (p <> pa) as Hne by (intros ->; done).
    pose proof Hp as (q & Hq & Hnq). destruct (wf_ram _ _ _ (as_tree _ _ _ Hwf) _ _ Hq Hnq) as [Hpr _].
    pose proof (ram_pages_apart p pa Hpr Hpram Hne). unfold in_page in *. lia. }
  pose proof (tree_frame _ _ _ _ (as_tree _ _ _ Hwf) Htree) as Hn1.
  destruct (pt_wf_frame _ _ _ _ (as_tree _ _ _ Hwf) Htree) as [_ Ht1].
  assert (leaf_slot (km_mem s1) root va = Some a) as Hslot1.
  { unfold leaf_slot in *. rewrite Hn1 by apply va_path_path. done. }
  assert (pt_wf (km_mem s1) root (pa :: F)) as Hwf1'.
  { apply pt_wf_cons; [apply Hwf1|]. by rewrite Ht1. }
  pose proof (set_leaf_step s1 root (pa :: F) va 0 a Hf1 Hwf1' Hslot1) as Hst.
  set (s2 := Kmem (st64 (km_mem s1) a 0) (km_freelist s1)) in *.
  assert (forall va', 0 <= va' < MAXVA -> pte_of (km_mem s2) root va' =
    if decide (va' / PGSIZE = va / PGSIZE) then 0 else pte_of (km_mem s) root va') as Hpte2.
  { intros va' Hva'. cbn [s2 km_mem]. rewrite (set_leaf_pte_of _ _ (pa :: F) va) by (done || lia).
    by rewrite Hpte1. }
  assert (forall p, tree_page (km_mem s2) root p <-> tree_page (km_mem s) root p) as Ht2.
  { intros p. split.
    - intros Hp. apply Ht1. destruct (ps_tree _ _ _ _ _ _ Hst p Hp) as [|Hin]; [done|].
      by apply elem_of_nil in Hin.
    - intros Hp. apply Ht1 in Hp as (q & Hq & Hnq). exists q. split; [done|].
      by apply (ps_keep _ _ _ _ _ _ Hst). }
  exists a, s2. split; [by rewrite walk_noalloc, Hslot by lia|].
  split; [eapply leaf_slot_pos; [apply Hwf|done]|].
  split; [unfold pte_of; by rewrite Hslot|].
  split; [by rewrite (kbind_ret _ _ _ _ _ Hk)|].
  split; [apply Hst|]. split; [|split; [done|split; [done|]]].
  - split.
    + apply Hst.
    + intros va' Hva'. assert (TRAPFRAME <= va' < MAXVA) by done. unfold TRAPFRAME, TRAMPOLINE, PGSIZE in HT.
      rewrite Hpte2 by (rewrite MAXVA_eq in *; unfold TRAPFRAME, TRAMPOLINE, PGSIZE in *; rewrite MAXVA_eq in *; lia).
      case_decide; [unfold readable; by rewrite has_0|]. by apply (as_user _ _ _ Hwf).
    + intros va' Hva'. rewrite Hpte2 by lia. case_decide; [by rewrite has_0|]. by apply (as_leaf _ _ _ Hwf).
    + intros va' Hva'. rewrite Hpte2 by lia. case_decide as Hd; [by rewrite has_0|]. intros HV'.
      destruct (as_data _ _ _ Hwf va' Hva' HV') as (Hr' & HF' & Ht').
      split; [done|]. split; [|by rewrite Ht2].
      intros [He|?]%elem_of_cons; [|done]. apply Hd.
      by apply (as_inj _ _ _ Hwf).
    + intros va1 va2 Hva1 Hva2. rewrite !Hpte2 by lia.
      case_decide; [by rewrite has_0|]. case_decide; [by rewrite has_0|].
      by apply (as_inj _ _ _ Hwf).
  - intros b Hb1 Hb2. rewrite (ps_frame _ _ _ _ _ _ Hst).
    + by apply Hm1.
    + intros p Hp. apply Hb1. by apply Ht1.
    + intros p Hp. by apply elem_of_nil in Hp.
Qed.

(** ** uvmunmap *)

(** The page frames of [n] virtual pages from [va] on. *)
Fixpoint mapped_pages (n : nat) (m : memory) (root va : Z) : list Z :=
  match n with
  | O => []
  | S n' => PTE2PA (pte_of m root va) :: mapped_pages n' m root (va + PGSIZE)
  end.

Lemma mapped_pages_ext n m m' root va :
  (forall i, 0 <= i < Z.of_nat n ->
     pte_of m' root (va + i * PGSIZE) = pte_of m root (va + i * PGSIZE)) ->
  mapped_pages n m' root va = mapped_pages n m root va.
Proof.
  revert va. induction n as [|n IH]; intros va H; [done|]. cbn [mapped_pages]. f_equal.
  - specialize (H 0 ltac:(lia)). rewrite Z.mul_0_l, Z.add_0_r in H. by rewrite H.
  - apply IH. intros i Hi. specialize (H (i + 1) ltac:(lia)).
    replace (va + PGSIZE + i * PGSIZE) with (va + (i + 1) * PGSIZE) by lia. done.
Qed.

Lemma elem_of_mapped_pages n m root va p :
  p ∈ mapped_pages n m root va <->
  exists i, 0 <= i < Z.of_nat n /\ p = PTE2PA (pte_of m root (va + i * PGSIZE)).
Proof.
  revert va. induction n as [|n IH]; intros va; cbn [mapped_pages].
  { rewrite elem_of_nil. split; [done|]. intros (i & ? & _). lia. }
  rewrite elem_of_cons, IH. split.
  - intros [->|(i & Hi & ->)].
    + exists 0. rewrite Z.mul_0_l, Z.add_0_r. split; [lia|done].
    + exists (i + 1). split; [lia|]. do 2 f_equal. lia.
  - intros (i & Hi & ->). destruct (decide (i = 0)) as [->|].
    + left. by rewrite Z.mul_0_l, Z.add_0_r.
    + right. exists (i - 1). split; [lia|]. do 2 f_equal. lia.
Qed.

Lemma uvmunmap_loop_S fuel pagetable a last do_free :
  uvmunmap_loop (S fuel) pagetable a last do_free =
      (if a <? last then
        pte <- walk pagetable a false ;;
        if pte =? 0 then panic "uvmunmap: walk"
        else
          v <- kld64 pte ;;
          if negb (has v PTE_V) then panic "uvmunmap: not mapped"
          else if PTE_FLAGS v =? PTE_V then panic "uvmunmap: not a leaf"
          else
            (if do_free then kfree (PTE2PA v) else kret tt) ;;;
            kst64 pte 0 ;;;
            uvmunmap_loop fuel pagetable (uint64 (a + PGSIZE)) last do_free
      else kret tt).
Proof. done. Qed.

(** The result of unmapping [n] pages from [va] on, with [freed] the pages
    that go back to the allocator. *)
Record unmapped (s s' : kmem) (root va n : Z) (F F' : list Z) : Prop := {
  um_free : free_pages s' F';
  um_wf : as_wf (km_mem s') root F';
  um_pte : forall va', 0 <= va' < MAXVA -> pte_of (km_mem s') root va' =
    if decide (in_range va n va') then 0 else pte_of (km_mem s) root va';
  um_tree : forall p, tree_page (km_mem s') root p <-> tree_page (km_mem s) root p;
  um_frame : forall b, (forall p, tree_page (km_mem s) root p -> ~ in_page p b) ->
    (forall p, p ∈ F' -> ~ in_page p b) -> ld8 (km_mem s') b = ld8 (km_mem s) b
}.

Lemma uvmunmap_loop_ok n : forall fuel s root F va,
  (n < fuel)%nat ->
  free_pages s F -> as_wf (km_mem s) root F ->
  va mod PGSIZE = 0 -> 0 <= va -> va + Z.of_nat n * PGSIZE <= TRAPFRAME ->
  (forall va', in_range va (Z.of_nat n) va' -> has (pte_of (km_mem s) root va') PTE_V = true) ->
  exists s', uvmunmap_loop fuel root va (va + Z.of_nat n * PGSIZE) true s = Ret tt s' /\
    unmapped s s' root va (Z.of_nat n) F (rev (mapped_pages n (km_mem s) root va) ++ F).
Proof.
  pose proof TRAPFRAME_lt as HT.
  induction n as [|n IH]; intros fuel s root F va Hfuel Hf Hwf Hal H0 Hmax HV;
    (destruct fuel as [|fuel]; [lia|]); rewrite uvmunmap_loop_S.
  { change (Z.of_nat 0) with 0. rewrite Z.mul_0_l, Z.add_0_r, Z.ltb_irrefl. exists s. split; [done|].
    split; try done. intros va' Hva'. case_decide as Hd; [unfold in_range in Hd; lia|done]. }
  replace (va <? va + Z.of_nat (S n) * PGSIZE) with true
    by (symmetry; apply Z.ltb_lt; unfold PGSIZE; lia).
  assert (0 <= va < TRAPFRAME) as Hva by (unfold PGSIZE in *; lia).
  assert (has (pte_of (km_mem s) root va) PTE_V = true) as HV0
    by (apply HV; unfold in_range, PGSIZE; lia).
  destruct (unmap_page s root F va Hf Hwf Hva HV0)
    as (a & s1 & Hw & Ha & Hld & Hk & Hf1 & Hwf1 & Hpte1 & Ht1 & Hfr1).
  set (pa := PTE2PA (pte_of (km_mem s) root va)) in *.
  rewrite (kbind_ret _ _ _ _ _ Hw). destruct (a =? 0) eqn:E1; [lia|].
  rewrite (kbind_ret (kld64 a) _ s _ s eq_refl), Hld, HV0. cbn [negb].
  destruct (PTE_FLAGS (pte_of (km_mem s) root va) =? PTE_V) eqn:E2.
  { exfalso. apply (as_leaf _ _ _ Hwf va Hva HV0). lia. }
  rewrite kbind_assoc. fold pa. rewrite (kbind_ret _ _ _ _ _ Hk).
  rewrite uint64_small by (unfold TRAPFRAME, TRAMPOLINE, PGSIZE in *; rewrite MAXVA_eq in *; lia).
  replace (va + Z.of_nat (S n) * PGSIZE) with (va + PGSIZE + Z.of_nat n * PGSIZE) by lia.
  assert (forall va', 0 <= va' < MAXVA -> in_range (va + PGSIZE) (Z.of_nat n) va' -> va' / PGSIZE <> va / PGSIZE) as Hne.
  { intros va' Hva' Hin. unfold in_range, PGSIZE in *. Z.div_mod_to_equations. lia. }
  destruct (IH fuel s1 root (pa :: F) (va + PGSIZE)) as (s' & Hs' & Hum); try done; try lia.
  { unfold PGSIZE in *. Z.div_mod_to_equations. lia. }
  { unfold PGSIZE; lia. }
  { intros va' Hin. assert (0 <= va' < MAXVA) by (unfold in_range, PGSIZE in *; lia).
    rewrite Hpte1, decide_False by auto. apply HV. unfold in_range, PGSIZE in *. lia. }
  exists s'. split; [done|].
  assert (mapped_pages n (km_mem s1) root (va + PGSIZE) = mapped_pages n (km_mem s) root (va + PGSIZE)) as Hmp.
  { apply mapped_pages_ext. intros i Hi.
    assert (in_range (va + PGSIZE) (Z.of_nat n) (va + PGSIZE + i * PGSIZE)) as Hin
      by (unfold in_range, PGSIZE; lia).
    assert (0 <= va + PGSIZE + i * PGSIZE < MAXVA) by (unfold in_range, PGSIZE in *; lia).
    rewrite Hpte1, decide_False by auto. done. }
  cbn [mapped_pages rev]. fold pa. rewrite <- app_assoc. cbn [app]. rewrite Hmp in Hum.
  destruct Hum as [U1 U2 U3 U4 U5]. split; try done.
  - intros va' Hva'. rewrite U3, Hpte1 by done. unfold in_range in *.
    repeat case_decide; try done; exfalso; unfold PGSIZE in *; Z.div_mod_to_equations; lia.
  - intros p. by rewrite U4, Ht1.
  - intros b Hb1 Hb2. rewrite U5.
    + apply Hfr1; [done|]. apply Hb2. rewrite elem_of_app. right. left.
    + intros p Hp. apply Hb1. by apply Ht1.
    + done.
Qed.

Lemma uvmunmap_ok s root F va n :
  free_pages s F -> as_wf (km_mem s) root F ->
  va mod PGSIZE = 0 -> 0 <= va -> 0 <= n -> va + n * PGSIZE <= TRAPFRAME ->
  (forall va', in_range va n va' -> has (pte_of (km_mem s) root va') PTE_V = true) ->
  exists s', uvmunmap root va n true s = Ret tt s' /\
    unmapped s s' root va n F (rev (mapped_pages (Z.to_nat n) (km_mem s) root va) ++ F).
Proof.
  intros Hf Hwf Hal H0 Hn Hmax HV. pose proof TRAPFRAME_lt.
  unfold uvmunmap. rewrite Hal. cbn [negb Z.eqb].
  rewrite uint64_small by (unfold TRAPFRAME, TRAMPOLINE, PGSIZE in *; rewrite MAXVA_eq in *; lia).
  destruct (uvmunmap_loop_ok (Z.to_nat n) (S (Z.to_nat n)) s root F va) as (s' & Hs' & Hu);
    rewrite ?Z2Nat.id in * by done; try done; try lia.
  exists s'. split; done.
Qed.

(** ** uvmdealloc *)

Lemma PGROUNDUP_aligned a : 0 <= a -> a mod PGSIZE = 0 -> a <= 2 ^ 64 - PGSIZE -> PGROUNDUP a = a.
Proof.
  intros. rewrite PGROUNDUP_eq by lia. unfold PGSIZE in *. Z.div_mod_to_equations. lia.
Qed.

Lemma uvmdealloc_ok s root F oldsz newsz :
  free_pages s F -> as_wf (km_mem s) root F ->
  0 <= newsz -> newsz < oldsz -> PGROUNDUP oldsz <= TRAPFRAME -> oldsz <= TRAPFRAME ->
  (forall va', PGROUNDUP newsz <= va' < PGROUNDUP oldsz -> has (pte_of (km_mem s) root va') PTE_V = true) ->
  let n := (PGROUNDUP oldsz - PGROUNDUP newsz) / PGSIZE in
  exists s', uvmdealloc root oldsz newsz s = Ret newsz s' /\
    unmapped s s' root (PGROUNDUP newsz) n F
      (rev (mapped_pages (Z.to_nat n) (km_mem s) root (PGROUNDUP newsz)) ++ F).
Proof.
  intros Hf Hwf Hn0 Hlt Hmax Hmax' HV n. pose proof TRAPFRAME_lt as HT.
  assert (oldsz <= 2 ^ 64 - PGSIZE) as Hb.
  { unfold TRAPFRAME, TRAMPOLINE, PGSIZE in *. rewrite MAXVA_eq in *. lia. }
  destruct (PGROUNDUP_spec newsz ltac:(lia)) as [Haln Hrn].
  destruct (PGROUNDUP_spec oldsz ltac:(lia)) as [Halo Hro].
  assert (PGROUNDUP newsz <= PGROUNDUP oldsz) as Hmono.
  { rewrite (PGROUNDUP_eq newsz), (PGROUNDUP_eq oldsz) by lia. unfold PGSIZE in *.
    Z.div_mod_to_equations. lia. }
  unfold uvmdealloc. destruct (oldsz <=? newsz) eqn:E; [lia|].
  destruct (PGROUNDUP newsz <? PGROUNDUP oldsz) eqn:E2.
  - fold n. assert (0 <= n < 2 ^ 26) as Hn.
    { unfold n, TRAPFRAME, TRAMPOLINE, PGSIZE in *. rewrite MAXVA_eq in *. Z.div_mod_to_equations. lia. }
    assert (n * PGSIZE = PGROUNDUP oldsz - PGROUNDUP newsz) as Hnp.
    { unfold n, PGSIZE in *. Z.div_mod_to_equations. lia. }
    rewrite int32_small, uint64_small by lia.
    destruct (uvmunmap_ok s root F (PGROUNDUP newsz) n) as (s' & Hs' & Hu); try done; try lia.
    { intros va' Hin. apply HV. unfold in_range in Hin. lia. }
    exists s'. split; [|done]. by rewrite (kbind_ret _ _ _ _ _ Hs').
  - assert (n = 0) as Hn by (unfold n; replace (_ - _) with 0 by lia; done). rewrite Hn.
    exists s. split; [done|]. split; try done.
    intros va' Hva'. case_decide as Hd; [unfold in_range in Hd; lia|done].
Qed.

End user.
