(* ===== verification/VmGrow.v ===== *)
(** * Ownership of pages and mapping fresh pages

    The pages of an address space (page-table pages and the frames its
    entries map) and the conservation of pages between it and the free list;
    the steps that [uvmalloc] and [uvmcopy] share: take a page from the
    allocator, fill it, map it. *)

From S2P Require Import Prelude Memory KString Kalloc Vm VmSpec VmMap VmCopy VmUser.

(** The pages that belong to the address space at [root]. *)
Definition owns (m : memory) (root p : Z) : Prop :=
  tree_page m root p \/
  exists va, 0 <= va < TRAPFRAME /\ has (pte_of m root va) PTE_V = true /\ PTE2PA (pte_of m root va) = p.

Section grow.
Context `{I : KernelImage} `{Ok : !KernelImageOk I}.

(** A change of one address space and of the free list that keeps both
    invariants, neither loses nor invents a page, and touches no page of
    anybody else. *)
Record as_step (s s' : kmem) (root : Z) (F F' : list Z) : Prop := {
  st_free : free_pages s' F';
  st_wf : as_wf (km_mem s') root F';
  st_own : forall p, (p ∈ F' \/ owns (km_mem s') root p) <-> (p ∈ F \/ owns (km_mem s) root p);
  st_frame : forall b, (forall p, p ∈ F \/ owns (km_mem s) root p -> ~ in_page p b) ->
    ld8 (km_mem s') b = ld8 (km_mem s) b
}.

Lemma as_step_refl s root F : free_pages s F -> as_wf (km_mem s) root F -> as_step s s root F F.
Proof. intros. by split. Qed.

Lemma as_step_trans s1 s2 s3 root F1 F2 F3 :
  as_step s1 s2 root F1 F2 -> as_step s2 s3 root F2 F3 -> as_step s1 s3 root F1 F3.
Proof.
  intros [? ? O1 G1] [? ? O2 G2]. split; try done.
  - intros p. by rewrite O2, O1.
  - intros b Hb. rewrite G2, G1; try done. intros p Hp. apply Hb. by apply O1.
Qed.

(** ** Pages apart *)

Lemma page_apart p q b : ram_page p -> ram_page q -> p <> q -> in_page p b -> ~ in_page q b.
Proof. intros Hp Hq Hne. pose proof (ram_pages_apart p q Hp Hq Hne). unfold in_page. lia. Qed.

Lemma free_ram s F p : free_pages s F -> p ∈ F -> ram_page p.
Proof. intros (_ & _ & H). rewrite Forall_forall in H. auto. Qed.

Lemma tree_ram m root F p : pt_wf m root F -> tree_page m root p -> ram_page p /\ p ∉ F.
Proof. intros H (q & Hq & Hn). by eapply wf_ram. Qed.

Lemma owns_ram m root F p : as_wf m root F -> owns m root p -> ram_page p /\ p ∉ F.
Proof.
  intros H [Ht|(va & Hva & HV & <-)]; [eapply tree_ram; [apply H|done]|].
  destruct (as_data _ _ _ H va Hva HV) as (? & ? & _). done.
Qed.

Lemma as_wf_sub m root F F' : (forall p, p ∈ F' -> p ∈ F) -> as_wf m root F -> as_wf m root F'.
Proof.
  intros Hs [[Hr Hi Hx Hh] Hu Hl Hd Hj]. split; try done.
  - split; [|done|done|done]. intros q p Hq Hn. destruct (Hr q p Hq Hn) as [? HF].
    split; [done|]. by intros ?%Hs.
  - intros va Hva HV. destruct (Hd va Hva HV) as (? & HF & ?).
    split; [done|]. split; [|done]. by intros ?%Hs.
Qed.

(** ** Unmapping conserves pages *)

Lemma in_range_page va n va' : va mod PGSIZE = 0 -> in_range va n va' ->
  0 <= (va' - va) / PGSIZE < n /\ (va + (va' - va) / PGSIZE * PGSIZE) / PGSIZE = va' / PGSIZE.
Proof.
  unfold in_range. intros Hal H. unfold PGSIZE in *. Z.div_mod_to_equations. lia.
Qed.

Lemma unmapped_as_step s s' root va n F :
  as_wf (km_mem s) root F ->
  va mod PGSIZE = 0 -> 0 <= va -> 0 <= n -> va + n * PGSIZE <= TRAPFRAME ->
  (forall va', in_range va n va' -> has (pte_of (km_mem s) root va') PTE_V = true) ->
  unmapped s s' root va n F (rev (mapped_pages (Z.to_nat n) (km_mem s) root va) ++ F) ->
  as_step s s' root F (rev (mapped_pages (Z.to_nat n) (km_mem s) root va) ++ F).
Proof.
  intros Hwf Hal H0 Hn Hmax HV [U1 U2 U3 U4 U5]. pose proof TRAPFRAME_lt as HT.
  assert (forall p, p ∈ rev (mapped_pages (Z.to_nat n) (km_mem s) root va) ++ F ->
            p ∈ F \/ owns (km_mem s) root p) as Hin.
  { intros p. rewrite elem_of_app, elem_of_rev, elem_of_mapped_pages.
    intros [(i & Hi & ->)|?]; [|by left]. right. right.
    assert (in_range va n (va + i * PGSIZE)) as Hr by (unfold in_range, PGSIZE; lia).
    exists (va + i * PGSIZE). split; [unfold in_range in Hr; lia|]. split; [by apply HV|done]. }
  split; try done.
  - intros p. split; [intros [Hp|[Hp|(va' & Hva' & HV' & <-)]]|intros [Hp|[Hp|(va' & Hva' & HV' & <-)]]].
    + by apply Hin.
    + right. left. by apply U4.
    + rewrite U3 in HV' |- * by lia. case_decide; [by rewrite has_0 in HV'|].
      right. right. by exists va'.
    + left. apply elem_of_app. by right.
    + right. left. by apply U4.
    + destruct (decide (in_range va n va')) as [Hr|Hr].
      * left. apply elem_of_app. left. apply elem_of_rev, elem_of_mapped_pages. destruct (in_range_page va n va' Hal Hr) as [Hi He].
        exists ((va' - va) / PGSIZE). split; [lia|]. by rewrite (pte_of_page _ _ _ _ He).
      * right. right. exists va'. split; [done|]. rewrite U3 by lia. by rewrite decide_False.
  - intros b Hb. apply U5.
    + intros p Hp. apply Hb. right. by left.
    + intros p Hp. apply Hb. by apply Hin.
Qed.

(** The pages that stay mapped keep their contents. *)
Lemma unmapped_data s s' root va n F F' va' b :
  as_wf (km_mem s) root F -> unmapped s s' root va n F F' ->
  0 <= va' < TRAPFRAME -> has (pte_of (km_mem s) root va') PTE_V = true -> ~ in_range va n va' ->
  in_page (PTE2PA (pte_of (km_mem s) root va')) b -> ld8 (km_mem s') b = ld8 (km_mem s) b.
Proof.
  intros Hwf [U1 U2 U3 U4 U5] Hva' HV Hr Hb. pose proof TRAPFRAME_lt as HT.
  assert (pte_of (km_mem s') root va' = pte_of (km_mem s) root va') as Hp
    by (rewrite U3 by lia; by rewrite decide_False).
  destruct (as_data _ _ _ U2 va' Hva') as (Hram & HF & _); [by rewrite Hp|]. rewrite Hp in Hram, HF.
  destruct (as_data _ _ _ Hwf va' Hva' HV) as (_ & _ & Ht).
  apply U5.
  - intros p Hpt. eapply page_apart; [done| |intros <-; done|done]. eapply tree_ram; [apply Hwf|done].
  - intros p HpF. eapply page_apart; [done|by eapply free_ram|intros <-; done|done].
Qed.

(** ** A page fresh from the allocator *)

Record fresh (m : memory) (root : Z) (F : list Z) (x : Z) : Prop := {
  fr_ram : ram_page x;
  fr_free : x ∉ F;
  fr_tree : ~ tree_page m root x;
  fr_data : forall va, 0 <= va < TRAPFRAME -> has (pte_of m root va) PTE_V = true ->
    PTE2PA (pte_of m root va) <> x
}.

Lemma fill_fresh s root F x m' :
  free_pages s F -> as_wf (km_mem s) root F -> fresh (km_mem s) root F x ->
  (forall b, ~ in_page x b -> ld8 m' b = ld8 (km_mem s) b) ->
  free_pages (Kmem m' (km_freelist s)) F /\ as_wf m' root F /\ fresh m' root F x /\
  (forall va, pte_of m' root va = pte_of (km_mem s) root va) /\
  (forall p, tree_page m' root p <-> tree_page (km_mem s) root p).
Proof.
  intros Hf Hwf [Hx HxF Hxt Hxd] Hm.
  destruct (data_write s root F x m' Hf Hwf Hx HxF Hxt Hm) as (Hf' & Hwf' & Hp).
  assert (forall p, tree_page m' root p <-> tree_page (km_mem s) root p) as Ht.
  { eapply pt_wf_frame; [apply Hwf|]. intros p b Hpt Hb. apply Hm.
    apply (page_apart p x b); [|done|intros ->; done|done]. eapply tree_ram; [apply Hwf|done]. }
  repeat (split; [done|]). split; [|done].
  split; try done; [by rewrite Ht|]. intros va. rewrite Hp. apply Hxd.
Qed.

Lemma alloc_fresh s root x F :
  free_pages s (x :: F) -> as_wf (km_mem s) root (x :: F) ->
  exists s1, kalloc s = Ret x s1 /\ 0 < x /\
    free_pages s1 F /\ as_wf (km_mem s1) root F /\ fresh (km_mem s1) root F x /\
    (forall va, pte_of (km_mem s1) root va = pte_of (km_mem s) root va) /\
    (forall p, tree_page (km_mem s1) root p <-> tree_page (km_mem s) root p) /\
    (forall b, ~ in_page x b -> ld8 (km_mem s1) b = ld8 (km_mem s) b).
Proof.
  intros Hf Hwf. destruct (kalloc_some s x F Hf) as [Hk Hf1].
  destruct (free_pages_head s x F Hf) as (_ & Hx & HxF).
  set (s1 := Kmem (memset (km_mem s) x 5 PGSIZE) (ld64 (km_mem s) x)) in *.
  assert (forall b, ~ in_page x b -> ld8 (km_mem s1) b = ld8 (km_mem s) b) as Hm1.
  { intros b Hb. cbn [s1 km_mem]. unfold in_page, PGSIZE in *. by rewrite ld8_memset_out by lia. }
  clearbody s1. exists s1. split; [done|]. split; [by apply ram_page_pos|]. split; [done|].
  assert (as_wf (km_mem s) root F) as Hwf' by (eapply as_wf_sub; [|done]; intros; by right).
  assert (fresh (km_mem s) root F x) as Hfr.
  { split; try done.
    - intros Ht. destruct (tree_ram _ _ _ _ (as_tree _ _ _ Hwf) Ht) as [_ Hn]. apply Hn. left.
    - intros va Hva HV <-. destruct (as_data _ _ _ Hwf va Hva HV) as (_ & Hn & _). apply Hn. left. }
  assert (forall p b, tree_page (km_mem s) root p -> in_page p b -> ld8 (km_mem s1) b = ld8 (km_mem s) b) as Htree.
  { intros p b Hpt Hb. apply Hm1. apply (page_apart p x b); [|done|intros ->; by apply (fr_tree _ _ _ _ Hfr)|done].
    eapply tree_ram; [apply Hwf|done]. }
  destruct (pt_wf_frame _ _ _ _ (as_tree _ _ _ Hwf) Htree) as [_ Ht].
  assert (forall va, pte_of (km_mem s1) root va = pte_of (km_mem s) root va) as Hp
    by (intros va; eapply pte_of_frame; [apply Hwf|done]).
  split; [by eapply as_wf_frame|]. split; [|done].
  destruct Hfr as [? ? Hxt Hxd]. split; try done; [by rewrite Ht|]. intros va. rewrite Hp. apply Hxd.
Qed.

(** ** Mapping a fresh page *)

Lemma as_wf_step s s' root F used F' :
  as_wf (km_mem s) root F -> pt_step s s' root F used F' ->
  (forall va, 0 <= va < MAXVA -> pte_of (km_mem s') root va = pte_of (km_mem s) root va) ->
  as_wf (km_mem s') root F'.
Proof.
  intros [Ht Hu Hl Hd Hi] Hst Hp. pose proof TRAPFRAME_lt as HT. split.
  - apply Hst.
  - intros va Hva. rewrite Hp; [by apply Hu|]. unfold TRAPFRAME, TRAMPOLINE, PGSIZE in *. rewrite MAXVA_eq in *. lia.
  - intros va Hva. rewrite Hp by lia. by apply Hl.
  - intros va Hva. rewrite Hp by lia. intros HV. destruct (Hd va Hva HV) as (? & HF & Hnt).
    rewrite (ps_used _ _ _ _ _ _ Hst), elem_of_app in HF.
    split; [done|]. split; [tauto|]. intros Hpt.
    destruct (ps_tree _ _ _ _ _ _ Hst _ Hpt); tauto.
  - intros va va' Hva Hva'. rewrite !Hp by lia. by apply Hi.
Qed.

Lemma PTE_FLAGS_mk pa perm : 0 <= pa < 2 ^ 56 -> 0 <= perm < 1024 ->
  PTE_FLAGS (mk_pte pa perm) = Z.lor perm PTE_V.
Proof.
  intros. rewrite mk_pte_lor. apply PTE_FLAGS_pte; [done|]. apply lor_flags; unfold PTE_V; lia.
Qed.

Lemma as_wf_map s s' root F used F' va x perm :
  as_wf (km_mem s) root F -> pt_step s s' root F used F' -> fresh (km_mem s) root F x ->
  0 <= perm < 1024 -> Z.lor perm PTE_V <> PTE_V -> 0 <= va < TRAPFRAME ->
  (forall va', 0 <= va' < MAXVA -> pte_of (km_mem s') root va' =
     if decide (va' / PGSIZE = va / PGSIZE) then mk_pte x perm else pte_of (km_mem s) root va') ->
  as_wf (km_mem s') root F'.
Proof.
  intros [Ht Hu Hl Hd Hi] Hst [Hx HxF Hxt Hxd] Hperm HpV Hva Hp. pose proof TRAPFRAME_lt as HT.
  assert (PTE2PA (mk_pte x perm) = x) as Hpa.
  { apply mk_pte_PA; try done; [by apply ram_page_aligned|by apply ram_page_56]. }
  rewrite (ps_used _ _ _ _ _ _ Hst), elem_of_app in HxF. split.
  - apply Hst.
  - intros va' Hva'. rewrite Hp by (unfold TRAPFRAME, TRAMPOLINE, PGSIZE in *; rewrite MAXVA_eq in *; lia).
    rewrite decide_False; [by apply Hu|]. pose proof TRAPFRAME_aligned.
    unfold PGSIZE in *. Z.div_mod_to_equations. lia.
  - intros va' Hva'. rewrite Hp by lia. case_decide; [|by apply Hl]. intros _.
    rewrite PTE_FLAGS_mk by (done || by apply ram_page_56). done.
  - intros va' Hva'. rewrite Hp by lia. case_decide.
    + intros _. rewrite Hpa. split; [done|]. split; [tauto|]. intros Hpt.
      destruct (ps_tree _ _ _ _ _ _ Hst _ Hpt); tauto.
    + intros HV. destruct (Hd va' Hva' HV) as (? & HF & Hnt).
      rewrite (ps_used _ _ _ _ _ _ Hst), elem_of_app in HF.
      split; [done|]. split; [tauto|]. intros Hpt.
      destruct (ps_tree _ _ _ _ _ _ Hst _ Hpt); tauto.
  - intros va1 va2 Hva1 Hva2. rewrite !Hp by lia. repeat case_decide; rewrite ?Hpa.
    + congruence.
    + intros _ HV He. exfalso. by apply (Hxd va2 Hva2 HV).
    + intros HV _ He. exfalso. by apply (Hxd va1 Hva1 HV).
    + by apply Hi.
Qed.

Lemma owns_tree_step s s' root F used F' p :
  pt_step s s' root F used F' ->
  p ∈ F' \/ tree_page (km_mem s') root p <-> p ∈ F \/ tree_page (km_mem s) root p.
Proof.
  intros Hst. rewrite (ps_used _ _ _ _ _ _ Hst), elem_of_app. split.
  - intros [?|Hp]; [auto|]. destruct (ps_tree _ _ _ _ _ _ Hst _ Hp); auto.
  - intros [[?|?]|(q & Hq & Hn)]; [|auto|].
    + right. by apply (ps_link _ _ _ _ _ _ Hst).
    + right. exists q. split; [done|]. by apply (ps_keep _ _ _ _ _ _ Hst).
Qed.

Lemma map_fresh s root F va x perm :
  free_pages s F -> as_wf (km_mem s) root F -> fresh (km_mem s) root F x ->
  va mod PGSIZE = 0 -> 0 <= va < TRAPFRAME -> 0 <= perm < 1024 -> Z.lor perm PTE_V <> PTE_V ->
  has (pte_of (km_mem s) root va) PTE_V = false ->
  exists r s' F', mappages root va PGSIZE x perm s = Ret r s' /\
    free_pages s' F' /\ as_wf (km_mem s') root F' /\
    (forall b, (forall p, tree_page (km_mem s) root p -> ~ in_page p b) ->
       (forall p, p ∈ F -> ~ in_page p b) -> ld8 (km_mem s') b = ld8 (km_mem s) b) /\
    (forall p, p ∈ F' \/ tree_page (km_mem s') root p <-> p ∈ F \/ tree_page (km_mem s) root p) /\
    (r = 0 /\ (forall va', 0 <= va' < MAXVA -> pte_of (km_mem s') root va' =
       if decide (va' / PGSIZE = va / PGSIZE) then mk_pte x perm else pte_of (km_mem s) root va') /\
       (length F <= 2 + length F')%nat \/
     r = -1 /\ (forall va', 0 <= va' < MAXVA -> pte_of (km_mem s') root va' = pte_of (km_mem s) root va') /\
       fresh (km_mem s') root F' x /\ (length F < 2)%nat).
Proof.
  intros Hf Hwf Hfr Hal Hva Hperm HpV HV. pose proof TRAPFRAME_lt as HT.
  pose proof (ram_page_56 x (fr_ram _ _ _ _ Hfr)) as Hx56.
  assert (x + PGSIZE <= 2 ^ 56) as Hx56'.
  { destruct (fr_ram _ _ _ _ Hfr) as [_ Hx]. unfold PHYSTOP, KERNBASE, PGSIZE in *. lia. }
  destruct (mappages_ok s root va PGSIZE x perm F)
    as (r & s' & used & F' & k & Hm & Hst & Hp & Hlu & Hr); try done.
  { apply Hwf. } { lia. } { unfold TRAPFRAME, TRAMPOLINE, PGSIZE in *. lia. } { lia. }
  { intros va' Hin. rewrite (pte_of_page _ _ va' va); [done|].
    unfold in_range, PGSIZE in *. Z.div_mod_to_equations. lia. }
  change (PGSIZE / PGSIZE) with 1 in *.
  exists r, s', F'. split; [done|]. split; [apply Hst|].
  assert (length F = length used + length F')%nat as HlF
    by (rewrite (ps_used _ _ _ _ _ _ Hst), length_app; done).
  destruct Hr as [[-> ->]|(-> & Hk & HF' & Hlen)].
  - assert (forall va', 0 <= va' < MAXVA -> pte_of (km_mem s') root va' =
       if decide (va' / PGSIZE = va / PGSIZE) then mk_pte x perm else pte_of (km_mem s) root va') as Hp'.
    { intros va' Hva'. rewrite Hp by done. unfold map_range, in_range, PGSIZE in *.
      repeat case_decide; try done; try (exfalso; Z.div_mod_to_equations; lia).
      f_equal. Z.div_mod_to_equations. lia. }
    split; [by eapply as_wf_map|]. split; [|split].
    + intros b Hb1 Hb2. apply (ps_frame _ _ _ _ _ _ Hst); [done|]. intros p Hpu. apply Hb2.
      rewrite (ps_used _ _ _ _ _ _ Hst), elem_of_app. by left.
    + intros p. by eapply owns_tree_step.
    + left. split; [done|]. split; [done|lia].
  - assert (k = 0) as -> by lia.
    assert (forall va', 0 <= va' < MAXVA -> pte_of (km_mem s') root va' = pte_of (km_mem s) root va') as Hp'
      by (intros va' Hva'; rewrite Hp by done; apply map_range_0).
    split; [by eapply as_wf_step|]. split; [|split].
    + intros b Hb1 Hb2. apply (ps_frame _ _ _ _ _ _ Hst); [done|]. intros p Hpu. apply Hb2.
      rewrite (ps_used _ _ _ _ _ _ Hst), elem_of_app. by left.
    + intros p. by eapply owns_tree_step.
    + right. split; [done|]. split; [done|]. split; [|lia]. destruct Hfr as [Hx HxF Hxt Hxd].
      rewrite (ps_used _ _ _ _ _ _ Hst), elem_of_app in HxF. split; try done.
      * tauto.
      * intros Ht. destruct (ps_tree _ _ _ _ _ _ Hst _ Ht); tauto.
      * intros va' Hva'. rewrite Hp' by lia. by apply Hxd.
Qed.

End grow.
