(* ===== verification/VmAlloc.v ===== *)
(** * uvmalloc

    Growing an address space: on success the new pages are mapped with the
    requested permissions and read as zero, on failure the address space is as
    it was; either way no page is lost and nothing else changes. *)

From S2P Require Import Prelude Memory KString Kalloc Vm VmSpec VmMap VmCopy VmUser VmGrow.

Section alloc.
Context `{I : KernelImage} `{Ok : !KernelImageOk I}.

(** The frames mapped in [s] hold the same bytes in [s']. *)
Definition data_kept (s s' : kmem) (root : Z) (P : Z -> Prop) : Prop :=
  forall va b, 0 <= va < TRAPFRAME -> has (pte_of (km_mem s) root va) PTE_V = true -> P va ->
    in_page (PTE2PA (pte_of (km_mem s) root va)) b -> ld8 (km_mem s') b = ld8 (km_mem s) b.

Lemma data_keep s s' root F :
  free_pages s F -> as_wf (km_mem s) root F ->
  (forall b, (forall p, tree_page (km_mem s) root p -> ~ in_page p b) ->
     (forall p, p ∈ F -> ~ in_page p b) -> ld8 (km_mem s') b = ld8 (km_mem s) b) ->
  data_kept s s' root (fun _ => True).
Proof.
  intros Hf Hwf H va b Hva HV _ Hb. destruct (as_data _ _ _ Hwf va Hva HV) as (Hr & HF & Ht).
  apply H.
  - intros p Hp. eapply page_apart; [done| |intros <-; done|done]. eapply tree_ram; [apply Hwf|done].
  - intros p Hp. eapply page_apart; [done|by eapply free_ram|intros <-; done|done].
Qed.

(** Allocate a page, fill it, map it: what the loop bodies of [uvmalloc] and
    [uvmcopy] do. *)
Lemma grow_page s root x F va perm (fill : memory -> memory) :
  free_pages s (x :: F) -> as_wf (km_mem s) root (x :: F) ->
  (forall m b, ~ in_page x b -> ld8 (fill m) b = ld8 m b) ->
  va mod PGSIZE = 0 -> 0 <= va < TRAPFRAME -> 0 <= perm < 1024 -> Z.lor perm PTE_V <> PTE_V ->
  has (pte_of (km_mem s) root va) PTE_V = false ->
  exists s1 r s3, kalloc s = Ret x s1 /\ 0 < x /\
    (forall b, ~ in_page x b -> ld8 (km_mem s1) b = ld8 (km_mem s) b) /\
    mappages root va PGSIZE x perm (Kmem (fill (km_mem s1)) (km_freelist s1)) = Ret r s3 /\
    (r = 0 /\ (exists F', as_step s s3 root (x :: F) F' /\ (length F <= 2 + length F')%nat) /\
       (forall va', 0 <= va' < MAXVA -> pte_of (km_mem s3) root va' =
         if decide (va' / PGSIZE = va / PGSIZE) then mk_pte x perm else pte_of (km_mem s) root va') /\
       (forall b, in_page x b -> ld8 (km_mem s3) b = ld8 (fill (km_mem s1)) b) /\
       data_kept s s3 root (fun _ => True) \/
     r = -1 /\ (length F < 2)%nat /\
       exists s4 F', kfree x s3 = Ret tt s4 /\ as_step s s4 root (x :: F) F' /\
       (forall va', 0 <= va' < MAXVA -> pte_of (km_mem s4) root va' = pte_of (km_mem s) root va') /\
       data_kept s s4 root (fun _ => True)).
Proof.
  intros Hf Hwf Hfill Hal Hva Hperm HpV HV. pose proof TRAPFRAME_lt as HT.
  destruct (alloc_fresh s root x F Hf Hwf) as (s1 & Hk & Hx0 & Hf1 & Hwf1 & Hfr1 & Hp1 & Ht1 & Hm1).
  destruct (fill_fresh s1 root F x (fill (km_mem s1)) Hf1 Hwf1 Hfr1 ltac:(intros; by apply Hfill))
    as (Hf2 & Hwf2 & Hfr2 & Hp2 & Ht2).
  set (s2 := Kmem (fill (km_mem s1)) (km_freelist s1)) in *.
  change (fill (km_mem s1)) with (km_mem s2) in Hwf2, Hfr2, Hp2, Ht2.
  destruct (map_fresh s2 root F va x perm Hf2 Hwf2 Hfr2 Hal Hva Hperm HpV)
    as (r & s3 & F' & Hm & Hf3 & Hwf3 & Hfrm & Hown & Hr); [by rewrite Hp2, Hp1|].
  exists s1, r, s3. repeat (split; [done|]).
  pose proof (fr_ram _ _ _ _ Hfr2) as Hxr.
  assert (forall b, (forall p, tree_page (km_mem s) root p -> ~ in_page p b) ->
     (forall p, p ∈ x :: F -> ~ in_page p b) -> ld8 (km_mem s3) b = ld8 (km_mem s) b) as Hfr.
  { intros b Hb1 Hb2. assert (~ in_page x b) by (apply Hb2; left).
    rewrite Hfrm; [cbn [s2 km_mem]; by rewrite Hfill, Hm1| |].
    - intros p Hp. apply Hb1. by apply Ht1, Ht2.
    - intros p Hp. apply Hb2. by right. }
  destruct Hr as [(-> & Hp3 & Hlen)|(-> & Hp3 & Hfr3 & Hlen)].
  - left. split; [done|].
    assert (forall va', 0 <= va' < MAXVA -> pte_of (km_mem s3) root va' =
      if decide (va' / PGSIZE = va / PGSIZE) then mk_pte x perm else pte_of (km_mem s) root va') as Hp3'.
    { intros va' Hva'. rewrite Hp3 by done. by rewrite Hp2, Hp1. }
    assert (PTE2PA (mk_pte x perm) = x) as Hpa.
    { apply mk_pte_PA; try done; [by apply ram_page_aligned|by apply ram_page_56]. }
    split; [exists F'; split; [|done]|split; [done|split]].
    + split; try done.
      * intros p. unfold owns. split.
        -- intros [Hp|[Hp|(va' & Hva' & HV' & <-)]].
           ++ destruct (proj1 (Hown p) (or_introl Hp)) as [?|?%Ht2%Ht1]; [|auto]. left. by right.
           ++ destruct (proj1 (Hown p) (or_intror Hp)) as [?|?%Ht2%Ht1]; [|auto]. left. by right.
           ++ rewrite Hp3' in HV' |- * by lia. case_decide; [rewrite Hpa; left; left|].
              right. right. by exists va'.
        -- intros [[->|Hp]%elem_of_cons|[Hp|(va' & Hva' & HV' & <-)]].
           ++ right. right. exists va. rewrite Hp3', decide_True by (done || lia).
              split; [done|]. split; [apply mk_pte_V|done].
           ++ destruct (proj2 (Hown p) (or_introl Hp)); auto.
           ++ destruct (proj2 (Hown p)); [right; by apply Ht2, Ht1|auto|auto].
           ++ right. right. exists va'. split; [done|]. rewrite Hp3' by lia.
              rewrite decide_False; [done|]. intros He. rewrite (pte_of_page _ _ _ _ He) in HV'. congruence.
      * intros b Hb. apply Hfr; intros p Hp; apply Hb; [right; by left|by left].
    + intros b Hb. rewrite Hfrm; [done| |].
      * intros p Hp. apply (page_apart x p b); try done.
        -- eapply tree_ram; [apply Hwf2|done].
        -- intros ->. by apply (fr_tree _ _ _ _ Hfr2).
      * intros p Hp. apply (page_apart x p b); try done.
        -- by eapply (free_ram s2).
        -- intros ->. by apply (fr_free _ _ _ _ Hfr2).
    + by apply (data_keep s s3 root (x :: F)).
  - right. split; [done|]. split; [done|].
    destruct (kfree_ok s3 x F' Hf3 Hxr (fr_free _ _ _ _ Hfr3)) as [Hk4 Hf4].
    set (s4 := Kmem (st64 (memset (km_mem s3) x 1 PGSIZE) x (km_freelist s3)) x) in *.
    assert (forall b, ~ in_page x b -> ld8 (km_mem s4) b = ld8 (km_mem s3) b) as Hm4.
    { intros b Hb. cbn [s4 km_mem]. unfold in_page, PGSIZE in *.
      rewrite ld8_st64_other by lia. by rewrite ld8_memset_out by lia. }
    clearbody s4.
    destruct (fill_fresh s3 root F' x (km_mem s4) Hf3 Hwf3 Hfr3 Hm4) as (_ & Hwf4 & Hfr4 & Hp4 & Ht4).
    exists s4, (x :: F'). split; [done|].
    assert (forall va', 0 <= va' < MAXVA -> pte_of (km_mem s4) root va' = pte_of (km_mem s) root va') as Hp4'
      by (intros va' Hva'; by rewrite Hp4, Hp3, Hp2, Hp1).
    assert (forall b, (forall p, tree_page (km_mem s) root p -> ~ in_page p b) ->
      (forall p, p ∈ x :: F -> ~ in_page p b) -> ld8 (km_mem s4) b = ld8 (km_mem s) b) as Hfr'.
    { intros b Hb1 Hb2. rewrite Hm4; [by apply Hfr|]. apply Hb2. left. }
    split; [|split; [done|by apply (data_keep s s4 root (x :: F))]].
    split; try done.
    + destruct Hwf4 as [Hw1 Hw2 Hw3 Hw4 Hw5]. split; try done.
      * apply pt_wf_cons; [done|apply Hfr4].
      * intros va' Hva' HV'. destruct (Hw4 va' Hva' HV') as (? & ? & ?).
        split; [done|]. split; [|done]. intros [He|?]%elem_of_cons; [|done].
        by apply (fr_data _ _ _ _ Hfr4 va').
    + intros p. assert (tree_page (km_mem s4) root p \/ p ∈ F' <-> tree_page (km_mem s) root p \/ p ∈ F) as Hown'.
      { rewrite Ht4, <- Ht1, <- Ht2. specialize (Hown p). tauto. }
      assert ((exists va, 0 <= va < TRAPFRAME /\ has (pte_of (km_mem s4) root va) PTE_V = true /\
                 PTE2PA (pte_of (km_mem s4) root va) = p) <->
              (exists va, 0 <= va < TRAPFRAME /\ has (pte_of (km_mem s) root va) PTE_V = true /\
                 PTE2PA (pte_of (km_mem s) root va) = p)) as Hd.
      { split; intros (va' & Hva' & Hrest); exists va'; rewrite Hp4' in * by lia; done. }
      unfold owns. rewrite !elem_of_cons, Hd. tauto.
    + intros b Hb. apply Hfr'; intros p Hp; apply Hb; [right; by left|by left].
Qed.

(** ** uvmalloc *)

Lemma uvmalloc_loop_S fuel pagetable a oldsz newsz xperm :
  uvmalloc_loop (S fuel) pagetable a oldsz newsz xperm =
      (if a <? newsz then
        mem <- kalloc ;;
        if mem =? 0 then uvmdealloc pagetable a oldsz ;;; kret 0
        else
          kmemset mem 0 PGSIZE ;;;
          r <- mappages pagetable a PGSIZE mem (Z.lor (Z.lor PTE_R PTE_U) xperm) ;;
          if negb (r =? 0) then
            kfree mem ;;; uvmdealloc pagetable a oldsz ;;; kret 0
          else uvmalloc_loop fuel pagetable (uint64 (a + PGSIZE)) oldsz newsz xperm
      else kret newsz).
Proof. done. Qed.

(** Giving back the pages allocated so far. *)
Lemma rollback s root F oldsz k :
  free_pages s F -> as_wf (km_mem s) root F ->
  oldsz mod PGSIZE = 0 -> 0 <= oldsz -> 0 <= k -> oldsz + k * PGSIZE <= TRAPFRAME ->
  (forall va', in_range oldsz k va' -> has (pte_of (km_mem s) root va') PTE_V = true) ->
  exists r s' F', uvmdealloc root (oldsz + k * PGSIZE) oldsz s = Ret r s' /\
    as_step s s' root F F' /\
    (forall va', 0 <= va' < MAXVA -> pte_of (km_mem s') root va' =
       if decide (in_range oldsz k va') then 0 else pte_of (km_mem s) root va') /\
    data_kept s s' root (fun va => ~ in_range oldsz k va).
Proof.
  intros Hf Hwf Hal H0 Hk Hmax HV. pose proof TRAPFRAME_lt as HT.
  destruct (decide (k = 0)) as [->|Hk0].
  { exists (oldsz + 0 * PGSIZE), s, F. unfold uvmdealloc. rewrite Z.mul_0_l, Z.add_0_r, Z.leb_refl.
    split; [done|]. split; [by apply as_step_refl|]. split; [|by intros ?].
    intros va' Hva'. rewrite decide_False; [done|]. unfold in_range. lia. }
  assert (forall j, 0 <= j <= k -> PGROUNDUP (oldsz + j * PGSIZE) = oldsz + j * PGSIZE) as Hup.
  { intros j Hj. apply PGROUNDUP_aligned.
    - unfold PGSIZE. lia.
    - by rewrite Z.mod_add by done.
    - unfold TRAPFRAME, TRAMPOLINE, PGSIZE in *. rewrite MAXVA_eq in *. lia. }
  pose proof (Hup 0 ltac:(lia)) as Hup0. rewrite Z.mul_0_l, Z.add_0_r in Hup0.
  pose proof (Hup k ltac:(lia)) as Hupk.
  destruct (uvmdealloc_ok s root F (oldsz + k * PGSIZE) oldsz) as (s' & Hs' & Hu); try done.
  { unfold PGSIZE. lia. } { by rewrite Hupk. }
  { rewrite Hup0, Hupk. intros va' Hr. by apply HV. }
  rewrite Hup0, Hupk in Hu. replace (oldsz + k * PGSIZE - oldsz) with (k * PGSIZE) in Hu by lia.
  rewrite Z.div_mul in Hu by done.
  exists oldsz, s', (rev (mapped_pages (Z.to_nat k) (km_mem s) root oldsz) ++ F).
  split; [done|]. split; [by apply unmapped_as_step with (n := k)|]. split; [apply Hu|].
  intros va b Hva HVa Hr Hb. by eapply unmapped_data.
Qed.

(** [n] pages at [a] are new, readable by the user and hold zeros; the rest of
    the address space is unchanged. *)
Record allocated (s s' : kmem) (root a n perm : Z) : Prop := {
  al_other : forall va, 0 <= va < MAXVA -> ~ in_range a n va ->
    pte_of (km_mem s') root va = pte_of (km_mem s) root va;
  al_perm : forall va, in_range a n va -> has (pte_of (km_mem s') root va) PTE_V = true /\
    PTE_FLAGS (pte_of (km_mem s') root va) = Z.lor perm PTE_V;
  al_zero : forall va b, in_range a n va -> in_page (PTE2PA (pte_of (km_mem s') root va)) b ->
    ld8 (km_mem s') b = 0;
  al_data : data_kept s s' root (fun _ => True)
}.

Lemma uvm_perm xperm : 0 <= xperm < 1024 ->
  0 <= Z.lor (Z.lor PTE_R PTE_U) xperm < 1024 /\
  Z.lor (Z.lor (Z.lor PTE_R PTE_U) xperm) PTE_V <> PTE_V.
Proof.
  intros Hx. split; [by apply lor_flags|].
  intros H. apply (f_equal (fun z => Z.testbit z 1)) in H. revert H.
  rewrite !Z.lor_spec. by destruct (Z.testbit xperm 1).
Qed.

Lemma allocated_step s s1 s' root a n perm x :
  a mod PGSIZE = 0 -> 0 <= a -> a + n * PGSIZE <= TRAPFRAME -> 1 <= n -> ram_page x -> 0 <= perm < 1024 ->
  (forall va', in_range a n va' -> pte_of (km_mem s) root va' = 0) ->
  (forall va', 0 <= va' < MAXVA -> pte_of (km_mem s1) root va' =
     if decide (va' / PGSIZE = a / PGSIZE) then mk_pte x perm else pte_of (km_mem s) root va') ->
  (forall b, in_page x b -> ld8 (km_mem s1) b = 0) ->
  data_kept s s1 root (fun _ => True) ->
  allocated s1 s' root (a + PGSIZE) (n - 1) perm ->
  allocated s s' root a n perm.
Proof.
  intros Hal H0 Hmax Hn Hx Hperm Hz Hp Hb Hd [A1 A2 A3 A4]. pose proof TRAPFRAME_lt as HT.
  pose proof (ram_page_56 x Hx) as Hx56.
  assert (PTE2PA (mk_pte x perm) = x) as Hpa by (apply mk_pte_PA; try done; by apply ram_page_aligned).
  assert (forall va, in_range a n va -> in_range (a + PGSIZE) (n - 1) va \/
    ~ in_range (a + PGSIZE) (n - 1) va /\ va / PGSIZE = a / PGSIZE /\ 0 <= va < TRAPFRAME) as Hcase.
  { intros va Hr. unfold in_range, PGSIZE in *. Z.div_mod_to_equations. lia. }
  assert (forall va, in_range a n va -> va / PGSIZE = a / PGSIZE -> 0 <= va < TRAPFRAME ->
            pte_of (km_mem s1) root va = mk_pte x perm) as Hnew
    by (intros va Hr He Hva; rewrite Hp by lia; by rewrite decide_True).
  split.
  - intros va Hva Hr. rewrite A1, Hp by (done || (unfold in_range, PGSIZE in *; lia)).
    rewrite decide_False; [done|]. unfold in_range, PGSIZE in *. Z.div_mod_to_equations. lia.
  - intros va Hr. destruct (Hcase va Hr) as [?|(Hn' & He & Hva)]; [by apply A2|].
    rewrite A1, Hnew by (done || lia). split; [apply mk_pte_V|by apply PTE_FLAGS_mk].
  - intros va b Hr. destruct (Hcase va Hr) as [?|(Hn' & He & Hva)]; [by apply A3|].
    rewrite A1, Hnew, Hpa by (done || lia). intros Hin.
    rewrite (A4 va b); [by apply Hb|lia| |done|].
    + rewrite Hnew by done. apply mk_pte_V.
    + by rewrite Hnew, Hpa by done.
  - intros va b Hva HV _ Hin.
    assert (pte_of (km_mem s1) root va = pte_of (km_mem s) root va) as He.
    { rewrite Hp by lia. rewrite decide_False; [done|]. intros He.
      rewrite (pte_of_page _ _ _ _ He), Hz, has_0 in HV; [done|]. unfold in_range, PGSIZE. lia. }
    rewrite (A4 va b), (Hd va b); rewrite ?He; done.
Qed.

Lemma uvmalloc_loop_ok n : forall fuel s root F k oldsz newsz xperm,
  (n < fuel)%nat -> free_pages s F -> as_wf (km_mem s) root F ->
  oldsz mod PGSIZE = 0 -> 0 <= oldsz -> 0 <= k -> 0 <= xperm < 1024 ->
  newsz <= oldsz + k * PGSIZE + Z.of_nat n * PGSIZE ->
  (0 < Z.of_nat n -> oldsz + k * PGSIZE + (Z.of_nat n - 1) * PGSIZE < newsz) ->
  oldsz + k * PGSIZE + Z.of_nat n * PGSIZE <= TRAPFRAME ->
  (forall va', in_range oldsz k va' -> has (pte_of (km_mem s) root va') PTE_V = true) ->
  (forall va', in_range (oldsz + k * PGSIZE) (Z.of_nat n) va' -> pte_of (km_mem s) root va' = 0) ->
  exists r s' F',
    uvmalloc_loop fuel root (oldsz + k * PGSIZE) oldsz newsz xperm s = Ret r s' /\
    as_step s s' root F F' /\
    (r = newsz /\ allocated s s' root (oldsz + k * PGSIZE) (Z.of_nat n) (Z.lor (Z.lor PTE_R PTE_U) xperm) \/
     r = 0 /\ (length F < 3 * n)%nat /\
       (forall va', 0 <= va' < MAXVA -> pte_of (km_mem s') root va' =
          if decide (in_range oldsz k va') then 0 else pte_of (km_mem s) root va') /\
       data_kept s s' root (fun va => ~ in_range oldsz k va)).
Proof.
  pose proof TRAPFRAME_lt as HT.
  induction n as [|n IH]; intros fuel s root F k oldsz newsz xperm Hfuel Hf Hwf Hal H0 Hk Hxp Hn1 Hn2 Hmax HV Hz;
    (destruct fuel as [|fuel]; [lia|]); rewrite uvmalloc_loop_S; set (a := oldsz + k * PGSIZE) in *.
  { replace (a <? newsz) with false by (symmetry; apply Z.ltb_ge; lia).
    exists newsz, s, F. split; [done|]. split; [by apply as_step_refl|]. left. split; [done|].
    split; try done; intros; unfold in_range in *; lia. }
  specialize (Hn2 ltac:(lia)).
  assert (a mod PGSIZE = 0) as Hala by (unfold a; by rewrite Z.mod_add by done).
  assert (0 <= a < TRAPFRAME) as Ha by (unfold a, PGSIZE in *; lia).
  replace (a <? newsz) with true by (symmetry; apply Z.ltb_lt; unfold PGSIZE in *; lia).
  destruct (uvm_perm xperm Hxp) as [Hperm HpV]. set (perm := Z.lor (Z.lor PTE_R PTE_U) xperm) in *.
  assert (oldsz + k * PGSIZE <= TRAPFRAME) as Hmaxk by (unfold a in Ha; lia).
  destruct F as [|x F].
  { rewrite (kbind_ret _ _ _ _ _ (kalloc_none s Hf)). cbn [Z.eqb].
    destruct (rollback s root [] oldsz k Hf Hwf Hal H0 Hk Hmaxk HV) as (r & s' & F' & Hr & Hst & Hp & Hd).
    exists 0, s', F'. rewrite (kbind_ret _ _ _ _ _ Hr). split; [done|]. split; [done|]. right.
    split; [done|]. split; [simpl; lia|done]. }
  assert (pte_of (km_mem s) root a = 0) as Hza by (apply Hz; unfold in_range, PGSIZE; lia).
  destruct (grow_page s root x F a perm (fun m => memset m x 0 PGSIZE) Hf Hwf)
    as (s1 & r & s3 & Hka & Hx0 & Hm1 & Hmap & Hr); try done.
  { intros m b Hb. apply ld8_memset_out. unfold in_page in Hb. lia. }
  { by rewrite Hza, has_0. }
  rewrite (kbind_ret _ _ _ _ _ Hka). replace (x =? 0) with false by (symmetry; apply Z.eqb_neq; lia).
  rewrite (kbind_ret (kmemset x 0 PGSIZE) _ s1 tt _ eq_refl), (kbind_ret _ _ _ _ _ Hmap).
  destruct Hr as [(-> & (F' & Hst & Hlen) & Hp3 & Hx3 & Hd3)|(-> & Hlen & s4 & F' & Hkf & Hst & Hp4 & Hd4)]; cbn [Z.eqb negb].
  - rewrite uint64_small by (unfold TRAPFRAME, TRAMPOLINE, PGSIZE in *; rewrite MAXVA_eq in *; lia).
    replace (a + PGSIZE) with (oldsz + (k + 1) * PGSIZE) by (unfold a; lia).
    destruct (IH fuel s3 root F' (k + 1) oldsz newsz xperm) as (r & s' & F'' & Hl & Hst' & Hr);
      try done; try lia; try apply Hst.
    { intros va' Hr. rewrite Hp3 by (unfold in_range, a, PGSIZE in *; lia).
      case_decide; [apply mk_pte_V|]. apply HV. unfold in_range, a, PGSIZE in *. Z.div_mod_to_equations. lia. }
    { intros va' Hr. rewrite Hp3 by (unfold in_range, a, PGSIZE in *; lia).
      rewrite decide_False by (unfold in_range, a, PGSIZE in *; Z.div_mod_to_equations; lia).
      apply Hz. unfold in_range, a, PGSIZE in *. lia. }
    exists r, s', F''. split; [done|]. split; [by eapply as_step_trans|].
    destruct Hr as [[-> Hal']|(-> & Hlen' & Hp' & Hd')].
    + left. split; [done|]. apply (allocated_step s s3 s' root a (Z.of_nat (S n)) perm x); try done; try lia.
      * by destruct (free_pages_head _ _ _ Hf) as (_ & ? & _).
      * intros b Hb. rewrite Hx3 by done. apply ld8_memset_in. exact Hb.
      * replace (Z.of_nat (S n) - 1) with (Z.of_nat n) by lia.
        replace (a + PGSIZE) with (oldsz + (k + 1) * PGSIZE) by (unfold a; lia). done.
    + right. split; [done|]. split; [simpl; lia|]. split.
      * intros va' Hva'. rewrite Hp', Hp3 by done. unfold in_range, a in *.
        repeat case_decide; try done; try (exfalso; unfold PGSIZE in *; Z.div_mod_to_equations; lia).
        symmetry. rewrite (pte_of_page _ _ va' (oldsz + k * PGSIZE)); [done|].
        unfold PGSIZE in *. Z.div_mod_to_equations. lia.
      * intros va b Hva HVa Hr Hb.
        assert (va / PGSIZE <> a / PGSIZE) as Hne.
        { intros He. rewrite (pte_of_page _ _ _ _ He), Hza, has_0 in HVa. done. }
        assert (pte_of (km_mem s3) root va = pte_of (km_mem s) root va) as He
          by (rewrite Hp3 by lia; by rewrite decide_False).
        rewrite (Hd' va b), (Hd3 va b); rewrite ?He; try done.
        unfold in_range, a, PGSIZE in *. Z.div_mod_to_equations. lia.
  - rewrite (kbind_ret _ _ _ _ _ Hkf).
    destruct (rollback s4 root F' oldsz k) as (r & s' & F'' & Hr & Hst' & Hp & Hd); try done; try apply Hst.
    { intros va' Hr. rewrite Hp4 by (unfold in_range, PGSIZE in *; lia). by apply HV. }
    exists 0, s', F''. rewrite (kbind_ret _ _ _ _ _ Hr). split; [done|].
    split; [by eapply as_step_trans|]. right. split; [done|]. split; [simpl; lia|]. split.
    + intros va' Hva'. rewrite Hp by done. case_decide; [done|]. by apply Hp4.
    + intros va b Hva HVa Hn Hb. rewrite (Hd va b), (Hd4 va b); rewrite ?Hp4 by lia; done.
Qed.

(** The pages between two sizes. *)
Definition new_pages (oldsz newsz : Z) : Z := (PGROUNDUP newsz - PGROUNDUP oldsz) / PGSIZE.

Lemma uvmalloc_ok s root F oldsz newsz xperm :
  free_pages s F -> as_wf (km_mem s) root F ->
  0 <= oldsz <= newsz -> newsz <= TRAPFRAME -> 0 <= xperm < 1024 ->
  (forall va, PGROUNDUP oldsz <= va < PGROUNDUP newsz -> pte_of (km_mem s) root va = 0) ->
  exists r s' F',
    uvmalloc root oldsz newsz xperm s = Ret r s' /\ as_step s s' root F F' /\
    (r = newsz /\ allocated s s' root (PGROUNDUP oldsz) (new_pages oldsz newsz) (Z.lor (Z.lor PTE_R PTE_U) xperm) \/
     r = 0 /\ Z.of_nat (length F) < 3 * new_pages oldsz newsz /\
       (forall va, 0 <= va < MAXVA -> pte_of (km_mem s') root va = pte_of (km_mem s) root va) /\
       data_kept s s' root (fun _ => True)).
Proof.
  intros Hf Hwf Hsz Hmax Hxp Hz. pose proof TRAPFRAME_lt as HT. pose proof TRAPFRAME_aligned as HTa.
  assert (newsz <= 2 ^ 64 - PGSIZE) as Hb.
  { unfold TRAPFRAME, TRAMPOLINE, PGSIZE in *. rewrite MAXVA_eq in *. lia. }
  destruct (PGROUNDUP_spec oldsz ltac:(lia)) as [Halo Hro].
  destruct (PGROUNDUP_spec newsz ltac:(lia)) as [Haln Hrn].
  assert (PGROUNDUP oldsz <= PGROUNDUP newsz) as Hmono.
  { rewrite (PGROUNDUP_eq newsz), (PGROUNDUP_eq oldsz) by lia. unfold PGSIZE in *.
    Z.div_mod_to_equations. lia. }
  set (n := new_pages oldsz newsz).
  assert (0 <= n) as Hn0 by (unfold n, new_pages, PGSIZE in *; Z.div_mod_to_equations; lia).
  assert (PGROUNDUP oldsz + n * PGSIZE = PGROUNDUP newsz) as Hn.
  { unfold n, new_pages, PGSIZE in *. Z.div_mod_to_equations. lia. }
  unfold uvmalloc. replace (newsz <? oldsz) with false by (symmetry; apply Z.ltb_ge; lia).
  destruct (uvmalloc_loop_ok (Z.to_nat n) (S (S (Z.to_nat ((newsz - PGROUNDUP oldsz) / PGSIZE))))
    s root F 0 (PGROUNDUP oldsz) newsz xperm) as (r & s' & F' & Hl & Hst & Hr);
    rewrite ?Z2Nat.id, ?Z.mul_0_l, ?Z.add_0_r in * by done; try done; try lia.
  - unfold PGSIZE in *. Z.div_mod_to_equations. lia.
  - rewrite Hn. unfold PGSIZE in *. Z.div_mod_to_equations. lia.
  - intros va'. unfold in_range. lia.
  - intros va' Hr. apply Hz. unfold in_range in Hr. lia.
  - exists r, s', F'. split; [done|]. split; [done|].
    destruct Hr as [Hr|(-> & Hlen & Hp & Hd)]; [by left|]. right. split; [done|]. split; [lia|]. split.
    + intros va Hva. rewrite Hp by done. rewrite decide_False; [done|]. unfold in_range. lia.
    + intros va b Hva HV _ Hb1. apply (Hd va b); try done. unfold in_range. lia.
Qed.

End alloc.
