(* ===== verification/VmFork.v ===== *)
(** * uvmcopy

    Copying an address space into another one, as [fork] does: the child gets
    a page of its own for every page of the parent, with the same flags and
    the same bytes; the parent is untouched; a failed copy leaves the child
    as it was. *)

From S2P Require Import Prelude Memory KString Kalloc Vm VmSpec VmMap VmCopy VmUser VmGrow VmAlloc.

Section fork.
Context `{I : KernelImage} `{Ok : !KernelImageOk I}.

Definition disjoint_as (m : memory) (old new : Z) : Prop :=
  forall p, owns m old p -> ~ owns m new p.

Lemma as_wf_free m root F F' :
  as_wf m root F -> (forall p, p ∈ F' -> ~ owns m root p) -> as_wf m root F'.
Proof.
  intros [[Hr Hi Hx Hh] Hu Hl Hd Hj] H. split; try done.
  - split; [|done|done|done]. intros q p Hq Hn. destruct (Hr q p Hq Hn). split; [done|].
    intros Hp. apply (H p Hp). left. by exists q.
  - intros va Hva HV. destruct (Hd va Hva HV) as (? & _ & ?). split; [done|]. split; [|done].
    intros Hp. apply (H _ Hp). right. by exists va.
Qed.

(** What happens to one address space leaves the others alone. *)
Lemma other_kept s s' new old F F' :
  free_pages s F -> as_wf (km_mem s) new F -> as_step s s' new F F' ->
  as_wf (km_mem s) old F -> disjoint_as (km_mem s) old new ->
  (forall va, pte_of (km_mem s') old va = pte_of (km_mem s) old va) /\
  as_wf (km_mem s') old F' /\ disjoint_as (km_mem s') old new /\
  (forall p b, owns (km_mem s) old p -> in_page p b -> ld8 (km_mem s') b = ld8 (km_mem s) b).
Proof.
  intros Hf Hwn Hst Hwo Hdj.
  assert (forall p b, owns (km_mem s) old p -> in_page p b -> ld8 (km_mem s') b = ld8 (km_mem s) b) as Hown.
  { intros p b Hp Hb. apply (st_frame _ _ _ _ _ Hst). intros p' Hp'.
    destruct (owns_ram _ _ _ _ Hwo Hp) as [Hpr HpF].
    destruct Hp' as [Hp'|Hp'].
    - apply (page_apart p p' b); try done; [by eapply free_ram|intros ->; done].
    - destruct (owns_ram _ _ _ _ Hwn Hp') as [Hpr' _].
      apply (page_apart p p' b); try done. intros ->. by eapply Hdj. }
  assert (forall p b, tree_page (km_mem s) old p -> in_page p b -> ld8 (km_mem s') b = ld8 (km_mem s) b) as Htree
    by (intros p b Hp; apply Hown; by left).
  assert (forall va, pte_of (km_mem s') old va = pte_of (km_mem s) old va) as Hpte
    by (intros; eapply pte_of_frame; [apply Hwo|done]).
  assert (forall p, owns (km_mem s') old p <-> owns (km_mem s) old p) as Ho.
  { intros p. destruct (pt_wf_frame _ _ _ _ (as_tree _ _ _ Hwo) Htree) as [_ Ht]. unfold owns.
    rewrite Ht. by setoid_rewrite Hpte. }
  split; [done|]. split; [|split; [|done]].
  - apply as_wf_free with F; [by eapply as_wf_frame|]. intros p Hp Hp'. apply Ho in Hp'.
    destruct (proj1 (st_own _ _ _ _ _ Hst p) (or_introl Hp)) as [HpF|Hpn].
    + by apply (owns_ram _ _ _ _ Hwo Hp').
    + by eapply Hdj.
  - intros p Hp%Ho Hp'.
    destruct (proj1 (st_own _ _ _ _ _ Hst p) (or_intror Hp')) as [HpF|Hpn].
    + by apply (owns_ram _ _ _ _ Hwo Hp).
    + by eapply Hdj.
Qed.

(** [n] pages at [a] of [new] are copies of those of [old]. *)
Record copied (s s' : kmem) (old new a n : Z) : Prop := {
  cp_other : forall va, 0 <= va < MAXVA -> ~ in_range a n va ->
    pte_of (km_mem s') new va = pte_of (km_mem s) new va;
  cp_flags : forall va, in_range a n va -> has (pte_of (km_mem s') new va) PTE_V = true /\
    PTE_FLAGS (pte_of (km_mem s') new va) = PTE_FLAGS (pte_of (km_mem s) old va);
  cp_bytes : forall va j, in_range a n va -> 0 <= j < PGSIZE ->
    ld8 (km_mem s') (PTE2PA (pte_of (km_mem s') new va) + j) =
    ld8 (km_mem s) (PTE2PA (pte_of (km_mem s) old va) + j);
  cp_data : data_kept s s' new (fun _ => True)
}.

Lemma uvmcopy_loop_S fuel old new i sz :
  uvmcopy_loop (S fuel) old new i sz =
      (if i <? sz then
        pte <- walk old i false ;;
        if pte =? 0 then panic "uvmcopy: pte should exist"
        else
          v <- kld64 pte ;;
          if negb (has v PTE_V) then panic "uvmcopy: page not present"
          else
            let pa := PTE2PA v in
            let flags := PTE_FLAGS v in
            mem <- kalloc ;;
            if mem =? 0 then uvmunmap new 0 (i / PGSIZE) true ;;; kret (-1)
            else
              kmemmove mem pa PGSIZE ;;;
              r <- mappages new i PGSIZE mem flags ;;
              if negb (r =? 0) then
                kfree mem ;;; uvmunmap new 0 (i / PGSIZE) true ;;; kret (-1)
              else uvmcopy_loop fuel old new (uint64 (i + PGSIZE)) sz
      else kret 0).
Proof. done. Qed.

Lemma uvmcopy_undo s root F k :
  free_pages s F -> as_wf (km_mem s) root F -> 0 <= k -> k * PGSIZE <= TRAPFRAME ->
  (forall va', in_range 0 k va' -> has (pte_of (km_mem s) root va') PTE_V = true) ->
  exists s' F', uvmunmap root 0 (k * PGSIZE / PGSIZE) true s = Ret tt s' /\
    as_step s s' root F F' /\
    (forall va', 0 <= va' < MAXVA -> pte_of (km_mem s') root va' =
       if decide (in_range 0 k va') then 0 else pte_of (km_mem s) root va') /\
    data_kept s s' root (fun va => ~ in_range 0 k va).
Proof.
  intros Hf Hwf Hk Hmax HV. rewrite Z.div_mul by done.
  destruct (uvmunmap_ok s root F 0 k) as (s' & Hs' & Hu); try done.
  exists s', (rev (mapped_pages (Z.to_nat k) (km_mem s) root 0) ++ F).
  split; [done|]. split; [by apply unmapped_as_step with (n := k)|]. split; [apply Hu|].
  intros va b Hva HVa Hr Hb. by eapply unmapped_data.
Qed.

Lemma PTE_FLAGS_range v : 0 <= PTE_FLAGS v < 1024.
Proof.
  unfold PTE_FLAGS. change 0x3FF with (Z.ones 10). rewrite Z.land_ones by lia.
  apply Z.mod_pos_bound. lia.
Qed.

Lemma PTE_FLAGS_V v : has v PTE_V = true -> Z.lor (PTE_FLAGS v) PTE_V = PTE_FLAGS v.
Proof.
  intros H. apply Z.bits_inj. intros i. rewrite Z.lor_spec. unfold PTE_FLAGS, PTE_V.
  rewrite Z.land_spec. destruct (decide (i = 0)) as [->|Hi].
  - unfold has, PTE_V in H. assert (Z.testbit v 0 = true) as ->; [|done].
    destruct (Z.testbit v 0) eqn:E; [done|]. exfalso. revert H.
    assert (Z.land v 1 = 0) as ->; [|done]. change 1 with (Z.ones 1).
    rewrite Z.land_ones by lia. change (2 ^ 1) with 2. rewrite <- Z.bit0_mod, E. done.
  - destruct i as [|p|p]; [done| |done]. change (Z.testbit 1 (Z.pos p)) with false. by rewrite orb_false_r.
Qed.

Lemma copied_step s s1 s' old new a n x :
  a mod PGSIZE = 0 -> 0 <= a -> a + n * PGSIZE <= TRAPFRAME -> 1 <= n -> ram_page x ->
  (forall va', in_range a n va' -> has (pte_of (km_mem s) old va') PTE_V = true) ->
  (forall va', in_range a n va' -> pte_of (km_mem s) new va' = 0) ->
  (forall va', 0 <= va' < MAXVA -> pte_of (km_mem s1) new va' =
     if decide (va' / PGSIZE = a / PGSIZE) then mk_pte x (PTE_FLAGS (pte_of (km_mem s) old a))
     else pte_of (km_mem s) new va') ->
  (forall j, 0 <= j < PGSIZE -> ld8 (km_mem s1) (x + j) = ld8 (km_mem s) (PTE2PA (pte_of (km_mem s) old a) + j)) ->
  data_kept s s1 new (fun _ => True) ->
  (forall va, pte_of (km_mem s1) old va = pte_of (km_mem s) old va) ->
  (forall p b, owns (km_mem s) old p -> in_page p b -> ld8 (km_mem s1) b = ld8 (km_mem s) b) ->
  copied s1 s' old new (a + PGSIZE) (n - 1) ->
  copied s s' old new a n.
Proof.
  intros Hal H0 Hmax Hn Hx HV Hz Hp Hb Hd Hpo Hown [C1 C2 C3 C4]. pose proof TRAPFRAME_lt as HT.
  set (perm := PTE_FLAGS (pte_of (km_mem s) old a)) in *.
  pose proof (ram_page_56 x Hx) as Hx56. assert (0 <= perm < 1024) as Hperm by apply PTE_FLAGS_range.
  assert (PTE2PA (mk_pte x perm) = x) as Hpa by (apply mk_pte_PA; try done; by apply ram_page_aligned).
  assert (forall va, in_range a n va -> in_range (a + PGSIZE) (n - 1) va \/
    ~ in_range (a + PGSIZE) (n - 1) va /\ va / PGSIZE = a / PGSIZE /\ 0 <= va < TRAPFRAME) as Hcase.
  { intros va Hr. unfold in_range, PGSIZE in *. Z.div_mod_to_equations. lia. }
  assert (forall va, in_range a n va -> va / PGSIZE = a / PGSIZE -> 0 <= va < TRAPFRAME ->
            pte_of (km_mem s1) new va = mk_pte x perm) as Hnew
    by (intros va Hr He Hva; rewrite Hp by lia; by rewrite decide_True).
  assert (has (pte_of (km_mem s) old a) PTE_V = true) as HVa by (apply HV; unfold in_range, PGSIZE; lia).
  split.
  - intros va Hva Hr. rewrite C1, Hp by (done || (unfold in_range, PGSIZE in *; lia)).
    rewrite decide_False; [done|]. unfold in_range, PGSIZE in *. Z.div_mod_to_equations. lia.
  - intros va Hr. destruct (Hcase va Hr) as [?|(Hn' & He & Hva)].
    { rewrite <- Hpo. by apply C2. }
    rewrite C1, Hnew by (done || lia). split; [apply mk_pte_V|].
    rewrite PTE_FLAGS_mk, (pte_of_page _ _ _ _ He) by done. by apply PTE_FLAGS_V.
  - intros va j Hr Hj. destruct (Hcase va Hr) as [?|(Hn' & He & Hva)].
    { rewrite C3, Hpo by done. apply (Hown (PTE2PA (pte_of (km_mem s) old va))).
      - right. exists va. split; [unfold in_range, PGSIZE in *; lia|]. split; [by apply HV|done].
      - unfold in_page. lia. }
    rewrite C1, Hnew, Hpa by (done || lia). rewrite (pte_of_page _ _ _ _ He).
    rewrite (C4 va (x + j)); [by apply Hb|lia| |done|].
    + rewrite Hnew by done. apply mk_pte_V.
    + rewrite Hnew, Hpa by done. unfold in_page. lia.
  - intros va b Hva HV' _ Hin.
    assert (pte_of (km_mem s1) new va = pte_of (km_mem s) new va) as He.
    { rewrite Hp by lia. rewrite decide_False; [done|]. intros He.
      rewrite (pte_of_page _ _ _ _ He), Hz, has_0 in HV'; [done|]. unfold in_range, PGSIZE. lia. }
    rewrite (C4 va b), (Hd va b); rewrite ?He; done.
Qed.

Lemma walk_present s root F va :
  as_wf (km_mem s) root F -> 0 <= va < TRAPFRAME -> has (pte_of (km_mem s) root va) PTE_V = true ->
  exists a, walk root va false s = Ret a s /\ 0 < a /\ ld64 (km_mem s) a = pte_of (km_mem s) root va.
Proof.
  intros Hwf Hva HV. pose proof TRAPFRAME_lt as HT.
  destruct (leaf_slot (km_mem s) root va) as [a|] eqn:Hs.
  2:{ unfold pte_of in HV. rewrite Hs, has_0 in HV. done. }
  exists a. split; [by rewrite walk_noalloc, Hs by lia|].
  split; [eapply leaf_slot_pos; [apply Hwf|done]|]. unfold pte_of. by rewrite Hs.
Qed.

Lemma uvmcopy_loop_ok n : forall fuel s old new F k sz,
  (n < fuel)%nat -> free_pages s F -> as_wf (km_mem s) old F -> as_wf (km_mem s) new F ->
  disjoint_as (km_mem s) old new ->
  0 <= k -> sz <= k * PGSIZE + Z.of_nat n * PGSIZE ->
  (0 < Z.of_nat n -> k * PGSIZE + (Z.of_nat n - 1) * PGSIZE < sz) ->
  k * PGSIZE + Z.of_nat n * PGSIZE <= TRAPFRAME ->
  (forall va', in_range (k * PGSIZE) (Z.of_nat n) va' -> has (pte_of (km_mem s) old va') PTE_V = true) ->
  (forall va', in_range 0 k va' -> has (pte_of (km_mem s) new va') PTE_V = true) ->
  (forall va', in_range (k * PGSIZE) (Z.of_nat n) va' -> pte_of (km_mem s) new va' = 0) ->
  exists r s' F',
    uvmcopy_loop fuel old new (k * PGSIZE) sz s = Ret r s' /\ as_step s s' new F F' /\
    (r = 0 /\ copied s s' old new (k * PGSIZE) (Z.of_nat n) \/
     r = -1 /\ (length F < 3 * n)%nat /\
       (forall va', 0 <= va' < MAXVA -> pte_of (km_mem s') new va' =
          if decide (in_range 0 k va') then 0 else pte_of (km_mem s) new va') /\
       data_kept s s' new (fun va => ~ in_range 0 k va)).
Proof.
  pose proof TRAPFRAME_lt as HT.
  induction n as [|n IH]; intros fuel s old new F k sz Hfuel Hf Hwo Hwn Hdj Hk Hn1 Hn2 Hmax HVo HVn Hz;
    (destruct fuel as [|fuel]; [lia|]); rewrite uvmcopy_loop_S; set (a := k * PGSIZE) in *.
  { replace (a <? sz) with false by (symmetry; apply Z.ltb_ge; lia).
    exists 0, s, F. split; [done|]. split; [by apply as_step_refl|]. left. split; [done|].
    split; try done; intros; unfold in_range in *; lia. }
  specialize (Hn2 ltac:(lia)).
  assert (a mod PGSIZE = 0) as Hala by (unfold a; by rewrite Z.mod_mul by done).
  assert (0 <= a < TRAPFRAME) as Ha by (unfold a, PGSIZE in *; lia).
  replace (a <? sz) with true by (symmetry; apply Z.ltb_lt; unfold PGSIZE in *; lia).
  assert (has (pte_of (km_mem s) old a) PTE_V = true) as HVa by (apply HVo; unfold in_range, PGSIZE; lia).
  destruct (walk_present s old F a Hwo Ha HVa) as (w & Hw & Hw0 & Hld).
  rewrite (kbind_ret _ _ _ _ _ Hw). replace (w =? 0) with false by (symmetry; apply Z.eqb_neq; lia).
  rewrite (kbind_ret (kld64 w) _ s _ s eq_refl), Hld, HVa. cbn [negb]. cbv zeta.
  set (perm := PTE_FLAGS (pte_of (km_mem s) old a)). set (pa := PTE2PA (pte_of (km_mem s) old a)).
  assert (0 <= perm < 1024) as Hperm by apply PTE_FLAGS_range.
  assert (Z.lor perm PTE_V <> PTE_V) as HpV.
  { unfold perm. rewrite PTE_FLAGS_V by done. by apply (as_leaf _ _ _ Hwo). }
  destruct F as [|x F].
  { rewrite (kbind_ret _ _ _ _ _ (kalloc_none s Hf)). cbn [Z.eqb].
    destruct (uvmcopy_undo s new [] k Hf Hwn Hk) as (s' & F' & Hr & Hst & Hp & Hd); [lia|done|].
    exists (-1), s', F'. rewrite (kbind_ret _ _ _ _ _ Hr). split; [done|]. split; [done|]. right.
    split; [done|]. split; [simpl; lia|done]. }
  assert (pte_of (km_mem s) new a = 0) as Hza by (apply Hz; unfold in_range, PGSIZE; lia).
  destruct (grow_page s new x F a perm (fun m => memmove m x pa PGSIZE) Hf Hwn)
    as (s1 & r & s3 & Hka & Hx0 & Hm1 & Hmap & Hr); try done.
  { intros m b Hb. rewrite ld8_memmove. by rewrite decide_False. }
  { by rewrite Hza, has_0. }
  rewrite (kbind_ret _ _ _ _ _ Hka). replace (x =? 0) with false by (symmetry; apply Z.eqb_neq; lia).
  rewrite (kbind_ret (kmemmove x pa PGSIZE) _ s1 tt _ eq_refl), (kbind_ret _ _ _ _ _ Hmap).
  destruct Hr as [(-> & (F' & Hst & Hlen) & Hp3 & Hx3 & Hd3)|(-> & Hlen & s4 & F' & Hkf & Hst & Hp4 & Hd4)]; cbn [Z.eqb negb].
  - destruct (other_kept s s3 new old (x :: F) F' Hf Hwn Hst Hwo Hdj) as (Hpo & Hwo3 & Hdj3 & Hown3).
    rewrite uint64_small by (unfold TRAPFRAME, TRAMPOLINE, PGSIZE in *; rewrite MAXVA_eq in *; lia).
    replace (a + PGSIZE) with ((k + 1) * PGSIZE) by (unfold a; lia).
    destruct (IH fuel s3 old new F' (k + 1) sz) as (r & s' & F'' & Hl & Hst' & Hr);
      try done; try lia; try apply Hst.
    { intros va' Hr. rewrite Hpo. apply HVo. unfold in_range, a, PGSIZE in *. lia. }
    { intros va' Hr. rewrite Hp3 by (unfold in_range, a, PGSIZE in *; lia).
      case_decide; [apply mk_pte_V|]. apply HVn. unfold in_range, a, PGSIZE in *. Z.div_mod_to_equations. lia. }
    { intros va' Hr. rewrite Hp3 by (unfold in_range, a, PGSIZE in *; lia).
      rewrite decide_False by (unfold in_range, a, PGSIZE in *; Z.div_mod_to_equations; lia).
      apply Hz. unfold in_range, a, PGSIZE in *. lia. }
    exists r, s', F''. split; [done|]. split; [by eapply as_step_trans|].
    destruct (free_pages_head _ _ _ Hf) as (_ & Hxr & _).
    destruct Hr as [[-> Hc]|(-> & Hlen' & Hp' & Hd')].
    + left. split; [done|]. apply (copied_step s s3 s' old new a (Z.of_nat (S n)) x); try done; try lia.
      * intros j Hj. rewrite Hx3 by (unfold in_page; lia). rewrite ld8_memmove, decide_True by lia.
        replace (pa + (x + j - x)) with (pa + j) by lia. apply Hm1.
        destruct (as_data _ _ _ Hwo a Ha HVa) as (Hpr & HpF & _). fold pa in Hpr, HpF.
        apply (page_apart pa x); try done; [|unfold in_page; lia]. intros ->. apply HpF. left.
      * replace (Z.of_nat (S n) - 1) with (Z.of_nat n) by lia.
        replace (a + PGSIZE) with ((k + 1) * PGSIZE) by (unfold a; lia). done.
    + right. split; [done|]. split; [simpl; lia|]. split.
      * intros va' Hva'. rewrite Hp', Hp3 by done. unfold in_range, a in *.
        repeat case_decide; try done; try (exfalso; unfold PGSIZE in *; Z.div_mod_to_equations; lia).
        symmetry. rewrite (pte_of_page _ _ va' (k * PGSIZE)); [done|].
        unfold PGSIZE in *. Z.div_mod_to_equations. lia.
      * intros va b Hva HVb Hr Hb.
        assert (va / PGSIZE <> a / PGSIZE) as Hne.
        { intros He. rewrite (pte_of_page _ _ _ _ He), Hza, has_0 in HVb. done. }
        assert (pte_of (km_mem s3) new va = pte_of (km_mem s) new va) as He
          by (rewrite Hp3 by lia; by rewrite decide_False).
        rewrite (Hd' va b), (Hd3 va b); rewrite ?He; try done.
        unfold in_range, a, PGSIZE in *. Z.div_mod_to_equations. lia.
  - rewrite (kbind_ret _ _ _ _ _ Hkf).
    destruct (uvmcopy_undo s4 new F' k) as (s' & F'' & Hr & Hst' & Hp & Hd); try done; try apply Hst; [lia| |].
    { intros va' Hr. rewrite Hp4 by (unfold in_range, a, PGSIZE in *; lia). by apply HVn. }
    exists (-1), s', F''. rewrite (kbind_ret _ _ _ _ _ Hr). split; [done|].
    split; [by eapply as_step_trans|]. right. split; [done|]. split; [simpl; lia|]. split.
    + intros va' Hva'. rewrite Hp by done. case_decide; [done|]. by apply Hp4.
    + intros va b Hva HVb Hn Hb. rewrite (Hd va b), (Hd4 va b); rewrite ?Hp4 by lia; done.
Qed.

Lemma uvmcopy_ok s old new F sz :
  free_pages s F -> as_wf (km_mem s) old F -> as_wf (km_mem s) new F ->
  disjoint_as (km_mem s) old new -> 0 <= sz <= TRAPFRAME ->
  (forall va, 0 <= va < PGROUNDUP sz -> has (pte_of (km_mem s) old va) PTE_V = true) ->
  (forall va, 0 <= va < PGROUNDUP sz -> pte_of (km_mem s) new va = 0) ->
  exists r s' F',
    uvmcopy old new sz s = Ret r s' /\ as_step s s' new F F' /\
    ((forall va, pte_of (km_mem s') old va = pte_of (km_mem s) old va) /\
     as_wf (km_mem s') old F' /\ disjoint_as (km_mem s') old new /\
     (forall p b, owns (km_mem s) old p -> in_page p b -> ld8 (km_mem s') b = ld8 (km_mem s) b)) /\
    (r = 0 /\ copied s s' old new 0 (PGROUNDUP sz / PGSIZE) \/
     r = -1 /\ Z.of_nat (length F) < 3 * (PGROUNDUP sz / PGSIZE) /\
       (forall va, 0 <= va < MAXVA -> pte_of (km_mem s') new va = pte_of (km_mem s) new va) /\
       data_kept s s' new (fun _ => True)).
Proof.
  intros Hf Hwo Hwn Hdj Hsz HV Hz. pose proof TRAPFRAME_lt as HT. pose proof TRAPFRAME_aligned as HTa.
  assert (sz <= 2 ^ 64 - PGSIZE) as Hb.
  { unfold TRAPFRAME, TRAMPOLINE, PGSIZE in *. rewrite MAXVA_eq in *. lia. }
  destruct (PGROUNDUP_spec sz ltac:(lia)) as [Hal Hr].
  set (n := PGROUNDUP sz / PGSIZE).
  assert (0 <= n) as Hn0 by (unfold n, PGSIZE in *; Z.div_mod_to_equations; lia).
  assert (n * PGSIZE = PGROUNDUP sz) as Hn by (unfold n, PGSIZE in *; Z.div_mod_to_equations; lia).
  unfold uvmcopy.
  destruct (uvmcopy_loop_ok (Z.to_nat n) (S (S (Z.to_nat (sz / PGSIZE)))) s old new F 0 sz)
    as (r & s' & F' & Hl & Hst & Hres);
    rewrite ?Z2Nat.id, ?Z.mul_0_l, ?Z.add_0_l in * by done; try done; try lia.
  - unfold PGSIZE in *. Z.div_mod_to_equations. lia.
  - rewrite Hn. unfold PGSIZE in *. Z.div_mod_to_equations. lia.
  - intros va' Hr'. apply HV. unfold in_range in Hr'. lia.
  - intros va'. unfold in_range. lia.
  - intros va' Hr'. apply Hz. unfold in_range in Hr'. lia.
  - exists r, s', F'. split; [done|]. split; [done|].
    split; [by apply (other_kept s s' new old F F')|].
    destruct Hres as [Hres|(-> & Hlen & Hp & Hd)]; [by left|]. right. split; [done|]. split; [lia|]. split.
    + intros va Hva. rewrite Hp by done. rewrite decide_False; [done|]. unfold in_range. lia.
    + intros va b Hva HVa _ Hb1. apply (Hd va b); try done. unfold in_range. lia.
Qed.

End fork.
