(* ===== verification/VmFree.v ===== *)
(** * freewalk and uvmfree

    Tearing a page table down: [freewalk] frees every page of the tree
    exactly once, and [uvmfree] returns to the allocator all the pages the
    address space owns. *)

From S2P Require Import Prelude Memory KString Kalloc Vm VmSpec VmMap VmCopy VmUser VmGrow VmAlloc.

(** The pages of the subtree of height [d] at [pt]. *)
Fixpoint subpage (d : nat) (m : memory) (pt p : Z) : Prop :=
  p = pt \/
  match d with
  | O => False
  | S d' => exists j, 0 <= j < 512 /\ has (entry m pt j) PTE_V = true /\
      subpage d' m (PTE2PA (entry m pt j)) p
  end.

Section free.
Context `{I : KernelImage} `{Ok : !KernelImageOk I}.

(** A subtree that [freewalk] can free: it has no leaf, its inner entries carry
    no permission, and its pages are distinct pages of RAM in use. *)
Fixpoint sub_wf (d : nat) (m : memory) (pt : Z) (F : list Z) : Prop :=
  ram_page pt /\ (pt ∉ F) /\
  forall j, 0 <= j < 512 -> has (entry m pt j) PTE_V = true ->
    match d with
    | O => False
    | S d' =>
        Z.land (entry m pt j) (Z.lor (Z.lor PTE_R PTE_W) PTE_X) = 0 /\
        sub_wf d' m (PTE2PA (entry m pt j)) F /\
        ~ subpage d' m (PTE2PA (entry m pt j)) pt /\
        (forall j' p, 0 <= j' < 512 -> j' <> j -> has (entry m pt j') PTE_V = true ->
           subpage d' m (PTE2PA (entry m pt j)) p -> ~ subpage d' m (PTE2PA (entry m pt j')) p)
    end.

Lemma sub_self d m pt : subpage d m pt pt.
Proof. destruct d; by left. Qed.

Lemma sub_ram d : forall m pt F p, sub_wf d m pt F -> subpage d m pt p -> ram_page p /\ p ∉ F.
Proof.
  induction d as [|d IH]; intros m pt F p (Hr & HF & Hc) [->|Hp]; try done.
  destruct Hp as (j & Hj & HV & Hp). destruct (Hc j Hj HV) as (_ & Hs & _). by eapply IH.
Qed.

Lemma entry_frame m m' p j : 0 <= j < 512 -> (forall b, in_page p b -> ld8 m' b = ld8 m b) ->
  entry m' p j = entry m p j.
Proof. intros Hj H. apply ld64_ext. intros b Hb. apply H. unfold in_page, PGSIZE. lia. Qed.

Lemma sub_frame d : forall m m' pt F F',
  sub_wf d m pt F ->
  (forall p b, subpage d m pt p -> in_page p b -> ld8 m' b = ld8 m b) ->
  (forall p, subpage d m pt p -> p ∉ F') ->
  sub_wf d m' pt F' /\ (forall p, subpage d m' pt p <-> subpage d m pt p).
Proof.
  induction d as [|d IH]; intros m m' pt F F' (Hr & HF & Hc) Hm HF';
    assert (forall j, 0 <= j < 512 -> entry m' pt j = entry m pt j) as He
      by (intros j Hj; apply entry_frame; [done|]; intros b Hb; apply (Hm pt); [by left|done]).
  { split; [|done]. split; [done|]. split; [apply HF'; by left|].
    intros j Hj. rewrite He by done. by apply Hc. }
  assert (forall j, 0 <= j < 512 -> has (entry m pt j) PTE_V = true ->
    sub_wf d m' (PTE2PA (entry m pt j)) F' /\
    (forall p, subpage d m' (PTE2PA (entry m pt j)) p <-> subpage d m (PTE2PA (entry m pt j)) p)) as Hch.
  { intros j Hj HV. destruct (Hc j Hj HV) as (_ & Hs & _). apply IH with F; [done| |].
    - intros p b Hp. apply Hm. right. by exists j.
    - intros p Hp. apply HF'. right. by exists j. }
  split.
  - split; [done|]. split; [apply HF'; by left|].
    intros j Hj. rewrite He by done. intros HV. destruct (Hc j Hj HV) as (Hx & _ & Hn & Hd).
    destruct (Hch j Hj HV) as [Hs Hp]. split; [done|]. split; [done|]. split; [by rewrite Hp|].
    intros j' p Hj' Hne. rewrite He by done. intros HV'. rewrite Hp.
    destruct (Hch j' Hj' HV') as [_ Hp']. rewrite Hp'. by apply Hd.
  - intros p. cbn [subpage]. split; (intros [->|(j & Hj & HV & Hp)]; [by left|right; exists j]).
    + rewrite He in HV, Hp by done. split; [done|]. split; [done|]. by apply (Hch j Hj HV).
    + rewrite He by done. split; [done|]. split; [done|]. by apply (Hch j Hj HV).
Qed.

Lemma freewalk_S d pagetable :
  freewalk (S d) pagetable = freewalk_loop (freewalk d) pagetable 512 0.
Proof. reflexivity. Qed.

Lemma freewalk_loop_S f pagetable k i :
  freewalk_loop f pagetable (S k) i =
    (pte <- kld64 (pagetable + 8 * i) ;;
     if has pte PTE_V && (Z.land pte (Z.lor (Z.lor PTE_R PTE_W) PTE_X) =? 0) then
       f (PTE2PA pte) ;;; kst64 (pagetable + 8 * i) 0 ;;; freewalk_loop f pagetable k (i + 1)
     else if has pte PTE_V then panic "freewalk: leaf"
     else freewalk_loop f pagetable k (i + 1)).
Proof. done. Qed.

(** The pages of the subtrees hanging off the entries from [i] on. *)
Definition kids (d : nat) (m : memory) (pt i p : Z) : Prop :=
  exists j, i <= j < 512 /\ has (entry m pt j) PTE_V = true /\ subpage d m (PTE2PA (entry m pt j)) p.

(** [f] frees the subtrees of height [d] below the entries of [pt]. *)
Definition frees (f : Z -> K kmem unit) (d : nat) : Prop := forall s c F,
  free_pages s F -> sub_wf d (km_mem s) c F ->
  exists s' L, f c s = Ret tt s' /\ free_pages s' (L ++ F) /\
    (forall p, p ∈ L <-> subpage d (km_mem s) c p) /\
    (forall b, (forall p, subpage d (km_mem s) c p -> ~ in_page p b) -> ld8 (km_mem s') b = ld8 (km_mem s) b).

Lemma kfree_frame s pa F : free_pages s F -> ram_page pa -> pa ∉ F ->
  exists s', kfree pa s = Ret tt s' /\ free_pages s' (pa :: F) /\
    (forall b, ~ in_page pa b -> ld8 (km_mem s') b = ld8 (km_mem s) b).
Proof.
  intros Hf Hp HF. destruct (kfree_ok s pa F Hf Hp HF) as [Hk Hf'].
  eexists. split; [exact Hk|]. split; [exact Hf'|]. intros b Hb. cbn [km_mem]. unfold in_page, PGSIZE in *.
  rewrite ld8_st64_other by lia. by rewrite ld8_memset_out by lia.
Qed.

Lemma freewalk_loop_ok f d pt k : frees f d -> forall i s F,
  Z.of_nat k = 512 - i -> 0 <= i ->
  free_pages s F -> ram_page pt -> pt ∉ F ->
  (forall j, i <= j < 512 -> has (entry (km_mem s) pt j) PTE_V = true ->
     Z.land (entry (km_mem s) pt j) (Z.lor (Z.lor PTE_R PTE_W) PTE_X) = 0 /\
     sub_wf d (km_mem s) (PTE2PA (entry (km_mem s) pt j)) F /\
     ~ subpage d (km_mem s) (PTE2PA (entry (km_mem s) pt j)) pt /\
     (forall j' p, i <= j' < 512 -> j' <> j -> has (entry (km_mem s) pt j') PTE_V = true ->
        subpage d (km_mem s) (PTE2PA (entry (km_mem s) pt j)) p ->
        ~ subpage d (km_mem s) (PTE2PA (entry (km_mem s) pt j')) p)) ->
  exists s' L, freewalk_loop f pt k i s = Ret tt s' /\ free_pages s' (L ++ F) /\
    (forall p, p ∈ L <-> p = pt \/ kids d (km_mem s) pt i p) /\
    (forall b, (forall p, p = pt \/ kids d (km_mem s) pt i p -> ~ in_page p b) ->
       ld8 (km_mem s') b = ld8 (km_mem s) b).
Proof.
  intros Hfrees. induction k as [|k IH]; intros i s F Hki Hi Hf Hpt HptF Hc.
  { destruct (kfree_frame s pt F Hf Hpt HptF) as (s' & Hk & Hf' & Hm). exists s', [pt].
    assert (forall p, ~ kids d (km_mem s) pt i p) as Hno by (intros p (j & Hj & _); lia).
    split; [done|]. split; [done|]. split.
    - intros p. rewrite list_elem_of_singleton. specialize (Hno p). tauto.
    - intros b Hb. apply Hm. apply Hb. by left. }
  rewrite freewalk_loop_S, (kbind_ret (kld64 _) _ s _ s eq_refl).
  change (ld64 (km_mem s) (pt + 8 * i)) with (entry (km_mem s) pt i).
  destruct (has (entry (km_mem s) pt i) PTE_V) eqn:HV; cbn [andb].
  2:{ destruct (IH (i + 1) s F) as (s' & L & Hl & Hf' & HL & Hm); try done; try lia.
    { intros j Hj HVj. destruct (Hc j ltac:(lia) HVj) as (? & ? & ? & Hd).
      repeat (split; [done|]). intros j' p Hj'. apply Hd. lia. }
    assert (forall p, kids d (km_mem s) pt (i + 1) p <-> kids d (km_mem s) pt i p) as Hkid.
    { intros p. split; intros (j & Hj & HVj & Hp).
      - exists j. split; [lia|done].
      - exists j. split; [|done]. destruct (decide (j = i)) as [->|]; [congruence|lia]. }
    exists s', L. split; [done|]. split; [done|]. split.
    - intros p. by rewrite HL, Hkid.
    - intros b Hb. apply Hm. intros p. rewrite Hkid. apply Hb. }
  destruct (Hc i ltac:(lia) HV) as (Hx & Hs & Hnpt & Hdis). rewrite Hx. cbn [Z.eqb].
  set (c := PTE2PA (entry (km_mem s) pt i)) in *.
  destruct (Hfrees s c F Hf Hs) as (s1 & L1 & H1 & Hf1 & HL1 & Hm1).
  rewrite (kbind_ret _ _ _ _ _ H1).
  set (s2 := Kmem (st64 (km_mem s1) (pt + 8 * i) 0) (km_freelist s1)).
  rewrite (kbind_ret (kst64 _ _) _ s1 tt s2 eq_refl).
  assert (pt ∉ L1) as HptL by (by rewrite HL1).
  assert (forall b, in_page pt b -> ld8 (km_mem s1) b = ld8 (km_mem s) b) as Hpt1.
  { intros b Hb. apply Hm1. intros p Hp. destruct (sub_ram _ _ _ _ _ Hs Hp) as [Hpr _].
    apply (page_apart pt p); try done. intros ->. done. }
  assert (forall b, ~ in_page pt b -> ld8 (km_mem s2) b = ld8 (km_mem s1) b) as Hm2.
  { intros b Hb. cbn [s2 km_mem]. apply ld8_st64_other. unfold in_page, PGSIZE in *. lia. }
  assert (free_pages s2 (L1 ++ F)) as Hf2.
  { apply free_pages_ext; [|done]. intros x b Hxin Hb. apply Hm2.
    apply (page_apart x pt); try done; [by eapply free_ram|].
    intros ->. apply elem_of_app in Hxin. tauto. }
  assert (forall j, i + 1 <= j < 512 -> entry (km_mem s2) pt j = entry (km_mem s) pt j) as He.
  { intros j Hj. unfold entry. cbn [s2 km_mem]. rewrite ld64_st64_other by lia.
    apply ld64_ext. intros b Hb. apply Hpt1. unfold in_page, PGSIZE. lia. }
  assert (forall j, i + 1 <= j < 512 -> has (entry (km_mem s) pt j) PTE_V = true ->
    sub_wf d (km_mem s2) (PTE2PA (entry (km_mem s) pt j)) (L1 ++ F) /\
    (forall p, subpage d (km_mem s2) (PTE2PA (entry (km_mem s) pt j)) p <->
               subpage d (km_mem s) (PTE2PA (entry (km_mem s) pt j)) p)) as Hch.
  { intros j Hj HVj. destruct (Hc j ltac:(lia) HVj) as (_ & Hsj & Hnj & Hdj).
    apply sub_frame with F; [done| |].
    - intros p b Hp Hb. destruct (sub_ram _ _ _ _ _ Hsj Hp) as [Hpr _]. rewrite Hm2.
      + apply Hm1. intros p' Hp'. destruct (sub_ram _ _ _ _ _ Hs Hp') as [Hpr' _].
        apply (page_apart p p'); try done. intros ->. apply (Hdj i p'); try done; lia.
      + apply (page_apart p pt); try done. intros ->. done.
    - intros p Hp. rewrite elem_of_app, HL1. intros [Hp'|Hp'].
      + apply (Hdj i p); try done; lia.
      + by apply (sub_ram _ _ _ _ _ Hsj Hp). }
  destruct (IH (i + 1) s2 (L1 ++ F)) as (s' & L & Hl & Hf' & HL & Hm); try done; try lia.
  { rewrite elem_of_app. tauto. }
  { intros j Hj. rewrite He by done. intros HVj.
    destruct (Hc j ltac:(lia) HVj) as (? & _ & Hnj & Hdj). destruct (Hch j Hj HVj) as [Hsj Hpj].
    split; [done|]. split; [done|]. split; [by rewrite Hpj|].
    intros j' p Hj' Hne. rewrite He by done. intros HVj'. rewrite Hpj.
    destruct (Hch j' Hj' HVj') as [_ Hpj']. rewrite Hpj'. apply Hdj; try done. lia. }
  assert (forall p, kids d (km_mem s) pt i p <-> p ∈ L1 \/ kids d (km_mem s2) pt (i + 1) p) as Hkid.
  { intros p. rewrite HL1. split.
    - intros (j & Hj & HVj & Hp). destruct (decide (j = i)) as [->|]; [by left|]. right.
      exists j. rewrite He by lia. split; [lia|]. split; [done|]. apply (Hch j); [lia|done|done].
    - intros [Hp|(j & Hj & HVj & Hp)]; [exists i; split; [lia|done]|].
      rewrite He in HVj, Hp by lia. exists j. split; [lia|]. split; [done|].
      by apply (Hch j). }
  exists s', (L ++ L1). split; [done|]. split; [by rewrite <- app_assoc|]. split.
  - intros p. rewrite elem_of_app, HL, Hkid. tauto.
  - intros b Hb. assert (~ in_page pt b) as Hbpt by (apply Hb; by left). rewrite Hm.
    + rewrite Hm2 by done. apply Hm1. intros p Hp. apply Hb. right. apply Hkid. left. by apply HL1.
    + intros p [->|Hp]; [done|]. apply Hb. right. apply Hkid. by right.
Qed.

(** At the last level there is no child to free. *)
Lemma freewalk_loop_leaf f pt k : forall i s F,
  Z.of_nat k = 512 - i -> 0 <= i -> free_pages s F -> ram_page pt -> pt ∉ F ->
  (forall j, i <= j < 512 -> has (entry (km_mem s) pt j) PTE_V = false) ->
  freewalk_loop f pt k i s = kfree pt s.
Proof.
  induction k as [|k IH]; intros i s F Hk Hi Hf Hpt HptF Hc; [done|].
  rewrite freewalk_loop_S, (kbind_ret (kld64 _) _ s _ s eq_refl).
  change (ld64 (km_mem s) (pt + 8 * i)) with (entry (km_mem s) pt i).
  rewrite Hc by lia. cbn [andb]. apply IH with F; try done; try lia. intros j Hj. apply Hc. lia.
Qed.

Lemma freewalk_frees d : frees (freewalk (S d)) d.
Proof.
  induction d as [|d IH]; intros s pt F Hf (Hr & HF & Hc); rewrite freewalk_S.
  - destruct (kfree_frame s pt F Hf Hr HF) as (s' & Hk & Hf' & Hm). exists s', [pt].
    split; [|split; [done|split]].
    + rewrite (freewalk_loop_leaf _ pt 512 0 s F); try done.
      intros j Hj. destruct (has _ _) eqn:E; [|done]. by destruct (Hc j Hj E).
    + intros p. rewrite list_elem_of_singleton. cbn [subpage]. tauto.
    + intros b Hb. apply Hm. apply Hb. by left.
  - destruct (freewalk_loop_ok (freewalk (S d)) d pt 512 IH 0 s F)
      as (s' & L & Hl & Hf' & HL & Hm); try done.
    exists s', L. done.
Qed.

(** ** From the invariant of the tree to [sub_wf] *)

Lemma sub_node d : forall m pt p,
  subpage d m pt p <->
  exists q, Forall (fun i => 0 <= i < 512) q /\ (length q <= d)%nat /\ node m pt q = Some p.
Proof.
  induction d as [|d IH]; intros m pt p; cbn [subpage]; split.
  - intros [->|[]]. by exists [].
  - intros ([|i q] & _ & Hlen & Hn); simpl in *; [left; congruence|lia].
  - intros [->|(j & Hj & HV & Hp)]; [exists []; split; [done|]; split; [simpl; lia|done]|].
    apply IH in Hp as (q & Hq & Hlen & Hn). exists (j :: q).
    split; [by constructor|]. split; [simpl; lia|]. cbn [node]. by rewrite HV.
  - intros ([|i q] & Hq & Hlen & Hn); simpl in *; [left; congruence|]. right.
    apply Forall_cons in Hq as [Hi Hq]. destruct (has (entry m pt i) PTE_V) eqn:HV; [|done].
    exists i. split; [done|]. split; [done|]. apply IH. exists q. split; [done|]. split; [lia|done].
Qed.

Lemma sub_wf_intro d : forall m pt F,
  (forall q p, Forall (fun i => 0 <= i < 512) q -> (length q <= d)%nat -> node m pt q = Some p ->
     ram_page p /\ p ∉ F) ->
  (forall q q' p, Forall (fun i => 0 <= i < 512) q -> (length q <= d)%nat ->
     Forall (fun i => 0 <= i < 512) q' -> (length q' <= d)%nat ->
     node m pt q = Some p -> node m pt q' = Some p -> q = q') ->
  (forall q p i, Forall (fun i => 0 <= i < 512) (q ++ [i]) -> (length q < d)%nat -> node m pt q = Some p ->
     has (entry m p i) PTE_V = true -> has (entry m p i) (Z.lor (Z.lor PTE_R PTE_W) PTE_X) = false) ->
  (forall q p i, Forall (fun i => 0 <= i < 512) (q ++ [i]) -> length q = d -> node m pt q = Some p ->
     has (entry m p i) PTE_V = false) ->
  sub_wf d m pt F.
Proof.
  induction d as [|d IH]; intros m pt F Hram Hinj Hin Hleaf;
    (destruct (Hram [] pt) as [Hr HF]; [done|simpl; lia|done|]); split; try done; split; try done; intros j Hj HV.
  { rewrite (Hleaf [] pt j) in HV; try done. by apply Forall_singleton. }
  assert (forall q, node m pt (j :: q) = node m (PTE2PA (entry m pt j)) q) as Hnode
    by (intros q; cbn [node]; by rewrite HV).
  split; [|split; [|split]].
  - specialize (Hin [] pt j ltac:(by apply Forall_singleton) ltac:(simpl; lia) eq_refl HV).
    unfold has in Hin. apply negb_false_iff, Z.eqb_eq in Hin. done.
  - apply IH.
    + intros q p Hq Hlen. rewrite <- Hnode. apply Hram; [by constructor|simpl; lia].
    + intros q q' p Hq Hlen Hq' Hlen'. rewrite <- !Hnode. intros H1 H2.
      assert (j :: q = j :: q') by (eapply Hinj; try done; try (by constructor); simpl; lia). congruence.
    + intros q p i Hq Hlen. rewrite <- Hnode. apply Hin; [by constructor|simpl; lia].
    + intros q p i Hq Hlen. rewrite <- Hnode. apply Hleaf; [by constructor|simpl; lia].
  - intros (q & Hq & Hlen & Hn)%sub_node. rewrite <- Hnode in Hn.
    assert ([] = j :: q) by (eapply Hinj; try done; try (by constructor); simpl; lia). done.
  - intros j' p Hj' Hne HV' (q & Hq & Hlen & Hn)%sub_node (q' & Hq' & Hlen' & Hn')%sub_node.
    rewrite <- Hnode in Hn.
    assert (j :: q = j' :: q'); [|congruence].
    eapply Hinj; try done; try (by constructor); try (simpl; lia). cbn [node]. by rewrite HV'.
Qed.

Lemma PX_of i2 i1 i0 : 0 <= i2 < 512 -> 0 <= i1 < 512 -> 0 <= i0 < 512 ->
  let va := i2 * 2 ^ 30 + i1 * 2 ^ 21 + i0 * 2 ^ 12 in PX 2 va = i2 /\ PX 1 va = i1 /\ PX 0 va = i0.
Proof.
  intros H2 H1 H0 va. unfold va. rewrite !PX_eq by lia.
  change (2 ^ (12 + 9 * 2)) with (2 ^ 30). change (2 ^ (12 + 9 * 1)) with (2 ^ 21).
  change (2 ^ (12 + 9 * 0)) with (2 ^ 12). repeat split; Z.div_mod_to_equations; lia.
Qed.

Lemma sub_wf_tree m root F :
  pt_wf m root F -> (forall va, 0 <= va < MAXVA -> has (pte_of m root va) PTE_V = false) ->
  sub_wf 2 m root F /\ (forall p, subpage 2 m root p <-> tree_page m root p).
Proof.
  intros Hwf Hno. split.
  - apply sub_wf_intro.
    + intros q p Hq Hlen. by apply Hwf.
    + intros q q' p Hq Hlen Hq' Hlen'. by apply Hwf.
    + intros q p i Hq Hlen. apply Hwf. split; [done|]. rewrite length_app. simpl. lia.
    + intros [|i2 [|i1 [|? ?]]] p i0 Hq Hlen Hn; try done.
      apply Forall_app in Hq as [Hq Hi0]. apply Forall_cons in Hq as [Hi2 Hq].
      apply Forall_cons in Hq as [Hi1 _]. apply Forall_cons in Hi0 as [Hi0 _].
      assert (i2 < 256) as Hlow.
      { destruct (decide (i2 < 256)); [done|]. cbn [node] in Hn.
        rewrite (wf_half _ _ _ Hwf i2) in Hn by lia. done. }
      destruct (PX_of i2 i1 i0 Hi2 Hi1 Hi0) as (E2 & E1 & E0).
      set (va := i2 * 2 ^ 30 + i1 * 2 ^ 21 + i0 * 2 ^ 12) in *.
      assert (0 <= va < MAXVA) as Hva by (rewrite MAXVA_eq; unfold va; lia).
      specialize (Hno va Hva). unfold pte_of, leaf_slot, va_path in Hno. rewrite E2, E1, E0, Hn in Hno. done.
  - intros p. rewrite sub_node. split; intros (q & Hq).
    + exists q. destruct Hq as (? & ? & ?). by repeat split.
    + exists q. destruct Hq as ([? ?] & ?). done.
Qed.

(** ** uvmfree *)

Lemma uvmfree_ok s root F sz :
  free_pages s F -> as_wf (km_mem s) root F -> 0 <= sz <= TRAPFRAME ->
  (forall va, 0 <= va < MAXVA ->
     has (pte_of (km_mem s) root va) PTE_V = true <-> va < PGROUNDUP sz) ->
  exists s' F', uvmfree root sz s = Ret tt s' /\ free_pages s' F' /\
    (forall p, p ∈ F' <-> p ∈ F \/ owns (km_mem s) root p) /\
    (forall b, (forall p, p ∈ F \/ owns (km_mem s) root p -> ~ in_page p b) ->
       ld8 (km_mem s') b = ld8 (km_mem s) b).
Proof.
  intros Hf Hwf Hsz HV. pose proof TRAPFRAME_lt as HT. pose proof TRAPFRAME_aligned as HTa.
  assert (sz <= 2 ^ 64 - PGSIZE) as Hb64.
  { unfold TRAPFRAME, TRAMPOLINE, PGSIZE in *. rewrite MAXVA_eq in *. lia. }
  destruct (PGROUNDUP_spec sz ltac:(lia)) as [Hal Hr].
  assert (PGROUNDUP sz <= TRAPFRAME) as Hmax by (unfold PGSIZE in *; Z.div_mod_to_equations; lia).
  set (n := PGROUNDUP sz / PGSIZE).
  assert (0 <= n) as Hn0 by (unfold n, PGSIZE in *; Z.div_mod_to_equations; lia).
  assert (n * PGSIZE = PGROUNDUP sz) as Hn by (unfold n, PGSIZE in *; Z.div_mod_to_equations; lia).
  assert (exists s1 F1, (if 0 <? sz then uvmunmap root 0 n true else kret tt) s = Ret tt s1 /\
    as_step s s1 root F F1 /\ (forall va, 0 <= va < MAXVA -> has (pte_of (km_mem s1) root va) PTE_V = false))
    as (s1 & F1 & H1 & Hst & Hno).
  { destruct (0 <? sz) eqn:E.
    - destruct (uvmunmap_ok s root F 0 n) as (s1 & H1 & Hu); try done; try lia.
      { intros va Hr'. unfold in_range in Hr'. apply HV; lia. }
      eexists s1, _. split; [done|]. split; [apply unmapped_as_step with (va := 0) (n := n); try done; try lia|].
      + intros va Hr'. unfold in_range in Hr'. apply HV; lia.
      + intros va Hva. rewrite (um_pte _ _ _ _ _ _ _ Hu) by done. case_decide as Hd; [by rewrite has_0|].
        apply not_true_iff_false. rewrite HV by done. unfold in_range in Hd. lia.
    - exists s, F. split; [done|]. split; [by apply as_step_refl|]. intros va Hva.
      apply not_true_iff_false. rewrite HV by done. apply Z.ltb_ge in E.
      unfold PGSIZE in *. Z.div_mod_to_equations. lia. }
  unfold uvmfree. fold n. rewrite (kbind_ret _ _ _ _ _ H1).
  destruct (sub_wf_tree _ _ _ (as_tree _ _ _ (st_wf _ _ _ _ _ Hst)) Hno) as [Hsub Hpages].
  destruct (freewalk_frees 2 s1 root F1 (st_free _ _ _ _ _ Hst) Hsub) as (s' & L & Hw & Hf' & HL & Hm).
  assert (forall p, owns (km_mem s1) root p <-> tree_page (km_mem s1) root p) as Howns.
  { intros p. split; [|by left]. intros [?|(va & Hva & HVa & _)]; [done|].
    rewrite Hno in HVa by lia. done. }
  exists s', (L ++ F1). split; [done|]. split; [done|]. split.
  - intros p. rewrite <- (st_own _ _ _ _ _ Hst), elem_of_app, HL, Howns, Hpages. tauto.
  - intros b Hb. rewrite Hm, (st_frame _ _ _ _ _ Hst); try done.
    intros p Hp. apply Hb, (st_own _ _ _ _ _ Hst). right. by apply Howns, Hpages.
Qed.

End free.
