(* ===== verification/VmLife.v ===== *)
(** * The life of a user address space

    The operations of vm.c composed: a new page table is an empty address
    space; growing and freeing it gives back exactly the pages it took; what
    is copied out to user memory is copied in again unchanged; and an address
    space copied by fork and its copy do not share memory. *)

From S2P Require Import Prelude Memory KString Kalloc KallocSpec Vm VmSpec VmMap VmCopy VmUser VmGrow VmAlloc VmFork VmFree.

Section life.
Context `{I : KernelImage} `{Ok : !KernelImageOk I}.

(** ** An empty page table *)

Lemma node_zero m x q : (forall j, 0 <= j < 512 -> entry m x j = 0) -> path q ->
  node m x q = if decide (q = []) then Some x else None.
Proof.
  intros Hz [Hq _]. destruct q as [|i q]; [done|]. cbn [node].
  apply Forall_cons in Hq as [Hi _]. rewrite Hz by done. done.
Qed.

Lemma empty_as m x F : ram_page x -> x ∉ F -> (forall j, 0 <= j < 512 -> entry m x j = 0) ->
  as_wf m x F /\ (forall va, pte_of m x va = 0) /\ (forall p, owns m x p <-> p = x).
Proof.
  intros Hx HxF Hz. pose proof (fun q => node_zero m x q Hz) as Hn.
  assert (forall va, pte_of m x va = 0) as Hp.
  { intros va. unfold pte_of, leaf_slot. rewrite Hn by apply va_path_path. done. }
  assert (forall q p, path q -> node m x q = Some p -> q = [] /\ p = x) as Hnode.
  { intros q p Hq. rewrite Hn by done. case_decide; [by intros [= ->]|done]. }
  split; [|split; [done|]].
  - split; try (intros va Hva; rewrite Hp; done).
    split.
    + intros q p Hq Hnq. by destruct (Hnode q p Hq Hnq) as [_ ->].
    + intros q q' p Hq Hq' H1 H2. destruct (Hnode q p Hq H1), (Hnode q' p Hq' H2). congruence.
    + intros q p i Hqi Hnq. destruct (path_snoc _ _ Hqi) as [Hq Hi]. destruct (Hnode q p Hq Hnq) as [_ ->].
      rewrite Hz by done. done.
    + intros i Hi. rewrite Hz by lia. done.
  - intros p. split.
    + intros [(q & Hq & Hnq)|(va & _ & HV & _)]; [by apply (Hnode q)|]. by rewrite Hp in HV.
    + intros ->. left. exists []. split; [|done]. split; [constructor|simpl; lia].
Qed.

Lemma uvmcreate_ok s F : free_pages s F ->
  (F = [] /\ uvmcreate s = Ret 0 s) \/
  exists x F' s', F = x :: F' /\ 0 < x /\ uvmcreate s = Ret x s' /\ free_pages s' F' /\ as_wf (km_mem s') x F' /\
    (forall va, pte_of (km_mem s') x va = 0) /\ (forall p, owns (km_mem s') x p <-> p = x) /\
    (forall b, ~ in_page x b -> ld8 (km_mem s') b = ld8 (km_mem s) b).
Proof.
  intros Hf. unfold uvmcreate. destruct F as [|x F].
  { left. split; [done|]. by rewrite (kbind_ret _ _ _ _ _ (kalloc_none s Hf)). }
  right. destruct (kalloc_some s x F Hf) as [Hk Hf1]. destruct (free_pages_head s x F Hf) as (_ & Hx & HxF).
  pose proof (ram_page_pos x Hx). rewrite (kbind_ret _ _ _ _ _ Hk).
  replace (x =? 0) with false by (symmetry; apply Z.eqb_neq; lia).
  set (s1 := Kmem (memset (km_mem s) x 5 PGSIZE) (ld64 (km_mem s) x)) in *.
  set (m2 := memset (km_mem s1) x 0 PGSIZE).
  assert (forall b, ~ in_page x b -> ld8 m2 b = ld8 (km_mem s1) b) as Hm2.
  { intros b Hb. unfold m2. unfold in_page, PGSIZE in *. by rewrite ld8_memset_out by lia. }
  destruct (empty_as m2 x F Hx HxF) as (A1 & A2 & A3).
  { intros j Hj. apply ld64_memset_zero; unfold PGSIZE; lia. }
  exists x, F, (Kmem m2 (km_freelist s1)). split; [done|]. split; [done|]. split; [reflexivity|]. split.
  { apply free_pages_ext; [|done]. intros y a Hy Ha. apply Hm2. intros Hxa.
    assert (ram_page y) as Hry by (destruct Hf1 as (_ & _ & Hr); by eapply Forall_forall in Hr).
    apply (page_apart y x a Hry Hx); [intros ->; done|done|done]. }
  split; [done|]. split; [done|]. split; [done|]. cbn [km_mem]. intros b Hb. rewrite Hm2 by done.
  cbn [s1 km_mem]. unfold in_page, PGSIZE in *. by rewrite ld8_memset_out by lia.
Qed.

(** Other address spaces are not touched. *)
Lemma create_other s s' a x F :
  as_wf (km_mem s) a (x :: F) -> ram_page x -> (forall p, owns (km_mem s') x p <-> p = x) ->
  (forall b, ~ in_page x b -> ld8 (km_mem s') b = ld8 (km_mem s) b) ->
  as_wf (km_mem s') a F /\ disjoint_as (km_mem s') a x /\
  (forall va, pte_of (km_mem s') a va = pte_of (km_mem s) a va).
Proof.
  intros Ha Hx Ho Hb.
  assert (forall p b, tree_page (km_mem s) a p -> in_page p b -> ld8 (km_mem s') b = ld8 (km_mem s) b) as Hk.
  { intros p b Hp Hin. apply Hb. intros Hxb. destruct (owns_ram _ _ _ p Ha) as [Hr HpF]; [by left|].
    apply (page_apart p x b Hr Hx); [|done|done]. intros ->. apply HpF. by left. }
  assert (as_wf (km_mem s') a (x :: F)) as Ha' by by eapply as_wf_frame.
  split; [|split].
  - eapply as_wf_sub; [|exact Ha']. intros p Hp. by right.
  - intros p Hp ->%Ho. destruct (owns_ram _ _ _ x Ha' Hp) as [_ Hn]. apply Hn. by left.
  - intros va. eapply pte_of_frame; [apply Ha|done].
Qed.

(** ** Growing and freeing *)

(** Make an address space of [sz] bytes and free it again, as [exec] does on
    its error path and [fork] and [wait] do between them. *)
Definition make_and_free (sz xperm : Z) : K kmem unit :=
  root <- uvmcreate ;;
  if root =? 0 then kret tt
  else r <- uvmalloc root 0 sz xperm ;; uvmfree root r.

Lemma PGROUNDUP_0 : PGROUNDUP 0 = 0.
Proof. done. Qed.

(** The pages of a user address space of [sz] bytes. *)
Lemma pages_of sz va : 0 <= sz <= TRAPFRAME -> 0 <= va -> in_range 0 (PGROUNDUP sz / PGSIZE) va <-> va < PGROUNDUP sz.
Proof.
  intros Hsz Hva. pose proof TRAPFRAME_lt. rewrite MAXVA_eq in *.
  destruct (PGROUNDUP_spec sz) as [Ha _]; [unfold PGSIZE; lia|].
  unfold in_range, PGSIZE in *. Z.div_mod_to_equations. lia.
Qed.

(** C16: Making a user address space of any size and freeing it conserves
    physical memory: both return, whether or not there was enough memory for
    it, and afterwards the free pages are the ones that were free before. *)
Theorem make_and_free_conserves s F sz xperm :
  free_pages s F -> 0 <= sz <= TRAPFRAME -> 0 <= xperm < 1024 ->
  exists s' F', make_and_free sz xperm s = Ret tt s' /\ free_pages s' F' /\ F' ≡ₚ F.
Proof.
  intros Hf Hsz Hx. unfold make_and_free.
  destruct (uvmcreate_ok s F Hf) as [[-> H1]|(x & F1 & s1 & -> & Hx0 & H1 & Hf1 & Hw1 & Hp1 & Ho1 & _)];
    rewrite (kbind_ret _ _ _ _ _ H1); [by exists s, []|].
  replace (x =? 0) with false by (symmetry; apply Z.eqb_neq; lia).
  destruct (uvmalloc_ok s1 x F1 0 sz xperm Hf1 Hw1) as (r & s2 & F2 & H2 & St & Hr); [lia..|lia|by intros; apply Hp1|].
  rewrite (kbind_ret _ _ _ _ _ H2).
  destruct (uvmfree_ok s2 x F2 r) as (s3 & F3 & H3 & Hf3 & Ho3 & _); [apply St|apply St| | |].
  { destruct Hr as [[-> _]|[-> _]]; lia. }
  { intros va Hva. destruct Hr as [[-> Ha]|(-> & _ & Hp & _)].
    - unfold new_pages in Ha. rewrite PGROUNDUP_0, Z.sub_0_r in Ha. rewrite <- pages_of by lia. split.
      + intros HV. destruct (decide (in_range 0 (PGROUNDUP sz / PGSIZE) va)) as [|Hn]; [done|].
        rewrite (al_other _ _ _ _ _ _ Ha) in HV by done. by rewrite Hp1 in HV.
      + intros Hin. by apply (al_perm _ _ _ _ _ _ Ha).
    - rewrite Hp, Hp1 by done. rewrite PGROUNDUP_0. split; [done|lia]. }
  exists s3, F3. split; [done|]. split; [done|]. apply NoDup_Permutation; [apply Hf3|apply Hf|].
  intros p. rewrite Ho3, (st_own _ _ _ _ _ St), Ho1, elem_of_cons. tauto.
Qed.

(** ** Copies to and from user memory *)

(** The bytes of the pages that hold user data. *)
Definition user_data (m : memory) (root b : Z) : Prop :=
  exists va, 0 <= va < TRAPFRAME /\ has (pte_of m root va) PTE_V = true /\ in_page (PTE2PA (pte_of m root va)) b.

Lemma writable_low m root F va : as_wf m root F -> 0 <= va < MAXVA -> writable (pte_of m root va) = true ->
  0 <= va < TRAPFRAME /\ has (pte_of m root va) PTE_V = true.
Proof.
  intros Hwf Hva Hw. split.
  - destruct (decide (va < TRAPFRAME)); [lia|]. apply writable_readable in Hw.
    rewrite (as_user _ _ _ Hwf) in Hw by lia. done.
  - unfold writable in Hw. by destruct (has _ PTE_V).
Qed.

(** Whether it succeeds or not, [copyout] writes to user pages only. *)
Lemma copyout_loop_frame fuel : forall s root F dstva src,
  free_pages s F -> as_wf (km_mem s) root F -> (length src < fuel)%nat -> 0 <= dstva < 2 ^ 64 ->
  exists r m', copyout_loop fuel root dstva src s = Ret r (Kmem m' (km_freelist s)) /\
    free_pages (Kmem m' (km_freelist s)) F /\ as_wf m' root F /\
    (forall va, pte_of m' root va = pte_of (km_mem s) root va) /\
    (forall b, ~ user_data (km_mem s) root b -> ld8 m' b = ld8 (km_mem s) b).
Proof.
  induction fuel as [|fuel IH]; intros s root F dstva src Hf Hwf Hfuel H0; [lia|].
  assert (forall r : Z, exists r0 m', Ret r s = Ret r0 (Kmem m' (km_freelist s)) /\
    free_pages (Kmem m' (km_freelist s)) F /\ as_wf m' root F /\
    (forall va, pte_of m' root va = pte_of (km_mem s) root va) /\
    (forall b, ~ user_data (km_mem s) root b -> ld8 m' b = ld8 (km_mem s) b)) as Hstop.
  { intros r. exists r, (km_mem s). by destruct s. }
  destruct (decide (src = [])) as [->|Hsrc]; [apply Hstop|].
  assert (0 < Z.of_nat (length src)) as Hlen by (destruct src; [done|simpl; lia]).
  destruct (decide (dstva < MAXVA)) as [Hva|Hva].
  2:{ rewrite copyout_loop_S. cbv zeta. replace (0 <? Z.of_nat (length src)) with true by lia.
      destruct (MAXVA <=? PGROUNDDOWN dstva) eqn:E1; [apply Hstop|].
      rewrite PGROUNDDOWN_eq, MAXVA_eq in * by done. unfold PGSIZE in *. Z.div_mod_to_equations. lia. }
  rewrite (copyout_step _ s root F) by (done || lia).
  destruct (writable (pte_of (km_mem s) root dstva)) eqn:Hw0; [|apply Hstop].
  cbv zeta. set (n := chunk dstva (Z.of_nat (length src))).
  destruct (chunk_bounds dstva (Z.of_nat (length src)) ltac:(lia)) as (Hn1 & Hn2 & _). fold n in Hn1, Hn2.
  destruct (as_rdata _ _ _ dstva Hwf ltac:(lia) (writable_readable _ Hw0)) as (Hpram & HpF & Hpt).
  destruct (writable_low _ _ _ dstva Hwf ltac:(lia) Hw0) as [Hlow HV].
  set (pa := PTE2PA (pte_of (km_mem s) root dstva)) in *.
  set (m1 := write_bytes (km_mem s) (user_addr (km_mem s) root dstva) (take (Z.to_nat n) src)).
  pose proof (Z.mod_pos_bound dstva PGSIZE ltac:(unfold PGSIZE; lia)) as Hmod.
  assert (forall b, ~ in_page pa b -> ld8 m1 b = ld8 (km_mem s) b) as Hm1.
  { intros b Hb. apply ld8_write_bytes_other. rewrite length_take.
    change (user_addr (km_mem s) root dstva) with (pa + dstva mod PGSIZE). unfold in_page in Hb. lia. }
  destruct (data_write s root F pa m1 Hf Hwf Hpram HpF Hpt Hm1) as (Hf1 & Hwf1 & Hpte).
  destruct (IH (Kmem m1 (km_freelist s)) root F (dstva - dstva mod PGSIZE + PGSIZE) (drop (Z.to_nat n) src))
    as (r & m' & Hr & Hf' & Hwf' & Hpte' & Hb'); try done.
  { rewrite length_drop. lia. }
  { rewrite MAXVA_eq in *. unfold PGSIZE in *. lia. }
  exists r, m'. cbn [km_mem km_freelist] in *. split; [done|]. split; [done|]. split; [done|].
  split; [intros va; by rewrite Hpte', Hpte|]. intros b Hb. rewrite Hb'.
  - apply Hm1. intros Hin. apply Hb. by exists dstva.
  - intros (va & H1 & H2 & H3). rewrite Hpte in H2, H3. apply Hb. by exists va.
Qed.

(** C29: What the kernel copies out to user memory it copies in again
    unchanged: if every byte of the range is writable by the user, [copyout]
    succeeds and a [copyin] of the same range then succeeds and returns the
    same bytes. *)
Theorem copyout_copyin s root F va bs :
  free_pages s F -> as_wf (km_mem s) root F -> 0 <= va -> va + Z.of_nat (length bs) <= MAXVA ->
  Forall (fun b => 0 <= b < 256) bs ->
  (forall i, 0 <= i < Z.of_nat (length bs) -> writable (pte_of (km_mem s) root (va + i)) = true) ->
  exists s', copyout root va bs s = Ret 0 s' /\ copyin root va (Z.of_nat (length bs)) s' = Ret (0, bs) s'.
Proof.
  intros Hf Hwf Hva Hmax Hbs Hw.
  destruct (copyout_loop_ok (S (length bs)) s root F va bs Hf Hwf ltac:(lia) Hva Hmax Hw)
    as (m' & H1 & Hf' & Hwf' & Hpte & Hdata & _).
  exists (Kmem m' (km_freelist s)). split; [done|]. unfold copyin. rewrite Nat2Z.id.
  destruct (copyin_loop_spec (S (length bs)) (Kmem m' (km_freelist s)) root F va (Z.of_nat (length bs)) Hwf')
    as [Hin _]; [lia|lia|rewrite MAXVA_eq in *; lia|].
  rewrite Hin.
  - rewrite Nat2Z.id. f_equal. f_equal. apply list_eq_same_length with (n := length bs); [done|by rewrite length_user_bytes|].
    intros i x y Hi Hx Hy. rewrite lookup_user_bytes in Hx by lia. injection Hx as <-. cbn [km_mem].
    unfold user_addr. rewrite Hpte. pose proof (Hdata i y Hy) as E. unfold user_addr in E. rewrite E. apply uint8_small. by eapply Forall_lookup_1 in Hbs.
  - intros i Hi. cbn [km_mem]. unfold in_ok. rewrite Hpte, (writable_readable _ (Hw i Hi)), andb_true_r. lia.
Qed.

(** [copyinstr] fetches a NUL-terminated string.  If the first [k] bytes
    at the user's address are readable and not NUL then: with a readable NUL
    after them, within [max] bytes, it returns 0 and delivers the string and
    its NUL; and if there is no room for more, or the next byte is not
    readable, it returns -1.  Memory is not changed. *)
Theorem copyinstr_string s root F srcva max k :
  as_wf (km_mem s) root F -> 0 <= k <= max -> 0 <= srcva < 2 ^ 64 ->
  (forall i, 0 <= i < k -> in_ok (km_mem s) root (srcva + i) = true /\ user_byte (km_mem s) root (srcva + i) <> 0) ->
  (k < max -> in_ok (km_mem s) root (srcva + k) = true -> user_byte (km_mem s) root (srcva + k) = 0 ->
     copyinstr root srcva max s = Ret (0, user_bytes (S (Z.to_nat k)) (km_mem s) root srcva) s) /\
  ((k = max \/ in_ok (km_mem s) root (srcva + k) = false) -> exists bs, copyinstr root srcva max s = Ret (-1, bs) s).
Proof. intros Hwf Hk Hva Hpre. apply copyinstr_loop_spec with F; (done || lia). Qed.

(** ** Fork *)

Lemma user_bytes_ext m m' root root' n : forall va,
  (forall va', va <= va' < va + Z.of_nat n -> ld8 m' (user_addr m' root' va') = ld8 m (user_addr m root va')) ->
  user_bytes n m' root' va = user_bytes n m root va.
Proof.
  induction n as [|n IH]; intros va H; [done|]. cbn [user_bytes]. rewrite H by lia. f_equal.
  apply IH. intros va' Hva'. apply H. lia.
Qed.

Lemma PGROUNDUP_ge sz : 0 <= sz <= TRAPFRAME -> sz <= PGROUNDUP sz /\ PGROUNDUP sz <= TRAPFRAME.
Proof.
  intros Hsz. pose proof TRAPFRAME_lt. pose proof TRAPFRAME_aligned. rewrite MAXVA_eq in *.
  destruct (PGROUNDUP_spec sz) as [Ha Hr]; [unfold PGSIZE; lia|]. unfold PGSIZE in *. Z.div_mod_to_equations. lia.
Qed.

(** Writes to the data of one address space leave a disjoint one alone. *)
Lemma other_untouched m m' a c F va :
  as_wf m a F -> as_wf m c F -> disjoint_as m a c -> (forall b, ~ user_data m c b -> ld8 m' b = ld8 m b) ->
  0 <= va < TRAPFRAME -> has (pte_of m a va) PTE_V = true ->
  ld8 m' (user_addr m' a va) = ld8 m (user_addr m a va).
Proof.
  intros Ha Hc Hd Hm Hva HV.
  assert (forall p b, owns m a p -> in_page p b -> ld8 m' b = ld8 m b) as Hown.
  { intros p b Hp Hb. apply Hm. intros (va' & Hva' & HV' & Hb').
    assert (owns m c (PTE2PA (pte_of m c va'))) as Hq by (right; by exists va').
    destruct (owns_ram _ _ _ _ Ha Hp) as [Hpr _], (owns_ram _ _ _ _ Hc Hq) as [Hqr _].
    apply (page_apart p (PTE2PA (pte_of m c va')) b Hpr Hqr); [|done|done]. intros ->. by apply (Hd _ Hp). }
  assert (user_addr m' a va = user_addr m a va) as ->.
  { unfold user_addr. f_equal. f_equal. eapply pte_of_frame; [apply Ha|]. intros p b Hp. apply Hown. by left. }
  apply (Hown (PTE2PA (pte_of m a va))); [right; by exists va|]. unfold user_addr, in_page.
  pose proof (Z.mod_pos_bound va PGSIZE ltac:(unfold PGSIZE; lia)). lia.
Qed.

Lemma disjoint_sym m a c : disjoint_as m a c -> disjoint_as m c a.
Proof. intros H p Hc Ha. by apply (H p). Qed.

(** A later [copyout] to [c] does not change the bytes of [a]. *)
Lemma copyout_other s a c F sz va bs :
  free_pages s F -> as_wf (km_mem s) a F -> as_wf (km_mem s) c F -> disjoint_as (km_mem s) a c ->
  0 <= sz <= TRAPFRAME -> (forall va, 0 <= va < PGROUNDUP sz -> has (pte_of (km_mem s) a va) PTE_V = true) ->
  0 <= va < 2 ^ 64 ->
  exists r s', copyout c va bs s = Ret r s' /\
    user_bytes (Z.to_nat sz) (km_mem s') a 0 = user_bytes (Z.to_nat sz) (km_mem s) a 0.
Proof.
  intros Hf Ha Hc Hd Hsz HV Hva. destruct (PGROUNDUP_ge sz Hsz) as [Hge HleT].
  destruct (copyout_loop_frame (S (length bs)) s c F va bs Hf Hc) as (r & m' & H1 & _ & _ & _ & Hb); [lia|done|].
  exists r, (Kmem m' (km_freelist s)). split; [done|]. apply user_bytes_ext. intros va' Hva'.
  apply other_untouched with (c := c) (F := F); try done; [lia|apply HV; lia].
Qed.

(** ** Freeing the page table of a child that was not filled *)

(** Unmapping one of the two pages above the user's memory without freeing what
    it maps. *)
Lemma unmap_high s root F va : free_pages s F -> as_wf (km_mem s) root F ->
  va mod PGSIZE = 0 -> TRAPFRAME <= va < MAXVA ->
  has (pte_of (km_mem s) root va) PTE_V = true -> PTE_FLAGS (pte_of (km_mem s) root va) <> PTE_V ->
  exists s', uvmunmap root va 1 false s = Ret tt s' /\ as_step s s' root F F /\
    (forall va', 0 <= va' < MAXVA -> pte_of (km_mem s') root va' =
       if decide (va' / PGSIZE = va / PGSIZE) then 0 else pte_of (km_mem s) root va').
Proof.
  intros Hf Hwf Hal Hva HV Hfl. assert (0 <= TRAPFRAME) as HT by done.
  destruct (leaf_slot (km_mem s) root va) as [a|] eqn:Hslot.
  2:{ unfold pte_of in HV. by rewrite Hslot, has_0 in HV. }
  assert (ld64 (km_mem s) a = pte_of (km_mem s) root va) as Hld by (unfold pte_of; by rewrite Hslot).
  pose proof (leaf_slot_pos _ _ _ _ _ (as_tree _ _ _ Hwf) Hslot) as Ha.
  pose proof (set_leaf_step s root F va 0 a Hf (as_tree _ _ _ Hwf) Hslot) as Hst.
  set (s' := Kmem (st64 (km_mem s) a 0) (km_freelist s)) in *. exists s'. split.
  { unfold uvmunmap. rewrite Hal. cbn [negb Z.eqb]. change (S (Z.to_nat 1)) with 2%nat. rewrite uvmunmap_loop_S.
    rewrite !(uint64_small (va + _)) by (rewrite MAXVA_eq in *; unfold PGSIZE in *; lia).
    rewrite (proj2 (Z.ltb_lt va _)) by (unfold PGSIZE; lia).
    rewrite (kbind_ret _ _ s a s) by (by rewrite walk_noalloc, Hslot by lia).
    rewrite (proj2 (Z.eqb_neq a 0)) by lia. rewrite (kbind_ret (kld64 a) _ s _ s eq_refl), Hld, HV. cbn [negb].
    rewrite (proj2 (Z.eqb_neq _ _) Hfl). cbv iota. rewrite (kbind_ret (kret tt) _ s tt s eq_refl), (kbind_ret (kst64 a 0) _ s tt s' eq_refl), uvmunmap_loop_S.
    by rewrite Z.mul_1_l, Z.ltb_irrefl. }
  assert (forall va', 0 <= va' < MAXVA -> pte_of (km_mem s') root va' =
    if decide (va' / PGSIZE = va / PGSIZE) then 0 else pte_of (km_mem s) root va') as Hpte.
  { intros va' Hva'. cbn [s' km_mem]. by rewrite (set_leaf_pte_of _ _ F va 0) by (done || apply Hwf || lia). }
  split; [|done].
  assert (forall va', 0 <= va' < TRAPFRAME -> pte_of (km_mem s') root va' = pte_of (km_mem s) root va') as Hlow.
  { intros va' Hva'. rewrite Hpte by lia. apply decide_False. pose proof TRAPFRAME_aligned. unfold PGSIZE in *. Z.div_mod_to_equations. lia. }
  assert (forall p, tree_page (km_mem s') root p <-> tree_page (km_mem s) root p) as Ht.
  { intros p. split; [|by intros (q & Hq & Hn); exists q; split; [|apply (ps_keep _ _ _ _ _ _ Hst)]].
    intros Hp. destruct (ps_tree _ _ _ _ _ _ Hst p Hp) as [|[]%elem_of_nil]; done. }
  split; [apply Hst| | |].
  - split; [apply Hst|..].
    + intros va' Hva'. rewrite Hpte by lia. case_decide; [unfold readable; by rewrite has_0|by apply (as_user _ _ _ Hwf)].
    + intros va' Hva'. rewrite Hlow by done. by apply (as_leaf _ _ _ Hwf).
    + intros va' Hva'. rewrite Hlow, Ht by done. by apply (as_data _ _ _ Hwf).
    + intros va1 va2 H1 H2. rewrite !Hlow by done. by apply (as_inj _ _ _ Hwf).
  - intros p. unfold owns. rewrite Ht. split; (intros [?|[?|(va' & H1 & H2)]]; [by left|right; by left|right; right; exists va']);
      split; try done; by rewrite ?Hlow in * by done.
  - intros b Hb. apply (ps_frame _ _ _ _ _ _ Hst); [|by intros ? []%elem_of_nil]. intros p Hp. apply Hb. right. by left.
Qed.

(** The page table [proc_pagetable] makes: the trampoline and the trapframe
    are mapped and nothing else. *)
Definition frame_only (m : memory) (root : Z) : Prop := forall va, 0 <= va < MAXVA ->
  if decide (TRAPFRAME <= va) then has (pte_of m root va) PTE_V = true /\ PTE_FLAGS (pte_of m root va) <> PTE_V
  else has (pte_of m root va) PTE_V = false.

(** [proc_freepagetable] of a process without memory. *)
Definition free_unfilled (pagetable : Z) : K kmem unit :=
  uvmunmap pagetable TRAMPOLINE 1 false ;;; uvmunmap pagetable TRAPFRAME 1 false ;;; uvmfree pagetable 0.

Lemma free_unfilled_ok s root F : free_pages s F -> as_wf (km_mem s) root F -> frame_only (km_mem s) root ->
  exists s' F', free_unfilled root s = Ret tt s' /\ free_pages s' F' /\ (forall p, p ∈ F' <-> p ∈ F \/ owns (km_mem s) root p).
Proof.
  intros Hf Hwf Hfo.
  assert (TRAPFRAME < TRAMPOLINE /\ TRAMPOLINE < MAXVA /\ 0 <= TRAPFRAME) as (HT1 & HT2 & HT3) by done.
  pose proof (Hfo TRAMPOLINE ltac:(lia)) as H1. rewrite decide_True in H1 by lia. destruct H1 as [HV1 HF1].
  destruct (unmap_high s root F TRAMPOLINE) as (s1 & H1 & St1 & Hp1); [done|done|done|lia|done|done|].
  pose proof (Hfo TRAPFRAME ltac:(lia)) as H2. rewrite decide_True in H2 by lia. destruct H2 as [HV2 HF2].
  destruct (unmap_high s1 root F TRAPFRAME) as (s2 & H2 & St2 & Hp2);
    [apply St1|apply St1|done|lia|rewrite Hp1 by lia; by rewrite decide_False by done|rewrite Hp1 by lia; by rewrite decide_False by done|].
  destruct (uvmfree_ok s2 root F 0) as (s3 & F3 & H3 & Hf3 & Hi3 & _); [apply St2|apply St2|lia| |].
  { intros va Hva. rewrite PGROUNDUP_0, Hp2, Hp1 by done. split; [|lia].
    case_decide as D1; [by rewrite has_0|]. case_decide as D2; [by rewrite has_0|]. specialize (Hfo va Hva). rewrite decide_False in Hfo; [by rewrite Hfo|].
    unfold TRAPFRAME, TRAMPOLINE, PGSIZE in *. rewrite MAXVA_eq in *. Z.div_mod_to_equations. lia. }
  exists s3, F3. split.
  { unfold free_unfilled. by rewrite (kbind_ret _ _ _ _ _ H1), (kbind_ret _ _ _ _ _ H2). }
  split; [done|]. intros p. rewrite Hi3, (st_own _ _ _ _ _ St2 p). apply St1.
Qed.

(** C7: fork copies memory and shares none.  [uvmcopy] returns; if it returns
    0 the child's memory holds the bytes of the parent's, the parent's is
    unchanged, and nothing either of them is then sent by [copyout], at any
    address, changes what the other one sees.  If it returns -1 there were
    fewer than three free pages for each page of the parent and every mapping
    of the child is what it was before the call, so that no copied page is
    left.  The pages that are free or in the child are the same as before; a
    page that was free and is not free again is a page of the child's page
    table, which [walk] allocated.  It stays there until the page table is
    freed: for a child as [allocproc] makes it, the calls of [freeproc] that
    free the page table then return and leave exactly those pages free that
    were free or in the child before the call. *)
Theorem fork_isolated s old new F sz :
  free_pages s F -> as_wf (km_mem s) old F -> as_wf (km_mem s) new F ->
  disjoint_as (km_mem s) old new -> 0 <= sz <= TRAPFRAME ->
  (forall va, 0 <= va < PGROUNDUP sz -> has (pte_of (km_mem s) old va) PTE_V = true) ->
  (forall va, 0 <= va < PGROUNDUP sz -> pte_of (km_mem s) new va = 0) ->
  let bytes := user_bytes (Z.to_nat sz) (km_mem s) old 0 in
  exists r s1 F1, uvmcopy old new sz s = Ret r s1 /\ free_pages s1 F1 /\
    user_bytes (Z.to_nat sz) (km_mem s1) old 0 = bytes /\
    (r = 0 /\ user_bytes (Z.to_nat sz) (km_mem s1) new 0 = bytes /\
       (forall va bs, 0 <= va < 2 ^ 64 ->
          (exists r2 s2, copyout new va bs s1 = Ret r2 s2 /\ user_bytes (Z.to_nat sz) (km_mem s2) old 0 = bytes) /\
          (exists r2 s2, copyout old va bs s1 = Ret r2 s2 /\ user_bytes (Z.to_nat sz) (km_mem s2) new 0 = bytes)) \/
     r = -1 /\ Z.of_nat (length F) < 3 * (PGROUNDUP sz / PGSIZE) /\
       (forall va, 0 <= va < MAXVA -> pte_of (km_mem s1) new va = pte_of (km_mem s) new va) /\
       (forall p, p ∈ F1 \/ owns (km_mem s1) new p <-> p ∈ F \/ owns (km_mem s) new p) /\
       (forall p, p ∈ F -> p ∈ F1 \/ tree_page (km_mem s1) new p) /\
       (frame_only (km_mem s) new -> exists s2 F2, free_unfilled new s1 = Ret tt s2 /\ free_pages s2 F2 /\
          (forall p, p ∈ F2 <-> p ∈ F \/ owns (km_mem s) new p))).
Proof.
  intros Hf Hwo Hwn Hd Hsz HV Hz bytes. destruct (PGROUNDUP_ge sz Hsz) as [Hge HleT].
  destruct (uvmcopy_ok s old new F sz Hf Hwo Hwn Hd Hsz HV Hz) as (r & s1 & F1 & H1 & St & (Hp & Hwo1 & Hd1 & Hk) & Hr).
  exists r, s1, F1. split; [done|]. split; [apply St|].
  assert (user_bytes (Z.to_nat sz) (km_mem s1) old 0 = bytes) as Hold.
  { apply user_bytes_ext. intros va Hva. unfold user_addr. rewrite Hp.
    apply (Hk (PTE2PA (pte_of (km_mem s) old va))).
    - right. exists va. split; [lia|]. split; [apply HV; lia|done].
    - pose proof (Z.mod_pos_bound va PGSIZE ltac:(unfold PGSIZE; lia)). unfold in_page. lia. }
  split; [done|]. pose proof TRAPFRAME_lt as HT.
  destruct Hr as [[-> Hc]|(-> & Hn & Hpn & _)]; [left|right].
  - assert (user_bytes (Z.to_nat sz) (km_mem s1) new 0 = bytes) as Hnew.
    { apply user_bytes_ext. intros va Hva. unfold user_addr. apply (cp_bytes _ _ _ _ _ _ Hc).
      - apply pages_of; lia.
      - apply Z.mod_pos_bound. unfold PGSIZE; lia. }
    split; [done|]. split; [done|]. intros va bs Hva. split.
    + rewrite <- Hold. apply copyout_other with (F := F1); try done; [apply St|apply St|]. intros va' Hva'. rewrite Hp. by apply HV.
    + rewrite <- Hnew. apply copyout_other with (F := F1); try done; [apply St|apply St|by apply disjoint_sym|].
      intros va' Hva'. apply (cp_flags _ _ _ _ _ _ Hc). apply pages_of; lia.
  - split; [done|]. split; [done|]. split; [done|]. split; [apply St|]. split.
    + intros p Hp'. destruct (proj2 (st_own _ _ _ _ _ St p) (or_introl Hp')) as [?|[?|(va & Hva & Hv & Hpa)]]; [by left|by right|].
      rewrite Hpn in Hv, Hpa by lia. destruct (as_data _ _ _ Hwn va Hva Hv) as (_ & Hno & _). by rewrite Hpa in Hno.
    + intros Hfo. destruct (free_unfilled_ok s1 new F1) as (s2 & F2 & H2 & Hf2 & Hi2); [apply St|apply St| |].
      { intros va Hva. rewrite Hpn by done. by apply Hfo. }
      exists s2, F2. split; [done|]. split; [done|]. intros p. rewrite Hi2. apply St.
Qed.

Lemma has_flags v f : Z.land 0x3FF f = f -> has v f = has (PTE_FLAGS v) f.
Proof. intros Hf. unfold has, PTE_FLAGS. by rewrite <- Z.land_assoc, Hf. Qed.

End life.

(** ** Instances *)

#[local] Existing Instances image0 image0_ok.

(** The memory [kinit] leaves, and a process of one writable page in it. *)
Definition new_page : K kmem Z :=
  kinit ;;; root <- uvmcreate ;; r <- uvmalloc root 0 PGSIZE PTE_W ;; kret root.

Lemma boot0 : exists s F, kinit (Kmem ∅ 0) = Ret tt s /\ free_pages s F /\ (10 <= length F)%nat.
Proof.
  destruct (kinit_pages (Kmem ∅ 0) eq_refl) as (s & F & H1 & Hf & Hall). exists s, F.
  split; [exact H1|]. split; [exact Hf|]. clear H1.
  assert (length (pages_from 10 0x80040000) <= length F)%nat as H; [|exact H].
  apply submseteq_length, NoDup_submseteq; [apply NoDup_pages_from|].
  intros p (i & Hi & ->)%elem_of_pages_from. apply Hall. unfold ram_page, PGSIZE, PHYSTOP, KERNBASE. cbn [kernel_end image0].
  split; [|lia]. by rewrite Z.mod_add by lia.
Qed.

Lemma sizes0 : 0 <= 5000 <= TRAPFRAME /\ 0 <= PGSIZE <= TRAPFRAME /\ 0 <= PTE_W < 1024 /\ 100 + 3 <= MAXVA.
Proof. by vm_compute. Qed.

Lemma make_and_free_conserves_witness : exists s F s' F', kinit (Kmem ∅ 0) = Ret tt s /\
  free_pages s F /\ make_and_free 5000 PTE_W s = Ret tt s' /\ free_pages s' F' /\ F' ≡ₚ F.
Proof.
  destruct boot0 as (s & F & H1 & Hf & _). exists s, F.
  destruct (make_and_free_conserves s F 5000 PTE_W Hf (proj1 sizes0)) as (s' & F' & H2 & H3 & H4);
    [apply sizes0|].
  exists s', F'. split; [exact H1|]. split; [exact Hf|]. split; [exact H2|]. split; [exact H3|]. exact H4.
Defined.

Lemma new_page_ok : exists root s F, new_page (Kmem ∅ 0) = Ret root s /\ free_pages s F /\
  as_wf (km_mem s) root F /\ (forall va, 0 <= va < PGSIZE -> writable (pte_of (km_mem s) root va) = true) /\
  (forall va, 0 <= va < PGSIZE -> has (pte_of (km_mem s) root va) PTE_V = true).
Proof.
  destruct boot0 as (s0 & F0 & H0 & Hf0 & Hl).
  destruct (uvmcreate_ok s0 F0 Hf0) as [[-> _]|(x & F1 & s1 & -> & Hx0 & H1 & Hf1 & Hw1 & Hp1 & _)]; [simpl in Hl; lia|].
  destruct (uvmalloc_ok s1 x F1 0 PGSIZE PTE_W Hf1 Hw1) as (r & s2 & F2 & H2 & St & Hr);
    [pose proof sizes0; lia|apply sizes0|apply sizes0|intros; apply Hp1|].
  exists x, s2, F2. split; [|split; [apply St|split; [apply St|]]].
  { unfold new_page. rewrite (kbind_ret _ _ _ _ _ H0), (kbind_ret _ _ _ _ _ H1), (kbind_ret _ _ _ _ _ H2). done. }
  clear H0 H1 H2. change (new_pages 0 PGSIZE) with 1 in Hr.
  assert (forall va, 0 <= va < PGSIZE -> in_range (PGROUNDUP 0) 1 va) as Hin
    by (intros va Hva; rewrite PGROUNDUP_0; unfold in_range; lia).
  destruct Hr as [[_ Ha]|(_ & Hn & _)]; [|simpl in Hl; lia]. split; intros va Hva.
  - destruct (al_perm _ _ _ _ _ _ Ha va (Hin va Hva)) as [HV HF]. unfold writable. rewrite HV. cbn [andb].
    rewrite (has_flags _ PTE_U), (has_flags _ PTE_W), HF by done. done.
  - by apply (al_perm _ _ _ _ _ _ Ha va (Hin va Hva)).
Qed.

Lemma copyout_copyin_witness : exists root s s', new_page (Kmem ∅ 0) = Ret root s /\
  copyout root 100 [1; 2; 3] s = Ret 0 s' /\ copyin root 100 3 s' = Ret (0, [1; 2; 3]) s'.
Proof.
  destruct new_page_ok as (root & s & F & H1 & Hf & Hw & Hwr & _). exists root, s.
  destruct (copyout_copyin s root F 100 [1; 2; 3] Hf Hw) as (s' & H2 & H3).
  - lia.
  - apply sizes0.
  - repeat constructor; lia.
  - intros i Hi. apply Hwr. simpl in Hi. unfold PGSIZE. lia.
  - exists s'. split; [exact H1|]. split; [exact H2|exact H3].
Defined.


(** A child that has an empty page table and a parent of one page. *)
Definition parent_and_child : K kmem (Z * Z) :=
  kinit ;;; new <- uvmcreate ;; old <- uvmcreate ;; r <- uvmalloc old 0 PGSIZE PTE_W ;; kret (old, new).

Lemma parent_and_child_ok : exists old new s F, parent_and_child (Kmem ∅ 0) = Ret (old, new) s /\
  free_pages s F /\ as_wf (km_mem s) old F /\ as_wf (km_mem s) new F /\ disjoint_as (km_mem s) old new /\
  (forall va, 0 <= va < PGSIZE -> has (pte_of (km_mem s) old va) PTE_V = true) /\
  (forall va, pte_of (km_mem s) new va = 0).
Proof.
  destruct boot0 as (s0 & F0 & H0 & Hf0 & Hl).
  destruct (uvmcreate_ok s0 F0 Hf0) as [[-> _]|(y & F1 & s1 & -> & Hy0 & H1 & Hf1 & Hw1 & Hp1 & Ho1 & _)]; [simpl in Hl; lia|].
  destruct (uvmcreate_ok s1 F1 Hf1) as [[-> _]|(x & F2 & s2 & -> & Hx0 & H2 & Hf2 & Hw2 & Hp2 & Ho2 & Hb2)]; [simpl in Hl; lia|].
  destruct (free_pages_head _ _ _ Hf1) as (_ & Hx & _).
  destruct (create_other s1 s2 y x F2 Hw1 Hx Ho2 Hb2) as (Hwy & Hd & Hpy).
  destruct (uvmalloc_ok s2 x F2 0 PGSIZE PTE_W Hf2 Hw2) as (r & s3 & F3 & H3 & St & Hr);
    [pose proof sizes0; lia|apply sizes0|apply sizes0|intros; apply Hp2|].
  destruct (other_kept s2 s3 x y F2 F3 Hf2 Hw2 St Hwy Hd) as (Hpy3 & Hwy3 & Hd3 & _).
  exists x, y, s3, F3. split.
  { unfold parent_and_child. rewrite (kbind_ret _ _ _ _ _ H0), (kbind_ret _ _ _ _ _ H1), (kbind_ret _ _ _ _ _ H2),
      (kbind_ret _ _ _ _ _ H3). reflexivity. }
  clear H0 H1 H2 H3. split; [apply St|]. split; [apply St|]. split; [done|]. split; [by apply disjoint_sym|].
  split; [|intros va; by rewrite Hpy3, Hpy].
  change (new_pages 0 PGSIZE) with 1 in Hr. destruct Hr as [[_ Ha]|(_ & Hn & _)]; [|simpl in Hl; lia].
  intros va Hva. apply (al_perm _ _ _ _ _ _ Ha). rewrite PGROUNDUP_0. unfold in_range. lia.
Qed.

Lemma fork_isolated_witness : exists old new s r s1, parent_and_child (Kmem ∅ 0) = Ret (old, new) s /\
  uvmcopy old new PGSIZE s = Ret r s1 /\
  user_bytes (Z.to_nat PGSIZE) (km_mem s1) old 0 = user_bytes (Z.to_nat PGSIZE) (km_mem s) old 0.
Proof.
  destruct parent_and_child_ok as (old & new & s & F & H0 & Hf & Hwo & Hwn & Hd & HV & Hz).
  destruct (fork_isolated s old new F PGSIZE Hf Hwo Hwn Hd) as (r & s1 & F1 & H1 & _ & H2 & _).
  - apply sizes0.
  - exact HV.
  - intros va _. apply Hz.
  - exists old, new, s, r, s1. split; [exact H0|]. split; [exact H1|exact H2].
Defined.

Lemma copyinstr_string_witness : exists root s bs, new_page (Kmem ∅ 0) = Ret root s /\
  copyinstr root MAXVA 16 s = Ret (-1, bs) s.
Proof.
  destruct new_page_ok as (root & s & F & H1 & _ & Hw & _). exists root, s.
  destruct (copyinstr_string s root F MAXVA 16 0 Hw) as [_ H2].
  - lia.
  - rewrite MAXVA_eq. lia.
  - lia.
  - destruct H2 as [bs H2]; [right; unfold in_ok; rewrite Z.add_0_r, Z.ltb_irrefl; reflexivity|].
    exists bs. split; [exact H1|exact H2].
Defined.
