(* ===== verification/VmKernel.v ===== *)
(** * The kernel's page table (kvmmake in kernel/vm.c)

    At boot the kernel builds the page table it runs on.  The theorem of this
    file says that this cannot run out of memory and which addresses are
    mapped, to what and with which rights. *)

From S2P Require Import Prelude Memory KString Kalloc KallocSpec Vm VmSpec VmMap VmCopy VmUser VmGrow VmLife.

Section paths.
Context `{I : KernelImage} `{Ok : !KernelImageOk I}.

(** ** Where page-table pages are added *)

Definition walk_path (level : nat) (va : Z) : list Z := map (fun l => PX (Z.of_nat l) va) (rev (seq 1 level)).

Lemma walk_path_S level va : walk_path (S level) va = PX (Z.of_nat (S level)) va :: walk_path level va.
Proof. unfold walk_path. rewrite seq_S, rev_app_distr. done. Qed.

(** Every page of the tree was there before or is on the way to an address of [V]. *)
Definition grown (m m' : memory) (root : Z) (V : Z -> Prop) : Prop := forall r p, path r -> node m' root r = Some p ->
  node m root r = Some p \/ exists va, V va /\ r `prefix_of` va_path va.

Lemma tree_grown_trans m1 m2 m3 root V : grown m1 m2 root V -> grown m2 m3 root V -> grown m1 m3 root V.
Proof. intros H1 H2 r p Hr Hn. destruct (H2 r p Hr Hn) as [H|?]; [by apply H1|by right]. Qed.

Lemma tree_grown_mono m m' root (V V' : Z -> Prop) : (forall va, V va -> V' va) -> grown m m' root V -> grown m m' root V'.
Proof. intros HV H r p Hr Hn. destruct (H r p Hr Hn) as [?|(va & ? & ?)]; [by left|right]. eauto. Qed.

Lemma walk_from_grown level : forall s root q pt va F r s',
  free_pages s F -> pt_wf (km_mem s) root F ->
  (length q + level = 2)%nat -> path q -> node (km_mem s) root q = Some pt -> 0 <= va < MAXVA -> q ++ walk_path level va = va_path va ->
  walk_from level pt va true s = Ret r s' -> grown (km_mem s) (km_mem s') root (eq va).
Proof.
  induction level as [|level IH]; intros s root q pt va F r s' Hf Hwf Hlen Hp Hq Hva Hqva.
  { cbn [walk_from]. intros [= <- <-]. by left. }
  rewrite walk_path_S in Hqva. set (i := PX (Z.of_nat (S level)) va) in *.
  assert (path (q ++ [i])) as Hpi.
  { destruct Hp as [Hp1 Hp2]. split; [|rewrite length_app; simpl; lia].
    apply Forall_app. split; [done|]. repeat constructor; apply PX_range; lia. }
  assert (q = [] -> i < 256) as Hlow.
  { intros ->. unfold i. simpl in Hlen. assert (level = 1%nat) as -> by lia.
    rewrite PX_eq by lia. rewrite MAXVA_eq in Hva. change (Z.of_nat 2) with 2.
    rewrite Z.mod_small; simpl; Z.div_mod_to_equations; lia. }
  assert ((q ++ [i]) ++ walk_path level va = va_path va) as Hqva' by by rewrite <- app_assoc.
  rewrite walk_from_step. cbv zeta. fold i. change (ld64 (km_mem s) (pt + 8 * i)) with (entry (km_mem s) pt i).
  assert (length (q ++ [i]) + level = 2)%nat as Hlen' by (rewrite length_app; simpl; lia).
  destruct (has (entry (km_mem s) pt i) PTE_V) eqn:Ev.
  - apply (IH s root (q ++ [i]) _ va F r s'); try done. by rewrite node_snoc, Hq, Ev.
  - destruct F as [|x F]; [rewrite (kbind_ret _ _ s 0 s) by (by rewrite (kbind_ret _ _ s 0 s (kalloc_none s Hf))); intros [= <- <-]; by left|].
    destruct (attach_step s root x F q pt i Hf Hwf Hpi Hlow Hq Ev) as (s1 & Hs1 & Hat & Hst & Hpte).
    destruct (free_pages_head _ _ _ Hf) as (_ & Hx & _). pose proof (ram_page_pos x Hx).
    pose proof (attached_node (km_mem s) (km_mem s1) root F x q pt i Hwf Hx Hpi Hq Ev Hat) as Hnode.
    rewrite (kbind_ret _ _ _ _ _ Hs1), (proj2 (Z.eqb_neq x 0)) by lia. intros Hw. apply (tree_grown_trans _ (km_mem s1)).
    + intros r' p Hr' Hn. rewrite Hnode in Hn by done. repeat case_decide; try done; [|by left]. right. exists va. split; [done|].
      subst r'. by exists (walk_path level va).
    + apply (IH s1 root (q ++ [i]) x va F r s'); try done; [apply Hst|apply Hst|]. rewrite Hnode by done. by rewrite decide_True.
Qed.

Lemma walk_grown s root va F r s' : free_pages s F -> pt_wf (km_mem s) root F -> 0 <= va < MAXVA -> walk root va true s = Ret r s' ->
  grown (km_mem s) (km_mem s') root (eq va).
Proof.
  intros Hf Hwf Hva. unfold walk. destruct (MAXVA <=? va) eqn:E; [lia|]. apply (walk_from_grown 2 s root [] root va F); try done.
  split; [constructor|simpl; lia].
Qed.

(** One round of [mappages]. *)
Lemma map_one_grown s root va F a s1 v (V : Z -> Prop) : free_pages s F -> pt_wf (km_mem s) root F -> 0 <= va < MAXVA -> V va ->
  walk root va true s = Ret a s1 -> a <> 0 ->
  let s2 := Kmem (st64 (km_mem s1) a v) (km_freelist s1) in
  grown (km_mem s) (km_mem s2) root V /\ exists F2, free_pages s2 F2 /\ pt_wf (km_mem s2) root F2.
Proof.
  intros Hf Hwf Hva HV Hw Ha s2. destruct (walk_alloc s root va F Hf Hwf Hva) as (a' & s1' & u1 & F1 & Hw' & Hst & _ & _ & Hr).
  rewrite Hw in Hw'. injection Hw' as <- <-. destruct Hr as [[? _]|[Hslot _]]; [done|].
  pose proof (set_leaf_step s1 root F1 va v a (ps_free _ _ _ _ _ _ Hst) (ps_wf _ _ _ _ _ _ Hst) Hslot) as Hst2. split.
  - intros r p Hr Hn. cbn [s2 km_mem] in Hn. rewrite (set_leaf_node _ _ F1 va) in Hn by (done || apply Hst).
    destruct (walk_grown s root va F a s1 Hf Hwf Hva Hw r p Hr Hn) as [?|(? & <- & ?)]; [by left|right]. eauto.
  - exists F1. split; apply Hst2.
Qed.

Lemma walk_fail_grown s root va F s1 (V : Z -> Prop) : free_pages s F -> pt_wf (km_mem s) root F -> 0 <= va < MAXVA -> V va ->
  walk root va true s = Ret 0 s1 -> grown (km_mem s) (km_mem s1) root V.
Proof. intros Hf Hwf Hva HV Hw. eapply tree_grown_mono; [|by eapply walk_grown]. by intros ? <-. Qed.

Lemma mappages_loop_grown n : forall s root va pa perm F r s',
  free_pages s F -> pt_wf (km_mem s) root F -> va mod PGSIZE = 0 -> 0 <= va -> va + Z.of_nat (S n) * PGSIZE <= MAXVA ->
  mappages_loop (S n) root va (va + Z.of_nat n * PGSIZE) pa perm s = Ret r s' ->
  grown (km_mem s) (km_mem s') root (in_range va (Z.of_nat (S n))).
Proof.
  induction n as [|n IH]; intros s root va pa perm F r s' Hf Hwf Hal H0 Hmax; rewrite mappages_loop_S.
  all: assert (0 <= va < MAXVA) as Hva by (unfold PGSIZE in *; lia).
  all: destruct (walk_alloc s root va F Hf Hwf Hva) as (a & s1 & u1 & F1 & Hw & _); rewrite (kbind_ret _ _ _ _ _ Hw).
  all: match goal with |- _ -> grown _ _ _ ?V => assert (V va) as HV by (unfold in_range, PGSIZE; lia) end.
  all: destruct (Z.eqb_spec a 0) as [->|Ha]; [intros [= <- <-]; by eapply walk_fail_grown|].
  all: destruct (map_one_grown s root va F a s1 (mk_pte pa perm) _ Hf Hwf Hva HV Hw Ha) as (Hg & F2 & Hf2 & Hwf2).
  all: unfold kbind at 1, kld64; case_match; [done|]; unfold kbind at 1, kst64; fold (mk_pte pa perm).
  - rewrite (proj2 (Z.eqb_eq _ _)) by lia. by intros [= <- <-].
  - rewrite (proj2 (Z.eqb_neq va _)) by (unfold PGSIZE; lia). rewrite (uint64_small (va + _)) by (rewrite MAXVA_eq in *; unfold PGSIZE in *; lia).
    replace (va + Z.of_nat (S n) * PGSIZE) with (va + PGSIZE + Z.of_nat n * PGSIZE) by lia. intros Hm.
    eapply tree_grown_trans; [exact Hg|]. eapply tree_grown_mono; [|eapply (IH _ _ _ _ _ F2); [done|done| | | |exact Hm]]; unfold in_range, PGSIZE in *; try lia.
    Z.div_mod_to_equations. lia.
Qed.

Lemma mappages_grown s root va size pa perm F r s' :
  free_pages s F -> pt_wf (km_mem s) root F ->
  va mod PGSIZE = 0 -> size mod PGSIZE = 0 -> 0 < size -> 0 <= va -> va + size <= MAXVA ->
  mappages root va size pa perm s = Ret r s' -> grown (km_mem s) (km_mem s') root (in_range va (size / PGSIZE)).
Proof.
  intros Hf Hwf Hal Hsz Hpos Hva Hmax. unfold mappages. rewrite Hal, Hsz. cbn [negb Z.eqb]. rewrite (proj2 (Z.eqb_neq size 0)) by lia.
  assert (exists n, size = Z.of_nat (S n) * PGSIZE) as [n Hn].
  { exists (Z.to_nat (size / PGSIZE - 1)). unfold PGSIZE in *. Z.div_mod_to_equations. lia. }
  assert (size / PGSIZE = Z.of_nat (S n)) as Hdiv by (rewrite Hn; apply Z.div_mul; unfold PGSIZE; lia).
  rewrite Hdiv, Nat2Z.id. rewrite uint64_small by (rewrite MAXVA_eq in *; unfold PGSIZE in *; lia).
  replace (va + size - PGSIZE) with (va + Z.of_nat n * PGSIZE) by lia. intros Hm. by eapply mappages_loop_grown; [| | | |lia|].
Qed.

(** A tree whose pages are on given paths has no more pages than paths. *)
Lemma pages_bound m root (U : list Z) (L : list (list Z)) : NoDup U -> (forall p, p ∈ U -> tree_page m root p) ->
  (forall r p, path r -> node m root r = Some p -> r ∈ L) -> (length U <= length L)%nat.
Proof.
  intros Hnd HU HL. transitivity (length (omap (node m root) L)).
  - apply submseteq_length, NoDup_submseteq; [done|]. intros p Hp. destruct (HU p Hp) as (r & Hr & Hn).
    apply list_elem_of_omap. exists r. split; [by eapply HL|done].
  - clear. induction L as [|r L IH]; [done|]. cbn. destruct (node m root r); cbn; lia.
Qed.
End paths.

(** ** What the kernel maps *)

Definition kernel_va (va : Z) : Prop :=
  PLIC <= va < VIRTIO0 + PGSIZE \/ KERNBASE <= va < PHYSTOP \/ MAXVA - 2 ^ 21 <= va < MAXVA.

(** The addresses as numbers. *)
Ltac kconsts := unfold in_range, kernel_va, KSTACK, PLIC, UART0, VIRTIO0, PHYSTOP, KERNBASE, TRAMPOLINE in *; rewrite ?MAXVA_eq in *;
  change (2 ^ 38) with 274877906944 in *; change (2 ^ 21) with 2097152 in *; unfold PGSIZE in *.

Section kernel.
Context `{I : KernelImage} `{Ok : !KernelImageOk I}.

(** The interrupt controller, the UART and the disk, whose registers follow
    each other, and RAM are mapped to themselves, the kernel's code read-only;
    the trampoline is also at the highest page, and below it are the stacks,
    each above a page that is not mapped.  [stk] are the pages of the stacks. *)
Definition kernel_map (stk : list Z) (va : Z) : option (Z * Z) :=
  let page := va / PGSIZE * PGSIZE in
  let below := TRAMPOLINE / PGSIZE - va / PGSIZE in
  if decide (PLIC <= va < VIRTIO0 + PGSIZE) then Some (page, Z.lor PTE_R PTE_W)
  else if decide (KERNBASE <= va < etext) then Some (page, Z.lor PTE_R PTE_X)
  else if decide (etext <= va < PHYSTOP) then Some (page, Z.lor PTE_R PTE_W)
  else if decide (TRAMPOLINE <= va < MAXVA) then Some (trampoline, Z.lor PTE_R PTE_X)
  else if decide (0 < below /\ below mod 2 = 0) then
    (fun x => (x, Z.lor PTE_R PTE_W)) <$> stk !! Z.to_nat (below / 2 - 1)
  else None.

Definition kernel_pte (stk : list Z) (va : Z) : Z :=
  match kernel_map stk va with Some (pa, perm) => mk_pte pa perm | None => 0 end.

(** The page-table pages this needs. *)
Definition kernel_paths : list (list Z) :=
  [[]; [0]; [2]; [255]; [0; 128]; [255; 511]] ++ map (fun i => [0; Z.of_nat i]) (seq 96 32) ++ map (fun i => [2; Z.of_nat i]) (seq 0 64).

Lemma elem_of_seq_path k i n (x : Z) : Z.of_nat i <= x < Z.of_nat (i + n) -> [k; x] ∈ map (fun i => [k; Z.of_nat i]) (seq i n).
Proof. intros Hx. apply list_elem_of_fmap. exists (Z.to_nat x). split; [by rewrite Z2Nat.id by lia|]. apply elem_of_seq. lia. Qed.

Lemma kernel_va_PX va : kernel_va va ->
  PX 2 va = 0 /\ (PX 1 va = 128 \/ 96 <= PX 1 va < 128) \/ PX 2 va = 2 /\ 0 <= PX 1 va < 64 \/ PX 2 va = 255 /\ PX 1 va = 511.
Proof.
  unfold kernel_va. rewrite !PX_eq, MAXVA_eq by lia. unfold PLIC, VIRTIO0, KERNBASE, PHYSTOP, PGSIZE, KERNBASE.
  change (2 ^ (12 + 9 * 2)) with 1073741824. change (2 ^ (12 + 9 * 1)) with 2097152. change (2 ^ 21) with 2097152. change (2 ^ 38) with 274877906944.
  intros [H|[H|H]]; Z.div_mod_to_equations; lia.
Qed.

Lemma kernel_va_paths va r : kernel_va va -> r `prefix_of` va_path va -> r ∈ kernel_paths.
Proof.
  intros Hva Hr. pose proof (kernel_va_PX va Hva) as HPX. unfold va_path, kernel_paths in *.
  destruct r as [|a r]; [by left|]. apply prefix_cons_inv_1 in Hr as Ha. apply prefix_cons_inv_2 in Hr. subst a.
  destruct r as [|b r].
  - apply elem_of_app. left. destruct HPX as [[-> _]|[[-> _]|[-> _]]]; set_solver.
  - apply prefix_cons_inv_1 in Hr as Hb. apply prefix_cons_inv_2, prefix_nil_inv in Hr. subst b r. rewrite !elem_of_app.
    destruct HPX as [[-> [->|H1]]|[[-> H1]|[-> ->]]]; [left; set_solver|right; left; apply elem_of_seq_path; lia|right; right; apply elem_of_seq_path; lia|left; set_solver].
Qed.

Lemma image_bounds : 0x80000000 < etext < 0x88000000 /\ etext mod 4096 = 0 /\ 0x80000000 <= trampoline < 0x88000000 /\ trampoline mod 4096 = 0.
Proof.
  pose proof etext_range. pose proof kernel_end_range. pose proof etext_aligned. pose proof trampoline_range. pose proof trampoline_aligned.
  unfold KERNBASE, PHYSTOP, PGSIZE, KERNBASE in *. lia.
Qed.

(** ** The invariant of the construction *)

Variable F0 : list Z.
Hypothesis Hnd : NoDup F0.
Hypothesis Hlen : (length kernel_paths + Z.to_nat NPROC < length F0)%nat.

(** The pages [F0] that were free are pages of the table, stacks and free pages. *)
Definition kpt (root : Z) (stk : list Z) (f : Z -> Z) (s : kmem) : Prop := exists T F,
  F0 ≡ₚ T ++ stk ++ F /\ free_pages s F /\ pt_wf (km_mem s) root F /\
  (forall p, p ∈ T -> tree_page (km_mem s) root p) /\ (forall p, p ∈ stk -> ~ tree_page (km_mem s) root p) /\
  (forall r p, path r -> node (km_mem s) root r = Some p -> r ∈ kernel_paths) /\
  (forall va, 0 <= va < MAXVA -> pte_of (km_mem s) root va = f va).

(** There is always a free page left. *)
Lemma kpt_free root stk T F m : F0 ≡ₚ T ++ stk ++ F -> (length stk <= Z.to_nat NPROC)%nat -> (forall p, p ∈ T -> tree_page m root p) ->
  (forall r p, path r -> node m root r = Some p -> r ∈ kernel_paths) -> F <> [].
Proof.
  intros HP Hs HT HL ->. pose proof (Permutation_length HP) as El. rewrite !length_app in El. cbn [length] in El.
  rewrite HP in Hnd. apply NoDup_app in Hnd as (HndT & _ & _). pose proof (pages_bound m root T kernel_paths HndT HT HL). lia.
Qed.

Lemma kvmmap_ok root stk f s va size pa perm : kpt root stk f s -> (length stk <= Z.to_nat NPROC)%nat ->
  va mod PGSIZE = 0 -> size mod PGSIZE = 0 -> 0 < size -> 0 <= va -> va + size <= MAXVA -> 0 <= pa -> pa + size <= 2 ^ 56 -> 0 <= perm < 1024 ->
  (forall va', in_range va (size / PGSIZE) va' -> has (f va') PTE_V = false /\ kernel_va va') ->
  exists s', kvmmap root va pa size perm s = Ret tt s' /\ kpt root stk (map_range f va (size / PGSIZE) pa perm) s'.
Proof.
  intros (T & F & HP & Hf & Hwf & HT & Hstk & HL & Hpte) Hs Hal Hsz Hpos Hva Hmax Hpa Hpa' Hperm Hfree.
  assert (forall va', in_range va (size / PGSIZE) va' -> 0 <= va' < MAXVA) as Hin by (intros va'; unfold in_range, PGSIZE in *; Z.div_mod_to_equations; lia).
  destruct (mappages_ok s root va size pa perm F) as (r & s' & used & F' & k & Hm & Hst & Hp & _ & Hr); try done.
  { intros va' Hv. rewrite Hpte by by apply Hin. by apply Hfree. }
  pose proof (mappages_grown s root va size pa perm F r s' Hf Hwf Hal Hsz Hpos Hva Hmax Hm) as Hg.
  assert (forall r p, path r -> node (km_mem s') root r = Some p -> r ∈ kernel_paths) as HL'.
  { intros q p Hq Hn. destruct (Hg q p Hq Hn) as [H|(va' & Hv & Hpre)]; [by eapply HL|]. eapply kernel_va_paths; [|done]. by apply Hfree. }
  assert (F0 ≡ₚ (T ++ used) ++ stk ++ F') as HP'.
  { rewrite HP, (ps_used _ _ _ _ _ _ Hst), <- app_assoc. apply Permutation_app_head. apply Permutation_app_swap_app. }
  assert (forall p, p ∈ T ++ used -> tree_page (km_mem s') root p) as HT'.
  { intros p [Hp'|Hp']%elem_of_app; [|by apply (ps_link _ _ _ _ _ _ Hst)]. destruct (HT p Hp') as (q & Hq & Hn). exists q.
    split; [done|]. by apply (ps_keep _ _ _ _ _ _ Hst). }
  pose proof (kpt_free root stk (T ++ used) F' (km_mem s') HP' Hs HT' HL') as Hne.
  destruct Hr as [[-> ->]|(_ & _ & ? & _)]; [|done]. exists s'. unfold kvmmap. rewrite (kbind_ret _ _ _ _ _ Hm). split; [done|].
  exists (T ++ used), F'. split_and!; [done|apply Hst|apply Hst|done| |done|].
  - intros p Hps Ht. destruct (ps_tree _ _ _ _ _ _ Hst p Ht) as [?|Hu]; [by eapply Hstk|].
    rewrite HP' in Hnd. apply NoDup_app in Hnd as (_ & Hd & _). apply (Hd p); apply elem_of_app; [by right|by left].
  - intros va' Hv. rewrite Hp by done. unfold map_range. case_decide; [done|]. by apply Hpte.
Qed.

Lemma kpt_ext root stk f g s : (forall va, 0 <= va < MAXVA -> f va = g va) -> kpt root stk f s -> kpt root stk g s.
Proof. intros E (T & F & H1 & H2 & H3 & H4 & H5 & H6 & H7). exists T, F. split_and!; try done. intros va Hva. by rewrite H7, E. Qed.

(** A page for a stack. *)
Lemma kalloc_stack root stk f s : kpt root stk f s -> (length stk < Z.to_nat NPROC)%nat ->
  exists x s', kalloc s = Ret x s' /\ ram_page x /\ kpt root (stk ++ [x]) f s'.
Proof.
  intros (T & F & HP & Hf & Hwf & HT & Hstk & HL & Hpte) Hs.
  destruct F as [|x F]; [by destruct (kpt_free root stk T [] (km_mem s)); try done; lia|].
  destruct (kalloc_some s x F Hf) as [Hk Hf']. destruct (free_pages_head s x F Hf) as (_ & Hx & HxF).
  set (s' := Kmem _ _) in *. exists x, s'. split; [done|]. split; [done|].
  assert (~ tree_page (km_mem s) root x) as Hxt by (intros Ht; destruct (tree_ram _ _ _ _ Hwf Ht) as [_ H]; apply H; left).
  assert (forall p b, tree_page (km_mem s) root p -> in_page p b -> ld8 (km_mem s') b = ld8 (km_mem s) b) as Hfr.
  { intros p b Hp Hb. cbn [s' km_mem]. rewrite ld8_memset_out; [done|]. destruct (tree_ram _ _ _ _ Hwf Hp) as [Hpr _].
    assert (p <> x) as Hne by congruence. pose proof (page_apart p x b Hpr Hx Hne Hb) as Ha. unfold in_page in Ha. lia. }
  destruct (pt_wf_frame _ (km_mem s') _ _ Hwf Hfr) as [Hwf' Htree]. exists T, F.
  split_and!; [by rewrite HP, <- app_assoc|done| | | | |].
  - destruct Hwf' as [H1 H2 H3 H4]. split; [|exact H2|exact H3|exact H4]. intros q p Hq Hn. destruct (H1 q p Hq Hn) as [? Hni]. split; [done|].
    intros Hp. apply Hni. by right.
  - intros p Hp. apply Htree. by apply HT.
  - intros p [Hp|Hp%list_elem_of_singleton]%elem_of_app; rewrite Htree; [by apply Hstk|by subst].
  - intros q p Hq. rewrite (tree_frame (km_mem s) (km_mem s') root (x :: F) Hwf Hfr q Hq). by apply HL.
  - intros va Hva. rewrite (pte_of_frame (km_mem s) (km_mem s') root (x :: F) va Hwf Hfr). by apply Hpte.
Qed.

(** ** The parts of the address space *)

(** The mappings of [kvmmake], in its order. *)
Definition kernel_maps (va : Z) : Z :=
  map_range (map_range (map_range (map_range (map_range (map_range (fun _ => 0)
    UART0 1 UART0 (Z.lor PTE_R PTE_W)) VIRTIO0 1 VIRTIO0 (Z.lor PTE_R PTE_W)) PLIC (0x4000000 / PGSIZE) PLIC (Z.lor PTE_R PTE_W))
    KERNBASE ((etext - KERNBASE) / PGSIZE) KERNBASE (Z.lor PTE_R PTE_X)) etext ((PHYSTOP - etext) / PGSIZE) etext (Z.lor PTE_R PTE_W))
    TRAMPOLINE 1 trampoline (Z.lor PTE_R PTE_X) va.

Lemma kernel_maps_pte va : 0 <= va < MAXVA -> kernel_maps va = kernel_pte [] va.
Proof.
  intros Hva. pose proof image_bounds. unfold kernel_maps, kernel_pte, kernel_map, map_range. rewrite lookup_nil.
  change (0x4000000 / PGSIZE) with 16384. kconsts.
  repeat case_decide; try (exfalso; Z.div_mod_to_equations; lia); try reflexivity; f_equal; Z.div_mod_to_equations; lia.
Qed.

(** The next stack. *)
Lemma kernel_pte_stack stk x va : 0 <= va < MAXVA -> (length stk < Z.to_nat NPROC)%nat ->
  map_range (kernel_pte stk) (KSTACK (Z.of_nat (length stk))) 1 x (Z.lor PTE_R PTE_W) va = kernel_pte (stk ++ [x]) va.
Proof.
  intros Hva Hl. change (Z.to_nat NPROC) with 64%nat in Hl. pose proof image_bounds. unfold map_range, kernel_pte, kernel_map. case_decide as Hr.
  - kconsts. repeat case_decide; try (exfalso; Z.div_mod_to_equations; lia).
    replace (Z.to_nat _) with (length stk) by (Z.div_mod_to_equations; lia). rewrite list_lookup_middle by done. cbn. f_equal. Z.div_mod_to_equations. lia.
  - repeat (case_decide; [done|]). case_decide as Hb; [|done]. set (j := Z.to_nat _).
    assert (j <> length stk) as Hj by (intros E; apply Hr; unfold j in E; kconsts; Z.div_mod_to_equations; lia).
    destruct (decide (j < length stk)%nat) as [Hlt|Hge]; [by rewrite lookup_app_l|].
    rewrite !lookup_ge_None_2 by (rewrite ?length_app; cbn [length]; lia). done.
Qed.

Lemma kstack_range i : (i < Z.to_nat NPROC)%nat -> let va := KSTACK (Z.of_nat i) in
  va mod PGSIZE = 0 /\ 0 <= va /\ va + PGSIZE <= MAXVA /\ forall va', in_range va 1 va' -> kernel_va va'.
Proof.
  intros Hi va. change (Z.to_nat NPROC) with 64%nat in Hi. unfold va.
  split_and!; [kconsts; Z.div_mod_to_equations; lia|kconsts; lia|kconsts; lia|intros va'; kconsts; lia].
Qed.

Lemma kernel_pte_free stk va : in_range (KSTACK (Z.of_nat (length stk))) 1 va -> (length stk < Z.to_nat NPROC)%nat -> has (kernel_pte stk va) PTE_V = false.
Proof.
  intros Hr Hl. change (Z.to_nat NPROC) with 64%nat in Hl. pose proof image_bounds. unfold kernel_pte, kernel_map. kconsts. repeat case_decide; try (exfalso; Z.div_mod_to_equations; lia).
  rewrite lookup_ge_None_2 by (Z.div_mod_to_equations; lia). done.
Qed.

Lemma proc_mapstacks_ok root : forall k stk s, (length stk + k = Z.to_nat NPROC)%nat -> Forall ram_page stk -> kpt root stk (kernel_pte stk) s ->
  exists stk' s', proc_mapstacks_loop k root (Z.of_nat (length stk)) s = Ret tt s' /\ length stk' = Z.to_nat NPROC /\ Forall ram_page stk' /\
    kpt root stk' (kernel_pte stk') s'.
Proof.
  induction k as [|k IH]; intros stk s Hk Hram Hs; cbn [proc_mapstacks_loop]; [exists stk, s; split_and!; (done || lia)|].
  assert (length stk < Z.to_nat NPROC)%nat as Hl by lia. destruct (kalloc_stack root stk _ s Hs Hl) as (x & s1 & Ha & Hx & Hs1).
  rewrite (kbind_ret _ _ _ _ _ Ha). pose proof (ram_page_pos x Hx) as Hx0. pose proof (ram_page_bound x Hx) as Hxb. rewrite (proj2 (Z.eqb_neq x 0)) by lia.
  destruct (kstack_range (length stk) Hl) as (V1 & V2 & V3 & V4).
  destruct (kvmmap_ok root (stk ++ [x]) (kernel_pte stk) s1 (KSTACK (Z.of_nat (length stk))) PGSIZE x (Z.lor PTE_R PTE_W)) as (s2 & Hm & Hs2);
    [done|rewrite length_app; cbn [length]; lia|done|done|done|done|done|lia|unfold PHYSTOP, KERNBASE in Hxb; lia|done| |].
  { intros va' Hv. split; [by apply kernel_pte_free|by apply V4]. }
  rewrite (kbind_ret _ _ _ _ _ Hm). replace (Z.of_nat (length stk) + 1) with (Z.of_nat (length (stk ++ [x]))) by (rewrite length_app; cbn [length]; lia).
  apply IH; [rewrite length_app; cbn [length]; lia|apply Forall_app; split; [done|by apply Forall_singleton]|]. eapply kpt_ext; [|exact Hs2]. intros va Hva. by apply kernel_pte_stack.
Qed.

(** One of the first mappings: it does not overlap the ones before. *)
Ltac kvm_step H va pa size perm :=
  match type of H with kpt ?root [] ?f ?s =>
    let s1 := fresh "s" in let Hm := fresh "Hm" in let H1 := fresh "Hs" in
    destruct (kvmmap_ok root [] f s va size pa perm H) as (s1 & Hm & H1);
    [cbn [length]; lia|kconsts; Z.div_mod_to_equations; lia|kconsts; Z.div_mod_to_equations; lia|kconsts; lia|kconsts; lia|kconsts; lia|kconsts; lia|kconsts; lia|done
    |intros va' Hv; split; [unfold map_range; rewrite ?decide_False by (kconsts; Z.div_mod_to_equations; lia); done|kconsts; Z.div_mod_to_equations; lia]|];
    rewrite (kbind_ret _ _ _ _ _ Hm); clear Hm H
  end.

Lemma kvmmake_ok s0 : free_pages s0 F0 -> exists root stk s, kvmmake s0 = Ret root s /\ length stk = Z.to_nat NPROC /\ Forall ram_page stk /\
  kpt root stk (kernel_pte stk) s.
Proof.
  intros Hf. destruct (uvmcreate_ok s0 F0 Hf) as [[E _]|(root & F & s1 & E & Hr0 & Hu & Hf1 & Hwf & Hpte & Hown & _)]; [rewrite E in Hlen; cbn [length] in Hlen; lia|].
  assert (kpt root [] (fun _ => 0) s1) as Hs.
  { exists [root], F. split_and!; [by rewrite E|done|apply Hwf| |by intros p ?%elem_of_nil| |done].
    - intros p ->%list_elem_of_singleton. exists []. split; [|done]. split; [constructor|cbn; lia].
    - intros r p Hr Hn. assert (p = root) as -> by (apply Hown; left; by exists r).
      rewrite (wf_inj _ _ _ (as_tree _ _ _ Hwf) r [] root Hr) by (done || by split; [constructor|cbn; lia]). by left. }
  unfold kvmmake. unfold uvmcreate in Hu. apply kbind_inv in Hu as (x & s' & Ha & Hu). rewrite (kbind_ret _ _ _ _ _ Ha).
  destruct (x =? 0) eqn:Ex; [injection Hu as <- <-; lia|]. apply kbind_inv in Hu as ([] & s2 & Hset & Hu). injection Hu as -> ->.
  rewrite (kbind_ret _ _ _ _ _ Hset). pose proof image_bounds as HB.
  kvm_step Hs UART0 UART0 PGSIZE (Z.lor PTE_R PTE_W).
  kvm_step Hs0 VIRTIO0 VIRTIO0 PGSIZE (Z.lor PTE_R PTE_W).
  kvm_step Hs PLIC PLIC 0x4000000 (Z.lor PTE_R PTE_W).
  kvm_step Hs0 KERNBASE KERNBASE (etext - KERNBASE) (Z.lor PTE_R PTE_X).
  kvm_step Hs etext etext (PHYSTOP - etext) (Z.lor PTE_R PTE_W).
  kvm_step Hs0 TRAMPOLINE trampoline PGSIZE (Z.lor PTE_R PTE_X).
  apply (kpt_ext _ _ _ (kernel_pte [])) in Hs; [|exact kernel_maps_pte].
  destruct (proc_mapstacks_ok root (Z.to_nat NPROC) [] _ ltac:(cbn [length]; lia) ltac:(constructor) Hs) as (stk & s9 & Hm & Hl & Hram & Hk).
  exists root, stk, s9. split; [|done]. unfold proc_mapstacks. by rewrite (kbind_ret _ _ _ _ _ Hm).
Qed.
End kernel.

Section theorem.
Context `{I : KernelImage} `{Ok : !KernelImageOk I}.

Lemma ram_length F : kernel_end <= PHYSTOP - 0x100000 -> (forall p, p ∈ F <-> ram_page p) -> (255 <= length F)%nat.
Proof.
  intros He Hall. assert (length (pages_from 255 0x87f01000) <= length F)%nat as H; [|exact H].
  apply submseteq_length, NoDup_submseteq; [apply NoDup_pages_from|].
  intros p (i & Hi & ->)%elem_of_pages_from. apply Hall. unfold ram_page, PGSIZE, PHYSTOP, KERNBASE in *.
  split; [|lia]. by rewrite Z.mod_add by lia.
Qed.

(** No page is both writable and executable, and none is for the user. *)
Lemma kernel_rights stk va : Forall ram_page stk -> 0 <= va < MAXVA -> let pte := kernel_pte stk va in
  has pte PTE_U = false /\ (has pte PTE_W = true -> has pte PTE_X = false).
Proof.
  intros Hram Hva pte. unfold pte, kernel_pte. destruct (kernel_map stk va) as [[pa perm]|] eqn:E; [|by rewrite !has_0].
  assert (0 <= pa < 2 ^ 56 /\ (perm = Z.lor PTE_R PTE_W \/ perm = Z.lor PTE_R PTE_X)) as [Hpa Hp].
  { pose proof image_bounds as HB. unfold kernel_map in E. change (2 ^ 56) with 72057594037927936.
    repeat (case_decide; [injection E as <- <-; split; [kconsts; Z.div_mod_to_equations; lia|tauto]|]). case_decide; [|done].
    destruct (stk !! _) as [x|] eqn:Ex; [|done]. injection E as <- <-. split; [|tauto]. apply ram_page_56. by eapply Forall_lookup_1. }
  rewrite mk_pte_lor. destruct Hp as [-> | ->]; rewrite !has_pte by (done || exact Hpa); done.
Qed.

(** C10: Booting, [kvmmake] builds the kernel's page table and does not run out of
    memory, when the kernel leaves a megabyte of RAM.  Exactly these addresses
    are mapped: the device registers and RAM to themselves, the kernel's code
    readable and executable, the rest of RAM readable and writable, the
    trampoline page at the top, and for each process a stack of its own in a
    page of RAM that is in no other use, above a page that is not mapped.  No
    page is writable and executable, and none is accessible in user mode. *)
Theorem kernel_page_table s0 : km_freelist s0 = 0 -> kernel_end <= PHYSTOP - 0x100000 ->
  exists root stk s F, kbind kinit (fun _ => kvmmake) s0 = Ret root s /\ free_pages s F /\ pt_wf (km_mem s) root F /\
    length stk = Z.to_nat NPROC /\ NoDup stk /\
    (forall p, p ∈ stk -> ram_page p /\ (p ∉ F) /\ ~ tree_page (km_mem s) root p) /\
    forall va, 0 <= va < MAXVA -> pte_of (km_mem s) root va = kernel_pte stk va /\
      has (kernel_pte stk va) PTE_U = false /\ (has (kernel_pte stk va) PTE_W = true -> has (kernel_pte stk va) PTE_X = false).
Proof.
  intros H0 He. destruct (kinit_pages s0 H0) as (s1 & F0 & H1 & Hf & Hall). pose proof (ram_length F0 He Hall) as Hlen.
  assert (NoDup F0) as Hnd by apply Hf.
  destruct (kvmmake_ok F0 Hnd ltac:(change (length kernel_paths) with 102%nat; change (Z.to_nat NPROC) with 64%nat; lia) s1 Hf) as (root & stk & s & Hk & Hl & Hram & T & F & HP & Hf' & Hwf & _ & Hstk & _ & Hpte).
  exists root, stk, s, F. rewrite HP in Hnd. apply NoDup_app in Hnd as (_ & _ & Hnd). apply NoDup_app in Hnd as (Hnds & Hd & _).
  split_and!; [by rewrite (kbind_ret _ _ _ _ _ H1)|done|done|done|done| |].
  - intros p Hp. split; [by eapply Forall_forall in Hram|]. split; [by apply Hd|by apply Hstk].
  - intros va Hva. split; [by apply Hpte|by apply kernel_rights].
Qed.
End theorem.

Lemma kernel_page_table_witness : exists root (stk : list Z) s, kbind (@kinit image0) (fun _ => @kvmmake image0) (Kmem ∅ 0) = Ret root s /\
  pte_of (km_mem s) root KERNBASE = mk_pte KERNBASE (Z.lor PTE_R PTE_X) /\
  pte_of (km_mem s) root (KSTACK 0) = mk_pte (default 0 (stk !! 0%nat)) (Z.lor PTE_R PTE_W) /\ pte_of (km_mem s) root (KSTACK 0 - PGSIZE) = 0.
Proof.
  destruct (@kernel_page_table image0 image0_ok (Kmem ∅ 0) eq_refl ltac:(vm_compute; discriminate)) as (root & stk & s & F & H1 & _ & _ & Hl & _ & _ & Hp).
  exists root, stk, s. split; [exact H1|]. clear H1. destruct stk as [|x stk]; [discriminate Hl|].
  assert (forall va, (0 <=? va) && (va <? MAXVA) = true -> pte_of (km_mem s) root va = @kernel_pte image0 (x :: stk) va) as Hq
    by (intros va Hva; apply Hp; lia).
  split; [rewrite Hq; [vm_compute; reflexivity|vm_compute; reflexivity]|]. split; [|rewrite Hq; [vm_compute; reflexivity|vm_compute; reflexivity]].
  rewrite Hq by (vm_compute; reflexivity). unfold kernel_pte.
  assert (@kernel_map image0 (x :: stk) (KSTACK 0) = Some (x, Z.lor PTE_R PTE_W)) as -> by (vm_compute; reflexivity). reflexivity.
Defined.
