(* ===== verification/Sleeplock.v ===== *)
(** * Sleep locks

    kernel/sleeplock.c.  The spinlock inside a sleep lock makes each of its
    operations atomic; a process that finds the lock taken goes to sleep,
    which is the outcome [Sleep].  The [wakeup] of [releasesleep] acts on the
    process table, and is performed where that is part of the state ([liftW]
    of KState.v). *)

From S2P Require Import Prelude.

(** struct sleeplock: the fields [locked] and [pid]. *)
Record sleeplock := Sleeplock { sl_locked : bool; sl_pid : Z }.

Definition initsleeplock : sleeplock := Sleeplock false 0.

(** [pid] is the process that makes the call. *)
Definition acquiresleep (pid : Z) : K sleeplock unit := fun lk =>
  if sl_locked lk then Sleep lk else Ret tt (Sleeplock true pid).

Definition releasesleep : K sleeplock unit := fun lk => Ret tt (Sleeplock false 0).

Definition holdingsleep (pid : Z) : K sleeplock bool := fun lk =>
  Ret (sl_locked lk && (sl_pid lk =? pid)) lk.
