(* ===== verification/Bio.v ===== *)
(** * The buffer cache

    kernel/bio.c over a block device: the array of buffers and the list that
    orders them by last use, with the operations on them. *)

From S2P Require Import Prelude Sleeplock.

Definition BSIZE : Z := 1024.
Definition MAXOPBLOCKS : Z := 10.
Definition LOGSIZE : Z := MAXOPBLOCKS * 3.
Definition NBUF : nat := 30.

Definition block := list Z.
Definition zero_block : block := replicate (Z.to_nat BSIZE) 0.

(** struct buf; the field [disk] is the driver's and the links are the order
    of [bc_list]. *)
Record buf := Buf {
  b_valid : bool;
  b_dev : Z;
  b_blockno : Z;
  b_lock : sleeplock;
  b_refcnt : Z;
  b_data : block
}.

Definition buf0 : buf := Buf false 0 0 initsleeplock 0 zero_block.

(** The device: its blocks, and the writes it has completed, in order. *)
Record disk := Disk { dk_blocks : gmap Z block; dk_writes : list (Z * block) }.

Definition disk_block (d : disk) (b : Z) : block := default zero_block (dk_blocks d !! b).
Definition disk_write (d : disk) (b : Z) (v : block) : disk :=
  Disk (<[b := v]> (dk_blocks d)) (dk_writes d ++ [(b, v)]).

(** The buffers [bcache.buf], the list from [head.next] to [head.prev] as
    indices into them, the disk, and the running process. *)
Record bstate := BState {
  bc_buf : list buf;
  bc_list : list nat;
  bc_disk : disk;
  bc_pid : Z
}.

Definition getb (s : bstate) (i : nat) : buf := default buf0 (bc_buf s !! i).
Definition setb (s : bstate) (i : nat) (x : buf) : bstate :=
  BState (<[i := x]> (bc_buf s)) (bc_list s) (bc_disk s) (bc_pid s).

Definition set_refcnt (n : Z) (x : buf) : buf :=
  Buf (b_valid x) (b_dev x) (b_blockno x) (b_lock x) n (b_data x).
Definition set_lock (lk : sleeplock) (x : buf) : buf :=
  Buf (b_valid x) (b_dev x) (b_blockno x) lk (b_refcnt x) (b_data x).
Definition set_data (d : block) (x : buf) : buf :=
  Buf (b_valid x) (b_dev x) (b_blockno x) (b_lock x) (b_refcnt x) d.
Definition set_valid (v : bool) (x : buf) : buf :=
  Buf v (b_dev x) (b_blockno x) (b_lock x) (b_refcnt x) (b_data x).

(** Reading and writing the fields of a buffer through its pointer. *)
Definition bufget (i : nat) : K bstate buf := fun s => Ret (getb s i) s.
Definition bufmod (i : nat) (f : buf -> buf) : K bstate unit := fun s => Ret tt (setb s i (f (getb s i))).

(** An operation on the sleep lock of buffer [i]. *)
Definition buflock {A} (i : nat) (op : Z -> K sleeplock A) : K bstate A := fun s =>
  match op (bc_pid s) (b_lock (getb s i)) with
  | Ret a lk => Ret a (setb s i (set_lock lk (getb s i)))
  | Panic msg => Panic msg
  | Sleep lk => Sleep (setb s i (set_lock lk (getb s i)))
  | Diverge => Diverge
  end.

(** Each buffer is put at the head of the list. *)
Fixpoint binit_loop (n : nat) (b : nat) (l : list nat) : list nat :=
  match n with
  | O => l
  | S n' => binit_loop n' (S b) (b :: l)
  end.

Definition binit (d : disk) (pid : Z) : bstate :=
  BState (replicate NBUF buf0) (binit_loop NBUF 0 []) d pid.

Definition bmatch (s : bstate) (dev blockno : Z) (i : nat) : bool :=
  (b_dev (getb s i) =? dev) && (b_blockno (getb s i) =? blockno).

Definition bget (dev blockno : Z) : K bstate nat :=
  s <- kget ;;
  match find (bmatch s dev blockno) (bc_list s) with
  | Some b =>
      bufmod b (fun x => set_refcnt (uint32 (b_refcnt x + 1)) x) ;;;
      buflock b acquiresleep ;;; kret b
  | None =>
      match find (fun i => b_refcnt (getb s i) =? 0) (rev (bc_list s)) with
      | Some b =>
          bufmod b (fun x => Buf false dev blockno (b_lock x) 1 (b_data x)) ;;;
          buflock b acquiresleep ;;; kret b
      | None => panic "bget: no buffers"
      end
  end.

(** What the driver's [virtio_disk_rw] does to the buffer and the device by
    the time it returns. *)
Definition virtio_disk_rw (b : nat) (write : bool) : K bstate unit := fun s =>
  let x := getb s b in
  if write then
    Ret tt (BState (bc_buf s) (bc_list s) (disk_write (bc_disk s) (b_blockno x) (b_data x)) (bc_pid s))
  else Ret tt (setb s b (set_data (disk_block (bc_disk s) (b_blockno x)) x)).

Definition bread (dev blockno : Z) : K bstate nat :=
  b <- bget dev blockno ;;
  x <- bufget b ;;
  (if negb (b_valid x) then virtio_disk_rw b false ;;; bufmod b (set_valid true) else kret tt) ;;;
  kret b.

Definition bwrite (b : nat) : K bstate unit :=
  h <- buflock b holdingsleep ;;
  if negb h then panic "bwrite" else virtio_disk_rw b true.

Definition move_to_head (b : nat) : K bstate unit := fun s =>
  Ret tt (BState (bc_buf s) (b :: filter (fun i => i <> b) (bc_list s)) (bc_disk s) (bc_pid s)).

Definition brelse (b : nat) : K bstate unit :=
  h <- buflock b holdingsleep ;;
  if negb h then panic "brelse"
  else
    buflock b (fun _ => releasesleep) ;;;
    bufmod b (fun x => set_refcnt (uint32 (b_refcnt x - 1)) x) ;;;
    x <- bufget b ;;
    if b_refcnt x =? 0 then move_to_head b else kret tt.

Definition bpin (b : nat) : K bstate unit :=
  bufmod b (fun x => set_refcnt (uint32 (b_refcnt x + 1)) x).

Definition bunpin (b : nat) : K bstate unit :=
  bufmod b (fun x => set_refcnt (uint32 (b_refcnt x - 1)) x).
