(* ===== verification/BioSpec.v ===== *)
(** * The buffer cache as a block store

    What the layers above rely on: seen through the cache, every block has
    one current value ([view]), a count of the references to its buffer
    ([refs]) and a lock ([lockof]).  Each operation of Bio.v is shown to be
    the expected change of these functions; recycling a buffer is invisible. *)

From S2P Require Import Prelude Sleeplock Bio.

(** Pointwise update of a function on block numbers. *)
Definition fupd {A} (f : Z -> A) (b : Z) (x : A) : Z -> A := fun b' => if decide (b' = b) then x else f b'.

Lemma fupd_same {A} (f : Z -> A) b x : fupd f b x b = x.
Proof. unfold fupd. by rewrite decide_True. Qed.

Lemma fupd_other {A} (f : Z -> A) b x b' : b' <> b -> fupd f b x b' = f b'.
Proof. intros. unfold fupd. by rewrite decide_False. Qed.

(** The buffers in use: those that may not be recycled. *)
Definition busy (x : buf) : Prop := 0 < b_refcnt x.
#[export] Instance busy_dec x : Decision (busy x).
Proof. unfold busy. apply _. Defined.

Definition in_use (s : bstate) : nat := length (filter busy (bc_buf s)).
Definition busy_bit (x : buf) : nat := if 0 <? b_refcnt x then 1%nat else 0%nat.

Section bio.
Variable dev : Z.

(** The buffer that holds block [b], found as [bget] finds it. *)
Definition slot (s : bstate) (b : Z) : option nat := find (bmatch s dev b) (bc_list s).

Definition view (s : bstate) (b : Z) : block :=
  match slot s b with
  | Some i => if b_valid (getb s i) then b_data (getb s i) else disk_block (bc_disk s) b
  | None => disk_block (bc_disk s) b
  end.

Definition refs (s : bstate) (b : Z) : Z :=
  match slot s b with Some i => b_refcnt (getb s i) | None => 0 end.

Definition lockof (s : bstate) (b : Z) : sleeplock :=
  match slot s b with Some i => b_lock (getb s i) | None => initsleeplock end.

(** The list holds every buffer once and a block is in at most one buffer. *)
Record bstruct (s : bstate) : Prop := {
  bi_len : length (bc_buf s) = NBUF;
  bi_list : bc_list s ≡ₚ seq 0 NBUF;
  bi_uniq : forall i j, (i < NBUF)%nat -> (j < NBUF)%nat ->
    b_dev (getb s i) = dev -> b_dev (getb s j) = dev ->
    b_blockno (getb s i) = b_blockno (getb s j) -> i = j
}.

(** A buffer in use is valid; one that is not is unlocked and clean. *)
Record buf_ok (d : disk) (x : buf) : Prop := {
  bo_ref : 0 <= b_refcnt x < 2 ^ 32;
  bo_valid : 0 < b_refcnt x -> b_valid x = true /\ b_dev x = dev;
  bo_idle : b_refcnt x = 0 -> b_lock x = initsleeplock;
  bo_clean : b_refcnt x = 0 -> b_valid x = true -> b_dev x = dev ->
    b_data x = disk_block d (b_blockno x)
}.

Record binv (s : bstate) : Prop := {
  bi_struct : bstruct s;
  bi_ok : forall i, (i < NBUF)%nat -> buf_ok (bc_disk s) (getb s i)
}.

(** ** Looking up buffers *)

Lemma getb_setb s i x j : (i < length (bc_buf s))%nat ->
  getb (setb s i x) j = if decide (i = j) then x else getb s j.
Proof.
  intros Hi. unfold getb, setb. cbn [bc_buf]. case_decide as H.
  - subst j. by rewrite list_lookup_insert_eq.
  - by rewrite list_lookup_insert_ne.
Qed.

Lemma slot_iff s b i : bstruct s ->
  slot s b = Some i <-> (i < NBUF)%nat /\ b_dev (getb s i) = dev /\ b_blockno (getb s i) = b.
Proof.
  intros Hs. unfold slot, bmatch.
  assert (forall j, In j (bc_list s) <-> (j < NBUF)%nat) as Hin.
  { intros j. rewrite (bi_list s Hs), in_seq. lia. }
  split.
  - intros [H1 H2]%find_some. apply Hin in H1. apply andb_true_iff in H2 as [H2 H3].
    apply Z.eqb_eq in H2, H3. done.
  - intros (Hi & Hd & Hb). destruct (find _ _) as [j|] eqn:E.
    + apply find_some in E as [H1 H2]. apply Hin in H1. apply andb_true_iff in H2 as [H2 H3].
      apply Z.eqb_eq in H2, H3. f_equal. apply (bi_uniq s Hs); congruence.
    + pose proof (find_none _ _ E i (proj2 (Hin i) Hi)) as Hn. simpl in Hn.
      rewrite Hd, Hb, !Z.eqb_refl in Hn. done.
Qed.

Lemma slot_lt s b i : bstruct s -> slot s b = Some i -> (i < NBUF)%nat.
Proof. intros Hs H. by apply (slot_iff s b i Hs) in H as (? & _). Qed.

Lemma slot_key s b i : bstruct s -> slot s b = Some i ->
  b_dev (getb s i) = dev /\ b_blockno (getb s i) = b.
Proof. intros Hs H. by apply (slot_iff s b i Hs) in H as (_ & ? & ?). Qed.

Lemma slot_inj s b b' i : bstruct s -> slot s b = Some i -> slot s b' = Some i -> b = b'.
Proof. intros Hs [_ <-]%slot_key [_ <-]%slot_key; done. Qed.

(** Two states whose buffers have the same keys find the same buffers. *)
Lemma slot_ext s s' b : bstruct s -> bstruct s' ->
  (forall i, (i < NBUF)%nat -> b_dev (getb s' i) = b_dev (getb s i) /\ b_blockno (getb s' i) = b_blockno (getb s i)) ->
  slot s' b = slot s b.
Proof.
  intros Hs Hs' H. destruct (slot s b) as [i|] eqn:E.
  - apply (slot_iff s b i Hs) in E as (Hi & Hd & Hb). apply slot_iff; [done|].
    destruct (H i Hi) as [-> ->]. done.
  - destruct (slot s' b) as [i|] eqn:E'; [|done].
    apply (slot_iff s' b i Hs') in E' as (Hi & Hd & Hb). destruct (H i Hi) as [H1 H2].
    assert (slot s b = Some i) by (apply slot_iff; [done|]; by rewrite <- H1, <- H2). congruence.
Qed.

Lemma bstruct_ext s s' : bstruct s -> length (bc_buf s') = NBUF -> bc_list s' ≡ₚ bc_list s ->
  (forall i, (i < NBUF)%nat -> b_dev (getb s' i) = b_dev (getb s i) /\ b_blockno (getb s' i) = b_blockno (getb s i)) ->
  bstruct s'.
Proof.
  intros [H1 H2 H3] Hl Hp H. split; [done|by rewrite Hp|].
  intros i j Hi Hj. destruct (H i Hi) as [-> ->], (H j Hj) as [-> ->]. by apply H3.
Qed.

(** ** Counting the buffers in use *)

Lemma filter_insert_length (l : list buf) i x y : l !! i = Some y ->
  (length (filter busy (<[i := x]> l)) + busy_bit y = length (filter busy l) + busy_bit x)%nat.
Proof.
  revert i. induction l as [|z l IH]; intros i H; [done|].
  destruct i as [|i]; simpl in H.
  - injection H as ->. change (<[0%nat := x]> (y :: l)) with (x :: l). rewrite !filter_cons. unfold busy_bit, busy.
    destruct (0 <? b_refcnt x) eqn:E1, (0 <? b_refcnt y) eqn:E2;
      apply Z.ltb_lt in E1 || apply Z.ltb_ge in E1; apply Z.ltb_lt in E2 || apply Z.ltb_ge in E2;
      repeat case_decide; simpl; lia.
  - change (<[S i := x]> (z :: l)) with (z :: <[i := x]> l). rewrite !filter_cons. specialize (IH i H).
    case_decide; simpl; lia.
Qed.

Lemma getb_lookup s i : (i < length (bc_buf s))%nat -> bc_buf s !! i = Some (getb s i).
Proof. intros Hi. unfold getb. by destruct (lookup_lt_is_Some_2 _ _ Hi) as [x ->]. Qed.

Lemma in_use_setb s i x : (i < length (bc_buf s))%nat ->
  (in_use (setb s i x) + busy_bit (getb s i) = in_use s + busy_bit x)%nat.
Proof. intros Hi. by apply filter_insert_length, getb_lookup. Qed.

Lemma filter_busy_all (l : list buf) : Forall busy l -> filter busy l = l.
Proof. induction 1 as [|x l Hx _ IH]; [done|]. by rewrite filter_cons_True, IH. Qed.

Lemma in_use_idle s : bstruct s -> (in_use s < NBUF)%nat -> (forall i, (i < NBUF)%nat -> 0 <= b_refcnt (getb s i)) ->
  exists i, (i < NBUF)%nat /\ b_refcnt (getb s i) = 0.
Proof.
  intros Hs Hu H0. unfold in_use in Hu. rewrite <- (bi_len s Hs) in Hu.
  destruct (decide (Exists (fun x => ~ busy x) (bc_buf s))) as [He|He].
  - apply Exists_exists in He as (x & Hx & Hb). apply list_elem_of_lookup in Hx as [i Hi].
    exists i. pose proof (lookup_lt_Some _ _ _ Hi) as Hl. rewrite (bi_len s Hs) in Hl. split; [done|].
    specialize (H0 i Hl). unfold getb in *. rewrite Hi in *. simpl in *. unfold busy in Hb. lia.
  - exfalso. assert (filter busy (bc_buf s) = bc_buf s) as Hf; [|rewrite Hf in Hu; lia].
    apply filter_busy_all. apply Forall_forall. intros x Hx.
    destruct (decide (busy x)); [done|]. exfalso. apply He. apply Exists_exists. by exists x.
Qed.

(** ** What an operation does *)

(** From [s] the operation leads to [s'], where the blocks have the contents
    [v], the reference counts [r] and the locks [l]. *)
Record bsem (s s' : bstate) (v : Z -> block) (r : Z -> Z) (l : Z -> sleeplock) (d : disk) (u : nat) : Prop := {
  bs_inv : binv s';
  bs_view : forall b, view s' b = v b;
  bs_refs : forall b, refs s' b = r b;
  bs_lock : forall b, lockof s' b = l b;
  bs_disk : bc_disk s' = d;
  bs_used : in_use s' = u;
  bs_pid : bc_pid s' = bc_pid s;
  bs_slot : forall b i, slot s b = Some i -> 0 < refs s b -> slot s' b = Some i
}.

(** Replacing a buffer by one with the same key. *)
Lemma setb_struct s i x : bstruct s -> (i < NBUF)%nat ->
  b_dev x = b_dev (getb s i) -> b_blockno x = b_blockno (getb s i) ->
  bstruct (setb s i x) /\ forall b, slot (setb s i x) b = slot s b.
Proof.
  intros Hs Hi Hd Hb.
  assert (forall j, (j < NBUF)%nat -> b_dev (getb (setb s i x) j) = b_dev (getb s j) /\
    b_blockno (getb (setb s i x) j) = b_blockno (getb s j)) as Hk.
  { intros j Hj. rewrite getb_setb by (by rewrite (bi_len s Hs)). case_decide; [by subst|done]. }
  assert (bstruct (setb s i x)) as Hs'.
  { eapply bstruct_ext; [exact Hs| |done|done]. unfold setb. cbn [bc_buf]. by rewrite length_insert, (bi_len s Hs). }
  split; [done|]. intros b. by apply slot_ext.
Qed.

Lemma setb_ok s b i x u : binv s -> slot s b = Some i ->
  b_dev x = dev -> b_blockno x = b -> b_valid x = true -> buf_ok (bc_disk s) x ->
  (u + busy_bit (getb s i) = in_use s + busy_bit x)%nat ->
  bsem s (setb s i x) (fupd (view s) b (b_data x)) (fupd (refs s) b (b_refcnt x))
    (fupd (lockof s) b (b_lock x)) (bc_disk s) u.
Proof.
  intros [Hs Hok] Hsl Hd Hb Hv Hx Hu. pose proof (slot_lt _ _ _ Hs Hsl) as Hi.
  destruct (slot_key _ _ _ Hs Hsl) as [Hd' Hb'].
  destruct (setb_struct s i x Hs Hi) as [Hs' Hslot]; [congruence|congruence|].
  assert (forall j, getb (setb s i x) j = if decide (i = j) then x else getb s j) as Hg
    by (intros j; apply getb_setb; by rewrite (bi_len s Hs)).
  assert (forall b' j, slot s b' = Some j -> b' <> b -> i <> j) as Hne.
  { intros b' j H1 H2 ->. apply H2. by apply (slot_inj s b' b j). }
  split.
  - split; [done|]. intros j Hj. rewrite Hg. case_decide; [done|by apply Hok].
  - intros b'. unfold view, fupd. rewrite Hslot. case_decide as Hbb.
    + subst b'. rewrite Hsl, Hg, decide_True by done. by rewrite Hv.
    + destruct (slot s b') as [j|] eqn:E; [|done]. rewrite Hg, decide_False by (by eapply Hne). done.
  - intros b'. unfold refs, fupd. rewrite Hslot. case_decide as Hbb.
    + subst b'. by rewrite Hsl, Hg, decide_True by done.
    + destruct (slot s b') as [j|] eqn:E; [|done]. by rewrite Hg, decide_False by (by eapply Hne).
  - intros b'. unfold lockof, fupd. rewrite Hslot. case_decide as Hbb.
    + subst b'. by rewrite Hsl, Hg, decide_True by done.
    + destruct (slot s b') as [j|] eqn:E; [|done]. by rewrite Hg, decide_False by (by eapply Hne).
  - done.
  - pose proof (in_use_setb s i x ltac:(by rewrite (bi_len s Hs))). lia.
  - done.
  - intros b' j Hj _. by rewrite Hslot.
Qed.

(** Giving an idle buffer to block [b]: all the contents stay as they are. *)
Lemma recycle_ok s b i x : binv s -> slot s b = None -> (i < NBUF)%nat -> b_refcnt (getb s i) = 0 ->
  b_dev x = dev -> b_blockno x = b -> b_valid x = true -> b_refcnt x = 1 -> b_data x = disk_block (bc_disk s) b ->
  bsem s (setb s i x) (view s) (fupd (refs s) b 1) (fupd (lockof s) b (b_lock x)) (bc_disk s) (S (in_use s)) /\
  slot (setb s i x) b = Some i.
Proof.
  intros [Hs Hok] Hsl Hi Href Hd Hb Hv Hr Hdata.
  assert (forall j, getb (setb s i x) j = if decide (i = j) then x else getb s j) as Hg
    by (intros j; apply getb_setb; by rewrite (bi_len s Hs)).
  assert (forall j, (j < NBUF)%nat -> i <> j -> b_dev (getb s j) = dev -> b_blockno (getb s j) <> b) as Hnb.
  { intros j Hj Hne Hdj Hbj. assert (slot s b = Some j) by (by apply slot_iff). congruence. }
  assert (bstruct (setb s i x)) as Hs'.
  { split; [unfold setb; cbn [bc_buf]; by rewrite length_insert, (bi_len s Hs)|apply Hs|].
    intros j k Hj Hk. rewrite !Hg. repeat case_decide; subst; try done.
    - intros _ Hdk He. exfalso. by apply (Hnb k).
    - intros Hdj _ He. exfalso. by apply (Hnb j).
    - by apply (bi_uniq s Hs). }
  assert (slot (setb s i x) b = Some i) as Hsi by (apply slot_iff; [done|]; rewrite Hg, decide_True; done).
  assert (forall b', b' <> b -> slot s b' = Some i \/ slot (setb s i x) b' = slot s b') as Hother.
  { intros b' Hne. destruct (decide (slot s b' = Some i)) as [|Hn]; [by left|right].
    destruct (slot s b') as [j|] eqn:E.
    - apply (slot_iff s b' j Hs) in E as (Hj & Hdj & Hbj). apply slot_iff; [done|].
      rewrite Hg. case_decide; [congruence|done].
    - destruct (slot (setb s i x) b') as [j|] eqn:E'; [|done].
      apply (slot_iff _ b' j Hs') in E' as (Hj & Hdj & Hbj). rewrite Hg in Hdj, Hbj.
      case_decide; [congruence|]. assert (slot s b' = Some j) by (by apply slot_iff). congruence. }
  assert (forall b', b' <> b -> slot s b' = Some i -> slot (setb s i x) b' = None) as Hgone.
  { intros b' Hne Hb'. destruct (slot (setb s i x) b') as [j|] eqn:E; [|done].
    apply (slot_iff _ b' j Hs') in E as (Hj & Hdj & Hbj). rewrite Hg in Hdj, Hbj.
    case_decide as Hij; [congruence|]. exfalso. apply Hij.
    destruct (slot_key _ _ _ Hs Hb'). by apply (bi_uniq s Hs); congruence. }
  assert (forall b' j, b' <> b -> slot s b' = Some j -> i <> j -> getb (setb s i x) j = getb s j) as Hsame
    by (intros b' j _ _ Hij; by rewrite Hg, decide_False).
  split; [|done]. split.
  - split; [done|]. intros j Hj. rewrite Hg. case_decide; [|by apply Hok].
    split; rewrite ?Hr; try lia. by intros _.
  - intros b'. unfold view. destruct (decide (b' = b)) as [->|Hne].
    { rewrite Hsi, Hsl, Hg, decide_True, Hv by done. done. }
    destruct (Hother b' Hne) as [Hb'|Hb'].
    + rewrite (Hgone b' Hne Hb'), Hb'. destruct (b_valid (getb s i)) eqn:Ev; [|done].
      destruct (slot_key _ _ _ Hs Hb') as [Hk1 Hk2].
      symmetry. rewrite <- Hk2. by apply (bo_clean _ _ (Hok i Hi)).
    + rewrite Hb'. destruct (slot s b') as [j|] eqn:E; [|done].
      rewrite Hg. case_decide; [|done]. subst j. rewrite (Hgone b' Hne E) in Hb'. done.
  - intros b'. unfold refs, fupd. case_decide as Hne; [subst; by rewrite Hsi, Hg, decide_True|].
    destruct (Hother b' Hne) as [Hb'|Hb'].
    + by rewrite (Hgone b' Hne Hb'), Hb'.
    + rewrite Hb'. destruct (slot s b') as [j|] eqn:E; [|done].
      rewrite Hg. case_decide; [|done]. subst j. rewrite (Hgone b' Hne E) in Hb'. done.
  - intros b'. unfold lockof, fupd. case_decide as Hne; [subst; by rewrite Hsi, Hg, decide_True|].
    destruct (Hother b' Hne) as [Hb'|Hb'].
    + rewrite (Hgone b' Hne Hb'), Hb'. symmetry. by apply (bo_idle _ _ (Hok i Hi)).
    + rewrite Hb'. destruct (slot s b') as [j|] eqn:E; [|done].
      rewrite Hg. case_decide; [|done]. subst j. rewrite (Hgone b' Hne E) in Hb'. done.
  - done.
  - pose proof (in_use_setb s i x ltac:(by rewrite (bi_len s Hs))) as Hu. unfold busy_bit in Hu.
    rewrite Href, Hr in Hu. simpl in Hu. lia.
  - done.
  - intros b' j Hj Hpos. assert (b' <> b) as Hne by congruence.
    destruct (Hother b' Hne) as [Hb'|Hb']; [|congruence].
    unfold refs in Hpos. rewrite Hb', Href in Hpos. lia.
Qed.

(** ** The operations *)

Lemma setb_setb s i x y : setb (setb s i x) i y = setb s i y.
Proof. unfold setb. cbn [bc_buf bc_list bc_disk bc_pid]. by rewrite list_insert_insert_eq. Qed.

Lemma view_slot s b i : binv s -> slot s b = Some i -> 0 < refs s b ->
  b_data (getb s i) = view s b /\ b_valid (getb s i) = true /\ b_refcnt (getb s i) = refs s b /\
  b_lock (getb s i) = lockof s b.
Proof.
  intros [Hs Hok] Hsl. unfold refs, view, lockof. rewrite Hsl. intros Hr.
  destruct (bo_valid _ _ (Hok i (slot_lt _ _ _ Hs Hsl)) Hr) as [Hv _]. by rewrite Hv.
Qed.

(** [bread] of a cached block. *)
Lemma bread_hit s b i : bstruct s -> slot s b = Some i ->
  sl_locked (lockof s b) = false -> 0 <= refs s b -> refs s b + 1 < 2 ^ 32 ->
  bread dev b s =
    Ret i (setb s i (Buf true dev b (Sleeplock true (bc_pid s)) (refs s b + 1) (view s b))).
Proof.
  intros Hs Hsl. unfold lockof, refs, view. rewrite Hsl. intros Hlk Hr0 Hr.
  pose proof (slot_lt _ _ _ Hs Hsl) as Hi. destruct (slot_key _ _ _ Hs Hsl) as [Hd Hb].
  assert (forall x, getb (setb s i x) i = x) as Hg
    by (intros x; rewrite getb_setb by (by rewrite (bi_len s Hs)); by rewrite decide_True).
  unfold bread, bget, kbind, kget. fold (slot s b). rewrite Hsl.
  unfold bufmod, buflock, acquiresleep, kret, bufget. rewrite !Hg. cbn [set_refcnt b_lock].
  rewrite Hlk, setb_setb, !Hg. cbn [set_lock set_refcnt b_valid].
  rewrite uint32_small by lia.
  destruct (b_valid (getb s i)) eqn:Hv; cbn [negb].
  - destruct (getb s i); cbn in *. by subst.
  - unfold virtio_disk_rw. cbv beta zeta iota. rewrite ?Hg, ?setb_setb.
    destruct (getb s i) as [v0 d0 b0 l0 r0 x0]. cbn in Hd, Hb. subst d0 b0. rewrite ?Hg. reflexivity.
Qed.

(** [bread] of a block that is not cached. *)
Lemma bread_miss s b i : bstruct s -> slot s b = None ->
  find (fun i => b_refcnt (getb s i) =? 0) (rev (bc_list s)) = Some i -> (i < NBUF)%nat ->
  b_lock (getb s i) = initsleeplock ->
  bread dev b s =
    Ret i (setb s i (Buf true dev b (Sleeplock true (bc_pid s)) 1 (disk_block (bc_disk s) b))).
Proof.
  intros Hs Hsl Hf Hi Hlk.
  assert (forall x, getb (setb s i x) i = x) as Hg
    by (intros x; rewrite getb_setb by (by rewrite (bi_len s Hs)); by rewrite decide_True).
  unfold bread, bget, kbind, kget. fold (slot s b). rewrite Hsl, Hf.
  unfold bufmod, buflock, acquiresleep, kret, bufget. rewrite !Hg. cbn [b_lock].
  rewrite Hlk. cbn [initsleeplock sl_locked]. rewrite setb_setb, !Hg. cbn [set_lock b_valid negb].
  unfold virtio_disk_rw. cbv beta zeta iota. rewrite ?Hg, ?setb_setb, ?Hg. done.
Qed.

Lemma refs_nonneg s b : binv s -> 0 <= refs s b.
Proof.
  intros [Hs Hok]. unfold refs. destruct (slot s b) as [i|] eqn:E; [|lia].
  apply (bo_ref _ _ (Hok i (slot_lt _ _ _ Hs E))).
Qed.

(** A block nobody refers to is the same in the cache and on disk. *)
Lemma view_idle s b : binv s -> refs s b = 0 -> view s b = disk_block (bc_disk s) b.
Proof.
  intros [Hs Hok]. unfold refs, view. destruct (slot s b) as [i|] eqn:E; [|done]. intros Hr.
  destruct (b_valid (getb s i)) eqn:Ev; [|done]. destruct (slot_key _ _ _ Hs E) as [Hd Hb].
  rewrite <- Hb. by apply (bo_clean _ _ (Hok i (slot_lt _ _ _ Hs E))).
Qed.

Lemma bread_ok s b :
  binv s -> sl_locked (lockof s b) = false -> refs s b + 1 < 2 ^ 32 ->
  (refs s b = 0 -> (in_use s < NBUF)%nat) ->
  exists i s', bread dev b s = Ret i s' /\ slot s' b = Some i /\
    bsem s s' (view s) (fupd (refs s) b (refs s b + 1)) (fupd (lockof s) b (Sleeplock true (bc_pid s)))
      (bc_disk s) (in_use s + if (refs s b =? 0)%Z then 1 else 0)%nat.
Proof.
  intros Hinv Hlk Hr32 Huse. pose proof Hinv as [Hs Hok]. pose proof (refs_nonneg s b Hinv) as Hr0.
  destruct (slot s b) as [i|] eqn:Hsl.
  - rewrite (bread_hit s b i) by done.
    pose proof (slot_lt _ _ _ Hs Hsl) as Hi. destruct (slot_key _ _ _ Hs Hsl) as [Hd Hb].
    set (x := Buf _ _ _ _ _ _). exists i, (setb s i x). split; [done|].
    split; [destruct (setb_struct s i x Hs Hi) as [_ ->]; done|].
    destruct (setb_ok s b i x (in_use s + if (refs s b =? 0)%Z then 1 else 0)%nat Hinv Hsl)
      as [B1 B2 B3 B4 B5 B6 B7 B8]; try done.
    { split; cbn [x b_refcnt b_valid b_dev]; (lia || done). }
    { unfold busy_bit. cbn [x b_refcnt]. unfold refs. rewrite Hsl. unfold refs in Hr0. rewrite Hsl in Hr0.
      destruct (0 <? b_refcnt (getb s i)) eqn:E1, (b_refcnt (getb s i) =? 0) eqn:E2,
        (0 <? b_refcnt (getb s i) + 1) eqn:E3; lia. }
    split; try done. intros b'. rewrite B2. unfold fupd. by case_decide; subst.
  - assert (refs s b = 0) as Hr by (unfold refs; by rewrite Hsl). rewrite Hr in *.
    destruct (in_use_idle s Hs (Huse eq_refl)) as (j & Hj & Hjr).
    { intros j Hj. apply (bo_ref _ _ (Hok j Hj)). }
    destruct (find (fun i => b_refcnt (getb s i) =? 0) (rev (bc_list s))) as [i|] eqn:Hf.
    2:{ exfalso. assert (In j (rev (bc_list s))) as Hin.
        { rewrite <- in_rev, (bi_list s Hs), in_seq. lia. }
        pose proof (find_none _ _ Hf j Hin) as Hn. simpl in Hn. rewrite Hjr in Hn. done. }
    apply find_some in Hf as Hf'. destruct Hf' as [Hin Hri].
    rewrite <- in_rev, (bi_list s Hs), in_seq in Hin. apply Z.eqb_eq in Hri.
    assert (i < NBUF)%nat as Hi by lia.
    rewrite (bread_miss s b i); try done; [|by apply (bo_idle _ _ (Hok i Hi))].
    set (x := Buf _ _ _ _ _ _). exists i, (setb s i x). split; [done|].
    destruct (recycle_ok s b i x Hinv Hsl Hi Hri) as [Hb Hsl']; try done.
    split; [done|]. rewrite Nat.add_1_r. done.
Qed.

(** Writing the data of a buffer that the caller holds. *)
Lemma setdata_ok s b i d : binv s -> slot s b = Some i -> 0 < refs s b ->
  bsem s (setb s i (set_data d (getb s i))) (fupd (view s) b d) (refs s) (lockof s) (bc_disk s) (in_use s).
Proof.
  intros Hinv Hsl Hr. destruct (view_slot s b i Hinv Hsl Hr) as (Hd & Hv & Hrc & Hl).
  pose proof Hinv as [Hs Hok]. destruct (slot_key _ _ _ Hs Hsl) as [Hk1 Hk2].
  pose proof (Hok i (slot_lt _ _ _ Hs Hsl)) as [Ho1 Ho2 Ho3 Ho4].
  destruct (setb_ok s b i (set_data d (getb s i)) (in_use s) Hinv Hsl) as [B1 B2 B3 B4 B5 B6 B7 B8]; try done.
  { split; cbn [set_data b_refcnt b_valid b_dev b_lock]; try done; lia. }
  split; try done.
  - intros b'. rewrite B3. unfold fupd. case_decide; subst; [|done]. by cbn [set_data b_refcnt].
  - intros b'. rewrite B4. unfold fupd. case_decide; subst; [|done]. by cbn [set_data b_lock].
Qed.

Lemma holding_eq s i pid : b_lock (getb s i) = Sleeplock true pid -> bc_pid s = pid ->
  buflock i holdingsleep s = Ret true (setb s i (getb s i)).
Proof.
  intros Hl Hp. unfold buflock, holdingsleep. rewrite Hl, Hp. cbn [sl_locked sl_pid andb].
  rewrite Z.eqb_refl. f_equal. f_equal. destruct (getb s i); cbn in *. by subst.
Qed.

Lemma setb_id s i : (i < length (bc_buf s))%nat -> setb s i (getb s i) = s.
Proof.
  intros Hi. destruct s as [l ls d p]. unfold setb. cbn in *. f_equal.
  apply list_insert_id. unfold getb. cbn. by destruct (lookup_lt_is_Some_2 l i Hi) as [x ->].
Qed.

Lemma bwrite_ok s b i :
  binv s -> slot s b = Some i -> 0 < refs s b -> lockof s b = Sleeplock true (bc_pid s) ->
  exists s', bwrite i s = Ret tt s' /\
    bsem s s' (view s) (refs s) (lockof s) (disk_write (bc_disk s) b (view s b)) (in_use s).
Proof.
  intros Hinv Hsl Hr Hlk. pose proof Hinv as [Hs Hok].
  destruct (view_slot s b i Hinv Hsl Hr) as (Hd & Hv & Hrc & Hl).
  pose proof (slot_lt _ _ _ Hs Hsl) as Hi. destruct (slot_key _ _ _ Hs Hsl) as [Hk1 Hk2].
  unfold bwrite. rewrite Hlk in Hl.
  rewrite (kbind_ret _ _ _ _ _ (holding_eq s i (bc_pid s) Hl eq_refl)). cbn [negb].
  rewrite setb_id by (by rewrite (bi_len s Hs)). unfold virtio_disk_rw. rewrite Hk2, Hd.
  eexists. split; [reflexivity|]. set (s' := BState _ _ _ _).
  assert (bstruct s') as Hs' by (by destruct Hs).
  assert (forall b', slot s' b' = slot s b') as Hslot by done.
  split; try done.
  - split; [done|]. intros j Hj. change (getb s' j) with (getb s j). pose proof (Hok j Hj) as [Ho1 Ho2 Ho3 Ho4].
    split; try done. intros H0 H1 H2. rewrite (Ho4 H0 H1 H2). unfold s', disk_block, disk_write.
    cbn [bc_disk dk_blocks]. rewrite lookup_insert_ne; [done|]. intros Hb.
    assert (j = i) as -> by (apply (bi_uniq s Hs); congruence). lia.
  - intros b'. unfold view at 1. rewrite Hslot. unfold view.
    destruct (slot s b') as [j|] eqn:E.
    + change (getb s' j) with (getb s j). destruct (b_valid (getb s j)) eqn:Ev; [done|].
      unfold s', disk_block, disk_write. cbn [bc_disk dk_blocks].
      rewrite lookup_insert_ne; [done|]. intros <-. congruence.
    + unfold s', disk_block, disk_write. cbn [bc_disk dk_blocks].
      rewrite lookup_insert_ne; [done|]. intros <-. congruence.
Qed.

(** Changing the reference count of a buffer in use, and its lock. *)
Lemma setref_ok s b i n lk u : binv s -> slot s b = Some i -> 0 < refs s b -> 0 <= n < 2 ^ 32 ->
  (n = 0 -> lk = initsleeplock /\ view s b = disk_block (bc_disk s) b) ->
  (u + 1 = in_use s + if (0 <? n)%Z then 1 else 0)%nat ->
  bsem s (setb s i (set_lock lk (set_refcnt n (getb s i)))) (view s) (fupd (refs s) b n)
    (fupd (lockof s) b lk) (bc_disk s) u.
Proof.
  intros Hinv Hsl Hr Hn Hz Hu. destruct (view_slot s b i Hinv Hsl Hr) as (Hd & Hv & Hrc & Hl).
  pose proof Hinv as [Hs Hok]. destruct (slot_key _ _ _ Hs Hsl) as [Hk1 Hk2].
  set (x := set_lock lk (set_refcnt n (getb s i))).
  destruct (setb_ok s b i x u Hinv Hsl) as [B1 B2 B3 B4 B5 B6 B7 B8]; try done.
  { split; cbn [x set_lock set_refcnt b_refcnt b_valid b_dev b_lock b_data b_blockno]; try done.
    - intros H. by apply Hz.
    - intros H _ _. rewrite Hd, Hk2. by apply Hz. }
  { unfold busy_bit. cbn [x set_lock set_refcnt b_refcnt]. rewrite Hrc.
    replace (0 <? refs s b) with true by (symmetry; by apply Z.ltb_lt). done. }
  split; try done. intros b'. rewrite B2. unfold fupd. case_decide; subst; [|done]. done.
Qed.

(** Reordering the list changes nothing else. *)
Lemma relist_ok s l v r lk d u s0 : bsem s0 s v r lk d u -> l ≡ₚ bc_list s ->
  bsem s0 (BState (bc_buf s) l (bc_disk s) (bc_pid s)) v r lk d u.
Proof.
  intros [[Hs Hok] B2 B3 B4 B5 B6 B7 B8] Hl. set (s' := BState _ _ _ _).
  assert (bstruct s') as Hs'.
  { destruct Hs as [H1 H2 H3]. split; try done. cbn [s' bc_list]. by rewrite Hl. }
  assert (forall b, slot s' b = slot s b) as Hslot by (intros b; by apply slot_ext).
  split; try done.
  - intros b. unfold view. rewrite Hslot. apply B2.
  - intros b. unfold refs. rewrite Hslot. apply B3.
  - intros b. unfold lockof. rewrite Hslot. apply B4.
  - intros b i. rewrite Hslot. apply B8.
Qed.

Lemma to_head_perm (l : list nat) i : NoDup l -> i ∈ l -> i :: filter (fun j => j <> i) l ≡ₚ l.
Proof.
  induction l as [|j l IH]; intros Hnd Hin; [by apply elem_of_nil in Hin|].
  apply NoDup_cons in Hnd as [Hj Hnd]. destruct (decide (j = i)) as [->|Hne].
  - rewrite filter_cons_False by tauto.
    assert (filter (fun j => j <> i) l = l) as ->; [|done]. clear IH Hnd Hin. induction l as [|k l IH]; [done|].
    apply not_elem_of_cons in Hj as [Hk Hj]. rewrite filter_cons_True by congruence. by rewrite IH.
  - apply elem_of_cons in Hin as [->|Hin]; [done|]. rewrite filter_cons_True by done.
    rewrite (Permutation_swap j i). by rewrite IH.
Qed.

Lemma brelse_ok s b i :
  binv s -> slot s b = Some i -> 0 < refs s b -> lockof s b = Sleeplock true (bc_pid s) ->
  (refs s b = 1 -> view s b = disk_block (bc_disk s) b) ->
  exists s', brelse i s = Ret tt s' /\
    bsem s s' (view s) (fupd (refs s) b (refs s b - 1)) (fupd (lockof s) b initsleeplock) (bc_disk s)
      (in_use s - if (refs s b =? 1)%Z then 1 else 0)%nat.
Proof.
  intros Hinv Hsl Hr Hlk Hclean. pose proof Hinv as [Hs Hok].
  destruct (view_slot s b i Hinv Hsl Hr) as (Hd & Hv & Hrc & Hl).
  pose proof (slot_lt _ _ _ Hs Hsl) as Hi. destruct (slot_key _ _ _ Hs Hsl) as [Hk1 Hk2].
  pose proof (bo_ref _ _ (Hok i Hi)) as Hrange.
  assert (forall x, getb (setb s i x) i = x) as Hg
    by (intros x; rewrite getb_setb by (by rewrite (bi_len s Hs)); by rewrite decide_True).
  rewrite Hlk in Hl. unfold brelse.
  rewrite (kbind_ret _ _ _ _ _ (holding_eq s i (bc_pid s) Hl eq_refl)). cbn [negb].
  rewrite setb_id by (by rewrite (bi_len s Hs)).
  unfold kbind, buflock, releasesleep, bufmod, bufget. rewrite setb_setb, !Hg.
  cbn [set_lock set_refcnt b_refcnt b_lock b_valid b_dev b_blockno b_data].
  rewrite Hrc in *. rewrite uint32_small by lia.
  change (Buf (b_valid (getb s i)) (b_dev (getb s i)) (b_blockno (getb s i)) (Sleeplock false 0) (refs s b - 1) (b_data (getb s i)))
    with (set_lock initsleeplock (set_refcnt (refs s b - 1) (getb s i))).
  set (x := set_lock initsleeplock (set_refcnt (refs s b - 1) (getb s i))).
  change (set_refcnt (refs s b - 1) (set_lock {| sl_locked := false; sl_pid := 0 |} (getb s i))) with x.
  assert (1 <= in_use s)%nat as Hge.
  { unfold in_use. pose proof (getb_lookup s i ltac:(by rewrite (bi_len s Hs))) as Hlook.
    assert (getb s i ∈ filter busy (bc_buf s)) as Hin.
    { apply list_elem_of_filter. split; [unfold busy; lia|]. by eapply list_elem_of_lookup_2. }
    destruct (filter busy (bc_buf s)); [by apply elem_of_nil in Hin|simpl; lia]. }
  assert (bsem s (setb s i x) (view s) (fupd (refs s) b (refs s b - 1)) (fupd (lockof s) b initsleeplock) (bc_disk s)
      (in_use s - if (refs s b =? 1)%Z then 1 else 0)%nat) as Hsem.
  { apply setref_ok; try done; [lia| |].
    - intros H0. split; [done|]. apply Hclean. lia.
    - destruct (refs s b =? 1) eqn:E1, (0 <? refs s b - 1) eqn:E2; lia. }
  destruct (refs s b - 1 =? 0) eqn:E; [|by exists (setb s i x)].
  unfold move_to_head. eexists. split; [reflexivity|]. apply (relist_ok (setb s i x)); [exact Hsem|].
  apply to_head_perm; cbn [setb bc_list].
  - rewrite (bi_list s Hs). apply NoDup_ListNoDup, seq_NoDup.
  - rewrite (bi_list s Hs). apply elem_of_seq. lia.
Qed.

Lemma bpin_ok s b i :
  binv s -> slot s b = Some i -> 0 < refs s b -> refs s b + 1 < 2 ^ 32 ->
  exists s', bpin i s = Ret tt s' /\
    bsem s s' (view s) (fupd (refs s) b (refs s b + 1)) (lockof s) (bc_disk s) (in_use s).
Proof.
  intros Hinv Hsl Hr Hr32. destruct (view_slot s b i Hinv Hsl Hr) as (Hd & Hv & Hrc & Hl).
  eexists. split; [reflexivity|]. cbv beta. rewrite Hrc, uint32_small by lia.
  assert (set_refcnt (refs s b + 1) (getb s i) = set_lock (lockof s b) (set_refcnt (refs s b + 1) (getb s i))) as ->.
  { unfold set_lock, set_refcnt. cbn. by rewrite Hl. }
  destruct (setref_ok s b i (refs s b + 1) (lockof s b) (in_use s) Hinv Hsl Hr) as [B1 B2 B3 B4 B5 B6 B7 B8];
    [lia|lia| |].
  { replace (0 <? refs s b + 1) with true by (symmetry; apply Z.ltb_lt; lia). done. }
  split; try done. intros b'. rewrite B4. unfold fupd. by case_decide; subst.
Qed.

Lemma bunpin_ok s b i :
  binv s -> slot s b = Some i -> 1 < refs s b ->
  exists s', bunpin i s = Ret tt s' /\
    bsem s s' (view s) (fupd (refs s) b (refs s b - 1)) (lockof s) (bc_disk s) (in_use s).
Proof.
  intros Hinv Hsl Hr. destruct (view_slot s b i Hinv Hsl ltac:(lia)) as (Hd & Hv & Hrc & Hl).
  pose proof Hinv as [Hs Hok]. pose proof (bo_ref _ _ (Hok i (slot_lt _ _ _ Hs Hsl))) as Hrange.
  eexists. split; [reflexivity|]. cbv beta. rewrite Hrc in *. rewrite uint32_small by lia.
  assert (set_refcnt (refs s b - 1) (getb s i) = set_lock (lockof s b) (set_refcnt (refs s b - 1) (getb s i))) as ->.
  { unfold set_lock, set_refcnt. cbn. by rewrite Hl. }
  destruct (setref_ok s b i (refs s b - 1) (lockof s b) (in_use s) Hinv Hsl ltac:(lia)) as [B1 B2 B3 B4 B5 B6 B7 B8];
    [lia|lia| |].
  { replace (0 <? refs s b - 1) with true by (symmetry; apply Z.ltb_lt; lia). done. }
  split; try done. intros b'. rewrite B4. unfold fupd. by case_decide; subst.
Qed.

Lemma binit_ok d pid : dev <> 0 ->
  binv (binit d pid) /\ (forall b, view (binit d pid) b = disk_block d b) /\
  (forall b, refs (binit d pid) b = 0) /\ (forall b, lockof (binit d pid) b = initsleeplock) /\
  in_use (binit d pid) = 0%nat.
Proof.
  intros Hdev. set (s := binit d pid).
  assert (forall i, getb s i = buf0) as Hg.
  { intros i. unfold getb, s, binit. cbn [bc_buf].
    destruct (replicate NBUF buf0 !! i) as [x|] eqn:E; [|done].
    by apply lookup_replicate_1 in E as [-> _]. }
  assert (binv s) as Hinv.
  { split.
    - split; [done| |intros i j _ _; rewrite !Hg; cbn [buf0 b_dev]; congruence].
      cbn [s binit bc_list]. change (binit_loop NBUF 0 []) with (rev (seq 0 NBUF)).
      apply Permutation_sym, Permutation_rev.
    - intros i _. rewrite Hg. by split. }
  assert (forall b, slot s b = None) as Hn.
  { intros b. destruct (slot s b) as [i|] eqn:E; [|done].
    apply slot_key in E as [E _]; [|apply Hinv]. rewrite Hg in E. cbn in E. congruence. }
  split; [done|]. unfold view, refs, lockof. repeat split; try (intros b; by rewrite Hn).
Qed.

(** ** The operations in terms of the functions of the state *)

(** [s] has contents [v], reference counts [r], locks [l], device [d], [u]
    buffers in use and running process [p]. *)
Record bst (s : bstate) (v : Z -> block) (r : Z -> Z) (l : Z -> sleeplock) (d : disk) (u : nat) (p : Z) : Prop := {
  st_inv : binv s;
  st_view : forall b, view s b = v b;
  st_refs : forall b, refs s b = r b;
  st_lock : forall b, lockof s b = l b;
  st_disk : bc_disk s = d;
  st_used : in_use s = u;
  st_pid : bc_pid s = p
}.

(** The buffers in use stay where they are. *)
Definition keeps (s s' : bstate) : Prop := forall b i, slot s b = Some i -> 0 < refs s b -> slot s' b = Some i.

Lemma bst_ext s v r l d u p v' r' l' :
  bst s v r l d u p -> (forall b, v b = v' b) -> (forall b, r b = r' b) -> (forall b, l b = l' b) ->
  bst s v' r' l' d u p.
Proof.
  intros [? A2 A3 A4 ? ? ?] Hv Hr Hl. split; try done; intros b.
  - by rewrite A2.
  - by rewrite A3.
  - by rewrite A4.
Qed.

Lemma bst_conv s v r l d u p v' r' l' d' u' :
  bst s v r l d u p -> (forall b, v b = v' b) -> (forall b, r b = r' b) -> (forall b, l b = l' b) ->
  d = d' -> u = u' -> bst s v' r' l' d' u' p.
Proof. intros H Hv Hr Hl -> ->. by eapply bst_ext. Qed.

Lemma bst_self s : binv s -> bst s (view s) (refs s) (lockof s) (bc_disk s) (in_use s) (bc_pid s).
Proof. by split. Qed.

Lemma bsem_bst s s' v r l d u v' r' l' d' u' p :
  bst s v r l d u p -> bsem s s' v' r' l' d' u' -> bst s' v' r' l' d' u' p /\ keeps s s'.
Proof. intros [? ? ? ? ? ? Hp] [? ? ? ? ? ? Hp' ?]. split; [|done]. split; try done. congruence. Qed.

Lemma bread_st s v r l d u p b :
  bst s v r l d u p -> sl_locked (l b) = false -> r b + 1 < 2 ^ 32 -> (r b = 0 -> (u < NBUF)%nat) ->
  exists i s', bread dev b s = Ret i s' /\ slot s' b = Some i /\
    bst s' v (fupd r b (r b + 1)) (fupd l b (Sleeplock true p)) d (u + if (r b =? 0)%Z then 1 else 0)%nat p /\
    keeps s s'.
Proof.
  intros St Hl Hr Hu. pose proof St as [A1 A2 A3 A4 A5 A6 A7].
  destruct (bread_ok s b A1) as (i & s' & H & Hs & Hsem).
  { by rewrite A4. } { by rewrite A3. } { rewrite A3, A6. done. }
  exists i, s'. split; [done|]. split; [done|]. rewrite A3, A5, A6, A7 in Hsem.
  destruct (bsem_bst _ _ _ _ _ _ _ _ _ _ _ _ _ St Hsem) as [St' Hk]. split; [|done].
  eapply bst_ext; [exact St'|done| |]; intros b'; unfold fupd; case_decide; done.
Qed.

Lemma setdata_st s v r l d u p b i x :
  bst s v r l d u p -> slot s b = Some i -> 0 < r b ->
  exists s', bufmod i (set_data x) s = Ret tt s' /\ bst s' (fupd v b x) r l d u p /\ keeps s s'.
Proof.
  intros St Hs Hr. pose proof St as [A1 A2 A3 A4 A5 A6 A7].
  pose proof (setdata_ok s b i x A1 Hs ltac:(by rewrite A3)) as Hsem. rewrite A5, A6 in Hsem.
  eexists. split; [reflexivity|]. destruct (bsem_bst _ _ _ _ _ _ _ _ _ _ _ _ _ St Hsem) as [St' Hk].
  split; [|done]. eapply bst_ext; [exact St'| |done|done]. intros b'; unfold fupd; case_decide; done.
Qed.

Lemma bufget_st s v r l d u p b i :
  bst s v r l d u p -> slot s b = Some i -> 0 < r b ->
  exists x, bufget i s = Ret x s /\ b_data x = v b /\ b_blockno x = b.
Proof.
  intros [A1 A2 A3 A4 A5 A6 A7] Hs Hr. exists (getb s i). split; [done|].
  destruct (view_slot s b i A1 Hs ltac:(by rewrite A3)) as (-> & _). split; [done|].
  by destruct (slot_key _ _ _ (bi_struct _ A1) Hs).
Qed.

Lemma bwrite_st s v r l d u p b i :
  bst s v r l d u p -> slot s b = Some i -> 0 < r b -> l b = Sleeplock true p ->
  exists s', bwrite i s = Ret tt s' /\ bst s' v r l (disk_write d b (v b)) u p /\ keeps s s'.
Proof.
  intros St Hs Hr Hl. pose proof St as [A1 A2 A3 A4 A5 A6 A7].
  destruct (bwrite_ok s b i A1 Hs) as (s' & H & Hsem).
  { by rewrite A3. } { by rewrite A4, A7. }
  exists s'. split; [done|]. rewrite A2, A5, A6 in Hsem.
  destruct (bsem_bst _ _ _ _ _ _ _ _ _ _ _ _ _ St Hsem) as [St' Hk]. split; [|done].
  by eapply bst_ext; [exact St'|..].
Qed.

Lemma brelse_st s v r l d u p b i :
  bst s v r l d u p -> slot s b = Some i -> 0 < r b -> l b = Sleeplock true p ->
  (r b = 1 -> v b = disk_block d b) ->
  exists s', brelse i s = Ret tt s' /\
    bst s' v (fupd r b (r b - 1)) (fupd l b initsleeplock) d (u - if (r b =? 1)%Z then 1 else 0)%nat p /\ keeps s s'.
Proof.
  intros St Hs Hr Hl Hc. pose proof St as [A1 A2 A3 A4 A5 A6 A7].
  destruct (brelse_ok s b i A1 Hs) as (s' & H & Hsem).
  { by rewrite A3. } { by rewrite A4, A7. } { by rewrite A2, A3, A5. }
  exists s'. split; [done|]. rewrite A3, A5, A6 in Hsem.
  destruct (bsem_bst _ _ _ _ _ _ _ _ _ _ _ _ _ St Hsem) as [St' Hk]. split; [|done].
  eapply bst_ext; [exact St'|done| |]; intros b'; unfold fupd; case_decide; done.
Qed.

Lemma bpin_st s v r l d u p b i :
  bst s v r l d u p -> slot s b = Some i -> 0 < r b -> r b + 1 < 2 ^ 32 ->
  exists s', bpin i s = Ret tt s' /\ bst s' v (fupd r b (r b + 1)) l d u p /\ keeps s s'.
Proof.
  intros St Hs Hr Hr'. pose proof St as [A1 A2 A3 A4 A5 A6 A7].
  destruct (bpin_ok s b i A1 Hs) as (s' & H & Hsem).
  { by rewrite A3. } { by rewrite A3. }
  exists s'. split; [done|]. rewrite A3, A5, A6 in Hsem.
  destruct (bsem_bst _ _ _ _ _ _ _ _ _ _ _ _ _ St Hsem) as [St' Hk]. split; [|done].
  eapply bst_ext; [exact St'|done| |done]; intros b'; unfold fupd; case_decide; done.
Qed.

Lemma bunpin_st s v r l d u p b i :
  bst s v r l d u p -> slot s b = Some i -> 1 < r b ->
  exists s', bunpin i s = Ret tt s' /\ bst s' v (fupd r b (r b - 1)) l d u p /\ keeps s s'.
Proof.
  intros St Hs Hr. pose proof St as [A1 A2 A3 A4 A5 A6 A7].
  destruct (bunpin_ok s b i A1 Hs) as (s' & H & Hsem); [by rewrite A3|].
  exists s'. split; [done|]. rewrite A3, A5, A6 in Hsem.
  destruct (bsem_bst _ _ _ _ _ _ _ _ _ _ _ _ _ St Hsem) as [St' Hk]. split; [|done].
  eapply bst_ext; [exact St'|done| |done]; intros b'; unfold fupd; case_decide; done.
Qed.

Lemma keeps_slot s s' v r l d u p b i :
  keeps s s' -> bst s v r l d u p -> slot s b = Some i -> 0 < r b -> slot s' b = Some i.
Proof. intros Hk St Hs Hr. apply Hk; [done|]. by rewrite (st_refs _ _ _ _ _ _ _ St). Qed.

Lemma keeps_trans s s1 s2 v r l d u p :
  keeps s s1 -> keeps s1 s2 -> bst s1 v r l d u p -> (forall b, 0 < refs s b -> 0 < r b) -> keeps s s2.
Proof.
  intros H1 H2 St H b i Hs Hr. apply H2; [by apply H1|]. rewrite (st_refs _ _ _ _ _ _ _ St). by apply H.
Qed.

Lemma keeps_refl s : keeps s s.
Proof. by intros b i. Qed.

End bio.

(** Equalities between updated functions. *)
Ltac fupd_solve := intros; unfold fupd in *; repeat case_decide; subst; try congruence; try lia.
