(* ===== verification/BioRefine.v ===== *)
(** * The buffer cache is transparent

    A client that reads blocks, changes them, writes them and releases them
    through the buffer cache sees the same as one that works directly on an
    array of blocks, whatever the cache holds, reuses and evicts. *)

From S2P Require Import Prelude Sleeplock Bio BioSpec.

(** What a client asks for. *)
Inductive bop :=
| BRead (b : Z)               (** bread, and look at the data *)
| BSet (b : Z) (x : block)    (** change the data of a buffer held *)
| BWrite (b : Z)              (** bwrite *)
| BRelse (b : Z).             (** brelse *)

(** ** The abstract disk *)

(** The current contents of the blocks, the device, and the blocks held. *)
Record adisk := ADisk { ad_now : Z -> block; ad_disk : disk; ad_held : list Z }.

(** What an operation needs: a block is read when it is not held and there is
    room for it, and released when what it holds has been written. *)
Definition allowed (a : adisk) (o : bop) : Prop :=
  match o with
  | BRead b => (b ∉ ad_held a) /\ (length (ad_held a) < NBUF)%nat
  | BSet b _ | BWrite b => b ∈ ad_held a
  | BRelse b => (b ∈ ad_held a) /\ ad_now a b = disk_block (ad_disk a) b
  end.

Definition ado (a : adisk) (o : bop) : adisk * list block :=
  match o with
  | BRead b => (ADisk (ad_now a) (ad_disk a) (b :: ad_held a), [ad_now a b])
  | BSet b x => (ADisk (fupd (ad_now a) b x) (ad_disk a) (ad_held a), [])
  | BWrite b => (ADisk (ad_now a) (disk_write (ad_disk a) b (ad_now a b)) (ad_held a), [])
  | BRelse b => (ADisk (ad_now a) (ad_disk a) (filter (fun c => c <> b) (ad_held a)), [])
  end.

Fixpoint arun (a : adisk) (l : list bop) : adisk * list block :=
  match l with
  | [] => (a, [])
  | o :: l' => let '(a1, out) := ado a o in let '(a2, out') := arun a1 l' in (a2, out ++ out')
  end.

Fixpoint all_allowed (a : adisk) (l : list bop) : Prop :=
  match l with
  | [] => True
  | o :: l' => allowed a o /\ all_allowed (fst (ado a o)) l'
  end.

(** ** The cache *)

Section cache.
Variable dev : Z.

(** The client keeps the buffer [bread] gave it for each block. *)
Definition handle (h : list (Z * nat)) (b : Z) : nat :=
  match find (fun e => fst e =? b) h with Some e => snd e | None => 0%nat end.

Definition bdo (h : list (Z * nat)) (o : bop) : K bstate (list (Z * nat) * list block) :=
  match o with
  | BRead b => i <- bread dev b ;; x <- bufget i ;; kret ((b, i) :: h, [b_data x])
  | BSet b x => bufmod (handle h b) (set_data x) ;;; kret (h, [])
  | BWrite b => bwrite (handle h b) ;;; kret (h, [])
  | BRelse b => brelse (handle h b) ;;; kret (filter (fun e => fst e <> b) h, [])
  end.

Fixpoint brun (h : list (Z * nat)) (l : list bop) : K bstate (list block) :=
  match l with
  | [] => kret []
  | o :: l' => r <- bdo h o ;; out <- brun (fst r) l' ;; kret (snd r ++ out)
  end.

(** ** The simulation *)

Definition refs_of (l : list Z) (b : Z) : Z := if decide (b ∈ l) then 1 else 0.
Definition locks_of (l : list Z) (p b : Z) : sleeplock := if decide (b ∈ l) then Sleeplock true p else initsleeplock.

Record sim (a : adisk) (s : bstate) (h : list (Z * nat)) (p : Z) : Prop := {
  sm_bst : bst dev s (ad_now a) (refs_of (ad_held a)) (locks_of (ad_held a) p) (ad_disk a) (length (ad_held a)) p;
  sm_nodup : NoDup (ad_held a);
  sm_handle : forall b, b ∈ ad_held a -> slot dev s b = Some (handle h b)
}.

Lemma refs_in l b : b ∈ l -> refs_of l b = 1.
Proof. intros. unfold refs_of. by rewrite decide_True. Qed.
Lemma refs_out l b : b ∉ l -> refs_of l b = 0.
Proof. intros. unfold refs_of. by rewrite decide_False. Qed.
Lemma locks_in l p b : b ∈ l -> locks_of l p b = Sleeplock true p.
Proof. intros. unfold locks_of. by rewrite decide_True. Qed.
Lemma locks_out l p b : b ∉ l -> locks_of l p b = initsleeplock.
Proof. intros. unfold locks_of. by rewrite decide_False. Qed.

Lemma handle_cons b i h c : handle ((b, i) :: h) c = if decide (c = b) then i else handle h c.
Proof. unfold handle. cbn [find fst]. destruct (Z.eqb_spec b c); case_decide; try done; congruence. Qed.

Lemma handle_filter b h c : c <> b -> handle (filter (fun e => fst e <> b) h) c = handle h c.
Proof.
  intros Hc. unfold handle. induction h as [|[d i] h IH]; [done|]. rewrite filter_cons. cbn [find fst] in *.
  destruct (decide (d = b)) as [->|Hd].
  - rewrite decide_False by tauto. replace (b =? c) with false; [done|]. symmetry. apply Z.eqb_neq. congruence.
  - rewrite decide_True by done. cbn [find fst]. by destruct (d =? c).
Qed.

Lemma length_remove (b : Z) l : NoDup l -> b ∈ l -> S (length (filter (fun c => c <> b) l)) = length l.
Proof.
  induction l as [|x l IH]; intros Hnd Hin; [by apply elem_of_nil in Hin|]. apply NoDup_cons in Hnd as [Hx Hnd].
  rewrite filter_cons. destruct (decide (x = b)) as [->|Hne].
  - rewrite decide_False by tauto. simpl. f_equal. clear -Hx. induction l as [|y l IH]; [done|].
    apply not_elem_of_cons in Hx as [Hy Hx]. rewrite filter_cons, decide_True by congruence. simpl. by rewrite IH.
  - rewrite decide_True by done. simpl. f_equal. apply elem_of_cons in Hin as [->|Hin]; [done|]. by apply IH.
Qed.

(** Operations that do not change which blocks are held. *)
Lemma sim_keep a a' s s' h p :
  sim a s h p -> ad_held a' = ad_held a -> keeps dev s s' ->
  bst dev s' (ad_now a') (refs_of (ad_held a)) (locks_of (ad_held a) p) (ad_disk a') (length (ad_held a)) p ->
  sim a' s' h p.
Proof.
  intros [B N Hh] He Hk B'. split; rewrite He; try done. intros b Hb.
  eapply keeps_slot; [exact Hk|exact B|by apply Hh|]. by rewrite refs_in.
Qed.

Lemma bdo_sim a s h p o : sim a s h p -> allowed a o ->
  exists h' s', bdo h o s = Ret (h', snd (ado a o)) s' /\ sim (fst (ado a o)) s' h' p.
Proof.
  intros Hs Hal. pose proof Hs as [B N Hh]. destruct o as [b|b x|b|b]; cbn [allowed ado fst snd bdo] in *.
  - destruct Hal as [Hb Hl].
    destruct (bread_st dev s _ _ _ _ _ _ b B) as (i & s1 & H1 & Hs1 & B1 & K1);
      [by rewrite locks_out|by rewrite refs_out|done|].
    destruct (bufget_st dev s1 _ _ _ _ _ _ b i B1 Hs1) as (x & H2 & Hx & _); [rewrite fupd_same, refs_out by done; done|].
    exists ((b, i) :: h), s1. rewrite (kbind_ret _ _ _ _ _ H1), (kbind_ret _ _ _ _ _ H2), Hx. split; [done|].
    split; cbn [ad_now ad_disk ad_held].
    + eapply bst_conv; [exact B1|done| | |done|].
      * intros c. unfold fupd. rewrite refs_out by done. unfold refs_of. pose proof (elem_of_cons (ad_held a) c b).
        repeat case_decide; tauto.
      * intros c. unfold fupd, locks_of. pose proof (elem_of_cons (ad_held a) c b). repeat case_decide; tauto.
      * rewrite refs_out by done. simpl. lia.
    + by constructor.
    + intros c [->|Hc]%elem_of_cons; rewrite handle_cons; [by rewrite decide_True|].
      rewrite decide_False by congruence. eapply keeps_slot; [exact K1|exact B|by apply Hh|by rewrite refs_in].
  - destruct (setdata_st dev s _ _ _ _ _ _ b (handle h b) x B (Hh b Hal)) as (s1 & H1 & B1 & K1); [by rewrite refs_in|].
    exists h, s1. rewrite (kbind_ret _ _ _ _ _ H1). split; [done|]. by eapply sim_keep.
  - destruct (bwrite_st dev s _ _ _ _ _ _ b (handle h b) B (Hh b Hal)) as (s1 & H1 & B1 & K1);
      [by rewrite refs_in|by rewrite locks_in|].
    exists h, s1. rewrite (kbind_ret _ _ _ _ _ H1). split; [done|]. by eapply sim_keep.
  - destruct Hal as [Hb Hc].
    destruct (brelse_st dev s _ _ _ _ _ _ b (handle h b) B (Hh b Hb)) as (s1 & H1 & B1 & K1);
      [by rewrite refs_in|by rewrite locks_in|done|].
    eexists _, s1. rewrite (kbind_ret _ _ _ _ _ H1). split; [done|].
    assert (forall c, c ∈ filter (fun c => c <> b) (ad_held a) <-> c <> b /\ c ∈ ad_held a) as Hf
      by (intros c; by rewrite list_elem_of_filter).
    split; cbn [ad_now ad_disk ad_held].
    + eapply bst_conv; [exact B1|done| | |done|].
      * intros c. unfold fupd. rewrite refs_in by done. unfold refs_of. pose proof (Hf c). repeat case_decide; tauto || congruence.
      * intros c. unfold fupd, locks_of. pose proof (Hf c). repeat case_decide; tauto || congruence.
      * rewrite refs_in by done. pose proof (length_remove b (ad_held a) N Hb). simpl. lia.
    + by apply NoDup_filter.
    + intros c [Hcb Hc']%Hf. rewrite handle_filter by done.
      eapply keeps_slot; [exact K1|exact B|by apply Hh|by rewrite refs_in].
Qed.

Lemma brun_sim l : forall a s h p, sim a s h p -> all_allowed a l ->
  exists s', brun h l s = Ret (snd (arun a l)) s' /\ bc_disk s' = ad_disk (fst (arun a l)).
Proof.
  induction l as [|o l IH]; intros a s h p Hs Hal; cbn [brun arun all_allowed] in *.
  - exists s. split; [done|]. apply (sm_bst _ _ _ _ Hs).
  - destruct Hal as [Ho Hl]. destruct (bdo_sim a s h p o Hs Ho) as (h' & s1 & H1 & Hs1).
    rewrite (kbind_ret _ _ _ _ _ H1). cbn [fst snd]. destruct (ado a o) as [a1 out]. cbn [fst snd] in *.
    destruct (IH a1 s1 h' p Hs1 Hl) as (s2 & H2 & Hd2). rewrite (kbind_ret _ _ _ _ _ H2).
    destruct (arun a1 l) as [a2 out']. by exists s2.
Qed.

(** C11: The buffer cache refines an array of blocks.  Any sequence of reads,
    changes, writes and releases that keeps at most NBUF blocks at a time and
    releases what it has written runs to the end through [bread], [bwrite]
    and [brelse] from the state [binit] leaves, reads return what the array
    holds, and the device ends up with the array's writes in order. *)
Theorem cache_refines_array d pid l :
  dev <> 0 -> all_allowed (ADisk (disk_block d) d []) l ->
  exists s', brun [] l (binit d pid) = Ret (snd (arun (ADisk (disk_block d) d []) l)) s' /\
    bc_disk s' = ad_disk (fst (arun (ADisk (disk_block d) d []) l)).
Proof.
  intros Hdev Hal. destruct (binit_ok dev d pid Hdev) as (B1 & B2 & B3 & B4 & B5). apply brun_sim with pid; [|done].
  split; cbn [ad_now ad_disk ad_held]; [|constructor|intros b Hb; by apply elem_of_nil in Hb].
  by split.
Qed.

End cache.

Lemma cache_refines_array_witness :
  let one := replicate (Z.to_nat BSIZE) 1 in
  exists s', brun 1 [] [BRead 5; BSet 5 one; BWrite 5; BRelse 5; BRead 5] (binit (Disk ∅ []) 1) =
    Ret [zero_block; one] s' /\ dk_writes (bc_disk s') = [(5, one)].
Proof.
  intros one.
  destruct (cache_refines_array 1 (Disk ∅ []) 1 [BRead 5; BSet 5 one; BWrite 5; BRelse 5; BRead 5]) as (s' & E & Hd).
  - lia.
  - assert (forall n, (n < 30)%nat -> (n < NBUF)%nat) as HN by (unfold NBUF; lia).
    cbn [all_allowed allowed ado fst ad_held ad_now ad_disk length].
    assert (filter (fun c : Z => c <> 5) [5] = []) as -> by reflexivity.
    repeat split; first [apply not_elem_of_nil | apply HN; cbn; lia | apply list_elem_of_here | reflexivity].
  - exists s'. rewrite E, Hd. split; [|reflexivity]. cbn [arun ado fst snd ad_now app]. by rewrite fupd_same.
Defined.
