(* ===== verification/Virtio.v ===== *)
(** * The disk driver

    kernel/virtio_disk.c and the device it talks to.  Requests of any number of
    processes, the interrupt handler and the device are interleaved: a step is
    a part of the code between two points at which the device, or after a
    [sleep] another process, can see or change the shared queues.  A process is
    named by the buffer it holds the lock of.  The device takes requests from
    the available ring in order, carries them out in any order and reports them
    in the used ring, as the virtio specification says of a block device. *)

From S2P Require Import Prelude.

Definition NUM : nat := 8.
Definition VRING_DESC_F_NEXT : Z := 1.
Definition VRING_DESC_F_WRITE : Z := 2.
Definition VIRTIO_BLK_T_IN : Z := 0.
Definition VIRTIO_BLK_T_OUT : Z := 1.

(** What a descriptor points to: nothing, [&disk.ops[i]], the data of a buffer,
    [&disk.info[i].status]. *)
Inductive vaddr := ANull | AOps (i : nat) | AData (b : nat) | AStatus (i : nat).

Record virtq_desc := Desc { d_addr : vaddr; d_len : Z; d_flags : Z; d_next : nat }.
Definition desc0 : virtq_desc := Desc ANull 0 0 0.
Record virtio_blk_req := Req { r_type : Z; r_reserved : Z; r_sector : Z }.
Record vinfo := Info { i_b : option nat; i_status : Z }.

(** Where a process is in [virtio_disk_rw]: not in it, in the loop that
    allocates descriptors, before the entry in the ring, before the increment of
    its index, in the loop that waits for the device. *)
Inductive vpc :=
| VIdle
| VAlloc (write asleep : bool)
| VRing (write : bool) (idx : nat)
| VNotify (write : bool) (idx : nat)
| VWait (write : bool) (idx : nat) (asleep : bool).

(** The holder of [vdisk_lock] between two steps. *)
Inductive vholder := HRw (b : nat) | HIntr.

(** [struct disk]; the rings; the buffers and their processes; the device. *)
Record disk := Disk {
  v_desc : list virtq_desc;
  v_free : list bool;
  v_info : list vinfo;
  v_ops : list virtio_blk_req;
  v_aring : list nat;  v_aidx : Z;       (** avail->ring, avail->idx *)
  v_uring : list nat;  v_uidx : Z;       (** used->ring[].id, used->idx *)
  v_used_idx : Z;
  v_lock : option vholder;
  b_disk : nat -> bool;
  b_data : nat -> list Z;
  b_blockno : nat -> Z;
  v_pc : nat -> vpc;
  v_next : Z;                            (** next entry of avail->ring the device reads *)
  v_taken : list nat;                    (** requests read from the ring *)
  v_done : list nat;                     (** carried out, not yet in used->ring *)
  v_media : Z -> Z                       (** the bytes of the disk *)
}.

Definition vupd {A} (f : nat -> A) (i : nat) (x : A) : nat -> A := fun j => if decide (j = i) then x else f j.

Definition set_desc i x (s : disk) := Disk (<[i := x]> (v_desc s)) (v_free s) (v_info s) (v_ops s) (v_aring s) (v_aidx s) (v_uring s) (v_uidx s) (v_used_idx s) (v_lock s) (b_disk s) (b_data s) (b_blockno s) (v_pc s) (v_next s) (v_taken s) (v_done s) (v_media s).
Definition set_free i x (s : disk) := Disk (v_desc s) (<[i := x]> (v_free s)) (v_info s) (v_ops s) (v_aring s) (v_aidx s) (v_uring s) (v_uidx s) (v_used_idx s) (v_lock s) (b_disk s) (b_data s) (b_blockno s) (v_pc s) (v_next s) (v_taken s) (v_done s) (v_media s).
Definition set_info i x (s : disk) := Disk (v_desc s) (v_free s) (<[i := x]> (v_info s)) (v_ops s) (v_aring s) (v_aidx s) (v_uring s) (v_uidx s) (v_used_idx s) (v_lock s) (b_disk s) (b_data s) (b_blockno s) (v_pc s) (v_next s) (v_taken s) (v_done s) (v_media s).
Definition set_ops i x (s : disk) := Disk (v_desc s) (v_free s) (v_info s) (<[i := x]> (v_ops s)) (v_aring s) (v_aidx s) (v_uring s) (v_uidx s) (v_used_idx s) (v_lock s) (b_disk s) (b_data s) (b_blockno s) (v_pc s) (v_next s) (v_taken s) (v_done s) (v_media s).
Definition set_aring i x (s : disk) := Disk (v_desc s) (v_free s) (v_info s) (v_ops s) (<[i := x]> (v_aring s)) (v_aidx s) (v_uring s) (v_uidx s) (v_used_idx s) (v_lock s) (b_disk s) (b_data s) (b_blockno s) (v_pc s) (v_next s) (v_taken s) (v_done s) (v_media s).
Definition set_aidx x (s : disk) := Disk (v_desc s) (v_free s) (v_info s) (v_ops s) (v_aring s) x (v_uring s) (v_uidx s) (v_used_idx s) (v_lock s) (b_disk s) (b_data s) (b_blockno s) (v_pc s) (v_next s) (v_taken s) (v_done s) (v_media s).
Definition set_used_idx x (s : disk) := Disk (v_desc s) (v_free s) (v_info s) (v_ops s) (v_aring s) (v_aidx s) (v_uring s) (v_uidx s) x (v_lock s) (b_disk s) (b_data s) (b_blockno s) (v_pc s) (v_next s) (v_taken s) (v_done s) (v_media s).
Definition set_lock x (s : disk) := Disk (v_desc s) (v_free s) (v_info s) (v_ops s) (v_aring s) (v_aidx s) (v_uring s) (v_uidx s) (v_used_idx s) x (b_disk s) (b_data s) (b_blockno s) (v_pc s) (v_next s) (v_taken s) (v_done s) (v_media s).
Definition set_bdisk b x (s : disk) := Disk (v_desc s) (v_free s) (v_info s) (v_ops s) (v_aring s) (v_aidx s) (v_uring s) (v_uidx s) (v_used_idx s) (v_lock s) (vupd (b_disk s) b x) (b_data s) (b_blockno s) (v_pc s) (v_next s) (v_taken s) (v_done s) (v_media s).
Definition set_buf b n x (s : disk) := Disk (v_desc s) (v_free s) (v_info s) (v_ops s) (v_aring s) (v_aidx s) (v_uring s) (v_uidx s) (v_used_idx s) (v_lock s) (b_disk s) (vupd (b_data s) b x) (vupd (b_blockno s) b n) (v_pc s) (v_next s) (v_taken s) (v_done s) (v_media s).
Definition set_pcs f (s : disk) := Disk (v_desc s) (v_free s) (v_info s) (v_ops s) (v_aring s) (v_aidx s) (v_uring s) (v_uidx s) (v_used_idx s) (v_lock s) (b_disk s) (b_data s) (b_blockno s) f (v_next s) (v_taken s) (v_done s) (v_media s).
Definition set_used i x n (s : disk) := Disk (v_desc s) (v_free s) (v_info s) (v_ops s) (v_aring s) (v_aidx s) (<[i := x]> (v_uring s)) n (v_used_idx s) (v_lock s) (b_disk s) (b_data s) (b_blockno s) (v_pc s) (v_next s) (v_taken s) (v_done s) (v_media s).
Definition set_dev n t d m (s : disk) := Disk (v_desc s) (v_free s) (v_info s) (v_ops s) (v_aring s) (v_aidx s) (v_uring s) (v_uidx s) (v_used_idx s) (v_lock s) (b_disk s) (b_data s) (b_blockno s) (v_pc s) n t d m.

Definition set_vpc (b : nat) (x : vpc) (s : disk) : disk := set_pcs (vupd (v_pc s) b x) s.

(** [wakeup(&disk.free[0])] and [wakeup(b)]. *)
Definition wake (p : vpc) : vpc := match p with VAlloc w _ => VAlloc w false | _ => p end.
Definition wake_wait (p : vpc) : vpc := match p with VWait w i _ => VWait w i false | _ => p end.
Definition wakeup_free (s : disk) : disk := set_pcs (fun b => wake (v_pc s b)) s.
Definition wakeup_buf (b : nat) (s : disk) : disk := set_vpc b (wake_wait (v_pc s b)) s.

Fixpoint find_desc (l : list bool) (i : nat) : option nat :=
  match l with
  | [] => None
  | true :: _ => Some i
  | false :: l' => find_desc l' (S i)
  end.

Definition alloc_desc : K disk (option nat) :=
  s <- kget ;;
  match find_desc (v_free s) 0 with
  | Some i => kmod (set_free i false) ;;; kret (Some i)
  | None => kret None
  end.

Definition free_desc (i : nat) : K disk unit :=
  s <- kget ;;
  if (NUM <=? i)%nat then panic "free_desc 1"
  else if nth i (v_free s) false then panic "free_desc 2"
  else
    kmod (set_desc i desc0) ;;;
    kmod (set_free i true) ;;;
    kmod wakeup_free.

Fixpoint free_chain (fuel : nat) (i : nat) : K disk unit :=
  match fuel with
  | O => kdiverge
  | S fuel' =>
      s <- kget ;;
      let flag := d_flags (nth i (v_desc s) desc0) in
      let nxt := d_next (nth i (v_desc s) desc0) in
      free_desc i ;;;
      if negb (Z.land flag VRING_DESC_F_NEXT =? 0) then free_chain fuel' nxt else kret tt
  end.

(** [idx] is the array filled so far, [n] the entries to go. *)
Fixpoint alloc3_loop (n : nat) (idx : list nat) : K disk (option (list nat)) :=
  match n with
  | O => kret (Some idx)
  | S n' =>
      r <- alloc_desc ;;
      match r with
      | Some i => alloc3_loop n' (idx ++ [i])
      | None => foldr (fun j k => free_desc j ;;; k) (kret None) idx
      end
  end.
Definition alloc3_desc : K disk (option (list nat)) := alloc3_loop 3 [].

(** Lines 238 to 269: the request header, the three descriptors, the record of
    the request. *)
Definition format_desc (b : nat) (write : bool) (i0 i1 i2 : nat) : K disk unit :=
  s <- kget ;;
  let sector := uint32 (b_blockno s b * 2) in
  kmod (set_ops i0 (Req (if write then VIRTIO_BLK_T_OUT else VIRTIO_BLK_T_IN) 0 sector)) ;;;
  kmod (set_desc i0 (Desc (AOps i0) 16 VRING_DESC_F_NEXT i1)) ;;;
  kmod (set_desc i1 (Desc (AData b) 1024 (Z.lor (if write then 0 else VRING_DESC_F_WRITE) VRING_DESC_F_NEXT) i2)) ;;;
  s <- kget ;;
  kmod (set_info i0 (Info (i_b (nth i0 (v_info s) (Info None 0))) 255)) ;;;
  kmod (set_desc i2 (Desc (AStatus i0) 1 VRING_DESC_F_WRITE 0)) ;;;
  kmod (set_bdisk b true) ;;;
  kmod (set_info i0 (Info (Some b) 255)).

(** One turn of the loop that allocates; on success the lock is kept. *)
Definition rw_alloc (b : nat) (write : bool) : K disk unit :=
  r <- alloc3_desc ;;
  match r with
  | Some [i0; i1; i2] =>
      format_desc b write i0 i1 i2 ;;;
      kmod (set_vpc b (VRing write i0)) ;;;
      kmod (set_lock (Some (HRw b)))
  | _ => kmod (set_vpc b (VAlloc write true))
  end.

(** The slot of a ring for an index. *)
Definition ring_pos (i : Z) : nat := Z.to_nat (i mod Z.of_nat NUM).

Definition rw_ring (b : nat) (write : bool) (i0 : nat) : K disk unit :=
  s <- kget ;;
  kmod (set_aring (ring_pos (v_aidx s)) i0) ;;;
  kmod (set_vpc b (VNotify write i0)).

(** The index is incremented, and the loop that waits entered. *)
Definition rw_notify (b : nat) (write : bool) (i0 : nat) : K disk unit :=
  s <- kget ;;
  kmod (set_aidx (uint16 (v_aidx s + 1))) ;;;
  kmod (set_vpc b (VWait write i0 false)).

(** One turn of the loop that waits, to the end of the function when the device
    is done; [sleep] and the end release the lock. *)
Definition rw_wait (b : nat) (write : bool) (i0 : nat) : K disk unit :=
  s <- kget ;;
  if b_disk s b then kmod (set_vpc b (VWait write i0 true)) ;;; kmod (set_lock None)
  else
    kmod (set_info i0 (Info None (i_status (nth i0 (v_info s) (Info None 0))))) ;;;
    free_chain (S NUM) i0 ;;;
    kmod (set_vpc b VIdle) ;;;
    kmod (set_lock None).

(** One turn of the loop of [virtio_disk_intr]. *)
Definition intr_one : K disk unit :=
  s <- kget ;;
  let id := nth (ring_pos (v_used_idx s)) (v_uring s) 0%nat in
  if negb (i_status (nth id (v_info s) (Info None 0)) =? 0) then panic "virtio_disk_intr status"
  else
    match i_b (nth id (v_info s) (Info None 0)) with
    | None => panic "null pointer"
    | Some b =>
        kmod (set_bdisk b false) ;;;
        kmod (wakeup_buf b) ;;;
        kmod (set_used_idx (uint16 (v_used_idx s + 1)))
    end.

(** ** The device *)

(** [n] bytes of the disk from [off] on, and the disk with [data] there. *)
Definition media_read (m : Z -> Z) (off : Z) (n : nat) : list Z := map (fun k => m (off + Z.of_nat k)) (seq 0 n).
Definition media_write (m : Z -> Z) (off : Z) (data : list Z) : Z -> Z := fun a =>
  if (off <=? a) && (a <? off + Z.of_nat (length data)) then nth (Z.to_nat (a - off)) data 0 else m a.

Definition flag (d : virtq_desc) (f : Z) : bool := negb (Z.land (d_flags d) f =? 0).

(** The device carries out the request whose chain begins at [h]; [None] for a
    chain that is not a request, on which the specification does not say what
    the device does. *)
Definition dev_exec (h : nat) (s : disk) : option disk :=
  let d0 := nth h (v_desc s) desc0 in
  let d1 := nth (d_next d0) (v_desc s) desc0 in
  let d2 := nth (d_next d1) (v_desc s) desc0 in
  match d_addr d0, d_addr d1, d_addr d2 with
  | AOps i, AData b, AStatus j =>
      let r := nth i (v_ops s) (Req 0 0 0) in
      let off := r_sector r * 512 in
      let n := Z.to_nat (d_len d1) in
      let taken := list_difference (v_taken s) [h] in
      let status := Info (i_b (nth j (v_info s) (Info None 0))) 0 in
      if negb (flag d0 VRING_DESC_F_NEXT && flag d1 VRING_DESC_F_NEXT && negb (flag d2 VRING_DESC_F_NEXT) &&
               negb (flag d0 VRING_DESC_F_WRITE) && flag d2 VRING_DESC_F_WRITE && (d_len d0 =? 16) && (d_len d2 =? 1))
      then None
      else if (r_type r =? VIRTIO_BLK_T_IN) && flag d1 VRING_DESC_F_WRITE then
        Some (set_info j status (set_buf b (b_blockno s b) (media_read (v_media s) off n)
               (set_dev (v_next s) taken (h :: v_done s) (v_media s) s)))
      else if (r_type r =? VIRTIO_BLK_T_OUT) && negb (flag d1 VRING_DESC_F_WRITE) then
        Some (set_info j status
               (set_dev (v_next s) taken (h :: v_done s) (media_write (v_media s) off (take n (b_data s b))) s))
      else None
  | _, _, _ => None
  end.

Definition dev_take (s : disk) : disk :=
  set_dev (uint16 (v_next s + 1)) (nth (ring_pos (v_next s)) (v_aring s) 0%nat :: v_taken s) (v_done s) (v_media s) s.
Definition dev_push (h : nat) (s : disk) : disk :=
  set_used (ring_pos (v_uidx s)) h (uint16 (v_uidx s + 1))
    (set_dev (v_next s) (v_taken s) (list_difference (v_done s) [h]) (v_media s) s).

(** ** The system *)

(** Who makes the next step: a process that calls [virtio_disk_rw], goes on with
    the call, or changes its buffer between calls; the interrupt handler; the
    device. *)
Inductive act :=
| ACall (b : nat) (write : bool)
| ARw (b : nat)
| AClient (b : nat) (blockno : Z) (data : list Z)
| AIntr | AIntrOne | AIntrEnd
| ATake | AExec (h : nat) | APush (h : nat).

Definition may_lock (h : vholder) (s : disk) : bool :=
  match v_lock s, h with
  | None, _ => true
  | Some HIntr, HIntr => true
  | Some (HRw b), HRw b' => (b =? b')%nat
  | _, _ => false
  end.

Definition member (h : nat) (l : list nat) : bool := existsb (Nat.eqb h) l.

(** The step, if it is possible.  The device reports success, as the status check
    of the interrupt handler requires; the write that acknowledges the interrupt
    has no effect on the rings. *)
Definition do_act (a : act) (s : disk) : option (outcome disk unit) :=
  match a with
  | ACall b w =>
      match v_pc s b, v_lock s with VIdle, None => Some (rw_alloc b w s) | _, _ => None end
  | ARw b =>
      if negb (may_lock (HRw b) s) then None
      else
        match v_pc s b with
        | VAlloc w false => Some (rw_alloc b w s)
        | VRing w i => Some (rw_ring b w i s)
        | VNotify w i => Some (rw_notify b w i s)
        | VWait w i false => Some (rw_wait b w i s)
        | _ => None
        end
  | AClient b n data =>
      match v_pc s b with
      | VIdle =>
          if (0 <=? n) && (n <? 2 ^ 31) && (length data =? 1024)%nat then Some (Ret tt (set_buf b n data s)) else None
      | _ => None
      end
  | AIntr => match v_lock s with None => Some (Ret tt (set_lock (Some HIntr) s)) | _ => None end
  | AIntrOne =>
      match v_lock s with
      | Some HIntr => if v_used_idx s =? v_uidx s then None else Some (intr_one s)
      | _ => None
      end
  | AIntrEnd =>
      match v_lock s with
      | Some HIntr => if v_used_idx s =? v_uidx s then Some (Ret tt (set_lock None s)) else None
      | _ => None
      end
  | ATake => if v_next s =? v_aidx s then None else Some (Ret tt (dev_take s))
  | AExec h =>
      if member h (v_taken s) then
        Some (match dev_exec h s with Some s' => Ret tt s' | None => Panic "device" end)
      else None
  | APush h => if member h (v_done s) then Some (Ret tt (dev_push h s)) else None
  end.

(** The state [virtio_disk_init] leaves, whatever is on the disk and in the
    buffers. *)
Definition disk_init (media : Z -> Z) (data : nat -> list Z) : disk :=
  Disk (replicate NUM desc0) (replicate NUM true) (replicate NUM (Info None 0)) (replicate NUM (Req 0 0 0))
    (replicate NUM 0%nat) 0 (replicate NUM 0%nat) 0 0 None (fun _ => false) data (fun _ => 0) (fun _ => VIdle) 0 [] [] media.

Definition vstep (s s' : disk) : Prop := exists a, do_act a s = Some (Ret tt s').

(** ** Initialisation *)

(** What the reads of the device registers return. *)
Record vregs := Regs {
  r_magic : Z; r_version : Z; r_device : Z; r_vendor : Z;
  r_features : Z; r_status : Z; r_ready : Z; r_max : Z
}.

(** The features [virtio_disk_init] turns off. *)
Definition off_features : list Z := [5; 7; 11; 12; 27; 29; 28].

(** The writes to the registers, offset and value, newest first; the arguments
    are the pages from kalloc. *)
Definition virtio_disk_init (r : vregs) (desc avail used : Z) : K (list (Z * Z)) unit :=
  let wr a v := kmod (cons (a, uint32 v)) in
  if negb ((r_magic r =? 1953655158) && (r_version r =? 2) && (r_device r =? 2) && (r_vendor r =? 1431127377))
  then panic "could not find virtio disk"
  else
    wr 112 0 ;;;
    wr 112 1 ;;;
    wr 112 3 ;;;
    wr 32 (fold_left (fun f n => Z.ldiff f (Z.shiftl 1 n)) off_features (r_features r)) ;;;
    wr 112 11 ;;;
    if Z.land (r_status r) 8 =? 0 then panic "virtio disk FEATURES_OK unset"
    else
      wr 48 0 ;;;
      if negb (r_ready r =? 0) then panic "virtio disk should not be ready"
      else if r_max r =? 0 then panic "virtio disk has no queue 0"
      else if r_max r <? Z.of_nat NUM then panic "virtio disk max queue too short"
      else if (desc =? 0) || (avail =? 0) || (used =? 0) then panic "virtio disk kalloc"
      else
        wr 56 (Z.of_nat NUM) ;;;
        wr 128 desc ;;; wr 132 (Z.shiftr desc 32) ;;;
        wr 144 avail ;;; wr 148 (Z.shiftr avail 32) ;;;
        wr 160 used ;;; wr 164 (Z.shiftr used 32) ;;;
        wr 68 1 ;;;
        wr 112 (Z.lor (r_status r) 4).
