(* ===== verification/VirtioSpec.v ===== *)
(** * Rings and descriptors of the disk driver

    The available and used rings as lists, with their wrapping indices, and the
    allocation of descriptors. *)

From S2P Require Import Prelude Virtio.

Definition with_desc (D : list virtq_desc) (s : disk) : disk :=
  Disk D (v_free s) (v_info s) (v_ops s) (v_aring s) (v_aidx s) (v_uring s) (v_uidx s) (v_used_idx s) (v_lock s) (b_disk s) (b_data s) (b_blockno s) (v_pc s) (v_next s) (v_taken s) (v_done s) (v_media s).

(** Reading the fields of a state that was changed. *)
Ltac vs :=
  unfold wakeup_free, wakeup_buf, set_vpc, set_desc, set_free, set_info, set_ops, set_aring, set_aidx, set_used_idx, set_lock, set_bdisk, set_buf, set_pcs, set_used, set_dev, with_desc in *;
  cbn [v_desc v_free v_info v_ops v_aring v_aidx v_uring v_uidx v_used_idx v_lock b_disk b_data b_blockno v_pc v_next v_taken v_done v_media] in *.

(** The same for a longer sequence of changes. *)
Ltac vp :=
  cbn [set_desc set_free set_info set_ops set_aring set_aidx set_used_idx set_lock set_bdisk set_buf set_pcs set_used set_dev set_vpc
    wakeup_free wakeup_buf v_desc v_free v_info v_ops v_aring v_aidx v_uring v_uidx v_used_idx v_lock b_disk b_data b_blockno v_pc v_next
    v_taken v_done v_media].

(** ** Rings *)

(** [n] entries of a ring from index [from] on. *)
Definition seg (ring : list nat) (from : Z) (n : nat) : list nat :=
  map (fun k => nth (ring_pos (from + Z.of_nat k)) ring 0%nat) (seq 0 n).

Lemma ring_pos_lt i : (ring_pos i < NUM)%nat.
Proof. unfold ring_pos, NUM. pose proof (Z.mod_pos_bound i 8). lia. Qed.

Lemma ring_pos_wrap i : ring_pos (uint16 i) = ring_pos i.
Proof. unfold ring_pos, uint16, NUM. f_equal. change (2 ^ 16) with (8 * 8192). Z.div_mod_to_equations. lia. Qed.

Lemma ring_pos_inj i j : ring_pos i = ring_pos j -> Z.abs (i - j) < Z.of_nat NUM -> i = j.
Proof. unfold ring_pos, NUM. intros. Z.div_mod_to_equations. lia. Qed.

Lemma ring_pos_add i j : ring_pos (uint16 i + j) = ring_pos (i + j).
Proof. unfold ring_pos, uint16, NUM. f_equal. change (2 ^ 16) with (8 * 8192). Z.div_mod_to_equations. lia. Qed.

Lemma length_seg ring from n : length (seg ring from n) = n.
Proof. unfold seg. by rewrite length_map, length_seq. Qed.

Lemma seg_cons ring from n : seg ring from (S n) = nth (ring_pos from) ring 0%nat :: seg ring (uint16 (from + 1)) n.
Proof.
  unfold seg. cbn [seq map]. f_equal; [do 2 f_equal; lia|]. rewrite <- seq_shift, map_map. apply map_ext. intros k.
  rewrite ring_pos_add. do 2 f_equal. lia.
Qed.

Lemma seg_write ring from n i x : (n < NUM)%nat -> ring_pos i = ring_pos (from + Z.of_nat n) ->
  seg (<[ring_pos i := x]> ring) from n = seg ring from n.
Proof.
  intros Hn Hi. unfold seg. apply map_ext_in. intros k Hk. apply in_seq in Hk.
  rewrite !nth_lookup, list_lookup_insert_ne; [done|].
  rewrite Hi. intros E. apply ring_pos_inj in E; lia.
Qed.

Lemma seg_snoc ring from n : seg ring from (S n) = seg ring from n ++ [nth (ring_pos (from + Z.of_nat n)) ring 0%nat].
Proof. unfold seg. rewrite seq_S, map_app. done. Qed.

Lemma seg_push ring from n i x : length ring = NUM -> (n < NUM)%nat -> ring_pos i = ring_pos (from + Z.of_nat n) ->
  seg (<[ring_pos i := x]> ring) from (S n) = seg ring from n ++ [x].
Proof.
  intros Hl Hn Hi. rewrite seg_snoc, seg_write by done. do 2 f_equal.
  rewrite <- Hi, nth_lookup, list_lookup_insert_eq; [done|]. rewrite Hl. apply ring_pos_lt.
Qed.

(** The number of entries between two indices. *)
Definition dist (from to : Z) : nat := Z.to_nat (uint16 (to - from)).

Lemma dist_succ_to from to : (dist from to < NUM)%nat -> dist from (uint16 (to + 1)) = S (dist from to).
Proof. unfold dist, uint16, NUM. intros H. Z.div_mod_to_equations. lia. Qed.

Lemma dist_succ_from from to : 0 <= from < 2 ^ 16 -> 0 <= to < 2 ^ 16 -> from <> to ->
  dist from to = S (dist (uint16 (from + 1)) to).
Proof. unfold dist, uint16. intros. Z.div_mod_to_equations. lia. Qed.

Lemma dist_zero from to : 0 <= from < 2 ^ 16 -> 0 <= to < 2 ^ 16 -> dist from to = 0%nat <-> from = to.
Proof. unfold dist, uint16. intros. split; intros; Z.div_mod_to_equations; lia. Qed.

Lemma ring_pos_dist from to : ring_pos to = ring_pos (from + Z.of_nat (dist from to)).
Proof. unfold dist, uint16, ring_pos, NUM. f_equal. change (2 ^ 16) with (8 * 8192). Z.div_mod_to_equations. lia. Qed.

(** ** Allocation of descriptors *)

Fixpoint ntrue (l : list bool) : nat :=
  match l with
  | [] => 0
  | true :: l' => S (ntrue l')
  | false :: l' => ntrue l'
  end.

Lemma find_desc_none l k : find_desc l k = None -> ntrue l = 0%nat.
Proof. revert k. induction l as [|[] l IH]; intros k E; [done|done|]. by eapply IH. Qed.

Lemma find_desc_some l k i : find_desc l k = Some i -> (k <= i)%nat /\ l !! (i - k)%nat = Some true.
Proof.
  revert k. induction l as [|[] l IH]; intros k E; [done| |].
  - injection E as <-. by rewrite Nat.sub_diag.
  - cbn in E. apply IH in E as [Hk E]. split; [lia|]. by replace (i - k)%nat with (S (i - S k)) by lia.
Qed.

Lemma ntrue_false l i : l !! i = Some true -> ntrue l = S (ntrue (<[i := false]> l)).
Proof.
  revert i. induction l as [|x l IH]; intros i E; [done|]. destruct i as [|i]; [by injection E as ->|]. cbn in *.
  destruct x; by rewrite (IH i).
Qed.

Lemma ntrue_true l i : l !! i = Some false -> ntrue (<[i := true]> l) = S (ntrue l).
Proof.
  intros E. rewrite (ntrue_false _ i), list_insert_insert_eq, list_insert_id; [done|done|].
  apply list_lookup_insert_eq. by apply lookup_lt_Some in E.
Qed.

Lemma ntrue_le l : (ntrue l <= length l)%nat.
Proof. induction l as [|[] l IH]; cbn; lia. Qed.

Lemma ntrue_all l : ntrue l = length l <-> forall i, (i < length l)%nat -> l !! i = Some true.
Proof.
  induction l as [|x l [IH1 IH2]]; [split; [intros _ i Hi; cbn in Hi; lia|done]|]. pose proof (ntrue_le l). split.
  - intros E i Hi. destruct x; cbn in *; [|lia]. destruct i as [|i]; [done|]. cbn. apply IH1; lia.
  - intros E. pose proof (E 0%nat ltac:(cbn; lia)) as E0. injection E0 as ->. cbn. f_equal. apply IH2. intros i Hi.
    apply (E (S i)). cbn. lia.
Qed.

Lemma alloc_desc_spec s :
  ntrue (v_free s) = 0%nat /\ alloc_desc s = Ret None s \/
  exists i, v_free s !! i = Some true /\ alloc_desc s = Ret (Some i) (set_free i false s).
Proof.
  unfold alloc_desc. cbn. destruct (find_desc (v_free s) 0) as [i|] eqn:E.
  - right. exists i. apply find_desc_some in E as [_ E]. by rewrite Nat.sub_0_r in E.
  - left. apply find_desc_none in E. done.
Qed.

Definition freed (i : nat) (s : disk) : disk := wakeup_free (set_free i true (set_desc i desc0 s)).

Lemma free_desc_spec i s : length (v_free s) = NUM -> v_free s !! i = Some false -> free_desc i s = Ret tt (freed i s).
Proof.
  intros Hl Hi. unfold free_desc. pose proof (lookup_lt_Some _ _ _ Hi) as Hlt. rewrite Hl in Hlt.
  rewrite (kbind_ret kget _ s s s eq_refl). replace (NUM <=? i)%nat with false by (symmetry; apply Nat.leb_gt; lia).
  by rewrite (nth_lookup_Some _ _ _ _ Hi).
Qed.


(** A failing allocation only clears descriptors that are free, and wakes
    processes up. *)
Definition unalloc (s s' : disk) : Prop := exists D p, s' = set_pcs p (with_desc D s) /\ length D = length (v_desc s) /\
  (forall i, v_free s !! i = Some false -> D !! i = v_desc s !! i) /\ (forall b, p b = v_pc s b \/ p b = wake (v_pc s b)).

Lemma unalloc_refl s : unalloc s s.
Proof. exists (v_desc s), (v_pc s). destruct s. repeat split; try done. by left. Qed.

Lemma wake_wake p : wake (wake p) = wake p.
Proof. by destruct p. Qed.

(** Giving descriptors back. *)
Lemma unalloc_freed s s1 i : v_free s !! i = Some true -> unalloc s (set_free i true s1) -> unalloc s (freed i s1).
Proof.
  intros Hi (D & p & E & HD & Hk & Hp). destruct s1. unfold freed. vs. injection E as -> -> -> -> -> -> -> -> -> -> -> -> -> -> -> -> -> ->.
  exists (<[i := desc0]> D), (fun b => wake (p b)). vs. split; [done|]. split; [by rewrite length_insert|]. split.
  - intros j Hj. destruct (decide (j = i)) as [->|Hn]; [congruence|]. rewrite list_lookup_insert_ne by done. by apply Hk.
  - intros b. right. destruct (Hp b) as [->| ->]; [done|]. apply wake_wake.
Qed.

Lemma set_free_back i s : v_free s !! i = Some true -> set_free i true (set_free i false s) = s.
Proof. intros Hi. destruct s. vs. by rewrite list_insert_insert_eq, list_insert_id. Qed.

Lemma set_free_freed i j s x : i <> j -> set_free j x (freed i s) = freed i (set_free j x s).
Proof. intros Hn. unfold freed. vs. by rewrite list_insert_insert_ne. Qed.

Lemma unalloc_free s s' : unalloc s s' -> v_free s' = v_free s.
Proof. by intros (D & p & -> & _). Qed.

(** Three descriptors, or the state up to free descriptors and wakeups. *)
Lemma alloc3_spec s : length (v_free s) = NUM ->
  (exists i j k, v_free s !! i = Some true /\ v_free s !! j = Some true /\ v_free s !! k = Some true /\
     i <> j /\ i <> k /\ j <> k /\
     alloc3_desc s = Ret (Some [i; j; k]) (set_free k false (set_free j false (set_free i false s)))) \/
  (ntrue (v_free s) < 3)%nat /\ exists s', alloc3_desc s = Ret None s' /\ unalloc s s'.
Proof.
  intros Hl. unfold alloc3_desc. cbn [alloc3_loop].
  destruct (alloc_desc_spec s) as [[N0 E0]|(i & Hi & E0)]; rewrite (kbind_ret _ _ _ _ _ E0).
  { right. split; [lia|]. exists s. split; [done|apply unalloc_refl]. }
  pose proof (ntrue_false _ _ Hi) as N1. set (s1 := set_free i false s). assert (length (v_free s1) = NUM) as Hl1 by (unfold s1; vs; by rewrite length_insert).
  assert (v_free s1 !! i = Some false) as Hi1 by (apply list_lookup_insert_eq; by apply lookup_lt_Some in Hi).
  cbn [app]. destruct (alloc_desc_spec s1) as [[N0 E1]|(j & Hj & E1)]; rewrite (kbind_ret _ _ _ _ _ E1).
  { right. split; [unfold s1 in N0; vs; lia|]. exists (freed i s1). cbn [foldr].
    rewrite (kbind_ret _ _ _ _ _ (free_desc_spec i s1 Hl1 Hi1)). split; [done|].
    apply unalloc_freed; [done|]. unfold s1. rewrite set_free_back by done. apply unalloc_refl. }
  pose proof (ntrue_false _ _ Hj) as N2. set (s2 := set_free j false s1). assert (length (v_free s2) = NUM) as Hl2 by (unfold s2; vs; by rewrite length_insert).
  assert (i <> j) as Hij by (intros <-; congruence).
  cbn [app]. destruct (alloc_desc_spec s2) as [[N0 E2]|(k & Hk & E2)]; rewrite (kbind_ret _ _ _ _ _ E2).
  - right. split; [unfold s2, s1 in *; vs; lia|]. cbn [foldr].
    assert (v_free s !! j = Some true) as Hj' by (unfold s1 in Hj; vs; by rewrite list_lookup_insert_ne in Hj).
    assert (v_free s2 !! i = Some false) as Hi2 by (unfold s2; vs; by rewrite list_lookup_insert_ne).
    assert (v_free s2 !! j = Some false) as Hj2 by (apply list_lookup_insert_eq; by apply lookup_lt_Some in Hj).
    rewrite (kbind_ret _ _ _ _ _ (free_desc_spec i s2 Hl2 Hi2)). exists (freed j (freed i s2)).
    rewrite (kbind_ret _ _ _ _ _ (free_desc_spec j (freed i s2) ltac:(unfold freed; vs; by rewrite length_insert)
      ltac:(unfold freed; vs; by rewrite list_lookup_insert_ne))). split; [done|].
    apply unalloc_freed; [done|]. rewrite set_free_freed by done. apply unalloc_freed; [done|].
    unfold s2, s1. rewrite set_free_back by (vs; by rewrite list_lookup_insert_ne). rewrite set_free_back by done. apply unalloc_refl.
  - left. exists i, j, k. unfold s2, s1 in *. vs.
    assert (j <> k) as Hjk by (intros <-; rewrite list_lookup_insert_eq in Hk by (apply lookup_lt_Some in Hj; by rewrite length_insert in *); done).
    assert (i <> k) as Hik.
    { intros <-. rewrite list_lookup_insert_ne, list_lookup_insert_eq in Hk by (done || by apply lookup_lt_Some in Hi). done. }
    rewrite list_lookup_insert_ne in Hj by done. rewrite !list_lookup_insert_ne in Hk by done. done.
Qed.

(** ** Initialisation *)

Lemma off_features_off f n : n ∈ off_features -> Z.testbit (fold_left (fun f n => Z.ldiff f (Z.shiftl 1 n)) off_features f) n = false.
Proof.
  intros Hn. unfold off_features in *. cbn [fold_left]. rewrite !Z.ldiff_spec.
  rewrite !elem_of_cons, elem_of_nil in Hn. destruct_or! Hn; subst n; try done; by rewrite !andb_false_r.
Qed.

(** When the device is accepted, none of the unwanted features is, the pages of
    the queue are announced in two halves each, and the device is started
    last. *)
Lemma virtio_init_writes r desc avail used l : virtio_disk_init r desc avail used [] = Ret tt l ->
  (exists v, (32, v) ∈ l /\ forall n, n ∈ off_features -> Z.testbit v n = false) /\
  (forall a page, (a, page) ∈ [(128, desc); (144, avail); (160, used)] -> page <> 0 /\ (a, uint32 page) ∈ l /\ (a + 4, uint32 (Z.shiftr page 32)) ∈ l) /\
  exists l', l = (112, uint32 (Z.lor (r_status r) 4)) :: (68, 1) :: l'.
Proof.
  unfold virtio_disk_init. destruct (negb _); [done|]. unfold kbind, kmod. destruct (Z.land (r_status r) 8 =? 0); [done|].
  destruct (negb (r_ready r =? 0)); [done|]. destruct (r_max r =? 0); [done|]. destruct (r_max r <? Z.of_nat NUM); [done|].
  destruct (Z.eqb_spec desc 0), (Z.eqb_spec avail 0), (Z.eqb_spec used 0); try done. cbn [orb]. intros [= <-].
  split; [|split; [|by eexists]].
  - eexists. split; [rewrite !elem_of_cons; eauto 30|]. intros k Hk. unfold uint32. rewrite Z.mod_pow2_bits_low.
    + by apply off_features_off.
    + unfold off_features in Hk. rewrite !elem_of_cons, elem_of_nil in Hk. lia.
  - intros a page Hp. rewrite !elem_of_cons, elem_of_nil in Hp. destruct_or! Hp; simplify_eq; (split; [done|]); rewrite !elem_of_cons; eauto 30.
Qed.
