(* ===== verification/VirtioInv.v ===== *)
(** * The invariant of the disk driver

    Every descriptor in use belongs to one request, the chains of requests are
    intact while the device may look at them, each request waiting for the
    device is at one place between the available ring and the interrupt
    handler, and the rings never run full. *)

From S2P Require Import Prelude Virtio VirtioSpec.

(** ** The invariant *)

(** The head of the chain of a request, and its direction. *)
Definition head (p : vpc) : option nat :=
  match p with VRing _ i | VNotify _ i | VWait _ i _ => Some i | _ => None end.
Definition direction (p : vpc) : bool :=
  match p with VIdle => false | VAlloc w _ | VRing w _ | VNotify w _ | VWait w _ _ => w end.
(** A request that is not in the ring yet. *)
Definition fresh (p : vpc) : option nat := match p with VRing _ i | VNotify _ i => Some i | _ => None end.
Definition asleep (p : vpc) : bool := match p with VAlloc _ a | VWait _ _ a => a | _ => false end.

Definition info0 : vinfo := Info None 0.
Definition status (s : disk) (i : nat) : Z := i_status (nth i (v_info s) info0).

(** The requests in the available ring, and in the used ring. *)
Definition avail (s : disk) : list nat := seg (v_aring s) (v_next s) (dist (v_next s) (v_aidx s)).
Definition used (s : disk) : list nat := seg (v_uring s) (v_used_idx s) (dist (v_used_idx s) (v_uidx s)).
Definition queue (s : disk) : list nat := avail s ++ v_taken s ++ v_done s ++ used s.

(** The three descriptors of a request of [b]; [own] says which descriptor
    belongs to whom. *)
Definition chain_ok (own : nat -> option nat) (s : disk) (b : nat) (w : bool) (i : nat) : Prop :=
  exists j k, i <> j /\ i <> k /\ j <> k /\ own i = Some b /\ own j = Some b /\ own k = Some b /\
  (forall x, own x = Some b -> x = i \/ x = j \/ x = k) /\
  v_desc s !! i = Some (Desc (AOps i) 16 1 j) /\
  v_desc s !! j = Some (Desc (AData b) 1024 (if w then 1 else 3) k) /\
  v_desc s !! k = Some (Desc (AStatus i) 1 2 0) /\
  v_ops s !! i = Some (Req (if w then 1 else 0) 0 (b_blockno s b * 2)) /\
  i_b (nth i (v_info s) info0) = Some b.

Definition idx_ok (z : Z) : Prop := 0 <= z < 2 ^ 16.

Record vinv (own : nat -> option nat) (s : disk) : Prop := Vinv {
  vi_len : length (v_desc s) = NUM /\ length (v_free s) = NUM /\ length (v_info s) = NUM /\ length (v_ops s) = NUM /\
    length (v_aring s) = NUM /\ length (v_uring s) = NUM;
  vi_idx : idx_ok (v_aidx s) /\ idx_ok (v_next s) /\ idx_ok (v_uidx s) /\ idx_ok (v_used_idx s);
  vi_free : forall i x, v_free s !! i = Some x -> x = true <-> own i = None;
  vi_own : forall i b, own i = Some b -> (i < NUM)%nat /\ exists h, head (v_pc s b) = Some h;
  vi_chain : forall b i, head (v_pc s b) = Some i -> chain_ok own s b (direction (v_pc s b)) i;
  vi_nodup : NoDup (queue s);
  vi_queue : forall i, i ∈ queue s -> exists b w a, v_pc s b = VWait w i a /\ b_disk s b = true;
  vi_wait : forall b w i a, v_pc s b = VWait w i a -> b_disk s b = true -> i ∈ queue s;
  vi_pend : forall i, i ∈ avail s ++ v_taken s -> status s i = 255;
  vi_done : forall i, i ∈ v_done s ++ used s -> status s i = 0;
  vi_fin : forall b w i a, v_pc s b = VWait w i a -> b_disk s b = false -> a = false /\ status s i = 0;
  vi_new : forall b i, fresh (v_pc s b) = Some i -> b_disk s b = true /\ status s i = 255 /\ v_lock s = Some (HRw b);
  vi_lock : forall b, v_lock s = Some (HRw b) -> (exists i, head (v_pc s b) = Some i) /\ asleep (v_pc s b) = false;
  vi_notify : forall b w i, v_pc s b = VNotify w i -> v_aring s !! ring_pos (v_aidx s) = Some i;
  vi_asleep : forall b w, v_pc s b = VAlloc w true -> (ntrue (v_free s) < 3)%nat;
  vi_buf : forall b, 0 <= b_blockno s b < 2 ^ 31 /\ length (b_data s b) = 1024%nat
}.

Lemma vinv_init media data : (forall b, length (data b) = 1024%nat) -> vinv (fun _ => None) (disk_init media data).
Proof.
  intros Hd. constructor; cbn; try done; try (by intros ? []%elem_of_nil).
  - intros i x E. assert (x = true) as ->; [|done]. do 8 (destruct i as [|i]; [by injection E as <-|]). done.
  - constructor.
Qed.

(** The fields of the invariant that a step does not touch. *)
Ltac same I := first
  [ exact (vi_len _ _ I) | exact (vi_idx _ _ I) | exact (vi_free _ _ I) | exact (vi_own _ _ I) | exact (vi_chain _ _ I)
  | exact (vi_nodup _ _ I) | exact (vi_queue _ _ I) | exact (vi_wait _ _ I) | exact (vi_pend _ _ I) | exact (vi_done _ _ I)
  | exact (vi_fin _ _ I) | exact (vi_new _ _ I) | exact (vi_lock _ _ I) | exact (vi_notify _ _ I) | exact (vi_asleep _ _ I)
  | exact (vi_buf _ _ I) ].

Lemma list_remove (l : list nat) h : NoDup l -> h ∈ l -> l ≡ₚ h :: list_difference l [h].
Proof.
  intros Hn Hh. apply NoDup_Permutation; [done|constructor|].
  - rewrite list_elem_of_difference. set_solver.
  - by apply NoDup_list_difference.
  - intros x. rewrite elem_of_cons, list_elem_of_difference, list_elem_of_singleton. destruct (decide (x = h)) as [->|]; set_solver.
Qed.

Section steps.
Context (own : nat -> option nat) (s : disk) (I : vinv own s).

(** Requests of different buffers have different chains. *)
Lemma head_own b i : head (v_pc s b) = Some i -> own i = Some b /\ (i < NUM)%nat.
Proof. intros E. destruct (vi_chain _ _ I b i E) as (j & k & ? & ? & ? & Hi & _). split; [done|]. by apply (vi_own _ _ I) in Hi as [? _]. Qed.

Lemma head_inj b b' i : head (v_pc s b) = Some i -> head (v_pc s b') = Some i -> b = b'.
Proof. intros [E _]%head_own [E' _]%head_own. congruence. Qed.

Lemma owned_not_free b i : own i = Some b -> v_free s !! i = Some false.
Proof.
  intros Hx. destruct (vi_len _ _ I) as (_ & L2 & _). destruct (vi_own _ _ I i b Hx) as [Hlt _].
  destruct (v_free s !! i) as [[]|] eqn:E; [|done|apply lookup_ge_None in E; lia].
  apply (vi_free _ _ I) in E. destruct E as [E _]. by rewrite E in Hx.
Qed.

Lemma queue_lt i : i ∈ queue s -> (i < NUM)%nat.
Proof. intros (b & w & a & E & _)%(vi_queue _ _ I). apply (head_own b i). by rewrite E. Qed.

Lemma queue_len : (length (queue s) <= NUM)%nat.
Proof.
  rewrite <- (length_seq NUM 0). apply submseteq_length, NoDup_submseteq; [apply (vi_nodup _ _ I)|].
  intros i Hi%queue_lt. apply elem_of_seq. lia.
Qed.

(** With a head outside the queue there is room in the rings. *)
Lemma queue_room b i : head (v_pc s b) = Some i -> i ∉ queue s -> (length (queue s) < NUM)%nat.
Proof.
  intros Hb Hi. apply head_own in Hb as [_ Hlt]. change (S (length (queue s)) <= NUM)%nat.
  change (S (length (queue s))) with (length (i :: queue s)).
  rewrite <- (length_seq NUM 0). apply submseteq_length, NoDup_submseteq; [constructor; [done|apply (vi_nodup _ _ I)]|].
  intros x [->|Hx%queue_lt]%elem_of_cons; apply elem_of_seq; lia.
Qed.

Lemma fresh_head b i : fresh (v_pc s b) = Some i -> head (v_pc s b) = Some i.
Proof. by destruct (v_pc s b). Qed.

Lemma fresh_not_queued b i : fresh (v_pc s b) = Some i -> i ∉ queue s.
Proof.
  intros Hf (b' & w & a & E & _)%(vi_queue _ _ I). assert (b = b') as <-.
  { apply (head_inj _ _ i); [by apply fresh_head|by rewrite E]. }
  by rewrite E in Hf.
Qed.
(** ** The interrupt handler enters and leaves *)

Lemma no_fresh b i : v_lock s = None \/ v_lock s = Some HIntr -> fresh (v_pc s b) <> Some i.
Proof. intros Hl E. apply (vi_new _ _ I) in E as (_ & _ & E). destruct Hl; congruence. Qed.

Lemma intr_inv : v_lock s = None -> vinv own (set_lock (Some HIntr) s).
Proof. intros Hl. constructor; try same I. intros b i E. exfalso. by apply (no_fresh b i (or_introl Hl)). done. Qed.

Lemma intr_end_inv : v_lock s = Some HIntr -> vinv own (set_lock None s).
Proof. intros Hl. constructor; try same I. intros b i E. exfalso. by apply (no_fresh b i (or_intror Hl)). done. Qed.

(** ** A client changes its buffer *)

Lemma client_inv b n data : v_pc s b = VIdle -> 0 <= n < 2 ^ 31 -> length data = 1024%nat -> vinv own (set_buf b n data s).
Proof.
  intros Hb Hn Hd. constructor; try same I.
  - intros b' i E. change (v_pc (set_buf b n data s)) with (v_pc s) in *. assert (b' <> b) by (intros ->; by rewrite Hb in E).
    destruct (vi_chain _ _ I b' i E) as (j & k & Hc). exists j, k. vs. unfold vupd. by rewrite decide_False.
  - intros b'. vs. unfold vupd. destruct (decide (b' = b)); [done|]. apply (vi_buf _ _ I).
Qed.

(** ** The device *)

Lemma take_queue : v_next s <> v_aidx s ->
  avail s = nth (ring_pos (v_next s)) (v_aring s) 0%nat :: avail (dev_take s).
Proof.
  intros Hn. destruct (vi_idx _ _ I) as (Ha & Hx & _). unfold avail at 1. rewrite (dist_succ_from _ _ Hx Ha Hn). apply seg_cons.
Qed.

Lemma take_inv : v_next s <> v_aidx s -> vinv own (dev_take s).
Proof.
  intros Hn. pose proof (take_queue Hn) as E. set (x := nth (ring_pos (v_next s)) (v_aring s) 0%nat) in *.
  assert (queue (dev_take s) ≡ₚ queue s) as Eq.
  { unfold queue. rewrite E. change (v_taken (dev_take s)) with (x :: v_taken s). change (used (dev_take s)) with (used s).
    change (v_done (dev_take s)) with (v_done s). solve_Permutation. }
  constructor; try same I.
  - destruct (vi_idx _ _ I) as (Ha & Hx & Hr). split; [exact Ha|]. split; [|exact Hr]. apply Z.mod_pos_bound. lia.
  - rewrite Eq. same I.
  - intros i. rewrite Eq. apply (vi_queue _ _ I).
  - intros b w i a H1 H2. rewrite Eq. by eapply (vi_wait _ _ I).
  - intros i Hi. apply (vi_pend _ _ I). rewrite E. change (v_taken (dev_take s)) with (x :: v_taken s) in Hi. set_solver.
Qed.
Lemma parts_nodup : NoDup (avail s) /\ NoDup (v_taken s) /\ NoDup (v_done s) /\ NoDup (used s).
Proof. pose proof (vi_nodup _ _ I) as H. unfold queue in H. rewrite !NoDup_app in H. tauto. Qed.

Lemma push_used h : h ∈ v_done s -> used (dev_push h s) = used s ++ [h].
Proof.
  intros Hh. destruct parts_nodup as (_ & _ & Hnd & _). pose proof (list_remove _ _ Hnd Hh) as Er.
  assert (dist (v_used_idx s) (v_uidx s) < NUM)%nat as Hd.
  { pose proof (queue_len) as Hq. unfold queue in Hq. rewrite Er, !length_app in Hq. cbn [length] in Hq.
    unfold used in Hq. rewrite length_seg in Hq. lia. }
  unfold used, dev_push. vs. rewrite dist_succ_to by done. apply seg_push; [apply (vi_len _ _ I)|done|]. apply ring_pos_dist.
Qed.

Lemma push_inv h : h ∈ v_done s -> vinv own (dev_push h s).
Proof.
  intros Hh. destruct parts_nodup as (_ & _ & Hnd & _). pose proof (list_remove _ _ Hnd Hh) as Er. pose proof (push_used h Hh) as Eu.
  destruct (vi_idx _ _ I) as (Ha & Hx & Hu & Hv).
  assert (queue (dev_push h s) ≡ₚ queue s) as Eq.
  { unfold queue. rewrite Eu, Er. change (v_taken (dev_push h s)) with (v_taken s). change (avail (dev_push h s)) with (avail s).
    change (v_done (dev_push h s)) with (list_difference (v_done s) [h]). solve_Permutation. }
  constructor; try same I.
  - unfold dev_push. vs. rewrite length_insert. same I.
  - split; [exact Ha|]. split; [exact Hx|]. split; [|exact Hv]. apply Z.mod_pos_bound. lia.
  - rewrite Eq. same I.
  - intros i. rewrite Eq. apply (vi_queue _ _ I).
  - intros b w i a H1 H2. rewrite Eq. by eapply (vi_wait _ _ I).
  - intros i Hi. apply (vi_done _ _ I). rewrite Er. rewrite Eu in Hi. change (v_done (dev_push h s)) with (list_difference (v_done s) [h]) in Hi.
    set_solver.
Qed.
(** The device carries out the request of [b] at [h]. *)
Definition executed (b : nat) (w : bool) (h : nat) : disk :=
  let s1 := set_info h (Info (Some b) 0)
    (set_dev (v_next s) (list_difference (v_taken s) [h]) (h :: v_done s)
       (if w then media_write (v_media s) (b_blockno s b * 1024) (b_data s b) else v_media s) s) in
  if w then s1 else set_buf b (b_blockno s b) (media_read (v_media s) (b_blockno s b * 1024) 1024) s1.

Lemma taken_request h : h ∈ v_taken s -> exists b w a, v_pc s b = VWait w h a /\ b_disk s b = true.
Proof. intros Hh. apply (vi_queue _ _ I). unfold queue. set_solver. Qed.

Lemma exec_spec h b w a : v_pc s b = VWait w h a -> dev_exec h s = Some (executed b w h).
Proof.
  intros Hb. destruct (vi_chain _ _ I b h) as (j & k & _ & _ & _ & _ & _ & _ & _ & Dh & Dj & Dk & Oh & Hi); [by rewrite Hb|].
  rewrite Hb in Dj, Oh. cbn [direction] in Dj, Oh. unfold dev_exec.
  rewrite (nth_lookup_Some _ _ _ _ Dh). cbn [d_next d_addr d_len]. rewrite (nth_lookup_Some _ _ _ _ Dj). cbn [d_next d_addr d_len].
  rewrite (nth_lookup_Some _ _ _ _ Dk). cbn [d_next d_addr d_len]. rewrite (nth_lookup_Some _ _ _ _ Oh). fold info0. rewrite Hi.
  destruct (vi_buf _ _ I b) as [_ Hl]. replace (Z.to_nat 1024) with 1024%nat by done.
  unfold executed. destruct w; cbn [r_sector r_type d_flags]; cbn -[media_write media_read list_difference Z.mul take];
    replace (b_blockno s b * 2 * 512) with (b_blockno s b * 1024) by lia; [|done].
  by rewrite take_ge by (rewrite Hl; done).
Qed.

(** The change to the status and the lists of the device. *)
Lemma exec_flow_inv h b w a m : h ∈ v_taken s -> v_pc s b = VWait w h a ->
  vinv own (set_info h (Info (Some b) 0) (set_dev (v_next s) (list_difference (v_taken s) [h]) (h :: v_done s) m s)).
Proof.
  intros Hh Hb. destruct parts_nodup as (_ & Hnt & _ & _). pose proof (list_remove _ _ Hnt Hh) as Er.
  destruct (vi_len _ _ I) as (L1 & L2 & L3 & L4 & L5 & L6). destruct (head_own b h ltac:(by rewrite Hb)) as [Ho Hlt].
  set (s' := set_info h _ _).
  assert (queue s' ≡ₚ queue s) as Eq by (unfold queue; rewrite Er; unfold s', avail, used; vs; solve_Permutation).
  assert (forall i, i <> h -> nth i (v_info s') info0 = nth i (v_info s) info0) as Hne.
  { intros i Hi. unfold s'. vs. by rewrite !nth_lookup, list_lookup_insert_ne. }
  assert (nth h (v_info s') info0 = Info (Some b) 0) as Heq.
  { unfold s'. vs. rewrite nth_lookup, list_lookup_insert_eq; [done|]. by rewrite L3. }
  assert (forall i, status s' i = if decide (i = h) then 0 else status s i) as Hst.
  { intros i. unfold status. destruct (decide (i = h)) as [->|]; [by rewrite Heq|by rewrite Hne]. }
  pose proof (vi_nodup _ _ I) as Hnd.
  constructor; try same I.
  - unfold s'. vs. by rewrite length_insert.
  - intros b' i E. destruct (vi_chain _ _ I b' i E) as (j & k & H1 & H2 & H3 & H4 & H5 & H6 & H7 & H8 & H9 & H10 & H11 & H12).
    exists j, k. repeat (split; [assumption|]). destruct (decide (i = h)) as [->|Hi]; [|by rewrite Hne].
    rewrite Heq. cbn. congruence.
  - by rewrite Eq.
  - intros i. rewrite Eq. apply (vi_queue _ _ I).
  - intros b' w' i a' H1 H2. rewrite Eq. by eapply (vi_wait _ _ I).
  - intros i Hi. change (avail s') with (avail s) in Hi. change (v_taken s') with (list_difference (v_taken s) [h]) in Hi.
    assert (i <> h) as Hih.
    { intros ->. apply elem_of_app in Hi as [Hi|Hi]; [|apply list_elem_of_difference in Hi; set_solver].
      unfold queue in Hnd. apply NoDup_app in Hnd as (_ & Hd & _). apply (Hd h Hi). set_solver. }
    rewrite Hst, decide_False by done. apply (vi_pend _ _ I). apply elem_of_app in Hi as [Hi|Hi]; [set_solver|].
    apply list_elem_of_difference in Hi. set_solver.
  - intros i Hi. change (v_done s') with (h :: v_done s) in Hi. change (used s') with (used s) in Hi. rewrite Hst.
    destruct (decide (i = h)); [done|]. apply (vi_done _ _ I). set_solver.
  - intros b' w' i a' E D. rewrite Hst. destruct (vi_fin _ _ I b' w' i a' E D). by destruct (decide (i = h)).
  - intros b' i E. rewrite Hst. destruct (vi_new _ _ I b' i E) as (H1 & H2 & H3). split; [done|]. split; [|done].
    rewrite decide_False; [done|]. intros ->. apply (fresh_not_queued b' h E). unfold queue. set_solver.
Qed.

Lemma buf_inv b data : length data = 1024%nat -> vinv own (set_buf b (b_blockno s b) data s).
Proof.
  intros Hd. assert (forall b', vupd (b_blockno s) b (b_blockno s b) b' = b_blockno s b') as Hn.
  { intros b'. unfold vupd. by destruct (decide (b' = b)) as [->|]. }
  constructor; try same I.
  - intros b' i E. destruct (vi_chain _ _ I b' i E) as (j & k & Hc). exists j, k. vs. by rewrite Hn.
  - intros b'. vs. rewrite Hn. destruct (vi_buf _ _ I b'). unfold vupd. by destruct (decide (b' = b)).
Qed.
End steps.

Lemma exec_inv own s h b w a : vinv own s -> h ∈ v_taken s -> v_pc s b = VWait w h a -> vinv own (executed s b w h).
Proof.
  intros Hi Hh Hb. unfold executed. destruct w; [by eapply exec_flow_inv|].
  refine (buf_inv own _ (exec_flow_inv own s Hi h b false a (v_media s) Hh Hb) b _ _).
  unfold media_read. by rewrite length_map, length_seq.
Qed.

(** ** The call *)

Section call.
Context (own : nat -> option nat) (s : disk) (I : vinv own s).

Lemma fresh_room b i : fresh (v_pc s b) = Some i -> (dist (v_next s) (v_aidx s) < NUM)%nat.
Proof.
  intros Hf. pose proof (queue_room own s I b i (fresh_head s b i Hf) (fresh_not_queued own s I b i Hf)) as Hq.
  unfold queue in Hq. rewrite !length_app in Hq. unfold avail in Hq. rewrite length_seg in Hq. lia.
Qed.

Lemma ring_inv b w i : v_pc s b = VRing w i -> vinv own (set_vpc b (VNotify w i) (set_aring (ring_pos (v_aidx s)) i s)).
Proof.
  intros Hb. assert (fresh (v_pc s b) = Some i) as Hf by (by rewrite Hb). set (s' := set_vpc _ _ _).
  destruct (vi_len _ _ I) as (L1 & L2 & L3 & L4 & L5 & L6).
  assert (avail s' = avail s) as Ea.
  { unfold avail, s'. vs. apply seg_write; [by eapply fresh_room|apply ring_pos_dist]. }
  assert (queue s' = queue s) as Eq by (unfold queue; by rewrite Ea).
  assert (forall b', head (v_pc s' b') = head (v_pc s b') /\ fresh (v_pc s' b') = fresh (v_pc s b') /\
    direction (v_pc s' b') = direction (v_pc s b') /\ asleep (v_pc s' b') = asleep (v_pc s b')) as Hp.
  { intros b'. unfold s'. vs. unfold vupd. destruct (decide (b' = b)) as [->|]; [by rewrite Hb|done]. }
  assert (forall b' p, v_pc s' b' = p -> b' <> b -> v_pc s b' = p) as Hne.
  { intros b' p. unfold s'. vs. unfold vupd. by destruct (decide (b' = b)). }
  assert (v_pc s' b = VNotify w i) as Heq by (unfold s'; vs; unfold vupd; by rewrite decide_True).
  constructor; try same I.
  - unfold s'. vs. by rewrite length_insert.
  - intros j b' E. destruct (Hp b') as (-> & _). by apply (vi_own _ _ I).
  - intros b' j. destruct (Hp b') as (-> & _ & -> & _). apply (vi_chain _ _ I).
  - rewrite Eq. same I.
  - intros j Hj. rewrite Eq in Hj. destruct (vi_queue _ _ I j Hj) as (b' & w' & a' & E & D). exists b', w', a'. split; [|done].
    unfold s'. vs. unfold vupd. rewrite decide_False; [done|]. intros ->. congruence.
  - intros b' w' j a' E D. rewrite Eq. destruct (decide (b' = b)) as [->|Hn]; [congruence|]. eapply (vi_wait _ _ I); [by apply Hne|done].
  - rewrite Ea. same I.
  - intros b' w' j a' E D. destruct (decide (b' = b)) as [->|Hn]; [congruence|]. eapply (vi_fin _ _ I); [by apply Hne|done].
  - intros b' j. destruct (Hp b') as (_ & -> & _). apply (vi_new _ _ I).
  - intros b'. destruct (Hp b') as (-> & _ & _ & ->). apply (vi_lock _ _ I).
  - intros b' w' j E. destruct (decide (b' = b)) as [->|Hn].
    + rewrite Heq in E. injection E as <- <-. unfold s'. vs. apply list_lookup_insert_eq. rewrite L5. apply ring_pos_lt.
    + exfalso. apply Hn. assert (fresh (v_pc s b') = Some j) as Hf' by (by rewrite (Hne _ _ E Hn)).
      apply (vi_new _ _ I) in Hf' as (_ & _ & E1). apply (vi_new _ _ I) in Hf as (_ & _ & E2). congruence.
  - intros b' w' E. destruct (decide (b' = b)) as [->|Hn]; [congruence|]. eapply (vi_asleep _ _ I). by apply Hne.
Qed.
Lemma notify_inv b w i : v_pc s b = VNotify w i ->
  vinv own (set_vpc b (VWait w i false) (set_aidx (uint16 (v_aidx s + 1)) s)).
Proof.
  intros Hb. assert (fresh (v_pc s b) = Some i) as Hf by (by rewrite Hb). set (s' := set_vpc _ _ _).
  destruct (vi_new _ _ I b i Hf) as (Hd & Hst & Hlk). destruct (vi_len _ _ I) as (L1 & L2 & L3 & L4 & L5 & L6).
  assert (avail s' = avail s ++ [i]) as Ea.
  { unfold avail, s'. vs. rewrite dist_succ_to by (by eapply fresh_room). rewrite seg_snoc, <- ring_pos_dist. do 2 f_equal.
    by apply nth_lookup_Some, (vi_notify _ _ I b w). }
  assert (queue s' ≡ₚ i :: queue s) as Eq.
  { unfold queue. rewrite Ea. change (v_taken s') with (v_taken s). change (v_done s') with (v_done s).
    change (used s') with (used s). solve_Permutation. }
  assert (forall b', b' <> b -> v_pc s' b' = v_pc s b') as Hne by (intros; unfold s'; vs; unfold vupd; by rewrite decide_False).
  assert (v_pc s' b = VWait w i false) as Heq by (unfold s'; vs; unfold vupd; by rewrite decide_True).
  assert (forall b', head (v_pc s' b') = head (v_pc s b') /\ direction (v_pc s' b') = direction (v_pc s b')) as Hp.
  { intros b'. destruct (decide (b' = b)) as [->|Hn]; [by rewrite Heq, Hb|by rewrite Hne]. }
  constructor; try same I.
  - destruct (vi_idx _ _ I) as (_ & Hx). split; [|exact Hx]. apply Z.mod_pos_bound. lia.
  - intros j b' E. destruct (Hp b') as (-> & _). by apply (vi_own _ _ I).
  - intros b' j. destruct (Hp b') as (-> & ->). apply (vi_chain _ _ I).
  - rewrite Eq. constructor; [by eapply fresh_not_queued|same I].
  - intros j Hj. rewrite Eq in Hj. apply elem_of_cons in Hj as [->|Hj]; [by exists b, w, false|].
    destruct (vi_queue _ _ I j Hj) as (b' & w' & a' & E & D). exists b', w', a'. split; [|done].
    rewrite Hne; [done|]. intros ->. congruence.
  - intros b' w' j a' E D. rewrite Eq. destruct (decide (b' = b)) as [->|Hn].
    + rewrite Heq in E. injection E as <- <- <-. left.
    + right. rewrite Hne in E by done. by eapply (vi_wait _ _ I).
  - intros j. rewrite Ea. intros Hj. change (status s' j) with (status s j). destruct (decide (j = i)) as [->|Hn]; [done|].
    apply (vi_pend _ _ I). change (v_taken s') with (v_taken s) in Hj. set_solver.
  - intros b' w' j a' E D. destruct (decide (b' = b)) as [->|Hn]; [change (b_disk s b = false) in D; congruence|].
    rewrite Hne in E by done. by eapply (vi_fin _ _ I).
  - intros b' j E. destruct (decide (b' = b)) as [->|Hn]; [by rewrite Heq in E|]. rewrite Hne in E by done. by apply (vi_new _ _ I).
  - intros b' E. destruct (decide (b' = b)) as [->|Hn]; [rewrite Heq; eauto|]. rewrite Hne by done. by apply (vi_lock _ _ I).
  - intros b' w' j E. destruct (decide (b' = b)) as [->|Hn]; [congruence|]. rewrite Hne in E by done.
    assert (fresh (v_pc s b') = Some j) as Hf' by (by rewrite E). apply (vi_new _ _ I) in Hf' as (_ & _ & E1). congruence.
  - intros b' w' E. destruct (decide (b' = b)) as [->|Hn]; [congruence|]. rewrite Hne in E by done. by eapply (vi_asleep _ _ I).
Qed.

Lemma wait_sleep_inv b w i a : v_pc s b = VWait w i a -> b_disk s b = true -> v_lock s = None \/ v_lock s = Some (HRw b) ->
  vinv own (set_lock None (set_vpc b (VWait w i true) s)).
Proof.
  intros Hb Hd Hlk. set (s' := set_lock _ _).
  assert (forall b', b' <> b -> v_pc s' b' = v_pc s b') as Hne by (intros; unfold s'; vs; unfold vupd; by rewrite decide_False).
  assert (v_pc s' b = VWait w i true) as Heq by (unfold s'; vs; unfold vupd; by rewrite decide_True).
  assert (forall b', head (v_pc s' b') = head (v_pc s b') /\ direction (v_pc s' b') = direction (v_pc s b')) as Hp.
  { intros b'. destruct (decide (b' = b)) as [->|Hn]; [by rewrite Heq, Hb|by rewrite Hne]. }
  assert (forall b' j, fresh (v_pc s b') <> Some j) as Hnf.
  { intros b' j E. pose proof E as E'. apply (vi_new _ _ I) in E as (_ & _ & E). destruct Hlk as [Hlk|Hlk]; [congruence|].
    assert (b' = b) as -> by congruence. by rewrite Hb in E'. }
  constructor; try same I.
  - intros j b' E. destruct (Hp b') as (-> & _). by apply (vi_own _ _ I).
  - intros b' j. destruct (Hp b') as (-> & ->). apply (vi_chain _ _ I).
  - intros j Hj. destruct (vi_queue _ _ I j Hj) as (b' & w' & a' & E & D). destruct (decide (b' = b)) as [->|Hn].
    + exists b, w, true. split; [|done]. rewrite Heq. congruence.
    + exists b', w', a'. by rewrite Hne.
  - intros b' w' j a' E D. destruct (decide (b' = b)) as [->|Hn].
    + rewrite Heq in E. injection E as <- <- <-. by eapply (vi_wait _ _ I).
    + rewrite Hne in E by done. by eapply (vi_wait _ _ I).
  - intros b' w' j a' E D. destruct (decide (b' = b)) as [->|Hn]; [change (b_disk s b = false) in D; congruence|].
    rewrite Hne in E by done. by eapply (vi_fin _ _ I).
  - intros b' j E. exfalso. destruct (decide (b' = b)) as [->|Hn]; [by rewrite Heq in E|]. rewrite Hne in E by done. by apply (Hnf b' j).
  - done.
  - intros b' w' j E. exfalso. destruct (decide (b' = b)) as [->|Hn]; [congruence|]. rewrite Hne in E by done. apply (Hnf b' j). by rewrite E.
  - intros b' w' E. destruct (decide (b' = b)) as [->|Hn]; [congruence|]. rewrite Hne in E by done. by eapply (vi_asleep _ _ I).
Qed.
(** The interrupt handler takes one request from the used ring. *)
Definition handled (b : nat) : disk := set_used_idx (uint16 (v_used_idx s + 1)) (wakeup_buf b (set_bdisk b false s)).

Lemma used_head : v_used_idx s <> v_uidx s -> exists b w i a,
  used s = i :: seg (v_uring s) (uint16 (v_used_idx s + 1)) (dist (uint16 (v_used_idx s + 1)) (v_uidx s)) /\
  v_pc s b = VWait w i a /\ b_disk s b = true /\ intr_one s = Ret tt (handled b).
Proof.
  intros Hn. destruct (vi_idx _ _ I) as (_ & _ & Hu & Hv). set (i := nth (ring_pos (v_used_idx s)) (v_uring s) 0%nat).
  assert (used s = i :: seg (v_uring s) (uint16 (v_used_idx s + 1)) (dist (uint16 (v_used_idx s + 1)) (v_uidx s))) as Eu.
  { unfold used. rewrite (dist_succ_from _ _ Hv Hu Hn). apply seg_cons. }
  destruct (vi_queue _ _ I i) as (b & w & a & Hb & Hd); [unfold queue; rewrite Eu; set_solver|].
  exists b, w, i, a. split; [done|]. split; [done|]. split; [done|]. unfold intr_one. rewrite (kbind_ret kget _ s s s eq_refl). fold i info0.
  pose proof (vi_done _ _ I i ltac:(rewrite Eu; set_solver)) as Hst. unfold status in Hst. rewrite Hst. cbn [negb Z.eqb].
  destruct (vi_chain _ _ I b i) as (j & k & _ & _ & _ & _ & _ & _ & _ & _ & _ & _ & _ & ->); [by rewrite Hb|]. done.
Qed.

Lemma handled_inv b w i a : v_pc s b = VWait w i a -> b_disk s b = true -> v_lock s = Some HIntr -> v_used_idx s <> v_uidx s ->
  used s = i :: seg (v_uring s) (uint16 (v_used_idx s + 1)) (dist (uint16 (v_used_idx s + 1)) (v_uidx s)) -> vinv own (handled b).
Proof.
  intros Hb Hd Hlk Hn Eu. set (s' := handled b). change (seg _ _ _) with (used s') in Eu.
  assert (forall b', b' <> b -> v_pc s' b' = v_pc s b' /\ b_disk s' b' = b_disk s b') as Hne.
  { intros. unfold s', handled. vs. unfold vupd. by rewrite !decide_False. }
  assert (v_pc s' b = VWait w i false /\ b_disk s' b = false) as [Heq Hdq].
  { unfold s', handled. vs. unfold vupd. by rewrite !decide_True, Hb. }
  assert (forall b', head (v_pc s' b') = head (v_pc s b') /\ direction (v_pc s' b') = direction (v_pc s b')) as Hp.
  { intros b'. destruct (decide (b' = b)) as [->|Hnb]; [by rewrite Heq, Hb|by destruct (Hne b' Hnb) as [-> _]]. }
  assert (queue s ≡ₚ i :: queue s') as Eq.
  { unfold queue. rewrite Eu. change (avail s') with (avail s). change (v_taken s') with (v_taken s). change (v_done s') with (v_done s).
    solve_Permutation. }
  pose proof (vi_nodup _ _ I) as Hnd. rewrite Eq in Hnd. apply NoDup_cons in Hnd as [Hni Hnd].
  assert (forall b' j, fresh (v_pc s b') <> Some j) as Hnf by (intros; apply (no_fresh own s I); by right).
  constructor; try same I.
  - destruct (vi_idx _ _ I) as (? & ? & ? & _). do 3 (split; [done|]). apply Z.mod_pos_bound. lia.
  - intros j b' E. destruct (Hp b') as (-> & _). by apply (vi_own _ _ I).
  - intros b' j. destruct (Hp b') as (-> & ->). apply (vi_chain _ _ I).
  - done.
  - intros j Hj. destruct (vi_queue _ _ I j) as (b' & w' & a' & E & D); [rewrite Eq; by right|]. exists b', w', a'.
    destruct (decide (b' = b)) as [->|Hnb]; [|by destruct (Hne b' Hnb) as [-> ->]]. assert (j = i) by congruence. by subst j.
  - intros b' w' j a' E D. destruct (decide (b' = b)) as [->|Hnb]; [congruence|]. destruct (Hne b' Hnb) as [Ep Ed]. rewrite Ep in E. rewrite Ed in D.
    pose proof (vi_wait _ _ I b' w' j a' E D) as Hj. rewrite Eq in Hj. apply elem_of_cons in Hj as [->|Hj]; [|done].
    exfalso. apply Hnb. apply (head_inj own s I _ _ i); [by rewrite E|by rewrite Hb].
  - intros j Hj. apply (vi_done _ _ I). rewrite Eu. change (v_done s') with (v_done s) in Hj. set_solver.
  - intros b' w' j a' E D. destruct (decide (b' = b)) as [->|Hnb].
    + rewrite Heq in E. injection E as <- <- <-. split; [done|]. apply (vi_done _ _ I). rewrite Eu. set_solver.
    + destruct (Hne b' Hnb) as [Ep Ed]. rewrite Ep in E. rewrite Ed in D. by eapply (vi_fin _ _ I).
  - intros b' j E. exfalso. destruct (decide (b' = b)) as [->|Hnb]; [by rewrite Heq in E|]. destruct (Hne b' Hnb) as [Ep _]. rewrite Ep in E. by apply (Hnf b' j).
  - intros b' E. change (v_lock s = Some (HRw b')) in E. congruence.
  - intros b' w' j E. exfalso. destruct (decide (b' = b)) as [->|Hnb]; [congruence|]. destruct (Hne b' Hnb) as [Ep _]. apply (Hnf b' j). by rewrite <- Ep, E.
  - intros b' w' E. destruct (decide (b' = b)) as [->|Hnb]; [congruence|]. destruct (Hne b' Hnb) as [Ep _]. rewrite Ep in E. by eapply (vi_asleep _ _ I).
Qed.

(** An allocation that fails. *)
Lemma unalloc_inv b w a s1 : v_pc s b = VIdle \/ v_pc s b = VAlloc w a -> (ntrue (v_free s) < 3)%nat -> unalloc s s1 ->
  vinv own (set_vpc b (VAlloc w true) s1).
Proof.
  intros Hb Hn (D & p & -> & HD & Hk & Hp). set (s' := set_vpc _ _ _).
  assert (head (v_pc s b) = None /\ fresh (v_pc s b) = None) as [Hh Hf] by (by destruct Hb as [-> | ->]).
  assert (v_pc s' b = VAlloc w true) as Heq by (unfold s'; vs; unfold vupd; by rewrite decide_True).
  assert (forall b', b' <> b -> v_pc s' b' = p b') as Hpb by (intros; unfold s'; vs; unfold vupd; by rewrite decide_False).
  assert (forall b' x, v_pc s' b' = x -> (forall w a, x <> VAlloc w a) -> b' <> b /\ v_pc s b' = x) as Hinv.
  { intros b' x <- Hx. destruct (decide (b' = b)) as [->|Hnb]; [by rewrite Heq in Hx; specialize (Hx w true)|]. split; [done|].
    rewrite Hpb in * by done. destruct (Hp b') as [->|E]; [done|]. rewrite E in *.
    destruct (v_pc s b'); [done| |done..]. by specialize (Hx write false). }
  assert (forall b', head (v_pc s' b') = head (v_pc s b') /\ fresh (v_pc s' b') = fresh (v_pc s b') /\
    (head (v_pc s b') <> None -> v_pc s' b' = v_pc s b')) as Hq.
  { intros b'. destruct (decide (b' = b)) as [->|Hnb]; [by rewrite Heq, Hh, Hf|].
    rewrite Hpb by done. destruct (Hp b') as [->| ->]; [done|]. by destruct (v_pc s b'). }
  constructor; try same I.
  - destruct (vi_len _ _ I) as (L1 & L2). split; [|exact L2]. unfold s'. vs. congruence.
  - intros j b' E. destruct (Hq b') as (-> & _). by apply (vi_own _ _ I).
  - intros b' j E. destruct (Hq b') as (E1 & _ & E2). rewrite E1 in E. rewrite E2 by congruence.
    destruct (vi_chain _ _ I b' j E) as (j1 & k1 & H1 & H2 & H3 & H4 & H5 & H6 & H7 & H8 & H9 & H10 & H11).
    assert (forall x, own x = Some b' -> D !! x = v_desc s !! x) as Hsame.
    { intros x Hx. apply Hk. by eapply (owned_not_free own s I). }
    exists j1, k1. unfold s'. vs. rewrite !Hsame by done. done.
  - intros j Hj. destruct (vi_queue _ _ I j Hj) as (b' & w' & a' & E & Dk). exists b', w', a'. split; [|done].
    destruct (Hq b') as (_ & _ & ->); [done|]. by rewrite E.
  - intros b' w' j a' E Dk. apply Hinv in E as [_ E]; [|done]. by eapply (vi_wait _ _ I).
  - intros b' w' j a' E Dk. apply Hinv in E as [_ E]; [|done]. by eapply (vi_fin _ _ I).
  - intros b' j E. destruct (Hq b') as (_ & E1 & _). rewrite E1 in E. by apply (vi_new _ _ I).
  - intros b' E. destruct (vi_lock _ _ I b' E) as [[j Hj] Ha]. destruct (Hq b') as (_ & _ & E'). rewrite E' by (by rewrite Hj). eauto.
  - intros b' w' j E. apply Hinv in E as [_ E]; [|done]. by eapply (vi_notify _ _ I).
  - done.
Qed.
(** An allocation that succeeds, with the request formatted. *)
Definition submitted (b : nat) (w : bool) (i j k : nat) : disk :=
  let s1 := set_free k false (set_free j false (set_free i false s)) in
  let s2 := set_ops i (Req (if w then VIRTIO_BLK_T_OUT else VIRTIO_BLK_T_IN) 0 (uint32 (b_blockno s1 b * 2))) s1 in
  let s3 := set_desc i (Desc (AOps i) 16 VRING_DESC_F_NEXT j) s2 in
  let s4 := set_desc j (Desc (AData b) 1024 (Z.lor (if w then 0 else VRING_DESC_F_WRITE) VRING_DESC_F_NEXT) k) s3 in
  let s5 := set_info i (Info (i_b (nth i (v_info s4) (Info None 0))) 255) s4 in
  let s6 := set_desc k (Desc (AStatus i) 1 VRING_DESC_F_WRITE 0) s5 in
  set_lock (Some (HRw b)) (set_vpc b (VRing w i) (set_info i (Info (Some b) 255) (set_bdisk b true s6))).

Definition give (i j k b : nat) : nat -> option nat := fun x => if decide (x ∈ [i; j; k]) then Some b else own x.

Section submit.
Context (b : nat) (w a : bool) (i j k : nat).
Context (Hlk : v_lock s = None) (Hb : v_pc s b = VIdle \/ v_pc s b = VAlloc w a).
Context (Fi : v_free s !! i = Some true) (Fj : v_free s !! j = Some true) (Fk : v_free s !! k = Some true).
Context (Hij : i <> j) (Hik : i <> k) (Hjk : j <> k).
Let s' := submitted b w i j k.

Lemma sub_free x : x ∈ [i; j; k] -> v_free s !! x = Some true /\ own x = None /\ (x < NUM)%nat.
Proof.
  intros Hx. assert (v_free s !! x = Some true) as Hf by (rewrite !elem_of_cons, elem_of_nil in Hx; by destruct_or! Hx; subst).
  split; [done|]. split; [by apply (vi_free _ _ I x true Hf)|]. apply lookup_lt_Some in Hf. destruct (vi_len _ _ I). lia.
Qed.

Lemma sub_out x b' : own x = Some b' -> x ∉ [i; j; k].
Proof. intros E Hin. apply sub_free in Hin as (_ & E' & _). congruence. Qed.

Lemma sub_head : head (v_pc s b) = None.
Proof. by destruct Hb as [-> | ->]. Qed.

Lemma sub_not_own x : own x <> Some b.
Proof. intros E. apply (vi_own _ _ I) in E as [_ [h E]]. rewrite sub_head in E. done. Qed.

Lemma sub_other b' : b' <> b -> v_pc s' b' = v_pc s b' /\ b_disk s' b' = b_disk s b'.
Proof. intros. unfold s', submitted. vp. unfold vupd. by rewrite !decide_False. Qed.

Lemma sub_pc : v_pc s' b = VRing w i /\ b_disk s' b = true.
Proof. unfold s', submitted. vp. unfold vupd. by rewrite !decide_True. Qed.

Lemma sub_desc : v_desc s' = <[k := Desc (AStatus i) 1 2 0]> (<[j := Desc (AData b) 1024 (if w then 1 else 3) k]> (<[i := Desc (AOps i) 16 1 j]> (v_desc s))).
Proof. unfold s', submitted. vp. by destruct w. Qed.

Lemma sub_frees : v_free s' = <[k := false]> (<[j := false]> (<[i := false]> (v_free s))).
Proof. unfold s', submitted. by vp. Qed.

Lemma sub_info : v_info s' = <[i := Info (Some b) 255]> (v_info s).
Proof. unfold s', submitted. vp. by rewrite list_insert_insert_eq. Qed.

Lemma sub_ops : v_ops s' = <[i := Req (if w then 1 else 0) 0 (b_blockno s b * 2)]> (v_ops s).
Proof. unfold s', submitted. vp. destruct (vi_buf _ _ I b). by rewrite uint32_small by lia. Qed.

Lemma sub_same x : x ∉ [i; j; k] -> v_desc s' !! x = v_desc s !! x /\ v_free s' !! x = v_free s !! x.
Proof.
  intros Hn. rewrite !elem_of_cons, elem_of_nil in Hn. rewrite sub_desc, sub_frees, !list_lookup_insert_ne by naive_solver. done.
Qed.

Lemma sub_info_ne x : x <> i -> nth x (v_info s') info0 = nth x (v_info s) info0.
Proof. intros Hn. by rewrite sub_info, !nth_lookup, list_lookup_insert_ne. Qed.

Lemma sub_info_eq : nth i (v_info s') info0 = Info (Some b) 255.
Proof.
  rewrite sub_info, nth_lookup, list_lookup_insert_eq; [done|]. destruct (vi_len _ _ I) as (_ & _ & -> & _). apply sub_free. left.
Qed.

Lemma sub_queue x : x ∈ queue s -> x <> i.
Proof.
  intros Hq ->. destruct (vi_queue _ _ I i Hq) as (b' & w' & a' & E & _). destruct (head_own own s I b' i) as [E' _]; [by rewrite E|].
  apply sub_out in E'. apply E'. left.
Qed.

Lemma sub_taken x y : x ∈ [i; j; k] -> v_free s' !! x = Some y -> y = false.
Proof.
  intros Hx Hy. destruct (sub_free x Hx) as (_ & _ & Hlt). destruct (vi_len _ _ I) as (_ & L2 & _).
  rewrite sub_frees in Hy. rewrite !elem_of_cons, elem_of_nil in Hx.
  destruct (decide (x = k)) as [->|]; [rewrite list_lookup_insert_eq in Hy by (by rewrite !length_insert, L2); congruence|].
  rewrite list_lookup_insert_ne in Hy by done.
  destruct (decide (x = j)) as [->|]; [rewrite list_lookup_insert_eq in Hy by (by rewrite !length_insert, L2); congruence|].
  rewrite list_lookup_insert_ne in Hy by done.
  destruct (decide (x = i)) as [->|]; [rewrite list_lookup_insert_eq in Hy by (by rewrite L2); congruence|naive_solver].
Qed.

Lemma sub_chain b' h : head (v_pc s' b') = Some h -> chain_ok (give i j k b) s' b' (direction (v_pc s' b')) h.
Proof.
  destruct (vi_len _ _ I) as (L1 & L2 & L3 & L4 & _). intros E. destruct (decide (b' = b)) as [->|Hnb].
  - rewrite (proj1 sub_pc) in *. injection E as <-. exists j, k. do 3 (split; [done|]). unfold give.
    do 3 (split; [rewrite decide_True by set_solver; done|]). split.
    { intros x. destruct (decide (x ∈ [i; j; k])) as [Hi|Hi]; [set_solver|]. intros E. by apply sub_not_own in E. }
    rewrite sub_info_eq, sub_desc, sub_ops. cbn [direction].
    rewrite (list_lookup_insert_ne _ k i), (list_lookup_insert_ne _ j i), (list_lookup_insert_ne _ k j) by done.
    by rewrite !list_lookup_insert_eq by (rewrite ?length_insert, ?L1, ?L4; apply sub_free; set_solver).
  - destruct (sub_other b' Hnb) as [Ep _]. rewrite Ep in *.
    destruct (vi_chain _ _ I b' h E) as (j1 & k1 & H1 & H2 & H3 & H4 & H5 & H6 & H7 & H8 & H9 & H10 & H11 & H12).
    exists j1, k1. do 3 (split; [done|]). unfold give.
    do 3 (split; [rewrite decide_False by (by eapply sub_out); done|]). split.
    { intros x. destruct (decide (x ∈ [i; j; k])) as [Hi|Hi]; [congruence|]. apply H7. }
    rewrite !(fun x E => proj1 (sub_same x E)) by (by eapply sub_out). do 3 (split; [done|]).
    assert (h <> i) by (intros ->; apply (sub_out i b' H4); left). by rewrite sub_ops, list_lookup_insert_ne, sub_info_ne by done.
Qed.

Lemma sub_asleep : (ntrue (v_free s') <= ntrue (v_free s))%nat.
Proof.
  rewrite sub_frees. pose proof (ntrue_false _ _ Fi).
  pose proof (ntrue_false (<[i := false]> (v_free s)) j ltac:(by rewrite list_lookup_insert_ne)).
  pose proof (ntrue_false (<[j := false]> (<[i := false]> (v_free s))) k ltac:(by rewrite !list_lookup_insert_ne)). lia.
Qed.

Lemma submitted_inv : vinv (give i j k b) s'.
Proof.
  destruct sub_pc as [Heq Hdq]. constructor; try same I.
  - rewrite sub_desc, sub_frees, sub_info, sub_ops, !length_insert. same I.
  - intros x y Hy. unfold give. destruct (decide (x ∈ [i; j; k])) as [Hi|Hi]; [by rewrite (sub_taken x y Hi Hy)|].
    rewrite (proj2 (sub_same x Hi)) in Hy. by apply (vi_free _ _ I).
  - intros x b' E. unfold give in E. destruct (decide (x ∈ [i; j; k])) as [Hi|Hi].
    + injection E as <-. split; [by apply sub_free|]. exists i. by rewrite Heq.
    + assert (b' <> b) as Hnb by (intros ->; by apply (sub_not_own x)). destruct (sub_other b' Hnb) as [-> _]. by apply (vi_own _ _ I).
  - apply sub_chain.
  - intros x Hq. destruct (vi_queue _ _ I x Hq) as (b' & w' & a' & E & D). exists b', w', a'.
    assert (b' <> b) as Hnb by (intros ->; pose proof sub_head as Hh; by rewrite E in Hh). by destruct (sub_other b' Hnb) as [-> ->].
  - intros b' w' x a' E D. destruct (decide (b' = b)) as [->|Hnb]; [congruence|]. destruct (sub_other b' Hnb) as [Ep Edk].
    rewrite Ep in E. rewrite Edk in D. by eapply (vi_wait _ _ I).
  - intros x Hq. change (x ∈ avail s ++ v_taken s) in Hq. unfold status. rewrite sub_info_ne; [by apply (vi_pend _ _ I)|].
    apply sub_queue. unfold queue. set_solver.
  - intros x Hq. change (x ∈ v_done s ++ used s) in Hq. unfold status. rewrite sub_info_ne; [by apply (vi_done _ _ I)|].
    apply sub_queue. unfold queue. set_solver.
  - intros b' w' x a' E D. destruct (decide (b' = b)) as [->|Hnb]; [congruence|]. destruct (sub_other b' Hnb) as [Ep Edk].
    rewrite Ep in E. rewrite Edk in D. unfold status. rewrite sub_info_ne; [by eapply (vi_fin _ _ I)|]. intros ->.
    destruct (head_own own s I b' i) as [E' _]; [by rewrite E|]. apply (sub_out i b' E'). left.
  - intros b' x E. destruct (decide (b' = b)) as [->|Hnb].
    + rewrite Heq in E. injection E as <-. split; [done|]. split; [|done]. unfold status. by rewrite sub_info_eq.
    + destruct (sub_other b' Hnb) as [Ep _]. rewrite Ep in E. apply (vi_new _ _ I) in E as (_ & _ & E). congruence.
  - intros b' E. assert (b' = b) as -> by (by injection E). rewrite Heq. eauto.
  - intros b' w' x E. destruct (decide (b' = b)) as [->|Hnb]; [congruence|]. destruct (sub_other b' Hnb) as [Ep _]. rewrite Ep in E.
    assert (fresh (v_pc s b') = Some x) as Hf by (by rewrite E). apply (vi_new _ _ I) in Hf as (_ & _ & E'). congruence.
  - intros b' w' E. destruct (decide (b' = b)) as [->|Hnb]; [congruence|]. destruct (sub_other b' Hnb) as [Ep _]. rewrite Ep in E.
    apply (vi_asleep _ _ I) in E. pose proof sub_asleep. lia.
Qed.
End submit.
(** ** The end of a call *)

Section finish.
Context (b : nat) (w : bool) (i : nat).
Context (Hb : v_pc s b = VWait w i false) (Hd : b_disk s b = false).
Context (Hlk : v_lock s = None \/ v_lock s = Some (HRw b)).

Definition take_back : nat -> option nat := fun x => if decide (own x = Some b) then None else own x.

Definition finished (j k : nat) : disk :=
  set_lock None (set_vpc b VIdle (freed k (freed j (freed i (set_info i (Info None (status s i)) s))))).

Lemma finish_spec : exists j k, i <> j /\ i <> k /\ j <> k /\ own i = Some b /\ own j = Some b /\ own k = Some b /\
  (forall x, own x = Some b -> x = i \/ x = j \/ x = k) /\ rw_wait b w i s = Ret tt (finished j k).
Proof.
  destruct (vi_chain _ _ I b i) as (j & k & H1 & H2 & H3 & H4 & H5 & H6 & H7 & H8 & H9 & H10 & _); [by rewrite Hb|].
  exists j, k. do 7 (split; [done|]). unfold rw_wait. rewrite (kbind_ret kget _ s s s eq_refl), Hd.
  set (s0 := set_info i (Info None (status s i)) s). rewrite (kbind_ret (kmod (set_info i (Info None (i_status (nth i (v_info s) (Info None 0)))))) _ s tt s0 eq_refl).
  destruct (vi_len _ _ I) as (L1 & L2 & _).
  assert (forall x, own x = Some b -> v_free s !! x = Some false) as Hf by (by apply (owned_not_free own s I)).
  assert (free_desc i s0 = Ret tt (freed i s0)) as E1 by (by apply free_desc_spec; [|apply Hf]).
  assert (free_desc j (freed i s0) = Ret tt (freed j (freed i s0))) as E2.
  { apply free_desc_spec; unfold freed; vp; [by rewrite length_insert|]. rewrite list_lookup_insert_ne by done. by apply Hf. }
  assert (free_desc k (freed j (freed i s0)) = Ret tt (freed k (freed j (freed i s0)))) as E3.
  { apply free_desc_spec; unfold freed; vp; [by rewrite !length_insert|]. rewrite !list_lookup_insert_ne by done. by apply Hf. }
  rewrite (kbind_ret (free_chain (S NUM) i) _ s0 tt (freed k (freed j (freed i s0)))); [done|].
  unfold NUM. cbn [free_chain]. rewrite (kbind_ret kget _ s0 s0 s0 eq_refl), (kbind_ret _ _ _ _ _ E1).
  change (v_desc s0) with (v_desc s). rewrite (nth_lookup_Some _ _ _ _ H8). cbn [d_flags d_next].
  change (negb (Z.land 1 VRING_DESC_F_NEXT =? 0)) with true. cbv iota. rewrite (kbind_ret kget _ _ _ _ eq_refl), (kbind_ret _ _ _ _ _ E2).
  replace (nth j (v_desc (freed i s0)) desc0) with (Desc (AData b) 1024 (if w then 1 else 3) k).
  2:{ unfold freed. vp. change (v_desc s0) with (v_desc s). rewrite nth_lookup, list_lookup_insert_ne, H9, Hb by done. done. }
  cbn [d_flags d_next]. replace (negb (Z.land (if w then 1 else 3) VRING_DESC_F_NEXT =? 0)) with true by (by destruct w).
  cbv iota. rewrite (kbind_ret kget _ _ _ _ eq_refl), (kbind_ret _ _ _ _ _ E3).
  replace (nth k (v_desc (freed j (freed i s0))) desc0) with (Desc (AStatus i) 1 2 0); [done|].
  unfold freed. vp. change (v_desc s0) with (v_desc s). by rewrite nth_lookup, !list_lookup_insert_ne, H10 by done.
Qed.

Section finished.
Context (j k : nat) (Hij : i <> j) (Hik : i <> k) (Hjk : j <> k).
Context (Oi : own i = Some b) (Oj : own j = Some b) (Ok : own k = Some b).
Context (Hall : forall x, own x = Some b -> x = i \/ x = j \/ x = k).
Let s' := finished j k.

Lemma fin_pc : v_pc s' b = VIdle.
Proof. unfold s', finished. vp. unfold vupd. by rewrite decide_True. Qed.

Lemma fin_other b' : b' <> b -> v_pc s' b' = wake (v_pc s b').
Proof. intros Hn. unfold s', finished, freed. vp. unfold vupd. rewrite decide_False by done. by rewrite !wake_wake. Qed.

Lemma fin_lists : v_desc s' = <[k := desc0]> (<[j := desc0]> (<[i := desc0]> (v_desc s))) /\
  v_free s' = <[k := true]> (<[j := true]> (<[i := true]> (v_free s))) /\ v_info s' = <[i := Info None (status s i)]> (v_info s).
Proof. unfold s', finished, freed. by vp. Qed.

Lemma wake_same p : head (wake p) = head p /\ direction (wake p) = direction p /\ fresh (wake p) = fresh p.
Proof. by destruct p. Qed.

Lemma fin_inv b' p : v_pc s' b' = p -> (forall w a, p <> VAlloc w a) -> p <> VIdle -> b' <> b /\ v_pc s b' = p.
Proof.
  intros E Hp1 Hp2. destruct (decide (b' = b)) as [->|Hn]; [by rewrite fin_pc in E|]. split; [done|]. rewrite fin_other in E by done.
  destruct (v_pc s b'); try done. by specialize (Hp1 write false).
Qed.

Lemma fin_fresh b' : fresh (v_pc s' b') = None.
Proof.
  destruct (decide (b' = b)) as [->|Hn]; [by rewrite fin_pc|]. rewrite fin_other by done. destruct (wake_same (v_pc s b')) as (_ & _ & ->).
  destruct (fresh (v_pc s b')) as [x|] eqn:E; [|done]. apply (vi_new _ _ I) in E as (_ & _ & E). destruct Hlk; congruence.
Qed.

Lemma fin_ne x : own x <> Some b -> x <> i /\ x <> j /\ x <> k.
Proof. intros Hn. repeat split; intros ->; done. Qed.

Lemma fin_status x : status s' x = status s x.
Proof.
  unfold status. destruct fin_lists as (_ & _ & ->). destruct (decide (x = i)) as [->|]; [|by rewrite !nth_lookup, list_lookup_insert_ne].
  rewrite nth_lookup, list_lookup_insert_eq; [done|]. destruct (vi_len _ _ I) as (_ & _ & -> & _). by apply (vi_own _ _ I i b).
Qed.

Lemma fin_free x y : v_free s' !! x = Some y -> y = true <-> take_back x = None.
Proof.
  destruct fin_lists as (_ & -> & _). unfold take_back. destruct (decide (own x = Some b)) as [Ox|Ox].
  - assert (x < length (v_free s))%nat as Hlt by (destruct (vi_len _ _ I) as (_ & -> & _); by apply (vi_own _ _ I x b)).
    intros Hy. assert (y = true) as ->; [|done]. pose proof (Hall x Ox) as Hxx.
    destruct_or! Hxx; subst x; repeat (rewrite list_lookup_insert_ne in Hy by done);
      rewrite list_lookup_insert_eq in Hy by (by rewrite ?length_insert); congruence.
  - destruct (fin_ne x Ox) as (? & ? & ?). rewrite !list_lookup_insert_ne by done. apply (vi_free _ _ I).
Qed.

Lemma fin_chain b' h : head (v_pc s' b') = Some h -> chain_ok take_back s' b' (direction (v_pc s' b')) h.
Proof.
  destruct fin_lists as (Ed & _ & Ei). intros E. assert (b' <> b) as Hnb by (intros ->; by rewrite fin_pc in E). rewrite fin_other in * by done.
  rewrite (proj1 (wake_same _)) in E. rewrite (proj1 (proj2 (wake_same _))).
  destruct (vi_chain _ _ I b' h E) as (j1 & k1 & H1 & H2 & H3 & H4 & H5 & H6 & H7 & H8 & H9 & H10 & H11 & H12).
  assert (forall x, own x = Some b' -> take_back x = Some b' /\ v_desc s' !! x = v_desc s !! x /\ x <> i) as Hs.
  { intros x Ox. unfold take_back. rewrite decide_False by congruence. destruct (fin_ne x) as (? & ? & ?); [congruence|].
    by rewrite Ed, !list_lookup_insert_ne. }
  exists j1, k1. do 3 (split; [done|]). do 3 (split; [by apply Hs|]). split.
  { intros x. unfold take_back. destruct (decide (own x = Some b)); [done|]. apply H7. }
  destruct (Hs h H4) as (_ & -> & Hhi). destruct (Hs j1 H5) as (_ & -> & _). destruct (Hs k1 H6) as (_ & -> & _). do 4 (split; [done|]).
  by rewrite Ei, nth_lookup, list_lookup_insert_ne, <- nth_lookup.
Qed.

Lemma finished_inv : vinv take_back s'.
Proof.
  constructor; try same I.
  - destruct fin_lists as (-> & -> & ->). rewrite !length_insert. same I.
  - apply fin_free.
  - intros x b' E. unfold take_back in E. destruct (decide (own x = Some b)) as [|Hn]; [done|]. assert (b' <> b) by congruence.
    rewrite fin_other by done. rewrite (proj1 (wake_same _)). by apply (vi_own _ _ I).
  - apply fin_chain.
  - intros x Hq. destruct (vi_queue _ _ I x Hq) as (b' & w' & a' & E & D). exists b', w', a'. split; [|done].
    rewrite fin_other; [by rewrite E|]. intros ->. congruence.
  - intros b' w' x a' E D. apply fin_inv in E as [_ E]; [|done..]. by eapply (vi_wait _ _ I).
  - intros x Hq. rewrite fin_status. by apply (vi_pend _ _ I).
  - intros x Hq. rewrite fin_status. by apply (vi_done _ _ I).
  - intros b' w' x a' E D. rewrite fin_status. apply fin_inv in E as [_ E]; [|done..]. by eapply (vi_fin _ _ I).
  - intros b' x E. by rewrite fin_fresh in E.
  - done.
  - intros b' w' x E. pose proof (fin_fresh b') as Hf. by rewrite E in Hf.
  - intros b' w' E. exfalso. destruct (decide (b' = b)) as [->|Hnb]; [by rewrite fin_pc in E|]. rewrite fin_other in E by done. by destruct (v_pc s b').
Qed.
End finished.
End finish.
End call.

(** ** Every step *)

(** The state a step leads to. *)
Inductive effect (s : disk) : act -> disk -> Prop :=
| e_submit a b w i j k : a = ACall b w /\ v_pc s b = VIdle \/ a = ARw b /\ v_pc s b = VAlloc w false ->
    v_free s !! i = Some true -> effect s a (submitted s b w i j k)
| e_full a b w s1 : a = ACall b w /\ v_pc s b = VIdle \/ a = ARw b /\ v_pc s b = VAlloc w false ->
    (ntrue (v_free s) < 3)%nat -> unalloc s s1 -> effect s a (set_vpc b (VAlloc w true) s1)
| e_ring b w i : v_pc s b = VRing w i -> effect s (ARw b) (set_vpc b (VNotify w i) (set_aring (ring_pos (v_aidx s)) i s))
| e_notify b w i : v_pc s b = VNotify w i ->
    effect s (ARw b) (set_vpc b (VWait w i false) (set_aidx (uint16 (v_aidx s + 1)) s))
| e_sleep b w i : v_pc s b = VWait w i false -> b_disk s b = true -> effect s (ARw b) (set_lock None (set_vpc b (VWait w i true) s))
| e_finish b w i j k : v_pc s b = VWait w i false -> b_disk s b = false -> effect s (ARw b) (finished s b i j k)
| e_client b n data : v_pc s b = VIdle -> effect s (AClient b n data) (set_buf b n data s)
| e_intr : effect s AIntr (set_lock (Some HIntr) s)
| e_handled b w i a : v_pc s b = VWait w i a -> effect s AIntrOne (handled s b)
| e_intr_end : effect s AIntrEnd (set_lock None s)
| e_take : effect s ATake (dev_take s)
| e_exec b w h a : v_pc s b = VWait w h a -> h ∈ v_taken s -> effect s (AExec h) (executed s b w h)
| e_push h : h ∈ v_done s -> effect s (APush h) (dev_push h s).

Definition good (s : disk) (a : act) (r : outcome disk unit) : Prop :=
  exists s', r = Ret tt s' /\ effect s a s' /\ exists own', vinv own' s'.

Lemma alloc_step own s a b w : vinv own s -> v_lock s = None ->
  a = ACall b w /\ v_pc s b = VIdle \/ a = ARw b /\ v_pc s b = VAlloc w false -> good s a (rw_alloc b w s).
Proof.
  intros Hi Hlk Ha. assert (v_pc s b = VIdle \/ v_pc s b = VAlloc w false) as Hb by (destruct Ha as [[_ ?]|[_ ?]]; auto).
  destruct (alloc3_spec s) as [(i & j & k & Fi & Fj & Fk & Hij & Hik & Hjk & E)|(Hn & s1 & E & U)];
    [apply (vi_len _ _ Hi)|unfold rw_alloc; rewrite (kbind_ret _ _ _ _ _ E)..].
  - exists (submitted s b w i j k). split; [unfold format_desc, submitted, kbind, kmod, kget; reflexivity|]. split; [by apply e_submit|].
    exists (give own i j k b). by apply (submitted_inv own s Hi b w false i j k).
  - exists (set_vpc b (VAlloc w true) s1). split; [done|]. split; [by apply e_full|].
    exists own. by apply (unalloc_inv own s Hi b w false).
Qed.

Lemma member_elem h l : member h l = true -> h ∈ l.
Proof. unfold member. intros (x & Hx & E)%existsb_exists. apply Nat.eqb_eq in E as <-. by apply list_elem_of_In. Qed.

Lemma rw_step own s b r : vinv own s -> do_act (ARw b) s = Some r -> good s (ARw b) r.
Proof.
  intros Hi E. cbn [do_act] in E. destruct (may_lock (HRw b) s) eqn:Hm; [|done]. cbn [negb] in E.
  assert (v_lock s = None \/ v_lock s = Some (HRw b)) as Hlk.
  { unfold may_lock in Hm. destruct (v_lock s) as [[b'|]|]; [|done|by left]. apply Nat.eqb_eq in Hm as ->. by right. }
  destruct (v_pc s b) as [|w [|]|w i|w i|w i [|]] eqn:Hb; try done; injection E as <-.
  - apply (alloc_step own); [done| |by right]. destruct Hlk as [|Hlk]; [done|]. apply (vi_lock _ _ Hi) in Hlk as [[i Hh] _]. by rewrite Hb in Hh.
  - eexists. split; [reflexivity|]. split; [by apply e_ring|]. exists own. by apply ring_inv.
  - eexists. split; [reflexivity|]. split; [by apply e_notify|]. exists own. by apply notify_inv.
  - destruct (b_disk s b) eqn:Hd.
    + exists (set_lock None (set_vpc b (VWait w i true) s)). unfold rw_wait. rewrite (kbind_ret kget _ s s s eq_refl), Hd.
      split; [done|]. split; [by apply e_sleep|]. exists own. by apply (wait_sleep_inv own s Hi b w i false).
    + destruct (finish_spec own s Hi b w i Hb Hd) as (j & k & H1 & H2 & H3 & H4 & H5 & H6 & H7 & E).
      exists (finished s b i j k). split; [done|]. split; [by eapply e_finish|]. eexists. by eapply finished_inv.
Qed.

(** Every step leads to a state, the one [effect] says, and keeps the invariant. *)
Lemma step_good own s a r : vinv own s -> do_act a s = Some r -> good s a r.
Proof.
  intros Hi E. destruct a as [b w|b|b n data| | | | |h|h]; [|by eapply rw_step|..]; cbn [do_act] in E.
  - destruct (v_pc s b) eqn:Hb; try done. destruct (v_lock s) eqn:Hl; [done|]. injection E as <-. apply (alloc_step own); auto.
  - destruct (v_pc s b) eqn:Hb; try done. destruct (_ && _ && _) eqn:Hg; [|done]. injection E as <-.
    apply andb_prop in Hg as [[H1 H2]%andb_prop H3]. apply Nat.eqb_eq in H3. eexists. split; [done|]. split; [by apply e_client|].
    exists own. apply client_inv; [done..|lia|done].
  - destruct (v_lock s) eqn:Hl; [done|]. injection E as <-. eexists. split; [done|]. split; [constructor|]. exists own. by apply intr_inv.
  - destruct (v_lock s) as [[]|] eqn:Hl; try done. destruct (Z.eqb_spec (v_used_idx s) (v_uidx s)) as [|Hn]; [done|]. injection E as <-.
    destruct (used_head own s Hi Hn) as (b & w & i & a & Eu & Hb & Hd & E). exists (handled s b). split; [done|].
    split; [by eapply e_handled|]. exists own. by eapply handled_inv.
  - destruct (v_lock s) as [[]|] eqn:Hl; try done. destruct (Z.eqb_spec (v_used_idx s) (v_uidx s)) as [Hn|]; [|done]. injection E as <-.
    eexists. split; [done|]. split; [constructor|]. exists own. by apply intr_end_inv.
  - destruct (Z.eqb_spec (v_next s) (v_aidx s)) as [|Hn]; [done|]. injection E as <-.
    eexists. split; [done|]. split; [constructor|]. exists own. by apply take_inv.
  - destruct (member h (v_taken s)) eqn:Hm; [|done]. injection E as <-. apply member_elem in Hm.
    destruct (taken_request own s Hi h Hm) as (b & w & a & Hb & Hd). rewrite (exec_spec own s Hi h b w a Hb).
    eexists. split; [done|]. split; [by eapply e_exec|]. exists own. by eapply exec_inv.
  - destruct (member h (v_done s)) eqn:Hm; [|done]. injection E as <-. apply member_elem in Hm.
    eexists. split; [done|]. split; [by apply e_push|]. exists own. by apply push_inv.
Qed.
