(* ===== verification/VirtioRefine.v ===== *)
(** * The disk driver refines atomic transfers

    What the rest of the kernel may assume of virtio_disk_rw: a call returns
    after exactly one transfer of its block, which happens at one instant
    between call and return, and nothing else changes the disk or the buffer. *)

From S2P Require Import Prelude Virtio VirtioSpec VirtioInv.

(** ** The specification *)

Inductive apc := SIdle | SPend (write : bool) | SDone (write : bool).

Record adisk := ADisk {
  a_pc : nat -> apc;
  a_data : nat -> list Z;
  a_blockno : nat -> Z;
  a_media : Z -> Z
}.

Definition aeq (x y : adisk) : Prop :=
  (forall b, a_pc x b = a_pc y b) /\ (forall b, a_data x b = a_data y b) /\ (forall b, a_blockno x b = a_blockno y b) /\
  (forall z, a_media x z = a_media y z).

#[export] Instance aeq_equiv : Equivalence aeq.
Proof.
  split.
  - by intros x.
  - intros x y (H1 & H2 & H3 & H4). repeat split; congruence.
  - intros x y z (H1 & H2 & H3 & H4) (G1 & G2 & G3 & G4). repeat split; congruence.
Qed.

(** A call, its transfer, its return, a change of a buffer outside calls. *)
Inductive event := EvCall (b : nat) (write : bool) | EvTransfer (b : nat) | EvReturn (b : nat)
  | EvClient (b : nat) (blockno : Z) (data : list Z) | EvNone.

Definition set_apc (b : nat) (p : apc) (x : adisk) : adisk := ADisk (vupd (a_pc x) b p) (a_data x) (a_blockno x) (a_media x).

(** The transfer of the block of buffer [b]. *)
Definition transfer (b : nat) (w : bool) (x : adisk) : adisk :=
  let off := a_blockno x b * 1024 in
  if w then ADisk (a_pc x) (a_data x) (a_blockno x) (media_write (a_media x) off (a_data x b))
  else ADisk (a_pc x) (vupd (a_data x) b (media_read (a_media x) off 1024)) (a_blockno x) (a_media x).

Definition aspec (e : event) (x y : adisk) : Prop :=
  match e with
  | EvCall b w => a_pc x b = SIdle /\ aeq y (set_apc b (SPend w) x)
  | EvTransfer b => exists w, a_pc x b = SPend w /\ aeq y (set_apc b (SDone w) (transfer b w x))
  | EvReturn b => exists w, a_pc x b = SDone w /\ aeq y (set_apc b SIdle x)
  | EvClient b n data =>
      a_pc x b = SIdle /\ aeq y (ADisk (a_pc x) (vupd (a_data x) b data) (vupd (a_blockno x) b n) (a_media x))
  | EvNone => aeq y x
  end.

(** ** The abstraction *)

Definition abs_pc (s : disk) (p : vpc) : apc :=
  match p with
  | VIdle => SIdle
  | VAlloc w _ | VRing w _ | VNotify w _ => SPend w
  | VWait w i _ => if status s i =? 0 then SDone w else SPend w
  end.

Definition abs (s : disk) : adisk := ADisk (fun b => abs_pc s (v_pc s b)) (b_data s) (b_blockno s) (v_media s).

(** What is visible of a step. *)
Definition shows (a : act) (e : event) : Prop :=
  match a with
  | ACall b w => e = EvCall b w
  | AClient b n data => e = EvClient b n data
  | ARw b => e = EvReturn b \/ e = EvNone
  | AExec _ => exists b, e = EvTransfer b
  | _ => e = EvNone
  end.

(** ** The simulation *)

Section sim.
Context (own : nat -> option nat) (s : disk) (I : vinv own s).

(** A step that only changes the place of [b] in the code, and statuses that are
    not those of other requests. *)
Lemma abs_step b p s' : b_data s' = b_data s -> b_blockno s' = b_blockno s -> v_media s' = v_media s ->
  (forall b', b' <> b -> v_pc s' b' = v_pc s b' \/ v_pc s' b' = wake (v_pc s b')) ->
  (forall b' i, b' <> b -> head (v_pc s b') = Some i -> status s' i = status s i) ->
  abs_pc s' (v_pc s' b) = p -> aeq (abs s') (set_apc b p (abs s)).
Proof.
  intros E1 E2 E3 Hp Hst Hb. unfold abs, set_apc. split; [|by rewrite E1, E2, E3]. cbn [a_pc]. intros b'. unfold vupd.
  destruct (decide (b' = b)) as [->|Hn]; [done|]. destruct (Hp b' Hn) as [->| ->].
  - specialize (Hst b'). destruct (v_pc s b'); try done. cbn. by rewrite Hst.
  - specialize (Hst b'). destruct (v_pc s b'); try done. cbn. by rewrite Hst.
Qed.

Lemma abs_same b s' : aeq (abs s') (set_apc b (a_pc (abs s) b) (abs s)) -> aeq (abs s') (abs s).
Proof.
  intros E. rewrite E. split; [|done]. intros b'. cbn. unfold vupd. by destruct (decide (b' = b)) as [->|].
Qed.

Lemma pc_other b p (s' : disk) : v_pc s' = vupd (v_pc s) b p ->
  forall b', b' <> b -> v_pc s' b' = v_pc s b' \/ v_pc s' b' = wake (v_pc s b').
Proof. intros -> b' Hn. left. unfold vupd. by rewrite decide_False. Qed.

Lemma head_ne b i x : own x = None -> head (v_pc s b) = Some i -> i <> x.
Proof. intros E Hh ->. apply (head_own own s I) in Hh as [Hh _]. congruence. Qed.

Lemma sim_submit b w i j k : v_free s !! i = Some true -> aeq (abs (submitted s b w i j k)) (set_apc b (SPend w) (abs s)).
Proof.
  intros Fi. assert (own i = None) as Oi by (by apply (vi_free _ _ I i true)). apply abs_step; try (unfold submitted; by vp).
  - apply (pc_other b (VRing w i)). unfold submitted. by vp.
  - intros b' x Hn Hh. unfold status. by rewrite sub_info_ne by (by eapply head_ne).
  - by rewrite (proj1 (sub_pc s b w i j k)).
Qed.

Lemma sim_full b w s1 : unalloc s s1 -> aeq (abs (set_vpc b (VAlloc w true) s1)) (set_apc b (SPend w) (abs s)).
Proof.
  intros (D & p & -> & _ & _ & Hp). apply abs_step; try done.
  - intros b' Hn. vp. unfold vupd. rewrite decide_False by done. apply Hp.
  - vp. unfold vupd. by rewrite decide_True.
Qed.

Lemma sim_wait b w i : v_pc s b = VNotify w i ->
  aeq (abs (set_vpc b (VWait w i false) (set_aidx (uint16 (v_aidx s + 1)) s))) (set_apc b (SPend w) (abs s)).
Proof.
  intros Hb. apply abs_step; try done; [by apply (pc_other b (VWait w i false))|].
  destruct (vi_new _ _ I b i) as (_ & Hst & _); [by rewrite Hb|]. vp. unfold vupd. rewrite decide_True by done. cbn [abs_pc].
  change (status _ i) with (status s i). by rewrite Hst.
Qed.

Lemma sim_finish b w i j k : v_pc s b = VWait w i false -> b_disk s b = false ->
  a_pc (abs s) b = SDone w /\ aeq (abs (finished s b i j k)) (set_apc b SIdle (abs s)).
Proof.
  intros Hb Hd. destruct (vi_fin _ _ I b w i false Hb Hd) as [_ Hst]. split; [cbn; by rewrite Hb; cbn; rewrite Hst|].
  apply abs_step; try (unfold finished, freed; by vp).
  - intros b' Hn. right. unfold finished, freed. vp. unfold vupd. rewrite decide_False by done. by rewrite !wake_wake.
  - intros b' x Hn Hh. unfold status. assert (x <> i) as Hxi.
    { intros ->. apply Hn. apply (head_inj own s I _ _ i); [done|by rewrite Hb]. }
    unfold finished, freed. vp. by rewrite !nth_lookup, list_lookup_insert_ne.
  - unfold finished. vp. unfold vupd. by rewrite decide_True.
Qed.

Lemma sim_handled b w i a : v_pc s b = VWait w i a -> aeq (abs (handled s b)) (abs s).
Proof.
  intros Hb. apply (abs_same b). apply abs_step; try done; [by apply (pc_other b (wake_wait (v_pc s b)))|].
  unfold handled. vp. unfold vupd. rewrite decide_True by done. rewrite Hb. cbn. by rewrite Hb.
Qed.

Lemma sim_exec b w h a : v_pc s b = VWait w h a -> h ∈ v_taken s ->
  a_pc (abs s) b = SPend w /\ aeq (abs (executed s b w h)) (set_apc b (SDone w) (transfer b w (abs s))).
Proof.
  intros Hb Hh. pose proof (vi_pend _ _ I h ltac:(set_solver)) as Hst. split; [cbn; rewrite Hb; cbn; by rewrite Hst|].
  assert (forall x, status (executed s b w h) x = if decide (x = h) then 0 else status s x) as Hs.
  { intros x. assert (v_info (executed s b w h) = <[h := Info (Some b) 0]> (v_info s)) as E by (unfold executed; by destruct w).
    unfold status. rewrite E. destruct (decide (x = h)) as [->|]; [|by rewrite !nth_lookup, list_lookup_insert_ne].
    rewrite nth_lookup, list_lookup_insert_eq; [done|]. destruct (vi_len _ _ I) as (_ & _ & -> & _).
    apply (head_own own s I b). by rewrite Hb. }
  assert (v_pc (executed s b w h) = v_pc s) as Hp by (unfold executed; by destruct w).
  split.
  - intros b'. cbn [abs a_pc set_apc]. rewrite Hp. unfold vupd. destruct (decide (b' = b)) as [->|Hn].
    + rewrite Hb. cbn [abs_pc]. by rewrite Hs, decide_True.
    + replace (a_pc (transfer b w (abs s)) b') with (abs_pc s (v_pc s b')) by (unfold transfer; by destruct w).
      destruct (v_pc s b') as [| | | |w' x a'] eqn:Hb'; try done. cbn [abs_pc]. rewrite Hs, decide_False; [done|].
      intros ->. apply Hn. apply (head_inj own s I _ _ h); [by rewrite Hb'|by rewrite Hb].
  - unfold executed, transfer. destruct w; [done|]. split; [done|]. split; [|done]. cbn. intros b'. unfold vupd.
    by destruct (decide (b' = b)) as [->|].
Qed.

Lemma step_refines a r : do_act a s = Some r ->
  exists s' e, r = Ret tt s' /\ shows a e /\ aspec e (abs s) (abs s') /\ exists own', vinv own' s'.
Proof.
  intros E. destruct (step_good own s a r I E) as (s' & -> & Ef & Hi'). exists s'.
  destruct Ef as [a b w i j k Ha Fi|a b w s1 Ha Hn U|b w i Hb|b w i Hb|b w i Hb Hd|b w i j k Hb Hd|b n data Hb| |b w i a Hb| | |b w h a Hb Hh|h Hh].
  - pose proof (sim_submit b w i j k Fi) as Hs. destruct Ha as [[-> Hb]|[-> Hb]].
    + exists (EvCall b w). cbn. rewrite Hb. done.
    + exists EvNone. split; [done|]. split; [by right|]. split; [|done]. apply (abs_same b). cbn. by rewrite Hb.
  - pose proof (sim_full b w s1 U) as Hs. destruct Ha as [[-> Hb]|[-> Hb]].
    + exists (EvCall b w). cbn. rewrite Hb. done.
    + exists EvNone. split; [done|]. split; [by right|]. split; [|done]. apply (abs_same b). cbn. by rewrite Hb.
  - exists EvNone. split; [done|]. split; [by right|]. split; [|done]. apply (abs_same b). apply abs_step; try done; [by eapply pc_other|].
    vp. unfold vupd. rewrite decide_True by done. cbn. by rewrite Hb.
  - exists EvNone. split; [done|]. split; [by right|]. split; [|done]. apply (abs_same b). cbn. rewrite Hb. by apply sim_wait.
  - exists EvNone. split; [done|]. split; [by right|]. split; [|done]. apply (abs_same b). apply abs_step; try done; [by eapply pc_other|].
    vp. unfold vupd. rewrite decide_True by done. cbn. by rewrite Hb.
  - exists (EvReturn b). split; [done|]. split; [by left|]. split; [|done]. exists w. by apply sim_finish.
  - exists (EvClient b n data). split; [done|]. split; [done|]. split; [|done]. split; [cbn; by rewrite Hb|done].
  - by exists EvNone.
  - exists EvNone. split; [done|]. split; [done|]. split; [|done]. by eapply sim_handled.
  - by exists EvNone.
  - by exists EvNone.
  - exists (EvTransfer b). split; [done|]. split; [by exists b|]. split; [|done]. exists w. by eapply sim_exec.
  - by exists EvNone.
Qed.
End sim.

Lemma reach_inv media data s : (forall b, length (data b) = 1024%nat) -> rtc vstep (disk_init media data) s -> exists own, vinv own s.
Proof.
  intros Hd. assert (exists own, vinv own (disk_init media data)) as H0 by (eexists; by apply vinv_init).
  revert H0. generalize (disk_init media data). intros s0 H0 Hr. induction Hr as [|s1 s2 s3 [a E] _ IH]; [done|].
  apply IH. destruct H0 as [own Hi]. destruct (step_good own s1 a _ Hi E) as (s' & [= ->] & _ & Hi'). done.
Qed.

(** C5: the disk driver keeps its contract under every interleaving of any
    number of calls, the interrupt handler and the device.  No step panics or
    hands the device a chain that is not a request, and seen from outside a call
    of virtio_disk_rw is a call, one transfer of its block between the disk and
    its buffer, and a return after the transfer; no other step changes the disk
    or a buffer. *)
Theorem virtio_refines media data s a r (Hd : forall b, length (data b) = 1024%nat)
  (Hr : rtc vstep (disk_init media data) s) (E : do_act a s = Some r) :
  exists s' e, r = Ret tt s' /\ shows a e /\ aspec e (abs s) (abs s').
Proof.
  destruct (reach_inv media data s Hd Hr) as [own Hi]. destruct (step_refines own s Hi a r E) as (s' & e & H1 & H2 & H3 & _). eauto.
Qed.

(** A run given by the steps. *)
Fixpoint run_acts (l : list act) (s : disk) : option disk :=
  match l with
  | [] => Some s
  | a :: l' => match do_act a s with Some (Ret _ s') => run_acts l' s' | _ => None end
  end.

Lemma run_acts_rtc l s s' : run_acts l s = Some s' -> rtc vstep s s'.
Proof.
  revert s. induction l as [|a l IH]; intros s E; cbn in E; [by injection E as ->|].
  destruct (do_act a s) as [[[] s1| | |]|] eqn:Ea; try done. eapply rtc_l; [by exists a|by apply IH].
Qed.

Lemma virtio_refines_witness :
  let s0 := disk_init (fun _ => 0) (fun _ => replicate 1024 7) in
  exists s s' e, run_acts [ACall 0 true; ACall 1 false; ARw 0; ARw 0; ARw 0; ACall 1 false; ATake] s0 = None /\
    run_acts [ACall 0 true; ARw 0; ARw 0; ARw 0; ACall 1 false; ATake] s0 = Some s /\
    do_act (AExec 0) s = Some (Ret tt s') /\ shows (AExec 0) e /\ aspec e (abs s) (abs s').
Proof.
  intros s0. destruct (run_acts [ACall 0 true; ARw 0; ARw 0; ARw 0; ACall 1 false; ATake] s0) as [s|] eqn:Es; [|vm_compute in Es; discriminate Es].
  destruct (do_act (AExec 0) s) as [r|] eqn:Er.
  - destruct (virtio_refines (fun _ => 0) (fun _ => replicate 1024 7) s (AExec 0) r ltac:(done) (run_acts_rtc _ _ _ Es) Er) as (s' & e & -> & H1 & H2).
    exists s, s', e. split; [vm_compute; reflexivity|]. done.
  - exfalso. assert (match run_acts [ACall 0 true; ARw 0; ARw 0; ARw 0; ACall 1 false; ATake] s0 with Some s => member 0 (v_taken s) | None => false end = true) as Hm
      by (vm_compute; reflexivity).
    rewrite Es in Hm. cbn [do_act] in Er. rewrite Hm in Er. discriminate Er.
Defined.
