(* ===== verification/VirtioLive.v ===== *)
(** * Progress of the disk driver

    From every reachable state, every call of virtio_disk_rw can be brought to
    its end by steps of the device, the interrupt handler and the calls in
    progress: there is no deadlock, and no wakeup is missing. *)

From S2P Require Import Prelude Virtio VirtioSpec VirtioInv VirtioRefine.

(** No new call, no change of a buffer. *)
Definition quiet (a : act) : Prop := match a with ACall _ _ | AClient _ _ _ => False | _ => True end.
Definition qstep (s s' : disk) : Prop := exists a, quiet a /\ do_act a s = Some (Ret tt s').

Definition ok (s : disk) : Prop := exists own, vinv own s.

(** A possible step leads to a state as [effect] says. *)
Lemma go a s : ok s -> quiet a -> (exists r, do_act a s = Some r) -> exists s', qstep s s' /\ effect s a s' /\ ok s'.
Proof. intros [own Hi] Hq [r E]. destruct (step_good own s a r Hi E) as (s' & -> & Ef & Hi'). exists s'. split; [by exists a|done]. Qed.

Lemma qstep_ok s s' : ok s -> qstep s s' -> ok s' /\ exists a, quiet a /\ effect s a s'.
Proof. intros [own Hi] (a & Hq & E). destruct (step_good own s a _ Hi E) as (s1 & [= ->] & Ef & Hi'). eauto. Qed.

(** The effects of the steps of device and handler. *)
Ltac effect_inv := inversion 1; subst; try (match goal with H : _ \/ _ |- _ => destruct H as [[? ?]|[? ?]]; discriminate end); eauto 10.

Lemma effect_take s s' : effect s ATake s' -> s' = dev_take s.
Proof. effect_inv. Qed.
Lemma effect_exec s s' h : effect s (AExec h) s' -> exists b w, s' = executed s b w h.
Proof. effect_inv. Qed.
Lemma effect_push s s' h : effect s (APush h) s' -> s' = dev_push h s.
Proof. effect_inv. Qed.
Lemma effect_handled s s' : effect s AIntrOne s' -> exists b, s' = handled s b.
Proof. effect_inv. Qed.

Lemma effect_intr s s' : effect s AIntr s' -> s' = set_lock (Some HIntr) s.
Proof. effect_inv. Qed.
Lemma effect_intr_end s s' : effect s AIntrEnd s' -> s' = set_lock None s.
Proof. effect_inv. Qed.

(** The effects of the steps of a call. *)
Ltac rw_inv := inversion 1; subst; try (match goal with H : _ \/ _ |- _ => destruct H as [[? ?]|[E ?]]; [discriminate|injection E as <-] end);
  try congruence; eauto 10.

Lemma effect_ring s s' b w i : v_pc s b = VRing w i -> effect s (ARw b) s' ->
  s' = set_vpc b (VNotify w i) (set_aring (ring_pos (v_aidx s)) i s).
Proof. intros Hb. rw_inv. Qed.
Lemma effect_notify s s' b w i : v_pc s b = VNotify w i -> effect s (ARw b) s' ->
  s' = set_vpc b (VWait w i false) (set_aidx (uint16 (v_aidx s + 1)) s).
Proof. intros Hb. rw_inv. Qed.
Lemma effect_wait s s' b w i : v_pc s b = VWait w i false -> effect s (ARw b) s' -> v_lock s' = None.
Proof. intros Hb. rw_inv. Qed.

(** Nothing is on its way between the rings and the handler. *)
Definition calm (s : disk) : Prop := v_lock s = None /\ queue s = [].

Section drain.
Context (b0 : nat).

Definition reaches (s : disk) : Prop := exists s', rtc qstep s s' /\ v_pc s' b0 = VIdle.

Lemma reaches_step s s' : qstep s s' -> reaches s' -> reaches s.
Proof. intros Hs (s1 & Hr & E). exists s1. split; [by eapply rtc_l|done]. Qed.

Context (P : disk -> Prop) (HP : forall s s', ok s -> P s -> qstep s s' -> P s').
Context (HG : forall s, ok s -> P s -> calm s -> reaches s).

Definition weight (s : disk) : nat := 4 * length (avail s) + 3 * length (v_taken s) + 2 * length (v_done s) + length (used s).

(** One step that lowers the weight. *)
Definition lighter (s s' : disk) : Prop := qstep s s' /\ ok s' /\ (weight s' < weight s)%nat /\ v_lock s' = v_lock s.

Lemma take_weight s : ok s -> avail s <> [] -> exists s', lighter s s'.
Proof.
  intros Hok Hn. pose proof Hok as [own Hi]. assert (v_next s <> v_aidx s) as Hne.
  { intros E. apply Hn. destruct (vi_idx _ _ Hi) as (H1 & H2 & _). unfold avail. by rewrite (proj2 (dist_zero _ _ H2 H1) E). }
  destruct (go ATake s Hok I) as (s' & Hs & ->%effect_take & Hok'). { cbn. rewrite (proj2 (Z.eqb_neq _ _) Hne). eauto. }
  eexists. split; [done|]. split; [done|]. split; [|done].
  unfold weight. rewrite (take_queue own s Hi Hne). change (v_taken (dev_take s)) with (nth (ring_pos (v_next s)) (v_aring s) 0%nat :: v_taken s).
  change (used (dev_take s)) with (used s). change (v_done (dev_take s)) with (v_done s). cbn [length]. lia.
Qed.

Lemma elem_member h l : h ∈ l -> member h l = true.
Proof. intros Hh. apply existsb_exists. exists h. split; [by apply list_elem_of_In|apply Nat.eqb_refl]. Qed.

Lemma exec_weight s : ok s -> v_taken s <> [] -> exists s', lighter s s'.
Proof.
  intros Hok Hn. pose proof Hok as [own Hi]. destruct (v_taken s) as [|h l] eqn:Et; [done|].
  destruct (go (AExec h) s Hok I) as (s' & Hs & (b & w & ->)%effect_exec & Hok').
  { cbn [do_act]. rewrite elem_member by (rewrite Et; left). eauto. }
  eexists. split; [done|]. split; [done|]. destruct (parts_nodup own s Hi) as (_ & Hnt & _).
  pose proof (list_remove _ h Hnt ltac:(rewrite Et; left)) as Er. apply Permutation_length in Er. cbn [length] in Er.
  split; [|by destruct w]. unfold weight.
  replace (v_taken (executed s b w h)) with (list_difference (v_taken s) [h]) by (by destruct w).
  replace (v_done (executed s b w h)) with (h :: v_done s) by (by destruct w).
  replace (avail (executed s b w h)) with (avail s) by (by destruct w). replace (used (executed s b w h)) with (used s) by (by destruct w).
  cbn [length]. lia.
Qed.

Lemma push_weight s : ok s -> v_done s <> [] -> exists s', lighter s s'.
Proof.
  intros Hok Hn. pose proof Hok as [own Hi]. destruct (v_done s) as [|h l] eqn:Et; [done|].
  destruct (go (APush h) s Hok I) as (s' & Hs & ->%effect_push & Hok').
  { cbn [do_act]. rewrite elem_member by (rewrite Et; left). eauto. }
  eexists. split; [done|]. split; [done|]. destruct (parts_nodup own s Hi) as (_ & _ & Hnd & _).
  pose proof (list_remove _ h Hnd ltac:(rewrite Et; left)) as Er. apply Permutation_length in Er. cbn [length] in Er.
  split; [|done]. unfold weight. rewrite (push_used own s Hi h) by (rewrite Et; left). rewrite length_app.
  change (v_done (dev_push h s)) with (list_difference (v_done s) [h]). change (avail (dev_push h s)) with (avail s).
  change (v_taken (dev_push h s)) with (v_taken s). cbn [length]. lia.
Qed.

Lemma handle_weight s : ok s -> v_lock s = Some HIntr -> used s <> [] -> exists s', lighter s s'.
Proof.
  intros Hok Hl Hn. pose proof Hok as [own Hi]. assert (v_used_idx s <> v_uidx s) as Hne.
  { intros E. apply Hn. destruct (vi_idx _ _ Hi) as (_ & _ & H1 & H2). unfold used. by rewrite (proj2 (dist_zero _ _ H2 H1) E). }
  destruct (go AIntrOne s Hok I) as (s' & Hs & (b & ->)%effect_handled & Hok').
  { cbn [do_act]. rewrite Hl, (proj2 (Z.eqb_neq _ _) Hne). eauto. }
  eexists. split; [done|]. split; [done|]. split; [|done]. destruct (used_head own s Hi Hne) as (b' & w & i & a & Eu & _).
  unfold weight. rewrite Eu. change (used (handled s b)) with (seg (v_uring s) (uint16 (v_used_idx s + 1)) (dist (uint16 (v_used_idx s + 1)) (v_uidx s))).
  change (v_taken (handled s b)) with (v_taken s). change (v_done (handled s b)) with (v_done s). change (avail (handled s b)) with (avail s).
  cbn [length]. lia.
Qed.
(** The handler empties the used ring and leaves. *)
Lemma drain_intr n : forall s, (weight s < n)%nat -> ok s -> P s -> v_lock s = Some HIntr ->
  (forall s', ok s' -> P s' -> v_lock s' = None -> (weight s' <= weight s)%nat -> reaches s') -> reaches s.
Proof.
  induction n as [|n IH]; intros s Hw Hok Hp Hl Hk; [lia|]. destruct (decide (used s = [])) as [Hu|Hu].
  - pose proof Hok as [own Hi]. destruct (go AIntrEnd s Hok I) as (s' & Hs & Ef & Hok').
    { cbn [do_act]. rewrite Hl. destruct (vi_idx _ _ Hi) as (_ & _ & H1 & H2). rewrite (proj2 (Z.eqb_eq _ _)); [eauto|].
      apply (dist_zero _ _ H2 H1). apply (f_equal length) in Hu. unfold used in Hu. by rewrite length_seg in Hu. }
    apply (reaches_step _ _ Hs). apply effect_intr_end in Ef as ->. apply Hk; [done|exact (HP _ _ Hok Hp Hs)|done|]. apply Nat.le_refl.
  - destruct (handle_weight s Hok Hl Hu) as (s' & Hs & Hok' & Hw' & Hl'). apply (reaches_step _ _ Hs). apply IH; [lia|done|exact (HP _ _ Hok Hp Hs)|congruence|].
    intros s1 H1 H2 H3 H4. apply Hk; [done..|lia].
Qed.

Lemma drain_none n : forall s, (weight s < n)%nat -> ok s -> P s -> v_lock s = None -> reaches s.
Proof.
  induction n as [|n IH]; intros s Hw Hok Hp Hl; [lia|].
  assert (forall s', lighter s s' -> reaches s) as Hstep.
  { intros s' (Hs & Hok' & Hw' & Hl'). apply (reaches_step _ _ Hs). apply IH; [lia|done|exact (HP _ _ Hok Hp Hs)|congruence]. }
  destruct (decide (avail s = [])) as [E1|E1]; [|destruct (take_weight s Hok E1); eauto].
  destruct (decide (v_taken s = [])) as [E2|E2]; [|destruct (exec_weight s Hok E2); eauto].
  destruct (decide (v_done s = [])) as [E3|E3]; [|destruct (push_weight s Hok E3); eauto].
  destruct (decide (used s = [])) as [E4|E4].
  - apply HG; [done|done|]. split; [done|]. unfold queue. by rewrite E1, E2, E3, E4.
  - destruct (go AIntr s Hok I) as (s1 & Hs1 & Ef & Hok1); [cbn [do_act]; rewrite Hl; eauto|]. apply effect_intr in Ef as ->.
    apply (reaches_step _ _ Hs1). destruct (handle_weight (set_lock (Some HIntr) s) Hok1 eq_refl E4) as (s2 & Hs2 & Hok2 & Hw2 & Hl2).
    apply (reaches_step _ _ Hs2). change (weight (set_lock (Some HIntr) s)) with (weight s) in Hw2.
    apply (drain_intr (S (weight s2))); [lia|done|exact (HP _ _ Hok1 (HP _ _ Hok Hp Hs1) Hs2)|done|].
    intros s3 H1 H2 H3 H4. apply IH; [lia|done..].
Qed.

(** A call that holds the lock gives it up. *)
Lemma drain_rw s b : ok s -> P s -> v_lock s = Some (HRw b) ->
  (forall s', ok s' -> P s' -> v_lock s' = None -> reaches s') -> reaches s.
Proof.
  intros Hok Hp Hl Hk.
  assert (forall s, v_lock s = Some (HRw b) -> may_lock (HRw b) s = true) as Hm by (intros ? E; unfold may_lock; rewrite E; apply Nat.eqb_refl).
  assert (forall s w i, ok s -> P s -> v_lock s = Some (HRw b) -> v_pc s b = VWait w i false -> reaches s) as Hwait.
  { clear s Hok Hp Hl. intros s w i Hok Hp Hl Hb. destruct (go (ARw b) s Hok I) as (s' & Hs & Ef & Hok').
    { cbn [do_act]. rewrite Hm, Hb by done. cbn [negb]. eauto. }
    apply (reaches_step _ _ Hs). apply Hk; [done|exact (HP _ _ Hok Hp Hs)|]. by eapply effect_wait. }
  assert (forall s w i, ok s -> P s -> v_lock s = Some (HRw b) -> v_pc s b = VNotify w i -> reaches s) as Hnotify.
  { clear s Hok Hp Hl. intros s w i Hok Hp Hl Hb. destruct (go (ARw b) s Hok I) as (s' & Hs & Ef & Hok').
    { cbn [do_act]. rewrite Hm, Hb by done. cbn [negb]. eauto. }
    apply (reaches_step _ _ Hs). apply (effect_notify _ _ _ _ _ Hb) in Ef as ->. apply (Hwait _ w i); [done|exact (HP _ _ Hok Hp Hs)|done|].
    vp. unfold vupd. by rewrite decide_True. }
  pose proof Hok as [own Hi]. destruct (vi_lock _ _ Hi b Hl) as [[i Hh] Ha]. destruct (v_pc s b) as [| |w x|w x|w x a] eqn:Hb; try done.
  - destruct (go (ARw b) s Hok I) as (s' & Hs & Ef & Hok'). { cbn [do_act]. rewrite Hm, Hb by done. cbn [negb]. eauto. }
    apply (reaches_step _ _ Hs). apply (effect_ring _ _ _ _ _ Hb) in Ef as ->. apply (Hnotify _ w x); [done|exact (HP _ _ Hok Hp Hs)|done|].
    vp. unfold vupd. by rewrite decide_True.
  - by apply (Hnotify s w x).
  - cbn in Ha. subst a. by apply (Hwait s w x).
Qed.

Lemma drain s : ok s -> P s -> reaches s.
Proof.
  intros Hok Hp. assert (forall s', ok s' -> P s' -> v_lock s' = None -> reaches s') as Hn by (intros s' H1 H2 H3; by apply (drain_none (S (weight s')) s'); [lia|..]).
  destruct (v_lock s) as [[b|]|] eqn:Hl; [by eapply drain_rw| |by apply Hn].
  apply (drain_intr (S (weight s))); [lia|done..|]. intros s' H1 H2 H3 _. by apply Hn.
Qed.
End drain.

(** ** From a calm state *)

(** A request whose transfer the handler has seen ends. *)
Lemma calm_finish s b i : ok s -> calm s -> head (v_pc s b) = Some i ->
  exists s', qstep s s' /\ ok s' /\ calm s' /\ v_pc s' b = VIdle /\ (ntrue (v_free s) < ntrue (v_free s'))%nat.
Proof.
  intros [own Hi] [Hl Hq] Hh. destruct (v_pc s b) as [| |w x|w x|w x a] eqn:Hb; try done.
  1, 2: exfalso; destruct (vi_new _ _ Hi b x) as (_ & _ & E); [by rewrite Hb|congruence].
  assert (b_disk s b = false) as Hd.
  { destruct (b_disk s b) eqn:E; [|done]. pose proof (vi_wait _ _ Hi b w x a Hb E) as Hx. rewrite Hq in Hx. by apply elem_of_nil in Hx. }
  destruct (vi_fin _ _ Hi b w x a Hb Hd) as [-> _].
  destruct (finish_spec own s Hi b w x Hb Hd) as (j & k & H1 & H2 & H3 & H4 & H5 & H6 & H7 & E).
  exists (finished s b x j k). split; [|split; [|split; [|split]]].
  - exists (ARw b). split; [done|]. cbn [do_act]. unfold may_lock. rewrite Hl, Hb. cbn [negb]. by rewrite E.
  - eexists. eapply finished_inv; eauto.
  - split; [done|exact Hq].
  - unfold finished. vp. unfold vupd. by rewrite decide_True.
  - change (v_free (finished s b x j k)) with (<[k := true]> (<[j := true]> (<[x := true]> (v_free s)))).
    assert (forall y, own y = Some b -> v_free s !! y = Some false) as Hf by (intros; by eapply owned_not_free).
    rewrite (ntrue_true _ k), (ntrue_true _ j), (ntrue_true _ x) by (rewrite ?list_lookup_insert_ne by done; by apply Hf). lia.
Qed.

(** A call that has its descriptors, or is over. *)
Definition placed (b : nat) (s : disk) : Prop := v_pc s b = VIdle \/ exists i, head (v_pc s b) = Some i.

Lemma placed_upd b b' p s s' : placed b s -> v_pc s' = vupd (v_pc s) b' p -> p = VIdle \/ head p <> None -> placed b s'.
Proof.
  intros Hp E Hh. unfold placed. rewrite E. unfold vupd. destruct (decide (b = b')) as [->|]; [|done].
  destruct Hh as [->|Hh]; [by left|right]. by destruct (head p) as [i|]; [exists i|].
Qed.

Lemma placed_wake b s p : placed b s -> p = v_pc s b \/ p = wake (v_pc s b) -> p = VIdle \/ exists i, head p = Some i.
Proof. intros Hp [->| ->]; [done|]. destruct Hp as [->|[i Hi]]; [by left|]. destruct (v_pc s b); eauto. Qed.

Lemma placed_step b s s' : ok s -> placed b s -> qstep s s' -> placed b s'.
Proof.
  intros Hok Hp Hs. apply qstep_ok in Hs as (_ & a & Hq & Ef); [|done].
  destruct Ef as [a b' w i j k Ha Fi|a b' w s1 Ha Hn U|b' w i Hb|b' w i Hb|b' w i Hb Hd|b' w i j k Hb Hd|b' n data Hb| |b' w i a Hb| | |b' w h a Hb Hh|h Hh];
    try exact Hp.
  - apply (placed_upd b b' (VRing w i) s); [done| |by right]. unfold submitted. by vp.
  - destruct U as (D & p & -> & _ & _ & Hpp). unfold placed. vp. unfold vupd. destruct (decide (b = b')) as [->|]; [|by eapply placed_wake].
    destruct Ha as [[-> _]|[_ Hb]]; [done|]. destruct Hp as [Hp|[x Hp]]; rewrite Hb in Hp; done.
  - by apply (placed_upd b b' (VNotify w i) s); [| |right].
  - by apply (placed_upd b b' (VWait w i false) s); [| |right].
  - by apply (placed_upd b b' (VWait w i true) s); [| |right].
  - unfold placed, finished, freed. vp. unfold vupd. destruct (decide (b = b')); [by left|]. rewrite !wake_wake. eapply placed_wake; [done|by right].
  - apply (placed_upd b b' (VWait w i false) s); [done| |by right]. unfold handled. vp. by rewrite Hb.
  - destruct w; exact Hp.
Qed.

(** A call with descriptors ends. *)
Lemma placed_reaches b s : ok s -> placed b s -> reaches b s.
Proof.
  apply (drain b (placed b)); [apply placed_step|]. clear s. intros s Hok [Hp|[i Hp]] Hc.
  - exists s. by split; [apply rtc_refl|].
  - destruct (calm_finish s b i Hok Hc Hp) as (s' & Hs & _ & _ & E & _). exists s'. split; [by apply rtc_once|done].
Qed.

(** In a calm state the other requests end, and with all descriptors free an
    allocation succeeds. *)
Lemma calm_reaches b n : forall s, (NUM - ntrue (v_free s) < n)%nat -> ok s -> calm s -> reaches b s.
Proof.
  induction n as [|n IH]; intros s Hn Hok Hc; [lia|]. pose proof Hok as [own Hi]. destruct (vi_len _ _ Hi) as (_ & L2 & _).
  destruct (v_pc s b) as [|w a|w i|w i|w i a] eqn:Hb; try (apply placed_reaches; [done|]; unfold placed; rewrite Hb; eauto; by left).
  destruct (decide (Forall (fun x => x = true) (v_free s))) as [Hall|Hall].
  - assert (ntrue (v_free s) = NUM) as Hnt.
    { rewrite <- L2. apply ntrue_all. intros i Hlt. destruct (lookup_lt_is_Some_2 _ _ Hlt) as [x E]. rewrite Forall_lookup in Hall.
      by rewrite E, (Hall i x E). }
    assert (a = false) as -> by (destruct a; [|done]; apply (vi_asleep _ _ Hi) in Hb; unfold NUM in *; lia).
    destruct (go (ARw b) s Hok I) as (s' & Hs & Ef & Hok').
    { cbn [do_act]. unfold may_lock. rewrite (proj1 Hc), Hb. cbn [negb]. eauto. }
    apply (reaches_step _ _ _ Hs), placed_reaches; [done|]. right. inversion Ef; subst; try congruence.
    + match goal with H : _ \/ _ |- _ => destruct H as [[? ?]|[E ?]]; [discriminate|injection E as <-] end.
      rewrite (proj1 (sub_pc s b w0 i j k)). by exists i.
    + unfold NUM in *. lia.
  - apply not_Forall_Exists in Hall; [|apply _]. apply Exists_exists in Hall as (x & Hx & Hxn). apply list_elem_of_lookup in Hx as [i Ei].
    destruct x; [by destruct Hxn|]. destruct (own i) as [b'|] eqn:Eo; [|by apply (vi_free _ _ Hi i false Ei) in Eo].
    destruct (vi_own _ _ Hi i b' Eo) as [_ [h Hh]]. destruct (calm_finish s b' h Hok Hc Hh) as (s' & Hs & Hok' & Hc' & _ & Hlt).
    apply (reaches_step _ _ _ Hs), IH; [|done|done].
    destruct Hok' as [own' Hi']. pose proof (ntrue_le (v_free s')). destruct (vi_len _ _ Hi') as (_ & L2' & _). lia.
Qed.

(** C15: every call of virtio_disk_rw can be brought to its end from every
    state any number of calls, the interrupt handler and the device reach, by
    steps of the calls in progress, the handler and the device alone.  In
    particular no call waits for descriptors or for its transfer without
    someone left to wake it. *)
Theorem virtio_completes media data s b (Hd : forall b, length (data b) = 1024%nat) (Hr : rtc vstep (disk_init media data) s) :
  exists s', rtc qstep s s' /\ v_pc s' b = VIdle.
Proof.
  destruct (reach_inv media data s Hd Hr) as [own Hi].
  apply (drain b (fun _ => True)); [done| |by exists own|done]. intros s1 Hok _ Hc. by apply (calm_reaches b (S NUM)); [lia|..].
Qed.

(** Three calls, of which one waits for descriptors. *)
Lemma virtio_completes_witness : exists s s', run_acts [ACall 0 true; ARw 0; ARw 0; ARw 0; ACall 1 false; ARw 1; ARw 1; ARw 1; ACall 2 true]
    (disk_init (fun _ => 0) (fun _ => replicate 1024 7)) = Some s /\ v_pc s 2%nat = VAlloc true true /\ rtc qstep s s' /\ v_pc s' 2%nat = VIdle.
Proof.
  destruct (run_acts [ACall 0 true; ARw 0; ARw 0; ARw 0; ACall 1 false; ARw 1; ARw 1; ARw 1; ACall 2 true]
    (disk_init (fun _ => 0) (fun _ => replicate 1024 7))) as [s|] eqn:Es; [|vm_compute in Es; discriminate Es].
  destruct (virtio_completes (fun _ => 0) (fun _ => replicate 1024 7) s 2%nat ltac:(done) (run_acts_rtc _ _ _ Es)) as (s' & Hr & Hp).
  exists s, s'. split; [reflexivity|]. split; [|done].
  assert (match run_acts [ACall 0 true; ARw 0; ARw 0; ARw 0; ACall 1 false; ARw 1; ARw 1; ARw 1; ACall 2 true]
    (disk_init (fun _ => 0) (fun _ => replicate 1024 7)) with Some s => v_pc s 2%nat | None => VIdle end = VAlloc true true) as Hv by (vm_compute; reflexivity).
  by rewrite Es in Hv.
Defined.
