(* ===== verification/Bytes.v ===== *)
(** * Integers inside blocks

    The on-disk structures of kernel/fs.h and kernel/log.c are C structs laid
    over the bytes of a block: little-endian fields read from and written to a
    list of bytes. *)

From S2P Require Import Prelude.

Definition get8 (d : list Z) (off : Z) : Z := uint8 (nth (Z.to_nat off) d 0).
Definition put8 (d : list Z) (off v : Z) : list Z := <[Z.to_nat off := uint8 v]> d.

Fixpoint get_le (n : nat) (d : list Z) (off : Z) : Z :=
  match n with
  | O => 0
  | S n' => get8 d off + 256 * get_le n' d (off + 1)
  end.

Fixpoint put_le (n : nat) (d : list Z) (off v : Z) : list Z :=
  match n with
  | O => d
  | S n' => put_le n' (put8 d off v) (off + 1) (v / 256)
  end.

Definition get16 (d : list Z) (off : Z) : Z := get_le 2 d off.
Definition put16 (d : list Z) (off v : Z) : list Z := put_le 2 d off v.
Definition get32 (d : list Z) (off : Z) : Z := get_le 4 d off.
Definition put32 (d : list Z) (off v : Z) : list Z := put_le 4 d off v.
Arguments get16 : simpl never.
Arguments put16 : simpl never.
Arguments get32 : simpl never.
Arguments put32 : simpl never.

(** The bytes of an integer as it lies in memory. *)
Fixpoint le_bytes (n : nat) (v : Z) : list Z :=
  match n with
  | O => []
  | S n' => uint8 v :: le_bytes n' (v / 256)
  end.

(** The bytes from [off] on, and writing a run of bytes there. *)
Definition sub (d : list Z) (off n : Z) : list Z := take (Z.to_nat n) (drop (Z.to_nat off) d).
Definition splice (d : list Z) (off : Z) (bs : list Z) : list Z :=
  take (Z.to_nat off) d ++ bs ++ drop (Z.to_nat off + length bs) d.

Lemma length_put8 d off v : length (put8 d off v) = length d.
Proof. apply length_insert. Qed.

Lemma get8_put8 d off v off' : 0 <= off < Z.of_nat (length d) -> 0 <= off' ->
  get8 (put8 d off v) off' = if decide (off = off') then uint8 v else get8 d off'.
Proof.
  intros H H'. unfold get8, put8. rewrite !nth_lookup. case_decide as Hd.
  - subst off'. rewrite list_lookup_insert_eq by lia. simpl. apply uint8_idemp.
  - rewrite list_lookup_insert_ne by lia. done.
Qed.

Lemma length_put_le n : forall d off v, length (put_le n d off v) = length d.
Proof. induction n; intros; [done|]. cbn [put_le]. by rewrite IHn, length_put8. Qed.

Lemma get8_put_le_other n : forall d off v off', 0 <= off -> off + Z.of_nat n <= Z.of_nat (length d) ->
  0 <= off' -> ~ (off <= off' < off + Z.of_nat n) -> get8 (put_le n d off v) off' = get8 d off'.
Proof.
  induction n as [|n IH]; intros d off v off' H0 H1 H2 H3; [done|]. cbn [put_le].
  rewrite IH by (rewrite ?length_put8; lia). rewrite get8_put8 by lia. by rewrite decide_False by lia.
Qed.

Lemma get_le_ext n : forall d d' off, (forall i, off <= i < off + Z.of_nat n -> get8 d' i = get8 d i) ->
  get_le n d' off = get_le n d off.
Proof.
  induction n as [|n IH]; intros d d' off H; [done|]. cbn [get_le].
  rewrite H by lia. rewrite (IH d d'); [done|]. intros i Hi. apply H. lia.
Qed.

Lemma get_put_le n : forall d off v, 0 <= off -> off + Z.of_nat n <= Z.of_nat (length d) ->
  get_le n (put_le n d off v) off = v mod 256 ^ Z.of_nat n.
Proof.
  induction n as [|n IH]; intros d off v H0 H1.
  { cbn [put_le get_le]. change (256 ^ Z.of_nat 0) with 1. by rewrite Z.mod_1_r. }
  cbn [put_le get_le]. rewrite IH by (rewrite ?length_put8; lia).
  rewrite get8_put_le_other by (rewrite ?length_put8; lia). rewrite get8_put8 by lia. rewrite decide_True by done.
  rewrite Nat2Z.inj_succ, Z.pow_succ_r by lia. rewrite Z.rem_mul_r by lia. done.
Qed.

Lemma get_put_le_other n k : forall d off v off', 0 <= off -> off + Z.of_nat n <= Z.of_nat (length d) -> 0 <= off' ->
  off' + Z.of_nat k <= off \/ off + Z.of_nat n <= off' ->
  get_le k (put_le n d off v) off' = get_le k d off'.
Proof. intros. apply get_le_ext. intros i Hi. apply get8_put_le_other; lia. Qed.

Lemma get32_put32 d off v : 0 <= off -> off + 4 <= Z.of_nat (length d) -> get32 (put32 d off v) off = uint32 v.
Proof. intros. unfold get32, put32. by rewrite get_put_le. Qed.

Lemma get32_put32_other d off v off' : 0 <= off -> off + 4 <= Z.of_nat (length d) -> 0 <= off' ->
  off' + 4 <= off \/ off + 4 <= off' -> get32 (put32 d off v) off' = get32 d off'.
Proof. intros. unfold get32, put32. apply get_put_le_other; lia. Qed.

Lemma length_put32 d off v : length (put32 d off v) = length d.
Proof. apply length_put_le. Qed.

Lemma get8_range d off : 0 <= get8 d off < 256.
Proof. apply uint8_range. Qed.

Lemma get_le_range n : forall d off, 0 <= get_le n d off < 256 ^ Z.of_nat n.
Proof.
  induction n as [|n IH]; intros d off; [simpl; lia|]. cbn [get_le].
  pose proof (get8_range d off). specialize (IH d (off + 1)).
  rewrite Nat2Z.inj_succ, Z.pow_succ_r by lia. lia.
Qed.

Lemma get32_range d off : 0 <= get32 d off < 2 ^ 32.
Proof. apply (get_le_range 4). Qed.

Lemma int32_uint32 v : - 2 ^ 31 <= v < 2 ^ 31 -> int32 (uint32 v) = v.
Proof. intros. unfold int32, uint32. rewrite Zplus_mod_idemp_l, Z.mod_small; lia. Qed.

Lemma get16_put16 d off v : 0 <= off -> off + 2 <= Z.of_nat (length d) -> get16 (put16 d off v) off = uint16 v.
Proof. intros. unfold get16, put16. by rewrite get_put_le. Qed.

Lemma get16_put16_other d off v off' : 0 <= off -> off + 2 <= Z.of_nat (length d) -> 0 <= off' ->
  off' + 2 <= off \/ off + 2 <= off' -> get16 (put16 d off v) off' = get16 d off'.
Proof. intros. unfold get16, put16. apply get_put_le_other; lia. Qed.

Lemma get32_put16_other d off v off' : 0 <= off -> off + 2 <= Z.of_nat (length d) -> 0 <= off' ->
  off' + 4 <= off \/ off + 2 <= off' -> get32 (put16 d off v) off' = get32 d off'.
Proof. intros. unfold get32, put16. apply get_put_le_other; lia. Qed.

Lemma get16_put32_other d off v off' : 0 <= off -> off + 4 <= Z.of_nat (length d) -> 0 <= off' ->
  off' + 2 <= off \/ off + 4 <= off' -> get16 (put32 d off v) off' = get16 d off'.
Proof. intros. unfold get16, put32. apply get_put_le_other; lia. Qed.

Lemma length_put16 d off v : length (put16 d off v) = length d.
Proof. apply length_put_le. Qed.

Lemma int16_uint16 v : - 2 ^ 15 <= v < 2 ^ 15 -> int16 (uint16 v) = v.
Proof. intros. unfold int16, uint16. rewrite Zplus_mod_idemp_l, Z.mod_small; lia. Qed.
