(* ===== verification/Log.v ===== *)
(** * The write-ahead log

    kernel/log.c: the in-memory log header and the operations that open and
    close transactions, record blocks in them, commit them to disk and
    recover from the on-disk log at boot.  As for sleep locks, the [wakeup] of
    [end_op] is performed by [liftW] of KState.v. *)

From S2P Require Import Prelude Bytes Sleeplock Bio.

Record logheader := LogHeader { lh_n : Z; lh_block : list Z }.

Record log := Log {
  lg_start : Z;
  lg_size : Z;
  lg_outstanding : Z;
  lg_committing : bool;
  lg_dev : Z;
  lg_lh : logheader
}.

(** The buffer cache and the log. *)
Record lstate := LState { ls_bio : bstate; ls_log : log }.

Definition liftB {A} (c : K bstate A) : K lstate A := fun s =>
  match c (ls_bio s) with
  | Ret a b => Ret a (LState b (ls_log s))
  | Panic msg => Panic msg
  | Sleep b => Sleep (LState b (ls_log s))
  | Diverge => Diverge
  end.

Definition getlog : K lstate log := fun s => Ret (ls_log s) s.
Definition setlog (l : log) : K lstate unit := fun s => Ret tt (LState (ls_bio s) l).
Definition set_lh (h : logheader) (l : log) : log :=
  Log (lg_start l) (lg_size l) (lg_outstanding l) (lg_committing l) (lg_dev l) h.
Definition set_outstanding (n : Z) (l : log) : log :=
  Log (lg_start l) (lg_size l) n (lg_committing l) (lg_dev l) (lg_lh l).
Definition set_committing (c : bool) (l : log) : log :=
  Log (lg_start l) (lg_size l) (lg_outstanding l) c (lg_dev l) (lg_lh l).

(** [for(i = i0; i < i0 + n; i++) body(i)] *)
Fixpoint kfor {S} (n : nat) (i : Z) (body : Z -> K S unit) : K S unit :=
  match n with
  | O => kret tt
  | S n' => body i ;;; kfor n' (i + 1) body
  end.

(** The value of [lh.block[i]]. *)
Definition lhblock (h : logheader) (i : Z) : Z := nth (Z.to_nat i) (lh_block h) 0.

Definition install_trans (recovering : bool) : K lstate unit :=
  l <- getlog ;;
  kfor (Z.to_nat (lh_n (lg_lh l))) 0 (fun tail =>
    lbuf <- liftB (bread (lg_dev l) (uint32 (lg_start l + tail + 1))) ;;
    dbuf <- liftB (bread (lg_dev l) (uint32 (lhblock (lg_lh l) tail))) ;;
    x <- liftB (bufget lbuf) ;;
    liftB (bufmod dbuf (set_data (b_data x))) ;;;
    liftB (bwrite dbuf) ;;;
    (if recovering then kret tt else liftB (bunpin dbuf)) ;;;
    liftB (brelse lbuf) ;;;
    liftB (brelse dbuf)).

(** The entries of the header block. *)
Definition head_n (d : block) : Z := int32 (get32 d 0).
Definition head_block (d : block) (i : Z) : Z := int32 (get32 d (4 + 4 * i)).

Fixpoint read_head_loop (n : nat) (i : Z) (d : block) (bl : list Z) : list Z :=
  match n with
  | O => bl
  | S n' => read_head_loop n' (i + 1) d (<[Z.to_nat i := head_block d i]> bl)
  end.

Definition read_head : K lstate unit :=
  l <- getlog ;;
  b <- liftB (bread (lg_dev l) (uint32 (lg_start l))) ;;
  x <- liftB (bufget b) ;;
  let n := head_n (b_data x) in
  setlog (set_lh (LogHeader n (read_head_loop (Z.to_nat n) 0 (b_data x) (lh_block (lg_lh l)))) l) ;;;
  liftB (brelse b).

Fixpoint write_head_loop (n : nat) (i : Z) (h : logheader) (d : block) : block :=
  match n with
  | O => d
  | S n' => write_head_loop n' (i + 1) h (put32 d (4 + 4 * i) (lhblock h i))
  end.

Definition write_head : K lstate unit :=
  l <- getlog ;;
  b <- liftB (bread (lg_dev l) (uint32 (lg_start l))) ;;
  x <- liftB (bufget b) ;;
  liftB (bufmod b (set_data
    (write_head_loop (Z.to_nat (lh_n (lg_lh l))) 0 (lg_lh l) (put32 (b_data x) 0 (lh_n (lg_lh l)))))) ;;;
  liftB (bwrite b) ;;;
  liftB (brelse b).

Definition clear_head : K lstate unit :=
  l <- getlog ;; setlog (set_lh (LogHeader 0 (lh_block (lg_lh l))) l).

Definition recover_from_log : K lstate unit :=
  read_head ;;;
  install_trans true ;;;
  clear_head ;;;
  write_head.

(** [logstart] and [nlog] are the fields of the superblock. *)
Definition initlog (dev logstart nlog : Z) : K lstate unit :=
  (if BSIZE <=? 4 + 4 * LOGSIZE then panic "initlog: too big logheader" else kret tt) ;;;
  l <- getlog ;;
  setlog (Log logstart nlog (lg_outstanding l) (lg_committing l) dev (lg_lh l)) ;;;
  recover_from_log.

(** One round of the loop of [begin_op]; a process that has to wait sleeps and
    runs it again when woken. *)
Definition begin_op : K lstate unit :=
  l <- getlog ;;
  if lg_committing l then (fun s => Sleep s)
  else if LOGSIZE <? lh_n (lg_lh l) + (lg_outstanding l + 1) * MAXOPBLOCKS then (fun s => Sleep s)
  else setlog (set_outstanding (lg_outstanding l + 1) l).

Definition write_log : K lstate unit :=
  l <- getlog ;;
  kfor (Z.to_nat (lh_n (lg_lh l))) 0 (fun tail =>
    to <- liftB (bread (lg_dev l) (uint32 (lg_start l + tail + 1))) ;;
    from <- liftB (bread (lg_dev l) (uint32 (lhblock (lg_lh l) tail))) ;;
    x <- liftB (bufget from) ;;
    liftB (bufmod to (set_data (b_data x))) ;;;
    liftB (bwrite to) ;;;
    liftB (brelse from) ;;;
    liftB (brelse to)).

Definition commit : K lstate unit :=
  l <- getlog ;;
  if 0 <? lh_n (lg_lh l) then
    write_log ;;;
    write_head ;;;
    install_trans false ;;;
    clear_head ;;;
    write_head
  else kret tt.

Definition end_op : K lstate unit :=
  l <- getlog ;;
  let l := set_outstanding (lg_outstanding l - 1) l in
  setlog l ;;;
  if lg_committing l then panic "log.committing"
  else if lg_outstanding l =? 0 then
    setlog (set_committing true l) ;;;
    commit ;;;
    l <- getlog ;;
    setlog (set_committing false l)
  else kret tt.

(** The index at which the search of [log_write] stops. *)
Fixpoint find_block (n : nat) (i : Z) (h : logheader) (blockno : Z) : Z :=
  match n with
  | O => i
  | S n' => if lhblock h i =? blockno then i else find_block n' (i + 1) h blockno
  end.

Definition log_write (b : nat) : K lstate unit :=
  l <- getlog ;;
  let h := lg_lh l in
  if (LOGSIZE <=? lh_n h) || (lg_size l - 1 <=? lh_n h) then panic "too big a transaction"
  else if lg_outstanding l <? 1 then panic "log_write outside of trans"
  else
    x <- liftB (bufget b) ;;
    let i := find_block (Z.to_nat (lh_n h)) 0 h (int32 (b_blockno x)) in
    let bl := <[Z.to_nat i := int32 (b_blockno x)]> (lh_block h) in
    if i =? lh_n h then
      liftB (bpin b) ;;; setlog (set_lh (LogHeader (lh_n h + 1) bl) l)
    else setlog (set_lh (LogHeader (lh_n h) bl) l).
