(* ===== verification/LogSpec.v ===== *)
(** * Commit and recovery *)

From S2P Require Import Prelude Bytes Sleeplock Bio BioSpec Log.

(** A run of block writes, on the device and on the contents of blocks. *)
Definition writes (d : disk) (W : list (Z * block)) : disk :=
  fold_left (fun d w => disk_write d (fst w) (snd w)) W d.
Definition vwrites (v : Z -> block) (W : list (Z * block)) : Z -> block :=
  fold_left (fun v w => fupd v (fst w) (snd w)) W v.

Lemma writes_app d W W' : writes d (W ++ W') = writes (writes d W) W'.
Proof. apply fold_left_app. Qed.

Lemma vwrites_app v W W' : vwrites v (W ++ W') = vwrites (vwrites v W) W'.
Proof. apply fold_left_app. Qed.

Lemma vwrites_cons v a x W : vwrites v ((a, x) :: W) = vwrites (fupd v a x) W.
Proof. done. Qed.

Lemma vwrites_ext W : forall v v', (forall b, v b = v' b) -> forall b, vwrites v W b = vwrites v' W b.
Proof.
  induction W as [|[a x] W IH]; intros v v' H b; [apply H|]. apply IH. intros b'.
  unfold fupd. by case_decide.
Qed.

Lemma disk_block_write d b v b' : disk_block (disk_write d b v) b' = fupd (disk_block d) b v b'.
Proof.
  unfold disk_block, disk_write, fupd. cbn [dk_blocks]. case_decide as H.
  - subst. by rewrite lookup_insert_eq.
  - by rewrite lookup_insert_ne.
Qed.

Lemma disk_block_writes W : forall d b, disk_block (writes d W) b = vwrites (disk_block d) W b.
Proof.
  induction W as [|[a x] W IH]; intros d b; [done|].
  change (disk_block (writes (disk_write d a x) W) b = vwrites (fupd (disk_block d) a x) W b). rewrite IH. apply vwrites_ext.
  intros b'. apply disk_block_write.
Qed.

Lemma vwrites_out W : forall v b, b ∉ map fst W -> vwrites v W b = v b.
Proof.
  induction W as [|[a x] W IH]; intros v b Hb; [done|]. rewrite vwrites_cons. cbn in Hb. apply not_elem_of_cons in Hb as [Hne Hb].
  rewrite IH by done. by apply fupd_other.
Qed.

Lemma vwrites_in W : forall v b x, NoDup (map fst W) -> (b, x) ∈ W -> vwrites v W b = x.
Proof.
  induction W as [|[a y] W IH]; intros v b x Hnd Hin; [by apply elem_of_nil in Hin|].
  rewrite vwrites_cons. cbn in Hnd.
  apply NoDup_cons in Hnd as [Ha Hnd]. apply elem_of_cons in Hin as [[= -> ->]|Hin]; [|by apply IH].
  rewrite vwrites_out by done. apply fupd_same.
Qed.

(** ** Loops *)

Lemma kfor_inv {S} (P : Z -> S -> Prop) (body : Z -> K S unit) n : forall i s,
  (forall j s, i <= j < i + Z.of_nat n -> P j s -> exists s', body j s = Ret tt s' /\ P (j + 1) s') ->
  P i s -> exists s', kfor n i body s = Ret tt s' /\ P (i + Z.of_nat n) s'.
Proof.
  induction n as [|n IH]; intros i s Hb Hp.
  - exists s. split; [done|]. by replace (i + Z.of_nat 0) with i by lia.
  - destruct (Hb i s ltac:(lia) Hp) as (s1 & H1 & Hp1). cbn [kfor]. rewrite (kbind_ret _ _ _ _ _ H1).
    destruct (IH (i + 1) s1) as (s' & H' & Hp'); [|done|].
    + intros j s2 Hj. apply Hb. lia.
    + exists s'. split; [done|]. by replace (i + Z.of_nat (Datatypes.S n)) with (i + 1 + Z.of_nat n) by lia.
Qed.

Lemma liftB_ret {A} (c : K bstate A) sb l a sb' :
  c sb = Ret a sb' -> liftB c (LState sb l) = Ret a (LState sb' l).
Proof. intros H. unfold liftB. cbn [ls_bio ls_log]. by rewrite H. Qed.

Lemma getlog_ret {A} (f : log -> K lstate A) sb l : kbind getlog f (LState sb l) = f l (LState sb l).
Proof. done. Qed.

Lemma setlog_ret {A} (f : unit -> K lstate A) sb l l' : kbind (setlog l') f (LState sb l) = f tt (LState sb l').
Proof. done. Qed.

Ltac lstep H := rewrite (kbind_ret _ _ _ _ _ (liftB_ret _ _ _ _ _ H)).

Section log.
Variable dev : Z.

(** The body of the loop of [write_log]: block [B] is copied, in memory and on
    disk, to block [A] of the log. *)
Lemma copy_to_log sb lg v r l d u p A B :
  bst dev sb v r l d u p -> A <> B ->
  sl_locked (l A) = false -> l B = initsleeplock -> l A = initsleeplock ->
  r A = 0 -> 0 < r B -> r B + 1 < 2 ^ 32 -> (u < NBUF)%nat ->
  exists sb',
    (to <- liftB (bread dev A) ;; from <- liftB (bread dev B) ;; x <- liftB (bufget from) ;;
     liftB (bufmod to (set_data (b_data x))) ;;; liftB (bwrite to) ;;;
     liftB (brelse from) ;;; liftB (brelse to)) (LState sb lg) = Ret tt (LState sb' lg) /\
    bst dev sb' (fupd v A (v B)) r l (disk_write d A (v B)) u p.
Proof.
  intros St HAB HlA HlB HlA' HrA HrB HrB' Huse.
  destruct (bread_st dev sb v r l d u p A St HlA ltac:(lia) ltac:(done)) as (i & s1 & H1 & Hs1 & St1 & K1).
  rewrite HrA in St1. cbn [Z.eqb] in St1.
  destruct (bread_st dev s1 _ _ _ _ _ _ B St1) as (j & s2 & H2 & Hs2 & St2 & K2); [fupd_solve; by rewrite HlB|fupd_solve|fupd_solve|].
  pose proof (keeps_slot dev _ _ _ _ _ _ _ _ A i K2 St1 Hs1 ltac:(fupd_solve)) as Hs2A.
  destruct (bufget_st dev s2 _ _ _ _ _ _ B j St2 Hs2) as (x & H3 & Hx & _); [fupd_solve|].
  destruct (setdata_st dev s2 _ _ _ _ _ _ A i (b_data x) St2 Hs2A) as (s3 & H4 & St3 & K3); [fupd_solve|].
  rewrite Hx in *.
  pose proof (keeps_slot dev _ _ _ _ _ _ _ _ A i K3 St2 Hs2A ltac:(fupd_solve)) as Hs3A.
  pose proof (keeps_slot dev _ _ _ _ _ _ _ _ B j K3 St2 Hs2 ltac:(fupd_solve)) as Hs3B.
  destruct (bwrite_st dev s3 _ _ _ _ _ _ A i St3 Hs3A) as (s4 & H5 & St4 & K4); [fupd_solve|fupd_solve|].
  pose proof (keeps_slot dev _ _ _ _ _ _ _ _ A i K4 St3 Hs3A ltac:(fupd_solve)) as Hs4A.
  pose proof (keeps_slot dev _ _ _ _ _ _ _ _ B j K4 St3 Hs3B ltac:(fupd_solve)) as Hs4B.
  destruct (brelse_st dev s4 _ _ _ _ _ _ B j St4 Hs4B) as (s5 & H6 & St5 & K5); [fupd_solve|fupd_solve|fupd_solve|].
  pose proof (keeps_slot dev _ _ _ _ _ _ _ _ A i K5 St4 Hs4A ltac:(fupd_solve)) as Hs5A.
  destruct (brelse_st dev s5 _ _ _ _ _ _ A i St5 Hs5A) as (s6 & H7 & St6 & K6); [fupd_solve|fupd_solve| |].
  { intros _. rewrite disk_block_write. fupd_solve. }
  exists s6. split.
  - lstep H1. lstep H2. lstep H3. rewrite Hx. lstep H4. lstep H5. lstep H6. by rewrite (liftB_ret _ _ _ _ _ H7).
  - eapply bst_conv; [exact St6|fupd_solve|fupd_solve|fupd_solve|by rewrite fupd_same|].
    unfold fupd. repeat case_decide; try congruence.
    destruct (r B =? 0) eqn:E1, (r B + 1 =? 1) eqn:E2; simpl; lia.
Qed.

(** The body of the loop of [install_trans]: block [A] of the log is copied, in
    memory and on disk, to its home [B], which [commit] had pinned. *)
Lemma copy_home sb lg v r l d u p A B (recovering : bool) :
  bst dev sb v r l d u p -> A <> B -> l A = initsleeplock -> l B = initsleeplock ->
  r A = 0 -> r B = (if recovering then 0 else 1) -> (1 + u < NBUF \/ recovering = false /\ 0 < u < NBUF)%nat ->
  exists sb',
    (lbuf <- liftB (bread dev A) ;; dbuf <- liftB (bread dev B) ;; x <- liftB (bufget lbuf) ;;
     liftB (bufmod dbuf (set_data (b_data x))) ;;; liftB (bwrite dbuf) ;;;
     (if recovering then kret tt else liftB (bunpin dbuf)) ;;;
     liftB (brelse lbuf) ;;; liftB (brelse dbuf)) (LState sb lg) = Ret tt (LState sb' lg) /\
    bst dev sb' (fupd v B (v A)) (fupd r B 0) l (disk_write d B (v A))
      (if recovering then u else u - 1)%nat p.
Proof.
  intros St HAB HlA HlB HrA HrB Huse.
  destruct (bread_st dev sb v r l d u p A St) as (i & s1 & H1 & Hs1 & St1 & K1); [by rewrite HlA|lia|lia|].
  rewrite HrA in St1. cbn [Z.eqb] in St1.
  destruct (bread_st dev s1 _ _ _ _ _ _ B St1) as (j & s2 & H2 & Hs2 & St2 & K2);
    [fupd_solve; by rewrite HlB|fupd_solve; destruct recovering; lia|fupd_solve; destruct recovering; lia|].
  pose proof (keeps_slot dev _ _ _ _ _ _ _ _ A i K2 St1 Hs1 ltac:(fupd_solve)) as Hs2A.
  assert (forall x, fupd (fupd r A x) B (fupd r A x B + 1) B = if recovering then 1 else 2) as HB
    by (intros x; rewrite fupd_same, fupd_other by done; rewrite HrB; by destruct recovering).
  destruct (bufget_st dev s2 _ _ _ _ _ _ A i St2 Hs2A) as (x & H3 & Hx & _); [fupd_solve|].
  destruct (setdata_st dev s2 _ _ _ _ _ _ B j (b_data x) St2 Hs2) as (s3 & H4 & St3 & K3); [rewrite HB; by destruct recovering|].
  rewrite Hx in *.
  pose proof (keeps_slot dev _ _ _ _ _ _ _ _ A i K3 St2 Hs2A ltac:(fupd_solve)) as Hs3A.
  pose proof (keeps_slot dev _ _ _ _ _ _ _ _ B j K3 St2 Hs2 ltac:(rewrite HB; by destruct recovering)) as Hs3B.
  destruct (bwrite_st dev s3 _ _ _ _ _ _ B j St3 Hs3B) as (s4 & H5 & St4 & K4); [rewrite HB; by destruct recovering|fupd_solve|].
  rewrite fupd_same in St4.
  pose proof (keeps_slot dev _ _ _ _ _ _ _ _ A i K4 St3 Hs3A ltac:(fupd_solve)) as Hs4A.
  pose proof (keeps_slot dev _ _ _ _ _ _ _ _ B j K4 St3 Hs3B ltac:(rewrite HB; by destruct recovering)) as Hs4B.
  assert (exists s5, (if recovering then kret tt else liftB (bunpin j)) (LState s4 lg) = Ret tt (LState s5 lg) /\
    bst dev s5 (fupd v B (v A)) (fupd (fupd r A 1) B 1) (fupd (fupd l A (Sleeplock true p)) B (Sleeplock true p))
      (disk_write d B (v A)) (u + 1 + if recovering then 1 else 0)%nat p /\ slot dev s5 A = Some i /\ slot dev s5 B = Some j)
    as (s5 & H6 & St5 & Hs5A & Hs5B).
  { destruct recovering.
    - exists s4. split; [done|]. split; [|done].
      eapply bst_conv; [exact St4|done|fupd_solve|fupd_solve|done|].
      rewrite fupd_other, HrB by done. done.
    - destruct (bunpin_st dev s4 _ _ _ _ _ _ B j St4 Hs4B) as (s5 & H6 & St5 & K5); [by rewrite HB|].
      exists s5. rewrite (liftB_ret _ _ _ _ _ H6). split; [done|]. split; [|split].
      + eapply bst_conv; [exact St5|done|fupd_solve|fupd_solve|done|].
        rewrite fupd_other, HrB by done. simpl. lia.
      + eapply keeps_slot; [exact K5|exact St4|done|fupd_solve].
      + eapply keeps_slot; [exact K5|exact St4|done|by rewrite HB]. }
  destruct (brelse_st dev s5 _ _ _ _ _ _ A i St5 Hs5A) as (s6 & H7 & St6 & K6); [fupd_solve|fupd_solve| |].
  { intros _. rewrite disk_block_write, !fupd_other by done.
    pose proof (st_view _ _ _ _ _ _ _ _ St A) as HvA. rewrite <- HvA, <- (st_disk _ _ _ _ _ _ _ _ St).
    apply view_idle; [apply St|]. by rewrite (st_refs _ _ _ _ _ _ _ _ St). }
  pose proof (keeps_slot dev _ _ _ _ _ _ _ _ B j K6 St5 Hs5B ltac:(fupd_solve)) as Hs6B.
  destruct (brelse_st dev s6 _ _ _ _ _ _ B j St6 Hs6B) as (s7 & H8 & St7 & K7); [fupd_solve|fupd_solve| |].
  { intros _. by rewrite disk_block_write, !fupd_same. }
  exists s7. split.
  - lstep H1. lstep H2. lstep H3. rewrite Hx. lstep H4. lstep H5.
    rewrite (kbind_ret _ _ _ _ _ H6). lstep H7. by rewrite (liftB_ret _ _ _ _ _ H8).
  - eapply bst_conv; [exact St7|done|fupd_solve|fupd_solve|done|].
    unfold fupd. repeat case_decide; try congruence. destruct recovering; simpl; lia.
Qed.
End log.
