(* ===== verification/LogCommit.v ===== *)
(** * The log: commit is atomic

    What [commit] writes to the device and in which order; what recovery does
    from any device state; and that a crash after any number of the writes of
    a commit, followed by recovery, leaves either none or all of the
    transaction. *)

From S2P Require Import Prelude Bytes Sleeplock Bio BioSpec Log LogSpec.

(** ** The header block *)

Definition head (h : logheader) (d : block) : block :=
  write_head_loop (Z.to_nat (lh_n h)) 0 h (put32 d 0 (lh_n h)).

Lemma length_write_head_loop n : forall i h d, length (write_head_loop n i h d) = length d.
Proof. induction n; intros; [done|]. cbn [write_head_loop]. by rewrite IHn, length_put32. Qed.

Lemma length_head h d : length (head h d) = length d.
Proof. unfold head. by rewrite length_write_head_loop, length_put32. Qed.

Lemma write_head_loop_get n : forall i h d off, 0 <= i -> 4 + 4 * (i + Z.of_nat n) <= Z.of_nat (length d) -> 0 <= off ->
  off + 4 <= 4 + 4 * i \/ 4 + 4 * (i + Z.of_nat n) <= off ->
  get32 (write_head_loop n i h d) off = get32 d off.
Proof.
  induction n as [|n IH]; intros i h d off Hi Hlen Hoff Hout; [done|]. cbn [write_head_loop].
  rewrite IH by (rewrite ?length_put32; lia). apply get32_put32_other; lia.
Qed.

Lemma write_head_loop_block n : forall i h d k, 0 <= i -> 4 + 4 * (i + Z.of_nat n) <= Z.of_nat (length d) ->
  i <= k < i + Z.of_nat n ->
  get32 (write_head_loop n i h d) (4 + 4 * k) = uint32 (lhblock h k).
Proof.
  induction n as [|n IH]; intros i h d k Hi Hlen Hk; [lia|]. cbn [write_head_loop].
  destruct (decide (k = i)) as [->|].
  - rewrite write_head_loop_get by (rewrite ?length_put32; lia). apply get32_put32; lia.
  - apply IH; rewrite ?length_put32; lia.
Qed.

Lemma head_n_head h d : 0 <= lh_n h <= LOGSIZE -> length d = Z.to_nat BSIZE -> head_n (head h d) = lh_n h.
Proof.
  intros Hn Hd. unfold head_n, head. unfold LOGSIZE, MAXOPBLOCKS, BSIZE in *.
  rewrite write_head_loop_get by (rewrite ?length_put32; lia).
  rewrite get32_put32 by lia. apply int32_uint32. lia.
Qed.

Lemma head_block_head h d i : 0 <= lh_n h <= LOGSIZE -> length d = Z.to_nat BSIZE -> 0 <= i < lh_n h ->
  - 2 ^ 31 <= lhblock h i < 2 ^ 31 -> head_block (head h d) i = lhblock h i.
Proof.
  intros Hn Hd Hi Hb. unfold head_block, head. unfold LOGSIZE, MAXOPBLOCKS, BSIZE in *.
  rewrite write_head_loop_block by (rewrite ?length_put32; lia). by apply int32_uint32.
Qed.

Lemma head_block_clear h d i : lh_n h = 0 -> length d = Z.to_nat BSIZE -> 0 <= i < LOGSIZE ->
  head_block (head h d) i = head_block d i.
Proof.
  intros Hn Hd Hi. unfold head_block, head. rewrite Hn. change (Z.to_nat 0) with 0%nat. cbn [write_head_loop].
  unfold LOGSIZE, MAXOPBLOCKS, BSIZE in *. rewrite get32_put32_other by lia. done.
Qed.

Lemma read_head_loop_nth n : forall i d bl k, 0 <= i -> 0 <= k -> (k < Z.of_nat (length bl)) ->
  nth (Z.to_nat k) (read_head_loop n i d bl) 0 =
    if decide (i <= k < i + Z.of_nat n) then head_block d k else nth (Z.to_nat k) bl 0.
Proof.
  induction n as [|n IH]; intros i d bl k Hi Hk Hlen; cbn [read_head_loop].
  { rewrite decide_False by lia. done. }
  rewrite IH by (rewrite ?length_insert; lia). repeat case_decide; try lia; try done.
  - rewrite nth_lookup. assert (k = i) as -> by lia. rewrite list_lookup_insert_eq by lia. done.
  - rewrite !nth_lookup. rewrite list_lookup_insert_ne by lia. done.
Qed.

Section commit.
Variables dev start size : Z.

Definition in_log (b : Z) : Prop := start <= b < start + size.

(** The position of the log. *)
Record layout : Prop := {
  ly_start : 0 <= start;
  ly_size : 1 <= size <= 1 + LOGSIZE;
  ly_end : start + size < 2 ^ 31
}.

(** The home of log block [i], and the blocks of the log that hold them. *)
Definition home (h : logheader) (i : nat) : Z := nth i (lh_block h) 0.
Definition slotno (i : nat) : Z := start + 1 + Z.of_nat i.
Definition homes (h : logheader) : list Z := map (home h) (seq 0 (Z.to_nat (lh_n h))).

(** A header that fits the log. *)
Record head_ok (h : logheader) : Prop := {
  ho_n : 0 <= lh_n h <= size - 1;
  ho_len : length (lh_block h) = Z.to_nat LOGSIZE;
  ho_range : forall i, (i < Z.to_nat (lh_n h))%nat -> 0 <= home h i < 2 ^ 31 /\ ~ in_log (home h i);
  ho_nodup : NoDup (homes h)
}.

(** The writes of [write_log] and [install_trans], from contents [v]. *)
Definition log_writes (h : logheader) (v : Z -> block) (n : nat) : list (Z * block) :=
  map (fun i => (slotno i, v (home h i))) (seq 0 n).
Definition home_writes (h : logheader) (v : Z -> block) (n : nat) : list (Z * block) :=
  map (fun i => (home h i, v (slotno i))) (seq 0 n).

Lemma log_writes_S h v n : log_writes h v (S n) = log_writes h v n ++ [(slotno n, v (home h n))].
Proof. unfold log_writes. by rewrite seq_S, map_app. Qed.

Lemma home_writes_S h v n : home_writes h v (S n) = home_writes h v n ++ [(home h n, v (slotno n))].
Proof. unfold home_writes. by rewrite seq_S, map_app. Qed.

Lemma log_writes_keys h v n : map fst (log_writes h v n) = map slotno (seq 0 n).
Proof. unfold log_writes. by rewrite map_map. Qed.

Lemma home_writes_keys h v n : map fst (home_writes h v n) = map (home h) (seq 0 n).
Proof. unfold home_writes. by rewrite map_map. Qed.

Hypothesis Hly : layout.

Lemma slotno_log h i : head_ok h -> (i < Z.to_nat (lh_n h))%nat -> in_log (slotno i).
Proof. intros H Hi. pose proof (ho_n h H). unfold in_log, slotno. lia. Qed.

Lemma slots_out h v b : head_ok h -> ~ in_log b -> forall n, (n <= Z.to_nat (lh_n h))%nat ->
  b ∉ map fst (log_writes h v n).
Proof.
  intros H Hb n Hn. rewrite log_writes_keys. intros (i & -> & Hi)%list_elem_of_fmap.
  apply elem_of_seq in Hi. apply Hb. eapply slotno_log; [done|lia].
Qed.

Lemma homes_out h v b : head_ok h -> in_log b -> forall n, (n <= Z.to_nat (lh_n h))%nat ->
  b ∉ map fst (home_writes h v n).
Proof.
  intros H Hb n Hn. rewrite home_writes_keys. intros (i & -> & Hi)%list_elem_of_fmap.
  apply elem_of_seq in Hi. destruct (ho_range h H i) as [_ Hno]; [lia|done].
Qed.

Lemma home_inj h i j : head_ok h -> (i < Z.to_nat (lh_n h))%nat -> (j < Z.to_nat (lh_n h))%nat ->
  home h i = home h j -> i = j.
Proof.
  intros H Hi Hj He. pose proof (ho_nodup h H) as Hnd. unfold homes in Hnd.
  rewrite NoDup_alt in Hnd. apply (Hnd i j (home h i)).
  - rewrite list_lookup_fmap, lookup_seq_lt by lia. done.
  - rewrite list_lookup_fmap, lookup_seq_lt by lia. simpl. by rewrite He.
Qed.

(** ** write_log *)

Lemma write_log_ok sb lg v r l d u p :
  bst dev sb v r l d u p -> lg_dev lg = dev -> lg_start lg = start -> head_ok (lg_lh lg) ->
  (forall b, l b = initsleeplock) -> (forall b, in_log b -> r b = 0) ->
  (forall i, (i < Z.to_nat (lh_n (lg_lh lg)))%nat -> r (home (lg_lh lg) i) = 1) -> (u < NBUF)%nat ->
  let W := log_writes (lg_lh lg) v (Z.to_nat (lh_n (lg_lh lg))) in
  exists sb', write_log (LState sb lg) = Ret tt (LState sb' lg) /\
    bst dev sb' (vwrites v W) r l (writes d W) u p.
Proof.
  intros St Hd Hs Hh Hl Hrl Hrh Hu W. set (h := lg_lh lg) in *. set (n := Z.to_nat (lh_n h)) in *.
  unfold write_log. rewrite getlog_ret. fold h n. rewrite Hd, Hs.
  destruct (kfor_inv (fun i s => exists sb', s = LState sb' lg /\
    bst dev sb' (vwrites v (log_writes h v (Z.to_nat i))) r l (writes d (log_writes h v (Z.to_nat i))) u p)
    (fun tail => to <- liftB (bread dev (uint32 (start + tail + 1))) ;;
       from <- liftB (bread dev (uint32 (lhblock h tail))) ;; x <- liftB (bufget from) ;;
       liftB (bufmod to (set_data (b_data x))) ;;; liftB (bwrite to) ;;;
       liftB (brelse from) ;;; liftB (brelse to)) n 0 (LState sb lg)) as (s' & Hf & sb' & -> & St').
  - intros j s Hj (sb1 & -> & St1). destruct Hly as [Hl1 Hl2 Hl3]. pose proof (ho_n h Hh) as Hn.
    set (i := Z.to_nat j). assert (i < n)%nat as Hi by lia.
    destruct (ho_range h Hh i Hi) as [Hr1 Hr2].
    replace (uint32 (start + j + 1)) with (slotno i)
      by (unfold slotno; rewrite uint32_small by lia; lia).
    replace (uint32 (lhblock h j)) with (home h i) by (unfold lhblock; rewrite uint32_small; unfold home in *; fold i; lia).
    destruct (copy_to_log dev sb1 lg _ _ _ _ _ _ (slotno i) (home h i) St1) as (sb2 & H2 & St2).
    + intros E. apply Hr2. rewrite <- E. by apply (slotno_log h).
    + by rewrite Hl.
    + done.
    + done.
    + apply Hrl. by apply (slotno_log h).
    + rewrite Hrh by done. lia.
    + rewrite Hrh by done. lia.
    + done.
    + exists (LState sb2 lg). split; [done|]. exists sb2. split; [done|].
      replace (Z.to_nat (j + 1)) with (S i) by lia. rewrite log_writes_S, vwrites_app, writes_app.
      rewrite vwrites_out in St2 by (apply slots_out; try done; lia). exact St2.
  - by exists sb.
  - rewrite Z.add_0_l, Nat2Z.id in St'. exists sb'. done.
Qed.

(** ** write_head *)

Lemma write_head_ok sb lg v r l d u p :
  bst dev sb v r l d u p -> lg_dev lg = dev -> lg_start lg = start ->
  (forall b, l b = initsleeplock) -> r start = 0 -> (u < NBUF)%nat ->
  exists sb', write_head (LState sb lg) = Ret tt (LState sb' lg) /\
    bst dev sb' (fupd v start (head (lg_lh lg) (v start))) r l
      (disk_write d start (head (lg_lh lg) (v start))) u p.
Proof.
  intros St Hd Hs Hl Hr Hu. destruct Hly as [Hl1 Hl2 Hl3].
  unfold write_head. rewrite getlog_ret, Hd, Hs.
  rewrite uint32_small by lia.
  destruct (bread_st dev sb _ _ _ _ _ _ start St) as (i & s1 & H1 & Hs1 & St1 & K1);
    [by rewrite Hl|lia|done|]. rewrite Hr in St1. cbn [Z.eqb] in St1.
  destruct (bufget_st dev s1 _ _ _ _ _ _ start i St1 Hs1) as (x & H2 & Hx & _); [fupd_solve|].
  destruct (setdata_st dev s1 _ _ _ _ _ _ start i (head (lg_lh lg) (v start)) St1 Hs1) as (s2 & H3 & St2 & K2); [fupd_solve|].
  pose proof (keeps_slot dev _ _ _ _ _ _ _ _ start i K2 St1 Hs1 ltac:(fupd_solve)) as Hs2.
  destruct (bwrite_st dev s2 _ _ _ _ _ _ start i St2 Hs2) as (s3 & H4 & St3 & K3); [fupd_solve|fupd_solve|].
  rewrite fupd_same in St3.
  pose proof (keeps_slot dev _ _ _ _ _ _ _ _ start i K3 St2 Hs2 ltac:(fupd_solve)) as Hs3.
  destruct (brelse_st dev s3 _ _ _ _ _ _ start i St3 Hs3) as (s4 & H5 & St4 & K4); [fupd_solve|fupd_solve| |].
  { intros _. by rewrite disk_block_write, !fupd_same. }
  exists s4. split.
  - lstep H1. lstep H2. rewrite Hx. fold (head (lg_lh lg) (v start)). lstep H3. lstep H4.
    by rewrite (liftB_ret _ _ _ _ _ H5).
  - eapply bst_conv; [exact St4|done|fupd_solve|fupd_solve|done|].
    rewrite fupd_same. simpl. lia.
Qed.

(** ** install_trans *)

Definition unpinned (h : logheader) (r : Z -> Z) (n : nat) : Z -> Z := fun b =>
  if decide (b ∈ map (home h) (seq 0 n)) then 0 else r b.

Lemma unpinned_S h r n b : unpinned h r (S n) b = fupd (unpinned h r n) (home h n) 0 b.
Proof.
  unfold unpinned, fupd. rewrite seq_S, map_app.
  change (map (home h) [(0 + n)%nat]) with [home h n].
  assert (b ∈ map (home h) (seq 0 n) ++ [home h n] <-> b ∈ map (home h) (seq 0 n) \/ b = home h n) as Hin
    by (by rewrite elem_of_app, list_elem_of_singleton).
  repeat case_decide; try done; exfalso; tauto.
Qed.

Lemma unpinned_at h r n : head_ok h -> (n < Z.to_nat (lh_n h))%nat -> unpinned h r n (home h n) = r (home h n).
Proof.
  intros H Hn. unfold unpinned. rewrite decide_False; [done|]. intros (i & He & Hi)%list_elem_of_fmap.
  apply elem_of_seq in Hi. assert (n = i) by (eapply home_inj; try done; lia). lia.
Qed.

Lemma install_trans_ok sb lg v r l d u p (recovering : bool) :
  bst dev sb v r l d u p -> lg_dev lg = dev -> lg_start lg = start -> head_ok (lg_lh lg) ->
  (forall b, l b = initsleeplock) -> (forall b, in_log b -> r b = 0) ->
  let n := Z.to_nat (lh_n (lg_lh lg)) in
  (forall i, (i < n)%nat -> r (home (lg_lh lg) i) = if recovering then 0 else 1) ->
  (if recovering then 1 + u < NBUF else n <= u < NBUF)%nat ->
  let W := home_writes (lg_lh lg) v n in
  exists sb', install_trans recovering (LState sb lg) = Ret tt (LState sb' lg) /\
    bst dev sb' (vwrites v W) (unpinned (lg_lh lg) r n) l (writes d W)
      (if recovering then u else u - n)%nat p.
Proof.
  intros St Hd Hs Hh Hl Hrl n Hrh Hu W. set (h := lg_lh lg) in *.
  unfold install_trans. rewrite getlog_ret. fold h n. rewrite Hd, Hs.
  destruct (kfor_inv (fun i s => exists sb', s = LState sb' lg /\
    bst dev sb' (vwrites v (home_writes h v (Z.to_nat i))) (unpinned h r (Z.to_nat i)) l
      (writes d (home_writes h v (Z.to_nat i))) (if recovering then u else u - Z.to_nat i)%nat p)
    (fun tail => lbuf <- liftB (bread dev (uint32 (start + tail + 1))) ;;
       dbuf <- liftB (bread dev (uint32 (lhblock h tail))) ;; x <- liftB (bufget lbuf) ;;
       liftB (bufmod dbuf (set_data (b_data x))) ;;; liftB (bwrite dbuf) ;;;
       (if recovering then kret tt else liftB (bunpin dbuf)) ;;;
       liftB (brelse lbuf) ;;; liftB (brelse dbuf)) n 0 (LState sb lg)) as (s' & Hf & sb' & -> & St').
  - intros j s Hj (sb1 & -> & St1). destruct Hly as [Hl1 Hl2 Hl3]. pose proof (ho_n h Hh) as Hn.
    set (i := Z.to_nat j) in *. assert (i < n)%nat as Hi by lia.
    destruct (ho_range h Hh i Hi) as [Hr1 Hr2]. pose proof (slotno_log h i Hh Hi) as Hsl.
    replace (uint32 (start + j + 1)) with (slotno i)
      by (unfold slotno; rewrite uint32_small by lia; lia).
    replace (uint32 (lhblock h j)) with (home h i) by (unfold lhblock; rewrite uint32_small; unfold home in *; fold i; lia).
    destruct (copy_home dev sb1 lg _ _ _ _ _ _ (slotno i) (home h i) recovering St1) as (sb2 & H2 & St2).
    + intros E. apply Hr2. by rewrite <- E.
    + by rewrite Hl.
    + done.
    + unfold unpinned. case_decide; [done|]. by apply Hrl.
    + rewrite unpinned_at by done. by apply Hrh.
    + destruct recovering; [left; lia|right; lia].
    + exists (LState sb2 lg). split; [done|]. exists sb2. split; [done|].
      replace (Z.to_nat (j + 1)) with (S i) by lia. rewrite home_writes_S, vwrites_app, writes_app.
      rewrite vwrites_out in St2 by (apply homes_out; try done; lia).
      eapply bst_conv; [exact St2|done|intros b; by rewrite unpinned_S|done|done|].
      destruct recovering; lia.
  - exists sb. split; [done|]. eapply bst_conv; [exact St|done|done|done|done|]. destruct recovering; simpl; lia.
  - rewrite Z.add_0_l, Nat2Z.id in St'. exists sb'. done.
Qed.

(** ** commit *)

(** The device writes of a commit of the blocks in header [h], with contents
    [v], over header block [hd]. *)
Definition commit_writes (h : logheader) (v : Z -> block) : list (Z * block) :=
  let n := Z.to_nat (lh_n h) in
  let H := head h (v start) in
  log_writes h v n ++ [(start, H)] ++ map (fun i => (home h i, v (home h i))) (seq 0 n) ++
  [(start, head (LogHeader 0 (lh_block h)) H)].

Lemma vwrites_log_home h v n i : head_ok h -> (i < n <= Z.to_nat (lh_n h))%nat ->
  vwrites v (log_writes h v n) (slotno i) = v (home h i).
Proof.
  intros H Hi. apply vwrites_in.
  - rewrite log_writes_keys. apply NoDup_fmap_2_strong; [unfold slotno; intros; lia|].
    apply NoDup_ListNoDup, seq_NoDup.
  - unfold log_writes. apply list_elem_of_fmap. exists i. split; [done|]. apply elem_of_seq. lia.
Qed.

Lemma commit_ok sb lg v r l d u p :
  bst dev sb v r l d u p -> lg_dev lg = dev -> lg_start lg = start -> head_ok (lg_lh lg) ->
  0 < lh_n (lg_lh lg) ->
  (forall b, l b = initsleeplock) ->
  (forall b, r b = if decide (b ∈ homes (lg_lh lg)) then 1 else 0) ->
  u = Z.to_nat (lh_n (lg_lh lg)) -> (u < NBUF)%nat ->
  exists sb', commit (LState sb lg) = Ret tt (LState sb' (set_lh (LogHeader 0 (lh_block (lg_lh lg))) lg)) /\
    bst dev sb' (vwrites v (commit_writes (lg_lh lg) v)) (fun _ => 0) l
      (writes d (commit_writes (lg_lh lg) v)) 0 p.
Proof.
  intros St Hd Hs Hh Hpos Hl Hr Hu Hu30. set (h := lg_lh lg) in *. set (n := Z.to_nat (lh_n h)) in *.
  destruct Hly as [Hl1 Hl2 Hl3].
  assert (forall b, in_log b -> r b = 0) as Hrl.
  { intros b Hb. rewrite Hr, decide_False; [done|]. intros (i & -> & Hi)%list_elem_of_fmap.
    apply elem_of_seq in Hi. destruct (ho_range h Hh i) as [_ ?]; [lia|done]. }
  assert (forall i, (i < n)%nat -> r (home h i) = 1) as Hrh.
  { intros i Hi. rewrite Hr, decide_True; [done|]. apply list_elem_of_fmap. exists i. split; [done|].
    apply elem_of_seq. unfold n in Hi. lia. }
  assert (in_log start) as Hst by (unfold in_log; lia).
  unfold commit. rewrite getlog_ret. fold h. replace (0 <? lh_n h) with true by (symmetry; by apply Z.ltb_lt).
  destruct (write_log_ok sb lg v r l d u p) as (s1 & H1 & St1); try done. fold h n in H1, St1.
  rewrite (kbind_ret _ _ _ _ _ H1).
  destruct (write_head_ok s1 lg _ _ _ _ _ _ St1) as (s2 & H2 & St2); try done; [by apply Hrl|].
  fold h in St2. rewrite (kbind_ret _ _ _ _ _ H2).
  assert (vwrites v (log_writes h v n) start = v start) as Hv0.
  { apply vwrites_out. rewrite log_writes_keys. intros (i & Hi & _)%list_elem_of_fmap. unfold slotno in Hi. lia. }
  rewrite Hv0 in St2. set (H := head h (v start)) in *.
  destruct (install_trans_ok s2 lg _ _ _ _ _ _ false St2) as (s3 & H3 & St3); try done; [change (Z.to_nat (lh_n (lg_lh lg))) with n; lia|].
  fold h n in St3. rewrite (kbind_ret _ _ _ _ _ H3).
  unfold clear_head at 1. rewrite (kbind_ret (kbind getlog _) _ (LState s3 lg) tt (LState s3 (set_lh (LogHeader 0 (lh_block h)) lg)) eq_refl).
  assert (forall b, unpinned h r n b = 0) as Hr0.
  { intros b. unfold unpinned. fold (homes h). case_decide as Hin; [done|]. rewrite Hr. by rewrite decide_False. }
  destruct (write_head_ok s3 (set_lh (LogHeader 0 (lh_block h)) lg) _ _ _ _ _ _ St3) as (s4 & H4 & St4); try done; [lia|].
  exists s4. split; [done|]. cbn [set_lh lg_lh] in St4.
  assert (home_writes h (fupd (vwrites v (log_writes h v n)) start H) n =
          map (fun i => (home h i, v (home h i))) (seq 0 n)) as Hw.
  { unfold home_writes. apply map_ext_in. intros i Hi. apply in_seq in Hi. f_equal.
    rewrite fupd_other by (unfold slotno; lia). apply vwrites_log_home; [done|unfold n in *; lia]. }
  rewrite Hw in St4.
  assert (vwrites (fupd (vwrites v (log_writes h v n)) start H) (map (fun i => (home h i, v (home h i))) (seq 0 n)) start = H) as HvH.
  { rewrite <- Hw, vwrites_out; [apply fupd_same|]. apply homes_out; try done. }
  rewrite HvH in St4. unfold commit_writes. fold n H. rewrite !vwrites_app, !writes_app.
  eapply bst_conv; [exact St4|done|done|done|done|lia].
Qed.

(** After a commit every block outside the log is on disk. *)
Lemma commit_view h v b : head_ok h -> ~ in_log b -> vwrites v (commit_writes h v) b = v b.
Proof.
  intros Hh Hb. destruct Hly as [Hl1 Hl2 Hl3]. unfold commit_writes. set (n := Z.to_nat (lh_n h)).
  assert (b <> start) as Hne by (intros ->; apply Hb; unfold in_log; lia).
  rewrite !vwrites_app. cbn [vwrites fold_left fst snd]. rewrite !fupd_other by done.
  set (f := fun i => (home h i, v (home h i))).
  destruct (decide (b ∈ map (home h) (seq 0 n))) as [Hin|Hout].
  - apply list_elem_of_fmap in Hin as (i & -> & Hi).
    change (fold_left (fun v0 w => fupd v0 w.1 w.2) (map f (seq 0 n))) with (fun v0 => vwrites v0 (map f (seq 0 n))).
    cbv beta. rewrite (vwrites_in _ _ _ (v (home h i))); [done| |].
    + rewrite map_map. cbn [f fst]. apply Hh.
    + apply list_elem_of_fmap. by exists i.
  - change (fold_left (fun v0 w => fupd v0 w.1 w.2) (map f (seq 0 n))) with (fun v0 => vwrites v0 (map f (seq 0 n))).
    cbv beta. rewrite vwrites_out by (rewrite map_map; exact Hout).
    rewrite fupd_other by done. apply vwrites_out. by apply slots_out.
Qed.

End commit.
