(* ===== verification/LogRecover.v ===== *)
(** * The log: recovery and crash safety

    What [initlog] does from any device state with a well-formed log, that it
    may itself be interrupted, and the atomicity of commits across crashes. *)

From S2P Require Import Prelude Bytes Sleeplock Bio BioSpec Log LogSpec LogCommit.

Section recover.
Variables dev start size : Z.
Hypothesis Hly : layout start size.
Hypothesis Hdev : dev <> 0.

(** The header that the header block [D] encodes. *)
Definition dhead (D : block) : logheader :=
  LogHeader (head_n D) (map (fun i => head_block D (Z.of_nat i)) (seq 0 (Z.to_nat LOGSIZE))).

Lemma home_dhead D i : (i < Z.to_nat LOGSIZE)%nat -> home (dhead D) i = head_block D (Z.of_nat i).
Proof.
  intros Hi. unfold home, dhead. cbn [lh_block].
  rewrite nth_lookup, list_lookup_fmap, lookup_seq_lt by done. done.
Qed.

Lemma head_ok_lt h i : head_ok start size h -> (i < Z.to_nat (lh_n h))%nat -> (i < Z.to_nat LOGSIZE)%nat.
Proof. intros Hh Hi. pose proof (ho_n _ _ h Hh). destruct Hly. lia. Qed.

(** Two headers with the same entries. *)
Lemma head_ok_ext h h' : head_ok start size h -> lh_n h' = lh_n h -> length (lh_block h') = Z.to_nat LOGSIZE ->
  (forall i, (i < Z.to_nat (lh_n h))%nat -> home h' i = home h i) -> head_ok start size h'.
Proof.
  intros [H1 H2 H3 H4] Hn Hl He. split; try done; [by rewrite Hn| |].
  - rewrite Hn. intros i Hi. rewrite He by done. by apply H3.
  - unfold homes in *. rewrite Hn. erewrite map_ext_in; [exact H4|]. intros i Hi. apply in_seq in Hi.
    apply He. lia.
Qed.

Lemma home_writes_ext h h' v v' n :
  (forall i, (i < n)%nat -> home h' i = home h i) -> (forall i, (i < n)%nat -> v' (slotno start i) = v (slotno start i)) ->
  home_writes start h' v' n = home_writes start h v n.
Proof.
  intros He Hv. apply map_ext_in. intros i Hi. apply in_seq in Hi. rewrite He, Hv by lia. done.
Qed.

Lemma head_0 bl D : head (LogHeader 0 bl) D = put32 D 0 0.
Proof. done. Qed.

Lemma read_head_ok sb lg v r l d u p :
  bst dev sb v r l d u p -> lg_dev lg = dev -> lg_start lg = start ->
  (forall b, l b = initsleeplock) -> r start = 0 -> (u < NBUF)%nat ->
  length (lh_block (lg_lh lg)) = Z.to_nat LOGSIZE -> head_ok start size (dhead (v start)) ->
  exists sb' h', read_head (LState sb lg) = Ret tt (LState sb' (set_lh h' lg)) /\
    lh_n h' = head_n (v start) /\ head_ok start size h' /\
    (forall i, (i < Z.to_nat (lh_n h'))%nat -> home h' i = home (dhead (v start)) i) /\
    bst dev sb' v r l d u p.
Proof.
  intros St Hd Hs Hl Hr Hu Hlen Hh. destruct Hly as [Hl1 Hl2 Hl3].
  unfold read_head. rewrite getlog_ret, Hd, Hs. rewrite uint32_small by lia.
  destruct (bread_st dev sb _ _ _ _ _ _ start St) as (i & s1 & H1 & Hs1 & St1 & K1);
    [by rewrite Hl|lia|done|]. rewrite Hr in St1. cbn [Z.eqb] in St1.
  destruct (bufget_st dev s1 _ _ _ _ _ _ start i St1 Hs1) as (x & H2 & Hx & _); [fupd_solve|].
  destruct (brelse_st dev s1 _ _ _ _ _ _ start i St1 Hs1) as (s2 & H3 & St2 & K2); [fupd_solve|fupd_solve| |].
  { intros _. rewrite <- (st_view _ _ _ _ _ _ _ _ St), <- (st_disk _ _ _ _ _ _ _ _ St).
    apply view_idle; [apply St|]. by rewrite (st_refs _ _ _ _ _ _ _ _ St). }
  lstep H1. lstep H2. rewrite Hx. set (D := v start) in *. cbv zeta.
  set (h' := LogHeader (head_n D) (read_head_loop (Z.to_nat (head_n D)) 0 D (lh_block (lg_lh lg)))).
  rewrite setlog_ret, (liftB_ret _ _ _ _ _ H3). exists s2, h'. split; [done|].
  assert (forall n i bl, length (read_head_loop n i D bl) = length bl) as Hlen'.
  { induction n as [|n IH]; intros; [done|]. cbn [read_head_loop]. by rewrite IH, length_insert. }
  assert (forall i, (i < Z.to_nat (lh_n h'))%nat -> home h' i = home (dhead D) i) as He.
  { intros j Hj. cbn [h' lh_n] in Hj. pose proof (head_ok_lt _ j Hh Hj) as Hj30.
    rewrite home_dhead by done. unfold home, h'. cbn [lh_block].
    pose proof (read_head_loop_nth (Z.to_nat (head_n D)) 0 D (lh_block (lg_lh lg)) (Z.of_nat j)) as Hnth.
    rewrite Nat2Z.id in Hnth. rewrite Hnth by lia. by rewrite decide_True by lia. }
  split; [done|]. split; [|split; [done|]].
  - eapply head_ok_ext; [exact Hh|done| |done]. cbn [h' lh_block]. by rewrite Hlen'.
  - eapply bst_conv; [exact St2|done|fupd_solve|fupd_solve|done|]. rewrite fupd_same. simpl. lia.
Qed.

(** The device writes of recovery, from a device with blocks [v]. *)
Definition recovery_writes (v : Z -> block) : list (Z * block) :=
  home_writes start (dhead (v start)) v (Z.to_nat (head_n (v start))) ++ [(start, put32 (v start) 0 0)].

Lemma initlog_ok d pid lg :
  length (lh_block (lg_lh lg)) = Z.to_nat LOGSIZE -> head_ok start size (dhead (disk_block d start)) ->
  exists s', initlog dev start size (LState (binit d pid) lg) = Ret tt s' /\
    bst dev (ls_bio s') (vwrites (disk_block d) (recovery_writes (disk_block d))) (fun _ => 0)
      (fun _ => initsleeplock) (writes d (recovery_writes (disk_block d))) 0 pid /\
    lh_n (lg_lh (ls_log s')) = 0 /\ lg_start (ls_log s') = start /\ lg_size (ls_log s') = size /\
    lg_dev (ls_log s') = dev /\ length (lh_block (lg_lh (ls_log s'))) = Z.to_nat LOGSIZE.
Proof.
  intros Hlen Hh. pose proof Hly as [Hl1 Hl2 Hl3]. destruct (binit_ok dev d pid Hdev) as (B1 & B2 & B3 & B4 & B5).
  assert (bst dev (binit d pid) (disk_block d) (fun _ => 0) (fun _ => initsleeplock) d 0 pid) as St by (by split).
  unfold initlog. rewrite (kbind_ret _ _ (LState (binit d pid) lg) tt (LState (binit d pid) lg) eq_refl).
  rewrite getlog_ret, setlog_ret. set (lg0 := Log start size _ _ dev _).
  unfold recover_from_log.
  destruct (read_head_ok (binit d pid) lg0 _ _ _ _ _ _ St) as (s1 & h & H1 & Hn & Hho & Heq & St1); try done; [unfold NBUF; lia|].
  rewrite (kbind_ret _ _ _ _ _ H1). set (lg1 := set_lh h lg0) in *.
  destruct (install_trans_ok dev start size Hly s1 lg1 _ _ _ _ _ _ true St1) as (s2 & H2 & St2); try done; [unfold NBUF; lia|].
  rewrite (kbind_ret _ _ _ _ _ H2). cbn [lg1 set_lh lg_lh] in St2. rewrite Hn in *.
  unfold clear_head at 1.
  rewrite (kbind_ret (kbind getlog _) _ (LState s2 lg1) tt (LState s2 (set_lh (LogHeader 0 (lh_block h)) lg1)) eq_refl).
  rewrite (home_writes_ext (dhead (disk_block d start)) h (disk_block d) (disk_block d)) in St2 by done.
  destruct (write_head_ok dev start size Hly s2 (set_lh (LogHeader 0 (lh_block h)) lg1) _ _ _ _ _ _ St2)
    as (s3 & H3 & St3); try done; [unfold unpinned; by case_decide|unfold NBUF; lia|].
  exists (LState s3 (set_lh (LogHeader 0 (lh_block h)) lg1)). split; [done|].
  cbn [ls_bio ls_log set_lh lg_lh lh_n lg_start lg_size lg_dev lh_block lg1 lg0] in *.
  split; [|repeat split; try done; apply Hho].
  rewrite head_0 in St3.
  rewrite vwrites_out in St3 by (apply (homes_out start size); [done|unfold in_log; lia|done]).
  unfold recovery_writes. rewrite vwrites_app, writes_app.
  eapply bst_conv; [exact St3|done|intros b; unfold unpinned; by case_decide|done|done|done].
Qed.

(** ** What recovery restores *)

Definition recovered (v : Z -> block) : Z -> block := vwrites v (recovery_writes v).

Lemma recovered_empty v b : head_n (v start) = 0 -> b <> start -> recovered v b = v b.
Proof.
  intros H0 Hb. unfold recovered, recovery_writes. rewrite H0. change (Z.to_nat 0) with 0%nat.
  rewrite vwrites_app, vwrites_cons. cbn [vwrites fold_left home_writes seq map]. by apply fupd_other.
Qed.

(** With [n] blocks in the log, their homes get the logged contents. *)
Lemma recovered_home v i : head_ok start size (dhead (v start)) -> (i < Z.to_nat (head_n (v start)))%nat ->
  recovered v (home (dhead (v start)) i) = v (slotno start i).
Proof.
  intros Hh Hi. pose proof Hly as [Hl1 Hl2 Hl3]. set (h := dhead (v start)) in *.
  assert (home h i <> start) as Hne.
  { destruct (ho_range _ _ h Hh i Hi) as [_ Hno]. intros E. apply Hno. rewrite E. unfold in_log. lia. }
  unfold recovered, recovery_writes. fold h.
  rewrite vwrites_app, vwrites_cons. cbn [vwrites fold_left]. rewrite fupd_other by done.
  apply (vwrites_in _ v). 
  - rewrite home_writes_keys. apply (ho_nodup _ _ h Hh).
  - apply list_elem_of_fmap. exists i. split; [done|]. apply elem_of_seq. lia.
Qed.

Lemma recovered_other v b : head_ok start size (dhead (v start)) -> b <> start ->
  b ∉ homes (dhead (v start)) -> recovered v b = v b.
Proof.
  intros Hh Hb Hout. unfold recovered, recovery_writes.
  rewrite vwrites_app, vwrites_cons. cbn [vwrites fold_left]. rewrite fupd_other by done.
  apply (vwrites_out _ v). by rewrite home_writes_keys.
Qed.

(** ** Crashes *)

Lemma head_ok_empty D : head_n D = 0 -> head_ok start size (dhead D).
Proof.
  intros H0. pose proof Hly as [Hl1 Hl2 Hl3]. split; cbn [dhead lh_n lh_block]; rewrite ?H0; try lia.
  - by rewrite length_map, length_seq.
  - unfold homes. cbn [dhead lh_n]. rewrite H0. constructor.
Qed.

(** The header that [write_head] leaves encodes the log's header. *)
Lemma dhead_head h D : head_ok start size h -> length D = Z.to_nat BSIZE ->
  head_n (head h D) = lh_n h /\ (forall i, (i < Z.to_nat (lh_n h))%nat -> home (dhead (head h D)) i = home h i) /\
  head_ok start size (dhead (head h D)).
Proof.
  intros Hh HD. pose proof Hly as [Hl1 Hl2 Hl3]. pose proof (ho_n _ _ h Hh) as Hn.
  assert (head_n (head h D) = lh_n h) as Hhn by (apply head_n_head; [lia|done]).
  assert (forall i, (i < Z.to_nat (lh_n h))%nat -> home (dhead (head h D)) i = home h i) as He.
  { intros i Hi. rewrite home_dhead by (by eapply head_ok_lt). destruct (ho_range _ _ h Hh i Hi) as [Hr _].
    rewrite head_block_head; try done; try lia.
    - unfold lhblock, home. by rewrite Nat2Z.id.
    - unfold lhblock. rewrite Nat2Z.id. unfold home in Hr. lia. }
  split; [done|]. split; [done|]. eapply head_ok_ext; [exact Hh|done| |done].
  cbn [dhead lh_block]. by rewrite length_map, length_seq.
Qed.

Lemma homes_dhead h D : head_ok start size h -> length D = Z.to_nat BSIZE -> homes (dhead (head h D)) = homes h.
Proof.
  intros Hh HD. destruct (dhead_head h D Hh HD) as (Hn & He & _). unfold homes. cbn [dhead lh_n]. rewrite Hn.
  apply map_ext_in. intros i Hi. apply in_seq in Hi. apply He. lia.
Qed.

Lemma start_log : in_log start size start.
Proof. destruct Hly. unfold in_log. lia. Qed.

(** Contents of the device part way through the writes of a commit. *)
Section crash.
Variables (h : logheader) (v v0 : Z -> block).
Hypothesis Hh : head_ok start size h.
Hypothesis Hv0 : v start = v0 start.
Hypothesis Hlen : length (v0 start) = Z.to_nat BSIZE.
Hypothesis Hempty : head_n (v0 start) = 0.
Hypothesis Hclean : forall b, b ∉ homes h -> v b = v0 b.

Let n := Z.to_nat (lh_n h).
Let H := head h (v start).
Let installs := map (fun i => (home h i, v (home h i))) (seq 0 n).

Lemma installs_keys j : forall b, b ∈ map fst (take j installs) -> b ∈ homes h.
Proof.
  intros b Hb. unfold homes. fold n. apply list_elem_of_fmap in Hb as ([b' x] & -> & Hin). cbn.
  apply elem_of_take in Hin as (i & Hi & _). unfold installs in Hi. apply list_lookup_fmap_Some in Hi as (k & [= -> ->] & Hk).
  apply list_elem_of_fmap. exists k. split; [done|]. by eapply list_elem_of_lookup_2.
Qed.

Lemma home_not_log b : b ∈ homes h -> ~ in_log start size b.
Proof.
  intros (i & -> & Hi)%list_elem_of_fmap. apply elem_of_seq in Hi.
  destruct (ho_range _ _ h Hh i) as [_ ?]; [lia|done].
Qed.

(** Before the header is written nothing of the transaction is visible. *)
Lemma crash_before k b : (k <= n)%nat -> ~ in_log start size b ->
  let vk := vwrites v0 (take k (commit_writes start h v)) in
  head_ok start size (dhead (vk start)) /\ recovered vk b = v0 b.
Proof.
  intros Hk Hb vk. unfold vk, commit_writes. fold n. clear vk.
  rewrite take_app_le by (unfold log_writes; rewrite length_map, length_seq; lia).
  assert (forall x, x = start \/ ~ in_log start size x ->
    vwrites v0 (take k (log_writes start h v n)) x = v0 x) as Hout.
  { intros x Hx. apply vwrites_out. intros Hin.
    assert (x ∈ map fst (log_writes start h v n)) as Hin'.
    { apply list_elem_of_fmap in Hin as (w & -> & Hw). apply list_elem_of_fmap. exists w. split; [done|].
      apply elem_of_take in Hw as (i & Hi & _). by eapply list_elem_of_lookup_2. }
    destruct Hx as [->|Hx]; [|exact (slots_out start size h v x Hh Hx n (Nat.le_refl _) Hin')].
    rewrite log_writes_keys in Hin'. apply list_elem_of_fmap in Hin' as (i & Hi & _). unfold slotno in Hi. lia. }
  rewrite Hout by (by left). split; [by apply head_ok_empty|].
  rewrite recovered_empty.
  - apply Hout. by right.
  - by rewrite Hout by (by left).
  - intros ->. apply Hb, start_log.
Qed.

(** Once it is written, recovery completes the transaction. *)
Lemma crash_after k b : (n < k)%nat -> ~ in_log start size b ->
  let vk := vwrites v0 (take k (commit_writes start h v)) in
  head_ok start size (dhead (vk start)) /\ recovered vk b = v b.
Proof.
  intros Hk Hb vk. assert (b <> start) as Hbs by (intros ->; apply Hb, start_log).
  assert (length (v start) = Z.to_nat BSIZE) as HvL by (by rewrite Hv0).
  destruct (dhead_head h (v start) Hh HvL) as (Hhn & Hhome & Hhok). fold H in Hhn, Hhome, Hhok.
  assert (length (log_writes start h v n) = n) as Hlw by (unfold log_writes; by rewrite length_map, length_seq).
  assert (length installs = n) as Hli by (unfold installs; by rewrite length_map, length_seq).
  set (v1 := vwrites v0 (log_writes start h v n ++ [(start, H)])).
  assert (v1 start = H) as Hv1s by (unfold v1; rewrite vwrites_app; apply fupd_same).
  assert (forall i, (i < n)%nat -> v1 (slotno start i) = v (home h i)) as Hv1l.
  { intros i Hi. unfold v1. rewrite vwrites_app, vwrites_cons. cbn [vwrites fold_left].
    rewrite fupd_other by (unfold slotno; lia). apply (vwrites_in _ v0).
    - rewrite log_writes_keys. apply NoDup_fmap_2_strong; [unfold slotno; intros; lia|].
      apply NoDup_ListNoDup, seq_NoDup.
    - apply list_elem_of_fmap. exists i. split; [done|]. apply elem_of_seq. lia. }
  assert (forall x, ~ in_log start size x -> v1 x = v0 x) as Hv1o.
  { intros x Hx. unfold v1. rewrite vwrites_app, vwrites_cons. cbn [vwrites fold_left].
    rewrite fupd_other by (intros ->; apply Hx, start_log). apply (vwrites_out _ v0). by eapply slots_out. }
  destruct (decide (k <= n + 1 + n)%nat) as [Hk2|Hk2].
  - assert (vk = vwrites v1 (take (k - n - 1) installs)) as ->.
    { unfold vk, v1, commit_writes. fold n H. rewrite <- vwrites_app. f_equal.
      rewrite app_assoc, take_app_ge by (rewrite length_app, Hlw; simpl; lia). f_equal.
      rewrite length_app, Hlw. simpl length. fold installs. rewrite take_app_le by (rewrite Hli; lia).
      f_equal. lia. }
    set (j := (k - n - 1)%nat). set (v2 := vwrites v1 (take j installs)).
    assert (forall x, in_log start size x -> v2 x = v1 x) as Hv2.
    { intros x Hx. apply vwrites_out. intros Hin. by apply installs_keys, home_not_log in Hin. }
    rewrite (Hv2 start start_log), Hv1s. split; [done|].
    destruct (decide (b ∈ homes h)) as [Hin|Hout].
    + apply list_elem_of_fmap in Hin as (i & -> & Hi). apply elem_of_seq in Hi. fold n in Hi.
      rewrite <- (Hhome i) by lia. pose proof (recovered_home v2 i) as Hrec.
      rewrite (Hv2 start start_log), Hv1s, Hhn in Hrec. rewrite Hrec; try done; [|lia].
      rewrite Hv2 by (apply (slotno_log start size h); [done|lia]). rewrite Hhome by lia. apply Hv1l. lia.
    + rewrite recovered_other; rewrite ?(Hv2 start start_log), ?Hv1s; try done.
      * unfold v2. rewrite vwrites_out by (intros Hin; by apply installs_keys in Hin).
        rewrite Hv1o by done. symmetry. by apply Hclean.
      * unfold H. by rewrite homes_dhead.
  - assert (vk = fupd (vwrites v1 installs) start (put32 H 0 0)) as ->.
    { unfold vk, v1, commit_writes. fold n H. rewrite take_ge.
      - rewrite !vwrites_app. done.
      - rewrite !length_app, Hlw. fold installs. rewrite Hli. simpl. lia. }
    assert (head_n (put32 H 0 0) = 0) as H00.
    { unfold head_n. rewrite get32_put32; [done|lia|]. unfold H. rewrite length_head, HvL. unfold BSIZE. lia. }
    rewrite fupd_same. split; [by apply head_ok_empty|].
    rewrite recovered_empty; [|by rewrite fupd_same|done]. rewrite fupd_other by done.
    destruct (decide (b ∈ homes h)) as [Hin|Hout].
    + apply list_elem_of_fmap in Hin as (i & -> & Hi). apply (vwrites_in _ v1).
      * unfold installs. rewrite map_map. apply (ho_nodup _ _ h Hh).
      * apply list_elem_of_fmap. by exists i.
    + rewrite vwrites_out; [|rewrite <- (take_ge installs n) by lia; intros Hin; by apply installs_keys in Hin].
      rewrite Hv1o by done. symmetry. by apply Hclean.
Qed.

End crash.

Lemma take_seq_le k n : (k <= n)%nat -> take k (seq 0 n) = seq 0 k.
Proof.
  intros H. replace n with (k + (n - k))%nat by lia. rewrite seq_app, take_app_le by (rewrite length_seq; lia).
  apply take_ge. rewrite length_seq. lia.
Qed.

(** Recovery may be interrupted after any of its writes and run again. *)
Lemma recovered_again v k b :
  head_ok start size (dhead (v start)) -> length (v start) = Z.to_nat BSIZE -> ~ in_log start size b ->
  let v' := vwrites v (take k (recovery_writes v)) in
  head_ok start size (dhead (v' start)) /\ recovered v' b = recovered v b.
Proof.
  intros Hh HL Hb v'. set (h := dhead (v start)) in *. set (n := Z.to_nat (head_n (v start))).
  assert (b <> start) as Hbs by (intros ->; apply Hb, start_log).
  assert (length (home_writes start h v n) = n) as Hlw by (unfold home_writes; by rewrite length_map, length_seq).
  destruct (decide (k <= n)%nat) as [Hk|Hk].
  - assert (v' = vwrites v (home_writes start h v k)) as ->.
    { unfold v', recovery_writes. fold h n. rewrite take_app_le by lia. f_equal.
      unfold home_writes. rewrite firstn_map. f_equal. by apply take_seq_le. }
    set (v1 := vwrites v (home_writes start h v k)).
    assert (forall x, in_log start size x -> v1 x = v x) as Hv1.
    { intros x Hx. apply vwrites_out. by apply (homes_out start size). }
    rewrite (Hv1 start start_log). fold h. split; [done|].
    destruct (decide (b ∈ homes h)) as [Hin|Hout].
    + apply list_elem_of_fmap in Hin as (i & -> & Hi). apply elem_of_seq in Hi. cbn [h dhead lh_n] in Hi. fold n in Hi.
      pose proof (recovered_home v i) as Hrv. fold h in Hrv. rewrite Hrv by (done || lia).
      pose proof (recovered_home v1 i) as Hrec. rewrite (Hv1 start start_log) in Hrec. fold h in Hrec.
      rewrite Hrec by (done || lia). apply Hv1. apply (slotno_log start size h); [done|]. cbn [h dhead lh_n]. lia.
    + rewrite !recovered_other; rewrite ?(Hv1 start start_log); try done.
      apply vwrites_out. rewrite home_writes_keys. intros Hin. apply Hout.
      unfold homes. cbn [h dhead lh_n]. fold n. apply list_elem_of_fmap in Hin as (i & -> & Hi).
      apply elem_of_seq in Hi. apply list_elem_of_fmap. exists i. split; [done|]. apply elem_of_seq. lia.
  - assert (v' = recovered v) as ->.
    { unfold v', recovered. f_equal. apply take_ge. unfold recovery_writes. fold h n. rewrite length_app, Hlw. simpl. lia. }
    assert (recovered v start = put32 (v start) 0 0) as Hs.
    { unfold recovered, recovery_writes. rewrite vwrites_app. apply fupd_same. }
    assert (head_n (put32 (v start) 0 0) = 0) as H00.
    { unfold head_n. rewrite get32_put32; [done|lia|]. rewrite HL. unfold BSIZE. lia. }
    rewrite Hs. split; [by apply head_ok_empty|]. apply recovered_empty; [by rewrite Hs|done].
Qed.

End recover.
