(* ===== verification/LogOps.v ===== *)
(** * The log: transactions

    [begin_op], [log_write] and [end_op]: the space reserved for the
    operations in progress, the blocks recorded in the header, and the whole
    life of a transaction. *)

From S2P Require Import Prelude Bytes Sleeplock Bio BioSpec Log LogSpec LogCommit LogRecover.

Section ops.
Variables dev start size : Z.
Hypothesis Hly : layout start size.

Lemma find_block_spec h b n : forall i, 0 <= i ->
  let k := find_block n i h b in
  i <= k <= i + Z.of_nat n /\ (forall j, i <= j < k -> lhblock h j <> b) /\
  (k < i + Z.of_nat n -> lhblock h k = b).
Proof.
  induction n as [|n IH]; intros i Hi; cbn [find_block].
  { repeat split; intros; lia. }
  destruct (lhblock h i =? b) eqn:E.
  - apply Z.eqb_eq in E. repeat split; intros; (lia || done).
  - apply Z.eqb_neq in E. destruct (IH (i + 1) ltac:(lia)) as (H1 & H2 & H3). repeat split; try lia.
    intros j Hj. destruct (decide (j = i)) as [->|]; [done|]. apply H2. lia.
Qed.

Lemma homes_app h b bl : 0 <= lh_n h < Z.of_nat (length (lh_block h)) ->
  bl = <[Z.to_nat (lh_n h) := b]> (lh_block h) ->
  homes (LogHeader (lh_n h + 1) bl) = homes h ++ [b].
Proof.
  intros Hn ->. unfold homes. cbn [lh_n]. replace (Z.to_nat (lh_n h + 1)) with (S (Z.to_nat (lh_n h))) by lia.
  rewrite seq_S, map_app. f_equal.
  - apply map_ext_in. intros i Hi. apply in_seq in Hi. unfold home. cbn [lh_block].
    rewrite !nth_lookup, list_lookup_insert_ne by lia. done.
  - cbn [map]. unfold home. cbn [lh_block Nat.add]. rewrite nth_lookup, list_lookup_insert_eq by lia. done.
Qed.

(** Recording block [b], which the caller holds. *)
Lemma log_write_ok sb lg v r l d u p b i :
  bst dev sb v r l d u p -> slot dev sb b = Some i -> 0 < r b -> r b + 1 < 2 ^ 32 ->
  head_ok start size (lg_lh lg) -> lg_size lg = size ->
  lh_n (lg_lh lg) < size - 1 -> lh_n (lg_lh lg) < LOGSIZE -> 1 <= lg_outstanding lg ->
  0 <= b < 2 ^ 31 -> ~ in_log start size b ->
  exists sb' h', log_write i (LState sb lg) = Ret tt (LState sb' (set_lh h' lg)) /\ keeps dev sb sb' /\
    head_ok start size h' /\
    ((b ∈ homes (lg_lh lg)) /\ lh_n h' = lh_n (lg_lh lg) /\ homes h' = homes (lg_lh lg) /\ bst dev sb' v r l d u p \/
     (b ∉ homes (lg_lh lg)) /\ lh_n h' = lh_n (lg_lh lg) + 1 /\ homes h' = homes (lg_lh lg) ++ [b] /\
     bst dev sb' v (fupd r b (r b + 1)) l d u p).
Proof.
  intros St Hs Hr Hr32 Hh Hsz Hn1 Hn2 Hout Hb Hbl. set (h := lg_lh lg) in *.
  pose proof (ho_n _ _ h Hh) as Hn. pose proof (ho_len _ _ h Hh) as Hlen.
  unfold log_write. rewrite getlog_ret. cbv zeta. fold h. rewrite Hsz.
  replace (LOGSIZE <=? lh_n h) with false by (symmetry; apply Z.leb_gt; lia).
  replace (size - 1 <=? lh_n h) with false by (symmetry; apply Z.leb_gt; lia).
  replace (lg_outstanding lg <? 1) with false by (symmetry; apply Z.ltb_ge; lia). cbn [orb].
  destruct (bufget_st dev sb _ _ _ _ _ _ b i St Hs Hr) as (x & H1 & _ & Hxb). lstep H1. rewrite Hxb.
  rewrite int32_small by lia.
  destruct (find_block_spec h b (Z.to_nat (lh_n h)) 0 ltac:(lia)) as (Hk1 & Hk2 & Hk3).
  set (k := find_block _ _ _ _) in *. rewrite Z.add_0_l, Z2Nat.id in * by lia.
  assert (forall j, lhblock h j = home h (Z.to_nat j)) as Hlh by done.
  destruct (k =? lh_n h) eqn:E.
  - apply Z.eqb_eq in E. rewrite E in *.
    assert (b ∉ homes h) as Hnb.
    { intros (j & -> & Hj)%list_elem_of_fmap. apply elem_of_seq in Hj.
      apply (Hk2 (Z.of_nat j)); [lia|]. by rewrite Hlh, Nat2Z.id. }
    destruct (bpin_st dev sb _ _ _ _ _ _ b i St Hs Hr Hr32) as (s1 & H2 & St1 & K1). lstep H2.
    set (h' := LogHeader (lh_n h + 1) (<[Z.to_nat (lh_n h):=b]> (lh_block h))).
    exists s1, h'. split; [done|]. split; [done|].
    assert (homes h' = homes h ++ [b]) as Hho by (apply homes_app; [lia|done]).
    split; [|right; split; [done|]; split; [done|]; by split].
    split; cbn [h' lh_n lh_block].
    + lia.
    + by rewrite length_insert.
    + intros j Hj. destruct (decide (j = Z.to_nat (lh_n h))) as [->|Hne].
      * unfold home, h'. cbn [lh_block]. rewrite nth_lookup, list_lookup_insert_eq by lia. done.
      * unfold home, h'. cbn [lh_block]. rewrite nth_lookup, list_lookup_insert_ne by lia.
        rewrite <- nth_lookup. apply (ho_range _ _ h Hh). lia.
    + rewrite Hho. apply NoDup_app. split; [apply Hh|]. split; [|apply NoDup_singleton].
      intros y Hy ->%list_elem_of_singleton. done.
  - apply Z.eqb_neq in E. specialize (Hk3 ltac:(lia)).
    assert (<[Z.to_nat k := b]> (lh_block h) = lh_block h) as Hid.
    { apply list_insert_id. rewrite <- Hk3. unfold lhblock. rewrite nth_lookup.
      destruct (lookup_lt_is_Some_2 (lh_block h) (Z.to_nat k)) as [y Hy]; [lia|]. by rewrite Hy. }
    rewrite Hid. exists sb, (LogHeader (lh_n h) (lh_block h)). split; [done|]. split; [apply keeps_refl|].
    replace (LogHeader (lh_n h) (lh_block h)) with h by (by destruct h). split; [done|].
    left. split; [|done]. apply list_elem_of_fmap. exists (Z.to_nat k). split; [by rewrite <- Hk3|].
    apply elem_of_seq. lia.
Qed.

(** ** begin_op and end_op *)

(** [begin_op] admits an operation only when the log has room for it and for
    all those in progress. *)
Lemma begin_op_ok sb lg :
  (lg_committing lg = false /\ lh_n (lg_lh lg) + (lg_outstanding lg + 1) * MAXOPBLOCKS <= LOGSIZE /\
   begin_op (LState sb lg) = Ret tt (LState sb (set_outstanding (lg_outstanding lg + 1) lg))) \/
  ((lg_committing lg = true \/ LOGSIZE < lh_n (lg_lh lg) + (lg_outstanding lg + 1) * MAXOPBLOCKS) /\
   begin_op (LState sb lg) = Sleep (LState sb lg)).
Proof.
  unfold begin_op. rewrite getlog_ret. destruct (lg_committing lg); [right; split; [by left|done]|].
  destruct (LOGSIZE <? _) eqn:E.
  - right. split; [right; by apply Z.ltb_lt|done].
  - left. split; [done|]. split; [by apply Z.ltb_ge|done].
Qed.

(** The last operation commits; with others in progress nothing is written. *)
Lemma end_op_ok sb lg v r l d u p :
  bst dev sb v r l d u p -> lg_dev lg = dev -> lg_start lg = start -> head_ok start size (lg_lh lg) ->
  lg_committing lg = false ->
  (lg_outstanding lg = 1 -> (forall b, l b = initsleeplock) /\
     (forall b, r b = if decide (b ∈ homes (lg_lh lg)) then 1 else 0) /\
     u = Z.to_nat (lh_n (lg_lh lg)) /\ (u < NBUF)%nat) ->
  exists sb' lg', end_op (LState sb lg) = Ret tt (LState sb' lg') /\
    lg_outstanding lg' = lg_outstanding lg - 1 /\ lg_committing lg' = false /\
    (lg_outstanding lg = 1 /\ lh_n (lg_lh lg') = 0 /\ lh_block (lg_lh lg') = lh_block (lg_lh lg) /\
       bst dev sb' (if 0 <? lh_n (lg_lh lg) then vwrites v (commit_writes start (lg_lh lg) v) else v)
         (fun _ => 0) l (if 0 <? lh_n (lg_lh lg) then writes d (commit_writes start (lg_lh lg) v) else d) 0 p \/
     lg_outstanding lg <> 1 /\ lg_lh lg' = lg_lh lg /\ sb' = sb).
Proof.
  intros St Hd Hs Hh Hc Hlast. unfold end_op. rewrite getlog_ret, setlog_ret. cbn [set_outstanding lg_committing lg_outstanding].
  rewrite Hc. destruct (lg_outstanding lg - 1 =? 0) eqn:E.
  - apply Z.eqb_eq in E. destruct Hlast as (Hl & Hr & Hu & Hu30); [lia|]. rewrite setlog_ret.
    set (lg1 := set_committing true (set_outstanding (lg_outstanding lg - 1) lg)).
    pose proof (ho_n _ _ _ Hh) as Hn.
    destruct (0 <? lh_n (lg_lh lg)) eqn:En.
    + apply Z.ltb_lt in En.
      destruct (commit_ok dev start size Hly sb lg1 v r l d u p) as (s1 & H1 & St1); try done.
      rewrite (kbind_ret _ _ _ _ _ H1), getlog_ret.
      eexists s1, _. split; [reflexivity|]. cbn. split; [done|]. split; [done|]. left. split; [lia|]. done.
    + apply Z.ltb_ge in En. assert (lh_n (lg_lh lg) = 0) as Hn0 by lia.
      assert (commit (LState sb lg1) = Ret tt (LState sb lg1)) as H1.
      { unfold commit. rewrite getlog_ret. cbn [lg1 set_committing set_outstanding lg_lh]. by rewrite Hn0. }
      rewrite (kbind_ret _ _ _ _ _ H1), getlog_ret.
      eexists sb, _. split; [reflexivity|]. cbn. split; [done|]. split; [done|]. left. split; [lia|].
      split; [done|]. split; [done|].
      eapply bst_conv; [exact St|done| |done|done|].
      * intros b. rewrite Hr. unfold homes. rewrite Hn0. by rewrite decide_False by (apply not_elem_of_nil).
      * rewrite Hu, Hn0. done.
  - apply Z.eqb_neq in E. exists sb, (set_outstanding (lg_outstanding lg - 1) lg).
    split; [done|]. split; [done|]. split; [done|]. right. split; [lia|done].
Qed.

End ops.
