(* ===== verification/LogReserve.v ===== *)
(** * Reservation of log space

    [begin_op] admits an operation only if the log can hold MAXOPBLOCKS
    blocks for it and for every operation in progress.  A block an operation
    writes more than once is absorbed: it takes its place in the log once.  If
    operations keep to their share of different blocks, [log_write] of a new
    block never finds the log full, provided that the log on disk has one
    block more than LOGSIZE for its header; with the log of LOGSIZE blocks that
    mkfs makes, it can. *)

From S2P Require Import Prelude Bytes Sleeplock Bio BioSpec Log LogSpec LogCommit LogRecover LogOps.

(** The block number of buffer [i], as the log records it. *)
Definition blkno (s : lstate) (i : nat) : Z := int32 (b_blockno (getb (ls_bio s) i)).

(** The different blocks an operation has written, after writing [b]. *)
Definition writes (b : Z) (D : list Z) : list Z := if decide (b ∈ D) then D else b :: D.

(** The kernel's log and, for each operation in progress, the blocks it has
    written, at most MAXOPBLOCKS.  Between the calls of log.c anything may
    happen to the buffer cache. *)
Inductive lstep : lstate * list (list Z) -> lstate * list (list Z) -> Prop :=
| l_begin s s' O : begin_op s = Ret tt s' -> lstep (s, O) (s', [] :: O)
| l_write s s' O1 D O2 i : (length (writes (blkno s i) D) <= Z.to_nat MAXOPBLOCKS)%nat -> log_write i s = Ret tt s' ->
    lstep (s, O1 ++ D :: O2) (s', O1 ++ writes (blkno s i) D :: O2)
| l_end s s' O1 D O2 : end_op s = Ret tt s' -> lstep (s, O1 ++ D :: O2) (s', O1 ++ O2)
| l_other s s' O : ls_log s' = ls_log s -> lstep (s, O) (s', O).

Definition lreach (s : lstate) (c : lstate * list (list Z)) : Prop := rtc lstep (s, []) c.

(** What an operation may still write. *)
Definition share (D : list Z) : nat := Z.to_nat MAXOPBLOCKS - length D.

(** What is in the log and what may still be written fits, and what has been
    written is in the log. *)
Record reserved (size : Z) (c : lstate * list (list Z)) : Prop := {
  rv_n : 0 <= lh_n (lg_lh (ls_log (fst c)));
  rv_block : Z.of_nat (length (lh_block (lg_lh (ls_log (fst c))))) = LOGSIZE;
  rv_fit : lh_n (lg_lh (ls_log (fst c))) + Z.of_nat (sum_list_with share (snd c)) <= LOGSIZE;
  rv_out : lg_outstanding (ls_log (fst c)) = Z.of_nat (length (snd c));
  rv_max : Forall (fun D => (length D <= Z.to_nat MAXOPBLOCKS)%nat) (snd c);
  rv_in : Forall (fun D => D ⊆ homes (lg_lh (ls_log (fst c)))) (snd c);
  rv_com : lg_committing (ls_log (fst c)) = false;
  rv_size : lg_size (ls_log (fst c)) = size
}.

Lemma share_le O : (sum_list_with share O <= length O * 10)%nat.
Proof. induction O as [|D O IH]; [cbn; lia|]. cbn [sum_list_with length]. unfold share at 1. change (Z.to_nat MAXOPBLOCKS) with 10%nat. lia. Qed.

Lemma share_mid O1 D O2 : sum_list_with share (O1 ++ D :: O2) = (share D + sum_list_with share (O1 ++ O2))%nat.
Proof. induction O1; simpl; lia. Qed.

(** Operations of the buffer cache leave the log alone. *)
Definition keeps_log {A} (c : K lstate A) : Prop := forall s a s', c s = Ret a s' -> ls_log s' = ls_log s.

Lemma keeps_bind {A B} (c : K lstate A) (f : A -> K lstate B) :
  keeps_log c -> (forall a, keeps_log (f a)) -> keeps_log (kbind c f).
Proof. intros Hc Hf s b s' (a & s1 & H1 & H2)%kbind_inv. by rewrite (Hf _ _ _ _ H2), (Hc _ _ _ H1). Qed.

Lemma keeps_liftB {A} (c : K bstate A) : keeps_log (liftB c).
Proof. intros s a s'. unfold liftB. by destruct (c (ls_bio s)); intros [= <- <-]. Qed.

Lemma keeps_ret {A} (a : A) : keeps_log (kret a).
Proof. by intros s ? s' [= <- <-]. Qed.

Lemma keeps_getlog : keeps_log getlog.
Proof. by intros s ? s' [= <- <-]. Qed.

Lemma keeps_kfor body : (forall i, keeps_log (body i)) -> forall n i, keeps_log (kfor n i body).
Proof. intros Hb n. induction n; intros i; cbn [kfor]; [apply keeps_ret|]. apply keeps_bind; [apply Hb|intros; apply IHn]. Qed.

Create HintDb keeps.
#[local] Hint Resolve keeps_liftB keeps_ret keeps_getlog : keeps.

Ltac keeps_tac := repeat first
  [ solve [auto with keeps nocore] | apply keeps_bind; [|intros] | apply keeps_kfor; intros | case_match ].

Lemma keeps_write_log : keeps_log write_log.
Proof. unfold write_log. keeps_tac. Qed.
Lemma keeps_write_head : keeps_log write_head.
Proof. unfold write_head. keeps_tac. Qed.
Lemma keeps_install_trans r : keeps_log (install_trans r).
Proof. unfold install_trans. keeps_tac. Qed.

(** A commit that returns leaves the log empty and otherwise unchanged. *)
Lemma commit_log s s' : 0 <= lh_n (lg_lh (ls_log s)) -> commit s = Ret tt s' ->
  exists h, ls_log s' = set_lh h (ls_log s) /\ lh_n h = 0 /\ lh_block h = lh_block (lg_lh (ls_log s)).
Proof.
  intros Hn. unfold commit. intros H. apply kbind_inv in H as (l & s1 & [= <- <-] & H).
  destruct (0 <? lh_n (lg_lh (ls_log s))) eqn:E.
  - apply kbind_inv in H as ([] & s1 & H1 & H). apply kbind_inv in H as ([] & s2 & H2 & H).
    apply kbind_inv in H as ([] & s3 & H3 & H). apply kbind_inv in H as ([] & s4 & H4 & H).
    apply keeps_write_log in H1. apply keeps_write_head in H2, H. apply keeps_install_trans in H3.
    apply kbind_inv in H4 as (l4 & s5 & [= <- <-] & [= <-]).
    exists (LogHeader 0 (lh_block (lg_lh (ls_log s)))). split; [|done]. rewrite H. cbn [ls_log]. by rewrite H3, H2, H1.
  - injection H as <-. exists (lg_lh (ls_log s)). split; [by destruct (ls_log s)|]. split; [lia|done].
Qed.

Lemma begin_reserved size s s' O : reserved size (s, O) -> begin_op s = Ret tt s' -> reserved size (s', [] :: O).
Proof.
  intros [R1 R2 R3 R4 R5 R6 R7 R8] H. cbn [fst snd] in *. unfold begin_op in H. apply kbind_inv in H as (l & s1 & [= <- <-] & H).
  rewrite R7 in H. destruct (LOGSIZE <? _) eqn:E; [done|]. injection H as <-. apply Z.ltb_ge in E. pose proof (share_le O).
  split; cbn [fst snd ls_log set_outstanding lg_lh lg_outstanding lg_committing lg_size sum_list_with length]; try done.
  - change (share []) with 10%nat. rewrite R4 in E. unfold MAXOPBLOCKS in E. lia.
  - rewrite R4. lia.
  - constructor; [cbn; lia|done].
  - constructor; [set_solver|done].
Qed.

(** What [log_write] does to the header: a block that is there is absorbed. *)
Lemma log_write_homes i s s' : let h := lg_lh (ls_log s) in let b := blkno s i in
  0 <= lh_n h < Z.of_nat (length (lh_block h)) -> log_write i s = Ret tt s' ->
  exists h', ls_log s' = set_lh h' (ls_log s) /\ length (lh_block h') = length (lh_block h) /\
    ((b ∈ homes h) /\ lh_n h' = lh_n h /\ homes h' = homes h \/ (b ∉ homes h) /\ lh_n h' = lh_n h + 1 /\ homes h' = homes h ++ [b]).
Proof.
  intros h b Hn H. unfold log_write in H. apply kbind_inv in H as (l & s1 & [= <- <-] & H). fold h in H.
  destruct (_ || _); [done|]. destruct (lg_outstanding _ <? 1); [done|].
  apply kbind_inv in H as (x & s1 & [= <- <-] & H). fold (blkno s i) in H. fold b in H.
  destruct (find_block_spec h b (Z.to_nat (lh_n h)) 0 ltac:(lia)) as (Hk1 & Hk2 & Hk3). cbv zeta in H.
  set (k := find_block _ _ _ _) in *. rewrite Z.add_0_l, Z2Nat.id in * by lia.
  assert (forall j, lhblock h j = home h (Z.to_nat j)) as Hlh by done. destruct (Z.eqb_spec k (lh_n h)) as [E|E].
  - apply kbind_inv in H as ([] & s2 & _ & [= <-]). eexists. split; [done|]. cbn [lh_block]. split; [by rewrite length_insert|]. right.
    rewrite E. split; [|split; [done|by apply homes_app]].
    intros (j & -> & Hj)%list_elem_of_fmap. apply elem_of_seq in Hj. apply (Hk2 (Z.of_nat j)); [lia|]. by rewrite Hlh, Nat2Z.id.
  - injection H as <-. eexists. split; [done|]. cbn [lh_block]. split; [by rewrite length_insert|]. left.
    specialize (Hk3 ltac:(lia)). rewrite Hlh in Hk3. split.
    + apply list_elem_of_fmap. exists (Z.to_nat k). split; [done|]. apply elem_of_seq. lia.
    + split; [done|]. unfold homes. cbn [lh_n]. apply map_ext_in. intros j _. unfold home. cbn [lh_block].
      rewrite !nth_lookup. destruct (decide (j = Z.to_nat k)) as [->|Hne]; [|by rewrite list_lookup_insert_ne].
      rewrite list_lookup_insert_eq by lia. unfold home in Hk3. by rewrite nth_lookup in Hk3.
Qed.

Lemma write_reserved size s s' O1 D O2 i : reserved size (s, O1 ++ D :: O2) ->
  (length (writes (blkno s i) D) <= Z.to_nat MAXOPBLOCKS)%nat -> log_write i s = Ret tt s' ->
  reserved size (s', O1 ++ writes (blkno s i) D :: O2).
Proof.
  intros [R1 R2 R3 R4 R5 R6 R7 R8] Hw H. cbn [fst snd] in *.
  assert (lh_n (lg_lh (ls_log s)) < LOGSIZE) as Hlt.
  { unfold log_write in H. apply kbind_inv in H as (l & s1 & [= <- <-] & H). destruct (LOGSIZE <=? _) eqn:E; [done|]. by apply Z.leb_gt in E. }
  destruct (log_write_homes i s s' ltac:(lia) H) as (h & Hs' & Hl & Hc). cbn zeta in Hc.
  rewrite share_mid in R3. apply Forall_app in R5 as [R5 R5']. apply Forall_cons in R5' as [R5' R5'']. apply Forall_app in R6 as [R6 R6']. apply Forall_cons in R6' as [R6' R6''].
  assert (homes (lg_lh (ls_log s)) ⊆ homes h) as Hsub by (destruct Hc as [(_ & _ & ->)|(_ & _ & ->)]; set_solver).
  assert (blkno s i ∈ homes h) as Hin by (destruct Hc as [(? & _ & ->)|(_ & _ & ->)]; set_solver).
  assert (lh_n h + Z.of_nat (share (writes (blkno s i) D)) <= lh_n (lg_lh (ls_log s)) + Z.of_nat (share D) /\ 0 <= lh_n h) as [Hfit Hn].
  { unfold writes, share in *. case_decide as E; cbn [length] in *; [|lia]. destruct Hc as [(_ & -> & _)|(Hno & _)]; [lia|]. by apply R6' in E. }
  split; cbn [fst snd]; rewrite ?Hs'; cbn [set_lh lg_lh lg_outstanding lg_committing lg_size]; try done.
  - by rewrite Hl.
  - rewrite share_mid. lia.
  - rewrite R4, !length_app. done.
  - apply Forall_app. split; [done|]. by constructor.
  - assert (forall D', D' ⊆ homes (lg_lh (ls_log s)) -> D' ⊆ homes h) as Hm by set_solver.
    apply Forall_app. split; [by eapply Forall_impl|]. constructor; [|by eapply Forall_impl].
    unfold writes. case_decide; set_solver.
Qed.

Lemma end_reserved size s s' O1 D O2 : reserved size (s, O1 ++ D :: O2) -> end_op s = Ret tt s' -> reserved size (s', O1 ++ O2).
Proof.
  intros [R1 R2 R3 R4 R5 R6 R7 R8] H. cbn [fst snd] in *. unfold end_op in H. apply kbind_inv in H as (l & s1 & [= <- <-] & H).
  apply kbind_inv in H as ([] & s1 & [= <-] & H). cbn [set_outstanding lg_committing lg_outstanding] in H. rewrite R7 in H.
  rewrite share_mid in R3. apply Forall_app in R5 as [R5 R5']. apply Forall_cons in R5' as [_ R5'']. apply Forall_app in R6 as [R6 R6']. apply Forall_cons in R6' as [_ R6''].
  rewrite length_app in R4. simpl in R4.
  destruct (lg_outstanding _ - 1 =? 0) eqn:E.
  - apply kbind_inv in H as ([] & s1 & [= <-] & H). apply kbind_inv in H as ([] & s2 & H2 & H).
    apply kbind_inv in H as (l & s3 & [= <- <-] & [= <-]).
    apply commit_log in H2 as (h & Hl & Hh & Hb); [|exact R1].
    assert (O1 = [] /\ O2 = []) as [-> ->] by (destruct O1, O2; simpl in *; try done; lia).
    split; cbn [fst snd ls_log set_committing lg_lh lg_outstanding lg_committing lg_size]; rewrite ?Hl; simpl; try done; [lia|by rewrite Hb|rewrite Hh; unfold LOGSIZE, MAXOPBLOCKS; lia|lia].
  - injection H as <-. split; cbn [fst snd ls_log set_outstanding lg_lh lg_outstanding lg_committing lg_size]; try done; [lia| |by apply Forall_app|by apply Forall_app].
    rewrite R4, length_app. lia.
Qed.

Lemma reserved_step size c c' : lstep c c' -> reserved size c -> reserved size c'.
Proof.
  intros [s s' O H|s s' O1 D O2 i Hw H|s s' O1 D O2 H|s s' O H] R.
  - by eapply begin_reserved.
  - by eapply write_reserved.
  - by eapply end_reserved.
  - destruct R. split; cbn [fst snd] in *; by rewrite ?H.
Qed.

(** A log in which no operation is in progress. *)
Definition log_idle (size : Z) (s : lstate) : Prop :=
  lh_n (lg_lh (ls_log s)) = 0 /\ lg_outstanding (ls_log s) = 0 /\ lg_committing (ls_log s) = false /\
  lg_size (ls_log s) = size /\ Z.of_nat (length (lh_block (lg_lh (ls_log s)))) = LOGSIZE.

Lemma reach_reserved size s c : log_idle size s -> lreach s c -> reserved size c.
Proof.
  intros (H1 & H2 & H3 & H4 & H5) Hr. unfold lreach in Hr.
  assert (reserved size (s, [])) as R by (split; cbn [fst snd]; try done; simpl; unfold LOGSIZE, MAXOPBLOCKS; lia).
  revert R. induction Hr as [c|c c1 c2 Hst _ IH]; [done|]. intros R. by apply IH, reserved_step with c.
Qed.

(** Below the limits [log_write] returns. *)
Lemma log_write_ret i s : lh_n (lg_lh (ls_log s)) < LOGSIZE -> lh_n (lg_lh (ls_log s)) < lg_size (ls_log s) - 1 ->
  1 <= lg_outstanding (ls_log s) -> exists s', log_write i s = Ret tt s'.
Proof.
  intros H1 H2 H3. unfold log_write. unfold kbind at 1, getlog at 1. cbv zeta.
  replace (LOGSIZE <=? lh_n (lg_lh (ls_log s))) with false by lia.
  replace (lg_size (ls_log s) - 1 <=? lh_n (lg_lh (ls_log s))) with false by lia. cbn [orb].
  replace (lg_outstanding (ls_log s) <? 1) with false by lia.
  unfold kbind at 1, liftB at 1, bufget at 1. destruct (find_block _ _ _ _ =? _); [|by eexists].
  unfold kbind, liftB, bpin. by eexists.
Qed.

Lemma log_write_full i s : LOGSIZE <= lh_n (lg_lh (ls_log s)) \/ lg_size (ls_log s) - 1 <= lh_n (lg_lh (ls_log s)) ->
  log_write i s = Panic "too big a transaction".
Proof.
  intros H. unfold log_write, kbind, getlog.
  assert ((LOGSIZE <=? lh_n (lg_lh (ls_log s))) || (lg_size (ls_log s) - 1 <=? lh_n (lg_lh (ls_log s))) = true) as -> by lia. done.
Qed.

(** C14: Operations that keep to MAXOPBLOCKS different blocks do not overflow
    the log, in any interleaving of [begin_op], [log_write] and [end_op] from an
    idle log of more than LOGSIZE blocks.  A [log_write] of a block the
    operation has not written yet, within its MAXOPBLOCKS, returns and takes at
    most one place in the log.  A [log_write] of a block it has written before
    is absorbed: it returns and takes no place.  The only exception is the log
    that is full to the last of its LOGSIZE places because every operation in
    progress has used its share: there [log_write] panics before it looks
    whether the block can be absorbed. *)
Theorem log_write_never_full size s0 s O1 D O2 i :
  LOGSIZE < size -> log_idle size s0 -> lreach s0 (s, O1 ++ D :: O2) ->
  let n := lh_n (lg_lh (ls_log s)) in
  if decide (blkno s i ∈ D) then
    (exists s', log_write i s = Ret tt s' /\ lh_n (lg_lh (ls_log s')) = n) \/
    n = LOGSIZE /\ Forall (fun D' => length D' = Z.to_nat MAXOPBLOCKS) (O1 ++ D :: O2) /\ log_write i s = Panic "too big a transaction"
  else (length D < Z.to_nat MAXOPBLOCKS)%nat ->
    exists s', log_write i s = Ret tt s' /\ n <= lh_n (lg_lh (ls_log s')) <= n + 1.
Proof.
  intros Hsz H0 Hr n. destruct (reach_reserved _ _ _ H0 Hr) as [R1 R2 R3 R4 R5 R6 R7 R8]. cbn [fst snd] in *. fold n in R1, R3.
  rewrite length_app in R4. simpl in R4.
  assert (n < LOGSIZE -> exists s', log_write i s = Ret tt s' /\ n <= lh_n (lg_lh (ls_log s')) <= n + 1 /\
    (blkno s i ∈ homes (lg_lh (ls_log s)) -> lh_n (lg_lh (ls_log s')) = n)) as Hret.
  { intros Hn. destruct (log_write_ret i s) as [s' E]; [done|fold n; lia|lia|]. exists s'. split; [done|].
    destruct (log_write_homes i s s' ltac:(fold n; lia) E) as (h & -> & _ & Hc). cbn [set_lh lg_lh]. fold n in Hc. destruct Hc as [(_ & -> & _)|(Hno & -> & _)].
    - split; [lia|done].
    - split; [lia|]. intros Hh. by destruct Hno. }
  case_decide as E.
  - apply Forall_app in R6 as [_ R6]. apply Forall_cons in R6 as [R6 _]. destruct (decide (n < LOGSIZE)) as [Hn|Hn].
    + left. destruct (Hret Hn) as (s' & E1 & _ & E2). exists s'. split; [done|]. apply E2. by apply R6.
    + right. assert (n = LOGSIZE) as Hn' by lia. split; [done|]. split; [|apply log_write_full; left; fold n; lia].
      assert (sum_list_with share (O1 ++ D :: O2) = 0%nat) as Hs by lia. revert Hs R5. generalize (O1 ++ D :: O2). intros O.
      induction O as [|D' O IH]; [done|]. cbn [sum_list_with]. intros Hs R5. apply Forall_cons in R5 as [R5 R5']. unfold share in Hs at 1.
      constructor; [cbn in Hs; lia|]. apply IH; [cbn in Hs |- *; lia|done].
  - intros HD. rewrite share_mid in R3. unfold share in R3 at 1. destruct (Hret ltac:(lia)) as (s' & E1 & E2 & _). by exists s'.
Qed.

(** ** Runs of operations *)

(** One block written by an operation that has written [D], and the blocks it
    has written then. *)
Definition op_write (b : Z) (D : list Z) : K lstate (list Z) :=
  i <- liftB (bread 1 b) ;; n <- (fun s => Ret (blkno s i) s) ;; log_write i ;;; liftB (brelse i) ;;; kret (writes n D).

Fixpoint op_writes (n : nat) (b : Z) (D : list Z) : K lstate (list Z) :=
  match n with
  | O => kret D
  | S n' => D' <- op_write b D ;; op_writes n' (b + 1) D'
  end.

Lemma writes_length b D : (length D <= length (writes b D))%nat.
Proof. unfold writes. case_decide; simpl; lia. Qed.

Lemma op_writes_reach B1 B2 n : forall b D D' s s', op_writes n b D s = Ret D' s' -> (length D' <= Z.to_nat MAXOPBLOCKS)%nat ->
  (length D <= length D')%nat /\ rtc lstep (s, B1 ++ D :: B2) (s', B1 ++ D' :: B2).
Proof.
  induction n as [|n IH]; intros b D D' s s' H Hl; [by injection H as <- <-|].
  apply kbind_inv in H as (D1 & s1 & H1 & H). unfold op_write in H1.
  apply kbind_inv in H1 as (i & s2 & H2 & H1). apply kbind_inv in H1 as (m & s2' & [= <- <-] & H1). apply kbind_inv in H1 as ([] & s3 & H3 & H1).
  apply kbind_inv in H1 as ([] & s4 & H4 & [= <- <-]). apply keeps_liftB in H2. apply keeps_liftB in H4.
  destruct (IH _ _ _ _ _ H Hl) as [Hl1 Hr]. pose proof (writes_length (blkno s2 i) D). split; [lia|].
  eapply rtc_l; [by apply l_other, H2|]. eapply rtc_l; [eapply l_write, H3; lia|].
  eapply rtc_l; [by apply l_other, H4|]. exact Hr.
Qed.

(** An idle log of [size] blocks at block 2, on an empty disk. *)
Definition idle_log (size : Z) : lstate :=
  LState (binit (Disk ∅ []) 1) (Log 2 size 0 false 1 (LogHeader 0 (replicate (Z.to_nat LOGSIZE) 0))).

(** Three operations that write 10, 10 and [n] different blocks, from blocks
    40, 50 and 60 on, and then read block [b]. *)
Definition busy_ops (n : nat) (b : Z) : K lstate (nat * list (list Z)) :=
  begin_op ;;; begin_op ;;; begin_op ;;;
  D1 <- op_writes 10 40 [] ;; D2 <- op_writes 10 50 [] ;; D3 <- op_writes n 60 [] ;;
  i <- liftB (bread 1 b) ;; kret (i, [D3; D2; D1]).

Lemma busy_ops_reach n b s0 i O s : busy_ops n b s0 = Ret (i, O) s ->
  Forall (fun D => (length D <= Z.to_nat MAXOPBLOCKS)%nat) O -> lreach s0 (s, O).
Proof.
  intros E HO. unfold busy_ops in E. apply kbind_inv in E as ([] & s1 & H1 & E). apply kbind_inv in E as ([] & s2 & H2 & E).
  apply kbind_inv in E as ([] & s3 & H3 & E). apply kbind_inv in E as (D1 & s4 & H4 & E).
  apply kbind_inv in E as (D2 & s5 & H5 & E). apply kbind_inv in E as (D3 & s6 & H6 & E).
  apply kbind_inv in E as (j & s7 & E & [= <- <- <-]). apply keeps_liftB in E. decompose_Forall_hyps.
  eapply rtc_l; [apply l_begin, H1|]. eapply rtc_l; [apply l_begin, H2|]. eapply rtc_l; [apply l_begin, H3|].
  etransitivity; [eapply (op_writes_reach [[]; []] [] 10 _ _ _ _ _ H4); done|].
  etransitivity; [eapply (op_writes_reach [[]] [D1] 10 _ _ _ _ _ H5); done|].
  etransitivity; [eapply (op_writes_reach [] [D2; D1] n _ _ _ _ _ H6); done|].
  eapply rtc_l; [by apply l_other, E|apply rtc_refl].
Qed.

(** How a run ended: the size of the log, the number of blocks in it, the block
    that was read last and the blocks that were written. *)
Definition log_fill (r : outcome lstate (nat * list (list Z))) : option (Z * Z * Z * list (list Z)) :=
  match r with Ret (i, Ds) s => Some (lg_size (ls_log s), lh_n (lg_lh (ls_log s)), blkno s i, Ds) | _ => None end.

(** The blocks [b], ..., [b + n - 1], the last one first. *)
Definition blocks (b n : Z) : list Z := reverse (seqZ b n).

Lemma busy_ops_fill : log_fill (busy_ops 9 69 (idle_log LOGSIZE)) = Some (30, 29, 69, [blocks 60 9; blocks 50 10; blocks 40 10]).
Proof. vm_compute. reflexivity. Qed.

Lemma busy_ops_full : log_fill (busy_ops 10 60 (idle_log 31)) = Some (31, 30, 60, [blocks 60 10; blocks 50 10; blocks 40 10]).
Proof. vm_compute. reflexivity. Qed.

Lemma busy_run n b s0 size k x O : log_fill (busy_ops n b s0) = Some (size, k, x, O) ->
  Forall (fun D => (length D <= Z.to_nat MAXOPBLOCKS)%nat) O ->
  exists s i, lreach s0 (s, O) /\ lg_size (ls_log s) = size /\ lh_n (lg_lh (ls_log s)) = k /\ blkno s i = x.
Proof.
  intros H HO. destruct (busy_ops n b s0) as [[i O'] s| | |] eqn:E; [|discriminate H..]. injection H as H1 H2 H3 ->.
  exists s, i. split; [by eapply busy_ops_reach|done].
Qed.

(** The exception occurs: three operations that have used their shares, of which
    the third writes one of its blocks again. *)
Lemma absorbed_write_panics : exists s i,
  lreach (idle_log 31) (s, [blocks 60 10; blocks 50 10; blocks 40 10]) /\ (blkno s i ∈ blocks 60 10) /\
  log_write i s = Panic "too big a transaction".
Proof.
  destruct (busy_run _ _ _ _ _ _ _ busy_ops_full) as (s & i & Hr & _ & Hn & Hb); [repeat constructor|].
  exists s, i. split; [done|]. rewrite Hb. split; [by apply (bool_decide_unpack _); vm_compute|]. apply log_write_full. left. by rewrite Hn.
Qed.

Lemma log_write_never_full_witness :
  (exists s s' : lstate, begin_op (idle_log 31) = Ret tt s /\ log_write 0 s = Ret tt s') /\
  (exists s s' i, lreach (idle_log 31) (s, [blocks 60 9; blocks 50 10; blocks 40 10]) /\ blkno s i = 60 /\ log_write i s = Ret tt s').
Proof.
  split.
  - assert (exists s, begin_op (idle_log 31) = Ret tt s) as [s Hs] by by eexists.
    pose proof (log_write_never_full 31 (idle_log 31) s [] [] [] 0 ltac:(reflexivity) ltac:(repeat split) ltac:(eapply rtc_l; [by apply l_begin|apply rtc_refl])) as Hw.
    cbv zeta in Hw. rewrite decide_False in Hw by apply not_elem_of_nil.
    destruct Hw as (s' & Hw & _); [apply (bool_decide_unpack _); vm_compute; exact I|]. exists s, s'. split; [exact Hs|exact Hw].
  - assert (log_fill (busy_ops 9 60 (idle_log 31)) = Some (31, 29, 60, [blocks 60 9; blocks 50 10; blocks 40 10])) as H by (vm_compute; reflexivity).
    destruct (busy_run _ _ _ _ _ _ _ H) as (s & i & Hr & _ & Hn & Hb); [repeat constructor|].
    pose proof (log_write_never_full 31 (idle_log 31) s [] (blocks 60 9) [blocks 50 10; blocks 40 10] i ltac:(reflexivity) ltac:(repeat split) Hr) as Hw.
    cbv zeta in Hw. rewrite decide_True in Hw by (rewrite Hb; apply (bool_decide_unpack _); vm_compute; exact I).
    destruct Hw as [(s' & Hw & _)|(Hw & _)]; [exists s, s', i; auto|rewrite Hn in Hw; discriminate Hw].
Defined.

(** C38: With a log of LOGSIZE blocks, which is what mkfs writes to the
    superblock, the kernel panics although every operation keeps to its
    MAXOPBLOCKS blocks: three operations that [begin_op] admitted write 10, 10
    and 9 different blocks, and the next [log_write], of the tenth block of the
    third operation, panics. *)
Theorem log_write_panics_at_logsize :
  log_idle LOGSIZE (idle_log LOGSIZE) /\
  exists s i, lreach (idle_log LOGSIZE) (s, [blocks 60 9; blocks 50 10; blocks 40 10]) /\ blkno s i = 69 /\
    log_write i s = Panic "too big a transaction".
Proof.
  split; [repeat split|]. destruct (busy_run _ _ _ _ _ _ _ busy_ops_fill) as (s & i & Hr & Hs & Hn & Hb); [repeat constructor|].
  exists s, i. split; [done|]. split; [done|]. apply log_write_full. right. rewrite Hs, Hn. lia.
Qed.
