(* ===== verification/Crash.v ===== *)
(** * Crash safety of the log

    [commit] and [initlog] together: the file system transaction being
    committed survives a crash either completely or not at all, wherever in
    the sequence of device writes the crash happens, and recovery may itself
    be interrupted any number of times. *)

From S2P Require Import Prelude Bytes Sleeplock Bio BioSpec Log LogSpec LogCommit LogRecover LogOps.

(** The state in which [end_op] calls [commit]: no buffer is locked, the
    blocks of the transaction, and only those, are pinned in the cache, and
    the header on disk says that the log is empty. *)
Record committable (dev start size : Z) (sb : bstate) (lg : log) (v : Z -> block) (d : disk) : Prop := {
  cm_bio : exists r l p, bst dev sb v r l d (Z.to_nat (lh_n (lg_lh lg))) p /\ (forall b, l b = initsleeplock) /\
    (forall b, r b = if decide (b ∈ homes (lg_lh lg)) then 1 else 0);
  cm_dev : lg_dev lg = dev;
  cm_start : lg_start lg = start;
  cm_head : head_ok start size (lg_lh lg);
  cm_some : 0 < lh_n (lg_lh lg) < Z.of_nat NBUF;
  cm_block : length (disk_block d start) = Z.to_nat BSIZE;
  cm_empty : head_n (disk_block d start) = 0
}.

(** Outside of the transaction the cache agrees with the disk. *)
Lemma committable_clean dev start size sb lg v d b :
  committable dev start size sb lg v d -> b ∉ homes (lg_lh lg) -> v b = disk_block d b.
Proof.
  intros [(r & l & p & St & Hl & Hr) _ _ _ _ _ _] Hb. rewrite <- (st_view _ _ _ _ _ _ _ _ St), <- (st_disk _ _ _ _ _ _ _ _ St).
  apply view_idle with (dev := dev); [apply St|]. rewrite (st_refs _ _ _ _ _ _ _ _ St), Hr. by rewrite decide_False.
Qed.

Lemma start_not_home start size h : layout start size -> head_ok start size h -> start ∉ homes h.
Proof.
  intros [L1 L2 L3] Hh Hin. apply list_elem_of_fmap in Hin as (i & He & Hi). apply elem_of_seq in Hi.
  destruct (ho_range _ _ h Hh i) as [_ Hno]; [lia|]. apply Hno. rewrite <- He. unfold in_log. lia.
Qed.

(** Booting from a device whose log header is well formed. *)
Lemma boot_recovers dev start size d pid lg :
  layout start size -> dev <> 0 -> length (lh_block (lg_lh lg)) = Z.to_nat LOGSIZE ->
  head_ok start size (dhead (disk_block d start)) ->
  exists s, initlog dev start size (LState (binit d pid) lg) = Ret tt s /\
    forall b, disk_block (bc_disk (ls_bio s)) b = recovered start (disk_block d) b.
Proof.
  intros Hly Hdev Hlen Hh. destruct (initlog_ok dev start size Hly Hdev d pid lg Hlen Hh) as (s & H1 & St & _).
  exists s. split; [done|]. intros b. rewrite (st_disk _ _ _ _ _ _ _ _ St). apply disk_block_writes.
Qed.

Lemma recovered_ext start v v' b : (forall b, v b = v' b) -> recovered start v b = recovered start v' b.
Proof.
  intros Hv. unfold recovered, recovery_writes, home_writes. rewrite !Hv.
  replace (map (fun i => (home (dhead (v' start)) i, v (slotno start i))) (seq 0 (Z.to_nat (head_n (v' start)))))
    with (map (fun i => (home (dhead (v' start)) i, v' (slotno start i))) (seq 0 (Z.to_nat (head_n (v' start)))))
    by (apply map_ext; intros; by rewrite Hv).
  by apply vwrites_ext.
Qed.

(** C1: A commit is atomic across crashes.  [commit] returns having issued a
    sequence of device writes; if the machine stops after any number [k] of
    them and boots again, recovery returns, and every block outside the log
    then holds its old contents if the crash came before the write of the
    header block, and its new contents, as the transaction left them in the
    cache, if it came after it. *)
Theorem commit_crash_atomic dev start size sb lg v d :
  layout start size -> dev <> 0 -> committable dev start size sb lg v d ->
  exists s' W, commit (LState sb lg) = Ret tt s' /\ bc_disk (ls_bio s') = writes d W /\
    forall k pid lg0, length (lh_block (lg_lh lg0)) = Z.to_nat LOGSIZE ->
      exists s2, initlog dev start size (LState (binit (writes d (take k W)) pid) lg0) = Ret tt s2 /\
        forall b, ~ in_log start size b ->
          disk_block (bc_disk (ls_bio s2)) b =
            if decide (k <= Z.to_nat (lh_n (lg_lh lg)))%nat then disk_block d b else v b.
Proof.
  intros Hly Hdev C. pose proof C as [(r & l & p & St & Hl & Hr) Hd Hs Hh Hn Hlen Hempty].
  destruct (commit_ok dev start size Hly sb lg v r l d _ p St Hd Hs Hh) as (sb' & H1 & St'); try done; try lia.
  eexists _, (commit_writes start (lg_lh lg) v). split; [exact H1|]. split; [apply St'|].
  intros k pid lg0 Hlen0. set (W := commit_writes start (lg_lh lg) v).
  assert (v start = disk_block d start) as Hv0 by (eapply committable_clean; [done|]; by apply (start_not_home start size)).
  assert (forall b, b ∉ homes (lg_lh lg) -> v b = disk_block d b) as Hcl by (intros; by eapply committable_clean).
  assert (forall b, ~ in_log start size b ->
    head_ok start size (dhead (vwrites (disk_block d) (take k W) start)) /\
    recovered start (vwrites (disk_block d) (take k W)) b =
      if decide (k <= Z.to_nat (lh_n (lg_lh lg)))%nat then disk_block d b else v b) as Hrec.
  { intros b Hb. case_decide.
    - by apply (crash_before start size Hly (lg_lh lg) v (disk_block d)).
    - apply (crash_after start size Hly (lg_lh lg) v (disk_block d)); try done. lia. }
  assert (exists b, ~ in_log start size b) as [b0 Hb0] by (exists (start - 1); unfold in_log; lia).
  destruct (boot_recovers dev start size (writes d (take k W)) pid lg0) as (s2 & H2 & Hb2); try done.
  { rewrite disk_block_writes. by apply (Hrec b0). }
  exists s2. split; [done|]. intros b Hb. rewrite Hb2. rewrite <- (proj2 (Hrec b Hb)).
  apply recovered_ext. intros b'. apply disk_block_writes.
Qed.

(** ** A transaction *)

(** The program that writes [x] to block [b] inside a transaction. *)
Definition write_block (dev b : Z) (x : block) : K lstate unit :=
  begin_op ;;;
  i <- liftB (bread dev b) ;;
  liftB (bufmod i (set_data x)) ;;;
  log_write i ;;;
  liftB (brelse i).

(** A freshly booted log on device 1, at blocks 2 to 31. *)
Definition log0 : log := Log 2 30 0 false 1 (LogHeader 0 (replicate (Z.to_nat LOGSIZE) 0)).
Definition disk0 : disk := Disk ∅ [].
Definition ones : block := replicate (Z.to_nat BSIZE) 1.

Lemma layout0 : layout 2 30.
Proof. by split. Qed.

Lemma head0_ok : head_ok 2 30 (LogHeader 0 (replicate (Z.to_nat LOGSIZE) 0)).
Proof. split; cbn [lh_n lh_block]; [done|done|lia|constructor]. Qed.

(** Writing block 40 leaves it pinned, to be committed by [end_op]. *)
Lemma write_block0 : exists sb lg,
  write_block 1 40 ones (LState (binit disk0 1) log0) = Ret tt (LState sb lg) /\
  committable 1 2 30 sb lg (fupd (disk_block disk0) 40 ones) disk0.
Proof.
  destruct (binit_ok 1 disk0 1 ltac:(lia)) as (B1 & B2 & B3 & B4 & B5).
  assert (bst 1 (binit disk0 1) (disk_block disk0) (fun _ => 0) (fun _ => initsleeplock) disk0 0 1) as St by by split.
  destruct (bread_st 1 _ _ _ _ _ _ _ 40 St) as (i & s1 & H1 & Hs1 & St1 & K1); [done|lia|intros _; unfold NBUF; apply Nat.ltb_lt; reflexivity|].
  destruct (setdata_st 1 s1 _ _ _ _ _ _ 40 i ones St1 Hs1) as (s2 & H2 & St2 & K2); [fupd_solve|].
  pose proof (keeps_slot 1 _ _ _ _ _ _ _ _ 40 i K2 St1 Hs1 ltac:(fupd_solve)) as Hs2.
  destruct (log_write_ok 1 2 30 s2 (set_outstanding 1 log0) _ _ _ _ _ _ 40 i St2 Hs2)
    as (s3 & h & H3 & K3 & Hh & [[Hin _]|(_ & Hn & Hho & St3)]);
    try (fupd_solve; fail); try (unfold LOGSIZE; cbn; lia); try apply head0_ok; try done; [unfold in_log; cbn; lia|inversion Hin|].
  pose proof (keeps_slot 1 _ _ _ _ _ _ _ _ 40 i K3 St2 Hs2 ltac:(fupd_solve)) as Hs3.
  destruct (brelse_st 1 s3 _ _ _ _ _ _ 40 i St3 Hs3) as (s4 & H4 & St4 & _); [fupd_solve|fupd_solve|rewrite !fupd_same; lia|].
  exists s4, (set_lh h (set_outstanding 1 log0)). split.
  - unfold write_block. change (begin_op (LState (binit disk0 1) log0)) with (Ret tt (LState (binit disk0 1) (set_outstanding 1 log0))).
    rewrite (kbind_ret begin_op _ _ tt (LState (binit disk0 1) (set_outstanding 1 log0))) by done.
    lstep H1. lstep H2. rewrite (kbind_ret _ _ _ _ _ H3). by rewrite (liftB_ret _ _ _ _ _ H4).
  - split; try done; cbn [set_lh lg_lh].
    + eexists _, _, 1. split; [|split].
      * eapply bst_conv; [exact St4|done|reflexivity|reflexivity|done|]. rewrite Hn. unfold fupd. by repeat case_decide.
      * intros b. unfold fupd. by repeat case_decide.
      * intros b. rewrite Hho. change (homes (lg_lh (set_outstanding 1 log0)) ++ [40]) with [40].
        assert (b ∈ [40] <-> b = 40) as Hb by apply list_elem_of_singleton.
        unfold fupd. repeat case_decide; tauto || lia.
    + rewrite Hn. unfold NBUF. cbn. lia.
Qed.

Lemma commit_crash_atomic_witness : exists sb lg s' W,
  write_block 1 40 ones (LState (binit disk0 1) log0) = Ret tt (LState sb lg) /\
  commit (LState sb lg) = Ret tt s' /\ bc_disk (ls_bio s') = writes disk0 W /\
  forall k, exists s2, initlog 1 2 30 (LState (binit (writes disk0 (take k W)) 1) log0) = Ret tt s2 /\
    disk_block (bc_disk (ls_bio s2)) 40 = if decide (k <= Z.to_nat (lh_n (lg_lh lg)))%nat then zero_block else ones.
Proof.
  destruct write_block0 as (sb & lg & H1 & C). exists sb, lg.
  destruct (commit_crash_atomic 1 2 30 sb lg _ disk0 layout0 ltac:(lia) C) as (s' & W & H2 & H3 & Hk).
  exists s', W. repeat split; try done. intros k.
  destruct (Hk k 1 log0 eq_refl) as (s2 & H4 & Hb). exists s2. split; [done|].
  rewrite Hb by (unfold in_log; lia). by rewrite fupd_same.
Defined.

(** C13: Recovery can be interrupted.  If the machine stops after any number
    [k] of the writes of a recovery and boots again, the second recovery
    returns and leaves on every block outside the log what the first one
    would have left there. *)
Theorem recovery_restartable dev start size d pid lg k pid2 lg2 :
  layout start size -> dev <> 0 ->
  length (lh_block (lg_lh lg)) = Z.to_nat LOGSIZE -> length (lh_block (lg_lh lg2)) = Z.to_nat LOGSIZE ->
  head_ok start size (dhead (disk_block d start)) -> length (disk_block d start) = Z.to_nat BSIZE ->
  exists s W, initlog dev start size (LState (binit d pid) lg) = Ret tt s /\ bc_disk (ls_bio s) = writes d W /\
    exists s2, initlog dev start size (LState (binit (writes d (take k W)) pid2) lg2) = Ret tt s2 /\
      forall b, ~ in_log start size b -> disk_block (bc_disk (ls_bio s2)) b = disk_block (bc_disk (ls_bio s)) b.
Proof.
  intros Hly Hdev Hl Hl2 Hh Hlen.
  destruct (initlog_ok dev start size Hly Hdev d pid lg Hl Hh) as (s & H1 & St & _).
  set (W := recovery_writes start (disk_block d)) in *. exists s, W. split; [done|]. split; [apply St|].
  assert (forall b, ~ in_log start size b ->
    head_ok start size (dhead (disk_block (writes d (take k W)) start)) /\
    recovered start (disk_block (writes d (take k W))) b = recovered start (disk_block d) b) as Hrec.
  { intros b Hb. rewrite disk_block_writes.
    destruct (recovered_again start size Hly (disk_block d) k b) as [Hok Hr]; try done. split; [done|].
    rewrite <- Hr. apply recovered_ext. intros b'. apply disk_block_writes. }
  destruct (boot_recovers dev start size (writes d (take k W)) pid2 lg2) as (s2 & H2 & Hb2); try done.
  { apply (Hrec (start - 1)). unfold in_log. lia. }
  exists s2. split; [done|]. intros b Hb. rewrite Hb2, (proj2 (Hrec b Hb)).
  rewrite (st_disk _ _ _ _ _ _ _ _ St), disk_block_writes. done.
Qed.

(** A device whose log holds one committed block, for block 40. *)
Definition disk1 : disk :=
  Disk (<[2 := put32 (put32 zero_block 0 1) 4 40]> (<[3 := ones]> ∅)) [].

Lemma dhead1 : dhead (disk_block disk1 2) = LogHeader 1 (<[0%nat := 40]> (replicate (Z.to_nat LOGSIZE) 0)).
Proof. vm_compute. reflexivity. Qed.

Lemma disk1_ok : head_ok 2 30 (dhead (disk_block disk1 2)) /\ length (disk_block disk1 2) = Z.to_nat BSIZE.
Proof.
  split; [|vm_compute; reflexivity]. rewrite dhead1. split; cbn [lh_n lh_block]; [done|done| |].
  - intros [|i] Hi; [|simpl in Hi; lia]. split; [done|]. unfold in_log, home. simpl. lia.
  - apply NoDup_singleton.
Qed.

Lemma recovery_restartable_witness : exists s2 s W,
  initlog 1 2 30 (LState (binit disk1 1) log0) = Ret tt s /\ bc_disk (ls_bio s) = writes disk1 W /\
  initlog 1 2 30 (LState (binit (writes disk1 (take 1 W)) 1) log0) = Ret tt s2 /\
  disk_block (bc_disk (ls_bio s2)) 40 = disk_block (bc_disk (ls_bio s)) 40.
Proof.
  destruct disk1_ok as [Hh Hlen].
  destruct (recovery_restartable 1 2 30 disk1 1 log0 1 1 log0 layout0 ltac:(lia) eq_refl eq_refl Hh Hlen)
    as (s & W & H1 & H2 & s2 & H3 & Hb).
  exists s2, s, W. split; [exact H1|]. split; [exact H2|]. split; [exact H3|]. apply Hb. unfold in_log. lia.
Defined.
