(* ===== verification/Fs.v ===== *)
(** * The file system

    kernel/fs.c, bottom up: the free-block bitmap, the inode table, the
    contents of inodes, directories and path names, over the log of Log.v.
    Messages that the code prints on the console are left out. *)

From S2P Require Import Prelude Memory KString Kalloc Vm Bytes Sleeplock Bio Log.

(** ** The layout of kernel/fs.h *)

Definition FSMAGIC : Z := 0x10203040.
Definition ROOTDEV : Z := 1.
Definition ROOTINO : Z := 1.
Definition NDIRECT : Z := 12.
Definition NINDIRECT : Z := BSIZE / 4.
Definition MAXFILE : Z := NDIRECT + NINDIRECT.
Definition DIRSIZ : Z := 14.
Definition NINODE : nat := 50.
Definition T_DIR : Z := 1.
Definition T_FILE : Z := 2.
Definition T_DEVICE : Z := 3.

Record superblock := Superblock {
  sb_magic : Z;
  sb_size : Z;
  sb_nblocks : Z;
  sb_ninodes : Z;
  sb_nlog : Z;
  sb_logstart : Z;
  sb_inodestart : Z;
  sb_bmapstart : Z
}.

(** sizeof(struct dinode) *)
Definition DINODE : Z := 64.
Definition IPB : Z := BSIZE / DINODE.
Definition IBLOCK (i : Z) (sb : superblock) : Z := uint32 (i / IPB + sb_inodestart sb).
Definition BPB : Z := BSIZE * 8.
Definition BBLOCK (b : Z) (sb : superblock) : Z := uint32 (b / BPB + sb_bmapstart sb).

(** struct inode; the addresses are [NDIRECT+1] block numbers. *)
Record inode := Inode {
  i_dev : Z;
  i_inum : Z;
  i_ref : Z;
  i_lock : sleeplock;
  i_valid : bool;
  i_type : Z;
  i_major : Z;
  i_minor : Z;
  i_nlink : Z;
  i_size : Z;
  i_addrs : list Z
}.

Definition inode0 : inode :=
  Inode 0 0 0 initsleeplock false 0 0 0 0 0 (replicate (Z.to_nat (NDIRECT + 1)) 0).

(** The file system: log and cache, superblock, inode table, and of the
    running process its memory, page table and current directory. *)
Record fstate := FState {
  fs_ls : lstate;
  fs_sb : superblock;
  fs_itable : list inode;
  fs_mem : kmem;
  fs_pagetable : Z;
  fs_cwd : nat
}.

Definition liftL {A} (c : K lstate A) : K fstate A := fun s =>
  let k l := FState l (fs_sb s) (fs_itable s) (fs_mem s) (fs_pagetable s) (fs_cwd s) in
  match c (fs_ls s) with
  | Ret a l => Ret a (k l)
  | Panic msg => Panic msg
  | Sleep l => Sleep (k l)
  | Diverge => Diverge
  end.

Definition liftM {A} (c : K kmem A) : K fstate A := fun s =>
  let k m := FState (fs_ls s) (fs_sb s) (fs_itable s) m (fs_pagetable s) (fs_cwd s) in
  match c (fs_mem s) with
  | Ret a m => Ret a (k m)
  | Panic msg => Panic msg
  | Sleep m => Sleep (k m)
  | Diverge => Diverge
  end.

Definition getsb : K fstate superblock := fun s => Ret (fs_sb s) s.

Definition geti (s : fstate) (ip : nat) : inode := default inode0 (fs_itable s !! ip).
Definition inget (ip : nat) : K fstate inode := fun s => Ret (geti s ip) s.
Definition seti (s : fstate) (ip : nat) (x : inode) : fstate :=
  FState (fs_ls s) (fs_sb s) (<[ip := x]> (fs_itable s)) (fs_mem s) (fs_pagetable s) (fs_cwd s).
Definition inmod (ip : nat) (f : inode -> inode) : K fstate unit := fun s => Ret tt (seti s ip (f (geti s ip))).

Definition set_ref (n : Z) (x : inode) : inode :=
  Inode (i_dev x) (i_inum x) n (i_lock x) (i_valid x) (i_type x) (i_major x) (i_minor x)
    (i_nlink x) (i_size x) (i_addrs x).
Definition set_ilock (lk : sleeplock) (x : inode) : inode :=
  Inode (i_dev x) (i_inum x) (i_ref x) lk (i_valid x) (i_type x) (i_major x) (i_minor x)
    (i_nlink x) (i_size x) (i_addrs x).
Definition set_ivalid (v : bool) (x : inode) : inode :=
  Inode (i_dev x) (i_inum x) (i_ref x) (i_lock x) v (i_type x) (i_major x) (i_minor x)
    (i_nlink x) (i_size x) (i_addrs x).
Definition set_type (t : Z) (x : inode) : inode :=
  Inode (i_dev x) (i_inum x) (i_ref x) (i_lock x) (i_valid x) t (i_major x) (i_minor x)
    (i_nlink x) (i_size x) (i_addrs x).
Definition set_size (n : Z) (x : inode) : inode :=
  Inode (i_dev x) (i_inum x) (i_ref x) (i_lock x) (i_valid x) (i_type x) (i_major x) (i_minor x)
    (i_nlink x) n (i_addrs x).
Definition set_addr (i a : Z) (x : inode) : inode :=
  Inode (i_dev x) (i_inum x) (i_ref x) (i_lock x) (i_valid x) (i_type x) (i_major x) (i_minor x)
    (i_nlink x) (i_size x) (<[Z.to_nat i := a]> (i_addrs x)).
Definition set_nlink (n : Z) (x : inode) : inode :=
  Inode (i_dev x) (i_inum x) (i_ref x) (i_lock x) (i_valid x) (i_type x) (i_major x) (i_minor x)
    n (i_size x) (i_addrs x).
Definition set_devno (major minor : Z) (x : inode) : inode :=
  Inode (i_dev x) (i_inum x) (i_ref x) (i_lock x) (i_valid x) (i_type x) major minor
    (i_nlink x) (i_size x) (i_addrs x).

Definition iaddr (x : inode) (i : Z) : Z := nth (Z.to_nat i) (i_addrs x) 0.

(** An operation on the sleep lock of inode [ip], by the running process. *)
Definition inlock {A} (ip : nat) (op : Z -> K sleeplock A) : K fstate A := fun s =>
  match op (bc_pid (ls_bio (fs_ls s))) (i_lock (geti s ip)) with
  | Ret a lk => Ret a (seti s ip (set_ilock lk (geti s ip)))
  | Panic msg => Panic msg
  | Sleep lk => Sleep (seti s ip (set_ilock lk (geti s ip)))
  | Diverge => Diverge
  end.

(** Buffers, through the layers. *)
Definition fbread (dev b : Z) : K fstate nat := liftL (liftB (bread dev b)).
Definition fbrelse (bp : nat) : K fstate unit := liftL (liftB (brelse bp)).
Definition fbdata (bp : nat) : K fstate block := x <- liftL (liftB (bufget bp)) ;; kret (b_data x).
Definition fbset (bp : nat) (d : block) : K fstate unit := liftL (liftB (bufmod bp (set_data d))).
Definition flog_write (bp : nat) : K fstate unit := liftL (log_write bp).

(** ** The superblock *)

Definition sb_of (d : block) : superblock :=
  Superblock (get32 d 0) (get32 d 4) (get32 d 8) (get32 d 12) (get32 d 16) (get32 d 20) (get32 d 24) (get32 d 28).

Definition readsb (dev : Z) : K fstate unit :=
  bp <- fbread dev 1 ;;
  d <- fbdata bp ;;
  (fun s => Ret tt (FState (fs_ls s) (sb_of d) (fs_itable s) (fs_mem s) (fs_pagetable s) (fs_cwd s))) ;;;
  fbrelse bp.

Definition fsinit (dev : Z) : K fstate unit :=
  readsb dev ;;;
  sb <- getsb ;;
  if negb (sb_magic sb =? FSMAGIC) then panic "invalid file system"
  else liftL (initlog dev (int32 (sb_logstart sb)) (int32 (sb_nlog sb))).

(** ** Blocks *)

Definition bzero (dev bno : Z) : K fstate unit :=
  bp <- fbread dev (uint32 bno) ;;
  fbset bp zero_block ;;;
  flog_write bp ;;;
  fbrelse bp.

(** Bit [bi] of a bitmap block. *)
Definition bit_used (d : block) (bi : Z) : bool :=
  negb (Z.land (get8 d (bi / 8)) (Z.shiftl 1 (bi mod 8)) =? 0).
Definition set_bit (d : block) (bi : Z) : block :=
  put8 d (bi / 8) (Z.lor (get8 d (bi / 8)) (Z.shiftl 1 (bi mod 8))).
Definition clear_bit (d : block) (bi : Z) : block :=
  put8 d (bi / 8) (Z.land (get8 d (bi / 8)) (Z.lnot (Z.shiftl 1 (bi mod 8)))).

(** The inner loop of [balloc]: the first free bit of the block whose first bit
    is that of block [b]. *)
Fixpoint balloc_scan (n : nat) (bi b size : Z) (d : block) : option Z :=
  match n with
  | O => None
  | S n' =>
      if b + bi <? size then
        if negb (bit_used d bi) then Some bi else balloc_scan n' (bi + 1) b size d
      else None
  end.

Fixpoint balloc_loop (fuel : nat) (dev b : Z) : K fstate Z :=
  match fuel with
  | O => kdiverge
  | S fuel' =>
      sb <- getsb ;;
      if b <? sb_size sb then
        bp <- fbread dev (BBLOCK b sb) ;;
        d <- fbdata bp ;;
        match balloc_scan (Z.to_nat BPB) 0 b (sb_size sb) d with
        | Some bi =>
            fbset bp (set_bit d bi) ;;;
            flog_write bp ;;;
            fbrelse bp ;;;
            bzero dev (b + bi) ;;;
            kret (b + bi)
        | None => fbrelse bp ;;; balloc_loop fuel' dev (b + BPB)
        end
      else kret 0
  end.

Definition balloc (dev : Z) : K fstate Z :=
  sb <- getsb ;; balloc_loop (S (S (Z.to_nat (sb_size sb / BPB)))) dev 0.

Definition bfree (dev b : Z) : K fstate unit :=
  sb <- getsb ;;
  bp <- fbread dev (BBLOCK b sb) ;;
  d <- fbdata bp ;;
  let bi := b mod BPB in
  if negb (bit_used d bi) then panic "freeing free block"
  else
    fbset bp (clear_bit d bi) ;;;
    flog_write bp ;;;
    fbrelse bp.

(** ** Inodes *)

Definition iinit : list inode := replicate NINODE inode0.

(** Where dinode [inum] is in its block. *)
Definition dinode_off (inum : Z) : Z := inum mod IPB * DINODE.

(** The fields of the struct dinode at [off]. *)
Definition di_type (d : block) (off : Z) : Z := int16 (get16 d off).
Definition di_major (d : block) (off : Z) : Z := int16 (get16 d (off + 2)).
Definition di_minor (d : block) (off : Z) : Z := int16 (get16 d (off + 4)).
Definition di_nlink (d : block) (off : Z) : Z := int16 (get16 d (off + 6)).
Definition di_size (d : block) (off : Z) : Z := get32 d (off + 8).
Definition di_addr (d : block) (off i : Z) : Z := get32 d (off + 12 + 4 * i).

Definition iget (dev inum : Z) : K fstate nat := fun s =>
  match find (fun i => (0 <? i_ref (geti s i)) && (i_dev (geti s i) =? dev) && (i_inum (geti s i) =? inum))
             (seq 0 NINODE) with
  | Some ip =>
      (inmod ip (fun x => set_ref (int32 (i_ref x + 1)) x) ;;; kret ip) s
  | None =>
      match find (fun i => i_ref (geti s i) =? 0) (seq 0 NINODE) with
      | None => Panic "iget: no inodes"
      | Some ip =>
          (inmod ip (fun x => Inode dev inum 1 (i_lock x) false (i_type x) (i_major x) (i_minor x)
                                (i_nlink x) (i_size x) (i_addrs x)) ;;; kret ip) s
      end
  end.

Fixpoint ialloc_loop (n : nat) (dev inum type : Z) : K fstate (option nat) :=
  match n with
  | O => kret None
  | S n' =>
      sb <- getsb ;;
      bp <- fbread dev (IBLOCK inum sb) ;;
      d <- fbdata bp ;;
      let off := dinode_off inum in
      if di_type d off =? 0 then
        fbset bp (put16 (splice d off (replicate (Z.to_nat DINODE) 0)) off type) ;;;
        flog_write bp ;;;
        fbrelse bp ;;;
        ip <- iget dev inum ;;
        kret (Some ip)
      else
        fbrelse bp ;;;
        ialloc_loop n' dev (inum + 1) type
  end.

Definition ialloc (dev type : Z) : K fstate (option nat) :=
  sb <- getsb ;; ialloc_loop (Z.to_nat (sb_ninodes sb - 1)) dev 1 type.

(** memmove(dip->addrs, ip->addrs, sizeof(ip->addrs)) *)
Fixpoint put_addrs (a : list Z) (d : block) (off : Z) : block :=
  match a with
  | [] => d
  | x :: a' => put_addrs a' (put32 d off x) (off + 4)
  end.

(** Block [d] with the struct dinode at [off] overwritten from [x]. *)
Definition put_dinode (x : inode) (d : block) (off : Z) : block :=
  let d := put16 d off (i_type x) in
  let d := put16 d (off + 2) (i_major x) in
  let d := put16 d (off + 4) (i_minor x) in
  let d := put16 d (off + 6) (i_nlink x) in
  let d := put32 d (off + 8) (i_size x) in
  put_addrs (i_addrs x) d (off + 12).

Definition iupdate (ip : nat) : K fstate unit :=
  sb <- getsb ;;
  x <- inget ip ;;
  bp <- fbread (i_dev x) (IBLOCK (i_inum x) sb) ;;
  d <- fbdata bp ;;
  fbset bp (put_dinode x d (dinode_off (i_inum x))) ;;;
  flog_write bp ;;;
  fbrelse bp.

Definition idup (ip : nat) : K fstate nat :=
  inmod ip (fun x => set_ref (int32 (i_ref x + 1)) x) ;;; kret ip.

(** The inode [x] with the fields of the struct dinode at [off]. *)
Definition get_dinode (d : block) (off : Z) (x : inode) : inode :=
  Inode (i_dev x) (i_inum x) (i_ref x) (i_lock x) (i_valid x) (di_type d off) (di_major d off)
    (di_minor d off) (di_nlink d off) (di_size d off)
    (map (fun i => di_addr d off (Z.of_nat i)) (seq 0 (Z.to_nat (NDIRECT + 1)))).

Definition ilock (ip : nat) : K fstate unit :=
  x <- inget ip ;;
  if i_ref x <? 1 then panic "ilock"
  else
    inlock ip acquiresleep ;;;
    x <- inget ip ;;
    if negb (i_valid x) then
      sb <- getsb ;;
      bp <- fbread (i_dev x) (IBLOCK (i_inum x) sb) ;;
      d <- fbdata bp ;;
      inmod ip (get_dinode d (dinode_off (i_inum x))) ;;;
      fbrelse bp ;;;
      inmod ip (set_ivalid true) ;;;
      x <- inget ip ;;
      if i_type x =? 0 then panic "ilock: no type" else kret tt
    else kret tt.

Definition iunlock (ip : nat) : K fstate unit :=
  h <- inlock ip holdingsleep ;;
  x <- inget ip ;;
  if negb h || (i_ref x <? 1) then panic "iunlock" else inlock ip (fun _ => releasesleep).
