(* ===== verification/FsFile.v ===== *)
(** * The file system: contents of inodes, directories and path names

    The second half of kernel/fs.c, from [bmap] to [nameiparent]. *)

From S2P Require Import Prelude Memory KString Kalloc Vm Bytes Sleeplock Bio Log Fs.

(** ** The blocks of an inode *)

Definition bmap (ip : nat) (bn : Z) : K fstate Z :=
  x <- inget ip ;;
  if bn <? NDIRECT then
    if iaddr x bn =? 0 then
      addr <- balloc (i_dev x) ;;
      if addr =? 0 then kret 0
      else inmod ip (set_addr bn addr) ;;; kret addr
    else kret (iaddr x bn)
  else
    let bn := bn - NDIRECT in
    if bn <? NINDIRECT then
      addr <- (if iaddr x NDIRECT =? 0 then
                 addr <- balloc (i_dev x) ;;
                 if addr =? 0 then kret 0
                 else inmod ip (set_addr NDIRECT addr) ;;; kret addr
               else kret (iaddr x NDIRECT)) ;;
      if addr =? 0 then kret 0
      else
        bp <- fbread (i_dev x) addr ;;
        d <- fbdata bp ;;
        addr <- (if get32 d (4 * bn) =? 0 then
                   addr <- balloc (i_dev x) ;;
                   (if negb (addr =? 0) then
                      d <- fbdata bp ;; fbset bp (put32 d (4 * bn) addr) ;;; flog_write bp
                    else kret tt) ;;;
                   kret addr
                 else kret (get32 d (4 * bn))) ;;
        fbrelse bp ;;;
        kret addr
    else panic "bmap: out of range".

(** Truncation: the loops over the direct and the indirect blocks. *)
Definition itrunc_direct (ip : nat) (i : Z) : K fstate unit :=
  x <- inget ip ;;
  if negb (iaddr x i =? 0) then
    bfree (i_dev x) (iaddr x i) ;;;
    inmod ip (set_addr i 0)
  else kret tt.

Definition itrunc_indirect (dev : Z) (d : block) (j : Z) : K fstate unit :=
  if negb (get32 d (4 * j) =? 0) then bfree dev (get32 d (4 * j)) else kret tt.

Definition itrunc (ip : nat) : K fstate unit :=
  kfor (Z.to_nat NDIRECT) 0 (itrunc_direct ip) ;;;
  x <- inget ip ;;
  (if negb (iaddr x NDIRECT =? 0) then
     bp <- fbread (i_dev x) (iaddr x NDIRECT) ;;
     kfor (Z.to_nat NINDIRECT) 0 (fun j => d <- fbdata bp ;; itrunc_indirect (i_dev x) d j) ;;;
     fbrelse bp ;;;
     bfree (i_dev x) (iaddr x NDIRECT) ;;;
     inmod ip (set_addr NDIRECT 0)
   else kret tt) ;;;
  inmod ip (set_size 0) ;;;
  iupdate ip.

Definition iput (ip : nat) : K fstate unit :=
  x <- inget ip ;;
  (if (i_ref x =? 1) && i_valid x && (i_nlink x =? 0) then
     inlock ip acquiresleep ;;;
     itrunc ip ;;;
     inmod ip (set_type 0) ;;;
     iupdate ip ;;;
     inmod ip (set_ivalid false) ;;;
     inlock ip (fun _ => releasesleep)
   else kret tt) ;;;
  inmod ip (fun x => set_ref (int32 (i_ref x - 1)) x).

Definition iunlockput (ip : nat) : K fstate unit :=
  iunlock ip ;;; iput ip.

(** struct stat *)
Record stat := Stat { st_dev : Z; st_ino : Z; st_type : Z; st_nlink : Z; st_size : Z }.

Definition stati (ip : nat) : K fstate stat :=
  x <- inget ip ;;
  kret (Stat (int32 (i_dev x)) (i_inum x) (i_type x) (i_nlink x) (i_size x)).

(** ** Reading and writing *)

(** Where [readi] puts the bytes, and where [writei] takes them from: a
    kernel buffer or a user virtual address. *)
Inductive source := FromKernel (bs : list Z) | FromUser (src : Z).

Section copy.
Context `{I : KernelImage}.

Definition either_copyout (user_dst : bool) (dst : Z) (bs : list Z) : K fstate Z :=
  if user_dst then (fun s => liftM (copyout (fs_pagetable s) dst bs) s) else kret 0.

(** The result and the bytes stored. *)
Definition either_copyin (src : source) (tot len : Z) : K fstate (Z * list Z) :=
  match src with
  | FromUser a => fun s => liftM (copyin (fs_pagetable s) (uint64 (a + tot)) len) s
  | FromKernel bs => kret (0, sub bs tot len)
  end.

(** The loop of [readi]; the second result is what has been delivered. *)
Fixpoint readi_loop (fuel : nat) (ip : nat) (user_dst : bool) (dst off tot n : Z) (acc : list Z) :
    K fstate (Z * list Z) :=
  match fuel with
  | O => kdiverge
  | S fuel' =>
      if tot <? n then
        addr <- bmap ip (off / BSIZE) ;;
        if addr =? 0 then kret (tot, acc)
        else
          x <- inget ip ;;
          bp <- fbread (i_dev x) addr ;;
          d <- fbdata bp ;;
          let m := Z.min (n - tot) (BSIZE - off mod BSIZE) in
          let bs := sub d (off mod BSIZE) m in
          r <- either_copyout user_dst dst bs ;;
          if r =? -1 then fbrelse bp ;;; kret (-1, acc)
          else
            fbrelse bp ;;;
            readi_loop fuel' ip user_dst (uint64 (dst + m)) (uint32 (off + m)) (tot + m) n (acc ++ bs)
      else kret (tot, acc)
  end.

Definition readi (ip : nat) (user_dst : bool) (dst off n : Z) : K fstate (Z * list Z) :=
  x <- inget ip ;;
  if (i_size x <? off) || (uint32 (off + n) <? off) then kret (0, [])
  else
    let n := if i_size x <? off + n then i_size x - off else n in
    readi_loop (S (S (Z.to_nat (n / BSIZE + 1)))) ip user_dst dst off 0 n [].

(** The loop of [writei]; the result is the count and the offset reached. *)
Fixpoint writei_loop (fuel : nat) (ip : nat) (src : source) (off tot n : Z) : K fstate (Z * Z) :=
  match fuel with
  | O => kdiverge
  | S fuel' =>
      if tot <? n then
        addr <- bmap ip (off / BSIZE) ;;
        if addr =? 0 then kret (tot, off)
        else
          x <- inget ip ;;
          bp <- fbread (i_dev x) addr ;;
          let m := Z.min (n - tot) (BSIZE - off mod BSIZE) in
          r <- either_copyin src tot m ;;
          d <- fbdata bp ;;
          fbset bp (splice d (off mod BSIZE) (snd r)) ;;;
          if fst r =? -1 then fbrelse bp ;;; kret (tot, off)
          else
            flog_write bp ;;;
            fbrelse bp ;;;
            writei_loop fuel' ip src (uint32 (off + m)) (tot + m) n
      else kret (tot, off)
  end.

Definition writei (ip : nat) (src : source) (off n : Z) : K fstate Z :=
  x <- inget ip ;;
  if (i_size x <? off) || (uint32 (off + n) <? off) then kret (-1)
  else if MAXFILE * BSIZE <? off + n then kret (-1)
  else
    r <- writei_loop (S (S (Z.to_nat (n / BSIZE + 1)))) ip src off 0 n ;;
    x <- inget ip ;;
    (if i_size x <? snd r then inmod ip (set_size (snd r)) else kret tt) ;;;
    iupdate ip ;;;
    kret (fst r).

(** ** Directories *)

(** [strncmp] and [strncpy] of kernel/string.c on the bytes of names; a byte
    beyond the end of the list stands for the NUL that ends a string. *)
Fixpoint strncmp_bytes (n : nat) (p q : list Z) : Z :=
  match n with
  | O => 0
  | S n' =>
      let a := default 0 (head p) in
      let b := default 0 (head q) in
      if negb (a =? 0) && (a =? b) then strncmp_bytes n' (tail p) (tail q) else a - b
  end.

Fixpoint strncpy_bytes (n : nat) (t : list Z) : list Z :=
  match n with
  | O => []
  | S n' =>
      let c := default 0 (head t) in
      if c =? 0 then replicate (S n') 0 else c :: strncpy_bytes n' (tail t)
  end.

Definition namecmp (s t : list Z) : Z := strncmp_bytes (Z.to_nat DIRSIZ) s t.

(** sizeof(struct dirent) *)
Definition DIRENT : Z := 2 + DIRSIZ.
Definition de_inum (de : list Z) : Z := get16 de 0.
Definition de_name (de : list Z) : list Z := drop 2 de.

(** The inode found and the offset of its entry. *)
Fixpoint dirlookup_loop (fuel : nat) (dp : nat) (name : list Z) (off : Z) : K fstate (option (nat * Z)) :=
  match fuel with
  | O => kdiverge
  | S fuel' =>
      x <- inget dp ;;
      if off <? i_size x then
        r <- readi dp false 0 off DIRENT ;;
        if negb (fst r =? DIRENT) then panic "dirlookup read"
        else if de_inum (snd r) =? 0 then dirlookup_loop fuel' dp name (off + DIRENT)
        else if namecmp name (de_name (snd r)) =? 0 then
          ip <- iget (i_dev x) (de_inum (snd r)) ;; kret (Some (ip, off))
        else dirlookup_loop fuel' dp name (off + DIRENT)
      else kret None
  end.

Definition dirlookup (dp : nat) (name : list Z) : K fstate (option (nat * Z)) :=
  x <- inget dp ;;
  if negb (i_type x =? T_DIR) then panic "dirlookup not DIR"
  else dirlookup_loop (S (S (Z.to_nat (i_size x / DIRENT)))) dp name 0.

(** The search of [dirlink] for an empty entry. *)
Fixpoint dirlink_loop (fuel : nat) (dp : nat) (off : Z) : K fstate Z :=
  match fuel with
  | O => kdiverge
  | S fuel' =>
      x <- inget dp ;;
      if off <? i_size x then
        r <- readi dp false 0 off DIRENT ;;
        if negb (fst r =? DIRENT) then panic "dirlink read"
        else if de_inum (snd r) =? 0 then kret off
        else dirlink_loop fuel' dp (off + DIRENT)
      else kret off
  end.

Definition dirlink (dp : nat) (name : list Z) (inum : Z) : K fstate Z :=
  r <- dirlookup dp name ;;
  match r with
  | Some (ip, _) => iput ip ;;; kret (-1)
  | None =>
      x <- inget dp ;;
      off <- dirlink_loop (S (S (Z.to_nat (i_size x / DIRENT)))) dp 0 ;;
      let de := put16 (replicate 2 0 ++ strncpy_bytes (Z.to_nat DIRSIZ) name) 0 inum in
      n <- writei dp (FromKernel de) off DIRENT ;;
      kret (if negb (n =? DIRENT) then -1 else 0)
  end.

(** ** Paths *)

Definition SLASH : Z := 47.

(** [while(p[0] == '/') p++;] *)
Fixpoint skip_slashes (path : list Z) : list Z :=
  match path with
  | c :: path' => if c =? SLASH then skip_slashes path' else path
  | [] => []
  end.

(** [while(p[0] != '/' && p[0] != 0) p++;] : the element and the rest. *)
Fixpoint split_elem (path : list Z) : list Z * list Z :=
  match path with
  | c :: path' =>
      if c =? SLASH then ([], path)
      else let r := split_elem path' in (c :: fst r, snd r)
  | [] => ([], [])
  end.

(** The rest of the path and the new contents of the buffer [name]. *)
Definition skipelem (path name : list Z) : option (list Z * list Z) :=
  let path := skip_slashes path in
  match path with
  | [] => None
  | _ =>
      let r := split_elem path in
      let s := fst r in
      let len := Z.of_nat (length s) in
      let name := if DIRSIZ <=? len then splice name 0 (take (Z.to_nat DIRSIZ) s)
                  else splice name 0 (s ++ [0]) in
      Some (skip_slashes (snd r), name)
  end.

Fixpoint namex_loop (fuel : nat) (ip : nat) (path name : list Z) (parent : bool) :
    K fstate (option nat * list Z) :=
  match fuel with
  | O => kdiverge
  | S fuel' =>
      match skipelem path name with
      | Some (path, name) =>
          ilock ip ;;;
          x <- inget ip ;;
          if negb (i_type x =? T_DIR) then iunlockput ip ;;; kret (None, name)
          else if parent && (match path with [] => true | _ => false end) then
            iunlock ip ;;; kret (Some ip, name)
          else
            r <- dirlookup ip name ;;
            match r with
            | None => iunlockput ip ;;; kret (None, name)
            | Some (next, _) => iunlockput ip ;;; namex_loop fuel' next path name parent
            end
      | None =>
          if parent then iput ip ;;; kret (None, name) else kret (Some ip, name)
      end
  end.

Definition namex (path : list Z) (parent : bool) (name : list Z) : K fstate (option nat * list Z) :=
  ip <- (match path with
         | c :: _ => if c =? SLASH then iget ROOTDEV ROOTINO else (fun s => idup (fs_cwd s) s)
         | [] => (fun s => idup (fs_cwd s) s)
         end) ;;
  namex_loop (S (length path)) ip path name parent.

Definition namei (path : list Z) : K fstate (option nat) :=
  r <- namex path false (replicate (Z.to_nat DIRSIZ) 0) ;; kret (fst r).

Definition nameiparent (path name : list Z) : K fstate (option nat * list Z) :=
  namex path true name.

End copy.
