(* ===== verification/FsTxn.v ===== *)
(** * Blocks inside a transaction

    The interface between the log and the file system: inside a transaction a
    process reads blocks, changes them, records them with [log_write] and
    releases them.  The state is described by the contents of blocks [v], the
    list [H] of the blocks the process holds and the list [L] of the blocks
    recorded in the log. *)

From S2P Require Import Prelude Bytes Sleeplock Bio BioSpec Log LogSpec LogCommit LogRecover LogOps.
From S2P Require Import Memory KString Kalloc Vm Fs.

Definition in_list (b : Z) (l : list Z) : Z := if decide (b ∈ l) then 1 else 0.
Definition held_refs (H L : list Z) (b : Z) : Z := in_list b H + in_list b L.
Definition held_locks (H : list Z) (p b : Z) : sleeplock :=
  if decide (b ∈ H) then Sleeplock true p else initsleeplock.
Definition held_used (H L : list Z) : nat := (length L + length (filter (fun b => b ∉ L) H))%nat.

(** Only the log and the cache change. *)
Record same_rest (s s' : fstate) : Prop := {
  sr_sb : fs_sb s' = fs_sb s;
  sr_itable : fs_itable s' = fs_itable s;
  sr_mem : fs_mem s' = fs_mem s;
  sr_pt : fs_pagetable s' = fs_pagetable s;
  sr_cwd : fs_cwd s' = fs_cwd s;
  sr_out : lg_outstanding (ls_log (fs_ls s')) = lg_outstanding (ls_log (fs_ls s));
  sr_com : lg_committing (ls_log (fs_ls s')) = lg_committing (ls_log (fs_ls s))
}.

Lemma same_rest_refl s : same_rest s s.
Proof. by split. Qed.

Lemma same_rest_trans s1 s2 s3 : same_rest s1 s2 -> same_rest s2 s3 -> same_rest s1 s3.
Proof. intros [] []. split; congruence. Qed.

Section txn.
Variables dev start size : Z.
Hypothesis Hly : layout start size.

Record txn (s : fstate) (v : Z -> block) (H L : list Z) (d : disk) (p : Z) : Prop := {
  tx_bst : bst dev (ls_bio (fs_ls s)) v (held_refs H L) (held_locks H p) d (held_used H L) p;
  tx_head : head_ok start size (lg_lh (ls_log (fs_ls s)));
  tx_homes : homes (lg_lh (ls_log (fs_ls s))) = L;
  tx_size : lg_size (ls_log (fs_ls s)) = size;
  tx_start : lg_start (ls_log (fs_ls s)) = start;
  tx_dev : lg_dev (ls_log (fs_ls s)) = dev;
  tx_out : 1 <= lg_outstanding (ls_log (fs_ls s));
  tx_nodup : NoDup H
}.

Lemma txn_ext s v v' H L d p : txn s v H L d p -> (forall b, v b = v' b) -> txn s v' H L d p.
Proof. intros [] Hv. split; try done. by eapply bst_ext. Qed.

(** Adding a block to the log header. *)
Definition logged (b : Z) (L : list Z) : list Z := if decide (b ∈ L) then L else L ++ [b].

(** There is a buffer for block [b]. *)
Definition room (b : Z) (H L : list Z) : Prop := b ∈ L \/ (held_used H L < NBUF)%nat.

Lemma in_list_cons b x l : in_list b (x :: l) = if decide (b = x) then 1 else in_list b l.
Proof.
  unfold in_list. pose proof (elem_of_cons l b x) as Hc. repeat case_decide; tauto.
Qed.

Lemma in_list_app b x l : in_list b (l ++ [x]) = if decide (b = x) then 1 else in_list b l.
Proof.
  unfold in_list. pose proof (elem_of_app l [x] b) as Hc. rewrite list_elem_of_singleton in Hc.
  repeat case_decide; tauto.
Qed.

Lemma held_refs_cons b H L b' : b ∉ H -> held_refs (b :: H) L b' = fupd (held_refs H L) b (held_refs H L b + 1) b'.
Proof.
  intros Hb. unfold held_refs, fupd. rewrite in_list_cons. case_decide; [|done]. subst.
  unfold in_list at 2. rewrite decide_False by done. lia.
Qed.

Lemma held_locks_cons b H p b' : held_locks (b :: H) p b' = fupd (held_locks H p) b (Sleeplock true p) b'.
Proof.
  unfold held_locks, fupd. pose proof (elem_of_cons H b' b) as Hc. repeat case_decide; tauto.
Qed.

Lemma held_used_cons b H L : held_used (b :: H) L = (held_used H L + if decide (b ∈ L) then 0 else 1)%nat.
Proof.
  unfold held_used. rewrite filter_cons. repeat case_decide; try done; simpl; lia.
Qed.

Lemma filter_fresh (x : Z) (H L : list Z) : x ∉ H -> filter (fun y => y ∉ L ++ [x]) H = filter (fun y => y ∉ L) H.
Proof.
  induction H as [|y H IH]; intros Hx; [done|]. apply not_elem_of_cons in Hx as [Hxy Hx].
  rewrite !filter_cons, IH by done.
  assert (y ∉ L ++ [x] <-> y ∉ L) as Hiff by (rewrite elem_of_app, list_elem_of_singleton; intuition congruence).
  repeat case_decide; tauto.
Qed.

Lemma filter_logged (b : Z) (H L : list Z) : NoDup H -> b ∈ H -> b ∉ L ->
  length (filter (fun x => x ∉ L) H) = S (length (filter (fun x => x ∉ L ++ [b]) H)).
Proof.
  induction H as [|x H IH]; intros Hnd Hb HL; [by apply elem_of_nil in Hb|].
  apply NoDup_cons in Hnd as [Hx Hnd]. rewrite !filter_cons.
  apply elem_of_cons in Hb as [->|Hb].
  - rewrite decide_True by done. rewrite decide_False by (rewrite elem_of_app, list_elem_of_singleton; tauto).
    simpl. by rewrite filter_fresh.
  - specialize (IH Hnd Hb HL).
    assert (x <> b) as Hxb by (intros ->; done).
    assert (x ∉ L ++ [b] <-> x ∉ L) as Hiff by (rewrite elem_of_app, list_elem_of_singleton; intuition congruence).
    repeat case_decide; try tauto; simpl; lia.
Qed.

Lemma held_used_logged b H L : NoDup H -> b ∈ H -> held_used H (logged b L) = held_used H L.
Proof.
  intros Hnd Hb. unfold logged. case_decide; [done|]. unfold held_used.
  rewrite length_app, (filter_logged b H L) by done. simpl. lia.
Qed.

(** ** The operations *)

Definition holds (s : fstate) (b : Z) (bp : nat) : Prop := slot dev (ls_bio (fs_ls s)) b = Some bp.

(** The buffers in use stay in place. *)
Definition fkeeps (s s' : fstate) : Prop := keeps dev (ls_bio (fs_ls s)) (ls_bio (fs_ls s')).

Lemma held_pos b H L : b ∈ H -> 0 < held_refs H L b.
Proof. intros Hb. unfold held_refs, in_list. rewrite decide_True by done. case_decide; lia. Qed.

Lemma fkeeps_holds s s' v H L d p b bp :
  fkeeps s s' -> txn s v H L d p -> b ∈ H -> holds s b bp -> holds s' b bp.
Proof. intros Hk St Hb Hs. eapply keeps_slot; [exact Hk|apply St|done|by apply held_pos]. Qed.

Lemma liftBL_ret {A} (c : K bstate A) s a sb' :
  c (ls_bio (fs_ls s)) = Ret a sb' ->
  liftL (liftB c) s = Ret a (FState (LState sb' (ls_log (fs_ls s))) (fs_sb s) (fs_itable s) (fs_mem s) (fs_pagetable s) (fs_cwd s)).
Proof. intros Hc. unfold liftL, liftB. by rewrite Hc. Qed.

Lemma fbread_ok s v H L d p b :
  txn s v H L d p -> b ∉ H -> room b H L ->
  exists bp s', fbread dev b s = Ret bp s' /\ txn s' v (b :: H) L d p /\ holds s' b bp /\
    fkeeps s s' /\ same_rest s s'.
Proof.
  intros [Hb Hh Hho Hsz Hst Hdv Hout Hnd] HbH Hroom.
  assert (held_refs H L b = in_list b L) as Hr.
  { unfold held_refs, in_list. rewrite decide_False by done. lia. }
  destruct (bread_st dev _ _ _ _ _ _ _ b Hb) as (i & sb' & Hi & Hsl & Hb' & Hk).
  { unfold held_locks. by rewrite decide_False. }
  { rewrite Hr. unfold in_list. case_decide; lia. }
  { rewrite Hr. unfold in_list. case_decide as Hd; [done|]. intros _. by destruct Hroom. }
  eexists i, _. split; [apply liftBL_ret; exact Hi|]. split; [|split; [done|split; [done|by split]]].
  split; try done.
  - eapply bst_conv; [exact Hb'|done| | |done|].
    + intros b'. by rewrite held_refs_cons.
    + intros b'. by rewrite held_locks_cons.
    + rewrite Hr, held_used_cons. unfold in_list. by case_decide.
  - by apply NoDup_cons.
Qed.

Lemma fbdata_ok s v H L d p b bp :
  txn s v H L d p -> holds s b bp -> b ∈ H -> fbdata bp s = Ret (v b) s.
Proof.
  intros St Hs Hb. destruct (bufget_st dev _ _ _ _ _ _ _ b bp (tx_bst _ _ _ _ _ _ St) Hs (held_pos b H L Hb)) as (x & Hx & Hd & _).
  unfold fbdata, kbind, kret, liftL, liftB. rewrite Hx, Hd. by destruct s as [[] ? ? ? ? ?].
Qed.

Lemma fbset_ok s v H L d p b bp x :
  txn s v H L d p -> holds s b bp -> b ∈ H ->
  exists s', fbset bp x s = Ret tt s' /\ txn s' (fupd v b x) H L d p /\ fkeeps s s' /\ same_rest s s'.
Proof.
  intros St Hs Hb.
  destruct (setdata_st dev _ _ _ _ _ _ _ b bp x (tx_bst _ _ _ _ _ _ St) Hs (held_pos b H L Hb)) as (sb' & H1 & Hb' & Hk).
  eexists. split; [apply liftBL_ret; exact H1|]. destruct St. split; [by split|]. split; [done|by split].
Qed.

Lemma flog_write_ok s v H L d p b bp :
  txn s v H L d p -> holds s b bp -> b ∈ H -> 0 <= b < 2 ^ 31 -> ~ in_log start size b ->
  Z.of_nat (length L) < size - 1 -> Z.of_nat (length L) < LOGSIZE ->
  exists s', flog_write bp s = Ret tt s' /\ txn s' v H (logged b L) d p /\ fkeeps s s' /\ same_rest s s'.
Proof.
  intros St Hs Hb Hbr Hbl HL1 HL2. pose proof St as [Hbst Hh Hho Hsz Hst Hdv Hout Hnd].
  destruct s as [[sb lg] fsb it fm pt cwd]. cbn [fs_ls ls_bio ls_log] in *.
  assert (lh_n (lg_lh lg) = Z.of_nat (length L)) as Hn.
  { rewrite <- Hho. unfold homes. rewrite length_map, length_seq. pose proof (ho_n _ _ _ Hh). lia. }
  destruct (log_write_ok dev start size sb lg _ _ _ _ _ _ b bp Hbst Hs (held_pos b H L Hb)) as (sb' & h' & Hw & Hk & Hh' & Hcase); try done; try lia.
  { unfold held_refs, in_list. repeat case_decide; lia. }
  eexists. split; [unfold flog_write, liftL; cbn [fs_ls]; by rewrite Hw|].
  split; [|split; [done|by split]]. rewrite Hho in Hcase. unfold logged.
  destruct Hcase as [(Hin & _ & Hhs & Hb')|(Hnin & _ & Hhs & Hb')].
  - rewrite decide_True by done. by split.
  - rewrite decide_False by done. split; try done.
    eapply bst_conv; [exact Hb'|done| |done|done|].
    + intros b'. unfold fupd, held_refs. rewrite in_list_app. case_decide; [|done]. subst.
      unfold in_list at 2. rewrite decide_False by done. lia.
    + symmetry. cbn [fs_ls ls_bio]. pose proof (held_used_logged b H L Hnd Hb) as Hu. unfold logged in Hu.
      by rewrite decide_False in Hu.
Qed.

Lemma fbrelse_ok s v H L d p b bp :
  txn s v (b :: H) L d p -> holds s b bp -> b ∈ L \/ v b = disk_block d b ->
  exists s', fbrelse bp s = Ret tt s' /\ txn s' v H L d p /\ fkeeps s s' /\ same_rest s s'.
Proof.
  intros St Hs Hc. pose proof St as [Hbst Hh Hho Hsz Hst Hdv Hout Hnd].
  apply NoDup_cons in Hnd as [HbH Hnd].
  assert (held_refs (b :: H) L b = 1 + in_list b L) as Hr.
  { unfold held_refs, in_list at 1. rewrite decide_True by left. done. }
  destruct (brelse_st dev _ _ _ _ _ _ _ b bp Hbst Hs) as (sb' & H1 & Hb' & Hk).
  { apply held_pos. left. }
  { unfold held_locks. rewrite decide_True by left. done. }
  { rewrite Hr. unfold in_list. case_decide; [lia|]. intros _. by destruct Hc. }
  eexists. split; [apply liftBL_ret; exact H1|]. split; [|split; [done|by split]].
  split; try done. rewrite Hr in Hb'. cbn [fs_ls ls_bio].
  eapply bst_conv; [exact Hb'|done| | |done|].
  - intros b'. unfold fupd. case_decide as Hx; subst.
    + unfold held_refs. unfold in_list at 2. rewrite decide_False by done. lia.
    + unfold held_refs. rewrite in_list_cons. by rewrite decide_False.
  - intros b'. unfold fupd. case_decide as Hx; subst.
    + unfold held_locks. by rewrite decide_False.
    + by rewrite held_locks_cons, fupd_other.
  - rewrite held_used_cons. unfold in_list. case_decide; simpl; lia.
Qed.

Lemma fkeeps_trans s1 s2 s3 v H L d p :
  fkeeps s1 s2 -> fkeeps s2 s3 -> txn s2 v H L d p -> (forall b, 0 < refs dev (ls_bio (fs_ls s1)) b -> 0 < held_refs H L b) ->
  fkeeps s1 s3.
Proof. intros H1 H2 St Hr. eapply keeps_trans; [exact H1|exact H2|apply St|done]. Qed.

(** A block that is neither held nor logged is the one on disk. *)
Lemma txn_clean s v H L d p b : txn s v H L d p -> b ∉ H -> b ∉ L -> v b = disk_block d b.
Proof.
  intros St HbH HbL. pose proof (tx_bst _ _ _ _ _ _ St) as [B1 B2 B3 B4 B5 B6 B7].
  rewrite <- B2, <- B5. apply view_idle; [done|]. rewrite B3. unfold held_refs, in_list.
  by rewrite !decide_False.
Qed.

End txn.
