(* ===== verification/FsExample.v ===== *)
(** * A small file system

    A disk of 64 blocks: the log in blocks 2 to 31, inodes in block 32, the
    bitmap in block 33, a directory in block 34 and a file in block 35.  The
    theorems on the file system are instantiated at the state of a kernel
    that has it mounted, with an operation in progress. *)

From S2P Require Import Prelude Memory KString Kalloc Vm Bytes Sleeplock Bio BioSpec Log LogSpec LogCommit Fs FsTxn.

Definition sbx : superblock := Superblock FSMAGIC 64 24 16 30 2 32 33.

(** Blocks 0 to 39 are in use. *)
Definition bitmapx : block := [255; 255; 255; 255; 255] ++ replicate 1019 0.

(** Two entries: "a" is inode 2, "b" is inode 3. *)
Definition dirx : block :=
  [2; 0; 97] ++ replicate 13 0 ++ [3; 0; 98] ++ replicate 13 0 ++ replicate 992 0.

Definition filex : block := [104; 101; 108; 108; 111] ++ replicate 1019 0.

Definition diskx : disk := Disk (<[33 := bitmapx]> (<[34 := dirx]> (<[35 := filex]> ∅))) [].

Definition addrsx (a : Z) : list Z := a :: replicate 12 0.

(** Inode 2, the file, and inode 1, the directory, are locked by process 1;
    slot 2 caches nothing. *)
Definition itablex : list inode :=
  [ Inode 1 2 1 (Sleeplock true 1) true T_FILE 0 0 1 5 (addrsx 35);
    Inode 1 1 1 (Sleeplock true 1) true T_DIR 0 0 1 32 (addrsx 34);
    inode0 ].

Definition fsx : fstate :=
  FState (LState (binit diskx 1) (Log 2 30 1 false 1 (LogHeader 0 (replicate (Z.to_nat LOGSIZE) 0))))
    sbx itablex (Kmem ∅ 0) 0 0.

Lemma txnx : txn 1 2 30 fsx (disk_block diskx) [] [] diskx 1.
Proof.
  destruct (binit_ok 1 diskx 1 ltac:(lia)) as (B1 & B2 & B3 & B4 & B5). split; try done.
  - split; cbn [lh_n lh_block]; [done|done|simpl; lia|constructor].
  - constructor.
Qed.

Lemma blockx b : length (disk_block diskx b) = Z.to_nat BSIZE.
Proof.
  unfold disk_block, diskx. cbn [dk_blocks].
  destruct (decide (b = 33)) as [->|]; [vm_compute; reflexivity|].
  destruct (decide (b = 34)) as [->|]; [vm_compute; reflexivity|].
  destruct (decide (b = 35)) as [->|]; [vm_compute; reflexivity|].
  by rewrite !lookup_insert_ne.
Qed.
