(* ===== verification/FsBitmap.v ===== *)
(** * The free-block bitmap

    [balloc] finds the first free block, marks it and zeroes it; [bfree]
    clears exactly one bit. *)

From S2P Require Import Prelude Memory KString Kalloc Vm Bytes Sleeplock Bio BioSpec Log LogSpec LogCommit LogRecover LogOps Fs FsTxn.

(** ** Bits *)

Lemma land_pow2 x k : 0 <= k -> negb (Z.land x (Z.shiftl 1 k) =? 0) = Z.testbit x k.
Proof.
  intros Hk. rewrite Z.shiftl_1_l. destruct (Z.testbit x k) eqn:E.
  - apply negb_true_iff, Z.eqb_neq. intros H. assert (Z.testbit (Z.land x (2 ^ k)) k = true) as Ht.
    { rewrite Z.land_spec, E, Z.pow2_bits_true by done. done. }
    rewrite H, Z.testbit_0_l in Ht. done.
  - apply negb_false_iff, Z.eqb_eq. apply Z.bits_inj. intros i. rewrite Z.land_spec, Z.testbit_0_l.
    destruct (decide (i = k)) as [->|Hne]; [by rewrite E|]. rewrite Z.pow2_bits_false by done. apply andb_false_r.
Qed.

Lemma bit_used_testbit d bi : bit_used d bi = Z.testbit (get8 d (bi / 8)) (bi mod 8).
Proof. apply land_pow2. apply Z.mod_pos_bound. lia. Qed.

Lemma uint8_testbit z i : 0 <= i < 8 -> Z.testbit (uint8 z) i = Z.testbit z i.
Proof. intros. unfold uint8. apply Z.mod_pow2_bits_low. lia. Qed.

Lemma bit_set d bi bj : 0 <= bi -> 0 <= bj -> bi / 8 < Z.of_nat (length d) ->
  bit_used (set_bit d bi) bj = (bi =? bj) || bit_used d bj.
Proof.
  intros Hi Hj Hl. rewrite !bit_used_testbit. unfold set_bit.
  pose proof (Z.mod_pos_bound bi 8) as Hmi. pose proof (Z.mod_pos_bound bj 8) as Hmj.
  pose proof (Z.div_pos bi 8) as Hdi. pose proof (Z.div_pos bj 8) as Hdj.
  rewrite get8_put8 by lia. case_decide as Hd.
  - rewrite uint8_testbit, Z.lor_spec, Z.shiftl_1_l by lia. rewrite <- Hd.
    destruct (bi =? bj) eqn:E.
    + apply Z.eqb_eq in E. subst. rewrite Z.pow2_bits_true by lia. apply orb_true_r.
    + apply Z.eqb_neq in E. rewrite Z.pow2_bits_false; [by rewrite orb_false_r|].
      intros Hm. apply E. rewrite (Z.div_mod bi 8), (Z.div_mod bj 8) by lia. lia.
  - replace (bi =? bj) with false; [done|]. symmetry. apply Z.eqb_neq. congruence.
Qed.

Lemma bit_clear d bi bj : 0 <= bi -> 0 <= bj -> bi / 8 < Z.of_nat (length d) ->
  bit_used (clear_bit d bi) bj = negb (bi =? bj) && bit_used d bj.
Proof.
  intros Hi Hj Hl. rewrite !bit_used_testbit. unfold clear_bit.
  pose proof (Z.mod_pos_bound bi 8) as Hmi. pose proof (Z.mod_pos_bound bj 8) as Hmj.
  pose proof (Z.div_pos bi 8) as Hdi. pose proof (Z.div_pos bj 8) as Hdj.
  rewrite get8_put8 by lia. case_decide as Hd.
  - rewrite uint8_testbit, Z.land_spec, Z.lnot_spec, Z.shiftl_1_l by lia. rewrite <- Hd.
    destruct (bi =? bj) eqn:E.
    + apply Z.eqb_eq in E. subst. rewrite Z.pow2_bits_true by lia. apply andb_false_r.
    + apply Z.eqb_neq in E. rewrite Z.pow2_bits_false; [apply andb_true_r|].
      intros Hm. apply E. rewrite (Z.div_mod bi 8), (Z.div_mod bj 8) by lia. lia.
  - replace (bi =? bj) with false; [done|]. symmetry. apply Z.eqb_neq. congruence.
Qed.

Lemma balloc_scan_spec b size d n : forall bi,
  match balloc_scan n bi b size d with
  | Some k => bi <= k < bi + Z.of_nat n /\ b + k < size /\ bit_used d k = false /\
      (forall j, bi <= j < k -> bit_used d j = true)
  | None => forall j, bi <= j < bi + Z.of_nat n -> b + j < size -> bit_used d j = true
  end.
Proof.
  induction n as [|n IH]; intros bi; cbn [balloc_scan]; [intros; lia|].
  destruct (b + bi <? size) eqn:E.
  - apply Z.ltb_lt in E. destruct (bit_used d bi) eqn:Eu; cbn [negb].
    + specialize (IH (bi + 1)). destruct (balloc_scan n (bi + 1) b size d) as [k|].
      * destruct IH as (H1 & H2 & H3 & H4). repeat split; try done; try lia.
        intros j Hj. destruct (decide (j = bi)) as [->|]; [done|]. apply H4. lia.
      * intros j Hj Hs. destruct (decide (j = bi)) as [->|]; [done|]. apply IH; lia.
    + repeat split; try done; intros; lia.
  - apply Z.ltb_ge in E. intros j Hj Hs. lia.
Qed.

Section bitmap.
Variables dev start size : Z.
Hypothesis Hly : layout start size.
Local Abbreviation txn := (txn dev start size).

(** ** Changing a held block *)

Lemma fkeeps_chain s1 s2 s3 v1 H1 L1 d1 p1 v2 H2 L2 d2 p2 :
  txn s1 v1 H1 L1 d1 p1 -> fkeeps dev s1 s2 -> txn s2 v2 H2 L2 d2 p2 -> fkeeps dev s2 s3 ->
  (forall b, b ∈ H1 \/ b ∈ L1 -> b ∈ H2 \/ b ∈ L2) -> fkeeps dev s1 s3.
Proof.
  intros T1 K1 T2 K2 Hsub. eapply fkeeps_trans; [exact K1|exact K2|exact T2|].
  intros b. rewrite (st_refs _ _ _ _ _ _ _ _ (tx_bst _ _ _ _ _ _ _ _ _ T1)).
  unfold held_refs, in_list. specialize (Hsub b). repeat case_decide; try lia; tauto.
Qed.

Lemma elem_logged b x L : x ∈ logged b L <-> x ∈ L \/ x = b.
Proof.
  unfold logged. case_decide; [intuition congruence|]. rewrite elem_of_app, list_elem_of_singleton. tauto.
Qed.

Lemma length_logged b L : (length L <= length (logged b L) <= length L + 1)%nat.
Proof. unfold logged. case_decide; [lia|]. rewrite length_app. simpl. lia. Qed.

(** [fbset; log_write; brelse] on the block just read. *)
Lemma fput_ok s v H L d p b bp x :
  txn s v (b :: H) L d p -> holds dev s b bp -> 0 <= b < 2 ^ 31 -> ~ in_log start size b ->
  Z.of_nat (length L) < size - 1 -> Z.of_nat (length L) < LOGSIZE ->
  exists s', (fbset bp x ;;; flog_write bp ;;; fbrelse bp) s = Ret tt s' /\
    txn s' (fupd v b x) H (logged b L) d p /\ fkeeps dev s s' /\ same_rest s s'.
Proof.
  intros T Hh Hb Hl HL1 HL2. assert (b ∈ b :: H) as Hin by left.
  destruct (fbset_ok dev start size s v _ L d p b bp x T Hh Hin) as (s1 & E1 & T1 & K1 & R1).
  pose proof (fkeeps_holds dev start size _ _ _ _ _ _ _ b bp K1 T Hin Hh) as Hh1.
  destruct (flog_write_ok dev start size s1 _ _ L d p b bp T1 Hh1 Hin Hb Hl HL1 HL2) as (s2 & E2 & T2 & K2 & R2).
  pose proof (fkeeps_holds dev start size _ _ _ _ _ _ _ b bp K2 T1 Hin Hh1) as Hh2.
  destruct (fbrelse_ok dev start size s2 _ H _ d p b bp T2 Hh2) as (s3 & E3 & T3 & K3 & R3).
  { left. apply elem_logged. by right. }
  exists s3. rewrite (kbind_ret _ _ _ _ _ E1), (kbind_ret _ _ _ _ _ E2). split; [done|]. split; [done|]. split.
  - eapply fkeeps_chain; [exact T|exact K1|exact T1| |done].
    eapply fkeeps_chain; [exact T1|exact K2|exact T2|exact K3|]. intros y. rewrite elem_logged. tauto.
  - eapply same_rest_trans; [exact R1|]. by eapply same_rest_trans.
Qed.

Lemma bzero_ok s v H L d p b :
  txn s v H L d p -> b ∉ H -> room b H L -> 0 <= b < 2 ^ 31 -> ~ in_log start size b ->
  Z.of_nat (length L) < size - 1 -> Z.of_nat (length L) < LOGSIZE ->
  exists s', bzero dev b s = Ret tt s' /\
    txn s' (fupd v b zero_block) H (logged b L) d p /\ fkeeps dev s s' /\ same_rest s s'.
Proof.
  intros T HbH Hr Hb Hl HL1 HL2.
  destruct (fbread_ok dev start size s v H L d p b T HbH Hr) as (bp & s1 & E1 & T1 & Hh1 & K1 & R1).
  destruct (fput_ok s1 v H L d p b bp zero_block T1 Hh1 Hb Hl HL1 HL2) as (s2 & E2 & T2 & K2 & R2).
  exists s2. unfold bzero. rewrite uint32_small by lia. rewrite (kbind_ret _ _ _ _ _ E1). split; [done|].
  split; [done|]. split; [|by eapply same_rest_trans].
  eapply fkeeps_chain; [exact T|exact K1|exact T1|exact K2|]. intros y. rewrite elem_of_cons. tauto.
Qed.

(** ** bfree *)

(** Whether the bitmap says that block [b] is in use. *)
Definition used (sb : superblock) (v : Z -> block) (b : Z) : bool := bit_used (v (BBLOCK b sb)) (b mod BPB).

(** The bitmap block for [b] may be read and logged. *)
Record bitmap_ok (sb : superblock) (v : Z -> block) (H L : list Z) (b : Z) : Prop := {
  bm_held : BBLOCK b sb ∉ H;
  bm_range : 0 <= BBLOCK b sb < 2 ^ 31;
  bm_log : ~ in_log start size (BBLOCK b sb);
  bm_len : length (v (BBLOCK b sb)) = Z.to_nat BSIZE
}.

Lemma bfree_ok s v H L d p b :
  txn s v H L d p -> 0 <= b -> bitmap_ok (fs_sb s) v H L b -> room (BBLOCK b (fs_sb s)) H L ->
  Z.of_nat (length L) < size - 1 -> Z.of_nat (length L) < LOGSIZE ->
  if used (fs_sb s) v b then
    exists s', bfree dev b s = Ret tt s' /\
      txn s' (fupd v (BBLOCK b (fs_sb s)) (clear_bit (v (BBLOCK b (fs_sb s))) (b mod BPB))) H
        (logged (BBLOCK b (fs_sb s)) L) d p /\ fkeeps dev s s' /\ same_rest s s'
  else bfree dev b s = Panic "freeing free block".
Proof.
  intros T Hb0 [B1 B2 B3 B4] Hr HL1 HL2. set (bb := BBLOCK b (fs_sb s)) in *.
  destruct (fbread_ok dev start size s v H L d p bb T B1 Hr) as (bp & s1 & E1 & T1 & Hh1 & K1 & R1).
  pose proof (fbdata_ok dev start size s1 v _ L d p bb bp T1 Hh1 ltac:(left)) as E2.
  unfold bfree. rewrite (kbind_ret getsb _ s (fs_sb s) s eq_refl). fold bb.
  rewrite (kbind_ret _ _ _ _ _ E1), (kbind_ret _ _ _ _ _ E2). cbv zeta.
  unfold used. fold bb. destruct (bit_used (v bb) (b mod BPB)) eqn:Eu; cbn [negb]; [|done].
  destruct (fput_ok s1 v H L d p bb bp (clear_bit (v bb) (b mod BPB)) T1 Hh1 B2 B3 HL1 HL2) as (s2 & E3 & T2 & K2 & R2).
  exists s2. split; [done|]. split; [done|]. split; [|by eapply same_rest_trans].
  eapply fkeeps_chain; [exact T|exact K1|exact T1|exact K2|]. intros y. rewrite elem_of_cons. tauto.
Qed.

(** ** balloc *)

Lemma balloc_loop_S fuel b :
  balloc_loop (S fuel) dev b =
      (sb <- getsb ;;
      if b <? sb_size sb then
        bp <- fbread dev (BBLOCK b sb) ;;
        d <- fbdata bp ;;
        match balloc_scan (Z.to_nat BPB) 0 b (sb_size sb) d with
        | Some bi =>
            fbset bp (set_bit d bi) ;;; flog_write bp ;;; fbrelse bp ;;;
            bzero dev (b + bi) ;;; kret (b + bi)
        | None => fbrelse bp ;;; balloc_loop fuel dev (b + BPB)
        end
      else kret 0).
Proof. reflexivity. Qed.

Lemma BBLOCK_same sb b bi : b mod BPB = 0 -> 0 <= bi < BPB -> BBLOCK (b + bi) sb = BBLOCK b sb /\ (b + bi) mod BPB = bi.
Proof.
  intros Hb Hbi. unfold BBLOCK. change BPB with 8192 in *. split; [|Z.div_mod_to_equations; lia].
  do 2 f_equal. Z.div_mod_to_equations. lia.
Qed.

(** What [balloc] did to the contents [v] when it allocated block [b]. *)
Definition alloc_view (sb : superblock) (v : Z -> block) (b : Z) : Z -> block :=
  fupd (fupd v (BBLOCK b sb) (set_bit (v (BBLOCK b sb)) (b mod BPB))) b zero_block.
Definition alloc_log (sb : superblock) (L : list Z) (b : Z) : list Z := logged b (logged (BBLOCK b sb) L).

Lemma balloc_loop_ok fuel : forall s v H L d p b0,
  let sb := fs_sb s in
  txn s v H L d p -> b0 mod BPB = 0 -> 0 <= b0 -> sb_size sb < 2 ^ 31 ->
  sb_size sb <= b0 + (Z.of_nat fuel - 1) * BPB -> (0 < fuel)%nat ->
  (S (held_used H L) < NBUF)%nat ->
  Z.of_nat (length L) + 1 < size - 1 -> Z.of_nat (length L) + 1 < LOGSIZE ->
  (forall b, 0 <= b < sb_size sb -> bitmap_ok sb v H L b) ->
  (forall b, 0 <= b < sb_size sb -> used sb v b = false -> (b ∉ H) /\ ~ in_log start size b) ->
  (forall b, 0 <= b < b0 -> b < sb_size sb -> used sb v b = true) ->
  exists r s', balloc_loop fuel dev b0 s = Ret r s' /\ fkeeps dev s s' /\ same_rest s s' /\
    (r = 0 /\ txn s' v H L d p /\ (forall b, 0 <= b < sb_size sb -> used sb v b = true) \/
     0 <= r < sb_size sb /\ used sb v r = false /\ (forall b, 0 <= b < r -> used sb v b = true) /\
       txn s' (alloc_view sb v r) H (alloc_log sb L r) d p).
Proof.
  induction fuel as [|fuel IH]; intros s v H L d p b0 sb T Hb0 Hb0' Hsz Hfuel Hf0 Huse HL1 HL2 Hbm Hfree Hlow; [lia|].
  rewrite balloc_loop_S, (kbind_ret getsb _ s sb s eq_refl).
  destruct (b0 <? sb_size sb) eqn:E.
  2:{ apply Z.ltb_ge in E. exists 0, s. split; [done|]. split; [apply keeps_refl|]. split; [apply same_rest_refl|].
      left. split; [done|]. split; [done|]. intros b Hb. apply Hlow; lia. }
  apply Z.ltb_lt in E. destruct (Hbm b0 ltac:(lia)) as [B1 B2 B3 B4]. set (bb := BBLOCK b0 sb) in *.
  assert (room bb H L) as Hroom by (right; lia).
  destruct (fbread_ok dev start size s v H L d p bb T B1 Hroom) as (bp & s1 & E1 & T1 & Hh1 & K1 & R1).
  pose proof (fbdata_ok dev start size s1 v _ L d p bb bp T1 Hh1 ltac:(left)) as E2.
  rewrite (kbind_ret _ _ _ _ _ E1), (kbind_ret _ _ _ _ _ E2).
  pose proof (balloc_scan_spec b0 (sb_size sb) (v bb) (Z.to_nat BPB) 0) as Hscan.
  destruct (balloc_scan (Z.to_nat BPB) 0 b0 (sb_size sb) (v bb)) as [bi|].
  - destruct Hscan as (Hbi & Hbs & Hbu & Hbl). rewrite Z2Nat.id in Hbi by done. rewrite Z.add_0_l in Hbi.
    destruct (BBLOCK_same sb b0 bi Hb0 Hbi) as [Hbb Hmod]. fold bb in Hbb.
    set (r := b0 + bi) in *. assert (used sb v r = false) as Hru by (unfold used; by rewrite Hbb, Hmod).
    destruct (fput_ok s1 v H L d p bb bp (set_bit (v bb) bi) T1 Hh1 B2 B3) as (s2 & E3 & T2 & K2 & R2); [lia|lia|].
    rewrite kbind_assoc3.
    destruct (Hfree r ltac:(unfold r; lia) Hru) as [HrH Hrl].
    destruct (bzero_ok s2 _ H (logged bb L) d p r T2 HrH) as (s3 & E4 & T3 & K3 & R3).
    { pose proof (length_logged bb L). right. unfold logged, held_used in *. case_decide; [lia|].
      rewrite length_app. simpl.
      assert (length (filter (fun b => b ∉ L ++ [bb]) H) = length (filter (fun b => b ∉ L) H)) as ->; [|lia].
      by rewrite filter_fresh. }
    { unfold r. lia. } { done. } { pose proof (length_logged bb L). lia. } { pose proof (length_logged bb L). lia. }
    exists r, s3. split.
    { rewrite (kbind_ret _ _ _ _ _ E3). fold r. by rewrite (kbind_ret _ _ _ _ _ E4). }
    assert (fkeeps dev s s2) as K12.
    { eapply fkeeps_chain; [exact T|exact K1|exact T1|exact K2|]. intros y. rewrite elem_of_cons. tauto. }
    split; [|split].
    + eapply fkeeps_chain; [exact T|exact K12|exact T2|exact K3|]. intros y. rewrite elem_logged. tauto.
    + eapply same_rest_trans; [exact R1|]. by eapply same_rest_trans.
    + right. split; [unfold r; lia|]. split; [done|]. split.
      * intros b Hb. destruct (decide (b < b0)); [apply Hlow; unfold r in *; lia|].
        destruct (BBLOCK_same sb b0 (b - b0) Hb0) as [Hbb' Hmod']; [unfold r in *; lia|].
        replace (b0 + (b - b0)) with b in * by lia. unfold used. rewrite Hbb', Hmod'. fold bb. apply Hbl. unfold r in *. lia.
      * unfold alloc_view, alloc_log. rewrite Hbb, Hmod. done.
  - rewrite Z2Nat.id in Hscan by done. rewrite Z.add_0_l in Hscan.
    destruct (fbrelse_ok dev start size s1 v H L d p bb bp T1 Hh1) as (s2 & E3 & T2 & K2 & R2).
    { destruct (decide (bb ∈ L)); [by left|]. right. by eapply (txn_clean dev start size s). }
    rewrite (kbind_ret _ _ _ _ _ E3).
    assert (same_rest s s2) as R12 by (by eapply same_rest_trans).
    assert (fs_sb s2 = sb) as Hsb2 by apply R12.
    change BPB with 8192 in *.
    destruct (IH s2 v H L d p (b0 + 8192)) as (r & s3 & E4 & K3 & R3 & Hres); rewrite ?Hsb2; try done; try lia.
    { Z.div_mod_to_equations. lia. }
    { intros b Hb Hbs. destruct (decide (b < b0)); [by apply Hlow; lia|].
      destruct (BBLOCK_same sb b0 (b - b0) Hb0) as [Hbb' Hmod']; [change BPB with 8192; lia|].
      change BPB with 8192 in Hmod'.
      replace (b0 + (b - b0)) with b in * by lia. unfold used. change BPB with 8192. rewrite Hbb', Hmod'. fold bb.
      apply Hscan; lia. }
    rewrite Hsb2 in Hres. exists r, s3. split; [done|]. split; [|split; [by eapply same_rest_trans|done]].
    eapply fkeeps_chain; [exact T| |exact T2|exact K3|done].
    eapply fkeeps_chain; [exact T|exact K1|exact T1|exact K2|]. intros y. rewrite elem_of_cons. tauto.
Qed.

Lemma balloc_ok s v H L d p :
  let sb := fs_sb s in
  txn s v H L d p -> 0 <= sb_size sb < 2 ^ 31 -> (S (held_used H L) < NBUF)%nat ->
  Z.of_nat (length L) + 1 < size - 1 -> Z.of_nat (length L) + 1 < LOGSIZE ->
  (forall b, 0 <= b < sb_size sb -> bitmap_ok sb v H L b) ->
  (forall b, 0 <= b < sb_size sb -> used sb v b = false -> (b ∉ H) /\ ~ in_log start size b) ->
  exists r s', balloc dev s = Ret r s' /\ fkeeps dev s s' /\ same_rest s s' /\
    (r = 0 /\ txn s' v H L d p /\ (forall b, 0 <= b < sb_size sb -> used sb v b = true) \/
     0 <= r < sb_size sb /\ used sb v r = false /\ (forall b, 0 <= b < r -> used sb v b = true) /\
       txn s' (alloc_view sb v r) H (alloc_log sb L r) d p).
Proof.
  intros sb T Hsz Hu HL1 HL2 Hbm Hfree. unfold balloc. rewrite (kbind_ret getsb _ s sb s eq_refl).
  apply balloc_loop_ok; try done; try lia.
  all: fold sb; change BPB with 8192; Z.div_mod_to_equations; lia.
Qed.

(** The bitmap after an allocation: one more block is in use. *)
Lemma used_alloc sb v b b' : 0 <= b -> 0 <= b' -> b <> BBLOCK b' sb ->
  length (v (BBLOCK b sb)) = Z.to_nat BSIZE ->
  (BBLOCK b sb = BBLOCK b' sb -> b / BPB = b' / BPB) ->
  used sb (alloc_view sb v b) b' = (b =? b') || used sb v b'.
Proof.
  intros Hb Hb' Hne Hlen Hinj. unfold used, alloc_view. rewrite fupd_other by congruence.
  pose proof (Z.mod_pos_bound b BPB ltac:(done)) as Hm. pose proof (Z.mod_pos_bound b' BPB ltac:(done)) as Hm'.
  destruct (decide (BBLOCK b' sb = BBLOCK b sb)) as [He|He].
  - rewrite He, fupd_same. rewrite bit_set; try lia.
    + f_equal. specialize (Hinj ltac:(done)). change BPB with 8192 in *.
      destruct (b =? b') eqn:E; [apply Z.eqb_eq in E; subst; by rewrite Z.eqb_refl|].
      apply Z.eqb_neq in E. apply Z.eqb_neq. intros Hmm. apply E.
      rewrite (Z.div_mod b 8192), (Z.div_mod b' 8192) by lia. lia.
    + rewrite Hlen. change BPB with 8192 in *. unfold BSIZE. Z.div_mod_to_equations. lia.
  - rewrite fupd_other by done. replace (b =? b') with false; [done|]. symmetry. apply Z.eqb_neq. congruence.
Qed.

End bitmap.
