(* ===== verification/FsAlloc.v ===== *)
(** * The free-block bitmap as a set of blocks

    [disk_map] says what the bitmap of a mounted file system satisfies: its
    own blocks are in use, and the log and the blocks a process holds are
    never free.  Allocating a block keeps it; freeing the block just
    allocated restores the bitmap. *)

From S2P Require Import Prelude Memory KString Kalloc Vm Bytes Sleeplock Bio BioSpec Log LogSpec LogCommit Fs FsTxn FsExample FsBitmap.

Section alloc.
Variables dev start size : Z.
Local Abbreviation txn := (txn dev start size).
Local Abbreviation bitmap_ok := (bitmap_ok start size).

Record disk_map (sb : superblock) (v : Z -> block) (H : list Z) : Prop := {
  dm_size : 0 <= sb_size sb < 2 ^ 31;
  dm_start : 0 <= sb_bmapstart sb < 2 ^ 31;
  dm_bm : forall b, 0 <= b < sb_size sb -> bitmap_ok sb v H [] b;
  dm_self : forall b, 0 <= b < sb_size sb -> 0 <= BBLOCK b sb < sb_size sb /\ used sb v (BBLOCK b sb) = true;
  dm_free : forall b, 0 <= b < sb_size sb -> used sb v b = false -> (b ∉ H) /\ ~ in_log start size b;
  dm_zero : 0 < sb_size sb -> used sb v 0 = true
}.

Lemma BBLOCK_eq sb v H b : disk_map sb v H -> 0 <= b < sb_size sb -> BBLOCK b sb = b / BPB + sb_bmapstart sb.
Proof.
  intros D Hb. unfold BBLOCK. apply uint32_small. pose proof (dm_size _ _ _ D). pose proof (dm_start _ _ _ D).
  change BPB with 8192. Z.div_mod_to_equations. lia.
Qed.

Lemma BBLOCK_inj sb v H b b' : disk_map sb v H -> 0 <= b < sb_size sb -> 0 <= b' < sb_size sb ->
  BBLOCK b sb = BBLOCK b' sb -> b / BPB = b' / BPB.
Proof. intros D Hb Hb'. rewrite (BBLOCK_eq sb v H b), (BBLOCK_eq sb v H b') by done. lia. Qed.

(** The bits after an allocation. *)
Lemma used_after sb v H r b : disk_map sb v H -> 0 <= r < sb_size sb -> used sb v r = false -> 0 <= b < sb_size sb ->
  used sb (alloc_view sb v r) b = (r =? b) || used sb v b.
Proof.
  intros D Hr Hu Hb. apply used_alloc; [lia|lia| |apply (dm_bm _ _ _ D r Hr)|by apply (BBLOCK_inj sb v H)].
  intros ->. destruct (dm_self _ _ _ D b Hb) as [_ Hs]. congruence.
Qed.

Lemma alloc_view_other sb v r b : b <> r -> b <> BBLOCK r sb -> alloc_view sb v r b = v b.
Proof. intros. unfold alloc_view. by rewrite !fupd_other. Qed.

Lemma length_alloc_view sb v r b : length (v b) = Z.to_nat BSIZE -> length (alloc_view sb v r b) = Z.to_nat BSIZE.
Proof.
  intros Hl. unfold alloc_view. destruct (decide (b = r)) as [->|Hr]; [by rewrite fupd_same|]. rewrite fupd_other by done.
  destruct (decide (b = BBLOCK r sb)) as [->|Hb]; [|by rewrite fupd_other]. rewrite fupd_same.
  unfold set_bit. by rewrite length_put8.
Qed.

Lemma disk_map_alloc sb v H r : disk_map sb v H -> 0 <= r < sb_size sb -> used sb v r = false ->
  disk_map sb (alloc_view sb v r) H.
Proof.
  intros D Hr Hu. pose proof D as [D1 D2 D3 D4 D5 D6]. split; try done.
  - intros b Hb. destruct (D3 b Hb) as [B1 B2 B3 B4]. split; try done. by apply length_alloc_view.
  - intros b Hb. destruct (D4 b Hb) as [Hs1 Hs2]. split; [done|]. rewrite (used_after sb v H) by done. by rewrite Hs2, orb_true_r.
  - intros b Hb Hub. rewrite (used_after sb v H) in Hub by done. apply orb_false_iff in Hub as [_ Hub]. by apply D5.
  - intros H0. rewrite (used_after sb v H) by (done || lia). by rewrite D6, orb_true_r.
Qed.

(** [balloc] in these terms. *)
Lemma balloc_map s v H L d p :
  txn s v H L d p -> disk_map (fs_sb s) v H -> (S (held_used H L) < NBUF)%nat ->
  Z.of_nat (length L) + 1 < size - 1 -> Z.of_nat (length L) + 1 < LOGSIZE ->
  exists r s', balloc dev s = Ret r s' /\ fkeeps dev s s' /\ same_rest s s' /\
    (r = 0 /\ txn s' v H L d p /\ (forall b, 0 <= b < sb_size (fs_sb s) -> used (fs_sb s) v b = true) \/
     0 < r < sb_size (fs_sb s) /\ used (fs_sb s) v r = false /\
       (forall b, 0 <= b < r -> used (fs_sb s) v b = true) /\
       txn s' (alloc_view (fs_sb s) v r) H (alloc_log (fs_sb s) L r) d p /\
       disk_map (fs_sb s) (alloc_view (fs_sb s) v r) H).
Proof.
  intros T D Hu HL1 HL2.
  destruct (balloc_ok dev start size s v H L d p T (dm_size _ _ _ D) Hu HL1 HL2) as (r & s' & E & K & R & Hr).
  - intros b Hb. destruct (dm_bm _ _ _ D b Hb). by split.
  - apply D.
  - exists r, s'. split; [done|]. split; [done|]. split; [done|].
    destruct Hr as [Hr|(Hr & Hur & Hlow & T')]; [by left|right].
    assert (r <> 0) by (intros ->; rewrite (dm_zero _ _ _ D) in Hur; [done|lia]).
    split; [lia|]. repeat (split; [done|]). by apply disk_map_alloc.
Qed.

(** The bits after a block is freed. *)
Lemma used_free sb v H r b : disk_map sb v H -> 0 <= r < sb_size sb -> 0 <= b < sb_size sb ->
  used sb (fupd v (BBLOCK r sb) (clear_bit (v (BBLOCK r sb)) (r mod BPB))) b = negb (r =? b) && used sb v b.
Proof.
  intros D Hr Hb. unfold used.
  pose proof (Z.mod_pos_bound b BPB ltac:(done)) as Hm. pose proof (Z.mod_pos_bound r BPB ltac:(done)) as Hm'.
  destruct (decide (BBLOCK b sb = BBLOCK r sb)) as [He|He].
  - rewrite He, fupd_same, bit_clear; try lia.
    + f_equal. f_equal. pose proof (BBLOCK_inj sb v H b r D Hb Hr He). change BPB with 8192 in *.
      destruct (Z.eqb_spec r b), (Z.eqb_spec (r mod 8192) (b mod 8192)); try done; [congruence|].
      exfalso. Z.div_mod_to_equations. lia.
    + rewrite (bm_len _ _ _ _ _ _ _ (dm_bm _ _ _ D r Hr)). change BPB with 8192 in *. unfold BSIZE. Z.div_mod_to_equations. lia.
  - rewrite fupd_other by done. replace (r =? b) with false; [done|]. symmetry. apply Z.eqb_neq. congruence.
Qed.

(** C27: Allocating a disk block and freeing it again restores the bitmap.
    [balloc] returns 0 exactly when every block is in use, and then changes
    nothing; otherwise it returns the lowest free block, zeroed and marked in
    use, with no other bit changed, and [bfree] of that block returns and
    leaves the bitmap as it was. *)
Theorem balloc_bfree s v H L d p :
  let sb := fs_sb s in
  txn s v H L d p -> disk_map sb v H -> (S (held_used H L) < NBUF)%nat ->
  Z.of_nat (length L) + 2 < size - 1 -> Z.of_nat (length L) + 2 < LOGSIZE ->
  exists r s1, balloc dev s = Ret r s1 /\
    (r = 0 /\ txn s1 v H L d p /\ (forall b, 0 <= b < sb_size sb -> used sb v b = true) \/
     0 < r < sb_size sb /\ used sb v r = false /\ (forall b, 0 <= b < r -> used sb v b = true) /\
     exists v1 L1, txn s1 v1 H L1 d p /\ v1 r = zero_block /\
       (forall b, 0 <= b < sb_size sb -> used sb v1 b = (r =? b) || used sb v b) /\
       exists s2 v2 L2, bfree dev r s1 = Ret tt s2 /\ txn s2 v2 H L2 d p /\
         forall b, 0 <= b < sb_size sb -> used sb v2 b = used sb v b).
Proof.
  intros sb T D Hu HL1 HL2. subst sb.
  destruct (balloc_map s v H L d p T D Hu ltac:(lia) ltac:(lia)) as (r & s1 & E & K & R & [Hr|(Hr & Hur & Hlow & T1 & D1)]);
    exists r, s1; (split; [done|]); [by left|right].
  set (sb := fs_sb s) in *.
  split; [done|]. split; [done|]. split; [done|].
  assert (forall b, 0 <= b < sb_size sb -> used sb (alloc_view sb v r) b = (r =? b) || used sb v b) as Hua.
  { intros b Hb. apply (used_after sb v H); try done. lia. }
  exists (alloc_view sb v r), (alloc_log sb L r). split; [done|]. split; [apply fupd_same|]. split; [done|].
  assert (fs_sb s1 = sb) as Hsb by apply R.
  assert (length (alloc_log sb L r) <= length L + 2)%nat as HlL.
  { unfold alloc_log. pose proof (length_logged r (logged (BBLOCK r sb) L)). pose proof (length_logged (BBLOCK r sb) L). lia. }
  pose proof (bfree_ok dev start size s1 _ H _ d p r T1 ltac:(lia)) as Hf. rewrite Hsb in Hf.
  rewrite Hua, Z.eqb_refl in Hf by lia. cbn [orb] in Hf.
  destruct Hf as (s2 & E2 & T2 & _).
  - destruct (dm_bm _ _ _ D1 r ltac:(lia)). by split.
  - left. unfold alloc_log. rewrite !elem_logged. tauto.
  - lia.
  - lia.
  - eexists s2, _, _. split; [done|]. split; [exact T2|]. intros b Hb. rewrite (used_free sb _ H) by (done || lia).
    rewrite Hua by done. destruct (Z.eqb_spec r b) as [->|]; cbn [negb andb orb]; [by rewrite Hur|done].
Qed.

End alloc.

Lemma disk_mapx : disk_map 2 30 sbx (disk_block diskx) [].
Proof.
  assert (forallb (fun b => used sbx (disk_block diskx) b) (map Z.of_nat (seq 0 40)) = true) as Hall
    by (vm_compute; reflexivity).
  rewrite forallb_forall in Hall.
  assert (forall b, 0 <= b < 40 -> used sbx (disk_block diskx) b = true) as Hused.
  { intros b Hb. apply Hall. apply in_map_iff. exists (Z.to_nat b). split; [lia|]. apply in_seq. lia. }
  assert (forall b, 0 <= b < sb_size sbx -> BBLOCK b sbx = 33) as HB.
  { intros b Hb. unfold BBLOCK. change BPB with 8192. cbn [sbx sb_size sb_bmapstart] in *. rewrite Z.div_small by lia. done. }
  split; try done.
  - intros b Hb. split; rewrite HB by done; [apply not_elem_of_nil|lia|unfold in_log; lia|apply blockx].
  - intros b Hb. rewrite HB by done. split; [cbn; lia|apply Hused; lia].
  - intros b Hb Hu. split; [apply not_elem_of_nil|]. intros Hl. unfold in_log in Hl. rewrite Hused in Hu by lia. done.
Qed.

Lemma balloc_bfree_witness : exists r s1 s2, balloc 1 fsx = Ret r s1 /\ 0 < r /\ bfree 1 r s1 = Ret tt s2.
Proof.
  destruct (balloc_bfree 1 2 30 fsx (disk_block diskx) [] [] diskx 1 txnx disk_mapx) as (r & s1 & E & Hr).
  - apply Nat.ltb_lt. reflexivity.
  - simpl. lia.
  - reflexivity.
  - exists r, s1. destruct Hr as [(_ & _ & Hall)|(Hr & _ & _ & v1 & L1 & _ & _ & _ & s2 & v2 & L2 & E2 & _)].
    + exfalso. clear E. specialize (Hall 50 ltac:(cbn; lia)). vm_compute in Hall. discriminate Hall.
    + exists s2. split; [exact E|]. split; [apply Hr|exact E2].
Defined.
