(* ===== verification/FsInode.v ===== *)
(** * Inodes on disk and in memory

    The struct dinode written by [iupdate] is the one [ilock] reads back, and
    writing one inode leaves the others of its block alone. *)

From S2P Require Import Prelude Memory KString Kalloc Vm Bytes Sleeplock Bio BioSpec Log LogSpec LogCommit LogRecover LogOps Fs FsTxn FsBitmap.

(** The fields of an inode have the range of their C types. *)
Record inode_ok (x : inode) : Prop := {
  io_type : - 2 ^ 15 <= i_type x < 2 ^ 15;
  io_major : - 2 ^ 15 <= i_major x < 2 ^ 15;
  io_minor : - 2 ^ 15 <= i_minor x < 2 ^ 15;
  io_nlink : - 2 ^ 15 <= i_nlink x < 2 ^ 15;
  io_size : 0 <= i_size x < 2 ^ 32;
  io_len : length (i_addrs x) = Z.to_nat (NDIRECT + 1);
  io_addrs : Forall (fun a => 0 <= a < 2 ^ 32) (i_addrs x)
}.

Lemma length_put_addrs a : forall d off, length (put_addrs a d off) = length d.
Proof. induction a as [|x a IH]; intros; [done|]. cbn [put_addrs]. by rewrite IH, length_put32. Qed.

Lemma get_le_put_addrs k a : forall d off off', 0 <= off -> off + 4 * Z.of_nat (length a) <= Z.of_nat (length d) ->
  0 <= off' -> off' + Z.of_nat k <= off \/ off + 4 * Z.of_nat (length a) <= off' ->
  get_le k (put_addrs a d off) off' = get_le k d off'.
Proof.
  induction a as [|x a IH]; intros d off off' H0 H1 H2 H3; [done|]. cbn [put_addrs]. simpl length in *.
  rewrite IH by (rewrite ?length_put32; lia). apply get_put_le_other; lia.
Qed.

Lemma get32_put_addrs a : forall d off i y, 0 <= off -> off + 4 * Z.of_nat (length a) <= Z.of_nat (length d) ->
  a !! i = Some y -> get32 (put_addrs a d off) (off + 4 * Z.of_nat i) = uint32 y.
Proof.
  induction a as [|x a IH]; intros d off i y H0 H1 Hi; [done|]. cbn [put_addrs]. simpl length in *.
  destruct i as [|i]; simpl in Hi.
  - injection Hi as ->. rewrite Z.mul_0_r, Z.add_0_r. unfold get32.
    rewrite get_le_put_addrs by (rewrite ?length_put32; lia). apply get32_put32; lia.
  - replace (off + 4 * Z.of_nat (S i)) with (off + 4 + 4 * Z.of_nat i) by lia.
    apply IH; rewrite ?length_put32; try done; lia.
Qed.

(** An access outside the 64 bytes at [off] does not see [put_dinode]. *)
Lemma get_le_put_dinode k x d off off' : length (i_addrs x) = Z.to_nat (NDIRECT + 1) ->
  0 <= off -> off + DINODE <= Z.of_nat (length d) -> 0 <= off' ->
  off' + Z.of_nat k <= off \/ off + DINODE <= off' ->
  get_le k (put_dinode x d off) off' = get_le k d off'.
Proof.
  intros Hl H0 H1 H2 H3. unfold DINODE, NDIRECT in *. unfold put_dinode.
  rewrite get_le_put_addrs by (rewrite ?length_put32, ?length_put16, ?Hl; lia).
  unfold put32, put16. rewrite !get_put_le_other by (rewrite ?length_put_le; lia). done.
Qed.

Lemma length_put_dinode x d off : length (put_dinode x d off) = length d.
Proof. unfold put_dinode. by rewrite length_put_addrs, length_put32, !length_put16. Qed.

(** Reading back what was written. *)
Lemma get_put_dinode x y d off : inode_ok x -> 0 <= off -> off + DINODE <= Z.of_nat (length d) ->
  get_dinode (put_dinode x d off) off y =
    Inode (i_dev y) (i_inum y) (i_ref y) (i_lock y) (i_valid y) (i_type x) (i_major x) (i_minor x)
      (i_nlink x) (i_size x) (i_addrs x).
Proof.
  intros [H1 H2 H3 H4 H5 H6 H7] H0 Hl. unfold DINODE, NDIRECT in *. unfold get_dinode. f_equal.
  - unfold di_type, put_dinode, get16. rewrite get_le_put_addrs by (rewrite ?length_put32, ?length_put16, ?H6; lia).
    fold (get16). change (get_le 2) with get16.
    rewrite get16_put32_other by (rewrite ?length_put16; lia). rewrite !get16_put16_other by (rewrite ?length_put16; lia).
    rewrite get16_put16 by lia. by apply int16_uint16.
  - unfold di_major, put_dinode, get16. rewrite get_le_put_addrs by (rewrite ?length_put32, ?length_put16, ?H6; lia).
    change (get_le 2) with get16.
    rewrite get16_put32_other by (rewrite ?length_put16; lia). rewrite !get16_put16_other by (rewrite ?length_put16; lia).
    rewrite get16_put16 by (rewrite ?length_put16; lia). by apply int16_uint16.
  - unfold di_minor, put_dinode, get16. rewrite get_le_put_addrs by (rewrite ?length_put32, ?length_put16, ?H6; lia).
    change (get_le 2) with get16.
    rewrite get16_put32_other by (rewrite ?length_put16; lia). rewrite !get16_put16_other by (rewrite ?length_put16; lia).
    rewrite get16_put16 by (rewrite ?length_put16; lia). by apply int16_uint16.
  - unfold di_nlink, put_dinode, get16. rewrite get_le_put_addrs by (rewrite ?length_put32, ?length_put16, ?H6; lia).
    change (get_le 2) with get16.
    rewrite get16_put32_other by (rewrite ?length_put16; lia).
    rewrite get16_put16 by (rewrite ?length_put16; lia). by apply int16_uint16.
  - unfold di_size, put_dinode, get32. rewrite get_le_put_addrs by (rewrite ?length_put32, ?length_put16, ?H6; lia).
    change (get_le 4) with get32.
    rewrite get32_put32 by (rewrite ?length_put16; lia). by apply uint32_small.
  - apply list_eq. intros i. destruct (i_addrs x !! i) as [a|] eqn:E.
    + assert (i < Z.to_nat (12 + 1))%nat as Hi by (rewrite <- H6; by eapply lookup_lt_Some).
      rewrite list_lookup_fmap, lookup_seq_lt by done. cbn [fmap option_fmap option_map]. f_equal.
      unfold di_addr, put_dinode. rewrite (get32_put_addrs _ _ _ _ a); try done.
      * apply uint32_small. eapply Forall_lookup_1 in H7; eauto.
      * lia.
      * rewrite length_put32, !length_put16, H6. lia.
    + apply lookup_ge_None_2. apply lookup_ge_None_1 in E. rewrite length_map, length_seq. unfold NDIRECT. lia.
Qed.

(** The other inodes of the block. *)
Lemma get_put_dinode_other x y d i j : length (i_addrs x) = Z.to_nat (NDIRECT + 1) ->
  length d = Z.to_nat BSIZE -> 0 <= i -> 0 <= j -> i mod IPB <> j mod IPB ->
  get_dinode (put_dinode x d (dinode_off i)) (dinode_off j) y = get_dinode d (dinode_off j) y.
Proof.
  intros Hl Hd Hi Hj Hne. unfold dinode_off. change IPB with 16 in *.
  pose proof (Z.mod_pos_bound i 16 ltac:(lia)) as Hmi. pose proof (Z.mod_pos_bound j 16 ltac:(lia)) as Hmj.
  assert (forall k off', j mod 16 * DINODE <= off' -> off' + Z.of_nat k <= j mod 16 * DINODE + DINODE ->
    get_le k (put_dinode x d (i mod 16 * DINODE)) off' = get_le k d off') as Hg.
  { intros k off' H1 H2. unfold BSIZE in Hd. unfold DINODE in *. apply get_le_put_dinode; unfold DINODE; try done; try lia. }
  unfold get_dinode, di_type, di_major, di_minor, di_nlink, di_size, get16, get32.
  unfold DINODE in *. f_equal; try (f_equal; apply Hg; lia); try (apply Hg; lia).
  apply map_ext_in. intros k Hk. apply in_seq in Hk. unfold di_addr, get32. apply Hg; unfold NDIRECT in Hk; lia.
Qed.
