(* ===== verification/FsInodeOps.v ===== *)
(** * Inodes on disk

    [iupdate] and [ilock] of kernel/fs.c on the contents of the disk: the
    first stores the cached copy of an inode, the second loads it. *)

From S2P Require Import Prelude Memory KString Kalloc Vm Bytes Sleeplock Bio BioSpec Log LogSpec LogCommit Fs FsTxn FsExample FsBitmap FsInode.

Lemma geti_seti s ip x jp : (ip < length (fs_itable s))%nat ->
  geti (seti s ip x) jp = if decide (jp = ip) then x else geti s jp.
Proof.
  intros Hip. unfold geti, seti. cbn [fs_itable]. case_decide as E.
  - subst. by rewrite list_lookup_insert_eq.
  - by rewrite list_lookup_insert_ne.
Qed.

Lemma seti_seti s ip x y : seti (seti s ip x) ip y = seti s ip y.
Proof. unfold seti. cbn. by rewrite list_insert_insert_eq. Qed.

Section inode.
Variables dev start size : Z.
Local Abbreviation txn := (txn dev start size).

(** The block of inode [inum] is free to be used by the running process. *)
Record iblock_ok (sb : superblock) (v : Z -> block) (H : list Z) (inum : Z) : Prop := {
  ib_held : IBLOCK inum sb ∉ H;
  ib_range : 0 <= IBLOCK inum sb < 2 ^ 31;
  ib_log : ~ in_log start size (IBLOCK inum sb);
  ib_len : length (v (IBLOCK inum sb)) = Z.to_nat BSIZE
}.

(** The contents of the disk after [iupdate] of inode [x]. *)
Definition iview (sb : superblock) (v : Z -> block) (x : inode) : Z -> block :=
  fupd v (IBLOCK (i_inum x) sb) (put_dinode x (v (IBLOCK (i_inum x) sb)) (dinode_off (i_inum x))).

Lemma iupdate_ok s v H L d p ip :
  let x := geti s ip in
  txn s v H L d p -> i_dev x = dev -> iblock_ok (fs_sb s) v H (i_inum x) -> room (IBLOCK (i_inum x) (fs_sb s)) H L ->
  Z.of_nat (length L) < size - 1 -> Z.of_nat (length L) < LOGSIZE ->
  exists s', iupdate ip s = Ret tt s' /\
    txn s' (iview (fs_sb s) v x) H (logged (IBLOCK (i_inum x) (fs_sb s)) L) d p /\ fkeeps dev s s' /\ same_rest s s'.
Proof.
  intros x T Hd [I1 I2 I3 I4] Hroom HL1 HL2. set (b := IBLOCK (i_inum x) (fs_sb s)) in *.
  destruct (fbread_ok dev start size s v H L d p b T I1 Hroom) as (bp & s1 & E1 & T1 & Hh1 & K1 & R1).
  pose proof (fbdata_ok dev start size s1 v _ L d p b bp T1 Hh1 ltac:(left)) as E2.
  destruct (fput_ok dev start size s1 v H L d p b bp (put_dinode x (v b) (dinode_off (i_inum x))) T1 Hh1)
    as (s2 & E3 & T2 & K2 & R2); try done.
  exists s2. split; [|split; [exact T2|split; [|by eapply same_rest_trans]]].
  - unfold iupdate. rewrite (kbind_ret getsb _ s (fs_sb s) s eq_refl), (kbind_ret (inget ip) _ s x s eq_refl), Hd.
    fold b. rewrite (kbind_ret _ _ _ _ _ E1), (kbind_ret _ _ _ _ _ E2). exact E3.
  - eapply fkeeps_chain; [exact T|exact K1|exact T1|exact K2|]. intros y. rewrite elem_of_cons. tauto.
Qed.

(** Locking an inode that is not cached loads it. *)
Lemma ilock_ok s v H L d p ip :
  let x := geti s ip in
  let b := IBLOCK (i_inum x) (fs_sb s) in
  txn s v H L d p -> (ip < length (fs_itable s))%nat -> i_dev x = dev -> 1 <= i_ref x ->
  sl_locked (i_lock x) = false -> i_valid x = false -> (b ∉ H) -> room b H L ->
  di_type (v b) (dinode_off (i_inum x)) <> 0 ->
  exists s', ilock ip s = Ret tt s' /\ txn s' v H L d p /\ fs_sb s' = fs_sb s /\
    geti s' ip = get_dinode (v b) (dinode_off (i_inum x)) (set_ivalid true (set_ilock (Sleeplock true p) x)).
Proof.
  intros x b T Hip Hd Hr Hl Hv HbH Hroom Ht. unfold ilock.
  rewrite (kbind_ret (inget ip) _ s x s eq_refl). replace (i_ref x <? 1) with false by (symmetry; apply Z.ltb_ge; lia).
  assert (bc_pid (ls_bio (fs_ls s)) = p) as Hpid by apply T.
  set (x1 := set_ilock (Sleeplock true p) x). set (s1 := seti s ip x1).
  assert (inlock ip acquiresleep s = Ret tt s1) as E1.
  { unfold inlock, acquiresleep. fold x. rewrite Hl, Hpid. done. }
  rewrite (kbind_ret _ _ _ _ _ E1).
  assert (geti s1 ip = x1) as Hx1 by (unfold s1; rewrite geti_seti by done; by rewrite decide_True).
  rewrite (kbind_ret (inget ip) _ s1 x1 s1); [|unfold inget; by rewrite Hx1]. change (i_valid x1) with (i_valid x). rewrite Hv. cbn [negb].
  rewrite (kbind_ret getsb _ s1 (fs_sb s) s1 eq_refl). change (i_dev x1) with (i_dev x). change (i_inum x1) with (i_inum x). rewrite Hd. fold b.
  assert (txn s1 v H L d p) as T1 by by destruct T.
  destruct (fbread_ok dev start size s1 v H L d p b T1 HbH Hroom) as (bp & s2 & E2 & T2 & Hh2 & K2 & R2).
  pose proof (fbdata_ok dev start size s2 v _ L d p b bp T2 Hh2 ltac:(left)) as E3.
  rewrite (kbind_ret _ _ _ _ _ E2), (kbind_ret _ _ _ _ _ E3).
  assert (fs_itable s2 = fs_itable s1) as Hit2 by apply R2.
  assert (length (fs_itable s1) = length (fs_itable s)) as Hlen1 by apply length_insert.
  assert (geti s2 ip = x1) as Hx2 by (unfold geti; rewrite Hit2; exact Hx1).
  set (y := get_dinode (v b) (dinode_off (i_inum x)) x1). set (s3 := seti s2 ip y).
  rewrite (kbind_ret (inmod ip _) _ s2 tt s3); [|unfold inmod; by rewrite Hx2].
  assert (txn s3 v (b :: H) L d p) as T3 by by destruct T2.
  destruct (fbrelse_ok dev start size s3 v H L d p b bp T3 Hh2) as (s4 & E4 & T4 & K4 & R4).
  { destruct (decide (b ∈ L)); [by left|]. right. by apply (txn_clean dev start size s v H L d p). }
  rewrite (kbind_ret _ _ _ _ _ E4).
  assert (fs_itable s4 = fs_itable s3) as Hit4 by apply R4.
  assert (ip < length (fs_itable s2))%nat as Hip2 by (rewrite Hit2, Hlen1; done).
  assert (geti s4 ip = y) as Hx4.
  { unfold geti. rewrite Hit4. fold (geti s3 ip). unfold s3. rewrite geti_seti by done. by rewrite decide_True. }
  set (s5 := seti s4 ip (set_ivalid true y)).
  rewrite (kbind_ret (inmod ip _) _ s4 tt s5); [|unfold inmod; by rewrite Hx4].
  assert (geti s5 ip = set_ivalid true y) as Hx5.
  { unfold s5. rewrite geti_seti; [by rewrite decide_True|]. rewrite Hit4. unfold s3, seti. cbn [fs_itable].
    by rewrite length_insert. }
  rewrite (kbind_ret (inget ip) _ s5 (set_ivalid true y) s5); [|unfold inget; by rewrite Hx5].
  cbn [set_ivalid y get_dinode i_type]. replace (di_type _ _ =? 0) with false by (symmetry; by apply Z.eqb_neq).
  exists s5. split; [done|]. split; [by destruct T4|]. split; [|exact Hx5].
  unfold s5. cbn [seti fs_sb]. rewrite (sr_sb _ _ R4). unfold s3. cbn [seti fs_sb]. by rewrite (sr_sb _ _ R2).
Qed.

(** C28: An inode written to disk is read back unchanged: after [iupdate] of
    an inode, locking any inode-table entry for the same inode that is not
    valid, in this slot or another one, loads the type, device numbers, link
    count, size and block addresses that were written. *)
Theorem iupdate_ilock s v H L d p ip jp y :
  let x := geti s ip in
  txn s v H L d p -> i_dev x = dev -> inode_ok x -> i_type x <> 0 ->
  iblock_ok (fs_sb s) v H (i_inum x) -> (S (held_used H L) < NBUF)%nat ->
  Z.of_nat (length L) < size - 1 -> Z.of_nat (length L) < LOGSIZE ->
  (jp < length (fs_itable s))%nat -> i_dev y = dev -> i_inum y = i_inum x -> 1 <= i_ref y ->
  sl_locked (i_lock y) = false -> i_valid y = false ->
  exists s1 s2, iupdate ip s = Ret tt s1 /\ ilock jp (seti s1 jp y) = Ret tt s2 /\
    geti s2 jp = Inode dev (i_inum x) (i_ref y) (Sleeplock true p) true (i_type x) (i_major x) (i_minor x)
      (i_nlink x) (i_size x) (i_addrs x).
Proof.
  intros x T Hd Hx Htx Hib Hu HL1 HL2 Hjp Hyd Hyi Hyr Hyl Hyv. pose proof Hib as [I1 I2 I3 I4].
  destruct (iupdate_ok s v H L d p ip T Hd Hib) as (s1 & E1 & T1 & _ & R1); [right; lia|done|done|]. fold x in T1.
  exists s1. set (s1' := seti s1 jp y).
  assert (jp < length (fs_itable s1))%nat as Hjp1 by (by rewrite (sr_itable _ _ R1)).
  assert (geti s1' jp = y) as Hg by (unfold s1'; rewrite geti_seti by done; by rewrite decide_True).
  assert (fs_sb s1' = fs_sb s) as Hsb by apply R1.
  assert (0 <= dinode_off (i_inum x) /\ dinode_off (i_inum x) + DINODE <= BSIZE) as [Ho1 Ho2].
  { unfold dinode_off. pose proof (Z.mod_pos_bound (i_inum x) IPB ltac:(done)). change IPB with 16 in *. unfold DINODE, BSIZE. lia. }
  assert (forall z, get_dinode (iview (fs_sb s) v x (IBLOCK (i_inum x) (fs_sb s))) (dinode_off (i_inum x)) z =
    Inode (i_dev z) (i_inum z) (i_ref z) (i_lock z) (i_valid z) (i_type x) (i_major x) (i_minor x)
      (i_nlink x) (i_size x) (i_addrs x)) as Hget.
  { intros z. unfold iview. rewrite fupd_same. apply get_put_dinode; [done|done|]. rewrite I4. unfold BSIZE in *. lia. }
  pose proof (Hget y) as Hty. apply (f_equal i_type) in Hty. cbn [get_dinode i_type] in Hty.
  destruct (ilock_ok s1' (iview (fs_sb s) v x) H (logged (IBLOCK (i_inum x) (fs_sb s)) L) d p jp) as (s2 & E2 & _ & _ & G2);
    rewrite ?Hg, ?Hsb, ?Hyi; try done.
  - by destruct T1.
  - unfold s1', seti. cbn [fs_itable]. by rewrite length_insert.
  - left. apply elem_logged. tauto.
  - by rewrite Hty.
  - exists s2. split; [done|]. split; [done|]. rewrite G2, Hg, Hsb, Hyi, Hget. cbn. by rewrite Hyd, Hyi.
Qed.

End inode.

Lemma inodex_ok : inode_ok (geti fsx 0).
Proof. split; try done. repeat constructor; done. Qed.

Lemma iblockx_ok inum : 0 <= inum < 16 -> iblock_ok 2 30 sbx (disk_block diskx) [] inum.
Proof.
  intros Hi. assert (IBLOCK inum sbx = 32) as Hb.
  { unfold IBLOCK. change IPB with 16. cbn [sbx sb_inodestart]. rewrite Z.div_small by lia. done. }
  split; rewrite Hb; [apply not_elem_of_nil|lia|unfold in_log; lia|apply blockx].
Qed.

Lemma iupdate_ilock_witness : exists s1 s2,
  iupdate 0 fsx = Ret tt s1 /\ ilock 2 (seti s1 2 (Inode 1 2 1 initsleeplock false 0 0 0 0 0 [])) = Ret tt s2 /\
  geti s2 2 = Inode 1 2 1 (Sleeplock true 1) true T_FILE 0 0 1 5 (addrsx 35).
Proof.
  destruct (iupdate_ilock 1 2 30 fsx (disk_block diskx) [] [] diskx 1 0 2 (Inode 1 2 1 initsleeplock false 0 0 0 0 0 []) txnx)
    as (s1 & s2 & E1 & E2 & E3); try reflexivity.
  - apply inodex_ok.
  - discriminate.
  - apply (iblockx_ok 2). lia.
  - apply Nat.ltb_lt. reflexivity.
  - apply Nat.ltb_lt. reflexivity.
  - exists s1, s2. split; [exact E1|]. split; [exact E2|exact E3].
Defined.
