(* ===== verification/FsRead.v ===== *)
(** * Reading files

    [bmap] finds the blocks of a file, [readi] returns exactly the bytes of
    the file in the range asked for. *)

From S2P Require Import Prelude Memory KString Kalloc Vm Bytes Sleeplock Bio BioSpec Log LogSpec LogCommit LogRecover LogOps Fs FsFile FsTxn FsExample FsBitmap FsInode.

(** The address of block [bn] of the file of inode [x], 0 for a hole. *)
Definition baddr (v : Z -> block) (x : inode) (bn : Z) : Z :=
  if bn <? NDIRECT then iaddr x bn
  else if iaddr x NDIRECT =? 0 then 0
  else get32 (v (iaddr x NDIRECT)) (4 * (bn - NDIRECT)).

(** Byte [o] of the file, and [n] bytes from [off] on. *)
Definition fbyte (v : Z -> block) (x : inode) (o : Z) : Z :=
  nth (Z.to_nat (o mod BSIZE)) (v (baddr v x (o / BSIZE))) 0.
Definition fbytes (v : Z -> block) (x : inode) (off n : Z) : list Z :=
  map (fun i => fbyte v x (off + Z.of_nat i)) (seq 0 (Z.to_nat n)).

Lemma fbytes_app v x off n m : 0 <= n -> 0 <= m ->
  fbytes v x off (n + m) = fbytes v x off n ++ fbytes v x (off + n) m.
Proof.
  intros Hn Hm. unfold fbytes. rewrite Z2Nat.inj_add, seq_app, map_app by done. f_equal.
  rewrite Nat.add_0_l, <- (Nat.add_0_r (Z.to_nat n)) at 1. rewrite <- fmap_add_seq, map_map.
  apply map_ext. intros i. f_equal. lia.
Qed.

Lemma length_fbytes v x off n : length (fbytes v x off n) = Z.to_nat n.
Proof. unfold fbytes. by rewrite length_map, length_seq. Qed.

(** The part of a block that holds a piece of the file. *)
Lemma sub_fbytes v x off m :
  0 <= off -> 0 <= m -> off mod BSIZE + m <= BSIZE -> length (v (baddr v x (off / BSIZE))) = Z.to_nat BSIZE ->
  sub (v (baddr v x (off / BSIZE))) (off mod BSIZE) m = fbytes v x off m.
Proof.
  intros Ho Hm Hfit Hlen. apply list_eq. intros i. unfold sub, fbytes.
  pose proof (Z.mod_pos_bound off BSIZE ltac:(done)) as Hmod.
  destruct (decide (i < Z.to_nat m)%nat) as [Hi|Hi].
  - rewrite lookup_take, decide_True, lookup_drop by lia.
    rewrite list_lookup_fmap, lookup_seq_lt by done. cbn [fmap option_fmap option_map].
    unfold fbyte. unfold BSIZE in *.
    assert ((off + Z.of_nat (0 + i)) / 1024 = off / 1024 /\ (off + Z.of_nat (0 + i)) mod 1024 = off mod 1024 + Z.of_nat i) as [-> ->]
      by (Z.div_mod_to_equations; lia).
    rewrite nth_lookup. replace (Z.to_nat (off mod 1024 + Z.of_nat i)) with (Z.to_nat (off mod 1024) + i)%nat by lia.
    destruct (lookup_lt_is_Some_2 (v (baddr v x (off / 1024))) (Z.to_nat (off mod 1024) + i)%nat) as [y Hy]; [lia|].
    by rewrite Hy.
  - rewrite lookup_take, decide_False by lia. symmetry. apply lookup_ge_None_2. rewrite length_map, length_seq. lia.
Qed.

Section read.
Variables dev start size : Z.
Local Abbreviation txn := (txn dev start size).

(** Block [bn] of the file is there and can be read. *)
Record block_ok (v : Z -> block) (x : inode) (H : list Z) (bn : Z) : Prop := {
  bk_addr : baddr v x bn <> 0;
  bk_held : baddr v x bn ∉ H;
  bk_len : length (v (baddr v x bn)) = Z.to_nat BSIZE;
  bk_ind : NDIRECT <= bn -> iaddr x NDIRECT ∉ H
}.

Lemma bmap_mapped s v H L d p ip bn :
  txn s v H L d p -> i_dev (geti s ip) = dev -> 0 <= bn < MAXFILE -> block_ok v (geti s ip) H bn ->
  (held_used H L < NBUF)%nat ->
  exists s', bmap ip bn s = Ret (baddr v (geti s ip) bn) s' /\ txn s' v H L d p /\ fkeeps dev s s' /\ same_rest s s'.
Proof.
  intros T Hd Hbn [B1 B2 B3 B4] Hu. set (x := geti s ip) in *. unfold bmap.
  rewrite (kbind_ret (inget ip) _ s x s eq_refl). unfold baddr in *.
  destruct (bn <? NDIRECT) eqn:E.
  - replace (iaddr x bn =? 0) with false by (symmetry; by apply Z.eqb_neq).
    exists s. split; [done|]. split; [done|]. split; [apply keeps_refl|apply same_rest_refl].
  - apply Z.ltb_ge in E. cbv zeta.
    replace (bn - NDIRECT <? NINDIRECT) with true by (symmetry; apply Z.ltb_lt; unfold MAXFILE in Hbn; lia).
    destruct (iaddr x NDIRECT =? 0) eqn:E0; [done|].
    rewrite (kbind_ret (kret _) _ s (iaddr x NDIRECT) s eq_refl), E0, Hd.
    set (a := iaddr x NDIRECT) in *.
    destruct (fbread_ok dev start size s v H L d p a T (B4 E)) as (bp & s1 & E1 & T1 & Hh1 & K1 & R1); [right; done|].
    pose proof (fbdata_ok dev start size s1 v _ L d p a bp T1 Hh1 ltac:(left)) as E2.
    rewrite (kbind_ret _ _ _ _ _ E1), (kbind_ret _ _ _ _ _ E2).
    replace (get32 (v a) (4 * (bn - NDIRECT)) =? 0) with false by (symmetry; by apply Z.eqb_neq).
    rewrite (kbind_ret (kret _) _ s1 (get32 (v a) (4 * (bn - NDIRECT))) s1 eq_refl).
    destruct (fbrelse_ok dev start size s1 v H L d p a bp T1 Hh1) as (s2 & E3 & T2 & K2 & R2).
    { destruct (decide (a ∈ L)); [by left|]. right. apply (txn_clean dev start size s v H L d p); try done. by apply B4. }
    rewrite (kbind_ret _ _ _ _ _ E3). exists s2. split; [done|]. split; [done|]. split; [|by eapply same_rest_trans].
    eapply fkeeps_chain; [exact T|exact K1|exact T1|exact K2|]. intros y. rewrite elem_of_cons. tauto.
Qed.

Lemma geti_rest s s' ip : same_rest s s' -> geti s' ip = geti s ip.
Proof. intros R. unfold geti. by rewrite (sr_itable _ _ R). Qed.

Section loop.
Context `{I : KernelImage}.

Lemma readi_loop_S fuel ip user_dst dst off tot n acc :
  readi_loop (S fuel) ip user_dst dst off tot n acc =
      (if tot <? n then
        addr <- bmap ip (off / BSIZE) ;;
        if addr =? 0 then kret (tot, acc)
        else
          x <- inget ip ;;
          bp <- fbread (i_dev x) addr ;;
          d <- fbdata bp ;;
          let m := Z.min (n - tot) (BSIZE - off mod BSIZE) in
          let bs := sub d (off mod BSIZE) m in
          r <- either_copyout user_dst dst bs ;;
          if r =? -1 then fbrelse bp ;;; kret (-1, acc)
          else
            fbrelse bp ;;;
            readi_loop fuel ip user_dst (uint64 (dst + m)) (uint32 (off + m)) (tot + m) n (acc ++ bs)
      else kret (tot, acc)).
Proof. reflexivity. Qed.

Lemma readi_loop_ok fuel : forall s v H L d p ip dst off tot n acc,
  let x := geti s ip in
  txn s v H L d p -> i_dev x = dev -> 0 <= off -> tot <= n -> off + (n - tot) <= MAXFILE * BSIZE ->
  (forall o, off <= o < off + (n - tot) -> block_ok v x H (o / BSIZE)) ->
  (held_used H L < NBUF)%nat ->
  tot = n \/ off mod BSIZE + (n - tot) <= (Z.of_nat fuel - 1) * BSIZE -> (0 < fuel)%nat ->
  exists s', readi_loop fuel ip false dst off tot n acc s = Ret (n, acc ++ fbytes v x off (n - tot)) s' /\
    txn s' v H L d p /\ fkeeps dev s s' /\ same_rest s s'.
Proof.
  induction fuel as [|fuel IH]; intros s v H L d p ip dst off tot n acc x T Hd Ho Ht Hmax Hok Hu Hf Hf0; [lia|].
  rewrite readi_loop_S. destruct (tot <? n) eqn:E.
  2:{ apply Z.ltb_ge in E. assert (tot = n) as -> by lia. exists s.
      replace (n - n) with 0 by lia. unfold fbytes. cbn [Z.to_nat seq map]. rewrite app_nil_r.
      split; [done|]. split; [done|]. split; [apply keeps_refl|apply same_rest_refl]. }
  apply Z.ltb_lt in E. pose proof (Z.mod_pos_bound off BSIZE ltac:(done)) as Hmod.
  assert (block_ok v x H (off / BSIZE)) as Hbk by (apply Hok; lia).
  assert (0 <= off / BSIZE < MAXFILE) as Hbn.
  { change (MAXFILE * BSIZE) with 274432 in Hmax. change MAXFILE with 268. unfold BSIZE. Z.div_mod_to_equations. lia. }
  destruct (bmap_mapped s v H L d p ip (off / BSIZE) T Hd Hbn Hbk Hu) as (s1 & E1 & T1 & K1 & R1). fold x in E1.
  rewrite (kbind_ret _ _ _ _ _ E1). destruct Hbk as [B1 B2 B3 B4].
  set (a := baddr v x (off / BSIZE)) in *.
  replace (a =? 0) with false by (symmetry; by apply Z.eqb_neq).
  rewrite (kbind_ret (inget ip) _ s1 x s1); [|unfold inget; by rewrite (geti_rest s s1)].
  rewrite Hd.
  destruct (fbread_ok dev start size s1 v H L d p a T1 B2) as (bp & s2 & E2 & T2 & Hh2 & K2 & R2); [by right|].
  pose proof (fbdata_ok dev start size s2 v _ L d p a bp T2 Hh2 ltac:(left)) as E3.
  rewrite (kbind_ret _ _ _ _ _ E2), (kbind_ret _ _ _ _ _ E3). cbv zeta.
  set (m := Z.min (n - tot) (BSIZE - off mod BSIZE)).
  rewrite (kbind_ret (either_copyout false dst _) _ s2 0 s2 eq_refl). cbn [Z.eqb].
  destruct (fbrelse_ok dev start size s2 v H L d p a bp T2 Hh2) as (s3 & E4 & T3 & K3 & R3).
  { destruct (decide (a ∈ L)); [by left|]. right. by apply (txn_clean dev start size s v H L d p). }
  rewrite (kbind_ret _ _ _ _ _ E4).
  assert (same_rest s s3) as R13 by (eapply same_rest_trans; [exact R1|]; by eapply same_rest_trans).
  change (MAXFILE * BSIZE) with 274432 in *.
  rewrite uint32_small by (unfold m, BSIZE in *; lia).
  assert (geti s3 ip = x) as Hx3 by (by apply geti_rest).
  assert (sub (v a) (off mod BSIZE) m = fbytes v x off m) as -> by (apply sub_fbytes; unfold m in *; try done; lia).
  destruct (IH s3 v H L d p ip (uint64 (dst + m)) (off + m) (tot + m) n (acc ++ fbytes v x off m))
    as (s4 & E5 & T4 & K4 & R4); rewrite ?Hx3; try done; try (unfold m; lia).
  { intros o Hoo. apply Hok. unfold m in Hoo. lia. }
  { unfold m, BSIZE in *.
    assert (tot + Z.min (n - tot) (1024 - off mod 1024) = n \/
      (off + Z.min (n - tot) (1024 - off mod 1024)) mod 1024 = 0) as [Hc|Hc]
      by (Z.div_mod_to_equations; lia); [by left|right]. rewrite Hc. lia. }
  rewrite Hx3 in E5. exists s4. split.
  { rewrite E5. f_equal. f_equal. rewrite <- app_assoc. f_equal.
    rewrite <- fbytes_app by (unfold m; lia). f_equal. lia. }
  split; [done|]. split; [|by eapply same_rest_trans].
  eapply fkeeps_chain; [exact T| |exact T3|exact K4|done].
  eapply fkeeps_chain; [exact T|exact K1|exact T1| |done].
  eapply fkeeps_chain; [exact T1|exact K2|exact T2|exact K3|]. intros y. rewrite elem_of_cons. tauto.
Qed.

Lemma readi_ok s v H L d p ip dst off n :
  let x := geti s ip in
  txn s v H L d p -> i_dev x = dev -> 0 <= off <= i_size x -> 0 <= n -> off + n < 2 ^ 32 ->
  i_size x <= MAXFILE * BSIZE ->
  (forall bn, 0 <= bn -> bn * BSIZE < i_size x -> block_ok v x H bn) -> (held_used H L < NBUF)%nat ->
  let m := Z.min n (i_size x - off) in
  exists s', readi ip false dst off n s = Ret (m, fbytes v x off m) s' /\
    txn s' v H L d p /\ fkeeps dev s s' /\ same_rest s s'.
Proof.
  intros x T Hd Ho Hn H32 Hsz Hok Hu m. unfold readi. rewrite (kbind_ret (inget ip) _ s x s eq_refl).
  replace (i_size x <? off) with false by (symmetry; apply Z.ltb_ge; lia). cbn [orb].
  rewrite uint32_small by lia. replace (off + n <? off) with false by (symmetry; apply Z.ltb_ge; lia). cbv zeta.
  assert ((if i_size x <? off + n then i_size x - off else n) = m) as ->.
  { unfold m. destruct (i_size x <? off + n) eqn:E; [apply Z.ltb_lt in E|apply Z.ltb_ge in E]; lia. }
  pose proof (Z.mod_pos_bound off BSIZE ltac:(done)) as Hmod.
  destruct (readi_loop_ok (S (S (Z.to_nat (m / BSIZE + 1)))) s v H L d p ip dst off 0 m [])
    as (s' & E1 & T1 & K1 & R1); try done; try (unfold m; lia).
  - intros o Hoo. fold x. apply Hok; unfold m, BSIZE in *; Z.div_mod_to_equations; lia.
  - right. unfold m, BSIZE in *. Z.div_mod_to_equations. lia.
  - rewrite Z.sub_0_r in E1. by exists s'.
Qed.

(** C24: Reading a file returns its bytes.  On an inode whose blocks are
    mapped, [readi] into a kernel buffer returns the number of bytes from
    [off] to the end of the file, at most [n], and delivers exactly those
    bytes, through direct and indirect blocks, whatever the offset; the
    cache, the log and the inode are left as they were. *)
Theorem readi_reads s v H L d p ip dst off n :
  let x := geti s ip in
  txn s v H L d p -> i_dev x = dev -> 0 <= off <= i_size x -> 0 <= n -> off + n < 2 ^ 32 ->
  i_size x <= MAXFILE * BSIZE ->
  (forall bn, 0 <= bn -> bn * BSIZE < i_size x -> block_ok v x H bn) -> (held_used H L < NBUF)%nat ->
  exists bs s', readi ip false dst off n s = Ret (Z.of_nat (length bs), bs) s' /\
    Z.of_nat (length bs) = Z.min n (i_size x - off) /\
    (forall i b, bs !! i = Some b -> b = fbyte v x (off + Z.of_nat i)) /\
    txn s' v H L d p /\ same_rest s s'.
Proof.
  intros x T Hd Ho Hn H32 Hsz Hok Hu.
  destruct (readi_ok s v H L d p ip dst off n T Hd Ho Hn H32 Hsz Hok Hu) as (s' & E & T' & _ & R). fold x in E.
  set (m := Z.min n (i_size x - off)) in *. exists (fbytes v x off m), s'.
  rewrite length_fbytes, Z2Nat.id by (unfold m; lia). split; [done|]. split; [done|]. split; [|done].
  intros i b Hb. unfold fbytes in Hb. apply list_lookup_fmap_Some in Hb as (j & -> & [-> _]%lookup_seq). done.
Qed.

End loop.
End read.

Lemma readi_reads_witness : exists bs s', readi 0 false 0 0 5 fsx = Ret (Z.of_nat (length bs), bs) s' /\
  Z.of_nat (length bs) = 5 /\ forall i b, bs !! i = Some b -> b = fbyte (disk_block diskx) (geti fsx 0) (0 + Z.of_nat i).
Proof.
  destruct (readi_reads 1 2 30 fsx (disk_block diskx) [] [] diskx 1 0 0 0 5 txnx) as (bs & s' & E & Hl & Hb & _);
    try reflexivity; try (cbn; lia).
  - discriminate.
  - intros bn Hb0 Hb1. assert (bn = 0) as -> by (unfold BSIZE in Hb1; cbn in Hb1; lia).
    split; [discriminate|apply not_elem_of_nil|apply blockx|]. intros _. apply not_elem_of_nil.
  - apply Nat.ltb_lt. reflexivity.
  - exists bs, s'. split; [exact E|]. split; [exact Hl|exact Hb].
Defined.
