(* ===== verification/FsBlocks.v ===== *)
(** * The blocks of a file

    Which blocks of the disk belong to a file, and what allocating one more
    block for it changes: [file_wf] is the invariant of the addresses of an
    inode, [grown] what a client may rely on while blocks are added. *)

From S2P Require Import Prelude Memory KString Kalloc Vm Bytes Sleeplock Bio BioSpec Log LogSpec LogCommit Fs FsFile FsTxn FsBitmap FsAlloc FsRead.

(** The blocks of a file: block [k] of its data, and as the last one the block
    of indirect addresses. *)
Definition fslot (v : Z -> block) (x : inode) (k : Z) : Z :=
  if k =? MAXFILE then iaddr x NDIRECT else baddr v x k.

(** The contents of block [bn] of the file. *)
Definition fblock (v : Z -> block) (x : inode) (bn : Z) : option block :=
  if baddr v x bn =? 0 then None else Some (v (baddr v x bn)).

Section blocks.
Variables start size : Z.

(** A block that the bitmap says is in use, outside log and bitmap. *)
Record data_block (sb : superblock) (v : Z -> block) (H : list Z) (a : Z) : Prop := {
  db_range : 0 < a < sb_size sb;
  db_used : used sb v a = true;
  db_held : a ∉ H;
  db_log : ~ in_log start size a;
  db_len : length (v a) = Z.to_nat BSIZE;
  db_bm : forall b, 0 <= b < sb_size sb -> a <> BBLOCK b sb
}.

(** The blocks of the file are data blocks, all different. *)
Record file_wf (sb : superblock) (v : Z -> block) (H : list Z) (x : inode) : Prop := {
  fw_len : length (i_addrs x) = Z.to_nat (NDIRECT + 1);
  fw_data : forall k, 0 <= k <= MAXFILE -> fslot v x k <> 0 -> data_block sb v H (fslot v x k);
  fw_inj : forall k k', 0 <= k <= MAXFILE -> 0 <= k' <= MAXFILE -> fslot v x k <> 0 ->
    fslot v x k = fslot v x k' -> k = k'
}.

(** A block in use that is neither the file's nor the bitmap's. *)
Record foreign (sb : superblock) (v : Z -> block) (x : inode) (b : Z) : Prop := {
  fo_range : 0 < b < sb_size sb;
  fo_used : used sb v b = true;
  fo_bm : forall b', 0 <= b' < sb_size sb -> b <> BBLOCK b' sb;
  fo_file : forall k, 0 <= k <= MAXFILE -> fslot v x k <> b
}.

(** Only the addresses of the inode change. *)
Definition with_addrs (x : inode) (a : list Z) : inode :=
  Inode (i_dev x) (i_inum x) (i_ref x) (i_lock x) (i_valid x) (i_type x) (i_major x) (i_minor x)
    (i_nlink x) (i_size x) a.

(** Nothing but the file changes, and its blocks stay where they are. *)
Record frame (sb : superblock) (v v' : Z -> block) (x x' : inode) : Prop := {
  fr_slots : forall k, 0 <= k <= MAXFILE -> fslot v x k <> 0 -> fslot v' x' k = fslot v x k;
  fr_other : forall b, foreign sb v x b -> v' b = v b /\ foreign sb v' x' b;
  fr_inode : x' = with_addrs x (i_addrs x')
}.

(** The file has the blocks it had, and perhaps more, filled with zeros. *)
Definition grown (v v' : Z -> block) (x x' : inode) : Prop :=
  forall bn, 0 <= bn < MAXFILE ->
    fblock v' x' bn = fblock v x bn \/ fblock v x bn = None /\ fblock v' x' bn = Some zero_block.

Lemma frame_refl sb v x : frame sb v v x x.
Proof. split; [done|done|by destruct x]. Qed.

Lemma frame_trans sb v1 v2 v3 x1 x2 x3 : frame sb v1 v2 x1 x2 -> frame sb v2 v3 x2 x3 -> frame sb v1 v3 x1 x3.
Proof.
  intros [A0 A1 A2] [B0 B1 B2]. split.
  - intros k Hk Hn. rewrite B0, A0; [done|done|done|done|]. by rewrite A0.
  - intros b Hb. destruct (A1 b Hb) as [E1 F1]. destruct (B1 b F1) as [E2 F2]. split; [congruence|done].
  - rewrite B2, A2. done.
Qed.

Lemma grown_refl v x : grown v v x x.
Proof. by left. Qed.

Lemma grown_trans v1 v2 v3 x1 x2 x3 : grown v1 v2 x1 x2 -> grown v2 v3 x2 x3 -> grown v1 v3 x1 x3.
Proof.
  intros A B bn Hbn. destruct (A bn Hbn) as [E1|[E1 E1']], (B bn Hbn) as [E2|[E2 E2']].
  - left. congruence.
  - right. split; congruence.
  - right. split; congruence.
  - congruence.
Qed.

Lemma fslot_block v x bn : 0 <= bn < MAXFILE -> fslot v x bn = baddr v x bn.
Proof. intros H. unfold fslot. by replace (bn =? MAXFILE) with false by (symmetry; apply Z.eqb_neq; lia). Qed.

Lemma fslot_ind v x : fslot v x MAXFILE = iaddr x NDIRECT.
Proof. unfold fslot. by rewrite Z.eqb_refl. Qed.

(** A block of a well-formed file can be read. *)
Lemma wf_block_ok sb v H x bn : file_wf sb v H x -> 0 <= bn < MAXFILE -> baddr v x bn <> 0 -> block_ok v x H bn.
Proof.
  intros W Hbn Ha. pose proof (fw_data _ _ _ _ W bn ltac:(lia)) as D. rewrite fslot_block in D by done. specialize (D Ha).
  split; [done|apply D|apply D|]. intros Hi. unfold baddr in Ha.
  replace (bn <? NDIRECT) with false in Ha by (symmetry; apply Z.ltb_ge; lia).
  destruct (iaddr x NDIRECT =? 0) eqn:E; [done|]. apply Z.eqb_neq in E.
  pose proof (fw_data _ _ _ _ W MAXFILE ltac:(done)) as D'. rewrite fslot_ind in D'. by apply D'.
Qed.

(** ** One more block *)

(** Block [r], free before, becomes slot [k0] of the file. *)
Record alloc_step (sb : superblock) (v v' : Z -> block) (x x' : inode) (r k0 : Z) : Prop := {
  al_range : 0 < r < sb_size sb;
  al_free : used sb v r = false;
  al_used : forall b, 0 <= b < sb_size sb -> used sb v' b = (r =? b) || used sb v b;
  al_len : forall b, length (v b) = Z.to_nat BSIZE -> length (v' b) = Z.to_nat BSIZE;
  al_same : forall b, b <> r -> b <> BBLOCK r sb -> b <> iaddr x NDIRECT -> v' b = v b;
  al_zero : v' r = zero_block;
  al_slot : 0 <= k0 <= MAXFILE;
  al_old : fslot v x k0 = 0;
  al_new : fslot v' x' k0 = r;
  al_slots : forall k, 0 <= k <= MAXFILE -> k <> k0 -> fslot v' x' k = fslot v x k;
  al_inode : x' = with_addrs x (i_addrs x');
  al_addrs : length (i_addrs x') = length (i_addrs x)
}.

Section step.
Variables (sb : superblock) (v v' : Z -> block) (H : list Z) (x x' : inode) (r k0 : Z).
Hypothesis D : disk_map start size sb v H.
Hypothesis W : file_wf sb v H x.
Hypothesis A : alloc_step sb v v' x x' r k0.

(** The new block is none of the file's old ones. *)
Lemma step_fresh k : 0 <= k <= MAXFILE -> fslot v x k <> r.
Proof.
  intros Hk E. pose proof (al_range _ _ _ _ _ _ _ A). pose proof (al_free _ _ _ _ _ _ _ A) as Hf.
  rewrite <- E in Hf. rewrite (db_used _ _ _ _ (fw_data _ _ _ _ W k Hk ltac:(lia))) in Hf. done.
Qed.

Lemma step_data a : data_block sb v H a -> data_block sb v' H a.
Proof.
  intros [D1 D2 D3 D4 D5 D6]. split; try done.
  - rewrite (al_used _ _ _ _ _ _ _ A) by lia. by rewrite D2, orb_true_r.
  - by apply A.
Qed.

Lemma step_new : data_block sb v' H r.
Proof.
  pose proof (al_range _ _ _ _ _ _ _ A) as Hr. pose proof (al_free _ _ _ _ _ _ _ A) as Hf.
  destruct (dm_free _ _ _ _ _ D r ltac:(lia) Hf) as [Hh Hl]. split; try done.
  - rewrite (al_used _ _ _ _ _ _ _ A) by lia. by rewrite Z.eqb_refl.
  - by rewrite (al_zero _ _ _ _ _ _ _ A).
  - intros b Hb ->. destruct (dm_self _ _ _ _ _ D b Hb) as [_ E]. congruence.
Qed.

Lemma step_wf : file_wf sb v' H x'.
Proof.
  pose proof A as [A1 A2 A3 A4 A5 A6 A7 A8 A9 A10 A11 A12]. split.
  - rewrite A12. apply W.
  - intros k Hk Hn. destruct (decide (k = k0)) as [->|Hne]; [rewrite A9; apply step_new|].
    rewrite A10 in * by done. apply step_data. by apply W.
  - intros k k' Hk Hk' Hn E. destruct (decide (k = k0)) as [->|Hne], (decide (k' = k0)) as [->|Hne']; try done.
    + rewrite A9, A10 in E by done. by destruct (step_fresh k' Hk').
    + rewrite A9, A10 in E by done. by destruct (step_fresh k Hk).
    + rewrite A10 in E, Hn by done. rewrite A10 in E by done. by apply W.
Qed.

Lemma step_frame : frame sb v v' x x'.
Proof.
  pose proof A as [A1 A2 A3 A4 A5 A6 A7 A8 A9 A10 A11 A12]. split; [| |done].
  { intros k Hk Hn. apply A10; [done|]. by intros ->. }
  intros b [F1 F2 F3 F4].
  assert (b <> r) as Hbr by congruence. split.
  - apply A5; [done|apply F3; lia|]. intros ->. apply (F4 MAXFILE); [done|]. apply fslot_ind.
  - split; [done| |done|].
    + rewrite A3 by lia. by rewrite F2, orb_true_r.
    + intros k Hk. destruct (decide (k = k0)) as [->|]; [congruence|]. rewrite A10 by done. by apply F4.
Qed.

Lemma step_grown : grown v v' x x'.
Proof.
  pose proof A as [A1 A2 A3 A4 A5 A6 A7 A8 A9 A10 A11 A12]. intros bn Hbn. unfold fblock.
  destruct (decide (bn = k0)) as [->|Hne].
  - rewrite fslot_block in A8, A9 by done. rewrite A8, A9. cbn [Z.eqb].
    replace (r =? 0) with false by (symmetry; apply Z.eqb_neq; lia). right. by rewrite A6.
  - pose proof (A10 bn ltac:(lia) Hne) as E. rewrite !fslot_block in E by done. rewrite E.
    destruct (baddr v x bn =? 0) eqn:E0; [by left|]. apply Z.eqb_neq in E0. left. f_equal.
    pose proof (step_fresh bn ltac:(lia)) as Hf. rewrite fslot_block in Hf by done. apply A5; [done| |].
    + pose proof (fw_data _ _ _ _ W bn ltac:(lia)) as Db. rewrite fslot_block in Db by done. apply (Db E0). lia.
    + intros Ei. pose proof (fw_inj _ _ _ _ W bn MAXFILE ltac:(lia) ltac:(done)) as Hi.
      rewrite fslot_block, fslot_ind in Hi by done. specialize (Hi E0 Ei). lia.
Qed.

End step.
End blocks.
