(* ===== verification/FsBmap.v ===== *)
(** * Finding and allocating the blocks of a file

    [bmap] of kernel/fs.c on every branch: blocks that are there, direct
    blocks, the block of indirect addresses and its entries to be allocated,
    and a full disk. *)

From S2P Require Import Prelude Memory KString Kalloc Vm Bytes Sleeplock Bio BioSpec Log LogSpec LogCommit LogRecover LogOps Fs FsFile FsTxn FsBitmap FsAlloc FsInode FsInodeOps FsRead FsBlocks.

(** ** Addresses *)

Lemma iaddr_set x i j a : 0 <= i <= NDIRECT -> 0 <= j <= NDIRECT -> length (i_addrs x) = Z.to_nat (NDIRECT + 1) ->
  iaddr (set_addr i a x) j = if decide (i = j) then a else iaddr x j.
Proof.
  intros Hi Hj Hl. unfold iaddr, set_addr. cbn [i_addrs]. rewrite !nth_lookup. change NDIRECT with 12 in *. case_decide as E.
  - subst. rewrite list_lookup_insert_eq by lia. done.
  - rewrite list_lookup_insert_ne by lia. done.
Qed.

Lemma seti_geti s ip : (ip < length (fs_itable s))%nat -> seti s ip (geti s ip) = s.
Proof.
  intros Hip. unfold seti, geti. destruct (lookup_lt_is_Some_2 _ _ Hip) as [y Hy]. rewrite Hy. cbn [default].
  rewrite list_insert_id by done. by destruct s.
Qed.

Lemma get32_zero_block off : get32 zero_block off = 0.
Proof.
  assert (forall i, get8 zero_block i = 0) as H8.
  { intros i. unfold get8, zero_block. rewrite nth_lookup.
    by destruct (replicate _ _ !! _) eqn:E; [apply lookup_replicate in E as [-> _]|]. }
  unfold get32. cbn [get_le]. by rewrite !H8.
Qed.

(** ** The three allocations *)

Section steps.
Variables start size : Z.
Variables (sb : superblock) (v : Z -> block) (H : list Z) (x : inode) (r : Z).
Hypothesis D : disk_map start size sb v H.
Hypothesis W : file_wf start size sb v H x.
Hypothesis Hr : 0 < r < sb_size sb.
Hypothesis Hu : used sb v r = false.

(** Allocating a block leaves the file's block of addresses alone. *)
Lemma alloc_ind : iaddr x NDIRECT <> 0 -> alloc_view sb v r (iaddr x NDIRECT) = v (iaddr x NDIRECT).
Proof.
  intros Hi. pose proof (fw_data _ _ _ _ _ _ W MAXFILE ltac:(done)) as Db. rewrite fslot_ind in Db. specialize (Db Hi).
  apply alloc_view_other; [|apply Db; lia]. intros E. pose proof (db_used _ _ _ _ _ _ Db). congruence.
Qed.

Lemma alloc_zero : alloc_view sb v r r = zero_block.
Proof. apply fupd_same. Qed.

Lemma step_direct bn : 0 <= bn < NDIRECT -> iaddr x bn = 0 ->
  alloc_step sb v (alloc_view sb v r) x (set_addr bn r x) r bn.
Proof.
  intros Hbn H0. pose proof (fw_len _ _ _ _ _ _ W) as Hl. change MAXFILE with 268 in *. change NDIRECT with 12 in *.
  assert (forall k, 0 <= k <= 268 -> fslot (alloc_view sb v r) (set_addr bn r x) k = if decide (k = bn) then r else fslot v x k) as Hs.
  { intros k Hk. unfold fslot, baddr. change MAXFILE with 268. change NDIRECT with 12.
    rewrite iaddr_set by (change NDIRECT with 12; lia || done).
    rewrite (decide_False (P := bn = 12)) by lia. destruct (Z.eqb_spec k 268); [by rewrite decide_False by lia|].
    destruct (Z.ltb_spec k 12).
    - rewrite iaddr_set by (change NDIRECT with 12; lia || done). destruct (decide (bn = k)), (decide (k = bn)); by subst.
    - rewrite decide_False by lia. destruct (iaddr x 12 =? 0) eqn:E; [done|]. apply Z.eqb_neq in E.
      f_equal. by apply alloc_ind. }
  split; try done.
  - intros b Hb. apply (used_after start size sb v H); (done || lia).
  - intros b Hb. by apply length_alloc_view.
  - intros b B1 B2 _. by apply alloc_view_other.
  - apply alloc_zero.
  - change MAXFILE with 268. lia.
  - unfold fslot, baddr. change MAXFILE with 268. change NDIRECT with 12.
    replace (bn =? 268) with false by (symmetry; apply Z.eqb_neq; lia).
    by replace (bn <? 12) with true by (symmetry; apply Z.ltb_lt; lia).
  - rewrite Hs by lia. by rewrite decide_True.
  - intros k Hk Hne. rewrite Hs by done. by rewrite decide_False.
  - apply length_insert.
Qed.

Lemma step_indirect : iaddr x NDIRECT = 0 ->
  alloc_step sb v (alloc_view sb v r) x (set_addr NDIRECT r x) r MAXFILE.
Proof.
  intros H0. pose proof (fw_len _ _ _ _ _ _ W) as Hl. change NDIRECT with 12 in *.
  split; try done.
  - intros b Hb. apply (used_after start size sb v H); (done || lia).
  - intros b Hb. by apply length_alloc_view.
  - intros b B1 B2 _. by apply alloc_view_other.
  - apply alloc_zero.
  - rewrite fslot_ind. change NDIRECT with 12. rewrite iaddr_set by done. done.
  - intros k Hk Hne. rewrite !fslot_block by lia. unfold baddr. change NDIRECT with 12.
    rewrite (iaddr_set x 12 12) by done. rewrite decide_True, H0 by done.
    destruct (Z.ltb_spec k 12).
    + rewrite iaddr_set by (change NDIRECT with 12; lia || done). by rewrite decide_False by lia.
    + cbn [Z.eqb]. rewrite alloc_zero, get32_zero_block. by destruct (r =? 0).
  - apply length_insert.
Qed.

(** The contents of the disk when [r] becomes entry [bn] of the block of
    addresses. *)
Definition entry_view (bn : Z) : Z -> block :=
  fupd (alloc_view sb v r) (iaddr x NDIRECT) (put32 (v (iaddr x NDIRECT)) (4 * (bn - NDIRECT)) r).

Lemma entry_same bn b : b <> iaddr x NDIRECT -> entry_view bn b = alloc_view sb v r b.
Proof. intros Hb. unfold entry_view. by rewrite fupd_other. Qed.

Lemma entry_used bn b : iaddr x NDIRECT <> 0 -> 0 <= b < sb_size sb ->
  used sb (entry_view bn) b = (r =? b) || used sb v b.
Proof.
  intros Hi Hb. pose proof (fw_data _ _ _ _ _ _ W MAXFILE ltac:(done)) as Db. rewrite fslot_ind in Db. specialize (Db Hi).
  rewrite <- (used_after start size sb v H) by (done || lia). unfold used. rewrite entry_same; [done|].
  intros E. by apply (db_bm _ _ _ _ _ _ Db b Hb).
Qed.

Lemma step_entry bn : iaddr x NDIRECT <> 0 -> NDIRECT <= bn < MAXFILE -> baddr v x bn = 0 ->
  alloc_step sb v (entry_view bn) x x r bn.
Proof.
  intros Hi Hbn H0. pose proof (fw_data _ _ _ _ _ _ W MAXFILE ltac:(done)) as Db. rewrite fslot_ind in Db. specialize (Db Hi).
  pose proof (db_len _ _ _ _ _ _ Db) as Hlen. pose proof (dm_size _ _ _ _ _ D) as Hsz.
  change MAXFILE with 268 in *. change NDIRECT with 12 in *. change (Z.to_nat BSIZE) with 1024%nat in Hlen.
  assert (r <> iaddr x 12) as Hne by (intros ->; pose proof (db_used _ _ _ _ _ _ Db); congruence).
  assert (forall k, 0 <= k <= 268 -> fslot (entry_view bn) x k = if decide (k = bn) then r else fslot v x k) as Hs.
  { intros k Hk. unfold fslot, baddr. change MAXFILE with 268. change NDIRECT with 12.
    destruct (Z.eqb_spec k 268); [by rewrite decide_False by lia|].
    destruct (Z.ltb_spec k 12); [by rewrite decide_False by lia|].
    replace (iaddr x 12 =? 0) with false by (symmetry; by apply Z.eqb_neq).
    unfold entry_view. change NDIRECT with 12. rewrite fupd_same. case_decide as E.
    - subst k. rewrite get32_put32 by (rewrite ?Hlen; lia). apply uint32_small. lia.
    - rewrite get32_put32_other by (rewrite ?Hlen; lia). done. }
  split; try done.
  - intros b Hb. by apply entry_used.
  - intros b Hb. unfold entry_view, fupd. change NDIRECT with 12. case_decide; [|by apply length_alloc_view].
    by rewrite length_put32, Hlen.
  - intros b B1 B2 B3. rewrite entry_same by done. by apply alloc_view_other.
  - rewrite entry_same by done. apply alloc_zero.
  - change MAXFILE with 268. lia.
  - rewrite fslot_block by (change MAXFILE with 268; lia). done.
  - rewrite Hs by lia. by rewrite decide_True.
  - intros k Hk Hk0. rewrite Hs by done. by rewrite decide_False.
  - by destruct x.
Qed.

End steps.

(** ** Disk maps of held and changed blocks *)

Section maps.
Variables start size : Z.
Local Abbreviation disk_map := (disk_map start size).
Local Abbreviation data_block := (data_block start size).

Lemma disk_map_hold sb v H a : disk_map sb v H -> data_block sb v H a -> disk_map sb v (a :: H).
Proof.
  intros [D1 D2 D3 D4 D5 D6] [B1 B2 B3 B4 B5 B6]. split; try done.
  - intros b Hb. destruct (D3 b Hb). split; try done. apply not_elem_of_cons. split; [|done]. intros E. by apply (B6 b Hb).
  - intros b Hb Hu. destruct (D5 b Hb Hu). split; [|done]. apply not_elem_of_cons. split; [congruence|done].
Qed.

Lemma disk_map_unhold sb v H a : disk_map sb v (a :: H) -> disk_map sb v H.
Proof.
  intros [D1 D2 D3 D4 D5 D6]. split; try done.
  - intros b Hb. destruct (D3 b Hb) as [E1 E2 E3 E4]. split; try done. by apply not_elem_of_cons in E1 as [_ E1].
  - intros b Hb Hu. destruct (D5 b Hb Hu) as [E1 E2]. split; [|done]. by apply not_elem_of_cons in E1 as [_ E1].
Qed.

Lemma disk_map_fupd sb v H a y : disk_map sb v H -> (forall b, 0 <= b < sb_size sb -> a <> BBLOCK b sb) ->
  disk_map sb (fupd v a y) H.
Proof.
  intros [D1 D2 D3 D4 D5 D6] Ha.
  assert (forall b, 0 <= b < sb_size sb -> fupd v a y (BBLOCK b sb) = v (BBLOCK b sb)) as Hv.
  { intros b Hb. apply fupd_other. intros E. by apply (Ha b Hb). }
  assert (forall b, 0 <= b < sb_size sb -> used sb (fupd v a y) b = used sb v b) as Hu.
  { intros b Hb. unfold used. by rewrite Hv. }
  split; try done.
  - intros b Hb. destruct (D3 b Hb). split; try done. by rewrite Hv.
  - intros b Hb. destruct (D4 b Hb) as [E1 E2]. split; [done|]. by rewrite Hu.
  - intros b Hb. rewrite Hu by done. by apply D5.
  - intros H0. rewrite Hu by lia. by apply D6.
Qed.

Lemma held_used_le H L : (held_used H L <= length L + length H)%nat.
Proof. unfold held_used. pose proof (length_filter (fun b => b ∉ L) H). lia. Qed.

Lemma length_alloc_log sb L r : (length L <= length (alloc_log sb L r) <= length L + 2)%nat.
Proof.
  unfold alloc_log. pose proof (length_logged r (logged (BBLOCK r sb) L)). pose proof (length_logged (BBLOCK r sb) L). lia.
Qed.

Lemma elem_alloc_log sb L r b : b ∈ alloc_log sb L r <-> b ∈ L \/ b = BBLOCK r sb \/ b = r.
Proof. unfold alloc_log. rewrite !elem_logged. tauto. Qed.

End maps.

(** ** bmap *)

Section bmap.
Variables dev start size : Z.
Local Abbreviation txn := (txn dev start size).
Local Abbreviation disk_map := (disk_map start size).
Local Abbreviation file_wf := (file_wf start size).

(** What [bmap] does to the file of inode [ip]: the result is the address of
    block [bn], 0 only when the disk is full, and only blocks that belong to
    the file or to the bitmap are logged. *)
Record bmapped (s s' : fstate) (v v' : Z -> block) (H L L' : list Z) (d : disk) (p : Z) (ip : nat) (bn a : Z) : Prop := {
  bp_txn : txn s' v' H L' d p;
  bp_rest : same_rest (seti s ip (geti s' ip)) s';
  bp_map : disk_map (fs_sb s) v' H;
  bp_wf : file_wf (fs_sb s) v' H (geti s' ip);
  bp_frame : frame (fs_sb s) v v' (geti s ip) (geti s' ip);
  bp_grown : grown v v' (geti s ip) (geti s' ip);
  bp_log : forall b, b ∈ L' -> b ∈ L \/ (exists b', 0 <= b' < sb_size (fs_sb s) /\ b = BBLOCK b' (fs_sb s)) \/
    exists k, (k = bn \/ k = MAXFILE) /\ b = fslot v' (geti s' ip) k /\ b <> 0;
  bp_len : (length L' <= length L + 5)%nat;
  bp_addr : a = baddr v' (geti s' ip) bn;
  bp_full : a = 0 -> forall b, 0 <= b < sb_size (fs_sb s) -> used (fs_sb s) v' b = true
}.

Lemma bmapped_same s s' v H L d p ip bn a :
  (ip < length (fs_itable s))%nat -> disk_map (fs_sb s) v H -> file_wf (fs_sb s) v H (geti s ip) ->
  txn s' v H L d p -> same_rest s s' -> a = baddr v (geti s ip) bn ->
  (a = 0 -> forall b, 0 <= b < sb_size (fs_sb s) -> used (fs_sb s) v b = true) ->
  bmapped s s' v v H L L d p ip bn a.
Proof.
  intros Hip D W T R Ha Hf. pose proof (geti_rest s s' ip R) as Hg.
  split; rewrite ?Hg; try done; [by rewrite seti_geti|apply frame_refl|apply grown_refl|by left|lia].
Qed.

(** The part of [bmap] that follows the block of indirect addresses. *)
Definition bmap_entry (dev addr k : Z) : K fstate Z :=
  bp <- fbread dev addr ;;
  d <- fbdata bp ;;
  addr <- (if get32 d (4 * k) =? 0 then
             addr <- balloc dev ;;
             (if negb (addr =? 0) then
                d <- fbdata bp ;; fbset bp (put32 d (4 * k) addr) ;;; flog_write bp
              else kret tt) ;;;
             kret addr
           else kret (get32 d (4 * k))) ;;
  fbrelse bp ;;;
  kret addr.

Lemma bmap_unfold ip bn : bmap ip bn =
  (x <- inget ip ;;
   if bn <? NDIRECT then
     if iaddr x bn =? 0 then
       addr <- balloc (i_dev x) ;;
       if addr =? 0 then kret 0 else inmod ip (set_addr bn addr) ;;; kret addr
     else kret (iaddr x bn)
   else
     if bn - NDIRECT <? NINDIRECT then
       addr <- (if iaddr x NDIRECT =? 0 then
                  addr <- balloc (i_dev x) ;;
                  if addr =? 0 then kret 0 else inmod ip (set_addr NDIRECT addr) ;;; kret addr
                else kret (iaddr x NDIRECT)) ;;
       if addr =? 0 then kret 0 else bmap_entry (i_dev x) addr (bn - NDIRECT)
     else panic "bmap: out of range").
Proof. reflexivity. Qed.

Section branches.
Variables (s : fstate) (v : Z -> block) (H L : list Z) (d : disk) (p : Z) (ip : nat).
Hypothesis T : txn s v H L d p.
Hypothesis Hip : (ip < length (fs_itable s))%nat.
Hypothesis Hdev : i_dev (geti s ip) = dev.
Hypothesis D : disk_map (fs_sb s) v H.
Hypothesis W : file_wf (fs_sb s) v H (geti s ip).
Hypothesis Hroom : (length L + length H + 3 < NBUF)%nat.
Hypothesis HL1 : Z.of_nat (length L) + 4 < size - 1.
Hypothesis HL2 : Z.of_nat (length L) + 4 < LOGSIZE.

Lemma txn_seti s' v' H' L' x : txn s' v' H' L' d p -> txn (seti s' ip x) v' H' L' d p.
Proof. intros []. by split. Qed.

(** An address of the inode itself: a direct block, or the block of indirect
    addresses. *)
Lemma alloc_addr k0 j x' r s1 :
  balloc dev s = Ret r s1 -> same_rest s s1 -> 0 < r < sb_size (fs_sb s) -> used (fs_sb s) v r = false ->
  txn s1 (alloc_view (fs_sb s) v r) H (alloc_log (fs_sb s) L r) d p ->
  disk_map (fs_sb s) (alloc_view (fs_sb s) v r) H ->
  x' = set_addr j r (geti s ip) ->
  alloc_step (fs_sb s) v (alloc_view (fs_sb s) v r) (geti s ip) x' r k0 ->
  let s2 := seti s1 ip x' in
  inmod ip (set_addr j r) s1 = Ret tt s2 /\ geti s2 ip = x' /\
  same_rest (seti s ip x') s2 /\ txn s2 (alloc_view (fs_sb s) v r) H (alloc_log (fs_sb s) L r) d p /\
  file_wf (fs_sb s) (alloc_view (fs_sb s) v r) H x' /\
  frame (fs_sb s) v (alloc_view (fs_sb s) v r) (geti s ip) x' /\
  grown v (alloc_view (fs_sb s) v r) (geti s ip) x'.
Proof.
  intros E R Hr Hu T1 D1 -> A s2. pose proof (geti_rest s s1 ip R) as Hg.
  split; [unfold inmod; by rewrite Hg|]. split.
  { unfold s2. rewrite geti_seti by (rewrite (sr_itable _ _ R); done). by rewrite decide_True. }
  split; [destruct R; split; cbn [seti s2 fs_sb fs_itable fs_mem fs_pagetable fs_cwd fs_ls]; congruence|].
  split; [by apply txn_seti|]. split; [exact (step_wf _ _ _ _ _ _ _ _ _ _ D W A)|].
  split; [eapply step_frame; exact A|eapply step_grown; [exact W|exact A]].
Qed.

Lemma bmap_direct bn : 0 <= bn < NDIRECT -> iaddr (geti s ip) bn = 0 ->
  exists a s' v' L', bmap ip bn s = Ret a s' /\ bmapped s s' v v' H L L' d p ip bn a.
Proof.
  intros Hbn H0. set (x := geti s ip) in *. set (sb := fs_sb s) in *.
  assert ((bn <? NDIRECT) = true) as Elt by (apply Z.ltb_lt; lia).
  assert (0 <= bn < MAXFILE) as Hm by (change MAXFILE with 268; change NDIRECT with 12 in *; lia).
  rewrite bmap_unfold, (kbind_ret (inget ip) _ s x s eq_refl), Elt, H0, Hdev. cbn [Z.eqb].
  pose proof (held_used_le H L).
  destruct (balloc_map dev start size s v H L d p T D ltac:(lia) ltac:(lia) ltac:(lia))
    as (r & s1 & E & K & R & [(-> & T1 & Hfull)|(Hr & Hu & _ & T1 & D1)]); rewrite (kbind_ret _ _ _ _ _ E).
  - exists 0, s1, v, L. split; [done|]. apply bmapped_same; try done. fold x. unfold baddr. by rewrite Elt.
  - replace (r =? 0) with false by (symmetry; apply Z.eqb_neq; lia).
    pose proof (step_direct start size sb v H x r D W Hr Hu bn Hbn H0) as A.
    destruct (alloc_addr bn bn _ r s1 E R Hr Hu T1 D1 eq_refl A) as (E2 & Hg & R2 & T2 & W2 & F2 & G2).
    rewrite (kbind_ret _ _ _ _ _ E2). eexists r, _, _, _. split; [reflexivity|].
    pose proof (al_new _ _ _ _ _ _ _ A) as Hn. split; rewrite ?Hg; try done.
    + intros b. rewrite elem_alloc_log. intros [?|[->| ->]]; [by left|right; left; exists r; split; [lia|done]|].
      right; right. exists bn. split; [by left|]. split; [done|lia].
    + pose proof (length_alloc_log (fs_sb s) L r). lia.
    + by rewrite fslot_block in Hn.
    + lia.
Qed.

Lemma ind_block : iaddr (geti s ip) NDIRECT <> 0 -> data_block start size (fs_sb s) v H (iaddr (geti s ip) NDIRECT).
Proof. intros Hi. pose proof (fw_data _ _ _ _ _ _ W MAXFILE ltac:(done)) as Db. rewrite fslot_ind in Db. by apply Db. Qed.

(** A free entry of the block of addresses, which is held in buffer [bp]. *)
Lemma entry_alloc s1 bn bp :
  let ia := iaddr (geti s ip) NDIRECT in
  iaddr (geti s ip) NDIRECT <> 0 -> NDIRECT <= bn < MAXFILE -> baddr v (geti s ip) bn = 0 ->
  txn s1 v (ia :: H) L d p -> holds dev s1 ia bp -> same_rest s s1 ->
  exists a s' v' L',
    (addr <- (addr <- balloc dev ;;
              (if negb (addr =? 0) then
                 d <- fbdata bp ;; fbset bp (put32 d (4 * (bn - NDIRECT)) addr) ;;; flog_write bp
               else kret tt) ;;;
              kret addr) ;;
     fbrelse bp ;;; kret addr) s1 = Ret a s' /\ bmapped s s' v v' H L L' d p ip bn a /\ (length L' <= length L + 3)%nat /\
    geti s' ip = geti s ip.
Proof.
  intros ia Hi Hbn H0 T1 Hh1 R1. pose proof (ind_block Hi) as Db. fold ia in Hi, Db.
  assert (fs_sb s1 = fs_sb s) as Hsb by apply R1.
  pose proof (disk_map_hold _ _ _ _ _ _ D Db) as D1. pose proof (held_used_le (ia :: H) L) as Hul. cbn [length] in Hul.
  rewrite <- Hsb in D1.
  destruct (balloc_map dev start size s1 v (ia :: H) L d p T1 D1 ltac:(lia) ltac:(lia) ltac:(lia))
    as (r & s2 & E & K & R2 & [(-> & T2 & Hfull)|(Hr & Hu & _ & T2 & D2)]); rewrite Hsb in *.
  - rewrite (kbind_ret (addr <- balloc dev ;; _) _ s1 0 s2); [|by rewrite (kbind_ret _ _ _ _ _ E)].
    pose proof (fkeeps_holds dev start size _ _ _ _ _ _ _ ia bp K T1 ltac:(left) Hh1) as Hh2.
    destruct (fbrelse_ok dev start size s2 v H L d p ia bp T2 Hh2) as (s3 & E3 & T3 & K3 & R3).
    { destruct (decide (ia ∈ L)); [by left|]. right. apply (txn_clean dev start size s v H L d p); [done|apply Db|done]. }
    rewrite (kbind_ret _ _ _ _ _ E3). exists 0, s3, v, L. split; [done|].
    assert (same_rest s s3) as R by (eapply same_rest_trans; [exact R1|]; by eapply same_rest_trans).
    split; [|split; [lia|by apply geti_rest]]. by apply bmapped_same.
  - pose proof (fkeeps_holds dev start size _ _ _ _ _ _ _ ia bp K T1 ltac:(left) Hh1) as Hh2.
    pose proof (fbdata_ok dev start size s2 _ _ _ d p ia bp T2 Hh2 ltac:(left)) as E3.
    assert (alloc_view (fs_sb s) v r ia = v ia) as Hva by (by eapply alloc_ind).
    rewrite Hva in E3. pose proof (length_alloc_log (fs_sb s) L r) as Hll. destruct Db as [B1 B2 B3 B4 B5 B6].
    pose proof (dm_size _ _ _ _ _ D) as Hsz.
    destruct (fput_ok dev start size s2 _ H _ d p ia bp (put32 (v ia) (4 * (bn - NDIRECT)) r) T2 Hh2)
      as (s3 & E4 & T3 & K3 & R3); [lia|done|lia|lia|].
    assert (same_rest s s3) as R by (eapply same_rest_trans; [exact R1|]; by eapply same_rest_trans).
    pose proof (geti_rest s s3 ip R) as Hg.
    pose proof (step_entry start size (fs_sb s) v H (geti s ip) r D W Hr Hu bn Hi Hbn H0) as A.
    exists r, s3, (entry_view (fs_sb s) v (geti s ip) r bn), (logged ia (alloc_log (fs_sb s) L r)).
    pose proof (length_logged ia (alloc_log (fs_sb s) L r)). split; [|split; [|split; [lia|done]]].
    + apply kbind_inv in E4 as ([] & sa & Ea & E4). apply kbind_inv in E4 as ([] & sb & Eb & E4).
      rewrite (kbind_ret (addr <- balloc dev ;; _) _ s1 r sb); [by rewrite (kbind_ret _ _ _ _ _ E4)|].
      rewrite (kbind_ret _ _ _ _ _ E). replace (r =? 0) with false by (symmetry; apply Z.eqb_neq; lia). cbn [negb].
      rewrite (kbind_ret (d <- fbdata bp ;; _) _ s2 tt sb); [done|].
      by rewrite (kbind_ret _ _ _ _ _ E3), (kbind_ret _ _ _ _ _ Ea).
    + split; rewrite ?Hg.
      * exact T3.
      * by rewrite seti_geti.
      * apply disk_map_fupd; [by eapply disk_map_unhold|exact B6].
      * exact (step_wf _ _ _ _ _ _ _ _ _ _ D W A).
      * eapply step_frame. exact A.
      * eapply step_grown; [exact W|exact A].
      * intros b. rewrite elem_logged, elem_alloc_log. pose proof (al_new _ _ _ _ _ _ _ A) as Hn.
        intros [[?|[->| ->]]| ->]; [by left|right; left; exists r; split; [lia|done]| |]; right; right.
        -- exists bn. split; [by left|]. split; [done|lia].
        -- exists MAXFILE. split; [by right|]. by rewrite fslot_ind.
      * lia.
      * pose proof (al_new _ _ _ _ _ _ _ A) as Hn. by rewrite fslot_block in Hn by (change NDIRECT with 12 in *; lia).
      * lia.
Qed.

Lemma bmap_entry_ok bn :
  let ia := iaddr (geti s ip) NDIRECT in
  iaddr (geti s ip) NDIRECT <> 0 -> NDIRECT <= bn < MAXFILE ->
  exists a s' v' L', bmap_entry dev ia (bn - NDIRECT) s = Ret a s' /\
    bmapped s s' v v' H L L' d p ip bn a /\ (length L' <= length L + 3)%nat /\
    geti s' ip = geti s ip.
Proof.
  intros ia Hi Hbn. pose proof (ind_block Hi) as Db. fold ia in Hi, Db. pose proof (held_used_le H L).
  destruct (fbread_ok dev start size s v H L d p ia T) as (bp & s1 & E1 & T1 & Hh1 & K1 & R1); [apply Db|right; lia|].
  pose proof (fbdata_ok dev start size s1 v _ L d p ia bp T1 Hh1 ltac:(left)) as E2.
  unfold bmap_entry. rewrite (kbind_ret _ _ _ _ _ E1), (kbind_ret _ _ _ _ _ E2).
  assert (baddr v (geti s ip) bn = get32 (v ia) (4 * (bn - NDIRECT))) as Hb.
  { unfold baddr. replace (bn <? NDIRECT) with false by (symmetry; apply Z.ltb_ge; lia). fold ia.
    by replace (ia =? 0) with false by (symmetry; by apply Z.eqb_neq). }
  rewrite <- Hb. destruct (Z.eqb_spec (baddr v (geti s ip) bn) 0) as [E0|E0].
  - by apply entry_alloc.
  - rewrite (kbind_ret (kret _) _ s1 (baddr v (geti s ip) bn) s1 eq_refl).
    destruct (fbrelse_ok dev start size s1 v H L d p ia bp T1 Hh1) as (s2 & E3 & T2 & K2 & R2).
    { destruct (decide (ia ∈ L)); [by left|]. right. apply (txn_clean dev start size s v H L d p); [done|apply Db|done]. }
    rewrite (kbind_ret _ _ _ _ _ E3). eexists _, s2, v, L. split; [reflexivity|].
    assert (same_rest s s2) as R by (by eapply same_rest_trans).
    split; [|split; [lia|by apply geti_rest]]. by apply bmapped_same.
Qed.

End branches.

Lemma rest_seti s ip x2 s2 x3 s3 :
  same_rest (seti s ip x2) s2 -> same_rest (seti s2 ip x3) s3 -> same_rest (seti s ip x3) s3.
Proof.
  intros [A1 A2 A3 A4 A5 A6 A7] [B1 B2 B3 B4 B5 B6 B7].
  cbn [seti fs_sb fs_itable fs_mem fs_pagetable fs_cwd fs_ls] in *. split; cbn [seti fs_sb fs_itable fs_mem fs_pagetable fs_cwd fs_ls]; try congruence.
  rewrite B2, A2. apply list_insert_insert_eq.
Qed.

(** The block of addresses is allocated first. *)
Lemma bmap_new_indirect s v H L d p ip bn :
  let ia := iaddr (geti s ip) NDIRECT in
  txn s v H L d p -> (ip < length (fs_itable s))%nat -> i_dev (geti s ip) = dev ->
  disk_map (fs_sb s) v H -> file_wf (fs_sb s) v H (geti s ip) -> (length L + length H + 5 < NBUF)%nat ->
  Z.of_nat (length L) + 6 < size - 1 -> Z.of_nat (length L) + 6 < LOGSIZE ->
  ia = 0 -> NDIRECT <= bn < MAXFILE ->
  exists a s' v' L',
    (addr <- (addr <- balloc dev ;; if addr =? 0 then kret 0 else inmod ip (set_addr NDIRECT addr) ;;; kret addr) ;;
     if addr =? 0 then kret 0 else bmap_entry dev addr (bn - NDIRECT)) s = Ret a s' /\
    bmapped s s' v v' H L L' d p ip bn a.
Proof.
  intros ia T Hip Hdev D W Hroom HL1 HL2 Hi Hbn. pose proof (held_used_le H L) as Hul.
  destruct (balloc_map dev start size s v H L d p T D ltac:(lia) ltac:(lia) ltac:(lia))
    as (r & s1 & E & K & R & [(-> & T1 & Hfull)|(Hr & Hu & _ & T1 & D1)]).
  - rewrite (kbind_ret (addr <- balloc dev ;; _) _ s 0 s1); [|by rewrite (kbind_ret _ _ _ _ _ E)].
    exists 0, s1, v, L. split; [done|]. apply bmapped_same; try done. unfold baddr. fold ia. rewrite Hi.
    by replace (bn <? NDIRECT) with false by (symmetry; apply Z.ltb_ge; lia).
  - pose proof (step_indirect start size (fs_sb s) v H (geti s ip) r D W Hr Hu Hi) as A.
    destruct (alloc_addr s v H L d p ip Hip D W MAXFILE NDIRECT _ r s1 E R Hr Hu T1 D1 eq_refl A)
      as (E2 & Hg & R2 & T2 & W2 & F2 & G2).
    set (x2 := set_addr NDIRECT r (geti s ip)) in *. set (s2 := seti s1 ip x2) in *.
    assert (fs_sb s2 = fs_sb s) as Hsb by apply R2.
    rewrite (kbind_ret (addr <- balloc dev ;; _) _ s r s2).
    2:{ rewrite (kbind_ret _ _ _ _ _ E). replace (r =? 0) with false by (symmetry; apply Z.eqb_neq; lia).
        by rewrite (kbind_ret _ _ _ _ _ E2). }
    replace (r =? 0) with false by (symmetry; apply Z.eqb_neq; lia).
    assert (iaddr (geti s2 ip) NDIRECT = r) as Hir by (rewrite Hg; rewrite <- fslot_ind with (v := alloc_view (fs_sb s) v r); apply A).
    pose proof (length_alloc_log (fs_sb s) L r) as Hll.
    destruct (bmap_entry_ok s2 (alloc_view (fs_sb s) v r) H (alloc_log (fs_sb s) L r) d p ip T2) with (bn := bn)
      as (a & s3 & v3 & L3 & E3 & B & HL3 & Hg3); rewrite ?Hg, ?Hsb; try done; try lia.
    { unfold s2. cbn [seti fs_itable]. rewrite length_insert, (sr_itable _ _ R). done. }
    { rewrite <- Hg, Hir. lia. }
    rewrite Hir in E3. exists a, s3, v3, L3. split; [done|].
    destruct B as [C1 C2 C3 C4 C5 C6 C7 C8 C9 C10]. rewrite Hsb in *. rewrite Hg in *. split; try done.
    + by eapply rest_seti.
    + by eapply frame_trans.
    + by eapply grown_trans.
    + intros b Hb. destruct (C7 b Hb) as [Hb'|[Hb'|Hb']]; [|tauto|tauto]. apply elem_alloc_log in Hb' as [?|[->| ->]]; [tauto| |].
      * right; left. exists r. split; [lia|done].
      * right; right. exists MAXFILE. split; [by right|]. rewrite fslot_ind, Hg3. split; [done|lia].
    + lia.
Qed.

(** [bmap] returns, whatever is mapped. *)
Lemma bmap_ok s v H L d p ip bn :
  txn s v H L d p -> (ip < length (fs_itable s))%nat -> i_dev (geti s ip) = dev ->
  disk_map (fs_sb s) v H -> file_wf (fs_sb s) v H (geti s ip) -> (length L + length H + 5 < NBUF)%nat ->
  Z.of_nat (length L) + 6 < size - 1 -> Z.of_nat (length L) + 6 < LOGSIZE -> 0 <= bn < MAXFILE ->
  exists a s' v' L', bmap ip bn s = Ret a s' /\ bmapped s s' v v' H L L' d p ip bn a.
Proof.
  intros T Hip Hdev D W Hroom HL1 HL2 Hbn. set (x := geti s ip) in *.
  destruct (Z.ltb_spec bn NDIRECT) as [Hlt|Hge].
  - destruct (Z.eqb_spec (iaddr x bn) 0) as [E0|E0]; [apply bmap_direct; (done || lia)|].
    assert ((bn <? NDIRECT) = true) as Elt by (by apply Z.ltb_lt).
    rewrite bmap_unfold, (kbind_ret (inget ip) _ s x s eq_refl), Elt.
    replace (iaddr x bn =? 0) with false by (symmetry; by apply Z.eqb_neq).
    exists (iaddr x bn), s, v, L. split; [done|]. apply bmapped_same; try done.
    fold x. unfold baddr. by rewrite Elt.
  - rewrite bmap_unfold, (kbind_ret (inget ip) _ s x s eq_refl), Hdev.
    replace (bn <? NDIRECT) with false by (symmetry; by apply Z.ltb_ge).
    replace (bn - NDIRECT <? NINDIRECT) with true by (symmetry; apply Z.ltb_lt; unfold MAXFILE in Hbn; lia).
    destruct (Z.eqb_spec (iaddr x NDIRECT) 0) as [E0|E0]; [apply bmap_new_indirect; (done || lia)|].
    rewrite (kbind_ret (kret _) _ s (iaddr x NDIRECT) s eq_refl).
    replace (iaddr x NDIRECT =? 0) with false by (symmetry; by apply Z.eqb_neq).
    destruct (bmap_entry_ok s v H L d p ip T Hip D W) with (bn := bn) as (a & s' & v' & L' & E & B & _); try done; try lia.
    by exists a, s', v', L'.
Qed.

End bmap.
