(* ===== verification/FsWrite.v ===== *)
(** * Writing files

    [writei] of kernel/fs.c on a file of which any blocks may be missing: it
    allocates what it needs, changes exactly the range written and leaves
    every other file alone; [readi] returns what was written. *)

From S2P Require Import Prelude Memory KString Kalloc Vm Bytes Sleeplock Bio BioSpec Log LogSpec LogCommit LogRecover LogOps Fs FsFile FsTxn FsExample FsBitmap FsAlloc FsInode FsInodeOps FsRead FsBlocks FsBmap.

(** Byte [o] of a file; what is not mapped counts as zero. *)
Definition fcont (v : Z -> block) (x : inode) (o : Z) : Z :=
  match fblock v x (o / BSIZE) with Some blk => nth (Z.to_nat (o mod BSIZE)) blk 0 | None => 0 end.

Lemma fcont_fbyte v x o : baddr v x (o / BSIZE) <> 0 -> fcont v x o = fbyte v x o.
Proof. intros Ha. unfold fcont, fblock, fbyte. by replace (_ =? 0) with false by (symmetry; by apply Z.eqb_neq). Qed.

(** The block of a byte. *)
Lemma byte_block o : 0 <= o < MAXFILE * BSIZE -> 0 <= o / BSIZE < MAXFILE.
Proof. change MAXFILE with 268. change BSIZE with 1024. intros. Z.div_mod_to_equations. lia. Qed.

(** Allocating blocks does not change the contents. *)
Lemma grown_fcont v v' x x' o : grown v v' x x' -> 0 <= o < MAXFILE * BSIZE -> fcont v' x' o = fcont v x o.
Proof.
  intros G Ho. unfold fcont. destruct (G _ (byte_block o Ho)) as [->|[-> ->]]; [done|].
  unfold zero_block. rewrite nth_lookup.
  by destruct (replicate _ _ !! _) eqn:E; [apply lookup_replicate in E as [-> _]|].
Qed.

Lemma nth_splice d off bs i : 0 <= off -> off + Z.of_nat (length bs) <= Z.of_nat (length d) -> 0 <= i ->
  nth (Z.to_nat i) (splice d off bs) 0 =
    if decide (off <= i < off + Z.of_nat (length bs)) then nth (Z.to_nat (i - off)) bs 0 else nth (Z.to_nat i) d 0.
Proof.
  intros Ho Hl Hi. unfold splice. rewrite !nth_lookup. case_decide as E.
  - rewrite lookup_app_r by (rewrite length_take; lia). rewrite length_take.
    rewrite lookup_app_l by lia. do 2 f_equal. lia.
  - destruct (decide (i < off)).
    + rewrite lookup_app_l by (rewrite length_take; lia). by rewrite lookup_take_lt by lia.
    + rewrite lookup_app_r by (rewrite length_take; lia). rewrite length_take, lookup_app_r by lia.
      rewrite lookup_drop. do 2 f_equal. lia.
Qed.

Lemma length_splice d off bs : 0 <= off -> off + Z.of_nat (length bs) <= Z.of_nat (length d) ->
  length (splice d off bs) = length d.
Proof. intros. unfold splice. rewrite !length_app, length_take, length_drop. lia. Qed.

(** ** Changing a block *)

Section change.
Variables start size : Z.
Local Abbreviation file_wf := (file_wf start size).
Local Abbreviation data_block := (data_block start size).

Lemma fslot_fupd v x a y k : a <> iaddr x NDIRECT -> fslot (fupd v a y) x k = fslot v x k.
Proof. intros Ha. unfold fslot, baddr. by rewrite fupd_other by done. Qed.

Lemma used_fupd sb v a y b : a <> BBLOCK b sb -> used sb (fupd v a y) b = used sb v b.
Proof. intros Ha. unfold used. by rewrite fupd_other. Qed.

Lemma file_wf_fupd sb v H x a y :
  file_wf sb v H x -> (forall b, 0 <= b < sb_size sb -> a <> BBLOCK b sb) -> a <> iaddr x NDIRECT ->
  length y = Z.to_nat BSIZE -> file_wf sb (fupd v a y) H x.
Proof.
  intros [W1 W2 W3] Hb Hi Hl. split; [done| |].
  - intros k Hk. rewrite fslot_fupd by done. intros Hn. destruct (W2 k Hk Hn) as [D1 D2 D3 D4 D5 D6].
    split; try done; [rewrite used_fupd; [done|apply Hb; lia]|]. unfold fupd. by case_decide.
  - intros k k' Hk Hk'. rewrite !fslot_fupd by done. by apply W3.
Qed.

(** Block [bn] of the file is changed. *)
Section own.
Variables (sb : superblock) (v : Z -> block) (H : list Z) (x : inode) (bn : Z) (y : block).
Hypothesis W : file_wf sb v H x.
Hypothesis Hbn : 0 <= bn < MAXFILE.
Hypothesis Ha : baddr v x bn <> 0.
Let a := baddr v x bn.

Lemma own_data : data_block sb v H a.
Proof. pose proof (fw_data _ _ _ _ _ _ W bn ltac:(lia)) as D. rewrite fslot_block in D by done. by apply D. Qed.

Lemma own_ind : a <> iaddr x NDIRECT.
Proof.
  intros E. pose proof (fw_inj _ _ _ _ _ _ W bn MAXFILE ltac:(lia) ltac:(done)) as Hi.
  rewrite fslot_block, fslot_ind in Hi by done. specialize (Hi Ha E). lia.
Qed.

Lemma own_block bn' : 0 <= bn' < MAXFILE ->
  fblock (fupd v a y) x bn' = if decide (bn' = bn) then Some y else fblock v x bn'.
Proof.
  intros Hbn'. pose proof own_ind as Hi. unfold fblock.
  assert (baddr (fupd v a y) x bn' = baddr v x bn') as ->.
  { pose proof (fslot_fupd v x a y bn' Hi) as E. by rewrite !fslot_block in E. }
  case_decide as E.
  - subst bn'. fold a. replace (a =? 0) with false by (symmetry; by apply Z.eqb_neq). by rewrite fupd_same.
  - destruct (Z.eqb_spec (baddr v x bn') 0) as [|E0]; [done|]. rewrite fupd_other; [done|]. intros E1.
    pose proof (fw_inj _ _ _ _ _ _ W bn' bn ltac:(lia) ltac:(lia)) as Hj. rewrite !fslot_block in Hj by done.
    by destruct E; apply Hj.
Qed.

Lemma own_frame : frame sb v (fupd v a y) x x.
Proof.
  pose proof own_data as D. pose proof own_ind as Hi. split.
  - intros k Hk Hn. by apply fslot_fupd.
  - intros b [F1 F2 F3 F4]. assert (b <> a) as Hba.
    { intros ->. apply (F4 bn); [lia|]. by rewrite fslot_block. }
    split; [by rewrite fupd_other|]. split; try done.
    + rewrite used_fupd; [done|]. apply D. lia.
    + intros k Hk. rewrite fslot_fupd by done. by apply F4.
  - by destruct x.
Qed.

End own.
End change.

(** ** The log *)

(** The blocks logged: those of [L0], bitmap blocks, and of the file the
    blocks [K0] to [K1] and the block of addresses. *)
Definition logs_in (sb : superblock) (L0 : list Z) (K0 K1 : Z) (v : Z -> block) (x : inode) (L : list Z) : Prop :=
  forall b, b ∈ L -> b ∈ L0 \/ (exists b', 0 <= b' < sb_size sb /\ b = BBLOCK b' sb) \/
    exists k, (K0 <= k <= K1 \/ k = MAXFILE) /\ b = fslot v x k /\ b <> 0.

Lemma logs_in_frame sb L0 K0 K1 v v' x x' L : 0 <= K0 -> K1 < MAXFILE ->
  frame sb v v' x x' -> logs_in sb L0 K0 K1 v x L -> logs_in sb L0 K0 K1 v' x' L.
Proof.
  intros HK0 HK1 F HL b Hb. destruct (HL b Hb) as [?|[?|(k & Hk & E & Hn)]]; [tauto|tauto|]. right; right.
  assert (0 < MAXFILE) by done. exists k. split; [done|]. split; [|done]. rewrite (fr_slots _ _ _ _ _ F); [done|lia|congruence].
Qed.

Lemma logs_in_length start size sb H L0 K0 K1 v x L :
  NoDup L -> disk_map start size sb v H -> sb_size sb <= BPB -> K0 <= K1 + 1 ->
  logs_in sb L0 K0 K1 v x L -> Z.of_nat (length L) <= Z.of_nat (length L0) + 2 + (K1 + 1 - K0).
Proof.
  intros Hnd D Hsz HK HL.
  set (all := L0 ++ [sb_bmapstart sb; fslot v x MAXFILE] ++ map (fun i => fslot v x (K0 + Z.of_nat i)) (seq 0 (Z.to_nat (K1 + 1 - K0)))).
  assert (length L <= length all)%nat as Hl.
  { apply NoDup_incl_length; [by apply NoDup_ListNoDup|]. intros b Hb. apply list_elem_of_In, HL in Hb.
    apply list_elem_of_In. unfold all. rewrite !elem_of_app, !elem_of_cons. destruct Hb as [?|[(b' & Hb' & ->)|(k & Hk & -> & _)]].
    - by left.
    - right; left; left. rewrite (BBLOCK_eq _ _ _ _ _ _ D Hb'). rewrite Z.div_small by lia. done.
    - right. destruct Hk as [Hk| ->]; [right|left; tauto]. apply list_elem_of_fmap. exists (Z.to_nat (k - K0)).
      split; [f_equal; lia|]. apply elem_of_seq. lia. }
  unfold all in Hl. rewrite !length_app, length_map, length_seq in Hl. simpl in Hl. lia.
Qed.

(** ** The loop of writei *)

Lemma sub_app bs tot m k : 0 <= tot -> 0 <= m -> 0 <= k -> tot + m + k <= Z.of_nat (length bs) ->
  sub bs tot (m + k) = sub bs tot m ++ sub bs (tot + m) k.
Proof.
  intros. unfold sub. rewrite Z2Nat.inj_add by done. rewrite <- (take_take_drop (drop (Z.to_nat tot) bs)).
  rewrite drop_drop. do 3 f_equal. lia.
Qed.

Lemma length_sub bs tot m : 0 <= tot -> 0 <= m -> tot + m <= Z.of_nat (length bs) -> Z.of_nat (length (sub bs tot m)) = m.
Proof. intros. unfold sub. rewrite length_take, length_drop. lia. Qed.

Section write.
Variables dev start size : Z.
Local Abbreviation txn := (txn dev start size).
Local Abbreviation disk_map := (disk_map start size).
Local Abbreviation file_wf := (file_wf start size).

(** What writing the bytes [bs] at offset [off] does. *)
Record wrote (s s' : fstate) (v v' : Z -> block) (L0 L' : list Z) (K0 K1 : Z) (d : disk) (p : Z) (ip : nat)
    (off : Z) (bs : list Z) : Prop := {
  wr_txn : txn s' v' [] L' d p;
  wr_rest : same_rest (seti s ip (geti s' ip)) s';
  wr_map : disk_map (fs_sb s) v' [];
  wr_wf : file_wf (fs_sb s) v' [] (geti s' ip);
  wr_frame : frame (fs_sb s) v v' (geti s ip) (geti s' ip);
  wr_cont : forall o, 0 <= o < MAXFILE * BSIZE ->
    fcont v' (geti s' ip) o = if decide (off <= o < off + Z.of_nat (length bs)) then nth (Z.to_nat (o - off)) bs 0
                              else fcont v (geti s ip) o;
  wr_mapped : forall o, off <= o < off + Z.of_nat (length bs) -> baddr v' (geti s' ip) (o / BSIZE) <> 0;
  wr_log : logs_in (fs_sb s) L0 K0 K1 v' (geti s' ip) L'
}.

Lemma wrote_trans s1 s2 s3 v1 v2 v3 L0 L2 L3 K0 K1 d p ip off bs1 bs2 :
  0 <= off -> off + Z.of_nat (length bs1) <= MAXFILE * BSIZE ->
  wrote s1 s2 v1 v2 L0 L2 K0 K1 d p ip off bs1 ->
  wrote s2 s3 v2 v3 L0 L3 K0 K1 d p ip (off + Z.of_nat (length bs1)) bs2 ->
  wrote s1 s3 v1 v3 L0 L3 K0 K1 d p ip off (bs1 ++ bs2).
Proof.
  intros Ho Hmax [A1 A2 A3 A4 A5 A6 A7 A8] [B1 B2 B3 B4 B5 B6 B7 B8].
  assert (fs_sb s2 = fs_sb s1) as Hsb by apply A2. rewrite Hsb in *. split; try done.
  - by eapply rest_seti.
  - by eapply frame_trans.
  - intros o Hoo. rewrite B6, length_app by done. rewrite !nth_lookup. case_decide as E1.
    + rewrite decide_True by lia. rewrite lookup_app_r by lia. do 2 f_equal. lia.
    + rewrite A6 by done. case_decide as E2.
      * rewrite decide_True by lia. by rewrite lookup_app_l, nth_lookup by lia.
      * by rewrite decide_False by lia.
  - intros o. rewrite length_app. intros Hoo.
    destruct (decide (o < off + Z.of_nat (length bs1))) as [Hlt|Hge]; [|apply B7; lia].
    pose proof (A7 o ltac:(lia)) as Hn. pose proof (byte_block o ltac:(lia)) as Hbn.
    rewrite <- (fslot_block v3), (fr_slots _ _ _ _ _ B5); rewrite ?fslot_block; (done || lia).
Qed.

(** Allocating blocks writes nothing. *)
Lemma bmapped_wrote s s' v v' L L' L0 K0 K1 d p ip bn a off :
  bmapped dev start size s s' v v' [] L L' d p ip bn a -> 0 <= K0 -> K1 < MAXFILE -> K0 <= bn <= K1 ->
  logs_in (fs_sb s) L0 K0 K1 v (geti s ip) L -> wrote s s' v v' L0 L' K0 K1 d p ip off [].
Proof.
  intros [B1 B2 B3 B4 B5 B6 B7 B8 B9 B10] HK0 HK1 Hbn HL. split; try done.
  - intros o Ho. simpl. rewrite decide_False by lia. by apply grown_fcont.
  - intros o. simpl. lia.
  - pose proof (logs_in_frame _ _ _ _ _ _ _ _ _ HK0 HK1 B5 HL) as HL'.
    intros b Hb. destruct (B7 b Hb) as [Hb'|[Hb'|(k & Hk & E)]]; [by apply HL'|tauto|].
    right; right. exists k. split; [|done]. destruct Hk; [left; lia|tauto].
Qed.

(** One block: [data] goes to offset [off mod BSIZE] of the block found. *)
Lemma chunk_wrote s s1 v v1 L0 L1 K0 K1 d p ip bn off data :
  let x1 := geti s1 ip in
  let a := baddr v1 x1 bn in
  let blk := splice (v1 a) (off mod BSIZE) data in
  wrote s s1 v v1 L0 L1 K0 K1 d p ip off [] -> (ip < length (fs_itable s))%nat -> bn = off / BSIZE ->
  0 <= off -> off mod BSIZE + Z.of_nat (length data) <= BSIZE -> 0 <= bn < MAXFILE -> K0 <= bn <= K1 -> a <> 0 ->
  (length L1 < NBUF)%nat -> Z.of_nat (length L1) < size - 1 -> Z.of_nat (length L1) < LOGSIZE ->
  exists bp s2 s3, fbread dev a s1 = Ret bp s2 /\ fbdata bp s2 = Ret (v1 a) s2 /\
    (fbset bp blk ;;; flog_write bp ;;; fbrelse bp) s2 = Ret tt s3 /\
    wrote s s3 v (fupd v1 a blk) L0 (logged a L1) K0 K1 d p ip off data.
Proof.
  intros x1 a blk [W1 W2 W3 W4 W5 W6 W7 W8] Hip -> Ho Hfit Hbn HK Ha HL0 HL1 HL2. fold x1 in W2, W4, W5, W6, W7, W8.
  pose proof (own_data _ _ _ _ _ _ _ W4 Hbn Ha) as [D1 D2 D3 D4 D5 D6]. fold a in D1, D2, D3, D4, D5, D6, Ha.
  pose proof (own_ind _ _ _ _ _ _ _ W4 Hbn Ha) as Hai. fold a in Hai.
  pose proof (Z.mod_pos_bound off BSIZE ltac:(done)) as Hmod.
  assert (length blk = Z.to_nat BSIZE) as Hbl by (unfold blk; rewrite length_splice; rewrite ?D5; change BSIZE with 1024 in *; (done || lia)).
  pose proof (held_used_le [] L1) as Hul. cbn [length] in Hul.
  destruct (fbread_ok dev start size s1 v1 [] L1 d p a W1 D3) as (bp & s2 & E1 & T2 & Hh2 & K2 & R2); [right; lia|].
  pose proof (fbdata_ok dev start size s2 v1 _ L1 d p a bp T2 Hh2 ltac:(left)) as E2.
  pose proof (dm_size _ _ _ _ _ W3) as Hsz.
  destruct (fput_ok dev start size s2 v1 [] L1 d p a bp blk T2 Hh2) as (s3 & E3 & T3 & K3 & R3); [lia|done|done|done|].
  exists bp, s2, s3. split; [done|]. split; [done|]. split; [done|].
  assert (same_rest s1 s3) as R by (by eapply same_rest_trans).
  assert (geti s3 ip = x1) as Hg by (by apply geti_rest).
  split; rewrite ?Hg.
  - exact T3.
  - by eapply same_rest_trans.
  - by apply disk_map_fupd.
  - by apply file_wf_fupd.
  - eapply frame_trans; [exact W5|]. by eapply own_frame.
  - intros o Hoo. unfold fcont. rewrite (own_block start size (fs_sb s) v1 [] x1 (off / BSIZE) blk) by (done || by apply byte_block).
    fold a. specialize (W6 o Hoo). simpl in W6. rewrite decide_False in W6 by lia.
    case_decide as E.
    + unfold blk. pose proof (Z.mod_pos_bound o BSIZE ltac:(done)).
      rewrite nth_splice by (rewrite ?D5; change BSIZE with 1024 in *; lia).
      assert (fcont v1 x1 o = nth (Z.to_nat (o mod BSIZE)) (v1 a) 0) as Hc.
      { unfold fcont, fblock. rewrite E. fold a. by replace (a =? 0) with false by (symmetry; by apply Z.eqb_neq). }
      change BSIZE with 1024 in *. rewrite <- Hc, W6. unfold fcont. change BSIZE with 1024.
      repeat case_decide; try reflexivity; try (exfalso; Z.div_mod_to_equations; lia).
      f_equal. Z.div_mod_to_equations. lia.
    + rewrite decide_False; [exact W6|]. change BSIZE with 1024 in *. intros Hr. apply E. Z.div_mod_to_equations. lia.
  - intros o Hoo. assert (o / BSIZE = off / BSIZE) as -> by (change BSIZE with 1024 in *; Z.div_mod_to_equations; lia).
    rewrite <- fslot_block, fslot_fupd by done. by rewrite fslot_block.
  - intros b. rewrite elem_logged. intros [Hb| ->].
    + destruct (W8 b Hb) as [?|[?|(k & Hk & E & Hn)]]; [tauto|tauto|]. right; right. exists k.
      rewrite fslot_fupd by done. done.
    + right; right. exists (off / BSIZE). rewrite fslot_fupd, fslot_block by done. split; [tauto|done].
Qed.

(** The buffers and the log have room for one more block and what allocating
    it takes, whatever of the blocks allowed has been logged. *)
Definition budget (L0 : list Z) (K0 K1 : Z) : Prop :=
  let n := Z.of_nat (length L0) + 2 + (K1 + 1 - K0) in
  n + 6 < size - 1 /\ n + 6 < LOGSIZE /\ n + 5 < Z.of_nat NBUF.

Lemma budget_ok L0 K0 K1 sb s v x L d p : budget L0 K0 K1 -> txn s v [] L d p -> disk_map sb v [] -> sb_size sb <= BPB ->
  K0 <= K1 + 1 -> logs_in sb L0 K0 K1 v x L ->
  (length L + 5 < NBUF)%nat /\ Z.of_nat (length L) + 6 < size - 1 /\ Z.of_nat (length L) + 6 < LOGSIZE.
Proof.
  intros [B1 [B2 B3]] T D Hsz HK HL. assert (NoDup L) as Hnd by (rewrite <- (tx_homes _ _ _ _ _ _ _ _ _ T); apply (tx_head _ _ _ _ _ _ _ _ _ T)).
  pose proof (logs_in_length _ _ _ _ _ _ _ _ _ _ Hnd D Hsz HK HL). lia.
Qed.

Section loop.
Context `{I : KernelImage}.

Lemma writei_loop_S fuel ip bs off tot n :
  writei_loop (S fuel) ip (FromKernel bs) off tot n =
      (if tot <? n then
        addr <- bmap ip (off / BSIZE) ;;
        if addr =? 0 then kret (tot, off)
        else
          x <- inget ip ;;
          bp <- fbread (i_dev x) addr ;;
          let m := Z.min (n - tot) (BSIZE - off mod BSIZE) in
          d <- fbdata bp ;;
          (fbset bp (splice d (off mod BSIZE) (sub bs tot m)) ;;;
           flog_write bp ;;;
           fbrelse bp ;;;
           writei_loop fuel ip (FromKernel bs) (uint32 (off + m)) (tot + m) n)
      else kret (tot, off)).
Proof. reflexivity. Qed.

Lemma wrote_nil s v L0 K0 K1 L d p ip off : txn s v [] L d p -> (ip < length (fs_itable s))%nat ->
  disk_map (fs_sb s) v [] -> file_wf (fs_sb s) v [] (geti s ip) -> logs_in (fs_sb s) L0 K0 K1 v (geti s ip) L ->
  wrote s s v v L0 L K0 K1 d p ip off [].
Proof.
  intros T Hip D W HL. split; try done.
  - by rewrite seti_geti; [apply same_rest_refl|].
  - apply frame_refl.
  - intros o Hoo. simpl. by rewrite decide_False by lia.
  - intros o. simpl. lia.
Qed.

Lemma wrote_other s s' v v' L0 L' K0 K1 d p ip off bs : wrote s s' v v' L0 L' K0 K1 d p ip off bs ->
  (ip < length (fs_itable s))%nat ->
  fs_sb s' = fs_sb s /\ length (fs_itable s') = length (fs_itable s) /\ i_dev (geti s' ip) = i_dev (geti s ip).
Proof.
  intros W Hip. pose proof (wr_rest _ _ _ _ _ _ _ _ _ _ _ _ _ W) as R. split; [apply R|]. split.
  - rewrite (sr_itable _ _ R). apply length_insert.
  - by rewrite (fr_inode _ _ _ _ _ (wr_frame _ _ _ _ _ _ _ _ _ _ _ _ _ W)).
Qed.

(** The fuel that is left after a block. *)
Lemma fuel_step off tot n fuel : 0 <= off -> tot < n ->
  tot = n \/ off mod BSIZE + (n - tot) <= (Z.of_nat (S fuel) - 1) * BSIZE ->
  let m := Z.min (n - tot) (BSIZE - off mod BSIZE) in
  (tot + m = n \/ (off + m) mod BSIZE + (n - (tot + m)) <= (Z.of_nat fuel - 1) * BSIZE) /\ (0 < fuel)%nat.
Proof.
  intros Ho Ht Hf m. change BSIZE with 1024 in *. unfold m in *. pose proof (Z.mod_pos_bound off 1024 ltac:(lia)).
  split; [|lia]. destruct (decide (n - tot <= 1024 - off mod 1024)); [left; lia|right].
  rewrite Z.min_r by lia. replace ((off + (1024 - off mod 1024)) mod 1024) with 0 by (Z.div_mod_to_equations; lia). lia.
Qed.

Lemma writei_loop_ok fuel : forall s v L0 K0 K1 L d p ip bs off tot n,
  let sb := fs_sb s in
  let x := geti s ip in
  txn s v [] L d p -> (ip < length (fs_itable s))%nat -> i_dev x = dev -> disk_map sb v [] -> file_wf sb v [] x ->
  sb_size sb <= BPB -> budget L0 K0 K1 -> logs_in sb L0 K0 K1 v x L ->
  0 <= off -> 0 <= tot <= n -> n <= Z.of_nat (length bs) -> off + (n - tot) <= MAXFILE * BSIZE ->
  0 <= K0 -> K1 < MAXFILE -> (forall o, off <= o < off + (n - tot) -> K0 <= o / BSIZE <= K1) -> K0 <= K1 + 1 ->
  tot = n \/ off mod BSIZE + (n - tot) <= (Z.of_nat fuel - 1) * BSIZE -> (0 < fuel)%nat ->
  exists k s' v' L', writei_loop fuel ip (FromKernel bs) off tot n s = Ret (tot + k, off + k) s' /\ 0 <= k <= n - tot /\
    wrote s s' v v' L0 L' K0 K1 d p ip off (sub bs tot k) /\
    (k = n - tot \/ (k = 0 \/ (off + k) mod BSIZE = 0) /\ forall b, 0 <= b < sb_size sb -> used sb v' b = true).
Proof.
  induction fuel as [|fuel IH];
    intros s v L0 K0 K1 L d p ip bs off tot n sb x T Hip Hdev D W Hsz Hbud HL Ho Ht Hn Hmax HK0 HK1 HK HKK Hf Hf0; [lia|].
  rewrite writei_loop_S. destruct (Z.ltb_spec tot n) as [E|E].
  2:{ assert (tot = n) as -> by lia. exists 0, s, v, L. rewrite !Z.add_0_r. split; [done|]. split; [lia|]. split; [by apply wrote_nil|left; lia]. }
  destruct (budget_ok _ _ _ _ _ _ _ _ _ _ Hbud T D Hsz HKK HL) as (U1 & U2 & U3).
  assert (0 <= off < MAXFILE * BSIZE) as Hoff by lia.
  pose proof (byte_block off Hoff) as Hbn. pose proof (HK off ltac:(lia)) as HKo.
  destruct (bmap_ok dev start size s v [] L d p ip (off / BSIZE) T Hip Hdev D W) as (a & s1 & v1 & L1 & E1 & B); try done; [simpl; lia|].
  pose proof (bmapped_wrote _ _ _ _ _ _ L0 K0 K1 _ _ _ _ _ off B HK0 HK1 HKo HL) as Wr1.
  rewrite (kbind_ret _ _ _ _ _ E1). pose proof (bp_addr _ _ _ _ _ _ _ _ _ _ _ _ _ _ _ B) as Ea.
  destruct (Z.eqb_spec a 0) as [E0|E0].
  { exists 0, s1, v1, L1. rewrite !Z.add_0_r. split; [done|]. split; [lia|]. split; [exact Wr1|]. right.
    split; [by left|]. intros b Hb. by apply (bp_full _ _ _ _ _ _ _ _ _ _ _ _ _ _ _ B). }
  set (m := Z.min (n - tot) (BSIZE - off mod BSIZE)).
  pose proof (fuel_step off tot n fuel Ho E Hf) as [Hf' Hf0']. fold m in Hf'.
  pose proof (Z.mod_pos_bound off BSIZE ltac:(done)) as Hmod.
  assert (0 < m <= n - tot /\ off mod BSIZE + m <= BSIZE) as [Hm Hm'] by (unfold m; lia).
  pose proof (length_sub bs tot m ltac:(lia) ltac:(lia) ltac:(lia)) as Hls.
  destruct (wrote_other _ _ _ _ _ _ _ _ _ _ _ _ _ Wr1 Hip) as (Hsb1 & _ & Hd1).
  destruct (budget_ok _ _ _ _ _ _ _ _ _ _ Hbud (wr_txn _ _ _ _ _ _ _ _ _ _ _ _ _ Wr1) (wr_map _ _ _ _ _ _ _ _ _ _ _ _ _ Wr1)
    Hsz HKK (wr_log _ _ _ _ _ _ _ _ _ _ _ _ _ Wr1)) as (U4 & U5 & U6).
  destruct (chunk_wrote s s1 v v1 L0 L1 K0 K1 d p ip (off / BSIZE) off (sub bs tot m) Wr1 Hip eq_refl)
    as (bp & s2 & s3 & E2 & E3 & E4 & Wr3); [done|lia|done|done|congruence|lia|lia|lia|].
  rewrite <- Ea in E2, E3, E4, Wr3. change (i_dev (geti s1 ip) = i_dev x) in Hd1. rewrite Hdev in Hd1.
  rewrite (kbind_ret (inget ip) _ s1 (geti s1 ip) s1 eq_refl), Hd1, (kbind_ret _ _ _ _ _ E2).
  cbv zeta. fold m. rewrite (kbind_ret _ _ _ _ _ E3), kbind_assoc3, (kbind_ret _ _ _ _ _ E4).
  change (MAXFILE * BSIZE) with 274432 in Hmax. rewrite uint32_small by lia.
  destruct (wrote_other _ _ _ _ _ _ _ _ _ _ _ _ _ Wr3 Hip) as (Hsb3 & Hl3 & Hd3).
  destruct (IH s3 _ L0 K0 K1 _ d p ip bs (off + m) (tot + m) n (wr_txn _ _ _ _ _ _ _ _ _ _ _ _ _ Wr3))
    as (k & s4 & v4 & L4 & E5 & Hk & Wr4 & Hfull); rewrite ?Hsb3; try done; try lia.
  - etrans; [exact Hd3|exact Hdev].
  - apply Wr3.
  - apply Wr3.
  - apply Wr3.
  - change (MAXFILE * BSIZE) with 274432. lia.
  - intros o Hoo. apply HK. lia.
  - exists (m + k), s4, v4, L4. rewrite E5, !Z.add_assoc. split; [done|]. split; [lia|]. split.
    + rewrite sub_app by lia. eapply wrote_trans; [done| |exact Wr3|by rewrite Hls].
      change (MAXFILE * BSIZE) with 274432. lia.
    + rewrite Hsb3 in Hfull. destruct Hfull as [|[Hal Hfull]]; [left; lia|]. destruct (decide (m = n - tot)); [left; lia|].
      right. split; [right|done]. destruct Hal as [->|]; [|done].
      unfold m in *. change BSIZE with 1024 in *. Z.div_mod_to_equations. lia.
Qed.

(** ** writei *)

(** What [writei] does: the bytes are there, the size covers them, the inode on
    disk is up to date and no other block in use has changed. *)
Record written (s s' : fstate) (v v' : Z -> block) (L' : list Z) (d : disk) (p : Z) (ip : nat)
    (off : Z) (bs : list Z) : Prop := {
  wn_txn : txn s' v' [] L' d p;
  wn_rest : same_rest (seti s ip (geti s' ip)) s';
  wn_map : disk_map (fs_sb s) v' [];
  wn_wf : file_wf (fs_sb s) v' [] (geti s' ip);
  wn_inode : geti s' ip = set_size (Z.max (i_size (geti s ip)) (off + Z.of_nat (length bs)))
    (with_addrs (geti s ip) (i_addrs (geti s' ip)));
  wn_slots : forall k, 0 <= k <= MAXFILE -> fslot v (geti s ip) k <> 0 -> fslot v' (geti s' ip) k = fslot v (geti s ip) k;
  wn_other : forall b, foreign (fs_sb s) v (geti s ip) b -> foreign (fs_sb s) v' (geti s' ip) b /\
    (b <> IBLOCK (i_inum (geti s ip)) (fs_sb s) -> v' b = v b);
  wn_cont : forall o, 0 <= o < MAXFILE * BSIZE ->
    fcont v' (geti s' ip) o = if decide (off <= o < off + Z.of_nat (length bs)) then nth (Z.to_nat (o - off)) bs 0
                              else fcont v (geti s ip) o;
  wn_mapped : forall o, off <= o < off + Z.of_nat (length bs) -> baddr v' (geti s' ip) (o / BSIZE) <> 0;
  wn_dinode : let x := geti s ip in let ib := IBLOCK (i_inum x) (fs_sb s) in
    v' ib = put_dinode (geti s' ip) (v ib) (dinode_off (i_inum x))
}.

(** A change to a block that is not the file's. *)
Lemma fcont_fupd sb v x b y o : foreign sb v x b -> 0 <= o < MAXFILE * BSIZE -> fcont (fupd v b y) x o = fcont v x o.
Proof.
  intros [F1 F2 F3 F4] Ho. pose proof (byte_block o Ho) as Hbn. unfold fcont, fblock.
  pose proof (F4 MAXFILE ltac:(done)) as Hi. rewrite fslot_ind in Hi.
  pose proof (fslot_fupd v x b y (o / BSIZE) ltac:(done)) as E. rewrite !fslot_block in E by done. rewrite E.
  destruct (Z.eqb_spec (baddr v x (o / BSIZE)) 0); [done|]. rewrite fupd_other; [done|].
  pose proof (F4 (o / BSIZE) ltac:(lia)) as Hb. by rewrite fslot_block in Hb.
Qed.

Lemma wrote_written s s1 s2 v v1 L0 L1 L2 K0 K1 d p ip off bs :
  let x := geti s ip in
  let ib := IBLOCK (i_inum x) (fs_sb s) in
  let x2 := set_size (Z.max (i_size x) (off + Z.of_nat (length bs))) (geti s1 ip) in
  wrote s s1 v v1 L0 L1 K0 K1 d p ip off bs -> foreign (fs_sb s) v x ib -> length (v ib) = Z.to_nat BSIZE ->
  geti s2 ip = x2 -> same_rest (seti s1 ip x2) s2 ->
  txn s2 (fupd v1 ib (put_dinode x2 (v1 ib) (dinode_off (i_inum x)))) [] L2 d p ->
  written s s2 v (fupd v1 ib (put_dinode x2 (v1 ib) (dinode_off (i_inum x)))) L2 d p ip off bs.
Proof.
  intros x ib x2 [W1 W2 W3 W4 W5 W6 W7 W8] Hfor Hlen Hg R T2.
  destruct (fr_other _ _ _ _ _ W5 ib Hfor) as [Hvib Hfor1].
  pose proof (fo_bm _ _ _ _ Hfor1) as Hbm. pose proof (fo_file _ _ _ _ Hfor1 MAXFILE ltac:(done)) as Hi. rewrite fslot_ind in Hi.
  assert (length (put_dinode x2 (v1 ib) (dinode_off (i_inum x))) = Z.to_nat BSIZE) as Hlp by (by rewrite length_put_dinode, Hvib).
  assert (forall k, fslot (fupd v1 ib (put_dinode x2 (v1 ib) (dinode_off (i_inum x)))) x2 k = fslot v1 (geti s1 ip) k) as Hsl.
  { intros k. by apply (fslot_fupd v1 x2). }
  split; rewrite ?Hg; try done.
  - by eapply rest_seti.
  - by apply disk_map_fupd.
  - apply file_wf_fupd; try done. destruct W4. by split.
  - unfold x2. by rewrite (fr_inode _ _ _ _ _ W5) at 1.
  - intros k Hk Hn. rewrite Hsl. by apply W5.
  - intros b Hb. destruct (fr_other _ _ _ _ _ W5 b Hb) as [Hvb [G1 G2 G3 G4]]. split.
    + split; try done; [rewrite used_fupd; [done|apply Hbm; lia]|]. intros k Hk. rewrite Hsl. by apply G4.
    + intros Hne. by rewrite fupd_other.
  - intros o Ho. rewrite <- W6 by done. by apply (fcont_fupd (fs_sb s) v1 (geti s1 ip)).
  - intros o Ho. specialize (W7 o Ho). intros E. apply W7. rewrite <- E. symmetry. unfold baddr.
    rewrite (fupd_other v1 ib) by (intros E'; by apply Hi). done.
  - cbv zeta. fold x ib. by rewrite fupd_same, Hvib.
Qed.

(** The end of [writei]: the size and the inode on disk. *)
Lemma writei_finish s s1 v v1 L0 L1 K0 K1 d p ip off bs :
  let x := geti s ip in
  let ib := IBLOCK (i_inum x) (fs_sb s) in
  let e := off + Z.of_nat (length bs) in
  wrote s s1 v v1 L0 L1 K0 K1 d p ip off bs -> (ip < length (fs_itable s))%nat -> i_dev x = dev ->
  iblock_ok start size (fs_sb s) v [] (i_inum x) -> foreign (fs_sb s) v x ib ->
  (length L1 < NBUF)%nat -> Z.of_nat (length L1) < size - 1 -> Z.of_nat (length L1) < LOGSIZE ->
  exists s2 v2,
    (x <- inget ip ;; (if i_size x <? e then inmod ip (set_size e) else kret tt) ;;; iupdate ip) s1 = Ret tt s2 /\
    written s s2 v v2 (logged ib L1) d p ip off bs /\
    (forall b, 0 <= b < sb_size (fs_sb s) -> used (fs_sb s) v2 b = used (fs_sb s) v1 b).
Proof.
  intros x ib e Wr Hip Hdev [J1 J2 J3 J4] Hfor HL0 HL1 HL2. pose proof Wr as [W1 W2 W3 W4 W5 W6 W7 W8].
  set (x1 := geti s1 ip) in *. pose proof (fr_inode _ _ _ _ _ W5) as Hx1.
  set (x2 := set_size (Z.max (i_size x) e) x1).
  assert (fs_sb s1 = fs_sb s) as Hsb by apply W2.
  assert (ip < length (fs_itable s1))%nat as Hip1 by (rewrite (sr_itable _ _ W2); cbn [seti fs_itable]; by rewrite length_insert).
  assert (i_size x1 = i_size x) as Hs1 by (by rewrite Hx1).
  assert ((if i_size x1 <? e then inmod ip (set_size e) else kret tt) s1 = Ret tt (seti s1 ip x2)) as E1.
  { rewrite Hs1. destruct (Z.ltb_spec (i_size x) e).
    - unfold inmod, x2. by rewrite Z.max_r by lia.
    - unfold x2. rewrite Z.max_l by lia. rewrite <- Hs1. unfold kret. f_equal.
      assert (set_size (i_size x1) x1 = x1) as -> by (by destruct x1). symmetry. by apply seti_geti. }
  rewrite (kbind_ret (inget ip) _ s1 x1 s1 eq_refl), (kbind_ret _ _ _ _ _ E1).
  assert (geti (seti s1 ip x2) ip = x2) as Hg2 by (rewrite geti_seti by done; by rewrite decide_True).
  assert (i_inum x2 = i_inum x /\ i_dev x2 = dev) as [Hin Hd2] by (unfold x2; cbn [set_size i_inum i_dev]; rewrite Hx1; done).
  destruct (fr_other _ _ _ _ _ W5 ib Hfor) as [Hvib Hfor1].
  destruct (iupdate_ok dev start size (seti s1 ip x2) v1 [] L1 d p ip) as (s2 & E2 & T2 & _ & R2);
    rewrite ?Hg2, ?Hin; cbn [seti fs_sb]; rewrite ?Hsb; try done.
  { by apply txn_seti. }
  { split; fold ib; try done. by rewrite Hvib. }
  { right. pose proof (held_used_le [] L1) as Hu. cbn [length] in Hu. lia. }
  assert (geti s2 ip = x2) as Hgs2 by (rewrite (geti_rest _ _ ip R2); done).
  rewrite Hg2 in T2. cbn [seti fs_sb] in T2. rewrite Hsb, ?Hin in T2. fold ib in T2.
  eexists s2, _. split; [done|]. split.
  - eapply wrote_written; try done. unfold iview in T2. rewrite Hin in T2. exact T2.
  - intros b Hb. apply used_fupd. by apply Hfor.
Qed.

(** The first and the last block of a range of bytes. *)
Definition first_block (off : Z) : Z := off / BSIZE.
Definition last_block (off n : Z) : Z := (off + n - 1) / BSIZE.

(** A file that may be written: mounted, open and locked, with its inode in a
    block of its own kind. *)
Record writable_file (s : fstate) (v : Z -> block) (ip : nat) : Prop := {
  wf_slot : (ip < length (fs_itable s))%nat;
  wf_dev : i_dev (geti s ip) = dev;
  wf_map : disk_map (fs_sb s) v [];
  wf_file : file_wf (fs_sb s) v [] (geti s ip);
  wf_iblock : iblock_ok start size (fs_sb s) v [] (i_inum (geti s ip));
  wf_foreign : foreign (fs_sb s) v (geti s ip) (IBLOCK (i_inum (geti s ip)) (fs_sb s))
}.

Lemma writei_ok s v L d p ip bs off :
  let sb := fs_sb s in
  let n := Z.of_nat (length bs) in
  let K0 := first_block off in
  let K1 := last_block off n in
  txn s v [] L d p -> writable_file s v ip -> sb_size sb <= BPB -> budget L K0 K1 ->
  0 <= off <= i_size (geti s ip) -> off + n <= MAXFILE * BSIZE ->
  exists k s' v' L', writei ip (FromKernel bs) off n s = Ret k s' /\ 0 <= k <= n /\
    written s s' v v' L' d p ip off (take (Z.to_nat k) bs) /\
    Z.of_nat (length L') <= Z.of_nat (length L) + (K1 + 1 - K0) + 3 /\
    (k = n \/ (k = 0 \/ (off + k) mod BSIZE = 0) /\ forall b, 0 <= b < sb_size sb -> used sb v' b = true).
Proof.
  intros sb n K0 K1 T [F1 F2 F3 F4 F5 F6] Hsz Hbud Ho Hmax. set (x := geti s ip) in *.
  assert (0 <= n) as Hn by (unfold n; lia).
  assert (0 <= K0 /\ K1 < MAXFILE /\ K0 <= K1 + 1 /\ forall o, off <= o < off + (n - 0) -> K0 <= o / BSIZE <= K1) as (HK0 & HK1 & HKK & HK).
  { unfold K0, K1, first_block, last_block. change MAXFILE with 268 in *. change BSIZE with 1024 in *.
    split; [Z.div_mod_to_equations; lia|]. split; [Z.div_mod_to_equations; lia|]. split; [Z.div_mod_to_equations; lia|].
    intros o Hoo. Z.div_mod_to_equations. lia. }
  pose proof (Z.mod_pos_bound off BSIZE ltac:(done)) as Hmod.
  destruct (writei_loop_ok (S (S (Z.to_nat (n / BSIZE + 1)))) s v L K0 K1 L d p ip bs off 0 n T F1 F2 F3 F4 Hsz Hbud)
    as (k & s1 & v1 & L1 & E1 & Hk & Wr & Hfull); try done; try lia.
  { intros b Hb. by left. }
  { right. change BSIZE with 1024 in *. Z.div_mod_to_equations. lia. }
  assert (sub bs 0 k = take (Z.to_nat k) bs) as Hsub by (unfold sub; by rewrite drop_0). rewrite Hsub in Wr.
  assert (Z.of_nat (length (take (Z.to_nat k) bs)) = k) as Hlt by (rewrite length_take; unfold n in *; lia).
  assert (NoDup L1) as Hnd.
  { pose proof (wr_txn _ _ _ _ _ _ _ _ _ _ _ _ _ Wr) as T1. rewrite <- (tx_homes _ _ _ _ _ _ _ _ _ T1). apply (tx_head _ _ _ _ _ _ _ _ _ T1). }
  pose proof (logs_in_length _ _ _ _ _ _ _ _ _ _ Hnd (wr_map _ _ _ _ _ _ _ _ _ _ _ _ _ Wr) Hsz HKK (wr_log _ _ _ _ _ _ _ _ _ _ _ _ _ Wr)) as HLL.
  destruct Hbud as [B1 [B2 B3]].
  destruct (writei_finish s s1 v v1 L L1 K0 K1 d p ip off _ Wr F1 F2 F5 F6) as (s2 & v2 & E2 & Wn & Hus); [lia|lia|lia|].
  rewrite Hlt in E2. eexists k, s2, v2, _. split; [|split; [lia|split; [exact Wn|split]]].
  - unfold writei. rewrite (kbind_ret (inget ip) _ s x s eq_refl).
    replace (i_size x <? off) with false by (symmetry; apply Z.ltb_ge; lia).
    assert (off + n < 2 ^ 32) as H32 by (change (MAXFILE * BSIZE) with 274432 in Hmax; lia).
    rewrite uint32_small by lia. replace (off + n <? off) with false by (symmetry; apply Z.ltb_ge; lia). cbn [orb].
    replace (MAXFILE * BSIZE <? off + n) with false by (symmetry; apply Z.ltb_ge; lia).
    rewrite (kbind_ret _ _ _ _ _ E1). cbn [fst snd].
    apply kbind_inv in E2 as (x1 & sa & Ea & E2). rewrite (kbind_ret _ _ _ _ _ Ea).
    apply kbind_inv in E2 as ([] & sb' & Eb & E2). rewrite (kbind_ret _ _ _ _ _ Eb), (kbind_ret _ _ _ _ _ E2). done.
  - pose proof (length_logged (IBLOCK (i_inum (geti s ip)) (fs_sb s)) L1). lia.
  - destruct Hfull as [Hf|[Hal Hf]]; [left; lia|]. right. split; [done|]. intros b Hb.
    unfold sb. rewrite Hus by done. by apply Hf.
Qed.

(** The bytes of the file below its new size are mapped. *)
Lemma written_mapped s s' v v' L' d p ip off bs bn :
  written s s' v v' L' d p ip off bs -> 0 <= off <= i_size (geti s ip) -> off + Z.of_nat (length bs) <= MAXFILE * BSIZE ->
  i_size (geti s ip) <= MAXFILE * BSIZE ->
  (forall bn, 0 <= bn -> bn * BSIZE < i_size (geti s ip) -> baddr v (geti s ip) bn <> 0) ->
  0 <= bn -> bn * BSIZE < i_size (geti s' ip) -> baddr v' (geti s' ip) bn <> 0.
Proof.
  intros Wn Ho Hmax Hs0 Hm Hbn Hlt. rewrite (wn_inode _ _ _ _ _ _ _ _ _ _ Wn) in Hlt. cbn [set_size i_size] in Hlt.
  destruct (decide (bn * BSIZE < i_size (geti s ip))) as [Hl|Hl].
  - specialize (Hm bn Hbn Hl). assert (0 <= bn < MAXFILE) as Hb by (change BSIZE with 1024 in *; change MAXFILE with 268 in *; lia).
    rewrite <- fslot_block, (wn_slots _ _ _ _ _ _ _ _ _ _ Wn) by (rewrite ?fslot_block; done || lia). by rewrite fslot_block.
  - pose proof (wn_mapped _ _ _ _ _ _ _ _ _ _ Wn (bn * BSIZE) ltac:(lia)) as Hmm. by rewrite Z.div_mul in Hmm.
Qed.

Lemma written_writable s s' v v' L' d p ip off bs :
  written s s' v v' L' d p ip off bs -> writable_file s v ip -> writable_file s' v' ip.
Proof.
  intros Wn [F1 F2 F3 F4 F5 F6]. pose proof (wn_rest _ _ _ _ _ _ _ _ _ _ Wn) as R.
  pose proof (wn_inode _ _ _ _ _ _ _ _ _ _ Wn) as Hx. pose proof (wn_dinode _ _ _ _ _ _ _ _ _ _ Wn) as Hd. cbv zeta in Hd.
  destruct (wn_other _ _ _ _ _ _ _ _ _ _ Wn _ F6) as [Hf _].
  assert (i_inum (geti s' ip) = i_inum (geti s ip)) as Hin by (by rewrite Hx).
  assert (fs_sb s' = fs_sb s) as Hsb by apply R.
  split; rewrite ?Hsb, ?Hin; try done; [|by rewrite Hx|apply Wn|apply Wn|].
  - rewrite (sr_itable _ _ R). cbn [seti fs_itable]. by rewrite length_insert.
  - destruct F5 as [J1 J2 J3 J4]. split; try done. by rewrite Hd, length_put_dinode.
Qed.

(** Reading after a write. *)
Lemma written_read s s' v v' L' d p ip off bs dst off' n' :
  let x := geti s ip in
  let x' := geti s' ip in
  written s s' v v' L' d p ip off bs -> writable_file s v ip ->
  0 <= off <= i_size x -> off + Z.of_nat (length bs) <= MAXFILE * BSIZE -> i_size x <= MAXFILE * BSIZE ->
  (forall bn, 0 <= bn -> bn * BSIZE < i_size x -> baddr v x bn <> 0) -> (length L' < NBUF)%nat ->
  0 <= off' <= i_size x' -> 0 <= n' -> off' + n' < 2 ^ 32 ->
  exists got s2, readi ip false dst off' n' s' = Ret (Z.of_nat (length got), got) s2 /\
    Z.of_nat (length got) = Z.min n' (i_size x' - off') /\
    forall i y, got !! i = Some y ->
      let o := off' + Z.of_nat i in
      y = if decide (off <= o < off + Z.of_nat (length bs)) then nth (Z.to_nat (o - off)) bs 0 else fbyte v x o.
Proof.
  intros x x' Wn F Ho Hmax Hs0 Hm HL Ho' Hn' H32. pose proof (wn_inode _ _ _ _ _ _ _ _ _ _ Wn) as Hx.
  assert (i_size x' = Z.max (i_size x) (off + Z.of_nat (length bs))) as Hs by (unfold x'; by rewrite Hx).
  assert (forall bn, 0 <= bn -> bn * BSIZE < i_size x' -> baddr v' x' bn <> 0) as Hm' by (intros; by eapply written_mapped).
  pose proof (held_used_le [] L') as Hu. cbn [length] in Hu.
  destruct (readi_ok dev start size s' v' [] L' d p ip dst off' n') as (s2 & E & _); try done; try (fold x'; lia).
  - apply Wn.
  - apply (wf_dev _ _ _ (written_writable _ _ _ _ _ _ _ _ _ _ Wn F)).
  - intros bn Hbn Hlt. eapply wf_block_ok; [apply Wn| |by apply Hm']. fold x' in Hlt. rewrite Hs in Hlt.
    change BSIZE with 1024 in *. change MAXFILE with 268 in *. lia.
  - fold x' in E. exists (fbytes v' x' off' (Z.min n' (i_size x' - off'))), s2. rewrite length_fbytes. rewrite Z2Nat.id by lia. split; [exact E|]. split; [done|].
    intros i y Hi. cbv zeta. unfold fbytes in Hi. rewrite list_lookup_fmap in Hi.
    destruct (decide (i < Z.to_nat (Z.min n' (i_size x' - off')))%nat) as [Hlt|Hge].
    2:{ rewrite (lookup_ge_None_2 (seq _ _)) in Hi by (rewrite length_seq; lia). done. }
    rewrite lookup_seq_lt in Hi by done. cbn [fmap option_fmap option_map] in Hi. injection Hi as <-.
    set (o := off' + Z.of_nat i). assert (0 <= o < i_size x') as Hoo by (unfold o; lia).
    assert (0 <= o < MAXFILE * BSIZE) as Hom by lia.
    rewrite <- fcont_fbyte by (apply Hm'; change BSIZE with 1024 in *; Z.div_mod_to_equations; lia).
    unfold x'. rewrite (wn_cont _ _ _ _ _ _ _ _ _ _ Wn) by done. case_decide; [done|].
    apply fcont_fbyte, Hm; change BSIZE with 1024 in *; Z.div_mod_to_equations; lia.
Qed.

(** The addresses of a file are numbers of blocks. *)
Lemma wf_addrs sb v H x : file_wf sb v H x -> sb_size sb <= BPB -> Forall (fun a => 0 <= a < 2 ^ 32) (i_addrs x).
Proof.
  intros [W1 W2 _] Hsz. apply Forall_lookup. intros i a Ha.
  assert (i < Z.to_nat (NDIRECT + 1))%nat as Hi by (rewrite <- W1; by eapply lookup_lt_Some).
  set (k := if decide (i = Z.to_nat NDIRECT) then MAXFILE else Z.of_nat i).
  assert (0 <= k <= MAXFILE /\ fslot v x k = a) as [Hk Hf].
  { unfold k. change NDIRECT with 12 in *. change MAXFILE with 268. case_decide as E.
    - split; [lia|]. change 268 with MAXFILE. rewrite fslot_ind. unfold iaddr. change NDIRECT with 12. by rewrite <- E, nth_lookup, Ha.
    - split; [lia|]. rewrite fslot_block by (change MAXFILE with 268; lia). unfold baddr. rewrite (proj2 (Z.ltb_lt _ _)) by (change NDIRECT with 12; lia).
      unfold iaddr. by rewrite Nat2Z.id, nth_lookup, Ha. }
  destruct (decide (a = 0)) as [->|Ha0]; [lia|]. rewrite <- Hf in Ha0. destruct (W2 k Hk Ha0) as [Hr _ _ _ _ _].
  rewrite Hf in Hr. change BPB with 8192 in Hsz. lia.
Qed.

(** The inode block after a write: the inode as it is in memory, and the others
    as before. *)
Lemma written_dinode s s' v v' L' d p ip off bs :
  let x := geti s ip in
  let ib := IBLOCK (i_inum x) (fs_sb s) in
  written s s' v v' L' d p ip off bs -> writable_file s v ip -> sb_size (fs_sb s) <= BPB ->
  0 <= off -> off + Z.of_nat (length bs) <= MAXFILE * BSIZE -> i_size x <= MAXFILE * BSIZE ->
  (inode_ok x -> forall y, get_dinode (v' ib) (dinode_off (i_inum x)) y =
     Inode (i_dev y) (i_inum y) (i_ref y) (i_lock y) (i_valid y) (i_type x) (i_major x) (i_minor x) (i_nlink x)
       (i_size (geti s' ip)) (i_addrs (geti s' ip))) /\
  (forall j y, 0 <= j -> j mod IPB <> i_inum x mod IPB -> get_dinode (v' ib) (dinode_off j) y = get_dinode (v ib) (dinode_off j) y).
Proof.
  intros x ib Wn F Hsz H0 Hmax Hs0. pose proof (wn_dinode _ _ _ _ _ _ _ _ _ _ Wn) as Hd. cbv zeta in Hd. fold x ib in Hd.
  pose proof (ib_len _ _ _ _ _ _ (wf_iblock _ _ _ F)) as Hlen. fold x ib in Hlen. pose proof (wn_wf _ _ _ _ _ _ _ _ _ _ Wn) as Hw.
  pose proof (Z.mod_pos_bound (i_inum x) IPB ltac:(done)) as Hmod. rewrite Hd. split.
  - intros [I1 I2 I3 I4 I5 _ _] y. pose proof (wn_inode _ _ _ _ _ _ _ _ _ _ Wn) as Hx. fold x in Hx.
    rewrite get_put_dinode.
    + by rewrite Hx.
    + split; try (rewrite Hx; done); [|apply Hw|by eapply wf_addrs].
      rewrite Hx. cbn [set_size i_size]. change (MAXFILE * BSIZE) with 274432 in *. lia.
    + unfold dinode_off, DINODE. lia.
    + rewrite Hlen. unfold dinode_off, DINODE. change IPB with 16 in *. change BSIZE with 1024. lia.
  - intros j y Hj Hne. assert (dinode_off (i_inum x) = dinode_off (i_inum x mod IPB)) as -> by (unfold dinode_off; by rewrite Z.mod_mod).
    apply get_put_dinode_other; [apply Hw|done|lia|done|]. rewrite Z.mod_mod by done. congruence.
Qed.

(** C22: A file is what was written to it.  Writing [bs] at an offset inside
    the file or at its end, with any blocks and the block of addresses still
    to be allocated, writes the first [k] bytes, all of them unless the disk
    is full, when it stops at the end of a block.  The size of the inode grows
    to cover them, at most its addresses change besides, and the inode block
    then holds the inode with its new size and addresses and every other
    inode as before.  At most the blocks of the range and three more are
    logged, and no block of another file changes.  After it, [readi] at any
    offset returns the bytes written where they were written and the old bytes
    everywhere else. *)
Theorem writei_readi s v L d p ip bs off :
  let sb := fs_sb s in
  let x := geti s ip in
  let ib := IBLOCK (i_inum x) sb in
  let n := Z.of_nat (length bs) in
  let K0 := first_block off in
  let K1 := last_block off n in
  txn s v [] L d p -> writable_file s v ip -> sb_size sb <= BPB -> budget L K0 K1 ->
  0 <= off <= i_size x -> off + n <= MAXFILE * BSIZE -> i_size x <= MAXFILE * BSIZE ->
  (forall bn, 0 <= bn -> bn * BSIZE < i_size x -> baddr v x bn <> 0) ->
  exists k s1 v1 L1, writei ip (FromKernel bs) off n s = Ret k s1 /\ 0 <= k <= n /\
    txn s1 v1 [] L1 d p /\ writable_file s1 v1 ip /\ i_size (geti s1 ip) = Z.max (i_size x) (off + k) /\
    (k = n \/ (k = 0 \/ (off + k) mod BSIZE = 0) /\ forall b, 0 <= b < sb_size sb -> used sb v1 b = true) /\
    Z.of_nat (length L1) <= Z.of_nat (length L) + (K1 + 1 - K0) + 3 /\
    geti s1 ip = set_size (Z.max (i_size x) (off + k)) (with_addrs x (i_addrs (geti s1 ip))) /\
    (inode_ok x -> forall y, get_dinode (v1 ib) (dinode_off (i_inum x)) y =
       Inode (i_dev y) (i_inum y) (i_ref y) (i_lock y) (i_valid y) (i_type x) (i_major x) (i_minor x) (i_nlink x)
         (i_size (geti s1 ip)) (i_addrs (geti s1 ip))) /\
    (forall j y, 0 <= j -> j mod IPB <> i_inum x mod IPB -> get_dinode (v1 ib) (dinode_off j) y = get_dinode (v ib) (dinode_off j) y) /\
    (forall b, foreign sb v x b -> b <> ib -> v1 b = v b) /\
    forall dst off' n', 0 <= off' <= i_size (geti s1 ip) -> 0 <= n' -> off' + n' < 2 ^ 32 ->
      exists got s2, readi ip false dst off' n' s1 = Ret (Z.of_nat (length got), got) s2 /\
        Z.of_nat (length got) = Z.min n' (i_size (geti s1 ip) - off') /\
        forall i y, got !! i = Some y ->
          let o := off' + Z.of_nat i in
          y = if decide (off <= o < off + k) then nth (Z.to_nat (o - off)) bs 0 else fbyte v x o.
Proof.
  intros sb x ib n K0 K1 T F Hsz Hbud Ho Hmax Hs0 Hm.
  destruct (writei_ok s v L d p ip bs off T F Hsz Hbud Ho Hmax) as (k & s1 & v1 & L1 & E & Hk & Wn & HL & Hfull).
  fold n in E, Hk, HL, Hfull. pose proof F as [F1 F2 F3 F4 F5 F6]. fold x in F2, F4, F5, F6.
  assert (Z.of_nat (length (take (Z.to_nat k) bs)) = k) as Hlt by (rewrite length_take; unfold n in *; lia).
  pose proof (wn_inode _ _ _ _ _ _ _ _ _ _ Wn) as Hx1. rewrite Hlt in Hx1. fold x in Hx1.
  assert (i_size (geti s1 ip) = Z.max (i_size x) (off + k)) as Hsz1 by (by rewrite Hx1).
  exists k, s1, v1, L1. split; [done|]. split; [done|]. split; [apply Wn|].
  destruct (written_dinode _ _ _ _ _ _ _ _ _ _ Wn F Hsz) as [Hd1 Hd2]; [lia|lia|done|].
  split; [by eapply written_writable|]. repeat (split; [done|]). split.
  - intros b Hb Hne. by apply (wn_other _ _ _ _ _ _ _ _ _ _ Wn b Hb).
  - intros dst off' n' Ho' Hn' H32. destruct Hbud as [B1 [B2 B3]].
    destruct (written_read s s1 v v1 L1 d p ip off _ dst off' n' Wn F Ho) as (got & s2 & E2 & Hlen & Hgot); try done; try lia.
    exists got, s2. split; [done|]. split; [done|]. intros i y Hi. specialize (Hgot i y Hi). rewrite Hlt in Hgot.
    cbv zeta. rewrite Hgot. case_decide; [|done]. rewrite !nth_lookup. by rewrite lookup_take_lt by lia.
Qed.

End loop.
End write.

(** The files of the example have one block. *)
Lemma fslotx v x a k : i_addrs x = addrsx a -> 0 <= k <= MAXFILE -> fslot v x k = if k =? 0 then a else 0.
Proof.
  intros Hx Hk. unfold fslot, baddr, iaddr. rewrite Hx. change (nth (Z.to_nat NDIRECT) (addrsx a) 0) with 0.
  change MAXFILE with 268 in *. change NDIRECT with 12.
  destruct (Z.eqb_spec k 268) as [->|]; [done|]. destruct (Z.ltb_spec k 12).
  - assert (k ∈ [0;1;2;3;4;5;6;7;8;9;10;11]) as Hin by (rewrite !elem_of_cons, elem_of_nil; lia).
    rewrite !elem_of_cons, elem_of_nil in Hin. destruct_or! Hin; by subst.
  - by replace (k =? 0) with false by (symmetry; apply Z.eqb_neq; lia).
Qed.

Lemma BBLOCKx b : 0 <= b < 64 -> BBLOCK b sbx = 33.
Proof. intros Hb. unfold BBLOCK. change BPB with 8192. rewrite Z.div_small by lia. done. Qed.

Lemma writablex ip a : (ip < 2)%nat -> i_addrs (geti fsx ip) = addrsx a -> 33 < a < 40 -> i_dev (geti fsx ip) = 1 ->
  0 <= i_inum (geti fsx ip) < 16 -> writable_file 1 2 30 fsx (disk_block diskx) ip.
Proof.
  intros Hip Ha Hr Hd Hin.
  assert (forallb (used sbx (disk_block diskx)) [32; 34; 35; 36; 37; 38; 39] = true) as Hu by (vm_compute; reflexivity).
  rewrite forallb_forall in Hu. split; [cbn; lia|done|apply disk_mapx| |by apply (iblockx_ok (i_inum (geti fsx ip)))|].
  - split; [by rewrite Ha| |].
    + intros k Hk. rewrite (fslotx _ _ a) by done. destruct (Z.eqb_spec k 0); [|done]. intros _. split.
      * cbn. lia.
      * apply Hu. simpl. lia.
      * apply not_elem_of_nil.
      * unfold in_log. lia.
      * apply blockx.
      * intros b Hb. rewrite BBLOCKx by done. lia.
    + intros k k' Hk Hk'. rewrite !(fslotx _ _ a) by done. destruct (Z.eqb_spec k 0), (Z.eqb_spec k' 0); lia.
  - assert (IBLOCK (i_inum (geti fsx ip)) (fs_sb fsx) = 32) as ->.
    { unfold IBLOCK. change IPB with 16. rewrite Z.div_small by lia. done. }
    split.
    + cbn. lia.
    + apply Hu. simpl. lia.
    + intros b Hb. rewrite BBLOCKx by done. lia.
    + intros k Hk. rewrite (fslotx _ _ a) by done. destruct (Z.eqb_spec k 0); lia.
Qed.

Lemma writablex0 : writable_file 1 2 30 fsx (disk_block diskx) 0.
Proof. apply (writablex 0 35); [lia|reflexivity|lia|reflexivity|cbn; lia]. Qed.

(** Appending 2000 bytes to the file "hello" takes a second block. *)
Lemma writei_readi_witness : exists k s1 v1, writei 0 (FromKernel (replicate 2000 7)) 5 2000 fsx = Ret k s1 /\ 0 <= k /\
  i_size (get_dinode (v1 (IBLOCK (i_inum (geti fsx 0)) (fs_sb fsx))) (dinode_off (i_inum (geti fsx 0))) inode0) = i_size (geti s1 0).
Proof.
  assert (0 <= 5 <= i_size (geti fsx 0)) as Ho by (cbn; lia).
  assert (5 + Z.of_nat (length (replicate 2000 7)) <= MAXFILE * BSIZE) as Hmax by (rewrite length_replicate; apply Z.leb_le; reflexivity).
  assert (i_size (geti fsx 0) <= MAXFILE * BSIZE) as Hs by (apply Z.leb_le; reflexivity).
  assert (forall bn, 0 <= bn -> bn * BSIZE < i_size (geti fsx 0) -> baddr (disk_block diskx) (geti fsx 0) bn <> 0) as Hm.
  { intros bn Hbn Hlt. change BSIZE with 1024 in Hlt. change (i_size (geti fsx 0)) with 5 in Hlt.
    assert (bn = 0) as -> by lia. done. }
  assert (budget 30 [] (first_block 5) (last_block 5 (Z.of_nat (length (replicate 2000 7))))) as Hb
    by (rewrite length_replicate; split; [reflexivity|split; reflexivity]).
  assert (sb_size (fs_sb fsx) <= BPB) as Hsz by (apply Z.leb_le; reflexivity).
  destruct (writei_readi 1 2 30 fsx (disk_block diskx) [] diskx 1 0 (replicate 2000 7) 5 txnx writablex0 Hsz Hb Ho Hmax Hs Hm)
    as (k & s1 & v1 & _ & E & Hk & _ & _ & _ & _ & _ & _ & Hd & _).
  rewrite length_replicate in E. exists k, s1, v1. split; [exact E|]. split; [apply Hk|]. rewrite (Hd inodex_ok). reflexivity.
Defined.
