(* ===== verification/FsTrunc.v ===== *)
(** * Truncating and reclaiming inodes

    [itrunc] frees exactly the blocks of a file; [iput] of the last reference to
    an inode without links gives the inode back. *)

From S2P Require Import Prelude Memory KString Kalloc Vm Bytes Sleeplock Bio BioSpec Log LogSpec LogCommit LogRecover LogOps Fs FsFile FsTxn FsExample FsBitmap FsAlloc FsInode FsInodeOps FsRead FsBlocks FsBmap FsWrite.

(** Freeing a block that is neither held nor of the log or the bitmap. *)
Lemma disk_map_free start size sb v H r : disk_map start size sb v H -> data_block start size sb v H r ->
  disk_map start size sb (fupd v (BBLOCK r sb) (clear_bit (v (BBLOCK r sb)) (r mod BPB))) H.
Proof.
  intros D [B1 B2 B3 B4 B5 B6]. pose proof D as [D1 D2 D3 D4 D5 D6]. assert (0 <= r < sb_size sb) as Hr by lia.
  assert (forall b, 0 <= b < sb_size sb -> used sb (fupd v (BBLOCK r sb) (clear_bit (v (BBLOCK r sb)) (r mod BPB))) b = negb (r =? b) && used sb v b) as Hu
    by (intros b Hb; by eapply used_free).
  split; try done.
  - intros b Hb. destruct (D3 b Hb) as [E1 E2 E3 E4]. split; try done. destruct (decide (BBLOCK b sb = BBLOCK r sb)) as [->|]; [|by rewrite fupd_other].
    rewrite fupd_same. unfold clear_bit. rewrite length_put8. apply (bm_len _ _ _ _ _ _ _ (D3 r Hr)).
  - intros b Hb. destruct (D4 b Hb) as [E1 E2]. split; [done|]. rewrite Hu, E2 by done. by rewrite (proj2 (Z.eqb_neq _ _)) by by apply B6.
  - intros b Hb. rewrite Hu by done. destruct (Z.eqb_spec r b) as [->|]; [done|]. by apply D5.
  - intros H0. rewrite Hu, D6 by lia. by rewrite (proj2 (Z.eqb_neq _ _)) by lia.
Qed.

Section trunc.
Variables dev start size : Z.
Local Abbreviation txn := (txn dev start size).
Variables (s0 : fstate) (v0 : Z -> block) (L0 : list Z) (d : disk) (p : Z) (ip : nat).
Local Abbreviation sb := (fs_sb s0).
Local Abbreviation x := (geti s0 ip).
Local Abbreviation bb := (BBLOCK 0 (fs_sb s0)).
Hypothesis T0 : txn s0 v0 [] L0 d p.
Hypothesis F0 : writable_file dev start size s0 v0 ip.
Hypothesis Hsz : sb_size sb <= BPB.
Hypothesis Hroom : (length L0 + 4 < NBUF)%nat.
Hypothesis HL1 : Z.of_nat (length L0) + 3 < size - 1.
Hypothesis HL2 : Z.of_nat (length L0) + 3 < LOGSIZE.

Lemma one_bitmap b : 0 <= b < sb_size sb -> BBLOCK b sb = bb.
Proof. intros Hb. unfold BBLOCK. rewrite !Z.div_small; [done|change BPB with 8192; lia|lia]. Qed.

Lemma slot_data k : 0 <= k <= MAXFILE -> fslot v0 x k <> 0 -> data_block start size sb v0 [] (fslot v0 x k).
Proof. apply (fw_data _ _ _ _ _ _ (wf_file _ _ _ _ _ _ F0)). Qed.

(** The blocks of the first [n] slots. *)
Definition gone (n b : Z) : Prop := b <> 0 /\ exists k, 0 <= k < n /\ fslot v0 x k = b.

(** The first [n] slots have been freed, and nothing else has changed. *)
Record prog (n : Z) (H : list Z) (s : fstate) (v : Z -> block) (L : list Z) : Prop := {
  pg_txn : txn s v H L d p;
  pg_rest : same_rest (seti s0 ip (geti s ip)) s;
  pg_map : disk_map start size sb v H;
  pg_used : forall b, 0 <= b < sb_size sb -> used sb v b = true <-> used sb v0 b = true /\ ~ gone n b;
  pg_same : forall b, b <> bb -> v b = v0 b;
  pg_log : L = L0 \/ L = logged bb L0
}.

Lemma prog_len n H s v L : prog n H s v L -> (length L <= length L0 + 1)%nat.
Proof. intros P. destruct (pg_log _ _ _ _ _ P) as [->| ->]; [lia|]. apply length_logged. Qed.

Lemma logged_twice b L : logged b (logged b L) = logged b L.
Proof. unfold logged at 1. rewrite decide_True; [done|]. apply elem_logged. by right. Qed.

Lemma gone_slot n b : 0 <= n -> fslot v0 x n = 0 -> gone (n + 1) b <-> gone n b.
Proof.
  intros Hn H0. split; intros (Hb & k & Hk & E); (split; [done|]).
  - exists k. split; [|done]. destruct (decide (k = n)) as [->|]; [congruence|lia].
  - exists k. split; [lia|done].
Qed.

Lemma prog_skip n H s v L : prog n H s v L -> 0 <= n -> fslot v0 x n = 0 -> prog (n + 1) H s v L.
Proof. intros [P1 P2 P3 P4 P5 P6] Hn H0. split; try done. intros b Hb. rewrite (gone_slot n b) by done. by apply P4. Qed.

Lemma free_slot n H s v L : prog n H s v L -> 0 <= n <= MAXFILE -> fslot v0 x n <> 0 -> (fslot v0 x n ∉ H) -> (length H <= 1)%nat ->
  exists s' v' L', bfree dev (fslot v0 x n) s = Ret tt s' /\ prog (n + 1) H s' v' L' /\ fkeeps dev s s' /\ geti s' ip = geti s ip.
Proof.
  intros P Hn Ha HaH HH. pose proof P as [P1 P2 P3 P4 P5 P6]. pose proof (prog_len _ _ _ _ _ P) as Hlen. set (a := fslot v0 x n) in *.
  pose proof (slot_data n Hn Ha) as [B1 B2 B3 B4 B5 B6]. fold a in B1, B2, B4, B5, B6.
  assert (fs_sb s = sb) as Esb by (rewrite (sr_sb _ _ P2); done). assert (BBLOCK a sb = bb) as Eb by (apply one_bitmap; lia).
  assert (used sb v a = true) as Hu.
  { apply P4; [lia|]. split; [done|]. intros (_ & k & Hk & E).
    pose proof (fw_inj _ _ _ _ _ _ (wf_file _ _ _ _ _ _ F0) k n ltac:(lia) Hn) as Hi. unfold a in E. rewrite E in Hi. specialize (Hi Ha eq_refl). lia. }
  pose proof (dm_bm _ _ _ _ _ P3 a ltac:(lia)) as [C1 C2 C3 C4]. pose proof (held_used_le H L) as Hul.
  pose proof (bfree_ok dev start size s v H L d p a P1 ltac:(lia)) as Hf. rewrite Esb, Hu in Hf. rewrite Eb in *.
  destruct Hf as (s' & E & T' & K & R); [split; rewrite Eb; done|right; lia|lia|lia|].
  assert (data_block start size sb v H a) as Db by (split; try done; rewrite P5; [done|]; intros E0; by apply (B6 a ltac:(lia)); rewrite Eb).
  pose proof (geti_rest s s' ip R) as Hg. eexists s', _, _. split; [done|]. split; [|by split]. split.
  - exact T'.
  - rewrite Hg. by eapply same_rest_trans.
  - rewrite <- Eb. by apply disk_map_free.
  - intros b Hb. pose proof (used_free start size sb v H a b P3 ltac:(lia) Hb) as Huf. rewrite Eb in Huf. rewrite Huf, andb_true_iff, (P4 b Hb). split.
    + intros [H1 [H2 H3]]. split; [done|]. intros (Hb0 & k & Hk & Ek). apply negb_true_iff, Z.eqb_neq in H1. destruct (decide (k = n)) as [->|]; [by apply H1|].
      apply H3. split; [done|]. exists k. split; [lia|done].
    + intros [H1 H2]. split; [|split; [done|]].
      * apply negb_true_iff, Z.eqb_neq. intros Eab. apply H2. rewrite <- Eab. split; [done|]. exists n. split; [lia|done].
      * intros (Hb0 & k & Hk & Ek). apply H2. split; [done|]. exists k. split; [lia|done].
  - intros b Hb. rewrite fupd_other by done. by apply P5.
  - right. destruct P6 as [->| ->]; [done|apply logged_twice].
Qed.

(** ** The loops *)

(** The inode with its first [m] addresses cleared. *)
Definition cleared (m : nat) : inode := with_addrs x (replicate m 0 ++ drop m (i_addrs x)).

Lemma addrs_len : length (i_addrs x) = 13%nat.
Proof. apply (fw_len _ _ _ _ _ _ (wf_file _ _ _ _ _ _ F0)). Qed.

Lemma cleared_0 : cleared 0 = x.
Proof. unfold cleared. cbn. by destruct (geti s0 ip). Qed.

Lemma cleared_addr m : (m < 13)%nat -> iaddr (cleared m) (Z.of_nat m) = iaddr x (Z.of_nat m).
Proof.
  intros Hm. unfold iaddr, cleared. cbn [i_addrs with_addrs]. rewrite Nat2Z.id, !nth_lookup.
  rewrite lookup_app_r by (rewrite length_replicate; lia). by rewrite length_replicate, Nat.sub_diag, lookup_drop, Nat.add_0_r.
Qed.

Lemma cleared_S m : (m < 13)%nat -> set_addr (Z.of_nat m) 0 (cleared m) = cleared (S m).
Proof.
  intros Hm. pose proof addrs_len as Hl. unfold set_addr, cleared, with_addrs. cbn [i_dev i_inum i_ref i_lock i_valid i_type i_major i_minor i_nlink i_size i_addrs]. f_equal.
  rewrite Nat2Z.id. destruct (lookup_lt_is_Some_2 (i_addrs x) m ltac:(lia)) as [y Hy]. rewrite (drop_S _ _ _ Hy).
  rewrite insert_app_r_alt by (rewrite length_replicate; lia). rewrite length_replicate, Nat.sub_diag. cbn [insert list_insert].
  by rewrite (replicate_S_end m), <- app_assoc.
Qed.

Lemma cleared_skip m : (m < 13)%nat -> iaddr x (Z.of_nat m) = 0 -> cleared (S m) = cleared m.
Proof.
  intros Hm H0. pose proof addrs_len as Hl. unfold cleared. f_equal. destruct (lookup_lt_is_Some_2 (i_addrs x) m ltac:(lia)) as [y Hy].
  unfold iaddr in H0. rewrite Nat2Z.id, nth_lookup, Hy in H0. cbn in H0. subst y. rewrite (drop_S _ _ _ Hy). by rewrite (replicate_S_end m), <- app_assoc.
Qed.

Lemma direct_slot k : 0 <= k < NDIRECT -> fslot v0 x k = iaddr x k.
Proof.
  intros Hk. change NDIRECT with 12 in *. rewrite fslot_block by (change MAXFILE with 268; lia). unfold baddr. change NDIRECT with 12.
  by rewrite (proj2 (Z.ltb_lt k 12)) by lia.
Qed.

Lemma entry_slot j : iaddr x NDIRECT <> 0 -> 0 <= j < NINDIRECT -> fslot v0 x (NDIRECT + j) = get32 (v0 (iaddr x NDIRECT)) (4 * j).
Proof.
  intros Hi Hj. change NDIRECT with 12 in *. change NINDIRECT with 256 in *. rewrite fslot_block by (change MAXFILE with 268; lia). unfold baddr. change NDIRECT with 12.
  rewrite (proj2 (Z.ltb_ge (12 + j) 12)), (proj2 (Z.eqb_neq _ _)) by (done || lia). do 2 f_equal. lia.
Qed.

(** After clearing an address the inode table has only changed there. *)
Lemma prog_seti n H s v L y : prog n H s v L -> prog n H (seti s ip y) v L.
Proof.
  intros [P1 P2 P3 P4 P5 P6]. assert (ip < length (fs_itable s))%nat as Hip.
  { rewrite (sr_itable _ _ P2). unfold seti. cbn [fs_itable]. rewrite length_insert. apply F0. }
  split; try done; [by destruct P1|]. rewrite geti_seti, decide_True by done.
  destruct P2 as [Q1 Q2 Q3 Q4 Q5 Q6 Q7]. split; cbn [seti fs_sb fs_itable fs_mem fs_pagetable fs_cwd fs_ls] in *; try done. rewrite Q2. apply list_insert_insert_eq.
Qed.

Lemma prog_slot n H s v L : prog n H s v L -> (ip < length (fs_itable s))%nat.
Proof. intros P. rewrite (sr_itable _ _ (pg_rest _ _ _ _ _ P)). unfold seti. cbn [fs_itable]. rewrite length_insert. apply F0. Qed.

Lemma direct_loop : exists s v L, kfor (Z.to_nat NDIRECT) 0 (itrunc_direct ip) s0 = Ret tt s /\ prog 12 [] s v L /\ geti s ip = cleared 12.
Proof.
  destruct (kfor_inv (fun i s => exists v L, prog i [] s v L /\ geti s ip = cleared (Z.to_nat i)) (itrunc_direct ip) (Z.to_nat NDIRECT) 0 s0) as (s & E & v & L & P & G).
  - intros i s Hi (v & L & P & G). change (Z.of_nat (Z.to_nat NDIRECT)) with 12 in Hi. unfold itrunc_direct.
    rewrite (kbind_ret (inget ip) _ s (geti s ip) s eq_refl), G. pose proof (cleared_addr (Z.to_nat i) ltac:(lia)) as Ea. rewrite Z2Nat.id in Ea by lia. rewrite Ea.
    pose proof (direct_slot i ltac:(change NDIRECT with 12; lia)) as Es. pose proof (cleared_S (Z.to_nat i) ltac:(lia)) as Ec. rewrite Z2Nat.id in Ec by lia.
    replace (Z.to_nat (i + 1)) with (S (Z.to_nat i)) by lia. destruct (Z.eqb_spec (iaddr x i) 0) as [E0|E0]; cbn [negb].
    + exists s. split; [done|]. exists v, L. split; [apply prog_skip; [done|lia|congruence]|]. rewrite cleared_skip; [done|lia|by rewrite Z2Nat.id by lia].
    + destruct (free_slot i [] s v L P) as (s1 & v1 & L1 & E1 & P1 & _ & G1); [change MAXFILE with 268; lia|congruence|apply not_elem_of_nil|cbn; lia|].
      rewrite Es in E1. change (i_dev (cleared (Z.to_nat i))) with (i_dev x). rewrite (wf_dev _ _ _ _ _ _ F0), (kbind_ret _ _ _ _ _ E1).
      exists (seti s1 ip (set_addr i 0 (geti s1 ip))). split; [done|]. exists v1, L1. split; [by apply prog_seti|].
      rewrite geti_seti, decide_True by (done || by eapply prog_slot). by rewrite G1, G, Ec.
  - exists v0, L0. split; [|symmetry; apply cleared_0]. split; try done.
    + rewrite seti_geti by apply F0. apply same_rest_refl.
    + apply F0.
    + intros b Hb. split; [|tauto]. intros Hu. split; [done|]. intros (_ & k & Hk & _). lia.
    + by left.
  - by exists s, v, L.
Qed.

(** The entries of the block of addresses, which is held in a buffer. *)
Lemma entry_loop s v L bp : let ia := iaddr x NDIRECT in
  ia <> 0 -> prog 12 [ia] s v L -> holds dev s ia bp -> geti s ip = cleared 12 ->
  exists s' v' L', kfor (Z.to_nat NINDIRECT) 0 (fun j => d <- fbdata bp ;; itrunc_indirect dev d j) s = Ret tt s' /\
    prog MAXFILE [ia] s' v' L' /\ holds dev s' ia bp /\ geti s' ip = cleared 12.
Proof.
  intros ia Hi P Hh G. pose proof (slot_data MAXFILE ltac:(done)) as Db. rewrite fslot_ind in Db. fold ia in Db. specialize (Db Hi).
  assert (ia <> bb) as Hib by (intros E; apply (db_bm _ _ _ _ _ _ Db 0); [destruct (db_range _ _ _ _ _ _ Db); lia|done]).
  destruct (kfor_inv (fun j s => exists v L, prog (NDIRECT + j) [ia] s v L /\ holds dev s ia bp /\ geti s ip = cleared 12)
    (fun j => d <- fbdata bp ;; itrunc_indirect dev d j) (Z.to_nat NINDIRECT) 0 s) as (s' & E & v' & L' & P' & Hh' & G').
  - intros j s1 Hj (v1 & L1 & P1 & Hh1 & G1). change (Z.of_nat (Z.to_nat NINDIRECT)) with 256 in Hj.
    pose proof (fbdata_ok dev start size s1 v1 _ L1 d p ia bp (pg_txn _ _ _ _ _ P1) Hh1 ltac:(left)) as E1. rewrite (kbind_ret _ _ _ _ _ E1).
    rewrite (pg_same _ _ _ _ _ P1) by done. unfold itrunc_indirect. pose proof (entry_slot j Hi ltac:(change NINDIRECT with 256; lia)) as Es. fold ia in Es.
    rewrite <- Es. rewrite Z.add_assoc. destruct (Z.eqb_spec (fslot v0 x (NDIRECT + j)) 0) as [E0|E0]; cbn [negb].
    + exists s1. split; [done|]. exists v1, L1. split; [|done]. apply prog_skip; [done|change NDIRECT with 12; lia|done].
    + destruct (free_slot (NDIRECT + j) [ia] s1 v1 L1 P1) as (s2 & v2 & L2 & E2 & P2 & K2 & G2); [change MAXFILE with 268; change NDIRECT with 12; lia|done| |cbn; lia|].
      * intros Ei%list_elem_of_singleton. pose proof (fw_inj _ _ _ _ _ _ (wf_file _ _ _ _ _ _ F0) (NDIRECT + j) MAXFILE) as Hinj.
        rewrite fslot_ind in Hinj. specialize (Hinj ltac:(change MAXFILE with 268; change NDIRECT with 12; lia) ltac:(done) E0 Ei).
        change MAXFILE with 268 in Hinj. change NDIRECT with 12 in Hinj. lia.
      * exists s2. split; [done|]. exists v2, L2. split; [done|]. split; [|by rewrite G2].
        eapply (fkeeps_holds dev start size s1 s2); [exact K2|apply P1|left|done].
  - exists v, L. by rewrite Z.add_0_r.
  - by exists s', v', L'.
Qed.

(** Without a block of addresses there is nothing beyond the direct blocks. *)
Lemma prog_no_ind s v L : iaddr x NDIRECT = 0 -> prog 12 [] s v L -> prog (MAXFILE + 1) [] s v L.
Proof.
  intros E0 [P1 P2 P3 P4 P5 P6]. split; try done. intros b Hb. rewrite (P4 b Hb).
  split; intros [Hu Hn]; (split; [done|]); intros (Hb0 & k & Hk & Ek); apply Hn; (split; [done|]); exists k; (split; [|done]); [|change MAXFILE with 268; lia].
  destruct (decide (k < 12)); [lia|]. exfalso. apply Hb0. rewrite <- Ek. unfold fslot, baddr. rewrite E0. cbn [Z.eqb].
  destruct (k =? MAXFILE); [done|]. by rewrite (proj2 (Z.ltb_ge k NDIRECT)) by (change NDIRECT with 12; lia).
Qed.

Lemma ind_block_ok s v L : iaddr x NDIRECT <> 0 -> prog 12 [] s v L -> iaddr x NDIRECT <> bb /\ data_block start size sb v [] (iaddr x NDIRECT).
Proof.
  intros E0 [P1 P2 P3 P4 P5 P6]. pose proof (slot_data MAXFILE ltac:(done)) as Db. rewrite fslot_ind in Db. specialize (Db E0). destruct Db as [B1 B2 B3 B4 B5 B6].
  assert (iaddr x NDIRECT <> bb) as Hib by (apply B6; lia). split; [done|]. split; try done; [|by rewrite P5].
  apply P4; [lia|]. split; [done|]. intros (_ & k & Hk & Ek).
  pose proof (fw_inj _ _ _ _ _ _ (wf_file _ _ _ _ _ _ F0) k MAXFILE ltac:(change MAXFILE with 268; lia) ltac:(done)) as Hi. rewrite Ek, fslot_ind in Hi. specialize (Hi E0 eq_refl).
  change MAXFILE with 268 in Hi. lia.
Qed.

(** The part of [itrunc] that follows the block of addresses. *)
Lemma indirect_ok s v L : prog 12 [] s v L -> geti s ip = cleared 12 ->
  exists s' v' L', (x <- inget ip ;;
    if negb (iaddr x NDIRECT =? 0) then
      bp <- fbread (i_dev x) (iaddr x NDIRECT) ;;
      kfor (Z.to_nat NINDIRECT) 0 (fun j => d <- fbdata bp ;; itrunc_indirect (i_dev x) d j) ;;;
      fbrelse bp ;;;
      bfree (i_dev x) (iaddr x NDIRECT) ;;;
      inmod ip (set_addr NDIRECT 0)
    else kret tt) s = Ret tt s' /\ prog (MAXFILE + 1) [] s' v' L' /\ geti s' ip = cleared 13.
Proof.
  intros P G. rewrite (kbind_ret (inget ip) _ s (geti s ip) s eq_refl), G. assert (iaddr (cleared 12) NDIRECT = iaddr x NDIRECT) as Ea by exact (cleared_addr 12 ltac:(lia)). rewrite Ea.
  change (i_dev (cleared 12)) with (i_dev x). rewrite (wf_dev _ _ _ _ _ _ F0). set (ia := iaddr x NDIRECT).
  destruct (Z.eqb_spec ia 0) as [E0|E0]; cbn [negb].
  - exists s, v, L. split; [done|]. split; [by apply prog_no_ind|]. rewrite cleared_skip; [done|lia|exact E0].
  - destruct (ind_block_ok s v L E0 P) as [Hib Dv]. fold ia in Hib, Dv.
    pose proof (prog_len _ _ _ _ _ P) as Hlen. pose proof (held_used_le [] L) as Hul. cbn [length] in Hul. pose proof P as [P1 P2 P3 P4 P5 P6].
    destruct (fbread_ok dev start size s v [] L d p ia P1) as (bp & s1 & E1 & T1 & Hh1 & K1 & R1); [apply not_elem_of_nil|right; lia|].
    rewrite (kbind_ret _ _ _ _ _ E1). pose proof (geti_rest s s1 ip R1) as G1.
    assert (prog 12 [ia] s1 v L) as Q1.
    { split; try done; [rewrite G1; by eapply same_rest_trans|]. by apply disk_map_hold. }
    destruct (entry_loop s1 v L bp E0 Q1 Hh1 ltac:(by rewrite G1)) as (s2 & v2 & L2 & E2 & Q2 & Hh2 & G2). rewrite (kbind_ret _ _ _ _ _ E2). pose proof Q2 as [U1 U2 U3 U4 U5 U6].
    destruct (fbrelse_ok dev start size s2 v2 [] L2 d p ia bp U1 Hh2) as (s3 & E3 & T3 & K3 & R3).
    { destruct (decide (ia ∈ L2)) as [|Hni]; [by left|]. right. rewrite U5 by done. apply (txn_clean dev start size s0 v0 [] L0 d p); [done|apply not_elem_of_nil|].
      intros Hin. apply Hni. destruct U6 as [->| ->]; [done|]. apply elem_logged. by left. }
    rewrite (kbind_ret _ _ _ _ _ E3). pose proof (geti_rest s2 s3 ip R3) as G3.
    assert (prog MAXFILE [] s3 v2 L2) as Q3.
    { split; try done; [rewrite G3; by eapply same_rest_trans|]. by eapply disk_map_unhold. }
    destruct (free_slot MAXFILE [] s3 v2 L2 Q3) as (s4 & v4 & L4 & E4 & Q4 & _ & G4); [done|by rewrite fslot_ind|apply not_elem_of_nil|cbn; lia|].
    rewrite fslot_ind in E4. fold ia in E4. rewrite (kbind_ret _ _ _ _ _ E4).
    exists (seti s4 ip (set_addr NDIRECT 0 (geti s4 ip))), v4, L4. split; [done|]. split; [by apply prog_seti|].
    rewrite geti_seti, decide_True by (done || by eapply prog_slot). rewrite G4, G3, G2. by apply (cleared_S 12); lia.
Qed.

(** ** itrunc *)

Local Abbreviation ib := (IBLOCK (i_inum (geti s0 ip)) (fs_sb s0)).

(** The file is empty: its blocks are free, its inode is cleared in the table and
    on disk, and no other block has changed. *)
Record truncated (y : inode) (s1 : fstate) (v1 : Z -> block) (L1 : list Z) : Prop := {
  tr_txn : txn s1 v1 [] L1 d p;
  tr_rest : same_rest (seti s0 ip y) s1;
  tr_map : disk_map start size sb v1 [];
  tr_used : forall b, 0 <= b < sb_size sb -> used sb v1 b = true <-> used sb v0 b = true /\ ~ gone (MAXFILE + 1) b;
  tr_inode : v1 ib = put_dinode y (v0 ib) (dinode_off (i_inum x));
  tr_same : forall b, b <> bb -> b <> ib -> v1 b = v0 b;
  tr_log : (length L1 <= length L0 + 2)%nat /\ ib ∈ L1
}.

Lemma ib_not_bb : ib <> bb.
Proof. destruct (wf_foreign _ _ _ _ _ _ F0) as [A1 _ A3 _]. apply A3. lia. Qed.

Lemma itrunc_ok : exists s1 v1 L1, itrunc ip s0 = Ret tt s1 /\ truncated (set_size 0 (cleared 13)) s1 v1 L1.
Proof.
  destruct direct_loop as (s1 & v1 & L1 & E1 & P1 & G1). destruct (indirect_ok s1 v1 L1 P1 G1) as (s2 & v2 & L2 & E2 & P2 & G2).
  unfold itrunc. rewrite (kbind_ret _ _ _ _ _ E1). apply kbind_inv in E2 as (x1 & s1' & Ex & E2). injection Ex as <- <-.
  rewrite (kbind_ret (inget ip) _ s1 (geti s1 ip) s1 eq_refl), (kbind_ret _ _ _ _ _ E2).
  rewrite (kbind_ret (inmod ip (set_size 0)) _ s2 tt (seti s2 ip (set_size 0 (geti s2 ip))) eq_refl). rewrite G2. set (y := set_size 0 (cleared 13)).
  pose proof (prog_seti _ _ _ _ _ y P2) as P3. set (s3 := seti s2 ip y) in *. pose proof P3 as [Q1 Q2 Q3 Q4 Q5 Q6]. pose proof (prog_len _ _ _ _ _ P3) as Hlen.
  assert (geti s3 ip = y) as G3 by (unfold s3; rewrite geti_seti, decide_True; [done|done|by eapply prog_slot]).
  assert (fs_sb s3 = sb) as Esb by apply Q2. pose proof ib_not_bb as Hib. destruct (wf_iblock _ _ _ _ _ _ F0) as [I1 I2 I3 I4].
  pose proof (held_used_le [] L2) as Hul. cbn [length] in Hul.
  destruct (iupdate_ok dev start size s3 v2 [] L2 d p ip Q1) as (s4 & E4 & T4 & K4 & R4); rewrite ?G3, ?Esb; try done.
  - apply F0.
  - split; [apply not_elem_of_nil|done|done|]. change (i_inum y) with (i_inum x). by rewrite Q5.
  - right. lia.
  - lia.
  - lia.
  - rewrite G3, Esb in T4. change (i_inum y) with (i_inum x) in *. exists s4, (iview sb v2 y), (logged ib L2). split; [done|].
    rewrite G3 in Q2. pose proof (length_logged ib L2). destruct (wf_foreign _ _ _ _ _ _ F0) as [A1 A2 A3 A4].
    assert (forall b, 0 <= b < sb_size sb -> used sb (iview sb v2 y) b = used sb v2 b) as Hu by (intros b Hb; apply used_fupd; by apply A3).
    split; [done|by eapply same_rest_trans| | | | |].
    + apply disk_map_fupd; [done|]. intros b Hb. by apply A3.
    + intros b Hb. rewrite Hu by done. by apply Q4.
    + unfold iview. rewrite fupd_same. change (i_inum y) with (i_inum x). by rewrite Q5.
    + intros b Hb Hb'. unfold iview. rewrite fupd_other by done. by apply Q5.
    + split; [lia|]. apply elem_logged. by right.
Qed.
End trunc.

(** ** iput *)

(** Whether a file can be written depends on the device, number and addresses of
    its inode only. *)
Lemma writable_seti dev start size s v ip y : writable_file dev start size s v ip ->
  i_dev y = i_dev (geti s ip) -> i_inum y = i_inum (geti s ip) -> i_addrs y = i_addrs (geti s ip) ->
  writable_file dev start size (seti s ip y) v ip.
Proof.
  intros [F1 F2 F3 [W1 W2 W3] F5 [A1 A2 A3 A4]] Ed En Ea. assert (geti (seti s ip y) ip = y) as G by (by rewrite geti_seti, decide_True).
  assert (forall k, fslot v y k = fslot v (geti s ip) k) as Es by (intros k; unfold fslot, baddr, iaddr; by rewrite Ea).
  split; rewrite ?G, ?Ed, ?En; [cbn; by rewrite length_insert|done|done| |done|].
  - split; [by rewrite Ea| |].
    + intros k Hk. rewrite Es. by apply W2.
    + intros k k' Hk Hk'. rewrite !Es. by apply W3.
  - split; try done. intros k Hk. rewrite Es. by apply A4.
Qed.

Section iput.
Variables dev start size : Z.
Local Abbreviation txn := (txn dev start size).
Variables (s : fstate) (v : Z -> block) (L : list Z) (d : disk) (p : Z) (ip : nat).
Local Abbreviation sb := (fs_sb s).
Local Abbreviation x := (geti s ip).
Local Abbreviation ib := (IBLOCK (i_inum (geti s ip)) (fs_sb s)).
Local Abbreviation off := (dinode_off (i_inum (geti s ip))).
Hypothesis T : txn s v [] L d p.
Hypothesis F : writable_file dev start size s v ip.
Hypothesis Hsz : sb_size sb <= BPB.
Hypothesis Hx : inode_ok x.
Hypothesis Hroom : (length L + 4 < NBUF)%nat.
Hypothesis HL1 : Z.of_nat (length L) + 3 < size - 1.
Hypothesis HL2 : Z.of_nat (length L) + 3 < LOGSIZE.
Hypothesis Hfree : sl_locked (i_lock x) = false.

(** The inode with its contents gone. *)
Definition emptied (lk : sleeplock) (ref : Z) (valid : bool) (ty : Z) : inode :=
  Inode (i_dev x) (i_inum x) ref lk valid ty (i_major x) (i_minor x) (i_nlink x) 0 (replicate 13 0).

Lemma emptied_ok lk ref valid ty : - 2 ^ 15 <= ty < 2 ^ 15 -> inode_ok (emptied lk ref valid ty).
Proof. intros Hty. destruct Hx. split; try done. by apply Forall_replicate. Qed.

(** The state after the last reference to an inode without links is dropped. *)
Record reclaimed (s1 : fstate) (v1 : Z -> block) (L1 : list Z) : Prop := {
  re_txn : txn s1 v1 [] L1 d p;
  re_map : disk_map start size sb v1 [];
  re_rest : same_rest (seti s ip (emptied (Sleeplock false 0) 0 false 0)) s1;
  re_used : forall b, 0 <= b < sb_size sb -> used sb v1 b = true <->
    used sb v b = true /\ ~ (b <> 0 /\ exists k, 0 <= k <= MAXFILE /\ fslot v x k = b);
  re_disk : forall y, get_dinode (v1 ib) off y =
    Inode (i_dev y) (i_inum y) (i_ref y) (i_lock y) (i_valid y) 0 (i_major x) (i_minor x) (i_nlink x) 0 (replicate 13 0);
  re_others : forall j y, 0 <= j -> j mod IPB <> i_inum x mod IPB -> get_dinode (v1 ib) (dinode_off j) y = get_dinode (v ib) (dinode_off j) y;
  re_same : forall b, b <> BBLOCK 0 sb -> b <> ib -> v1 b = v b
}.

Lemma off_fits : 0 <= off /\ off + DINODE <= Z.of_nat (length (v ib)).
Proof.
  destruct (wf_iblock _ _ _ _ _ _ F) as [_ _ _ ->]. unfold dinode_off. pose proof (Z.mod_pos_bound (i_inum x) IPB ltac:(done)).
  change IPB with 16 in *. unfold DINODE. change (Z.to_nat BSIZE) with 1024%nat. lia.
Qed.

Lemma same_rest_seti s1 s2 y z : same_rest (seti s ip y) s1 -> s2 = seti s1 ip z -> same_rest (seti s ip z) s2.
Proof.
  intros [Q1 Q2 Q3 Q4 Q5 Q6 Q7] ->. split; cbn [seti fs_sb fs_itable fs_mem fs_pagetable fs_cwd fs_ls] in *; try done. rewrite Q2. apply list_insert_insert_eq.
Qed.

Lemma geti_same_rest s1 y : same_rest (seti s ip y) s1 -> geti s1 ip = y.
Proof. intros R. rewrite (geti_rest _ _ ip R), geti_seti, decide_True; [done|done|apply F]. Qed.

(** What the disk holds in the end, from what [itrunc] leaves. *)
Lemma reclaimed_intro lk v1 s2 L2 : let yC := emptied lk 1 true 0 in
  txn s2 (iview sb v1 yC) [] L2 d p -> disk_map start size sb v1 [] ->
  same_rest (seti s ip (emptied (Sleeplock false 0) 0 false 0)) s2 ->
  (forall b, 0 <= b < sb_size sb -> used sb v1 b = true <-> used sb v b = true /\ ~ (b <> 0 /\ exists k, 0 <= k <= MAXFILE /\ fslot v x k = b)) ->
  v1 ib = put_dinode (emptied lk 1 true (i_type x)) (v ib) off -> (forall b, b <> BBLOCK 0 sb -> b <> ib -> v1 b = v b) ->
  reclaimed s2 (iview sb v1 yC) L2.
Proof.
  intros yC T2 D1 R2 B4 B5 B6. pose proof off_fits as [Ho1 Ho2]. destruct (wf_iblock _ _ _ _ _ _ F) as [I1 I2 I3 I4]. destruct (wf_foreign _ _ _ _ _ _ F) as [A1 A2 A3 A4].
  assert (iview sb v1 yC ib = put_dinode yC (put_dinode (emptied lk 1 true (i_type x)) (v ib) off) off) as Ev.
  { unfold iview. rewrite fupd_same. change (i_inum yC) with (i_inum x). by rewrite B5. }
  split; [done|by apply disk_map_fupd; [|intros b Hb; by apply A3]|done| | | |].
  - intros b Hb. unfold iview. rewrite used_fupd by by apply A3. by apply B4.
  - intros y. rewrite Ev. apply get_put_dinode; [by apply emptied_ok|done|by rewrite length_put_dinode].
  - intros j y Hj Hne. rewrite Ev. assert (0 <= i_inum x mod IPB) by (apply Z.mod_pos_bound; done).
    replace off with (dinode_off (i_inum x mod IPB)) by (unfold dinode_off; by rewrite Zmod_mod).
    rewrite !get_put_dinode_other; rewrite ?length_put_dinode, ?Zmod_mod; done.
  - intros b Hb Hb'. unfold iview. rewrite fupd_other by done. by apply B6.
Qed.

(** The part of [iput] that gives the inode back. *)
Lemma iput_inner : i_ref x = 1 -> i_valid x = true ->
  exists s1 v1 L1, (inlock ip acquiresleep ;;; itrunc ip ;;; inmod ip (set_type 0) ;;; iupdate ip ;;;
    inmod ip (set_ivalid false) ;;; inlock ip (fun _ => releasesleep)) s = Ret tt s1 /\
    same_rest (seti s ip (emptied (Sleeplock false 0) 1 false 0)) s1 /\
    forall s2, same_rest (seti s ip (emptied (Sleeplock false 0) 0 false 0)) s2 -> fs_ls s2 = fs_ls s1 -> reclaimed s2 v1 L1.
Proof.
  intros Hr Hv. assert (ip < length (fs_itable s))%nat as Hip by apply F. assert (bc_pid (ls_bio (fs_ls s)) = p) as Hpid by apply T.
  set (lk := Sleeplock true p). set (sA := seti s ip (set_ilock lk x)).
  assert (inlock ip acquiresleep s = Ret tt sA) as EA by (unfold inlock, acquiresleep; by rewrite Hfree, Hpid). rewrite (kbind_ret _ _ _ _ _ EA).
  assert (geti sA ip = set_ilock lk x) as GA by (unfold sA; by rewrite geti_seti, decide_True).
  destruct (itrunc_ok dev start size sA v L d p ip) as (sB & v1 & L1 & EB & [B1 B2 B3 B4 B5 B6 [B7 B8]]); [by destruct T|by apply writable_seti|done|done|done|done|].
  assert (set_size 0 (cleared sA ip 13) = emptied lk 1 true (i_type x)) as Ey.
  { unfold cleared, emptied. rewrite GA. unfold set_size, with_addrs, set_ilock. cbn [i_dev i_inum i_ref i_lock i_valid i_type i_major i_minor i_nlink i_addrs].
    rewrite Hr, Hv, drop_ge, app_nil_r; [done|]. rewrite (io_len _ Hx). done. }
  rewrite Ey in *. assert (same_rest (seti s ip (emptied lk 1 true (i_type x))) sB) as RB.
  { destruct B2 as [Q1 Q2 Q3 Q4 Q5 Q6 Q7]. split; cbn [sA seti fs_sb fs_itable fs_mem fs_pagetable fs_cwd fs_ls] in *; try done. rewrite Q2. apply list_insert_insert_eq. }
  rewrite (kbind_ret _ _ _ _ _ EB). pose proof (geti_same_rest _ _ RB) as GB.
  set (yC := emptied lk 1 true 0). set (sC := seti sB ip yC). rewrite (kbind_ret (inmod ip (set_type 0)) _ sB tt sC); [|unfold inmod; by rewrite GB].
  assert (same_rest (seti s ip yC) sC) as RC by (by eapply same_rest_seti). pose proof (geti_same_rest _ _ RC) as GC. rewrite GA in *. change (i_inum (set_ilock lk x)) with (i_inum x) in *.
  change (fs_sb sA) with sb in *. assert (fs_sb sC = sb) as SC by apply RC. destruct (wf_iblock _ _ _ _ _ _ F) as [I1 I2 I3 I4].
  destruct (iupdate_ok dev start size sC v1 [] L1 d p ip ltac:(by destruct B1)) as (sD & ED & TD & _ & RD); rewrite ?GC, ?SC; try done.
  { apply F. } { split; [apply not_elem_of_nil|done|done|]. change (i_inum yC) with (i_inum x). by rewrite B5, length_put_dinode. }
  { by left. } { lia. } { lia. }
  rewrite GC, SC in TD. change (i_inum yC) with (i_inum x) in TD. rewrite (kbind_ret _ _ _ _ _ ED).
  assert (same_rest (seti s ip yC) sD) as RD' by (by eapply same_rest_trans). pose proof (geti_same_rest _ _ RD') as GD.
  set (sE := seti sD ip (set_ivalid false yC)). rewrite (kbind_ret (inmod ip (set_ivalid false)) _ sD tt sE); [|unfold inmod; by rewrite GD].
  assert (same_rest (seti s ip (set_ivalid false yC)) sE) as RE by (by eapply same_rest_seti). pose proof (geti_same_rest _ _ RE) as GE.
  exists (seti sE ip (emptied (Sleeplock false 0) 1 false 0)), (iview sb v1 yC), (logged ib L1). split; [unfold inlock, releasesleep; by rewrite GE|].
  split; [by eapply same_rest_seti|]. intros s2 R2 El. apply reclaimed_intro; try done.
  - cbn [seti fs_ls sE] in El. destruct TD. split; rewrite ?El; done.
  - intros b Hb. rewrite (B4 b Hb). unfold gone. rewrite GA. split; intros [Hu1 Hn]; (split; [done|]); intros (Hb0 & k & Hk & Ek); apply Hn; (split; [done|]); exists k; (split; [lia|exact Ek]).
Qed.

(** C23: dropping a reference to an inode.  Unless it is the last one to a cached
    inode without links, [iput] only decrements the count.  If it is, [iput]
    returns having freed exactly the blocks of the file, direct, indirect and the
    block of addresses: no other bit of the bitmap, no other inode and no other
    block has changed; the inode on disk has type 0, size 0 and no blocks, and
    its entry in the inode table is free and unlocked. *)
Theorem iput_reclaims :
  if (i_ref x =? 1) && i_valid x && (i_nlink x =? 0) then exists s1 v1 L1, iput ip s = Ret tt s1 /\ reclaimed s1 v1 L1
  else iput ip s = Ret tt (seti s ip (set_ref (int32 (i_ref x - 1)) x)).
Proof.
  unfold iput. rewrite (kbind_ret (inget ip) _ s x s eq_refl). destruct (_ && _ && _) eqn:Hc; [|done].
  apply andb_true_iff in Hc as [Hc _]. apply andb_true_iff in Hc as [Hr Hv]. apply Z.eqb_eq in Hr.
  destruct (iput_inner Hr Hv) as (s1 & v1 & L1 & E & R & H). rewrite (kbind_ret _ _ _ _ _ E). pose proof (geti_same_rest _ _ R) as G.
  eexists _, v1, L1. split; [done|]. apply H; [|done]. eapply same_rest_seti; [exact R|]. by rewrite G.
Qed.
End iput.

(** ** An instance *)

(** The file of the example, unlinked and with one reference. *)
Definition fs_unlinked : fstate := seti fsx 0 (Inode 1 2 1 (Sleeplock false 0) true T_FILE 0 0 0 5 (addrsx 35)).

Lemma unlinked_ok : inode_ok (geti fs_unlinked 0).
Proof. split; try done. repeat constructor; done. Qed.

Lemma iput_reclaims_witness : exists s1 v1 L1, iput 0 fs_unlinked = Ret tt s1 /\
  reclaimed 1 2 30 fs_unlinked (disk_block diskx) diskx 1 0 s1 v1 L1 /\ used sbx v1 35 = false.
Proof.
  destruct (iput_reclaims 1 2 30 fs_unlinked (disk_block diskx) [] diskx 1 0) as (s1 & v1 & L1 & E & R).
  - destruct txnx. split; done.
  - apply writable_seti; [apply writablex0|reflexivity|reflexivity|reflexivity].
  - vm_compute. discriminate.
  - apply unlinked_ok.
  - apply Nat.ltb_lt. reflexivity.
  - reflexivity.
  - reflexivity.
  - reflexivity.
  - exists s1, v1, L1. split; [exact E|]. split; [exact R|]. clear E. destruct (used sbx v1 35) eqn:Hu; [|reflexivity]. exfalso.
    apply (re_used _ _ _ _ _ _ _ _ _ _ _ R 35) in Hu as [_ Hu]; [|vm_compute; split; [discriminate|reflexivity]].
    apply Hu. split; [discriminate|]. exists 0. split; [vm_compute; split; discriminate|reflexivity].
Defined.
