(* ===== verification/FsPath.v ===== *)
(** * Path names

    [skipelem] cuts a path into its elements: applied repeatedly it yields
    the non-empty pieces between slashes, each cut to [DIRSIZ] bytes. *)

From S2P Require Import Prelude Memory KString Kalloc Vm Bytes Sleeplock Bio Log Fs FsFile.

(** The elements of a path, by one pass over it; [cur] is the element being
    read, in reverse. *)
Fixpoint split_path (path cur : list Z) : list (list Z) :=
  match path with
  | [] => match cur with [] => [] | _ => [rev cur] end
  | c :: path' =>
      if c =? SLASH then
        match cur with [] => split_path path' [] | _ => rev cur :: split_path path' [] end
      else split_path path' (c :: cur)
  end.

(** The elements of a path. *)
Definition elems (path : list Z) : list (list Z) := split_path path [].

(** The string held by a name buffer: its bytes up to the first NUL. *)
Fixpoint cname (n : nat) (name : list Z) : list Z :=
  match n, name with
  | S n', c :: name' => if c =? 0 then [] else c :: cname n' name'
  | _, _ => []
  end.

Lemma split_slashes path : split_path (skip_slashes path) [] = split_path path [].
Proof.
  induction path as [|c path IH]; [done|]. cbn [skip_slashes split_path].
  destruct (c =? SLASH) eqn:E; [done|]. cbn [split_path]. by rewrite E.
Qed.

Lemma skip_slashes_head path c rest : skip_slashes path = c :: rest -> c <> SLASH.
Proof.
  induction path as [|x path IH]; [done|]. cbn [skip_slashes].
  destruct (x =? SLASH) eqn:E; [done|]. intros [= -> ->]. by apply Z.eqb_neq in E.
Qed.

Lemma split_elem_spec path : forall cur,
  split_path path cur =
    match rev cur ++ fst (split_elem path) with
    | [] => split_path (snd (split_elem path)) []
    | e => e :: split_path (snd (split_elem path)) []
    end.
Proof.
  induction path as [|c path IH]; intros cur; cbn [split_path split_elem].
  - cbn [fst snd split_path]. rewrite app_nil_r. destruct cur as [|x cur]; [done|].
    destruct (rev (x :: cur)) eqn:E; [|done]. apply (f_equal (@length Z)) in E. rewrite length_rev in E. done.
  - destruct (c =? SLASH) eqn:E; cbn [fst snd].
    + rewrite app_nil_r. cbn [split_path]. rewrite E. destruct cur as [|x cur]; [done|].
      destruct (rev (x :: cur)) eqn:Er; [|done]. apply (f_equal (@length Z)) in Er. rewrite length_rev in Er. done.
    + rewrite IH. cbn [rev]. rewrite <- app_assoc. done.
Qed.

Lemma split_elem_chars path : Forall (fun c => c <> SLASH) (fst (split_elem path)) /\
  path = fst (split_elem path) ++ snd (split_elem path).
Proof.
  induction path as [|c path [IH1 IH2]]; cbn [split_elem]; [done|].
  destruct (c =? SLASH) eqn:E; cbn [fst snd]; [done|]. apply Z.eqb_neq in E. split; [by constructor|].
  cbn [app]. by f_equal.
Qed.

Lemma cname_splice_short s name : Forall (fun c => c <> 0) s -> (length s < Z.to_nat DIRSIZ)%nat ->
  cname (Z.to_nat DIRSIZ) (splice name 0 (s ++ [0])) = s.
Proof.
  intros Hs Hl. unfold splice. change (Z.to_nat 0) with 0%nat. rewrite take_0. cbn [app]. rewrite <- app_assoc.
  generalize (drop (0 + length (s ++ [0])) name). intros rest.
  generalize dependent (Z.to_nat DIRSIZ). intros n. revert n. induction Hs as [|c s Hc Hs IH]; intros n Hl.
  - destruct n as [|n]; [simpl in Hl; lia|]. done.
  - destruct n as [|n]; [simpl in Hl; lia|]. cbn [app cname].
    replace (c =? 0) with false by (symmetry; by apply Z.eqb_neq). f_equal. apply IH. simpl in Hl. lia.
Qed.

Lemma cname_splice_long s name : Forall (fun c => c <> 0) s -> (Z.to_nat DIRSIZ <= length s)%nat ->
  cname (Z.to_nat DIRSIZ) (splice name 0 (take (Z.to_nat DIRSIZ) s)) = take (Z.to_nat DIRSIZ) s.
Proof.
  intros Hs Hl. unfold splice. change (Z.to_nat 0) with 0%nat. rewrite take_0. cbn [app].
  generalize (drop (0 + length (take (Z.to_nat DIRSIZ) s)) name). intros rest.
  generalize dependent (Z.to_nat DIRSIZ). intros n. revert n. induction Hs as [|c s Hc Hs IH]; intros n Hl.
  - simpl in Hl. assert (n = 0%nat) as -> by lia. done.
  - destruct n as [|n]; [done|]. cbn [take app cname].
    replace (c =? 0) with false by (symmetry; by apply Z.eqb_neq). f_equal. apply IH. simpl in Hl. lia.
Qed.

(** One step of [skipelem]: the first element goes to [name], the rest of the
    path has the remaining elements and no leading slash. *)
Lemma skipelem_elems path name : Forall (fun c => c <> 0) path ->
  match skipelem path name with
  | None => elems path = []
  | Some (rest, name') =>
      exists e, elems path = e :: elems rest /\ cname (Z.to_nat DIRSIZ) name' = take (Z.to_nat DIRSIZ) e /\
        (forall c, head rest = Some c -> c <> SLASH) /\ (length rest < length path)%nat /\
        Forall (fun c => c <> 0) rest
  end.
Proof.
  intros Hz. unfold skipelem, elems. rewrite <- split_slashes.
  assert (exists pre, path = pre ++ skip_slashes path) as [pre Hpre].
  { clear. induction path as [|c path [pre IH]]; [by exists []|]. cbn [skip_slashes].
    destruct (c =? SLASH); [exists (c :: pre); cbn; by f_equal|by exists []]. }
  pose proof (skip_slashes_head path) as Hhead.
  destruct (skip_slashes path) as [|c p]; [done|]. specialize (Hhead c p eq_refl).
  assert (Forall (fun c => c <> 0) (c :: p)) as Hz' by (rewrite Hpre in Hz; by apply Forall_app in Hz as [_ ?]).
  destruct (split_elem_chars (c :: p)) as [Hch Happ].
  assert (exists e, fst (split_elem (c :: p)) = c :: e) as [e He].
  { cbn [split_elem]. apply Z.eqb_neq in Hhead. rewrite Hhead. cbn [fst]. by eexists. }
  pose proof (split_elem_spec (c :: p) []) as Hsp. cbn [rev app] in Hsp. rewrite He in Hsp.
  set (rest := snd (split_elem (c :: p))) in *. rewrite He in *.
  rewrite Happ in Hz'. apply Forall_app in Hz' as [Hze Hzr].
  assert (exists pre', rest = pre' ++ skip_slashes rest) as [pre' Hpre'].
  { clear. generalize rest. intros r. induction r as [|y r [q IH]]; [by exists []|]. cbn [skip_slashes].
    destruct (y =? SLASH); [exists (y :: q); cbn; by f_equal|by exists []]. }
  exists (c :: e). rewrite Hsp, split_slashes. split; [done|]. split; [|split; [|split]].
  - destruct (DIRSIZ <=? Z.of_nat (length (c :: e))) eqn:E.
    + apply Z.leb_le in E. apply cname_splice_long; [done|unfold DIRSIZ in *; lia].
    + apply Z.leb_gt in E. rewrite cname_splice_short; [|done|unfold DIRSIZ in *; lia].
      symmetry. apply take_ge. unfold DIRSIZ in *. lia.
  - intros y Hy. destruct (skip_slashes rest) as [|z r] eqn:Er; [done|]. injection Hy as ->.
    by eapply skip_slashes_head.
  - apply (f_equal (@length Z)) in Hpre, Happ, Hpre'. rewrite length_app in *. simpl in *. lia.
  - rewrite Hpre' in Hzr. by apply Forall_app in Hzr as [_ ?].
Qed.

(** ** Comparing names *)

(** [strncmp] on lists of bytes is the memory version. *)
Lemma strncmp_bytes_mem n : forall m p q,
  strncmp_loop n m p q = strncmp_bytes n (read_bytes n m p) (read_bytes n m q).
Proof.
  induction n as [|n IH]; intros m p q; [done|]. cbn [strncmp_loop strncmp_bytes read_bytes head tail].
  cbn [default]. rewrite <- IH. done.
Qed.

(** Names compare equal when they hold the same string. *)
Lemma namecmp_eq n : forall s t, length s = n -> length t = n ->
  strncmp_bytes n s t = 0 <-> cname n s = cname n t.
Proof.
  induction n as [|n IH]; intros s t Hs Ht; [done|].
  destruct s as [|a s]; [done|]. destruct t as [|b t]; [done|]. simpl in Hs, Ht.
  cbn [strncmp_bytes head tail default cname]. unfold id.
  destruct (a =? 0) eqn:Ea, (b =? 0) eqn:Eb; cbn [negb andb];
    apply Z.eqb_eq in Ea || apply Z.eqb_neq in Ea; apply Z.eqb_eq in Eb || apply Z.eqb_neq in Eb.
  - subst. done.
  - split; [intros; exfalso; lia|done].
  - replace (a =? b) with false by (symmetry; apply Z.eqb_neq; lia). split; [intros; exfalso; lia|done].
  - destruct (a =? b) eqn:Eab.
    + apply Z.eqb_eq in Eab. subst b. rewrite IH by lia. split; [by intros ->|by intros [= ->]].
    + apply Z.eqb_neq in Eab. split; [intros; exfalso; lia|congruence].
Qed.

(** The names [skipelem] produces along a path, as the loop of [namex] calls
    it. *)
Fixpoint path_names (fuel : nat) (path name : list Z) : list (list Z) :=
  match fuel with
  | O => []
  | S fuel' =>
      match skipelem path name with
      | None => []
      | Some (rest, name') => cname (Z.to_nat DIRSIZ) name' :: path_names fuel' rest name'
      end
  end.

(** The repeated calls of [skipelem] on a path take it apart into its
    elements: the non-empty pieces between slashes, in order, each cut to
    DIRSIZ characters, however many slashes separate them and whatever the
    name buffer held before. *)
Theorem path_names_elems path name : Forall (fun c => c <> 0) path ->
  path_names (S (length path)) path name = map (take (Z.to_nat DIRSIZ)) (elems path).
Proof.
  assert (forall fuel path name, (length path < fuel)%nat -> Forall (fun c => c <> 0) path ->
    path_names fuel path name = map (take (Z.to_nat DIRSIZ)) (elems path)) as H; [|apply H; lia].
  clear path name. intros fuel. induction fuel as [|fuel IH]; intros path name Hl Hz; [lia|]. cbn [path_names].
  pose proof (skipelem_elems path name Hz) as Hs. destruct (skipelem path name) as [[rest name']|]; [|by rewrite Hs].
  destruct Hs as (e & -> & -> & _ & Hlen & Hz'). cbn [map]. f_equal. apply IH; [lia|done].
Qed.

(** "//usr/x/" *)
Lemma path_names_elems_witness :
  path_names 9 [47; 47; 117; 115; 114; 47; 120; 47] [] = [[117; 115; 114]; [120]].
Proof.
  apply (path_names_elems [47; 47; 117; 115; 114; 47; 120; 47] []). repeat constructor; discriminate.
Defined.
