(* ===== verification/FsDir.v ===== *)
(** * Directories

    [dirlookup] returns the inode of the first entry in use whose name is the
    one asked for, or nothing when there is none. *)

From S2P Require Import Prelude Memory KString Kalloc Vm Bytes Sleeplock Bio BioSpec Log LogSpec LogCommit LogRecover LogOps Fs FsFile FsTxn FsExample FsBitmap FsInode FsRead FsPath.

(** Entry [k] of the directory of inode [x]. *)
Definition dent (v : Z -> block) (x : inode) (k : Z) : list Z := fbytes v x (k * DIRENT) DIRENT.

(** The entry is in use and has the name [name]. *)
Definition dent_match (v : Z -> block) (x : inode) (name : list Z) (k : Z) : bool :=
  negb (de_inum (dent v x k) =? 0) && (namecmp name (de_name (dent v x k)) =? 0).

Section dir.
Variables dev start size : Z.
Local Abbreviation txn := (txn dev start size).
Context `{I : KernelImage}.

(** A directory whose contents can be read. *)
Record dir_ok (v : Z -> block) (x : inode) (H : list Z) : Prop := {
  dk_dev : i_dev x = dev;
  dk_type : i_type x = T_DIR;
  dk_size : 0 <= i_size x <= MAXFILE * BSIZE;
  dk_mod : i_size x mod DIRENT = 0;
  dk_blocks : forall bn, 0 <= bn -> bn * BSIZE < i_size x -> block_ok v x H bn
}.

Lemma dirlookup_loop_S fuel dp name off :
  dirlookup_loop (S fuel) dp name off =
      (x <- inget dp ;;
      if off <? i_size x then
        r <- readi dp false 0 off DIRENT ;;
        if negb (fst r =? DIRENT) then panic "dirlookup read"
        else if de_inum (snd r) =? 0 then dirlookup_loop fuel dp name (off + DIRENT)
        else if namecmp name (de_name (snd r)) =? 0 then
          ip <- iget (i_dev x) (de_inum (snd r)) ;; kret (Some (ip, off))
        else dirlookup_loop fuel dp name (off + DIRENT)
      else kret None).
Proof. reflexivity. Qed.

(** The outcome of a search: entry [k] when it is found, else nothing. *)
Definition lookup_result (v : Z -> block) (x : inode) (k : option Z) : K fstate (option (nat * Z)) :=
  match k with
  | Some k => ip <- iget dev (de_inum (dent v x k)) ;; kret (Some (ip, k * DIRENT))
  | None => kret None
  end.

Lemma dirlookup_loop_ok fuel : forall s v H L d p dp name j,
  let x := geti s dp in
  txn s v H L d p -> dir_ok v x H -> (held_used H L < NBUF)%nat ->
  0 <= j <= i_size x / DIRENT -> i_size x / DIRENT < j + Z.of_nat fuel ->
  exists s' k, dirlookup_loop fuel dp name (j * DIRENT) s = lookup_result v x k s' /\
    txn s' v H L d p /\ fkeeps dev s s' /\ same_rest s s' /\
    match k with
    | Some k => j <= k < i_size x / DIRENT /\ dent_match v x name k = true /\
        (forall i, j <= i < k -> dent_match v x name i = false)
    | None => forall i, j <= i < i_size x / DIRENT -> dent_match v x name i = false
    end.
Proof.
  induction fuel as [|fuel IH]; intros s v H L d p dp name j x T Hd Hu Hj Hfuel; [lia|].
  pose proof Hd as [D1 D2 D3 D4 D5]. rewrite dirlookup_loop_S, (kbind_ret (inget dp) _ s x s eq_refl).
  change (MAXFILE * BSIZE) with 274432 in D3. change DIRENT with 16 in *.
  destruct (j * 16 <? i_size x) eqn:E.
  2:{ apply Z.ltb_ge in E. exists s, None. split; [done|]. split; [done|].
      split; [apply keeps_refl|]. split; [apply same_rest_refl|]. intros i Hi. Z.div_mod_to_equations. lia. }
  apply Z.ltb_lt in E.
  destruct (readi_ok dev start size s v H L d p dp 0 (j * 16) 16) as (s1 & E1 & T1 & K1 & R1); fold x; try done; try lia.
  { change (MAXFILE * BSIZE) with 274432. lia. }
  fold x in E1.
  replace (16 `min` (i_size x - j * 16)) with 16 in E1 by (Z.div_mod_to_equations; lia).
  rewrite (kbind_ret _ _ _ _ _ E1). cbn [fst snd]. rewrite Z.eqb_refl. cbn [negb].
  change (fbytes v x (j * 16) 16) with (dent v x j).
  assert (geti s1 dp = x) as Hx1 by (by apply geti_rest).
  destruct (dent_match v x name j) eqn:Em.
  - unfold dent_match in Em. apply andb_true_iff in Em as [Em1 Em2]. apply negb_true_iff in Em1.
    rewrite Em1, Em2, D1. exists s1, (Some j). split; [done|]. split; [done|]. split; [done|]. split; [done|].
    split; [Z.div_mod_to_equations; lia|]. split; [unfold dent_match; by rewrite Em1, Em2|]. intros i Hi. lia.
  - assert ((if de_inum (dent v x j) =? 0 then dirlookup_loop fuel dp name (j * 16 + 16)
      else if namecmp name (de_name (dent v x j)) =? 0 then
        ip <- iget (i_dev x) (de_inum (dent v x j)) ;; kret (Some (ip, j * 16))
      else dirlookup_loop fuel dp name (j * 16 + 16)) = dirlookup_loop fuel dp name ((j + 1) * 16)) as ->.
    { replace ((j + 1) * 16) with (j * 16 + 16) by lia. unfold dent_match in Em.
      destruct (de_inum (dent v x j) =? 0); [done|]. cbn [negb andb] in Em. by rewrite Em. }
    destruct (IH s1 v H L d p dp name (j + 1)) as (s2 & k & E2 & T2 & K2 & R2 & Hk);
      rewrite ?Hx1; try done; try lia.
    { Z.div_mod_to_equations. lia. }
    rewrite Hx1 in *. exists s2, k. split; [done|]. split; [done|].
    split; [eapply fkeeps_chain; [exact T|exact K1|exact T1|exact K2|done]|].
    split; [by eapply same_rest_trans|]. destruct k as [k|].
    + destruct Hk as (H1 & H2 & H3). split; [lia|]. split; [done|]. intros i Hi.
      destruct (decide (i = j)) as [->|]; [done|]. apply H3. lia.
    + intros i Hi. destruct (decide (i = j)) as [->|]; [done|]. apply Hk. lia.
Qed.

Lemma dirlookup_ok s v H L d p dp name :
  let x := geti s dp in
  txn s v H L d p -> dir_ok v x H -> (held_used H L < NBUF)%nat ->
  exists s' k, dirlookup dp name s = lookup_result v x k s' /\
    txn s' v H L d p /\ same_rest s s' /\
    match k with
    | Some k => 0 <= k < i_size x / DIRENT /\ dent_match v x name k = true /\
        (forall i, 0 <= i < k -> dent_match v x name i = false)
    | None => forall i, 0 <= i < i_size x / DIRENT -> dent_match v x name i = false
    end.
Proof.
  intros x T Hd Hu. pose proof Hd as [D1 D2 D3 D4 D5]. unfold dirlookup.
  rewrite (kbind_ret (inget dp) _ s x s eq_refl), D2. cbn [negb Z.eqb T_DIR].
  replace (T_DIR =? T_DIR) with true by done. cbn [negb].
  destruct (dirlookup_loop_ok (S (S (Z.to_nat (i_size x / DIRENT)))) s v H L d p dp name 0)
    as (s' & k & E1 & T1 & K1 & R1 & Hk); try done; fold x.
  { change DIRENT with 16. Z.div_mod_to_equations. lia. }
  { lia. }
  exists s', k. rewrite Z.mul_0_l in E1. done.
Qed.

(** Entry [k] is in use and its name is [name], as C strings of at most
    DIRSIZ characters. *)
Definition dent_is (v : Z -> block) (x : inode) (name : list Z) (k : Z) : Prop :=
  de_inum (dent v x k) <> 0 /\ cname (Z.to_nat DIRSIZ) (de_name (dent v x k)) = cname (Z.to_nat DIRSIZ) name.

Lemma dent_match_is v x name k : length name = Z.to_nat DIRSIZ ->
  if dent_match v x name k then dent_is v x name k else ~ dent_is v x name k.
Proof.
  intros Hn. unfold dent_match, dent_is, namecmp.
  assert (length (de_name (dent v x k)) = Z.to_nat DIRSIZ) as Hl
    by (unfold de_name, dent; rewrite length_drop, length_fbytes; done).
  pose proof (namecmp_eq (Z.to_nat DIRSIZ) name (de_name (dent v x k)) Hn Hl) as Heq.
  destruct (Z.eqb_spec (de_inum (dent v x k)) 0) as [E|E]; cbn [negb andb]; [tauto|].
  destruct (Z.eqb_spec (strncmp_bytes (Z.to_nat DIRSIZ) name (de_name (dent v x k))) 0) as [E1|E1].
  - split; [done|]. symmetry. by apply Heq.
  - intros [_ Hc]. apply E1, Heq. by symmetry.
Qed.

(** C25: [dirlookup] finds a name exactly when the directory has it.  It
    returns the inode, through [iget], and the offset of the first entry in
    use with that name, comparing names as C strings of at most DIRSIZ
    characters; if there is none it returns 0.  The directory's contents, the
    log and the cache are left as they were. *)
Theorem dirlookup_first s v H L d p dp name :
  let x := geti s dp in
  txn s v H L d p -> dir_ok v x H -> (held_used H L < NBUF)%nat -> length name = Z.to_nat DIRSIZ ->
  exists s', txn s' v H L d p /\ same_rest s s' /\
    ((exists k, 0 <= k < i_size x / DIRENT /\ dent_is v x name k /\ (forall i, 0 <= i < k -> ~ dent_is v x name i) /\
        dirlookup dp name s = (ip <- iget dev (de_inum (dent v x k)) ;; kret (Some (ip, k * DIRENT))) s') \/
     (forall k, 0 <= k < i_size x / DIRENT -> ~ dent_is v x name k) /\ dirlookup dp name s = Ret None s').
Proof.
  intros x T Hd Hu Hn. destruct (dirlookup_ok s v H L d p dp name T Hd Hu) as (s' & k & E & T' & R & Hk). fold x in E, Hk.
  exists s'. split; [done|]. split; [done|]. destruct k as [k|]; [left|right].
  - destruct Hk as (Hk & Hm & Hlow). exists k. split; [done|].
    split; [|split; [|done]].
    + pose proof (dent_match_is v x name k Hn) as Hi. by rewrite Hm in Hi.
    + intros i Hi. pose proof (dent_match_is v x name i Hn) as Hc. by rewrite Hlow in Hc.
  - split; [|done]. intros k Hk'. pose proof (dent_match_is v x name k Hn) as Hc. by rewrite Hk in Hc.
Qed.

End dir.

(** Looking up "b" in the directory of FsExample.v. *)
Lemma dirlookup_first_witness : exists s',
  dirlookup 1 (98 :: replicate 13 0) fsx = (ip <- iget 1 3 ;; kret (Some (ip, 16))) s'.
Proof.
  destruct (dirlookup_first 1 2 30 fsx (disk_block diskx) [] [] diskx 1 1 (98 :: replicate 13 0) txnx)
    as (s' & _ & _ & [(k & Hk & [Hk0 Hk1] & _ & E)|[Hno _]]).
  - split; try done. intros bn Hb0 Hb1. assert (bn = 0) as -> by (unfold BSIZE in Hb1; cbn in Hb1; lia).
    split; [discriminate|apply not_elem_of_nil|apply blockx|]. intros _. apply not_elem_of_nil.
  - apply Nat.ltb_lt. reflexivity.
  - reflexivity.
  - exists s'. rewrite E. clear E. assert (k = 1) as ->; [|reflexivity].
    assert (k = 0 \/ k = 1) as [-> | ->]; [change (i_size (geti fsx 1) / DIRENT) with 2 in Hk; lia| |reflexivity]. vm_compute in Hk1. discriminate Hk1.
  - exfalso. apply (Hno 1); [vm_compute; split; done|]. split; [vm_compute; discriminate|vm_compute; reflexivity].
Defined.
