(* ===== verification/FsDirlink.v ===== *)
(** * Adding names to directories

    [dirlink] of kernel/fs.c writes an entry to the first free place of a
    directory or at its end; [dirlookup] finds it there, and the other entries
    are kept. *)

From S2P Require Import Prelude Memory KString Kalloc Vm Bytes Sleeplock Bio BioSpec Log LogSpec LogCommit LogRecover LogOps Fs FsFile FsTxn FsExample FsBitmap FsAlloc FsInode FsInodeOps FsRead FsBlocks FsBmap FsWrite FsPath FsDir.

Lemma length_strncpy n : forall t, length (strncpy_bytes n t) = n.
Proof.
  induction n as [|n IH]; intros t; [done|]. cbn [strncpy_bytes]. destruct (_ =? 0); [apply length_replicate|].
  cbn [length]. by rewrite IH.
Qed.

Lemma cname_zeros n m : cname n (replicate m 0) = [].
Proof. by destruct n, m. Qed.

Lemma cname_strncpy n : forall t, cname n (strncpy_bytes n t) = cname n t.
Proof.
  induction n as [|n IH]; intros t; [done|]. cbn [strncpy_bytes]. destruct t as [|c t].
  - apply cname_zeros.
  - change (default 0 (list.head (c :: t))) with c. change (list.tail (c :: t)) with t. destruct (c =? 0) eqn:E.
    + rewrite cname_zeros. cbn [cname]. by rewrite E.
    + cbn [cname]. by rewrite E, IH.
Qed.

(** The entry [dirlink] writes. *)
Definition dirent_bytes (name : list Z) (inum : Z) : list Z :=
  put16 (replicate 2 0 ++ strncpy_bytes (Z.to_nat DIRSIZ) name) 0 inum.

Lemma dirent_bytes_eq name inum :
  dirent_bytes name inum = uint8 inum :: uint8 (inum / 256) :: strncpy_bytes (Z.to_nat DIRSIZ) name.
Proof. reflexivity. Qed.

Lemma length_dirent name inum : length (dirent_bytes name inum) = Z.to_nat DIRENT.
Proof. rewrite dirent_bytes_eq. cbn [length]. by rewrite length_strncpy. Qed.

Lemma dirent_inum name inum : 0 <= inum < 2 ^ 16 -> de_inum (dirent_bytes name inum) = inum.
Proof.
  intros Hi. unfold de_inum, dirent_bytes. rewrite get16_put16; [apply Z.mod_small; lia|lia|].
  rewrite length_app, length_replicate, length_strncpy. change DIRSIZ with 14. lia.
Qed.

Section dirlink.
Variables dev start size : Z.
Local Abbreviation txn := (txn dev start size).
Local Abbreviation writable_file := (writable_file dev start size).
Context `{I : KernelImage}.

(** A directory that may be read and written. *)
Record dir_wf (s : fstate) (v : Z -> block) (dp : nat) : Prop := {
  dw_file : writable_file s v dp;
  dw_type : i_type (geti s dp) = T_DIR;
  dw_size : 0 <= i_size (geti s dp) <= MAXFILE * BSIZE;
  dw_mod : i_size (geti s dp) mod DIRENT = 0;
  dw_mapped : forall bn, 0 <= bn -> bn * BSIZE < i_size (geti s dp) -> baddr v (geti s dp) bn <> 0
}.

Lemma dir_wf_ok s v dp : dir_wf s v dp -> dir_ok dev v (geti s dp) [].
Proof.
  intros [[F1 F2 F3 F4 F5 F6] D1 D2 D3 D4]. split; try done. intros bn Hbn Hlt. eapply wf_block_ok; [exact F4| |by apply D4].
  change BSIZE with 1024 in *. change MAXFILE with 268 in *. lia.
Qed.

Lemma dirlink_loop_S fuel dp off :
  dirlink_loop (S fuel) dp off =
      (x <- inget dp ;;
      if off <? i_size x then
        r <- readi dp false 0 off DIRENT ;;
        if negb (fst r =? DIRENT) then panic "dirlink read"
        else if de_inum (snd r) =? 0 then kret off
        else dirlink_loop fuel dp (off + DIRENT)
      else kret off).
Proof. reflexivity. Qed.

(** The first free entry, or the end of the directory. *)
Lemma dirlink_loop_ok fuel : forall s v L d p dp j,
  let x := geti s dp in
  txn s v [] L d p -> dir_ok dev v x [] -> (length L < NBUF)%nat ->
  0 <= j <= i_size x / DIRENT -> i_size x / DIRENT < j + Z.of_nat fuel ->
  exists s' k, dirlink_loop fuel dp (j * DIRENT) s = Ret (k * DIRENT) s' /\ txn s' v [] L d p /\ same_rest s s' /\
    j <= k <= i_size x / DIRENT /\ (k = i_size x / DIRENT \/ de_inum (dent v x k) = 0).
Proof.
  induction fuel as [|fuel IH]; intros s v L d p dp j x T Hd Hu Hj Hfuel; [lia|].
  pose proof Hd as [D1 D2 D3 D4 D5]. rewrite dirlink_loop_S, (kbind_ret (inget dp) _ s x s eq_refl).
  change (MAXFILE * BSIZE) with 274432 in D3. change DIRENT with 16 in *. pose proof (held_used_le [] L) as Hul. cbn [length] in Hul.
  destruct (Z.ltb_spec (j * 16) (i_size x)) as [E|E].
  2:{ exists s, j. split; [done|]. split; [done|]. split; [apply same_rest_refl|]. split; [lia|]. left. Z.div_mod_to_equations. lia. }
  destruct (readi_ok dev start size s v [] L d p dp 0 (j * 16) 16) as (s1 & E1 & T1 & K1 & R1); fold x; try done; try lia.
  { change (MAXFILE * BSIZE) with 274432. lia. }
  fold x in E1. replace (16 `min` (i_size x - j * 16)) with 16 in E1 by (Z.div_mod_to_equations; lia).
  rewrite (kbind_ret _ _ _ _ _ E1). cbn [fst snd]. rewrite Z.eqb_refl. cbn [negb].
  change (fbytes v x (j * 16) 16) with (dent v x j).
  destruct (Z.eqb_spec (de_inum (dent v x j)) 0) as [E0|E0].
  - exists s1, j. split; [done|]. split; [done|]. split; [done|]. split; [lia|by right].
  - assert (geti s1 dp = x) as Hx1 by (by apply geti_rest).
    replace (j * 16 + 16) with ((j + 1) * 16) by lia.
    destruct (IH s1 v L d p dp (j + 1)) as (s2 & k & E2 & T2 & R2 & Hk & Hk'); rewrite ?Hx1; try done; try lia.
    { Z.div_mod_to_equations. lia. }
    rewrite Hx1 in *. exists s2, k. split; [done|]. split; [done|]. split; [by eapply same_rest_trans|]. split; [lia|done].
Qed.

(** ** The entries after a write *)

Lemma dent_ext v v' x x' k : (forall o, k * DIRENT <= o < k * DIRENT + DIRENT -> fbyte v' x' o = fbyte v x o) ->
  dent v' x' k = dent v x k.
Proof.
  intros Hb. unfold dent, fbytes. apply map_ext_in. intros i Hi. apply in_seq in Hi. apply Hb. change DIRENT with 16 in *. lia.
Qed.

Lemma dent_bytes v x k de : length de = Z.to_nat DIRENT ->
  (forall i, 0 <= i < DIRENT -> fbyte v x (k * DIRENT + i) = nth (Z.to_nat i) de 0) -> dent v x k = de.
Proof.
  intros Hl Hb. change DIRENT with 16 in *. change (Z.to_nat 16) with 16%nat in Hl. apply list_eq. intros i. unfold dent, fbytes.
  change DIRENT with 16. rewrite list_lookup_fmap. destruct (decide (i < 16)%nat).
  - rewrite lookup_seq_lt by (change (Z.to_nat 16) with 16%nat; lia). cbn [fmap option_fmap option_map].
    change (0 + i)%nat with i. rewrite (Hb (Z.of_nat i)) by lia. rewrite Nat2Z.id, nth_lookup.
    destruct (lookup_lt_is_Some_2 de i) as [y Hy]; [lia|]. by rewrite Hy.
  - rewrite (lookup_ge_None_2 de) by lia. rewrite lookup_ge_None_2; [done|]. rewrite length_seq. lia.
Qed.

Section after.
Variables (s s1 : fstate) (v v1 : Z -> block) (L1 : list Z) (d : disk) (p : Z) (dp : nat) (k : Z) (bs : list Z).
Hypothesis D : dir_wf s v dp.
Hypothesis Hk : 0 <= k <= i_size (geti s dp) / DIRENT.
Hypothesis Hfit : k * DIRENT + Z.of_nat (length bs) <= MAXFILE * BSIZE.
Hypothesis Wn : written dev start size s s1 v v1 L1 d p dp (k * DIRENT) bs.

Lemma after_size : i_size (geti s1 dp) = Z.max (i_size (geti s dp)) (k * DIRENT + Z.of_nat (length bs)).
Proof. by rewrite (wn_inode _ _ _ _ _ _ _ _ _ _ _ _ _ Wn). Qed.

Lemma after_mapped bn : 0 <= bn -> bn * BSIZE < i_size (geti s1 dp) -> baddr v1 (geti s1 dp) bn <> 0.
Proof.
  pose proof (dw_size _ _ _ D). pose proof (dw_mod _ _ _ D). change DIRENT with 16 in *.
  intros Hbn Hlt. eapply written_mapped; [exact Wn| |done|lia|apply (dw_mapped _ _ _ D)|done|done].
  Z.div_mod_to_equations. lia.
Qed.

Lemma after_byte o : 0 <= o < i_size (geti s1 dp) ->
  fbyte v1 (geti s1 dp) o = if decide (k * DIRENT <= o < k * DIRENT + Z.of_nat (length bs)) then nth (Z.to_nat (o - k * DIRENT)) bs 0
                            else fbyte v (geti s dp) o.
Proof.
  intros Ho. pose proof after_size as Hs. pose proof (dw_size _ _ _ D). pose proof (dw_mod _ _ _ D).
  change DIRENT with 16 in *.
  rewrite <- fcont_fbyte by (apply after_mapped; change BSIZE with 1024; Z.div_mod_to_equations; lia).
  rewrite (wn_cont _ _ _ _ _ _ _ _ _ _ _ _ _ Wn) by lia. change DIRENT with 16. case_decide; [done|].
  apply fcont_fbyte. apply (dw_mapped _ _ _ D); change BSIZE with 1024 in *; Z.div_mod_to_equations; lia.
Qed.

Lemma after_old i : 0 <= i < i_size (geti s dp) / DIRENT -> i <> k \/ bs = [] -> (length bs <= Z.to_nat DIRENT)%nat ->
  dent v1 (geti s1 dp) i = dent v (geti s dp) i.
Proof.
  intros Hi Hne Hl. pose proof after_size as Hs. pose proof (dw_mod _ _ _ D). apply dent_ext. intros o Ho. change DIRENT with 16 in *.
  rewrite after_byte by (rewrite Hs; Z.div_mod_to_equations; lia). change DIRENT with 16.
  rewrite decide_False; [done|]. change (Z.to_nat 16) with 16%nat in Hl. destruct Hne as [|He]; [lia|]. rewrite He. simpl. lia.
Qed.

Lemma after_new : length bs = Z.to_nat DIRENT -> dent v1 (geti s1 dp) k = bs.
Proof.
  intros Hl. pose proof after_size as Hs. apply dent_bytes; [done|]. intros i Hi. rewrite Hl in Hs. change DIRENT with 16 in *.
  rewrite after_byte by (rewrite Hs; lia). change DIRENT with 16. rewrite decide_True by lia. f_equal. lia.
Qed.

Lemma after_dir_wf : length bs = Z.to_nat DIRENT \/ bs = [] -> dir_wf s1 v1 dp.
Proof.
  intros Hl. pose proof after_size as Hs. pose proof D as [D1 D2 D3 D4 D5]. split.
  - by eapply written_writable.
  - by rewrite (wn_inode _ _ _ _ _ _ _ _ _ _ _ _ _ Wn).
  - lia.
  - rewrite Hs. change DIRENT with 16 in *. destruct Hl as [-> | ->].
    + change (Z.of_nat (Z.to_nat 16)) with 16. Z.div_mod_to_equations. lia.
    + cbn [length]. Z.div_mod_to_equations. lia.
  - apply after_mapped.
Qed.

End after.

(** Writing the entry: [dirlink] after the name was not found. *)
Lemma write_dirent s v L d p dp k name inum :
  txn s v [] L d p -> dir_wf s v dp -> sb_size (fs_sb s) <= BPB -> budget size L 0 0 ->
  0 <= k <= i_size (geti s dp) / DIRENT -> i_size (geti s dp) + DIRENT <= MAXFILE * BSIZE ->
  exists n s1 v1 L1 bs, writei dp (FromKernel (dirent_bytes name inum)) (k * DIRENT) DIRENT s = Ret n s1 /\
    written dev start size s s1 v v1 L1 d p dp (k * DIRENT) bs /\ (length L1 <= length L + 4)%nat /\
    (n = DIRENT /\ bs = dirent_bytes name inum \/
     n = 0 /\ bs = [] /\ forall b, 0 <= b < sb_size (fs_sb s) -> used (fs_sb s) v1 b = true).
Proof.
  intros T D Hsz Hb Hk Hmax. pose proof (length_dirent name inum) as Hl. pose proof (dw_mod _ _ _ D) as Hmod.
  set (de := dirent_bytes name inum) in *. change DIRENT with 16 in *.
  assert (first_block (k * 16) = last_block (k * 16) 16) as Hfl
    by (unfold first_block, last_block; change BSIZE with 1024; Z.div_mod_to_equations; lia).
  assert (Z.of_nat (length de) = 16) as Hl16 by (by rewrite Hl).
  destruct (writei_ok dev start size s v L d p dp de (k * 16) T (dw_file _ _ _ D) Hsz) as (n & s1 & v1 & L1 & E & Hn & Wn & HL & Hfull).
  { rewrite Hl16. destruct Hb as [B1 [B2 B3]]. unfold budget. rewrite Hfl. split; [lia|]. split; lia. }
  { Z.div_mod_to_equations. lia. }
  { rewrite Hl16. Z.div_mod_to_equations. lia. }
  rewrite Hl16 in *. exists n, s1, v1, L1, (take (Z.to_nat n) de). split; [done|]. split; [done|]. split; [lia|].
  destruct (decide (n = 16)) as [->|Hne].
  - left. split; [done|]. apply take_ge. rewrite Hl. done.
  - right. destruct Hfull as [|[Hal Hfull]]; [done|].
    assert (n = 0) as -> by (destruct Hal as [|Hal]; [done|]; change BSIZE with 1024 in Hal; Z.div_mod_to_equations; lia).
    done.
Qed.

Lemma dirlink_none s s' dp name inum : dirlookup dp name s = Ret None s' ->
  dirlink dp name inum s =
    (off <- dirlink_loop (S (S (Z.to_nat (i_size (geti s' dp) / DIRENT)))) dp 0 ;;
     n <- writei dp (FromKernel (dirent_bytes name inum)) off DIRENT ;;
     kret (if negb (n =? DIRENT) then -1 else 0)) s'.
Proof. intros E. unfold dirlink. by rewrite (kbind_ret _ _ _ _ _ E). Qed.

(** The entry just written is the one found. *)
Lemma find_new s1 v1 L1 d p dp k name inum m :
  let x1 := geti s1 dp in
  txn s1 v1 [] L1 d p -> dir_wf s1 v1 dp -> (length L1 < NBUF)%nat -> length name = Z.to_nat DIRSIZ -> 0 < inum < 2 ^ 16 ->
  0 <= k < i_size x1 / DIRENT -> dent v1 x1 k = dirent_bytes name inum ->
  k <= m -> i_size x1 / DIRENT <= Z.max m (k + 1) -> (forall i, 0 <= i < m -> i <> k -> ~ dent_is v1 x1 name i) ->
  exists s2, dirlookup dp name s1 = (ip <- iget dev inum ;; kret (Some (ip, k * DIRENT))) s2.
Proof.
  intros x1 T D HL Hn Hin Hk Hde Hkm Hm Hno. pose proof (held_used_le [] L1) as Hul. cbn [length] in Hul.
  assert (dent_is v1 x1 name k) as Hyes.
  { split; rewrite Hde; [rewrite dirent_inum by lia; lia|]. rewrite dirent_bytes_eq. unfold de_name. cbn [drop]. apply cname_strncpy. }
  destruct (dirlookup_ok dev start size s1 v1 [] L1 d p dp name T (dir_wf_ok _ _ _ D)) as (s2 & r & E & _ & _ & Hr); [lia|]. fold x1 in E, Hr.
  exists s2. rewrite E. clear E. destruct r as [k'|].
  - destruct Hr as (Hk' & Hmt & _). pose proof (dent_match_is v1 x1 name k' Hn) as Hi. rewrite Hmt in Hi.
    destruct (decide (k' = k)) as [->|Hne]; [cbn [lookup_result]; by rewrite Hde, dirent_inum by lia|].
    exfalso. apply (Hno k'); [lia|done|done].
  - specialize (Hr k ltac:(lia)). pose proof (dent_match_is v1 x1 name k Hn) as Hi. by rewrite Hr in Hi.
Qed.

Lemma dir_wf_rest s s' v dp : same_rest s s' -> dir_wf s v dp -> dir_wf s' v dp.
Proof.
  intros R [[F1 F2 F3 F4 F5 F6] D1 D2 D3 D4]. pose proof (geti_rest _ _ dp R) as Hg.
  assert (fs_sb s' = fs_sb s) as Hsb by apply R.
  split; rewrite ?Hg; try done. split; rewrite ?Hg, ?Hsb; try done. by rewrite (sr_itable _ _ R).
Qed.

Lemma dirlink_write s v L d p dp k name inum :
  let x := geti s dp in
  txn s v [] L d p -> dir_wf s v dp -> sb_size (fs_sb s) <= BPB -> budget size L 0 0 ->
  length name = Z.to_nat DIRSIZ -> 0 < inum < 2 ^ 16 -> i_size x + DIRENT <= MAXFILE * BSIZE ->
  (forall k, 0 <= k < i_size x / DIRENT -> ~ dent_is v x name k) -> 0 <= k <= i_size x / DIRENT ->
  exists r s1 v1 L1,
    (n <- writei dp (FromKernel (dirent_bytes name inum)) (k * DIRENT) DIRENT ;;
     kret (if negb (n =? DIRENT) then -1 else 0)) s = Ret r s1 /\ txn s1 v1 [] L1 d p /\ dir_wf s1 v1 dp /\
    (r = 0 /\ (forall i, 0 <= i < i_size x / DIRENT -> i <> k -> dent v1 (geti s1 dp) i = dent v x i) /\
        (exists s2, dirlookup dp name s1 = (ip <- iget dev inum ;; kret (Some (ip, k * DIRENT))) s2) \/
     r = -1 /\ i_size (geti s1 dp) = i_size x /\
       (forall i, 0 <= i < i_size x / DIRENT -> dent v1 (geti s1 dp) i = dent v x i) /\
       (forall b, 0 <= b < sb_size (fs_sb s) -> used (fs_sb s) v1 b = true)).
Proof.
  intros x T D Hsz Hb Hn Hin Hmax Hno Hk. pose proof (dw_mod _ _ _ D) as Hmod. pose proof (dw_size _ _ _ D) as Hs. fold x in Hmod, Hs.
  destruct (write_dirent s v L d p dp k name inum T D Hsz Hb Hk Hmax) as (n & s1 & v1 & L1 & bs & E & Wn & HL1 & Hc).
  pose proof (length_dirent name inum) as Hld.
  assert (length bs = Z.to_nat DIRENT \/ bs = []) as Hlb by (destruct Hc as [[_ ->]|(_ & -> & _)]; [by left|by right]).
  assert (k * DIRENT + Z.of_nat (length bs) <= MAXFILE * BSIZE) as Hfit.
  { change DIRENT with 16 in *. destruct Hlb as [-> | ->]; cbn [length]; Z.div_mod_to_equations; lia. }
  assert (length bs <= Z.to_nat DIRENT)%nat as Hle by (destruct Hlb as [-> | ->]; cbn [length]; lia).
  pose proof (after_size _ _ _ _ _ _ _ _ _ _ Wn) as Has. fold x in Has.
  pose proof (after_dir_wf _ _ _ _ _ _ _ _ _ _ D Hk Hfit Wn Hlb) as D1.
  rewrite (kbind_ret _ _ _ _ _ E). eexists _, s1, v1, L1. split; [reflexivity|]. split; [apply Wn|]. split; [done|].
  destruct Hc as [[-> ->]|(-> & -> & Hfull)]; [left|right].
  - rewrite Z.eqb_refl. split; [done|]. pose proof (after_new _ _ _ _ _ _ _ _ _ _ D Hk Hfit Wn Hld) as Hnew.
    assert (forall i, 0 <= i < i_size x / DIRENT -> i <> k -> dent v1 (geti s1 dp) i = dent v x i) as Hold
      by (intros i Hi Hne; eapply after_old; eauto).
    split; [done|]. rewrite Hld in Has. destruct Hb as [_ [_ B3]].
    eapply (find_new s1 v1 L1 d p dp k name inum (i_size x / DIRENT)); try done; try lia.
    + apply Wn.
    + rewrite Has. change DIRENT with 16 in *. change (Z.of_nat (Z.to_nat 16)) with 16. Z.div_mod_to_equations. lia.
    + rewrite Has. change DIRENT with 16 in *. change (Z.of_nat (Z.to_nat 16)) with 16. Z.div_mod_to_equations. lia.
    + intros i Hi Hne. unfold dent_is. rewrite Hold by done. by apply Hno.
  - split; [done|]. split; [|split; [|done]].
    + rewrite Has. cbn [length]. change DIRENT with 16 in *. Z.div_mod_to_equations. lia.
    + intros i Hi. eapply after_old; eauto.
Qed.

(** C26: A name linked into a directory is found there.  When the directory has
    no entry with the name, [dirlink] writes one to a free place or at the
    end and returns 0, and [dirlookup] then returns its inode number and its
    offset; all other entries are kept.  On a full disk it returns -1 and
    keeps all of them. *)
Theorem dirlink_dirlookup s v L d p dp name inum :
  let x := geti s dp in
  txn s v [] L d p -> dir_wf s v dp -> sb_size (fs_sb s) <= BPB -> budget size L 0 0 ->
  length name = Z.to_nat DIRSIZ -> 0 < inum < 2 ^ 16 -> i_size x + DIRENT <= MAXFILE * BSIZE ->
  (forall k, 0 <= k < i_size x / DIRENT -> ~ dent_is v x name k) ->
  exists r s1 v1 L1, dirlink dp name inum s = Ret r s1 /\ txn s1 v1 [] L1 d p /\ dir_wf s1 v1 dp /\
    (r = 0 /\ (exists k s2, 0 <= k <= i_size x / DIRENT /\ (k < i_size x / DIRENT -> de_inum (dent v x k) = 0) /\
        (forall i, 0 <= i < i_size x / DIRENT -> i <> k -> dent v1 (geti s1 dp) i = dent v x i) /\
        dirlookup dp name s1 = (ip <- iget dev inum ;; kret (Some (ip, k * DIRENT))) s2) \/
     r = -1 /\ i_size (geti s1 dp) = i_size x /\
       (forall i, 0 <= i < i_size x / DIRENT -> dent v1 (geti s1 dp) i = dent v x i) /\
       (forall b, 0 <= b < sb_size (fs_sb s) -> used (fs_sb s) v1 b = true)).
Proof.
  intros x T D Hsz Hb Hn Hin Hmax Hno. pose proof (held_used_le [] L) as Hul. cbn [length] in Hul.
  assert (Z.of_nat (length L) + 8 < Z.of_nat NBUF) as HLb by (destruct Hb as [_ [_ B3]]; lia).
  pose proof (dir_wf_ok _ _ _ D) as Dok. pose proof (dw_mod _ _ _ D) as Hmod. pose proof (dw_size _ _ _ D) as Hs. fold x in Dok, Hmod, Hs.
  destruct (dirlookup_ok dev start size s v [] L d p dp name T Dok) as (s' & r & E & T' & R & Hr); [lia|]. fold x in E, Hr.
  destruct r as [k|].
  { exfalso. destruct Hr as (Hk & Hm & _). pose proof (dent_match_is v x name k Hn) as Hi. rewrite Hm in Hi. by apply (Hno k). }
  pose proof (geti_rest _ _ dp R) as Hg.
  rewrite (dirlink_none _ _ _ _ _ E), Hg. fold x.
  destruct (dirlink_loop_ok (S (S (Z.to_nat (i_size x / DIRENT)))) s' v L d p dp 0 T') as (s0 & k & E0 & T0 & R0 & Hk & Hfree);
    rewrite ?Hg; fold x; try done; [lia|change DIRENT with 16; Z.div_mod_to_equations; lia|lia|].
  rewrite Z.mul_0_l in E0. rewrite (kbind_ret _ _ _ _ _ E0). rewrite Hg in Hk, Hfree. fold x in Hk, Hfree.
  pose proof (same_rest_trans _ _ _ R R0) as R2. pose proof (dir_wf_rest _ _ _ _ R2 D) as D0.
  assert (fs_sb s0 = fs_sb s) as Hsb0 by apply R2. pose proof (geti_rest _ _ dp R2) as Hg0.
  destruct (dirlink_write s0 v L d p dp k name inum) as (r & s1 & v1 & L1 & E1 & T1 & D1 & Hc);
    rewrite ?Hsb0, ?Hg0; try done.
  rewrite Hsb0, Hg0 in Hc. fold x in Hc. exists r, s1, v1, L1. split; [done|]. split; [done|]. split; [done|].
  destruct Hc as [(-> & Hold & s2 & E2)|Hc]; [left|by right]. split; [done|]. exists k, s2. split; [done|]. split; [|done].
  intros Hlt. destruct Hfree; [lia|done].
Qed.

End dirlink.

Lemma dir_wfx : dir_wf 1 2 30 fsx (disk_block diskx) 1.
Proof.
  split; [apply (writablex 1 34); [lia|reflexivity|lia|reflexivity|cbn; lia]|reflexivity| |reflexivity|].
  - split; apply Z.leb_le; reflexivity.
  - intros bn Hbn Hlt. change (i_size (geti fsx 1)) with 32 in Hlt. change BSIZE with 1024 in Hlt. assert (bn = 0) as -> by lia. done.
Qed.

(** Linking "c" to inode 4 in the directory with "a" and "b". *)
Lemma dirlink_dirlookup_witness : exists r s1, dirlink 1 (99 :: replicate 13 0) 4 fsx = Ret r s1 /\ (r = 0 \/ r = -1).
Proof.
  assert (forall k, 0 <= k < i_size (geti fsx 1) / DIRENT -> ~ dent_is (disk_block diskx) (geti fsx 1) (99 :: replicate 13 0) k) as Hno.
  { intros k Hk. change (i_size (geti fsx 1) / DIRENT) with 2 in Hk. assert (k = 0 \/ k = 1) as Hk' by lia.
    intros [_ Hc]. destruct Hk' as [-> | ->]; vm_compute in Hc; discriminate Hc. }
  assert (sb_size (fs_sb fsx) <= BPB) as Hsz by (apply Z.leb_le; reflexivity).
  assert (budget 30 [] 0 0) as Hb by (split; [reflexivity|split; reflexivity]).
  assert (i_size (geti fsx 1) + DIRENT <= MAXFILE * BSIZE) as Hm by (apply Z.leb_le; reflexivity).
  destruct (dirlink_dirlookup 1 2 30 fsx (disk_block diskx) [] diskx 1 1 (99 :: replicate 13 0) 4 txnx dir_wfx Hsz Hb eq_refl
    ltac:(lia) Hm Hno) as (r & s1 & v1 & L1 & E & _ & _ & Hc).
  exists r, s1. split; [exact E|]. destruct Hc as [[-> _]|[-> _]]; [left|right]; reflexivity.
Defined.
