(* ===== verification/Mkfs.v ===== *)
(** * mkfs

    mkfs/mkfs.c, the host program that writes the image of a new file system.
    The image is a file of blocks; a read past its end, a failing assertion or a
    failing open ends the program ([Panic]).  The files to copy are given with
    their names and what successive reads deliver.  xshort and xint put numbers
    in the byte order of the target, as [put16] and [put32] do.  What mkfs prints
    is not part of the model, and seeking and writing in the image succeed. *)

From S2P Require Import Prelude Memory KString Kalloc Vm Bytes Sleeplock Bio Log Fs FsFile.

Definition FSSIZE : Z := 2000.
Definition NINODES : Z := 200.
Definition nbitmap : Z := FSSIZE / BPB + 1.
Definition ninodeblocks : Z := NINODES / IPB + 1.
Definition nlog : Z := LOGSIZE.
Definition nmeta : Z := 2 + nlog + ninodeblocks + nbitmap.
Definition nblocks : Z := FSSIZE - nmeta.

(** The variable [sb]. *)
Definition mksb : superblock :=
  Superblock FSMAGIC FSSIZE nblocks NINODES nlog 2 (2 + nlog) (2 + nlog + ninodeblocks).

(** The image, its length in blocks (past which it reads as zeroes once it is
    extended), [freeinode] and [freeblock]. *)
Record image := Image { im_block : Z -> block; im_len : Z; freeinode : Z; freeblock : Z }.

(** The block at the byte offset [sec * BSIZE], a uint. *)
Definition seek (sec : Z) : Z := uint32 (sec * BSIZE) / BSIZE.

Definition wsect (sec : Z) (buf : block) : K image unit := fun s =>
  Ret tt (Image (fun b => if b =? seek sec then buf else im_block s b) (Z.max (im_len s) (seek sec + 1)) (freeinode s) (freeblock s)).

Definition rsect (sec : Z) : K image block := fun s =>
  if seek sec <? im_len s then Ret (im_block s (seek sec)) s else Panic "read".

(** A struct dinode is its 64 bytes. *)
Definition winode (inum : Z) (din : list Z) : K image unit :=
  buf <- rsect (IBLOCK inum mksb) ;;
  wsect (IBLOCK inum mksb) (splice buf (dinode_off inum) din).

Definition rinode (inum : Z) : K image (list Z) :=
  buf <- rsect (IBLOCK inum mksb) ;;
  kret (sub buf (dinode_off inum) DINODE).

Definition next_inode : K image Z := fun s =>
  Ret (freeinode s) (Image (im_block s) (im_len s) (uint32 (freeinode s + 1)) (freeblock s)).
Definition next_block : K image Z := fun s =>
  Ret (freeblock s) (Image (im_block s) (im_len s) (freeinode s) (uint32 (freeblock s + 1))).

Definition mk_ialloc (type : Z) : K image Z :=
  inum <- next_inode ;;
  let din := put16 (put16 (replicate (Z.to_nat DINODE) 0) 0 type) 6 1 in
  winode inum (put32 din 8 0) ;;;
  kret inum.

(** [for(i = 0; i < used; i++) buf[i/8] = buf[i/8] | (0x1 << (i%8));] *)
Fixpoint mark_used (n : nat) (i : Z) (buf : block) : block :=
  match n with
  | O => buf
  | S n' => mark_used n' (i + 1) (put8 buf (i / 8) (Z.lor (get8 buf (i / 8)) (Z.shiftl 1 (i mod 8))))
  end.

Definition mk_balloc (used : Z) : K image unit :=
  if negb (used <? BPB) then panic "assert(used < BPB)"
  else wsect (sb_bmapstart mksb) (mark_used (Z.to_nat used) 0 zero_block).

(** Offsets in struct dinode: [size] and [addrs[i]]. *)
Definition din_addr (i : Z) : Z := 12 + 4 * i.

(** [if(xint(din.addrs[j]) == 0) din.addrs[j] = xint(freeblock++);] *)
Definition fill_addr (din : list Z) (j : Z) : K image (list Z) :=
  if get32 din (din_addr j) =? 0 then b <- next_block ;; kret (put32 din (din_addr j) b) else kret din.

(** The same for entry [j] of the block of indirect addresses. *)
Definition fill_entry (ind j : Z) : K image block :=
  indirect <- rsect ind ;;
  if get32 indirect (4 * j) =? 0 then
    b <- next_block ;;
    let indirect := put32 indirect (4 * j) b in
    wsect ind indirect ;;;
    kret indirect
  else kret indirect.

(** The block for [fbn], allocated if there is none; the inode with it. *)
Definition append_block (din : list Z) (fbn : Z) : K image (list Z * Z) :=
  if fbn <? NDIRECT then
    din <- fill_addr din fbn ;;
    kret (din, get32 din (din_addr fbn))
  else
    din <- fill_addr din NDIRECT ;;
    indirect <- fill_entry (get32 din (din_addr NDIRECT)) (fbn - NDIRECT) ;;
    kret (din, get32 indirect (4 * (fbn - NDIRECT))).

(** The loop of [iappend], with the bytes [p] still to be written. *)
Fixpoint iappend_loop (fuel : nat) (din : list Z) (p : list Z) (off : Z) : K image (list Z * Z) :=
  match fuel with
  | O => kdiverge
  | S fuel' =>
      let n := Z.of_nat (length p) in
      if 0 <? n then
        let fbn := off / BSIZE in
        if negb (fbn <? MAXFILE) then panic "assert(fbn < MAXFILE)"
        else
          r <- append_block din fbn ;;
          let n1 := Z.min n ((fbn + 1) * BSIZE - off) in
          buf <- rsect (snd r) ;;
          wsect (snd r) (splice buf (off - fbn * BSIZE) (take (Z.to_nat n1) p)) ;;;
          iappend_loop fuel' (fst r) (drop (Z.to_nat n1) p) (uint32 (off + n1))
      else kret (din, off)
  end.

Definition iappend (inum : Z) (p : list Z) : K image unit :=
  din <- rinode inum ;;
  r <- iappend_loop (S (length p)) din p (get32 din 8) ;;
  winode inum (put32 (fst r) 8 (snd r)).

(** An entry of the root directory; the name is shorter than DIRSIZ or cut. *)
Definition mk_dirent (inum : Z) (name : list Z) : list Z :=
  put16 (replicate 2 0 ++ strncpy_bytes (Z.to_nat DIRSIZ) name) 0 inum.

(** [if(strncmp(argv[i], "user/", 5) == 0) shortname = argv[i] + 5;] and the
    leading underscore. *)
Definition strip_user (name : list Z) : list Z :=
  if decide (take 5 name = [117; 115; 101; 114; 47]) then drop 5 name else name.
Definition strip_underscore (name : list Z) : list Z :=
  match name with c :: name' => if c =? 95 then name' else name | [] => [] end.

(** [while((cc = read(fd, buf, sizeof(buf))) > 0) iappend(inum, buf, cc);], with
    what the reads deliver. *)
Fixpoint copy_loop (inum : Z) (reads : list (list Z)) : K image unit :=
  match reads with
  | [] | [] :: _ => kret tt
  | buf :: reads' => iappend inum buf ;;; copy_loop inum reads'
  end.

(** One file of the command line: its name and, if it can be opened, the reads. *)
Definition copy_file (f : list Z * option (list (list Z))) : K image unit :=
  let shortname := strip_user (fst f) in
  if existsb (Z.eqb 47) shortname then panic "assert(index(shortname, '/') == 0)"
  else
    match snd f with
    | None => panic "open"
    | Some reads =>
        let shortname := strip_underscore shortname in
        if negb (length shortname <=? Z.to_nat DIRSIZ)%nat then panic "assert(strlen(shortname) <= DIRSIZ)"
        else
          inum <- mk_ialloc T_FILE ;;
          iappend ROOTINO (mk_dirent inum shortname) ;;;
          copy_loop inum reads
    end.

(** The superblock as the bytes of its block. *)
Definition sb_block : block :=
  let d := put32 zero_block 0 FSMAGIC in
  let d := put32 d 4 FSSIZE in
  let d := put32 d 8 nblocks in
  let d := put32 d 12 NINODES in
  let d := put32 d 16 nlog in
  let d := put32 d 20 2 in
  let d := put32 d 24 (2 + nlog) in
  put32 d 28 (2 + nlog + ninodeblocks).

(** [for(i = 0; i < FSSIZE; i++) wsect(i, zeroes);] *)
Fixpoint zero_image (n : nat) (i : Z) : K image unit :=
  match n with
  | O => kret tt
  | S n' => wsect i zero_block ;;; zero_image n' (i + 1)
  end.

Definition mkfs (files : list (list Z * option (list (list Z)))) : K image unit :=
  zero_image (Z.to_nat FSSIZE) 0 ;;;
  wsect 1 sb_block ;;;
  rootino <- mk_ialloc T_DIR ;;
  if negb (rootino =? ROOTINO) then panic "assert(rootino == ROOTINO)"
  else
    iappend rootino (mk_dirent rootino [46]) ;;;
    iappend rootino (mk_dirent rootino [46; 46]) ;;;
    foldr (fun f k => copy_file f ;;; k) (kret tt) files ;;;
    din <- rinode rootino ;;
    let off := get32 din 8 in
    let off := uint32 ((off / BSIZE + 1) * BSIZE) in
    winode rootino (put32 din 8 off) ;;;
    s <- kget ;;
    mk_balloc (freeblock s).

(** The empty image file, after open with O_TRUNC. *)
Definition new_image : image := Image (fun _ => zero_block) 0 1 nmeta.
