(* ===== verification/MkfsSpec.v ===== *)
(** * What mkfs puts in an image

    The owner of each data block while the image is written, what allocating a
    block and copying a piece of data do to a file, and the loop of [iappend]. *)

From S2P Require Import Prelude Memory KString Kalloc Vm Bytes Sleeplock Bio BioSpec Log LogSpec LogCommit LogRecover LogOps Fs FsFile FsTxn FsExample FsBitmap FsAlloc FsInode FsRead FsBlocks FsBmap FsWrite Mkfs.

(** ** Inodes as bytes *)

Lemma get_le_shift n : forall d d' off off', (forall i, 0 <= i < Z.of_nat n -> get8 d' (off' + i) = get8 d (off + i)) ->
  get_le n d' off' = get_le n d off.
Proof.
  induction n as [|n IH]; intros d d' off off' H; [done|]. cbn [get_le]. f_equal.
  - specialize (H 0 ltac:(lia)). by rewrite !Z.add_0_r in H.
  - f_equal. apply IH. intros i Hi. replace (off' + 1 + i) with (off' + (i + 1)) by lia. rewrite H by lia. f_equal. lia.
Qed.

Lemma get_dinode_ext d d' off off' x : (forall i, 0 <= i < DINODE -> get8 d' (off' + i) = get8 d (off + i)) ->
  get_dinode d' off' x = get_dinode d off x.
Proof.
  intros H. assert (forall n j, 0 <= j -> j + Z.of_nat n <= DINODE -> get_le n d' (off' + j) = get_le n d (off + j)) as G.
  { intros n j Hj Hn. apply get_le_shift. intros i Hi. rewrite <- !Z.add_assoc. apply H. lia. }
  unfold get_dinode, di_type, di_major, di_minor, di_nlink, di_size, di_addr, get16, get32.
  f_equal; try (f_equal; apply G; done); [f_equal; rewrite <- (Z.add_0_r off'), <- (Z.add_0_r off); by apply G|by apply G|].
  apply map_ext_in. intros k Hk. apply in_seq in Hk. rewrite <- !Z.add_assoc. apply G; [lia|]. change (Z.to_nat (NDIRECT + 1)) with 13%nat in Hk.
  unfold DINODE. lia.
Qed.

Lemma get8_splice d off bs i : 0 <= off -> off + Z.of_nat (length bs) <= Z.of_nat (length d) -> 0 <= i ->
  get8 (splice d off bs) i = if decide (off <= i < off + Z.of_nat (length bs)) then get8 bs (i - off) else get8 d i.
Proof.
  intros H1 H2 H3. unfold get8. rewrite nth_splice by done. repeat case_decide; (done || lia || idtac).
Qed.

Lemma get8_sub d off n i : 0 <= off -> 0 <= i < n -> get8 (sub d off n) i = get8 d (off + i).
Proof.
  intros H1 H2. unfold get8, sub. rewrite !nth_lookup, lookup_take, decide_True, lookup_drop by lia.
  by rewrite Z2Nat.inj_add by lia.
Qed.

Lemma iaddr_dinode d off x k : 0 <= k <= NDIRECT -> iaddr (get_dinode d off x) k = get32 d (off + 12 + 4 * k).
Proof.
  intros H. unfold iaddr, get_dinode. cbn [i_addrs]. change NDIRECT with 12 in *. change (Z.to_nat (12 + 1)) with 13%nat.
  rewrite nth_lookup, list_lookup_fmap, lookup_seq_lt by lia. cbn. unfold di_addr. do 2 f_equal. lia.
Qed.

(** The inode of a struct dinode in memory, and of number [inum] in an image. *)
Definition dino (din : list Z) : inode := get_dinode din 0 inode0.
Definition inode_of (v : Z -> block) (inum : Z) : inode := get_dinode (v (IBLOCK inum mksb)) (dinode_off inum) inode0.

Lemma iaddr_dino din k : 0 <= k <= NDIRECT -> iaddr (dino din) k = get32 din (din_addr k).
Proof. intros H. unfold dino. by rewrite iaddr_dinode. Qed.

Lemma iaddr_put din k b j : length din = Z.to_nat DINODE -> 0 <= k <= NDIRECT -> 0 <= j <= NDIRECT -> 0 <= b < 2 ^ 32 ->
  iaddr (dino (put32 din (din_addr k) b)) j = if j =? k then b else iaddr (dino din) j.
Proof.
  intros Hl Hk Hj Hb. rewrite !iaddr_dino by done. change NDIRECT with 12 in *. change (Z.to_nat DINODE) with 64%nat in Hl. unfold din_addr.
  destruct (Z.eqb_spec j k) as [->|Hne].
  - rewrite get32_put32 by lia. by apply uint32_small.
  - apply get32_put32_other; lia.
Qed.

(** Arithmetic on the constants of the layout. *)
Ltac fs_lia := unfold BPB, FSSIZE, BSIZE, DINODE in *; change nmeta with 46 in *; change MAXFILE with 268 in *;
  change NDIRECT with 12 in *; change NINDIRECT with 256 in *; lia.

(** ** Blocks and their owners *)

(** Data block [b] is slot [k] of file number [i] (see [fslot]). *)
Definition owner := Z -> option (nat * Z).

(** The blocks from [fb] on are still free. *)
Record store (own : owner) (v : Z -> block) (fb : Z) : Prop := {
  so_range : forall b r, own b = Some r -> nmeta <= b < fb;
  so_len : forall b, length (v b) = Z.to_nat BSIZE;
  so_zero : forall b, fb <= b -> v b = zero_block;
  so_free : nmeta <= fb <= FSSIZE
}.

(** File [i] with inode [x] has exactly the blocks [has], which it owns, and the
    contents [c], followed by zeroes. *)
Record filed (own : owner) (v : Z -> block) (i : nat) (x : inode) (has : Z -> bool) (c : list Z) : Prop := {
  fd_slot : forall k, 0 <= k <= MAXFILE -> if has k then own (fslot v x k) = Some (i, k) else fslot v x k = 0;
  fd_byte : forall o, 0 <= o < MAXFILE * BSIZE -> has (o / BSIZE) = true -> fbyte v x o = nth (Z.to_nat o) c 0
}.

(** Only file [i] changes; owners do not. *)
Record fext (i : nat) (own : owner) (v : Z -> block) (own' : owner) (v' : Z -> block) : Prop := {
  fx_own : forall b r, own b = Some r -> own' b = Some r;
  fx_new : forall b j k, own' b = Some (j, k) -> j <> i -> own b = Some (j, k);
  fx_same : forall b, (forall k, own' b <> Some (i, k)) -> v' b = v b
}.

Lemma fext_refl i own v : fext i own v own v.
Proof. by split. Qed.

Lemma fext_trans i own v own1 v1 own2 v2 : fext i own v own1 v1 -> fext i own1 v1 own2 v2 -> fext i own v own2 v2.
Proof.
  intros [A1 A2 A3] [B1 B2 B3]. split.
  - intros b r H. by apply B1, A1.
  - intros b j k H Hj. apply A2; [|done]. by apply B2.
  - intros b H. rewrite B3 by done. apply A3. intros k Hk. by apply (H k), B1.
Qed.

Lemma byte_slot o : 0 <= o < MAXFILE * BSIZE -> 0 <= o / BSIZE < MAXFILE.
Proof. intros H. unfold BSIZE in *. split; [apply Z.div_pos; lia|]. apply Z.div_lt_upper_bound; lia. Qed.

(** The slots of a file whose block of indirect addresses is untouched. *)
Lemma fslot_keep own v v' i x has c k : filed own v i x has c -> (forall b, own b = Some (i, MAXFILE) -> v' b = v b) ->
  fslot v' x k = fslot v x k.
Proof.
  intros [F1 _] H. unfold fslot, baddr. destruct (k =? MAXFILE); [done|]. destruct (k <? NDIRECT); [done|].
  destruct (iaddr x NDIRECT =? 0) eqn:E; [done|]. apply Z.eqb_neq in E. pose proof (F1 MAXFILE ltac:(done)) as Hm. rewrite fslot_ind in Hm.
  destruct (has MAXFILE); [|done]. by rewrite (H _ Hm).
Qed.

(** A file whose own blocks are untouched is what it was. *)
Lemma filed_agree own v own' v' i x has c : filed own v i x has c ->
  (forall b k, own b = Some (i, k) -> own' b = Some (i, k) /\ v' b = v b) -> filed own' v' i x has c.
Proof.
  intros F H. pose proof F as [F1 F2].
  assert (forall k, fslot v' x k = fslot v x k) as Es by (intros k; eapply fslot_keep; [exact F|]; intros b Hb; by apply (H _ _ Hb)).
  split.
  - intros k Hk. rewrite Es by done. specialize (F1 k Hk). destruct (has k); [|done]. by apply H.
  - intros o Ho Hh. rewrite <- F2 by done. pose proof (byte_slot o Ho) as Hb. specialize (F1 (o / BSIZE) ltac:(lia)). rewrite Hh in F1.
    specialize (Es (o / BSIZE)). rewrite !fslot_block in * by done. unfold fbyte. rewrite Es. by destruct (H _ _ F1) as [_ ->].
Qed.

Lemma filed_other own v own' v' i j x has c : fext i own v own' v' -> j <> i -> filed own v j x has c -> filed own' v' j x has c.
Proof.
  intros [A1 A2 A3] Hj F. eapply filed_agree; [exact F|]. intros b k Hb. pose proof (A1 _ _ Hb) as Hb'. split; [done|].
  apply A3. intros k' Hk. congruence.
Qed.

Lemma filed_has own v i x has has' c : (forall k, 0 <= k <= MAXFILE -> has' k = has k) -> filed own v i x has c -> filed own v i x has' c.
Proof.
  intros H [F1 F2]. split.
  - intros k Hk. rewrite H by done. by apply F1.
  - intros o Ho Hh. pose proof (byte_slot o Ho). apply F2; [done|]. rewrite <- H by lia. done.
Qed.

(** ** Allocating one block *)

Definition give (own : owner) (fb : Z) (i : nat) (k : Z) : owner := fun b => if b =? fb then Some (i, k) else own b.

Lemma get8_zero i : get8 zero_block i = 0.
Proof. unfold get8, zero_block. rewrite nth_lookup. by destruct (replicate _ _ !! _) eqn:E; [apply lookup_replicate in E as [-> _]|]. Qed.
Lemma nth_zero i : nth i zero_block 0 = 0.
Proof. unfold zero_block. rewrite nth_lookup. by destruct (replicate _ _ !! _) eqn:E; [apply lookup_replicate in E as [-> _]|]. Qed.
Lemma get_le_zero n : forall off, get_le n zero_block off = 0.
Proof. induction n as [|n IH]; intros off; [done|]. cbn [get_le]. by rewrite get8_zero, IH. Qed.

Lemma alloc_slot own v fb i x has c k0 v' x' :
  store own v fb -> fb < FSSIZE -> filed own v i x has c -> 0 <= k0 <= MAXFILE -> has k0 = false ->
  (forall k, 0 <= k <= MAXFILE -> fslot v' x' k = if k =? k0 then fb else fslot v x k) ->
  (forall b, own b <> Some (i, MAXFILE) -> v' b = v b) -> (forall b, length (v' b) = Z.to_nat BSIZE) ->
  (forall o, 0 <= o -> o / BSIZE = k0 -> Z.of_nat (length c) <= o) ->
  store (give own fb i k0) v' (fb + 1) /\ filed (give own fb i k0) v' i x' (fun k => (k =? k0) || has k) c /\ fext i own v (give own fb i k0) v'.
Proof.
  intros [S1 S2 S3 S4] Hfb [F1 F2] Hk0 Hh Hs Hv Hl Hc. unfold give.
  assert (forall b r, own b = Some r -> b <> fb) as Hne by (intros b r Hb; specialize (S1 b r Hb); lia).
  assert (forall b, fb <= b -> v' b = zero_block) as Hz.
  { intros b Hb. rewrite Hv; [by apply S3|]. intros Ho. specialize (S1 _ _ Ho). lia. }
  split_and!; split.
  - intros b r Hb. destruct (Z.eqb_spec b fb); [lia|]. specialize (S1 b r Hb). lia.
  - done.
  - intros b Hb. apply Hz. lia.
  - lia.
  - intros k Hk. rewrite Hs by done. destruct (Z.eqb_spec k k0) as [->|Hkk]; cbn [orb]; [by rewrite Z.eqb_refl|].
    specialize (F1 k Hk). destruct (has k); [|done]. destruct (Z.eqb_spec (fslot v x k) fb); [|done]. by apply Hne in F1.
  - intros o Ho Hho. pose proof (byte_slot o Ho) as Hb. pose proof (Hs (o / BSIZE) ltac:(lia)) as E. unfold fbyte.
    rewrite fslot_block in E by done. rewrite E. destruct (Z.eqb_spec (o / BSIZE) k0) as [Ek|Ek]; cbn [orb] in Hho.
    + rewrite Hz, nth_zero by lia. rewrite nth_overflow; [done|]. specialize (Hc o). lia.
    + rewrite <- F2 by done. specialize (F1 (o / BSIZE) ltac:(lia)). rewrite Hho in F1. rewrite fslot_block in * by done. unfold fbyte.
      rewrite Hv; [done|]. rewrite F1. intros [= ?]. lia.
  - intros b r Hb. destruct (Z.eqb_spec b fb); [|done]. by apply Hne in Hb.
  - intros b j k. destruct (Z.eqb_spec b fb); [|done]. congruence.
  - intros b Hb. apply Hv. intros Ho. destruct (Z.eqb_spec b fb); [by apply Hne in Ho|]. by eapply Hb.
Qed.

(** ** append_block *)

Lemma seek_block b : 0 <= b < 2 ^ 22 -> seek b = b.
Proof. intros H. unfold seek, BSIZE. rewrite uint32_small by lia. apply Z.div_mul. lia. Qed.

Lemma rsect_ret b v fi fb : 0 <= b < FSSIZE -> rsect b (Image v FSSIZE fi fb) = Ret (v b) (Image v FSSIZE fi fb).
Proof.
  intros H. unfold rsect. cbn [im_len im_block]. unfold FSSIZE in *. rewrite seek_block by lia. by rewrite (proj2 (Z.ltb_lt b 2000)) by lia.
Qed.

Lemma wsect_ret b y v fi fb : 0 <= b < FSSIZE ->
  wsect b y (Image v FSSIZE fi fb) = Ret tt (Image (fun b' => if b' =? b then y else v b') FSSIZE fi fb).
Proof. intros H. unfold wsect, FSSIZE in *. cbn [im_len im_block freeinode freeblock]. rewrite seek_block by lia. by rewrite Z.max_l by lia. Qed.

Lemma next_block_ret v fi fb : 0 <= fb <= FSSIZE -> next_block (Image v FSSIZE fi fb) = Ret fb (Image v FSSIZE fi (fb + 1)).
Proof. intros H. unfold next_block, FSSIZE in *. cbn [freeblock im_block im_len freeinode]. by rewrite uint32_small by lia. Qed.

(** The file grows from ([has], [c]) to ([has'], [c']). *)
Record grows (i : nat) (own : owner) (v : Z -> block) (din : list Z)
  (own' : owner) (v' : Z -> block) (fb' : Z) (din' : list Z) (has' : Z -> bool) (c' : list Z) : Prop := {
  gr_store : store own' v' fb';
  gr_filed : filed own' v' i (dino din') has' c';
  gr_ext : fext i own v own' v';
  gr_len : length din' = Z.to_nat DINODE;
  gr_head : forall j, 0 <= j < 12 -> get8 din' j = get8 din j
}.

Lemma grows_refl i own v fb din has c : store own v fb -> filed own v i (dino din) has c -> length din = Z.to_nat DINODE ->
  grows i own v din own v fb din has c.
Proof. intros. by split. Qed.

Lemma grows_trans i own v din own1 v1 fb1 din1 has1 c1 own2 v2 fb2 din2 has2 c2 :
  grows i own v din own1 v1 fb1 din1 has1 c1 -> grows i own1 v1 din1 own2 v2 fb2 din2 has2 c2 ->
  grows i own v din own2 v2 fb2 din2 has2 c2.
Proof.
  intros [A1 A2 A3 A4 A5] [B1 B2 B3 B4 B5]. split; try done; [by eapply fext_trans|]. intros j Hj. by rewrite B5, A5.
Qed.

Section append.
Variables (i : nat) (fi : Z).

(** Nothing of the contents lies in a block that is missing. *)
Definition covers (has : Z -> bool) (c : list Z) : Prop :=
  forall k, 0 <= k <= MAXFILE -> has k = false -> Z.of_nat (length c) <= k * BSIZE.

Definition with_slot (k0 : Z) (has : Z -> bool) : Z -> bool := fun k => (k =? k0) || has k.

Lemma covers_with_slot k0 has c : covers has c -> covers (with_slot k0 has) c.
Proof. intros H k Hk Hh. apply orb_false_iff in Hh as [_ Hh]. by apply H. Qed.

Lemma filed_with_slot own v x has c k0 : has k0 = true -> filed own v i x has c -> filed own v i x (with_slot k0 has) c.
Proof. intros H. apply filed_has. intros k Hk. unfold with_slot. by destruct (Z.eqb_spec k k0) as [->|]. Qed.

Definition slot_of (j : Z) : Z := if j =? NDIRECT then MAXFILE else j.

Lemma slot_of_range j : 0 <= j <= NDIRECT -> 0 <= slot_of j <= MAXFILE.
Proof. intros H. unfold slot_of. change MAXFILE with 268 in *. change NDIRECT with 12 in *. destruct (j =? 12); lia. Qed.

Lemma fslot_addr v x j : 0 <= j <= NDIRECT -> fslot v x (slot_of j) = iaddr x j.
Proof.
  intros H. unfold slot_of. destruct (Z.eqb_spec j NDIRECT) as [->|Hj]; [apply fslot_ind|].
  change NDIRECT with 12 in *. rewrite fslot_block by (change MAXFILE with 268; lia). unfold baddr. change NDIRECT with 12.
  by rewrite (proj2 (Z.ltb_lt j 12)) by lia.
Qed.

Lemma fslot_put v din j fb k : length din = Z.to_nat DINODE -> 0 <= j <= NDIRECT -> iaddr (dino din) j = 0 -> 0 < fb < 2 ^ 32 ->
  v fb = zero_block -> 0 <= k <= MAXFILE ->
  fslot v (dino (put32 din (din_addr j) fb)) k = if k =? slot_of j then fb else fslot v (dino din) k.
Proof.
  intros Hl Hj H0 Hfb Hz Hk. unfold fslot, slot_of, baddr. change MAXFILE with 268 in *.
  destruct (Z.eqb_spec k 268) as [->|Hk'].
  { rewrite iaddr_put by (done || lia). rewrite (Z.eqb_sym j). destruct (NDIRECT =? j) eqn:E; [done|].
    replace (268 =? j) with false; [done|]. symmetry. apply Z.eqb_neq. change NDIRECT with 12 in *. lia. }
  destruct (Z.ltb_spec k NDIRECT) as [Hd|Hd].
  { rewrite iaddr_put by (done || lia). destruct (Z.eqb_spec j NDIRECT) as [->|]; [|done].
    rewrite !(proj2 (Z.eqb_neq _ _)) by lia. done. }
  rewrite iaddr_put by (done || lia). rewrite (Z.eqb_sym NDIRECT). destruct (Z.eqb_spec j NDIRECT) as [->|Hj'].
  - rewrite H0, (proj2 (Z.eqb_neq fb 0)), (proj2 (Z.eqb_neq k 268)), Hz by lia. apply get_le_zero.
  - by rewrite (proj2 (Z.eqb_neq k j)) by lia.
Qed.

Lemma owned_addr own v fb x has c k : store own v fb -> filed own v i x has c -> 0 <= k <= MAXFILE ->
  (fslot v x k =? 0) = negb (has k) /\ (has k = true -> 0 < fslot v x k < fb).
Proof.
  intros S F Hk. pose proof (fd_slot _ _ _ _ _ _ F k Hk) as H. destruct (has k); [|by rewrite H].
  pose proof (so_range _ _ _ S _ _ H) as Hr. change nmeta with 46 in Hr. split; [|lia]. apply Z.eqb_neq. lia.
Qed.

Lemma fill_addr_ok own v fb din has c j :
  store own v fb -> filed own v i (dino din) has c -> length din = Z.to_nat DINODE -> covers has c -> 0 <= j <= NDIRECT ->
  fb + (if has (slot_of j) then 0 else 1) <= FSSIZE ->
  exists own' din', fill_addr din j (Image v FSSIZE fi fb) = Ret din' (Image v FSSIZE fi (fb + if has (slot_of j) then 0 else 1)) /\
    grows i own v din own' v (fb + if has (slot_of j) then 0 else 1) din' (with_slot (slot_of j) has) c.
Proof.
  intros S F Hl Hc Hj Hfb. pose proof (slot_of_range j Hj) as Hs. destruct (owned_addr own v fb _ has c _ S F Hs) as [E _].
  rewrite fslot_addr, iaddr_dino in E by done. unfold fill_addr. rewrite E. pose proof (so_free _ _ _ S) as Hf. change nmeta with 46 in Hf.
  destruct (has (slot_of j)) eqn:Hh; cbn [negb] in *.
  - exists own, din. rewrite Z.add_0_r. split; [done|]. apply grows_refl; [done| |done]. by apply filed_with_slot.
  - rewrite (kbind_ret _ _ _ _ _ (next_block_ret v fi fb ltac:(lia))). do 2 eexists. split; [done|].
    apply Z.eqb_eq in E.
    destruct (alloc_slot own v fb i (dino din) has c (slot_of j) v (dino (put32 din (din_addr j) fb))) as (A1 & A2 & A3); try done; try fs_lia.
    + intros k Hk. apply fslot_put; try done; [by rewrite iaddr_dino|fs_lia|apply (so_zero _ _ _ S); lia].
    + apply (so_len _ _ _ S).
    + intros o Ho Eo. specialize (Hc _ Hs Hh). rewrite <- Eo in Hc. unfold BSIZE in *. pose proof (Z.mul_div_le o 1024). lia.
    + split; try done; [by rewrite length_put32|]. intros k Hk. unfold put32. change (Z.to_nat DINODE) with 64%nat in Hl. change NDIRECT with 12 in Hj.
      apply get8_put_le_other; unfold din_addr; lia.
Qed.

Lemma fslot_entry v v' x ind j fb k : iaddr x NDIRECT = ind -> ind <> 0 -> 0 <= j < NINDIRECT -> 0 <= fb < 2 ^ 32 ->
  length (v ind) = Z.to_nat BSIZE -> v' ind = put32 (v ind) (4 * j) fb -> 0 <= k <= MAXFILE ->
  fslot v' x k = if k =? NDIRECT + j then fb else fslot v x k.
Proof.
  intros Hi H0 Hj Hfb Hl Hv Hk. unfold fslot, baddr. change MAXFILE with 268 in *. change NINDIRECT with 256 in *. change NDIRECT with 12 in *.
  change (Z.to_nat BSIZE) with 1024%nat in Hl. rewrite Hi.
  destruct (Z.eqb_spec k 268) as [->|Hk']; [by rewrite (proj2 (Z.eqb_neq _ _)) by lia|].
  destruct (Z.ltb_spec k 12); [by rewrite (proj2 (Z.eqb_neq _ _)) by lia|].
  rewrite (proj2 (Z.eqb_neq ind 0)) by done. rewrite Hv. destruct (Z.eqb_spec k (12 + j)) as [->|Hne].
  - replace (12 + j - 12) with j by lia. rewrite get32_put32 by lia. by apply uint32_small.
  - apply get32_put32_other; lia.
Qed.

Lemma fill_entry_ok own v fb din has c j :
  store own v fb -> filed own v i (dino din) has c -> length din = Z.to_nat DINODE -> covers has c -> 0 <= j < NINDIRECT ->
  has MAXFILE = true -> fb + (if has (NDIRECT + j) then 0 else 1) <= FSSIZE ->
  exists own' v' d, fill_entry (get32 din (din_addr NDIRECT)) j (Image v FSSIZE fi fb) =
      Ret d (Image v' FSSIZE fi (fb + if has (NDIRECT + j) then 0 else 1)) /\
    get32 d (4 * j) = fslot v' (dino din) (NDIRECT + j) /\
    grows i own v din own' v' (fb + if has (NDIRECT + j) then 0 else 1) din (with_slot (NDIRECT + j) has) c.
Proof.
  intros S F Hl Hc Hj Hm Hfb. assert (0 <= NDIRECT + j <= MAXFILE) as Hs by (change MAXFILE with 268; change NDIRECT with 12; change NINDIRECT with 256 in Hj; lia).
  pose proof (so_free _ _ _ S) as Hf. destruct (owned_addr own v fb _ has c MAXFILE S F ltac:(done)) as [_ Hi]. specialize (Hi Hm).
  pose proof (fd_slot _ _ _ _ _ _ F MAXFILE ltac:(done)) as Ho. rewrite Hm in Ho. rewrite fslot_ind in Hi, Ho.
  destruct (owned_addr own v fb _ has c _ S F Hs) as [E _]. set (x := dino din) in *. set (ind := iaddr x NDIRECT) in *.
  assert (fslot v x (NDIRECT + j) = get32 (v ind) (4 * j)) as Es.
  { rewrite fslot_block by (change MAXFILE with 268; change NDIRECT with 12; change NINDIRECT with 256 in Hj; lia). unfold baddr. fold ind.
    rewrite (proj2 (Z.ltb_ge _ _)), (proj2 (Z.eqb_neq ind 0)) by lia. do 2 f_equal. lia. }
  rewrite Es in E. unfold fill_entry. rewrite <- iaddr_dino by done. fold x ind. rewrite (kbind_ret _ _ _ _ _ (rsect_ret ind v fi fb ltac:(lia))).
  cbv beta. rewrite E. destruct (has (NDIRECT + j)) eqn:Hh; cbn [negb] in *.
  - exists own, v, (v ind). rewrite Z.add_0_r. split; [done|]. split; [done|]. apply grows_refl; [done| |done]. by apply filed_with_slot.
  - rewrite (kbind_ret _ _ _ _ _ (next_block_ret v fi fb ltac:(change nmeta with 46 in Hf; lia))). cbv zeta beta.
    rewrite (kbind_ret _ _ _ _ _ (wsect_ret ind _ v fi (fb + 1) ltac:(lia))). do 3 eexists. split; [done|].
    set (v' := fun b' => if b' =? ind then _ else _). assert (v' ind = put32 (v ind) (4 * j) fb) as Hv by (unfold v'; by rewrite Z.eqb_refl).
    assert (forall k, 0 <= k <= MAXFILE -> fslot v' x k = if k =? NDIRECT + j then fb else fslot v x k) as Hsl.
    { intros k Hk. apply (fslot_entry v v' x ind j fb k); try done; [lia|unfold FSSIZE, nmeta in *; change nmeta with 46 in Hf; lia|apply (so_len _ _ _ S)]. }
    destruct (alloc_slot own v fb i x has c (NDIRECT + j) v' x) as (A1 & A2 & A3); try done; try fs_lia.
    + intros b Hb. unfold v'. destruct (Z.eqb_spec b ind) as [->|]; [done|done].
    + intros b. unfold v'. destruct (b =? ind); [rewrite length_put32|]; apply (so_len _ _ _ S).
    + intros o Ho' Eo. specialize (Hc _ Hs Hh). rewrite <- Eo in Hc. unfold BSIZE in *. pose proof (Z.mul_div_le o 1024). lia.
    + rewrite Hsl, Z.eqb_refl by done. split; [|by split].
      rewrite get32_put32; [apply uint32_small; change nmeta with 46 in Hf; unfold FSSIZE in *; lia|lia|].
      rewrite (so_len _ _ _ S). change NINDIRECT with 256 in Hj. change (Z.to_nat BSIZE) with 1024%nat. lia.
Qed.

(** The blocks a file has once block [fbn] is there, and how many are new. *)
Definition spread (fbn : Z) (has : Z -> bool) : Z -> bool :=
  with_slot fbn (if fbn <? NDIRECT then has else with_slot MAXFILE has).
Definition fresh (fbn : Z) (has : Z -> bool) : Z :=
  (if fbn <? NDIRECT then 0 else if has MAXFILE then 0 else 1) + (if has fbn then 0 else 1).

Lemma append_block_ok own v fb din has c fbn :
  store own v fb -> filed own v i (dino din) has c -> length din = Z.to_nat DINODE -> covers has c -> 0 <= fbn < MAXFILE ->
  fb + fresh fbn has <= FSSIZE ->
  exists own' v' din', append_block din fbn (Image v FSSIZE fi fb) =
      Ret (din', fslot v' (dino din') fbn) (Image v' FSSIZE fi (fb + fresh fbn has)) /\
    grows i own v din own' v' (fb + fresh fbn has) din' (spread fbn has) c.
Proof.
  intros S F Hl Hc Hb Hfb. unfold append_block, fresh, spread in *. destruct (Z.ltb_spec fbn NDIRECT) as [Hd|Hd].
  - assert (slot_of fbn = fbn) as Es by (unfold slot_of; by rewrite (proj2 (Z.eqb_neq _ _)) by lia). rewrite Z.add_0_l in *.
    destruct (fill_addr_ok own v fb din has c fbn) as (own' & din' & E & G); rewrite ?Es; try done; [lia|]. rewrite Es in *.
    exists own', v, din'. rewrite (kbind_ret _ _ _ _ _ E). split; [|done]. unfold kret. repeat f_equal.
    rewrite <- iaddr_dino, <- (fslot_addr v), Es by lia. done.
  - assert (fbn <> MAXFILE) as Hm by lia. change (slot_of NDIRECT) with MAXFILE in *.
    destruct (fill_addr_ok own v fb din has c NDIRECT) as (own1 & din1 & E1 & G1); try done.
    { change (slot_of NDIRECT) with MAXFILE. destruct (has fbn); lia. }
    change (slot_of NDIRECT) with MAXFILE in *. set (fb1 := fb + (if has MAXFILE then 0 else 1)) in *.
    assert (with_slot MAXFILE has fbn = has fbn) as Eh by (unfold with_slot; by rewrite (proj2 (Z.eqb_neq _ _))).
    destruct (fill_entry_ok own1 v fb1 din1 (with_slot MAXFILE has) c (fbn - NDIRECT)) as (own2 & v2 & d & E2 & Ed & G2);
      replace (NDIRECT + (fbn - NDIRECT)) with fbn in * by lia; rewrite ?Eh in *; try apply G1; try done; [by apply covers_with_slot|fs_lia|lia|].
    exists own2, v2, din1. rewrite (kbind_ret _ _ _ _ _ E1), (kbind_ret _ _ _ _ _ E2). rewrite Z.add_assoc. fold fb1.
    split; [unfold kret; by rewrite Ed|]. by eapply grows_trans.
Qed.

(** Copying [q] to the end of a file, inside its block [fbn]. *)
Lemma write_chunk_ok own v fb din has c q fbn :
  store own v fb -> filed own v i (dino din) has c -> length din = Z.to_nat DINODE -> 0 <= fbn < MAXFILE -> has fbn = true ->
  fbn = Z.of_nat (length c) / BSIZE -> Z.of_nat (length c) + Z.of_nat (length q) <= (fbn + 1) * BSIZE ->
  let a := fslot v (dino din) fbn in
  let v' := fun b => if b =? a then splice (v a) (Z.of_nat (length c) - fbn * BSIZE) q else v b in
  grows i own v din own v' fb din has (c ++ q).
Proof.
  intros S F Hl Hb Hh Ef Hq a v'. set (x := dino din) in *. pose proof (fd_slot _ _ _ _ _ _ F fbn ltac:(lia)) as Ha. rewrite Hh in Ha. fold a in Ha.
  assert (0 <= Z.of_nat (length c) - fbn * BSIZE < BSIZE) as Ho.
  { subst fbn. unfold BSIZE. pose proof (Z.div_mod (Z.of_nat (length c)) 1024). pose proof (Z.mod_pos_bound (Z.of_nat (length c)) 1024). lia. }
  assert (Z.of_nat (length c) - fbn * BSIZE + Z.of_nat (length q) <= Z.of_nat (length (v a))) as Hfit by (rewrite (so_len _ _ _ S); change (Z.to_nat BSIZE) with 1024%nat; unfold BSIZE in *; lia).
  assert (forall b k, b = a -> own b = Some (i, k) -> k = fbn) as Hone by (intros b k -> Hk; congruence).
  assert (forall k, fslot v' x k = fslot v x k) as Es.
  { intros k. eapply fslot_keep; [exact F|]. intros b Hm. unfold v'. destruct (Z.eqb_spec b a) as [E1|]; [|done]. specialize (Hone _ _ E1 Hm). lia. }
  split; try done.
  - split; try apply S.
    + intros b. unfold v'. destruct (b =? a); [|apply S]. rewrite length_splice by lia. apply S.
    + intros b Hz. unfold v'. destruct (Z.eqb_spec b a) as [->|]; [|by apply S]. apply (so_range _ _ _ S) in Ha. lia.
  - fold x. split.
    + intros k Hk. rewrite Es by done. by apply F.
    + intros o Hr Hho. pose proof (byte_slot o Hr) as Hk. pose proof (fd_byte _ _ _ _ _ _ F o Hr Hho) as Hold.
      pose proof (Es (o / BSIZE)) as E. rewrite !fslot_block in E by done. unfold fbyte in Hold |- *. rewrite E.
      pose proof (fd_slot _ _ _ _ _ _ F (o / BSIZE) ltac:(lia)) as Hs. rewrite Hho in Hs. rewrite !fslot_block in Hs by done.
      pose proof (Z.div_mod o BSIZE ltac:(done)) as Hdm. pose proof (Z.mod_pos_bound o BSIZE ltac:(done)) as Hmb.
      unfold v'. destruct (Z.eqb_spec (baddr v x (o / BSIZE)) a) as [E1|E1].
      * specialize (Hone _ _ E1 Hs). rewrite E1 in Hold. rewrite nth_splice by lia. case_decide as Hd.
        { rewrite app_nth2 by lia. f_equal. lia. }
        rewrite Hold. destruct (decide (o < Z.of_nat (length c))); [by rewrite app_nth1 by lia|].
        rewrite !nth_overflow; [done|rewrite length_app; lia|lia].
      * rewrite Hold. destruct (decide (o < Z.of_nat (length c))); [by rewrite app_nth1 by lia|].
        rewrite nth_overflow by lia. rewrite nth_overflow; [done|]. rewrite length_app.
        assert (o / BSIZE <> fbn) by (intros E2; apply E1; unfold a; by rewrite <- E2, fslot_block). nia.
  - split; try done. intros b Hnb. unfold v'. destruct (Z.eqb_spec b a) as [->|]; [|done]. by destruct (Hnb fbn).
Qed.
End append.

(** ** iappend *)

(** The blocks of a file of [n] bytes, and how many they are. *)
Definition needed (n k : Z) : bool := if k =? MAXFILE then NDIRECT * BSIZE <? n else k * BSIZE <? n.
Definition nb (n : Z) : Z := (n + (BSIZE - 1)) / BSIZE + (if NDIRECT * BSIZE <? n then 1 else 0).

Lemma covers_needed c : covers (needed (Z.of_nat (length c))) c.
Proof.
  intros k Hk. unfold needed. destruct (Z.eqb_spec k MAXFILE) as [->|]; intros H; apply Z.ltb_ge in H; fs_lia.
Qed.

Lemma nb_mono n m : n <= m -> nb n <= nb m.
Proof.
  intros H. unfold nb. assert ((n + (BSIZE - 1)) / BSIZE <= (m + (BSIZE - 1)) / BSIZE) by (apply Z.div_le_mono; unfold BSIZE; lia).
  destruct (Z.ltb_spec (NDIRECT * BSIZE) n), (Z.ltb_spec (NDIRECT * BSIZE) m); lia.
Qed.

Lemma spread_needed n m k : 0 <= n < MAXFILE * BSIZE -> 0 < m -> n + m <= (n / BSIZE + 1) * BSIZE -> 0 <= k <= MAXFILE ->
  needed (n + m) k = spread (n / BSIZE) (needed n) k.
Proof.
  intros Hn Hm Hf Hk. pose proof (byte_slot n Hn) as Hb. pose proof (Z.div_mod n BSIZE ltac:(done)). pose proof (Z.mod_pos_bound n BSIZE ltac:(done)).
  unfold spread, with_slot, needed. set (q := n / BSIZE) in *.
  destruct (Z.eqb_spec k q), (Z.eqb_spec k MAXFILE), (Z.ltb_spec q NDIRECT); cbn [orb]; rewrite ?Z.eqb_refl; cbn [orb];
    rewrite ?(proj2 (Z.eqb_neq k MAXFILE)) by done; cbn [orb]; repeat match goal with |- context [?a <? ?b] => destruct (Z.ltb_spec a b) end; try done; (fs_lia || by destruct (k =? MAXFILE)).
Qed.

Lemma fresh_nb n m : 0 <= n < MAXFILE * BSIZE -> 0 < m -> n + m <= (n / BSIZE + 1) * BSIZE ->
  fresh (n / BSIZE) (needed n) = nb (n + m) - nb n.
Proof.
  intros Hn Hm Hf. pose proof (byte_slot n Hn) as Hb. pose proof (Z.div_mod n BSIZE ltac:(done)). pose proof (Z.mod_pos_bound n BSIZE ltac:(done)).
  assert ((n + m + (BSIZE - 1)) / BSIZE = n / BSIZE + 1) as E1 by (unfold BSIZE in *; Z.div_mod_to_equations; lia).
  assert ((n + (BSIZE - 1)) / BSIZE = n / BSIZE + if n / BSIZE * BSIZE <? n then 1 else 0) as E2.
  { destruct (Z.ltb_spec (n / BSIZE * BSIZE) n); unfold BSIZE in *; Z.div_mod_to_equations; lia. }
  unfold fresh, nb, needed. rewrite E1, E2, Z.eqb_refl. rewrite (proj2 (Z.eqb_neq (n / BSIZE) MAXFILE)) by lia.
  repeat match goal with |- context [?a <? ?b] => destruct (Z.ltb_spec a b) end; fs_lia.
Qed.

Lemma iappend_loop_ok i fi fuel : forall own v fb din c p,
  (length p < fuel)%nat -> store own v fb -> filed own v i (dino din) (needed (Z.of_nat (length c))) c -> length din = Z.to_nat DINODE ->
  Z.of_nat (length c) + Z.of_nat (length p) <= MAXFILE * BSIZE ->
  fb + (nb (Z.of_nat (length c) + Z.of_nat (length p)) - nb (Z.of_nat (length c))) <= FSSIZE ->
  exists own' v' din', iappend_loop fuel din p (Z.of_nat (length c)) (Image v FSSIZE fi fb) =
      Ret (din', Z.of_nat (length (c ++ p)))
        (Image v' FSSIZE fi (fb + (nb (Z.of_nat (length c) + Z.of_nat (length p)) - nb (Z.of_nat (length c))))) /\
    grows i own v din own' v' (fb + (nb (Z.of_nat (length c) + Z.of_nat (length p)) - nb (Z.of_nat (length c))))
      din' (needed (Z.of_nat (length (c ++ p)))) (c ++ p).
Proof.
  induction fuel as [|fuel IH]; intros own v fb din c p Hfu S F Hl Hmax Hfb; [lia|]. cbn [iappend_loop].
  destruct (Z.ltb_spec 0 (Z.of_nat (length p))) as [Hp|Hp].
  2:{ assert (p = []) as -> by (destruct p; [done|cbn [length] in Hp; lia]). exists own, v, din. rewrite app_nil_r. cbn [length Z.of_nat].
      rewrite !Z.add_0_r, Z.sub_diag, Z.add_0_r. split; [done|]. by apply grows_refl. }
  set (n := Z.of_nat (length c)) in *. set (fbn := n / BSIZE). assert (0 <= n < MAXFILE * BSIZE) as Hn by lia.
  pose proof (byte_slot n Hn : 0 <= fbn < MAXFILE) as Hb. rewrite (proj2 (Z.ltb_lt fbn MAXFILE)) by lia. cbn [negb].
  set (n1 := Z.min (Z.of_nat (length p)) ((fbn + 1) * BSIZE - n)).
  assert (fbn * BSIZE <= n < (fbn + 1) * BSIZE) as Hnb by (unfold fbn, BSIZE in *; Z.div_mod_to_equations; lia).
  assert (0 < n1 <= Z.of_nat (length p) /\ n + n1 <= (fbn + 1) * BSIZE) as [Hn1 Hn1'] by lia.
  pose proof (fresh_nb n n1 Hn ltac:(lia) Hn1') as Ef. fold fbn in Ef. pose proof (nb_mono (n + n1) (n + Z.of_nat (length p)) ltac:(lia)) as Hmo.
  destruct (append_block_ok i fi own v fb din (needed n) c fbn) as (own1 & v1 & din1 & E1 & G1); try done; [apply covers_needed|lia|].
  rewrite (kbind_ret _ _ _ _ _ E1). cbn [fst snd]. rewrite Ef in *. set (fb1 := fb + (nb (n + n1) - nb n)) in *.
  set (q := take (Z.to_nat n1) p). assert (length q = Z.to_nat n1) as Hq by (unfold q; rewrite length_take; lia).
  assert (spread fbn (needed n) fbn = true) as Hs by (unfold spread, with_slot; by rewrite Z.eqb_refl).
  pose proof (proj2 (owned_addr i own1 v1 fb1 _ _ c fbn (gr_store _ _ _ _ _ _ _ _ _ _ G1) (gr_filed _ _ _ _ _ _ _ _ _ _ G1) ltac:(lia)) Hs) as Ha.
  pose proof (write_chunk_ok i own1 v1 fb1 din1 (spread fbn (needed n)) c q fbn (gr_store _ _ _ _ _ _ _ _ _ _ G1) (gr_filed _ _ _ _ _ _ _ _ _ _ G1)
    (gr_len _ _ _ _ _ _ _ _ _ _ G1) Hb Hs eq_refl ltac:(lia)) as G2. cbv zeta in G2. fold n in G2.
  set (a := fslot v1 (dino din1) fbn) in *. rewrite (kbind_ret _ _ _ _ _ (rsect_ret a v1 fi fb1 ltac:(lia))).
  rewrite (kbind_ret _ _ _ _ _ (wsect_ret a _ v1 fi fb1 ltac:(lia))). set (v2 := fun b' => if b' =? a then _ else _) in *.
  rewrite uint32_small by fs_lia.
  assert (n + n1 = Z.of_nat (length (c ++ q))) as En by (rewrite length_app; lia).
  assert (Z.of_nat (length (drop (Z.to_nat n1) p)) = Z.of_nat (length p) - n1) as Ed by (rewrite length_drop; lia).
  destruct (IH own1 v2 fb1 din1 (c ++ q) (drop (Z.to_nat n1) p)) as (own3 & v3 & din3 & E3 & G3); rewrite <- ?En, ?Ed; try apply G2.
  - lia.
  - eapply filed_has; [|apply G2]. intros k Hk. apply (spread_needed n n1); [done|lia|done|done].
  - lia.
  - replace (n + n1 + (Z.of_nat (length p) - n1)) with (n + Z.of_nat (length p)) by lia. lia.
  - rewrite <- En, Ed in *. replace (n + n1 + (Z.of_nat (length p) - n1)) with (n + Z.of_nat (length p)) in * by lia.
    rewrite <- app_assoc in *. unfold q in *. rewrite take_drop in *.
    replace (fb1 + (nb (n + Z.of_nat (length p)) - nb (n + n1))) with (fb + (nb (n + Z.of_nat (length p)) - nb n)) in * by lia.
    exists own3, v3, din3. split; [done|]. eapply grows_trans; [|exact G3]. by eapply grows_trans.
Qed.
