(* ===== verification/MkfsImage.v ===== *)
(** * The image of mkfs

    What the image holds after each step of [mkfs], and what it holds at the end,
    in the terms of the kernel's file system: superblock, log, bitmap, inodes,
    contents of files and the root directory. *)

From S2P Require Import Prelude Memory KString Kalloc Vm Bytes Sleeplock Bio BioSpec Log LogSpec LogCommit LogRecover LogOps Fs FsFile FsTxn FsExample FsBitmap FsAlloc FsInode FsRead FsBlocks FsBmap FsWrite FsDir FsDirlink Mkfs MkfsSpec.

(** ** Inodes in the image *)

Lemma IBLOCK_range inum : 0 <= inum < NINODES -> IBLOCK inum mksb = 32 + inum / 16 /\ 32 <= 32 + inum / 16 < 45.
Proof.
  intros H. unfold IBLOCK. change (sb_inodestart mksb) with 32. change IPB with 16. unfold NINODES in H.
  assert (0 <= inum / 16 < 13) by (Z.div_mod_to_equations; lia). rewrite uint32_small by lia. lia.
Qed.

(** The inode blocks hold 208 inodes; nothing keeps [mk_ialloc] from taking the next
    one, which lies in the bitmap block. *)
Lemma inode_in_bitmap : IBLOCK 208 mksb = sb_bmapstart mksb.
Proof. done. Qed.

Lemma dinode_off_range inum : 0 <= dinode_off inum <= 960.
Proof. unfold dinode_off. change IPB with 16. unfold DINODE. pose proof (Z.mod_pos_bound inum 16). lia. Qed.

Lemma rinode_ret inum v fi fb : 0 <= inum < NINODES -> (forall b, length (v b) = Z.to_nat BSIZE) ->
  exists din, rinode inum (Image v FSSIZE fi fb) = Ret din (Image v FSSIZE fi fb) /\ dino din = inode_of v inum /\ length din = Z.to_nat DINODE.
Proof.
  intros H Hl. destruct (IBLOCK_range inum H) as [E Hr]. pose proof (dinode_off_range inum) as Ho. unfold rinode.
  rewrite (kbind_ret _ _ _ _ _ (rsect_ret (IBLOCK inum mksb) v fi fb ltac:(fs_lia))). eexists. split; [done|]. split.
  - apply get_dinode_ext. intros i Hi. rewrite Z.add_0_l, get8_sub by lia. done.
  - unfold sub. rewrite length_take, length_drop, Hl. change (Z.to_nat BSIZE) with 1024%nat. change (Z.to_nat DINODE) with 64%nat. lia.
Qed.

(** [v'] is [v] with inode [inum] replaced by [x]. *)
Record iset (v v' : Z -> block) (inum : Z) (x : inode) : Prop := {
  is_new : inode_of v' inum = x;
  is_other : forall j, 0 <= j < NINODES -> j <> inum -> inode_of v' j = inode_of v j;
  is_same : forall b, ~ (32 <= b < 45) -> v' b = v b;
  is_len : forall b, length (v' b) = Z.to_nat BSIZE
}.

Lemma winode_ret inum din v fi fb : 0 <= inum < NINODES -> (forall b, length (v b) = Z.to_nat BSIZE) -> length din = Z.to_nat DINODE ->
  exists v', winode inum din (Image v FSSIZE fi fb) = Ret tt (Image v' FSSIZE fi fb) /\ iset v v' inum (dino din).
Proof.
  intros H Hl Hd. destruct (IBLOCK_range inum H) as [E Hr]. pose proof (dinode_off_range inum) as Ho. unfold winode.
  rewrite (kbind_ret _ _ _ _ _ (rsect_ret (IBLOCK inum mksb) v fi fb ltac:(fs_lia))).
  rewrite (wsect_ret (IBLOCK inum mksb) _ v fi fb) by fs_lia. eexists. split; [done|].
  assert (dinode_off inum + Z.of_nat (length din) <= Z.of_nat (length (v (IBLOCK inum mksb)))) as Hfit.
  { rewrite Hl, Hd. change (Z.to_nat BSIZE) with 1024%nat. change (Z.to_nat DINODE) with 64%nat. lia. }
  change (Z.to_nat DINODE) with 64%nat in Hd. split.
  - apply get_dinode_ext. intros i Hi. rewrite Z.eqb_refl, get8_splice by lia. rewrite decide_True by fs_lia. f_equal. lia.
  - intros j Hj Hne. apply get_dinode_ext. intros i Hi. pose proof (dinode_off_range j) as Hoj.
    destruct (Z.eqb_spec (IBLOCK j mksb) (IBLOCK inum mksb)) as [Eb|]; [|done]. rewrite get8_splice by lia. rewrite Eb. rewrite decide_False; [done|].
    destruct (IBLOCK_range j Hj) as [Ej _]. unfold dinode_off in *. change IPB with 16 in *. unfold DINODE in *.
    assert (j mod 16 <> inum mod 16) by (intros Em; apply Hne; rewrite (Z.div_mod j 16), (Z.div_mod inum 16) by lia; lia). lia.
  - intros b Hb. rewrite (proj2 (Z.eqb_neq _ _)); [done|]. lia.
  - intros b. destruct (b =? _); [|apply Hl]. rewrite length_splice by lia. apply Hl.
Qed.

Lemma iset_store own v v' inum x fb : iset v v' inum x -> store own v fb -> store own v' fb.
Proof.
  intros I S. pose proof (so_free _ _ _ S). split; try apply S; [apply I|]. intros b Hb. rewrite (is_same _ _ _ _ I) by fs_lia. by apply S.
Qed.

Lemma iset_filed own v v' inum x fb i y has c : iset v v' inum x -> store own v fb -> filed own v i y has c -> filed own v' i y has c.
Proof.
  intros I S F. eapply filed_agree; [exact F|]. intros b k Hb. split; [done|]. apply (is_same _ _ _ _ I). apply (so_range _ _ _ S) in Hb. fs_lia.
Qed.

Lemma filed_addrs own v i x x' has c : i_addrs x' = i_addrs x -> filed own v i x has c -> filed own v i x' has c.
Proof.
  intros E [F1 F2]. unfold fslot, fbyte, baddr, iaddr in *. split.
  - intros k. unfold fslot, baddr, iaddr. rewrite E. apply F1.
  - intros o. unfold fbyte, baddr, iaddr. rewrite E. apply F2.
Qed.

(** Setting the size of an inode. *)
Lemma dino_size din n : length din = Z.to_nat DINODE -> 0 <= n < 2 ^ 32 ->
  dino (put32 din 8 n) = set_size n (dino din).
Proof.
  intros Hl Hn. change (Z.to_nat DINODE) with 64%nat in Hl.
  unfold dino, get_dinode, di_type, di_major, di_minor, di_nlink, di_size, di_addr, set_size. cbn [i_dev i_inum i_ref i_lock i_valid i_type i_major i_minor i_nlink i_addrs].
  rewrite !Z.add_0_l, !get16_put32_other, get32_put32, uint32_small by lia. f_equal.
  apply map_ext. intros k. apply get32_put32_other; lia.
Qed.

(** ** The state of the image *)

(** A file: its type and its contents; file [i] has inode [i + 1]. *)
Abbreviation tree := (list (Z * list Z)) (only parsing).

Definition total (fs : tree) : Z := foldr (fun f n => nb (Z.of_nat (length (snd f))) + n) 0 fs.

Lemma nb_nonneg n : 0 <= n -> 0 <= nb n.
Proof. intros H. change 0 with (nb 0) at 1. by apply nb_mono. Qed.

Lemma total_app fs fs' : total (fs ++ fs') = total fs + total fs'.
Proof. induction fs as [|f fs IH]; [done|]. cbn [app total foldr] in *. unfold total in *. rewrite IH. lia. Qed.

Lemma total_insert fs i ty ty' c c' : fs !! i = Some (ty, c) ->
  total (<[i := (ty', c')]> fs) = total fs + (nb (Z.of_nat (length c')) - nb (Z.of_nat (length c))).
Proof.
  intros H. rewrite <- (take_drop_middle fs i (ty, c)) at 2 by done. rewrite insert_take_drop by by eapply lookup_lt_Some.
  rewrite !total_app. cbn [total foldr snd]. unfold total. lia.
Qed.

(** File [i] of type [ty] and contents [c], as its inode and its blocks say. *)
Record ifile (own : owner) (v : Z -> block) (i : nat) (ty : Z) (c : list Z) : Prop := {
  if_type : i_type (inode_of v (Z.of_nat i + 1)) = ty;
  if_nlink : i_nlink (inode_of v (Z.of_nat i + 1)) = 1;
  if_size : i_size (inode_of v (Z.of_nat i + 1)) = Z.of_nat (length c);
  if_filed : filed own v i (inode_of v (Z.of_nat i + 1)) (needed (Z.of_nat (length c))) c;
  if_max : Z.of_nat (length c) <= MAXFILE * BSIZE
}.

(** The blocks before the inodes: the superblock, an empty log. *)
Definition blank_meta (v : Z -> block) : Prop := forall b, 0 <= b < 2 + nlog -> v b = if b =? 1 then sb_block else zero_block.

Record disk_is (own : owner) (s : image) (fs : tree) : Prop := {
  di_store : store own (im_block s) (freeblock s);
  di_len : im_len s = FSSIZE;
  di_inodes : freeinode s = 1 + Z.of_nat (length fs) /\ 1 + Z.of_nat (length fs) <= NINODES;
  di_count : freeblock s = nmeta + total fs;
  di_file : forall i ty c, fs !! i = Some (ty, c) -> ifile own (im_block s) i ty c;
  di_unused : forall inum, freeinode s <= inum < NINODES -> i_type (inode_of (im_block s) inum) = 0;
  di_meta : blank_meta (im_block s)
}.

(** A file that is neither [inum]'s nor has blocks that change. *)
Lemma ifile_other own v own1 v1 v' i j ty c x fb : fext i own v own1 v1 -> iset v1 v' (Z.of_nat i + 1) x -> store own1 v1 fb ->
  (forall b, b < nmeta -> v1 b = v b) -> Z.of_nat j + 1 < NINODES -> j <> i -> ifile own v j ty c -> ifile own1 v' j ty c.
Proof.
  intros X I S Hm Hj Hne [I1 I2 I3 I4 I5].
  assert (inode_of v' (Z.of_nat j + 1) = inode_of v (Z.of_nat j + 1)) as E.
  { rewrite (is_other _ _ _ _ I) by lia. unfold inode_of. destruct (IBLOCK_range (Z.of_nat j + 1) ltac:(lia)). rewrite Hm by fs_lia. done. }
  split; rewrite ?E; try done. eapply iset_filed; [exact I|exact S|]. by eapply filed_other.
Qed.

(** Blocks of no file stay as they are. *)
Lemma fext_meta i own v own' v' fb' : fext i own v own' v' -> store own' v' fb' -> forall b, b < nmeta -> v' b = v b.
Proof. intros X S b Hb. apply (fx_same _ _ _ _ _ X). intros k Hk. apply (so_range _ _ _ S) in Hk. lia. Qed.

Lemma iappend_ok own s fs i ty c p : disk_is own s fs -> fs !! i = Some (ty, c) -> Z.of_nat (length c) + Z.of_nat (length p) <= MAXFILE * BSIZE ->
  nmeta + total (<[i := (ty, c ++ p)]> fs) <= FSSIZE ->
  exists own' s', iappend (Z.of_nat i + 1) p s = Ret tt s' /\ disk_is own' s' (<[i := (ty, c ++ p)]> fs).
Proof.
  intros D Hi Hmax Hfit. destruct s as [v len fi fb]. pose proof D as [S Hlen [Hfi Hfi'] Hcnt Hf Hun Hme]. cbn [im_block im_len freeinode freeblock] in *. subst len.
  pose proof (lookup_lt_Some _ _ _ Hi) as Hil. destruct (Hf i ty c Hi) as [I1 I2 I3 I4 I5].
  rewrite (total_insert fs i ty ty c (c ++ p) Hi) in Hfit. rewrite length_app, Nat2Z.inj_add in Hfit.
  unfold iappend. destruct (rinode_ret (Z.of_nat i + 1) v fi fb ltac:(lia) (so_len _ _ _ S)) as (din & E1 & Ed & Hdl).
  rewrite (kbind_ret _ _ _ _ _ E1). assert (get32 din 8 = Z.of_nat (length c)) as -> by (change (get32 din 8) with (i_size (dino din)); by rewrite Ed).
  rewrite <- Ed in I4. destruct (iappend_loop_ok i fi (Datatypes.S (length p)) own v fb din c p) as (own1 & v1 & din1 & E2 & G); try done; [lia|lia|].
  rewrite (kbind_ret _ _ _ _ _ E2). cbn [fst snd]. destruct G as [G1 G2 G3 G4 G5]. set (fb1 := fb + _) in *.
  destruct (winode_ret (Z.of_nat i + 1) (put32 din1 8 (Z.of_nat (length (c ++ p)))) v1 fi fb1 ltac:(lia) (so_len _ _ _ G1)) as (v2 & E3 & I).
  { by rewrite length_put32. }
  pose proof (fext_meta _ _ _ _ _ _ G3 G1) as Hm. exists own1, (Image v2 FSSIZE fi fb1). split; [done|].
  rewrite dino_size in I by (done || (rewrite length_app; fs_lia)).
  split; cbn [im_block im_len freeinode freeblock]; try done.
  - by eapply iset_store.
  - rewrite length_insert. done.
  - rewrite (total_insert fs i ty ty c (c ++ p) Hi), length_app, Nat2Z.inj_add. lia.
  - intros j tj cj Hj. apply list_lookup_insert_Some in Hj as [(-> & [= <- <-] & _)|[Hne Hj]].
    + split; rewrite ?(is_new _ _ _ _ I); cbn [set_size i_type i_nlink i_size]; try done; [| |eapply filed_addrs; [|by eapply iset_filed]; done|rewrite length_app; lia].
      * rewrite <- I1, <- Ed. unfold dino, get_dinode, di_type. cbn [i_type]. f_equal. apply get_le_ext. intros k Hk. apply G5. lia.
      * rewrite <- I2, <- Ed. unfold dino, get_dinode, di_nlink. cbn [i_nlink]. f_equal. apply get_le_ext. intros k Hk. apply G5. lia.
    + pose proof (lookup_lt_Some _ _ _ Hj). eapply ifile_other; [exact G3|exact I|exact G1|done|lia|done|]. by apply Hf.
  - intros inum Hin. rewrite (is_other _ _ _ _ I) by lia. rewrite <- (Hun inum Hin). unfold inode_of. destruct (IBLOCK_range inum ltac:(lia)).
    by rewrite Hm by fs_lia.
  - intros b Hb. change (2 + nlog) with 32 in *. rewrite (is_same _ _ _ _ I) by lia. rewrite Hm by fs_lia. by apply Hme.
Qed.

(** ** The steps of mkfs *)

Lemma dino_new type : 0 <= type < 2 ^ 15 ->
  let x := dino (put32 (put16 (put16 (replicate (Z.to_nat DINODE) 0) 0 type) 6 1) 8 0) in
  i_type x = type /\ i_nlink x = 1 /\ i_size x = 0 /\ i_addrs x = replicate 13 0.
Proof.
  intros H x. set (z := replicate (Z.to_nat DINODE) 0) in x. assert (length z = 64%nat) as Hl by done.
  unfold x, dino, get_dinode, di_type, di_nlink, di_size, di_addr. cbn [i_type i_nlink i_size i_addrs].
  rewrite get16_put32_other, get16_put16_other, get16_put16 by (rewrite ?length_put16; lia).
  rewrite (get16_put32_other _ 8), get16_put16 by (rewrite ?length_put16; lia). rewrite get32_put32 by (rewrite ?length_put16; lia).
  split_and!; [apply int16_uint16; lia|done|done|].
  assert (forall k, (k < 13)%nat -> get32 (put32 (put16 (put16 z 0 type) 6 1) 8 0) (0 + 12 + 4 * Z.of_nat k) = 0) as Hz.
  { intros k Hk. rewrite get32_put32_other, !get32_put16_other by (rewrite ?length_put16; lia).
    do 13 (destruct k as [|k]; [done|]). lia. }
  apply list_eq. intros k. change (Z.to_nat (NDIRECT + 1)) with 13%nat. destruct (decide (k < 13)%nat) as [Hk|Hk].
  - rewrite list_lookup_fmap, lookup_seq_lt, lookup_replicate_2 by done. cbn. f_equal. by apply Hz.
  - rewrite !lookup_ge_None_2; [done|rewrite length_replicate; lia|rewrite length_map, length_seq; lia].
Qed.

Lemma filed_empty own v i x : i_addrs x = replicate 13 0 -> filed own v i x (needed 0) [].
Proof.
  intros Hx. assert (forall j, 0 <= j <= NDIRECT -> iaddr x j = 0) as Hz.
  { intros j Hj. unfold iaddr. rewrite Hx, nth_lookup, lookup_replicate_2; [done|fs_lia]. }
  assert (forall k, 0 <= k <= MAXFILE -> needed 0 k = false) as Hn.
  { intros k Hk. unfold needed. destruct (k =? MAXFILE); apply Z.ltb_ge; fs_lia. }
  split.
  - intros k Hk. rewrite Hn by done. unfold fslot, baddr. rewrite (Hz NDIRECT) by done.
    destruct (k =? MAXFILE); [done|]. destruct (Z.ltb_spec k NDIRECT); [apply Hz; lia|done].
  - intros o Ho Hh. pose proof (byte_slot o Ho). rewrite Hn in Hh; [done|lia].
Qed.

Lemma total_last fs ty c : total (fs ++ [(ty, c)]) = total fs + nb (Z.of_nat (length c)).
Proof. rewrite total_app. cbn. lia. Qed.

Lemma ialloc_ok own s fs ty : disk_is own s fs -> 0 <= ty < 2 ^ 15 -> Z.of_nat (length fs) + 2 <= NINODES ->
  exists s', mk_ialloc ty s = Ret (1 + Z.of_nat (length fs)) s' /\ disk_is own s' (fs ++ [(ty, [])]).
Proof.
  intros D Hty Hn. destruct s as [v len fi fb]. pose proof D as [S Hlen [Hfi Hfi'] Hcnt Hf Hun Hme]. cbn [im_block im_len freeinode freeblock] in *. subst len.
  unfold mk_ialloc. rewrite (kbind_ret next_inode _ (Image v FSSIZE fi fb) fi (Image v FSSIZE (uint32 (fi + 1)) fb) eq_refl).
  rewrite uint32_small by (unfold NINODES in *; lia). rewrite Hfi. set (inum := 1 + Z.of_nat (length fs)) in *.
  destruct (dino_new ty Hty) as (T1 & T2 & T3 & T4). cbv zeta.
  set (din := put32 (put16 (put16 (replicate (Z.to_nat DINODE) 0) 0 ty) 6 1) 8 0) in *.
  destruct (winode_ret inum din v (inum + 1) fb ltac:(lia) (so_len _ _ _ S)) as (v' & E & I).
  { unfold din. by rewrite length_put32, !length_put16, length_replicate. }
  rewrite (kbind_ret _ _ _ _ _ E). clear E. exists (Image v' FSSIZE (inum + 1) fb). split; [done|].
  assert (Z.of_nat (length fs) + 1 = inum) as Ei by lia.
  split; cbn [im_block im_len freeinode freeblock].
  - by eapply iset_store.
  - reflexivity.
  - rewrite length_app. unfold inum. cbn [length]. lia.
  - rewrite total_last, Hcnt. change (nb (Z.of_nat (length (@nil Z)))) with 0. lia.
  - intros j tj cj Hj. apply lookup_app_Some in Hj as [Hj|[Hj1 Hj2]].
    + pose proof (lookup_lt_Some _ _ _ Hj). eapply ifile_other; [apply (fext_refl (length fs))| |exact S|done|lia|lia|by apply Hf]. rewrite Ei. exact I.
    + apply list_lookup_singleton_Some in Hj2 as [Hj2 [= <- <-]]. assert (j = length fs) as -> by lia.
      split; rewrite ?Ei, ?(is_new _ _ _ _ I); try done. by apply filed_empty.
  - intros k Hk. rewrite (is_other _ _ _ _ I) by lia. apply Hun. lia.
  - intros b Hb. change (2 + nlog) with 32 in *. rewrite (is_same _ _ _ _ I) by lia. by apply Hme.
Qed.

(** What the reads deliver up to the end of the file. *)
Fixpoint delivered (reads : list (list Z)) : list Z :=
  match reads with
  | [] | [] :: _ => []
  | buf :: reads' => buf ++ delivered reads'
  end.

Lemma insert_last {A} (l : list A) x y : <[length l := y]> (l ++ [x]) = l ++ [y].
Proof. rewrite <- (Nat.add_0_r (length l)). by rewrite insert_app_r. Qed.

Lemma copy_loop_ok ty fs reads : forall own s c, disk_is own s (fs ++ [(ty, c)]) ->
  Z.of_nat (length (c ++ delivered reads)) <= MAXFILE * BSIZE -> nmeta + total (fs ++ [(ty, c ++ delivered reads)]) <= FSSIZE ->
  exists own' s', copy_loop (1 + Z.of_nat (length fs)) reads s = Ret tt s' /\ disk_is own' s' (fs ++ [(ty, c ++ delivered reads)]).
Proof.
  induction reads as [|buf reads IH]; intros own s c D Hm Hf; [exists own, s; by rewrite app_nil_r|].
  destruct buf as [|b buf]; [exists own, s; cbn [delivered]; by rewrite app_nil_r|]. set (p := b :: buf) in *.
  change (delivered (p :: reads)) with (p ++ delivered reads) in *. rewrite app_assoc in *.
  destruct (iappend_ok own s (fs ++ [(ty, c)]) (length fs) ty c p D) as (own1 & s1 & E1 & D1).
  - by rewrite lookup_app_r, Nat.sub_diag by lia.
  - rewrite !length_app in Hm. lia.
  - rewrite insert_last. rewrite total_last in *. pose proof (nb_mono (Z.of_nat (length (c ++ p))) (Z.of_nat (length ((c ++ p) ++ delivered reads)))) as Hmo.
    rewrite (length_app (c ++ p)) in *. lia.
  - rewrite insert_last in D1. destruct (IH own1 s1 (c ++ p) D1 Hm Hf) as (own2 & s2 & E2 & D2). exists own2, s2. split; [|done].
    change (copy_loop (1 + Z.of_nat (length fs)) (p :: reads)) with (iappend (1 + Z.of_nat (length fs)) p ;;; copy_loop (1 + Z.of_nat (length fs)) reads).
    rewrite Z.add_comm in E1. by rewrite (kbind_ret _ _ _ _ _ E1).
Qed.

(** The name a file gets, its data, and whether mkfs takes it. *)
Definition short (f : list Z * option (list (list Z))) : list Z := strip_underscore (strip_user (fst f)).
Definition fdata (f : list Z * option (list (list Z))) : list Z := match snd f with Some reads => delivered reads | None => [] end.
Definition accepted (f : list Z * option (list (list Z))) : bool :=
  negb (existsb (Z.eqb 47) (strip_user (fst f))) && (length (short f) <=? Z.to_nat DIRSIZ)%nat && match snd f with Some _ => true | None => false end.

(** The entries of the files in the root directory, the first with inode [inum]. *)
Fixpoint entries (inum : Z) (files : list (list Z * option (list (list Z)))) : list Z :=
  match files with
  | [] => []
  | f :: files' => mk_dirent inum (short f) ++ entries (inum + 1) files'
  end.

Definition fits (fs : tree) : Prop :=
  Z.of_nat (length fs) < NINODES /\ (forall f, f ∈ fs -> Z.of_nat (length (snd f)) <= MAXFILE * BSIZE) /\ nmeta + total fs <= FSSIZE.

Lemma total_cons ty c fs : total ((ty, c) :: fs) = nb (Z.of_nat (length c)) + total fs.
Proof. done. Qed.

Lemma total_nonneg fs : 0 <= total fs.
Proof. induction fs as [|[ty c] fs IH]; [done|]. rewrite total_cons. pose proof (nb_nonneg (Z.of_nat (length c))). lia. Qed.

(** A part of a tree that fits: a shorter root directory and fewer files. *)
Lemma fits_part r r' l l' : fits ((T_DIR, r ++ r') :: l ++ l') -> fits ((T_DIR, r) :: l).
Proof.
  intros (F1 & F2 & F3). split_and!.
  - cbn [length] in *. rewrite length_app in F1. lia.
  - intros f Hf. apply elem_of_cons in Hf as [->|Hf].
    + specialize (F2 (T_DIR, r ++ r') ltac:(left)). cbn [snd] in *. rewrite length_app in F2. lia.
    + apply F2. right. apply elem_of_app. by left.
  - rewrite total_cons, total_app in *. pose proof (total_nonneg l'). pose proof (nb_mono (Z.of_nat (length r)) (Z.of_nat (length (r ++ r')))) as Hmo.
    rewrite length_app in Hmo. specialize (Hmo ltac:(lia)). rewrite length_app in F3. lia.
Qed.

Lemma copy_file_ok own s r l f : disk_is own s ((T_DIR, r) :: l) -> accepted f = true ->
  fits ((T_DIR, r ++ mk_dirent (2 + Z.of_nat (length l)) (short f)) :: l ++ [(T_FILE, fdata f)]) ->
  exists own' s', copy_file f s = Ret tt s' /\
    disk_is own' s' ((T_DIR, r ++ mk_dirent (2 + Z.of_nat (length l)) (short f)) :: l ++ [(T_FILE, fdata f)]).
Proof.
  intros D Ha Hfit. apply andb_true_iff in Ha as [Ha Hs]. apply andb_true_iff in Ha as [Ha Hlen]. apply negb_true_iff in Ha.
  destruct f as [name [reads|]]; [|done]. unfold copy_file, short, fdata in *. cbn [fst snd] in *. rewrite Ha, Hlen. cbn [negb].
  set (de := mk_dirent _ _) in *. pose proof Hfit as (F1 & F2 & F3). cbn [length] in F1. rewrite length_app in F1. cbn [length] in F1.
  destruct (ialloc_ok own s _ T_FILE D ltac:(done)) as (s1 & E1 & D1); [cbn [length]; lia|].
  rewrite (kbind_ret _ _ _ _ _ E1). cbn [length]. replace (1 + Z.of_nat (S (length l))) with (2 + Z.of_nat (length l)) by lia. fold de.
  destruct (iappend_ok own s1 (((T_DIR, r) :: l) ++ [(T_FILE, [])]) 0 T_DIR r de D1 eq_refl) as (own2 & s2 & E2 & D2).
  - specialize (F2 (T_DIR, r ++ de) ltac:(left)). cbn [snd] in F2. rewrite length_app in F2. lia.
  - cbn [app insert list_insert]. rewrite total_cons, total_last in *. pose proof (nb_nonneg (Z.of_nat (length (delivered reads)))).
    change (nb (Z.of_nat (length (@nil Z)))) with 0. lia.
  - change (Z.of_nat 0 + 1) with ROOTINO in E2. rewrite (kbind_ret _ _ _ _ _ E2). cbn [app insert list_insert] in D2.
    destruct (copy_loop_ok T_FILE ((T_DIR, r ++ de) :: l) reads own2 s2 [] D2) as (own3 & s3 & E3 & D3); [|done|].
    { apply (F2 (T_FILE, delivered reads)). right. apply elem_of_app. right. left. }
    exists own3, s3. split; [|done]. rewrite <- E3. f_equal. cbn [length]. lia.
Qed.

Lemma copy_files_ok files : forall own s r l, disk_is own s ((T_DIR, r) :: l) -> forallb accepted files = true ->
  fits ((T_DIR, r ++ entries (2 + Z.of_nat (length l)) files) :: l ++ map (fun f => (T_FILE, fdata f)) files) ->
  exists own' s', foldr (fun f k => copy_file f ;;; k) (kret tt) files s = Ret tt s' /\
    disk_is own' s' ((T_DIR, r ++ entries (2 + Z.of_nat (length l)) files) :: l ++ map (fun f => (T_FILE, fdata f)) files).
Proof.
  induction files as [|f files IH]; intros own s r l D Ha Hfit.
  { exists own, s. split; [done|]. cbn [entries map]. by rewrite !app_nil_r. }
  cbn [forallb] in Ha. apply andb_true_iff in Ha as [Ha Ha']. cbn [entries map foldr] in *.
  change ((T_FILE, fdata f) :: ?x) with ([(T_FILE, fdata f)] ++ x) in *. rewrite !app_assoc in *.
  destruct (copy_file_ok own s r l f D Ha) as (own1 & s1 & E1 & D1); [by eapply fits_part|].
  replace (2 + Z.of_nat (length l) + 1) with (2 + Z.of_nat (length (l ++ [(T_FILE, fdata f)]))) in * by (rewrite length_app; cbn [length]; lia).
  destruct (IH own1 s1 _ _ D1 Ha' Hfit) as (own2 & s2 & E2 & D2). exists own2, s2. split; [|done]. by rewrite (kbind_ret _ _ _ _ _ E1).
Qed.

(** ** The blank image *)

Lemma zero_image_ok n : forall i v len fi fb, 0 <= i <= len -> i + Z.of_nat n <= FSSIZE -> (forall b, v b = zero_block) ->
  exists v', zero_image n i (Image v len fi fb) = Ret tt (Image v' (Z.max len (i + Z.of_nat n)) fi fb) /\ (forall b, v' b = zero_block).
Proof.
  induction n as [|n IH]; intros i v len fi fb Hi Hn Hz; [exists v; split; [|done]; cbn [zero_image]; by rewrite Z.max_l by lia|]. cbn [zero_image].
  rewrite (kbind_ret (wsect i zero_block) _ (Image v len fi fb) tt (Image (fun b => if b =? seek i then zero_block else v b) (Z.max len (seek i + 1)) fi fb) eq_refl).
  rewrite seek_block by fs_lia.
  destruct (IH (i + 1) (fun b => if b =? i then zero_block else v b) (Z.max len (i + 1)) fi fb) as (v' & E & Hv'); [lia|lia|by intros b; destruct (b =? i)|].
  exists v'. split; [|done]. rewrite E. do 2 f_equal. lia.
Qed.

Lemma blank_ok v : (forall b, v b = zero_block) ->
  disk_is (fun _ => None) (Image (fun b => if b =? 1 then sb_block else v b) FSSIZE 1 nmeta) [].
Proof.
  intros Hz. split; cbn [im_block im_len freeinode freeblock length]; try done.
  - split; [done| | |done].
    + intros b. destruct (b =? 1); [unfold sb_block; by rewrite !length_put32|by rewrite Hz].
    + intros b Hb. rewrite (proj2 (Z.eqb_neq _ _)) by fs_lia. done.
  - intros inum Hi. destruct (IBLOCK_range inum ltac:(lia)) as [E Hr]. unfold inode_of, get_dinode, di_type, get16. cbn [i_type].
    rewrite (proj2 (Z.eqb_neq _ _)) by lia. by rewrite Hz, get_le_zero.
  - intros b Hb. by rewrite Hz.
Qed.

(** ** The finished image *)

Lemma length_mark_used n : forall i buf, length (mark_used n i buf) = length buf.
Proof. induction n as [|n IH]; intros i buf; [done|]. cbn [mark_used]. by rewrite IH, length_put8. Qed.

Lemma mark_used_bit n : forall i buf j, 0 <= i -> i + Z.of_nat n <= BPB -> length buf = Z.to_nat BSIZE -> 0 <= j ->
  bit_used (mark_used n i buf) j = ((i <=? j) && (j <? i + Z.of_nat n)) || bit_used buf j.
Proof.
  induction n as [|n IH]; intros i buf j Hi Hn Hl Hj; cbn [mark_used].
  { destruct (Z.leb_spec i j), (Z.ltb_spec j (i + Z.of_nat 0)); (done || lia). }
  change (put8 buf (i / 8) (Z.lor (get8 buf (i / 8)) (Z.shiftl 1 (i mod 8)))) with (set_bit buf i).
  rewrite IH by (lia || (unfold set_bit; by rewrite length_put8)).
  rewrite bit_set; [|lia|lia|rewrite Hl; unfold BPB, BSIZE in *; change (Z.to_nat 1024) with 1024%nat; apply Z.div_lt_upper_bound; lia].
  destruct (Z.eqb_spec i j) as [->|Hne]; cbn [orb].
  - rewrite orb_true_r, (proj2 (Z.leb_le j j)), (proj2 (Z.ltb_lt j _)) by lia. done.
  - f_equal. destruct (Z.leb_spec (i + 1) j), (Z.leb_spec i j), (Z.ltb_spec j (i + 1 + Z.of_nat n)), (Z.ltb_spec j (i + Z.of_nat (S n))); cbn [andb]; (done || lia).
Qed.

Lemma BBLOCK_mksb b : 0 <= b < FSSIZE -> BBLOCK b mksb = 45 /\ b mod BPB = b.
Proof.
  intros H. unfold BBLOCK. change (sb_bmapstart mksb) with 45. change BPB with 8192. rewrite Z.div_small, Z.mod_small by fs_lia. done.
Qed.

(** The image holds the files [fs], in terms of the kernel's view of a disk. *)
Record is_fs (v : Z -> block) (fs : tree) : Prop := {
  mi_super : sb_of (v 1) = mksb;
  mi_log : forall b, sb_logstart mksb <= b < sb_logstart mksb + sb_nlog mksb -> v b = zero_block;
  mi_bitmap : forall b, 0 <= b < FSSIZE -> used mksb v b = (b <? nmeta + total fs);
  mi_unused : forall inum, Z.of_nat (length fs) < inum < NINODES -> i_type (inode_of v inum) = 0;
  mi_inode : forall i ty c, fs !! i = Some (ty, c) -> let x := inode_of v (Z.of_nat i + 1) in
    i_type x = ty /\ i_nlink x = 1 /\
    i_size x = if decide (i = 0%nat) then (Z.of_nat (length c) / BSIZE + 1) * BSIZE else Z.of_nat (length c);
  mi_file : forall i ty c, fs !! i = Some (ty, c) -> let x := inode_of v (Z.of_nat i + 1) in
    file_wf (sb_logstart mksb) (sb_nlog mksb) mksb v [] x /\
    (forall k, 0 <= k <= MAXFILE -> (fslot v x k =? 0) = negb (needed (Z.of_nat (length c)) k)) /\
    fbytes v x 0 (Z.of_nat (length c)) = c /\
    (forall o, Z.of_nat (length c) <= o < MAXFILE * BSIZE -> needed (Z.of_nat (length c)) (o / BSIZE) = true -> fbyte v x o = 0);
  mi_disjoint : forall i j k k', (i < length fs)%nat -> (j < length fs)%nat -> i <> j -> 0 <= k <= MAXFILE -> 0 <= k' <= MAXFILE ->
    fslot v (inode_of v (Z.of_nat i + 1)) k <> 0 -> fslot v (inode_of v (Z.of_nat i + 1)) k <> fslot v (inode_of v (Z.of_nat j + 1)) k'
}.

(** A file that owns its blocks is well formed for the kernel. *)
Lemma filed_wf own v fb i inum has c : store own v fb -> filed own v i (inode_of v inum) has c ->
  (forall b, 0 <= b < FSSIZE -> used mksb v b = (b <? fb)) -> file_wf (sb_logstart mksb) (sb_nlog mksb) mksb v [] (inode_of v inum).
Proof.
  intros S F Hu. pose proof (so_free _ _ _ S) as Hf.
  assert (forall k, 0 <= k <= MAXFILE -> fslot v (inode_of v inum) k <> 0 -> own (fslot v (inode_of v inum) k) = Some (i, k)) as Ho.
  { intros k Hk Hn. pose proof (fd_slot _ _ _ _ _ _ F k Hk) as H. by destruct (has k). }
  split.
  - done.
  - intros k Hk Hn. pose proof (so_range _ _ _ S _ _ (Ho k Hk Hn)) as Hr. change (sb_size mksb) with FSSIZE.
    split; [change (sb_size mksb) with FSSIZE; fs_lia|rewrite Hu by fs_lia; apply Z.ltb_lt; lia|apply not_elem_of_nil| |apply S|].
    + unfold in_log. change (sb_logstart mksb) with 2. change (sb_nlog mksb) with 30. fs_lia.
    + intros b Hb. change (sb_size mksb) with FSSIZE in Hb. rewrite (proj1 (BBLOCK_mksb b Hb)). fs_lia.
  - intros k k' Hk Hk' Hn E. pose proof (Ho k Hk Hn) as H1. rewrite E in Hn. pose proof (Ho k' Hk' Hn) as H2. rewrite E in H1. congruence.
Qed.

Lemma filed_bytes own v i x c : filed own v i x (needed (Z.of_nat (length c))) c -> Z.of_nat (length c) <= MAXFILE * BSIZE ->
  fbytes v x 0 (Z.of_nat (length c)) = c.
Proof.
  intros F Hm. apply list_eq. intros o. unfold fbytes. rewrite Nat2Z.id. destruct (decide (o < length c)%nat) as [Ho|Ho].
  - rewrite list_lookup_fmap, lookup_seq_lt by done. cbn [fmap option_fmap option_map]. rewrite Z.add_0_l, Nat.add_0_l.
    rewrite (fd_byte _ _ _ _ _ _ F), Nat2Z.id; [|lia|].
    + destruct (lookup_lt_is_Some_2 c o Ho) as [y Hy]. rewrite nth_lookup, Hy. done.
    + unfold needed. pose proof (byte_slot (Z.of_nat o) ltac:(lia)). rewrite (proj2 (Z.eqb_neq _ _)) by lia. apply Z.ltb_lt.
      unfold BSIZE. pose proof (Z.mul_div_le (Z.of_nat o) 1024). lia.
  - rewrite !lookup_ge_None_2; [done|lia|rewrite length_map, length_seq; lia].
Qed.

Section finish.
Variables (own : owner) (v v' : Z -> block) (fi fb : Z) (ty0 : Z) (r : list Z) (l : tree).
Hypothesis D : disk_is own (Image v FSSIZE fi fb) ((ty0, r) :: l).
Hypothesis Hroot : inode_of v' 1 = set_size ((Z.of_nat (length r) / BSIZE + 1) * BSIZE) (inode_of v 1).
Hypothesis Hother : forall j, 0 <= j < NINODES -> j <> 1 -> inode_of v' j = inode_of v j.
Hypothesis Hbits : v' 45 = mark_used (Z.to_nat fb) 0 zero_block.
Hypothesis Hsame : forall b, ~ (32 <= b < 46) -> v' b = v b.
Hypothesis Hlen : forall b, length (v' b) = Z.to_nat BSIZE.

Lemma finish_store : store own v' fb.
Proof.
  pose proof (di_store _ _ _ D : store own v fb) as S. pose proof (so_free _ _ _ S). split; try apply S; [done|].
  intros b Hb. rewrite Hsame by fs_lia. by apply (so_zero _ _ _ S).
Qed.

Lemma finish_bitmap b : 0 <= b < FSSIZE -> used mksb v' b = (b <? fb).
Proof.
  intros Hb. pose proof (so_free _ _ _ finish_store). unfold used. destruct (BBLOCK_mksb b Hb) as [-> ->].
  rewrite Hbits, mark_used_bit; [|lia|fs_lia|done|lia]. rewrite (proj2 (Z.leb_le 0 b)) by lia. cbn [andb].
  rewrite Z.add_0_l, Z2Nat.id by fs_lia. rewrite bit_used_testbit, get8_zero, Z.testbit_0_l. apply orb_false_r.
Qed.

(** Apart from the size of the root directory the inodes are as before. *)
Lemma finish_inode i : (i < S (length l))%nat -> let x := inode_of v (Z.of_nat i + 1) in let x' := inode_of v' (Z.of_nat i + 1) in
  i_type x' = i_type x /\ i_nlink x' = i_nlink x /\ i_addrs x' = i_addrs x /\ (i <> 0%nat -> i_size x' = i_size x).
Proof.
  intros Hi x x'. unfold x, x'. destruct i as [|i]; [change (Z.of_nat 0 + 1) with 1; by rewrite Hroot|].
  destruct (di_inodes _ _ _ D) as [_ Hn]. cbn [length] in Hn. by rewrite Hother by lia.
Qed.

Lemma finish_filed i ty c : ((ty0, r) :: l) !! i = Some (ty, c) -> filed own v' i (inode_of v' (Z.of_nat i + 1)) (needed (Z.of_nat (length c))) c.
Proof.
  intros Hi. pose proof (lookup_lt_Some _ _ _ Hi) as Hl. destruct (finish_inode i Hl) as (_ & _ & E & _).
  eapply filed_addrs; [exact E|]. eapply filed_agree; [apply (if_filed _ _ _ _ _ (di_file _ _ _ D i ty c Hi))|].
  intros b k Hb. split; [done|]. apply Hsame. apply (so_range _ _ _ finish_store) in Hb. fs_lia.
Qed.

Lemma finish_is_fs : is_fs v' ((ty0, r) :: l).
Proof.
  pose proof finish_store as S. pose proof (di_meta _ _ _ D) as Hm. cbn [im_block] in Hm. pose proof (di_count _ _ _ D : fb = _) as Hc.
  split.
  - rewrite Hsame by lia. by rewrite Hm.
  - intros b Hb. change (sb_logstart mksb) with 2 in *. change (sb_nlog mksb) with 30 in *. rewrite Hsame by lia. rewrite Hm by (change (2 + nlog) with 32; lia).
    by rewrite (proj2 (Z.eqb_neq _ _)) by lia.
  - intros b Hb. rewrite finish_bitmap by done. by rewrite Hc.
  - intros inum Hi. cbn [length] in Hi. rewrite Hother by lia. apply (di_unused _ _ _ D). destruct (di_inodes _ _ _ D) as [-> _]. cbn [length]. lia.
  - intros i ty c Hi x. pose proof (lookup_lt_Some _ _ _ Hi) as Hl. destruct (finish_inode i Hl) as (E1 & E2 & _ & E3).
    destruct (di_file _ _ _ D i ty c Hi) as [I1 I2 I3 _ _]. cbn [im_block] in *. unfold x. rewrite E1, E2. split; [done|]. split; [done|]. case_decide as H0.
    + subst i. injection Hi as <- <-. change (Z.of_nat 0 + 1) with 1. by rewrite Hroot.
    + by rewrite E3.
  - intros i ty c Hi x. pose proof (finish_filed i ty c Hi) as F. pose proof (if_max _ _ _ _ _ (di_file _ _ _ D i ty c Hi)) as Hx. split_and!.
    + eapply filed_wf; [exact S|exact F|exact finish_bitmap].
    + intros k Hk. apply (owned_addr i own v' fb _ _ c k S F Hk).
    + by eapply filed_bytes.
    + intros o Ho Hn. unfold x. rewrite (fd_byte _ _ _ _ _ _ F) by (done || lia). apply nth_overflow. lia.
  - intros i j k k' Hi Hj Hne Hk Hk' H0 E. apply lookup_lt_is_Some_2 in Hi as [[ti ci] Hi]. apply lookup_lt_is_Some_2 in Hj as [[tj cj] Hj].
    pose proof (fd_slot _ _ _ _ _ _ (finish_filed i ti ci Hi) k Hk) as Fi. pose proof (fd_slot _ _ _ _ _ _ (finish_filed j tj cj Hj) k' Hk') as Fj.
    destruct (needed _ k); [|done]. destruct (needed _ k'); [congruence|]. congruence.
Qed.
End finish.
