(* ===== verification/MkfsRoot.v ===== *)
(** * mkfs makes a file system

    The whole of [mkfs]: the image it leaves is a file system that holds the files
    of the command line, with a root directory the kernel can search. *)

From S2P Require Import Prelude Memory KString Kalloc Vm Bytes Sleeplock Bio BioSpec Log LogSpec LogCommit LogRecover LogOps Fs FsFile FsTxn FsExample FsBitmap FsAlloc FsInode FsRead FsBlocks FsBmap FsWrite FsDir FsDirlink Mkfs MkfsSpec MkfsImage.

(** ** The root directory *)

(** Names and inode numbers, in the order of the entries. *)
Definition root_entries (files : list (list Z * option (list (list Z)))) : list (list Z * Z) :=
  [([46], ROOTINO); ([46; 46], ROOTINO)] ++ imap (fun i f => (short f, 2 + Z.of_nat i)) files.

Definition dir_bytes (es : list (list Z * Z)) : list Z := concat (map (fun e => dirent_bytes (fst e) (snd e)) es).

Definition mkfs_tree (files : list (list Z * option (list (list Z)))) : tree :=
  (T_DIR, dir_bytes (root_entries files)) :: map (fun f => (T_FILE, fdata f)) files.

Lemma length_dir_bytes es : Z.of_nat (length (dir_bytes es)) = Z.of_nat (length es) * DIRENT.
Proof.
  induction es as [|e es IH]; [done|]. unfold dir_bytes in *. cbn [map concat length]. rewrite length_app, length_dirent.
  change (Z.to_nat DIRENT) with 16%nat. change DIRENT with 16 in *. lia.
Qed.

Lemma sub_dir_bytes es : forall k name inum, es !! k = Some (name, inum) -> sub (dir_bytes es) (Z.of_nat k * DIRENT) DIRENT = dirent_bytes name inum.
Proof.
  induction es as [|e es IH]; intros k name inum Hk; [done|]. unfold dir_bytes in *. cbn [map concat]. unfold sub in *.
  pose proof (length_dirent (fst e) (snd e)) as Hl. destruct k as [|k].
  - injection Hk as ->. cbn [fst snd] in *. change (Z.to_nat (Z.of_nat 0 * DIRENT)) with 0%nat. cbn [drop]. rewrite <- Hl. apply take_app_length.
  - replace (Z.to_nat (Z.of_nat (S k) * DIRENT)) with (length (dirent_bytes (fst e) (snd e)) + Z.to_nat (Z.of_nat k * DIRENT))%nat
      by (rewrite Hl; change DIRENT with 16; change (Z.to_nat 16) with 16%nat; lia).
    rewrite drop_app_add. by apply IH.
Qed.

Lemma entries_dir_bytes files : forall n, entries n files = dir_bytes (imap (fun i f => (short f, n + Z.of_nat i)) files).
Proof.
  induction files as [|f files IH]; intros n; [done|]. cbn [entries imap]. unfold dir_bytes in *. cbn [map concat fst snd].
  rewrite Z.add_0_r, IH. do 3 f_equal. apply imap_ext. intros i g _. unfold compose. f_equal. lia.
Qed.

Lemma root_bytes files : dir_bytes (root_entries files) = (mk_dirent ROOTINO [46] ++ mk_dirent ROOTINO [46; 46]) ++ entries 2 files.
Proof. rewrite entries_dir_bytes. unfold dir_bytes, root_entries. by rewrite map_app, concat_app. Qed.

(** ** The run *)

Lemma mkfs_run files : forallb accepted files = true -> fits (mkfs_tree files) ->
  exists s, mkfs files new_image = Ret tt s /\ im_len s = FSSIZE /\ is_fs (im_block s) (mkfs_tree files).
Proof.
  intros Ha Hfit. unfold mkfs_tree in *. rewrite root_bytes in *. unfold mkfs, new_image.
  destruct (zero_image_ok (Z.to_nat FSSIZE) 0 (fun _ => zero_block) 0 1 nmeta) as (v0 & E0 & Z0); [done|done|done|].
  assert (Z.max 0 (0 + Z.of_nat (Z.to_nat FSSIZE)) = FSSIZE) as Em by done. rewrite Em in E0. rewrite (kbind_ret _ _ _ _ _ E0). clear E0.
  rewrite (kbind_ret _ _ _ _ _ (wsect_ret 1 sb_block v0 1 nmeta ltac:(done))). pose proof (blank_ok v0 Z0) as D0.
  destruct (ialloc_ok _ _ [] T_DIR D0 ltac:(done) ltac:(done)) as (s1 & E1 & D1). rewrite (kbind_ret _ _ _ _ _ E1). clear E1.
  change (1 + Z.of_nat (length (@nil (Z * list Z)))) with 1 in *. change (negb (1 =? ROOTINO)) with false. cbv iota.
  destruct (iappend_ok _ s1 _ 0 T_DIR [] (mk_dirent 1 [46]) D1 eq_refl) as (own2 & s2 & E2 & D2); [done|done|].
  change (Z.of_nat 0 + 1) with 1 in E2. rewrite (kbind_ret _ _ _ _ _ E2). clear E2.
  destruct (iappend_ok _ s2 _ 0 T_DIR (mk_dirent 1 [46]) (mk_dirent 1 [46; 46]) D2 eq_refl) as (own3 & s3 & E3 & D3); [done|done|].
  change (Z.of_nat 0 + 1) with 1 in E3. rewrite (kbind_ret _ _ _ _ _ E3). clear E3.
  destruct (copy_files_ok files own3 s3 (mk_dirent ROOTINO [46] ++ mk_dirent ROOTINO [46; 46]) [] D3 Ha Hfit) as (own4 & s4 & E4 & D4).
  rewrite (kbind_ret _ _ _ _ _ E4). clear E4. change (2 + Z.of_nat (length (@nil (Z * list Z)))) with 2 in D4. cbn [app] in D4.
  set (r := (mk_dirent ROOTINO [46] ++ _) ++ _) in *. destruct s4 as [v len fi fb]. pose proof (di_len _ _ _ D4) as Hlen. cbn [im_len] in Hlen. subst len.
  pose proof (di_store _ _ _ D4 : store own4 v fb) as S4. pose proof (so_free _ _ _ S4) as Hfb.
  destruct (di_file _ _ _ D4 0 T_DIR r eq_refl) as [_ _ Hsz _ Hmax]. cbn [im_block] in Hsz. change (Z.of_nat 0 + 1) with 1 in Hsz.
  destruct (rinode_ret 1 v fi fb ltac:(done) (so_len _ _ _ S4)) as (din & E5 & Ed & Hdl). rewrite (kbind_ret _ _ _ _ _ E5). clear E5.
  assert (get32 din 8 = Z.of_nat (length r)) as -> by (change (get32 din 8) with (i_size (dino din)); by rewrite Ed). cbv zeta.
  set (n := (Z.of_nat (length r) / BSIZE + 1) * BSIZE).
  assert (0 <= n < 2 ^ 32) as Hn by (unfold n; unfold BSIZE in *; change MAXFILE with 268 in Hmax; Z.div_mod_to_equations; lia).
  rewrite uint32_small by done.
  destruct (winode_ret 1 (put32 din 8 n) v fi fb ltac:(done) (so_len _ _ _ S4)) as (v5 & E6 & I); [by rewrite length_put32|].
  rewrite (kbind_ret _ _ _ _ _ E6), (kbind_ret kget _ _ _ _ eq_refl). clear E6. cbn [freeblock]. rewrite dino_size, Ed in I by done.
  unfold mk_balloc. rewrite (proj2 (Z.ltb_lt fb BPB)) by fs_lia. cbn [negb]. change (sb_bmapstart mksb) with 45.
  rewrite wsect_ret by done. eexists. split; [done|]. split; [done|]. cbn [im_block].
  assert (forall j, 0 <= j < NINODES -> (IBLOCK j mksb =? 45) = false) as Hb.
  { intros j Hj. destruct (IBLOCK_range j Hj). apply Z.eqb_neq. lia. }
  apply (finish_is_fs own4 v _ fi fb T_DIR r _ D4).
  - unfold inode_of. rewrite Hb by done. apply I.
  - intros j Hj Hne. rewrite <- (is_other _ _ _ _ I j Hj Hne). unfold inode_of. by rewrite Hb.
  - done.
  - intros b Hb'. rewrite (proj2 (Z.eqb_neq _ _)) by lia. apply (is_same _ _ _ _ I). lia.
  - intros b. destruct (b =? 45); [by rewrite length_mark_used|apply I].
Qed.

(** ** The root directory, as the kernel reads it *)

Lemma sub_of_fbytes v x n a m : 0 <= a -> 0 <= m -> a + m <= n -> sub (fbytes v x 0 n) a m = fbytes v x a m.
Proof.
  intros Ha Hm Hn. replace n with (a + (m + (n - a - m))) by lia. rewrite fbytes_app, Z.add_0_l, fbytes_app by lia. unfold sub.
  rewrite drop_app_length' by by rewrite length_fbytes. rewrite take_app_length'; [done|]. by rewrite length_fbytes.
Qed.

Lemma length_root files : Z.of_nat (length (dir_bytes (root_entries files))) = (2 + Z.of_nat (length files)) * DIRENT.
Proof. rewrite length_dir_bytes. unfold root_entries. rewrite length_app, length_imap. cbn [length]. lia. Qed.

Section root.
Variables (v : Z -> block) (files : list (list Z * option (list (list Z)))).
Hypothesis F : is_fs v (mkfs_tree files).
Hypothesis Hfit : fits (mkfs_tree files).
Local Abbreviation root := (inode_of v ROOTINO).
Local Abbreviation n := (2 + Z.of_nat (length files)).

Lemma root_dent k name inum : root_entries files !! k = Some (name, inum) -> dent v root (Z.of_nat k) = dirent_bytes name inum.
Proof.
  intros Hk. pose proof (lookup_lt_Some _ _ _ Hk) as Hl. destruct (mi_file _ _ F 0 T_DIR _ eq_refl) as (_ & _ & Hb & _).
  change (Z.of_nat 0 + 1) with ROOTINO in Hb. rewrite <- (sub_dir_bytes _ _ _ _ Hk), <- Hb. unfold dent. symmetry. change DIRENT with 16.
  apply sub_of_fbytes; [lia|lia|]. rewrite length_dir_bytes. change DIRENT with 16. lia.
Qed.

Lemma root_size : i_size root = (n / 64 + 1) * BSIZE.
Proof.
  destruct (mi_inode _ _ F 0 T_DIR _ eq_refl) as (_ & _ & Hs). rewrite decide_True in Hs by done. change (Z.of_nat 0 + 1) with ROOTINO in Hs. rewrite Hs, length_root.
  do 2 f_equal. change DIRENT with 16. unfold BSIZE. change 1024 with (64 * 16). by rewrite Z.div_mul_cancel_r.
Qed.

Lemma root_small : n <= 200.
Proof. destruct Hfit as [H _]. unfold mkfs_tree in H. cbn [length] in H. rewrite length_map in H. unfold NINODES in H. lia. Qed.

(** Which blocks the root directory has. *)
Lemma root_blocks bn : 0 <= bn < MAXFILE -> (baddr v root bn =? 0) = negb (bn * 64 <? n).
Proof.
  intros Hb. destruct (mi_file _ _ F 0 T_DIR _ eq_refl) as (_ & Hs & _). specialize (Hs bn ltac:(lia)). change (Z.of_nat 0 + 1) with ROOTINO in Hs.
  rewrite fslot_block in Hs by done. rewrite Hs. f_equal. unfold needed. rewrite (proj2 (Z.eqb_neq _ _)) by lia. rewrite length_root. change DIRENT with 16. unfold BSIZE.
  destruct (Z.ltb_spec (bn * 1024) (n * 16)), (Z.ltb_spec (bn * 64) n); (done || lia).
Qed.

Lemma root_ok : n mod 64 <> 0 -> dir_ok 0 v root [].
Proof.
  intros Hn. pose proof root_small. pose proof (Z.div_mod n 64 ltac:(done)). pose proof (Z.mod_pos_bound n 64 ltac:(done)).
  destruct (mi_inode _ _ F 0 T_DIR _ eq_refl) as (Ht & _). destruct (mi_file _ _ F 0 T_DIR _ eq_refl) as (W & _).
  change (Z.of_nat 0 + 1) with ROOTINO in Ht, W. split; rewrite ?root_size; try done.
  - change MAXFILE with 268. unfold BSIZE. lia.
  - unfold BSIZE. change DIRENT with 16. replace ((n / 64 + 1) * 1024) with ((n / 64 + 1) * 64 * 16) by lia. by apply Z.mod_mul.
  - intros bn Hbn Hlt. assert (0 <= bn < MAXFILE) as Hb by (change MAXFILE with 268; unfold BSIZE in Hlt; lia).
    eapply wf_block_ok; [exact W|done|]. apply Z.eqb_neq. rewrite root_blocks by done. apply negb_false_iff, Z.ltb_lt. unfold BSIZE in Hlt. lia.
Qed.

Lemma root_free k : n mod 64 <> 0 -> n <= k < i_size root / DIRENT -> de_inum (dent v root k) = 0.
Proof.
  intros Hn. rewrite root_size. pose proof root_small. pose proof (Z.div_mod n 64 ltac:(done)). pose proof (Z.mod_pos_bound n 64 ltac:(done)).
  change DIRENT with 16. unfold BSIZE. replace ((n / 64 + 1) * 1024) with ((n / 64 + 1) * 64 * 16) by lia. rewrite Z.div_mul by done. intros Hk.
  destruct (mi_file _ _ F 0 T_DIR _ eq_refl) as (_ & _ & _ & Hz). change (Z.of_nat 0 + 1) with ROOTINO in Hz. rewrite length_root in Hz. change DIRENT with 16 in Hz.
  assert (forall i, (i < 16)%nat -> fbyte v root (k * 16 + Z.of_nat i) = 0) as Hb.
  { intros i Hi. apply Hz; [fs_lia|]. assert ((k * 16 + Z.of_nat i) / BSIZE = n / 64) as -> by (unfold BSIZE; Z.div_mod_to_equations; lia).
    unfold needed. rewrite (proj2 (Z.eqb_neq _ _)) by fs_lia. apply Z.ltb_lt. fs_lia. }
  unfold de_inum, get16. cbn [get_le]. unfold get8, dent, fbytes. change (Z.to_nat DIRENT) with 16%nat. change DIRENT with 16.
  change (seq 0 16) with (0%nat :: 1%nat :: seq 2 14). cbn [map nth Z.to_nat Z.add Pos.to_nat Pos.iter_op]. by rewrite !Hb by lia.
Qed.
End root.

(** C18: if the files of the command line can be opened, have names without a
    slash of at most DIRSIZ characters, and fit, mkfs returns and its image is a
    file system: superblock and empty log, a bitmap that marks exactly the blocks
    in use, an inode for each file with its type, size and one link, whose
    blocks are well formed for the kernel, no two files sharing any, and hold
    what reading the file delivered, with zeroes after it; the other inodes are free.  The root
    directory has the entries for dot, dot-dot and the files in their order, and
    (unless its entries fill its last block) is a directory the kernel can search,
    with only free entries after them. *)
Theorem mkfs_makes_fs files : forallb accepted files = true -> fits (mkfs_tree files) ->
  exists s, mkfs files new_image = Ret tt s /\ im_len s = FSSIZE /\
    let v := im_block s in let root := inode_of v ROOTINO in let n := 2 + Z.of_nat (length files) in
    is_fs v (mkfs_tree files) /\
    (forall k name inum, root_entries files !! k = Some (name, inum) -> dent v root (Z.of_nat k) = dirent_bytes name inum) /\
    (n mod 64 <> 0 -> dir_ok 0 v root [] /\ forall k, n <= k < i_size root / DIRENT -> de_inum (dent v root k) = 0).
Proof.
  intros Ha Hfit. destruct (mkfs_run files Ha Hfit) as (s & E & Hl & F). exists s. split; [exact E|]. clear E. split; [exact Hl|]. cbv zeta.
  split; [done|]. split; [by apply root_dent|]. intros Hn. split; [by apply (root_ok _ files)|]. intros k. by apply root_free.
Qed.

(** When the entries fill the last block exactly, the size mkfs writes goes one
    block further than the blocks of the directory. *)
Theorem mkfs_root_hole files : forallb accepted files = true -> fits (mkfs_tree files) -> (2 + Z.of_nat (length files)) mod 64 = 0 ->
  exists s, mkfs files new_image = Ret tt s /\
    let v := im_block s in let root := inode_of v ROOTINO in let bn := (2 + Z.of_nat (length files)) / 64 in
    bn * BSIZE < i_size root /\ baddr v root bn = 0.
Proof.
  intros Ha Hfit Hm. destruct (mkfs_run files Ha Hfit) as (s & E & _ & F). exists s. split; [exact E|]. clear E. cbv zeta.
  pose proof (root_small files Hfit). pose proof (Z.div_mod (2 + Z.of_nat (length files)) 64 ltac:(done)).
  rewrite (root_size _ files) by done. split; [unfold BSIZE; lia|]. apply Z.eqb_eq. rewrite (root_blocks _ files) by (done || fs_lia).
  apply negb_true_iff, Z.ltb_ge. lia.
Qed.

(** ** An instance *)

Definition files0 : list (list Z * option (list (list Z))) :=
  [([117; 115; 101; 114; 47; 95; 99; 97; 116], Some [[1; 2; 3]; [4]]); ([114; 101; 97; 100; 109; 101], Some [])].

Lemma mkfs_makes_fs_witness : exists s, mkfs files0 new_image = Ret tt s /\
  dent (im_block s) (inode_of (im_block s) ROOTINO) 2 = dirent_bytes [99; 97; 116] 2 /\
  fbytes (im_block s) (inode_of (im_block s) 2) 0 4 = [1; 2; 3; 4].
Proof.
  destruct (mkfs_makes_fs files0) as (s & E & _ & F & Hd & _).
  - reflexivity.
  - split; [reflexivity|]. split; [|vm_compute; discriminate]. intros f Hf. repeat (apply elem_of_cons in Hf as [->|Hf]; [vm_compute; discriminate|]).
    by apply elem_of_nil in Hf.
  - exists s. split; [exact E|]. clear E. split; [apply (Hd 2%nat); reflexivity|]. destruct (mi_file _ _ F 1 T_FILE _ eq_refl) as (_ & _ & Hb & _). exact Hb.
Defined.
