(* ===== verification/Spinlock.v ===== *)
(** * Spin locks (kernel/spinlock.c)

    The lock record, the per-CPU interrupt nesting of [push_off]/[pop_off],
    and [acquire]/[release] executed by several CPUs at once.  One step of
    the machine is one shared-memory access of one CPU, so the two loads of
    [holding] and the atomic swap are separate steps and any other CPU may
    run between them.  The invariant gives mutual exclusion, that
    [holding] answers correctly despite the race, that [release] never
    panics for a lock its CPU holds, and that interrupts stay off on a CPU
    from the first [push_off] to the last [pop_off]. *)

From S2P Require Import Prelude.

(** struct spinlock, without the debugging name. *)
Record spinlock := Spinlock { locked : bool; lk_cpu : option nat }.

(** The fields of struct cpu the locks use, and the SIE bit of sstatus. *)
Record cpu := Cpu { noff : Z; intena : bool; intr_get : bool }.

Definition initlock : spinlock := Spinlock false None.

Definition push_off (c : cpu) : cpu :=
  let old := intr_get c in
  Cpu (noff c + 1) (if noff c =? 0 then old else intena c) false.

Definition pop_off : K cpu unit :=
  c <- kget ;;
  if intr_get c then panic "pop_off - interruptible"
  else if noff c <? 1 then panic "pop_off"
  else kput (Cpu (noff c - 1) (intena c) ((noff c - 1 =? 0) && intena c)).

(** What [holding] computes from the two fields it reads. *)
Definition holding (lk : spinlock) (me : nat) : bool :=
  locked lk && bool_decide (lk_cpu lk = Some me).

(** Where a CPU is: in code that calls no lock function, or between two
    memory accesses of [acquire] or [release] on one lock. *)
Inductive pc :=
| Run
| AcqHold1 (l : nat)   (** acquire, push_off done: about to load lk->locked *)
| AcqHold2 (l : nat)   (** holding saw locked: about to load lk->cpu *)
| AcqSpin (l : nat)    (** about to execute the atomic swap *)
| AcqCpu (l : nat)     (** swap returned 0: about to store lk->cpu *)
| RelHold1 (l : nat)   (** release: about to load lk->locked *)
| RelHold2 (l : nat)   (** about to load lk->cpu *)
| RelCpu (l : nat)     (** holding was true: about to clear lk->cpu *)
| RelSwap (l : nat)    (** about to clear lk->locked *)
| RelPop               (** lock free again: about to call pop_off *)
| Panicked.

Record machine := Machine {
  m_lock : nat -> spinlock;
  m_cpu : nat -> cpu;
  m_pc : nat -> pc;
  m_held : nat -> list nat;  (** locks acquired and not yet released *)
}.

Definition upd {A} (f : nat -> A) (i : nat) (a : A) : nat -> A :=
  fun j => if decide (j = i) then a else f j.

Definition set_pc (m : machine) c p := Machine (m_lock m) (m_cpu m) (upd (m_pc m) c p) (m_held m).
Definition set_lock (m : machine) l k := Machine (upd (m_lock m) l k) (m_cpu m) (m_pc m) (m_held m).
Definition set_cpu (m : machine) c x := Machine (m_lock m) (upd (m_cpu m) c x) (m_pc m) (m_held m).
Definition set_held (m : machine) c h := Machine (m_lock m) (m_cpu m) (m_pc m) (upd (m_held m) c h).

(** One access of CPU [c].  [Run] steps: call acquire, call release, and
    turn interrupts on or off outside of every critical section. *)
Inductive step (c : nat) (m : machine) : machine -> Prop :=
| step_intr b : m_pc m c = Run -> noff (m_cpu m c) = 0 ->
    step c m (set_pc (set_cpu m c (Cpu 0 (intena (m_cpu m c)) b)) c Run)
| step_acquire l : m_pc m c = Run ->
    step c m (set_pc (set_cpu m c (push_off (m_cpu m c))) c (AcqHold1 l))
| step_acq_hold1 l : m_pc m c = AcqHold1 l ->
    step c m (set_pc m c (if locked (m_lock m l) then AcqHold2 l else AcqSpin l))
| step_acq_hold2 l : m_pc m c = AcqHold2 l ->
    step c m (set_pc m c (if bool_decide (lk_cpu (m_lock m l) = Some c) then Panicked else AcqSpin l))
| step_acq_swap l : m_pc m c = AcqSpin l ->
    step c m (set_pc (set_lock m l (Spinlock true (lk_cpu (m_lock m l)))) c
                (if locked (m_lock m l) then AcqSpin l else AcqCpu l))
| step_acq_cpu l : m_pc m c = AcqCpu l ->
    step c m (set_pc (set_held (set_lock m l (Spinlock (locked (m_lock m l)) (Some c))) c (l :: m_held m c)) c Run)
| step_release l : m_pc m c = Run ->
    step c m (set_pc m c (RelHold1 l))
| step_rel_hold1 l : m_pc m c = RelHold1 l ->
    step c m (set_pc m c (if locked (m_lock m l) then RelHold2 l else Panicked))
| step_rel_hold2 l : m_pc m c = RelHold2 l ->
    step c m (set_pc m c (if bool_decide (lk_cpu (m_lock m l) = Some c) then RelCpu l else Panicked))
| step_rel_cpu l : m_pc m c = RelCpu l ->
    step c m (set_pc (set_held (set_lock m l (Spinlock (locked (m_lock m l)) None)) c
                        (List.remove Nat.eq_dec l (m_held m c))) c (RelSwap l))
| step_rel_swap l : m_pc m c = RelSwap l ->
    step c m (set_pc (set_lock m l (Spinlock false (lk_cpu (m_lock m l)))) c RelPop)
| step_rel_pop : m_pc m c = RelPop ->
    step c m (match pop_off (m_cpu m c) with
              | Ret _ x => set_pc (set_cpu m c x) c Run
              | _ => set_pc m c Panicked
              end).

(** The machine after boot: every lock initialised, no CPU in lock code,
    interrupts in any state. *)
Definition boot (sie : nat -> bool) : machine :=
  Machine (fun _ => initlock) (fun c => Cpu 0 false (sie c)) (fun _ => Run) (fun _ => []).

Inductive reach (m0 : machine) : machine -> Prop :=
| reach_refl : reach m0 m0
| reach_step m m' c : reach m0 m -> step c m m' -> reach m0 m'.

(** CPU [c] owns lock [l]: it won the swap and has not yet freed it. *)
Definition owner (m : machine) (l c : nat) : Prop :=
  l ∈ m_held m c \/ m_pc m c = AcqCpu l \/ m_pc m c = RelSwap l.

(** How many [push_off]s of [c] are not yet undone. *)
Definition in_flight (p : pc) : nat :=
  match p with
  | AcqHold1 _ | AcqHold2 _ | AcqSpin _ | AcqCpu _ | RelSwap _ | RelPop => 1
  | _ => 0
  end.

Record inv (m : machine) : Prop := {
  inv_one : forall l c c', owner m l c -> owner m l c' -> c = c';
  inv_locked : forall l c, owner m l c -> locked (m_lock m l) = true;
  inv_cpu : forall l c, lk_cpu (m_lock m l) = Some c <-> l ∈ m_held m c;
  inv_nodup : forall c, NoDup (m_held m c);
  inv_acq : forall c l, m_pc m c = AcqCpu l -> l ∉ m_held m c;
  inv_swap : forall c l, m_pc m c = RelSwap l -> l ∉ m_held m c;
  inv_rel : forall c l, m_pc m c = RelCpu l -> l ∈ m_held m c;
  inv_noff : forall c, m_pc m c <> Panicked ->
    noff (m_cpu m c) = Z.of_nat (length (m_held m c) + in_flight (m_pc m c));
  inv_off : forall c, m_pc m c <> Panicked -> 0 < noff (m_cpu m c) -> intr_get (m_cpu m c) = false;
}.

(** ** The invariant *)

Ltac upd_solve := unfold owner, set_pc, set_lock, set_cpu, set_held, upd in *; simpl in *; repeat (case_decide; simplify_eq/=); try done.

Lemma inv_boot sie : inv (boot sie).
Proof.
  assert (forall l c, ~ owner (boot sie) l c) as Ho.
  { intros l c [H|[H|H]]; [by apply elem_of_nil in H|done|done]. }
  split; try (by intros ? ? ? H; destruct (Ho _ _ H)); try (by intros ? ? H; destruct (Ho _ _ H)); try done.
  - intros l c. split; [done|]. intros H. by apply elem_of_nil in H.
  - intros. constructor.
Qed.

(** What a step of CPU [c] that touches at most lock [l] has to show. *)
Record local_ok (m m' : machine) (c l : nat) : Prop := {
  lo_pc : forall c', c' <> c -> m_pc m' c' = m_pc m c';
  lo_cpu : forall c', c' <> c -> m_cpu m' c' = m_cpu m c';
  lo_held : forall c', c' <> c -> m_held m' c' = m_held m c';
  lo_lock : forall l', l' <> l -> m_lock m' l' = m_lock m l';
  lo_gain : forall l', l' <> l -> owner m' l' c -> owner m l' c;
  lo_own : owner m' l c -> locked (m_lock m' l) = true /\ forall c', c' <> c -> ~ owner m l c';
  lo_others : forall c', c' <> c -> owner m l c' -> locked (m_lock m' l) = true;
  lo_lkcpu : forall c', lk_cpu (m_lock m' l) = Some c' <-> l ∈ m_held m' c';
  lo_in : forall l', l' <> l -> l' ∈ m_held m' c <-> l' ∈ m_held m c;
  lo_nodup : NoDup (m_held m' c);
  lo_acq : forall l', m_pc m' c = AcqCpu l' -> l' ∉ m_held m' c;
  lo_swap : forall l', m_pc m' c = RelSwap l' -> l' ∉ m_held m' c;
  lo_rel : forall l', m_pc m' c = RelCpu l' -> l' ∈ m_held m' c;
  lo_noff : m_pc m' c <> Panicked ->
    noff (m_cpu m' c) = Z.of_nat (length (m_held m' c) + in_flight (m_pc m' c));
  lo_off : m_pc m' c <> Panicked -> 0 < noff (m_cpu m' c) -> intr_get (m_cpu m' c) = false;
}.

Lemma owner_other m m' c l c' l' : local_ok m m' c l -> c' <> c -> owner m' l' c' <-> owner m l' c'.
Proof.
  intros L Hc. unfold owner. by rewrite (lo_pc _ _ _ _ L c' Hc), (lo_held _ _ _ _ L c' Hc).
Qed.

Lemma inv_local m m' c l : inv m -> local_ok m m' c l -> inv m'.
Proof.
  intros [I1 I2 I3 I4 I5 I6 I7 I8 I9] L.
  assert (forall l' c', c' <> c -> owner m' l' c -> ~ owner m' l' c') as Hone.
  { intros l' c' Hc O1 O2. apply (owner_other _ _ _ _ _ _ L Hc) in O2.
    destruct (decide (l' = l)) as [->|Hl]; [by apply (proj2 (lo_own _ _ _ _ L O1) c' Hc)|].
    apply Hc. by apply (I1 l'); [|apply (lo_gain _ _ _ _ L)]. }
  split.
  - intros l' c1 c2 O1 O2. destruct (decide (c1 = c)) as [->|], (decide (c2 = c)) as [->|]; try done.
    + by destruct (Hone l' c2).
    + by destruct (Hone l' c1).
    + rewrite (owner_other _ _ _ _ _ _ L) in O1 by done. rewrite (owner_other _ _ _ _ _ _ L) in O2 by done. eauto.
  - intros l' c' O. destruct (decide (c' = c)) as [->|Hc], (decide (l' = l)) as [->|Hl].
    + apply (lo_own _ _ _ _ L O).
    + rewrite (lo_lock _ _ _ _ L l' Hl). apply (I2 l' c), (lo_gain _ _ _ _ L); done.
    + apply (lo_others _ _ _ _ L c' Hc). by rewrite <- (owner_other _ _ _ _ _ _ L Hc).
    + rewrite (lo_lock _ _ _ _ L l' Hl). apply (I2 l' c'). by rewrite <- (owner_other _ _ _ _ _ _ L Hc).
  - intros l' c'. destruct (decide (l' = l)) as [->|Hl]; [apply L|]. rewrite (lo_lock _ _ _ _ L l' Hl), I3.
    destruct (decide (c' = c)) as [->|Hc]; [by rewrite (lo_in _ _ _ _ L)|by rewrite (lo_held _ _ _ _ L)].
  - intros c'. destruct (decide (c' = c)) as [->|Hc]; [apply L|]. by rewrite (lo_held _ _ _ _ L).
  - intros c'. destruct (decide (c' = c)) as [->|Hc]; [apply L|].
    rewrite (lo_held _ _ _ _ L), (lo_pc _ _ _ _ L) by done. eauto.
  - intros c'. destruct (decide (c' = c)) as [->|Hc]; [apply L|].
    rewrite (lo_held _ _ _ _ L), (lo_pc _ _ _ _ L) by done. eauto.
  - intros c'. destruct (decide (c' = c)) as [->|Hc]; [apply L|].
    rewrite (lo_held _ _ _ _ L), (lo_pc _ _ _ _ L) by done. eauto.
  - intros c'. destruct (decide (c' = c)) as [->|Hc]; [apply L|].
    rewrite (lo_held _ _ _ _ L), (lo_pc _ _ _ _ L), (lo_cpu _ _ _ _ L) by done. eauto.
  - intros c'. destruct (decide (c' = c)) as [->|Hc]; [apply L|].
    rewrite (lo_pc _ _ _ _ L), (lo_cpu _ _ _ _ L) by done. eauto.
Qed.

Lemma upd_same {A} (f : nat -> A) i a : upd f i a i = a.
Proof. unfold upd. by rewrite decide_True. Qed.
Lemma upd_other {A} (f : nat -> A) i a j : j <> i -> upd f i a j = f j.
Proof. intros. unfold upd. by rewrite decide_False. Qed.

(** [local_tac] simplifies the updated fields of one obligation. *)
Ltac local_tac :=
  intros; unfold owner in *; cbn [set_pc set_lock set_cpu set_held m_pc m_lock m_cpu m_held] in *;
  repeat first [rewrite upd_same in * | rewrite upd_other in * by done].

Lemma remove_len (l : nat) (h : list nat) :
  NoDup h -> l ∈ h -> length h = S (length (List.remove Nat.eq_dec l h)).
Proof.
  induction 1 as [|x h Hx Hh IH]; intros Hin; [by apply elem_of_nil in Hin|].
  simpl. destruct (Nat.eq_dec l x) as [->|Hne].
  - rewrite List.notin_remove; [done|]. by rewrite <- list_elem_of_In.
  - apply elem_of_cons in Hin as [?|Hin]; [done|]. simpl. f_equal. by apply IH.
Qed.

Lemma remove_elem (l x : nat) (h : list nat) : x ∈ List.remove Nat.eq_dec l h <-> x ∈ h /\ x <> l.
Proof.
  rewrite !list_elem_of_In. split; [apply List.in_remove|]. intros [? ?]. by apply List.in_in_remove.
Qed.

Lemma remove_nodup (l : nat) (h : list nat) : NoDup h -> NoDup (List.remove Nat.eq_dec l h).
Proof.
  induction 1 as [|x h Hx Hh IH]; simpl; [constructor|]. destruct (Nat.eq_dec l x); [done|].
  constructor; [|done]. rewrite remove_elem. tauto.
Qed.

(** A step that only moves [c] between places where it owns no lock in
    flight and counts the same [push_off]s keeps the invariant. *)
Lemma inv_move m c p :
  inv m -> (forall l, p <> AcqCpu l /\ p <> RelSwap l) ->
  (forall l, p = RelCpu l -> l ∈ m_held m c) ->
  (p <> Panicked -> m_pc m c <> Panicked /\ in_flight p = in_flight (m_pc m c)) ->
  inv (set_pc m c p).
Proof.
  intros I Hp Hr Hf. apply (inv_local m _ c 0 I). destruct I as [I1 I2 I3 I4 I5 I6 I7 I8 I9].
  split; local_tac; try done; try (by destruct (Hp l')); try (by destruct (Hp 0%nat)); eauto.
  - destruct H0 as [?|[?|?]]; [by left| |]; by destruct (Hp l').
  - destruct (Hp 0%nat). destruct H as [?|[?|?]]; [|done|done]. split; [apply (I2 _ c); by left|].
    intros c' Hc Ho. apply Hc. apply (I1 0%nat); [done|by left].
  - by destruct (Hf H) as [? ->]; apply I8.
  - destruct (Hf H) as [? _]. by apply I9.
Qed.

(** A step that changes only the interrupt state of [c] and its place. *)
Lemma inv_cpu_step m c x p :
  inv m -> (forall l, p <> AcqCpu l /\ p <> RelSwap l /\ p <> RelCpu l) ->
  (p <> Panicked -> noff x = Z.of_nat (length (m_held m c) + in_flight p)) ->
  (p <> Panicked -> 0 < noff x -> intr_get x = false) ->
  inv (set_pc (set_cpu m c x) c p).
Proof.
  intros I Hp Hn Hi. apply (inv_local m _ c 0 I). destruct I as [I1 I2 I3 I4 I5 I6 I7 I8 I9].
  split; local_tac; try done; try (by destruct (Hp l') as (? & ? & ?)); eauto.
  - destruct H0 as [?|[?|?]]; [by left| |]; by destruct (Hp l') as (? & ? & ?).
  - destruct (Hp 0%nat) as (? & ? & ?). destruct H as [?|[?|?]]; [|done|done].
    split; [apply (I2 _ c); by left|].
    intros c' Hc Ho. apply Hc. apply (I1 0%nat); [done|by left].
Qed.

Lemma inv_acq_swap m c l :
  inv m -> m_pc m c = AcqSpin l ->
  inv (set_pc (set_lock m l (Spinlock true (lk_cpu (m_lock m l)))) c
         (if locked (m_lock m l) then AcqSpin l else AcqCpu l)).
Proof.
  intros I Hpc. apply (inv_local m _ c l I). destruct I as [I1 I2 I3 I4 I5 I6 I7 I8 I9].
  assert (locked (m_lock m l) = false -> forall c', ~ owner m l c') as Hfree.
  { intros E c' Ho. rewrite (I2 l c' Ho) in E. done. }
  specialize (I8 c). specialize (I9 c). rewrite Hpc in *.
  destruct (locked (m_lock m l)) eqn:E; split; local_tac; simplify_eq/=; try done; eauto.
  - destruct H0 as [?|[?|?]]; [by left|done|done].
  - destruct H as [?|[?|?]]; [|done|done]. split; [done|]. intros c' Hc Ho. apply Hc, (I1 l); [done|by left].
  - destruct H0 as [?|[?|?]]; [by left|congruence|done].
  - intros Hin. apply (Hfree eq_refl c). by left.
Qed.

Lemma inv_acq_cpu m c l :
  inv m -> m_pc m c = AcqCpu l ->
  inv (set_pc (set_held (set_lock m l (Spinlock (locked (m_lock m l)) (Some c))) c (l :: m_held m c)) c Run).
Proof.
  intros I Hpc. apply (inv_local m _ c l I). destruct I as [I1 I2 I3 I4 I5 I6 I7 I8 I9].
  assert (owner m l c) as Ho by (right; by left).
  split; local_tac; simplify_eq/=; try done.
  - rewrite elem_of_cons in H0. destruct H0 as [[?|?]|[?|?]]; [done|by left|done|done].
  - split; [by apply (I2 l c)|]. intros c' Hc Ho'. apply Hc. by apply (I1 l).
  - by apply (I2 l c).
  - destruct (decide (c' = c)) as [->|Hc]; local_tac; [by rewrite elem_of_cons; tauto|]. split; [congruence|].
    intros Hin. destruct Hc. apply (I1 l); [by left|done].
  - rewrite elem_of_cons. tauto.
  - constructor; eauto.
  - rewrite (I8 c), Hpc by (by rewrite Hpc). simpl. lia.
  - apply (I9 c); [by rewrite Hpc|done].
Qed.

Lemma inv_rel_cpu m c l :
  inv m -> m_pc m c = RelCpu l ->
  inv (set_pc (set_held (set_lock m l (Spinlock (locked (m_lock m l)) None)) c
                (List.remove Nat.eq_dec l (m_held m c))) c (RelSwap l)).
Proof.
  intros I Hpc. apply (inv_local m _ c l I). destruct I as [I1 I2 I3 I4 I5 I6 I7 I8 I9].
  assert (l ∈ m_held m c) as Hl by eauto. assert (owner m l c) as Ho by by left.
  split; local_tac; simplify_eq/=; try done.
  - rewrite remove_elem in H0. destruct H0 as [[? ?]|[?|?]]; [by left|done|congruence].
  - split; [by apply (I2 l c)|]. intros c' Hc Ho'. apply Hc. by apply (I1 l).
  - by apply (I2 l c).
  - split; [done|]. intros Hin. destruct (decide (c' = c)) as [->|Hc]; local_tac;
      [rewrite remove_elem in Hin; tauto|]. destruct Hc. apply (I1 l); [by left|done].
  - rewrite remove_elem. tauto.
  - by apply remove_nodup.
  - rewrite remove_elem. tauto.
  - rewrite (I8 c), Hpc by (by rewrite Hpc). rewrite (remove_len l (m_held m c)) by eauto. simpl. lia.
  - apply (I9 c); [by rewrite Hpc|done].
Qed.

Lemma inv_rel_swap m c l :
  inv m -> m_pc m c = RelSwap l ->
  inv (set_pc (set_lock m l (Spinlock false (lk_cpu (m_lock m l)))) c RelPop).
Proof.
  intros I Hpc. apply (inv_local m _ c l I). destruct I as [I1 I2 I3 I4 I5 I6 I7 I8 I9].
  assert (owner m l c) as Ho by (right; by right).
  split; local_tac; simplify_eq/=; try done; eauto.
  - destruct H0 as [?|[?|?]]; [by left|done|done].
  - destruct H as [?|[?|?]]; [|done|done]. by destruct (I6 c l).
  - by rewrite (I8 c), Hpc by (by rewrite Hpc).
  - apply (I9 c); [by rewrite Hpc|done].
Qed.

Lemma inv_step m m' c : inv m -> step c m m' -> inv m'.
Proof.
  intros I S. pose proof I as [I1 I2 I3 I4 I5 I6 I7 I8 I9]. specialize (I8 c). specialize (I9 c).
  inversion S as [b Hpc H0|l Hpc|l Hpc|l Hpc|l Hpc|l Hpc|l Hpc|l Hpc|l Hpc|l Hpc|l Hpc|Hpc]; subst;
    rewrite Hpc in *; simpl in *.
  - apply inv_cpu_step; try done. simpl. intros _. rewrite I8 in H0 by done. lia.
  - apply inv_cpu_step; try done. simpl. intros _. rewrite I8 by done. lia.
  - apply inv_move; try done; destruct (locked (m_lock m l)); try done; by rewrite Hpc.
  - apply inv_move; try done; case_bool_decide; try done; by rewrite Hpc.
  - by apply inv_acq_swap.
  - by apply inv_acq_cpu.
  - apply inv_move; try done. by rewrite Hpc.
  - apply inv_move; try done; destruct (locked (m_lock m l)); try done; by rewrite Hpc.
  - apply inv_move; try done; case_bool_decide; try done; [|by rewrite Hpc].
    intros ? [= <-]. by apply I3.
  - by apply inv_rel_cpu.
  - by apply inv_rel_swap.
  - assert (noff (m_cpu m c) = Z.of_nat (length (m_held m c)) + 1) as Hn by (rewrite I8; [lia|done]).
    unfold pop_off, kbind, kget. rewrite I9 by (done || lia). rewrite (proj2 (Z.ltb_ge _ _)) by lia.
    apply inv_cpu_step; try done; simpl; intros _; [lia|]. intros H.
    by rewrite (proj2 (Z.eqb_neq _ _)) by lia.
Qed.

Lemma inv_reach sie m : reach (boot sie) m -> inv m.
Proof. induction 1 as [|m m' c _ IH S]; [apply inv_boot|by eapply inv_step]. Qed.

(** ** What the locks guarantee *)

(** C2: In every state any number of CPUs can reach by calling [acquire] and
    [release] with arbitrary interleaving of their memory accesses, a lock
    has at most one owner, [holding] is true exactly on the CPU that has
    acquired the lock and not yet released it, and that CPU has interrupts
    off. *)
Theorem spinlock_mutual_exclusion sie m : reach (boot sie) m ->
  (forall l c c', owner m l c -> owner m l c' -> c = c') /\
  (forall l c, holding (m_lock m l) c = true <-> l ∈ m_held m c) /\
  (forall l c, m_pc m c <> Panicked -> l ∈ m_held m c -> intr_get (m_cpu m c) = false).
Proof.
  intros R. apply inv_reach in R as [I1 I2 I3 I4 I5 I6 I7 I8 I9]. split; [done|]. split.
  - intros l c. unfold holding. rewrite andb_true_iff, bool_decide_eq_true, I3. split; [tauto|].
    intros H. split; [apply (I2 l c); by left|done].
  - intros l c Hp Hl. apply I9; [done|]. rewrite I8 by done.
    destruct (m_held m c); [by apply elem_of_nil in Hl|simpl; lia].
Qed.

(** CPU 0 runs [acquire] on lock 7 to the end. *)
Lemma reach_acquire_0 :
  reach (boot (fun _ => true))
    (set_pc (set_held (set_lock
       (set_pc (set_lock (set_pc (set_pc (set_cpu (boot (fun _ => true)) 0
          (push_off (Cpu 0 false true))) 0 (AcqHold1 7)) 0 (AcqSpin 7)) 7 (Spinlock true None)) 0 (AcqCpu 7))
       7 (Spinlock true (Some 0%nat))) 0 [7%nat]) 0 Run).
Proof.
  eapply reach_step; [|apply step_acq_cpu with (l := 7%nat); done].
  eapply reach_step; [|apply step_acq_swap with (l := 7%nat); done].
  eapply reach_step; [|apply step_acq_hold1 with (l := 7%nat); done].
  eapply reach_step; [|apply step_acquire with (l := 7%nat); done].
  apply reach_refl.
Qed.

Lemma spinlock_mutual_exclusion_witness : exists m,
  reach (boot (fun _ => true)) m /\ m_held m 0%nat = [7%nat] /\ holding (m_lock m 7%nat) 0%nat = true /\
  intr_get (m_cpu m 0%nat) = false.
Proof.
  eexists. split; [exact reach_acquire_0|].
  destruct (spinlock_mutual_exclusion _ _ reach_acquire_0) as (_ & H1 & H2).
  split; [reflexivity|]. split; [apply H1; left|].
  apply (H2 7%nat 0%nat); [discriminate|left].
Defined.

(** [acquire] panics only when its own CPU already holds the lock and
    [release] only when its CPU does not hold it, whatever the other CPUs
    do in between; the [pop_off] of a [release] never panics. *)
Theorem spinlock_panics sie m m' c :
  reach (boot sie) m -> step c m m' -> m_pc m c <> Panicked -> m_pc m' c = Panicked ->
  exists l, (m_pc m c = AcqHold2 l /\ l ∈ m_held m c) \/
    ((m_pc m c = RelHold1 l \/ m_pc m c = RelHold2 l) /\ l ∉ m_held m c).
Proof.
  intros R S Hn Hp. apply inv_reach in R as [I1 I2 I3 I4 I5 I6 I7 I8 I9].
  specialize (I8 c Hn). specialize (I9 c Hn). revert Hp.
  inversion S as [b Hpc H0|l Hpc|l Hpc|l Hpc|l Hpc|l Hpc|l Hpc|l Hpc|l Hpc|l Hpc|l Hpc|Hpc]; subst;
    rewrite Hpc in *; simpl in *; rewrite ?upd_same; try done.
  - by destruct (locked _).
  - case_bool_decide as E; [|done]. intros _. exists l. left. split; [done|]. by apply I3.
  - by destruct (locked _).
  - destruct (locked _) eqn:E; [done|]. intros _. exists l. right. split; [by left|]. intros Hin.
    rewrite (I2 l c) in E; [done|by left].
  - case_bool_decide as E; [done|]. intros _. exists l. right. split; [by right|]. by rewrite <- I3.
  - unfold pop_off, kbind, kget. rewrite I9 by lia. rewrite (proj2 (Z.ltb_ge _ _)) by lia.
    simpl. by rewrite upd_same.
Qed.

(** Releasing lock 7 on a CPU that does not hold it panics. *)
Lemma spinlock_panics_witness :
  let m := set_pc (boot (fun _ => true)) 0 (RelHold1 7) in
  exists l, (m_pc m 0%nat = AcqHold2 l /\ l ∈ m_held m 0%nat) \/
    ((m_pc m 0%nat = RelHold1 l \/ m_pc m 0%nat = RelHold2 l) /\ l ∉ m_held m 0%nat).
Proof.
  intros m. apply (spinlock_panics (fun _ => true) m (set_pc m 0 Panicked) 0).
  - eapply reach_step; [apply reach_refl|]. by apply step_release.
  - apply (step_rel_hold1 0 m 7). reflexivity.
  - discriminate.
  - reflexivity.
Defined.

(** ** Nesting of push_off and pop_off *)

(** A sequence of [push_off] ([true]) and [pop_off] ([false]) calls. *)
Fixpoint run_nest (ops : list bool) : K cpu unit :=
  match ops with
  | [] => kret tt
  | true :: ops' => kmod push_off ;;; run_nest ops'
  | false :: ops' => pop_off ;;; run_nest ops'
  end.

(** [nested d ops]: started at depth [d] the calls never go below 0 and
    end at depth 0. *)
Fixpoint nested (d : nat) (ops : list bool) : bool :=
  match ops with
  | [] => Nat.eqb d 0
  | true :: ops' => nested (S d) ops'
  | false :: ops' => match d with O => false | S d' => nested d' ops' end
  end.

(** From depth [d + 1] the calls come back to depth 0 at some point, with
    interrupts as [intena] recorded them. *)
Lemma run_nest_inner ops : forall d c,
  nested (S d) ops = true -> noff c = Z.of_nat (S d) -> intr_get c = false ->
  exists ops', (length ops' < length ops)%nat /\ nested 0 ops' = true /\
    run_nest ops c = run_nest ops' (Cpu 0 (intena c) (intena c)).
Proof.
  induction ops as [|[|] ops IH]; intros d c Hn Hd Hi; simpl in Hn; [done| |].
  - destruct (IH (S d) (push_off c)) as (ops' & H1 & H2 & H3); try done; [simpl; lia|].
    exists ops'. split; [simpl; lia|]. split; [done|].
    change (run_nest (true :: ops) c) with (run_nest ops (push_off c)).
    rewrite H3. simpl. by rewrite (proj2 (Z.eqb_neq _ _)) by lia.
  - simpl run_nest. unfold kbind at 1, pop_off, kbind, kget, kput. rewrite Hi.
    rewrite (proj2 (Z.ltb_ge _ _)) by lia. destruct d as [|d].
    + exists ops. split; [simpl; lia|]. split; [done|]. rewrite Hd.
      replace (Z.of_nat 1 - 1) with 0 by lia. by rewrite Z.eqb_refl.
    + destruct (IH d (Cpu (noff c - 1) (intena c) ((noff c - 1 =? 0) && intena c))) as (ops' & H1 & H2 & H3);
        try done; [simpl; lia|simpl; by rewrite (proj2 (Z.eqb_neq _ _)) by lia|].
      exists ops'. split; [simpl; lia|]. split; [done|]. rewrite H3. done.
Qed.

(** Calls of [push_off] and [pop_off] that nest properly return without
    a panic and leave interrupts as they were before the first of them,
    enabled or disabled. *)
Theorem push_pop_restore ops c : nested 0 ops = true -> noff c = 0 ->
  exists e, run_nest ops c = Ret tt (Cpu 0 e (intr_get c)).
Proof.
  remember (length ops) as n eqn:Hlen. revert ops Hlen c.
  induction (lt_wf n) as [n _ IH]; intros ops -> c Hn Hc.
  destruct ops as [|[|] ops]; [|simpl in Hn|done].
  - exists (intena c). destruct c; simpl in *; by subst.
  - destruct (run_nest_inner ops 0 (push_off c)) as (ops' & H1 & H2 & H3); try done; [simpl; lia|].
    change (run_nest (true :: ops) c) with (run_nest ops (push_off c)).
    rewrite H3. simpl. rewrite Hc. destruct (IH (length ops') ltac:(simpl; lia) ops' eq_refl
      (Cpu 0 (intr_get c) (intr_get c)) H2 eq_refl) as [e' He']. by exists e'.
Qed.

Lemma push_pop_restore_witness : exists e,
  run_nest [true; true; false; false; true; false] (Cpu 0 false true) = Ret tt (Cpu 0 e true).
Proof. apply (push_pop_restore [true; true; false; false; true; false] (Cpu 0 false true)); reflexivity. Defined.
