(* ===== verification/SleepWakeup.v ===== *)
(** * Sleep, wakeup and the scheduler

    The interleavings behind [sleep] and [wakeup] of kernel/proc.c: any number
    of CPUs run [scheduler] over the process table, and the processes wait
    for a condition with [sleep] in a loop, or make it true and call
    [wakeup], both holding the lock [lk] that protects the condition.  A step
    is one statement of the code; acquiring a spin lock is one step, as
    Spinlock.v justifies.  No wakeup is lost, and no process runs on two CPUs
    at a time. *)

From S2P Require Import Prelude.

Inductive pstate := PRunnable | PRunning | PSleeping.

(** Where a process is.  Processes that wait run
    [acquire(lk); while(!cond) sleep(chan, lk); cond = 0; release(lk)], the
    others [acquire(lk); cond = 1; wakeup(chan); release(lk)]. *)
Inductive pcs :=
| Idle
| CAcq                  (** acquire(lk) *)
| CTest                 (** while(!cond) *)
| CRel                  (** release(lk) *)
| S1                    (** sleep: acquire(&p->lock) *)
| S2                    (** release(lk) *)
| S3                    (** p->chan = chan *)
| S4                    (** p->state = SLEEPING *)
| S5                    (** sched() *)
| S6                    (** p->chan = 0 *)
| S7                    (** release(&p->lock) *)
| S8                    (** acquire(lk) *)
| PAcq                  (** acquire(lk) *)
| PSet                  (** cond = 1 *)
| W1 (i : nat)          (** wakeup: acquire(&proc[i].lock) *)
| W2 (i : nat)          (** if(SLEEPING && chan) state = RUNNABLE *)
| W3 (i : nat)          (** release(&proc[i].lock) *)
| PRel                  (** release(lk) *)
| Y1 | Y2 | Y3 | Y4.    (** yield: acquire, state = RUNNABLE, sched, release *)

(** Where a CPU is in [scheduler]: about to lock process [i], looking at its
    state, running it, about to unlock it. *)
Inductive cpc := Scan (i : nat) | Held (i : nat) | Runs (i : nat) | Back (i : nat).

(** The holder of a lock: a process, or a CPU in [scheduler]. *)
Inductive owner := ByCpu (c : nat) | ByProc (p : nat).

Record sys := Sys {
  pc : nat -> pcs;
  ps : nat -> pstate;
  chan_set : nat -> bool;         (** p->chan == chan *)
  plock : nat -> option owner;    (** p->lock *)
  cpus : nat -> cpc;
  lk : option nat;
  cond : bool
}.

Definition upd {A} (f : nat -> A) (i : nat) (x : A) : nat -> A := fun j => if decide (j = i) then x else f j.

Definition set_pc (q : nat) (x : pcs) (s : sys) : sys :=
  Sys (upd (pc s) q x) (ps s) (chan_set s) (plock s) (cpus s) (lk s) (cond s).
Definition set_ps (q : nat) (x : pstate) (s : sys) : sys :=
  Sys (pc s) (upd (ps s) q x) (chan_set s) (plock s) (cpus s) (lk s) (cond s).
Definition set_chan (q : nat) (x : bool) (s : sys) : sys :=
  Sys (pc s) (ps s) (upd (chan_set s) q x) (plock s) (cpus s) (lk s) (cond s).
Definition set_plock (i : nat) (x : option owner) (s : sys) : sys :=
  Sys (pc s) (ps s) (chan_set s) (upd (plock s) i x) (cpus s) (lk s) (cond s).
Definition set_cpu (c : nat) (x : cpc) (s : sys) : sys :=
  Sys (pc s) (ps s) (chan_set s) (plock s) (upd (cpus s) c x) (lk s) (cond s).
Definition set_lk (x : option nat) (s : sys) : sys :=
  Sys (pc s) (ps s) (chan_set s) (plock s) (cpus s) x (cond s).
Definition set_cond (b : bool) (s : sys) : sys :=
  Sys (pc s) (ps s) (chan_set s) (plock s) (cpus s) (lk s) b.

Section sleep.
Variable nproc : nat.

(** One statement of process [q]. *)
Inductive pstep (q : nat) (s : sys) : sys -> Prop :=
| p_consume : pc s q = Idle -> pstep q s (set_pc q CAcq s)
| p_produce : pc s q = Idle -> pstep q s (set_pc q PAcq s)
| p_yield : pc s q = Idle -> pstep q s (set_pc q Y1 s)
| p_cacq : pc s q = CAcq -> lk s = None -> pstep q s (set_pc q CTest (set_lk (Some q) s))
| p_take : pc s q = CTest -> cond s = true -> pstep q s (set_pc q CRel (set_cond false s))
| p_wait : pc s q = CTest -> cond s = false -> pstep q s (set_pc q S1 s)
| p_crel : pc s q = CRel -> pstep q s (set_pc q Idle (set_lk None s))
| p_s1 : pc s q = S1 -> plock s q = None -> pstep q s (set_pc q S2 (set_plock q (Some (ByProc q)) s))
| p_s2 : pc s q = S2 -> pstep q s (set_pc q S3 (set_lk None s))
| p_s3 : pc s q = S3 -> pstep q s (set_pc q S4 (set_chan q true s))
| p_s4 : pc s q = S4 -> pstep q s (set_pc q S5 (set_ps q PSleeping s))
| p_s6 : pc s q = S6 -> pstep q s (set_pc q S7 (set_chan q false s))
| p_s7 : pc s q = S7 -> pstep q s (set_pc q S8 (set_plock q None s))
| p_s8 : pc s q = S8 -> lk s = None -> pstep q s (set_pc q CTest (set_lk (Some q) s))
| p_pacq : pc s q = PAcq -> lk s = None -> pstep q s (set_pc q PSet (set_lk (Some q) s))
| p_pset : pc s q = PSet -> pstep q s (set_pc q (W1 0) (set_cond true s))
| p_wself i : pc s q = W1 i -> (i < nproc)%nat -> i = q -> pstep q s (set_pc q (W1 (S i)) s)
| p_w1 i : pc s q = W1 i -> (i < nproc)%nat -> i <> q -> plock s i = None ->
    pstep q s (set_pc q (W2 i) (set_plock i (Some (ByProc q)) s))
| p_w2_wake i : pc s q = W2 i -> ps s i = PSleeping -> chan_set s i = true ->
    pstep q s (set_pc q (W3 i) (set_ps i PRunnable s))
| p_w2_skip i : pc s q = W2 i -> ps s i <> PSleeping \/ chan_set s i = false -> pstep q s (set_pc q (W3 i) s)
| p_w3 i : pc s q = W3 i -> pstep q s (set_pc q (W1 (S i)) (set_plock i None s))
| p_wend i : pc s q = W1 i -> (nproc <= i)%nat -> pstep q s (set_pc q PRel s)
| p_prel : pc s q = PRel -> pstep q s (set_pc q Idle (set_lk None s))
| p_y1 : pc s q = Y1 -> plock s q = None -> pstep q s (set_pc q Y2 (set_plock q (Some (ByProc q)) s))
| p_y2 : pc s q = Y2 -> pstep q s (set_pc q Y3 (set_ps q PRunnable s))
| p_y4 : pc s q = Y4 -> pstep q s (set_pc q Idle (set_plock q None s)).

(** One statement on CPU [c]: of [scheduler], or of the process it runs.
    [sched] and [swtch] hand the process's lock over. *)
Inductive step (s : sys) : sys -> Prop :=
| c_lock c i : cpus s c = Scan i -> plock s i = None ->
    step s (set_cpu c (Held i) (set_plock i (Some (ByCpu c)) s))
| c_run c i : cpus s c = Held i -> ps s i = PRunnable ->
    step s (set_cpu c (Runs i) (set_plock i (Some (ByProc i)) (set_ps i PRunning s)))
| c_skip c i : cpus s c = Held i -> ps s i <> PRunnable -> step s (set_cpu c (Back i) s)
| c_unlock c i : cpus s c = Back i ->
    step s (set_cpu c (Scan (if decide (S i < nproc)%nat then S i else 0%nat)) (set_plock i None s))
| c_proc c q s' : cpus s c = Runs q -> pstep q s s' -> step s s'
| c_sleep c q : cpus s c = Runs q -> pc s q = S5 ->
    step s (set_cpu c (Back q) (set_plock q (Some (ByCpu c)) (set_pc q S6 s)))
| c_yield c q : cpus s c = Runs q -> pc s q = Y3 ->
    step s (set_cpu c (Back q) (set_plock q (Some (ByCpu c)) (set_pc q Y4 s))).

(** Every process is runnable and starts, as a new one does in [forkret], by
    releasing its lock. *)
Definition boot : sys :=
  Sys (fun _ => Y4) (fun _ => PRunnable) (fun _ => false) (fun _ => None) (fun _ => Scan 0) None false.

Definition reach (s : sys) : Prop := rtc step boot s.

(** ** The invariant *)

(** The process lock a running process holds, and whether it holds [lk]. *)
Definition plock_of (q : nat) (x : pcs) : option nat :=
  match x with
  | S2 | S3 | S4 | S5 | S6 | S7 | Y2 | Y3 | Y4 => Some q
  | W2 i | W3 i => Some i
  | _ => None
  end.
Definition has_lk (x : pcs) : bool :=
  match x with
  | CTest | CRel | S1 | S2 | PSet | W1 _ | W2 _ | W3 _ | PRel => true
  | _ => false
  end.

(** A wakeup in progress that has yet to look at process [i]. *)
Definition pending (x : pcs) (i : nat) : Prop :=
  match x with
  | W1 j | W2 j => (j <= i)%nat
  | W3 j => (j < i)%nat
  | _ => False
  end.

(** A process that sleeps, or has decided to. *)
Definition asleep (s : sys) (i : nat) : Prop := ps s i = PSleeping \/ pc s i = S3 \/ pc s i = S4.

Record inv (s : sys) : Prop := {
  iv_cpu : forall c i, cpus s c = Held i \/ cpus s c = Back i -> plock s i = Some (ByCpu c);
  iv_plock : forall c q i, cpus s c = Runs q -> plock_of q (pc s q) = Some i -> plock s i = Some (ByProc q);
  iv_one : forall c c' q, cpus s c = Runs q -> cpus s c' = Runs q -> c = c';
  iv_runs : forall c q, cpus s c = Runs q ->
    match pc s q with S5 => ps s q = PSleeping | Y3 => ps s q = PRunnable | _ => ps s q = PRunning end;
  iv_off : forall q, (exists c, cpus s c = Runs q) \/ (pc s q = S6 \/ pc s q = Y4) /\ ps s q <> PRunning;
  iv_lk : forall q, has_lk (pc s q) = true -> lk s = Some q;
  iv_sleep : forall q, ps s q = PSleeping -> pc s q = S5 \/ pc s q = S6;
  iv_chan : forall q, pc s q = S4 \/ pc s q = S5 \/ pc s q = S6 -> chan_set s q = true;
  iv_false : forall q, pc s q = S1 \/ pc s q = S2 -> cond s = false;
  iv_other : forall q i, pc s q = W2 i \/ pc s q = W3 i -> i <> q;
  iv_wake : cond s = true -> forall i, (i < nproc)%nat -> asleep s i -> exists q, pending (pc s q) i
}.

Lemma sys_inv_boot : inv boot.
Proof.
  split; cbn; try done; intros; try (right; split; [tauto|done]).
  all: repeat match goal with H : _ \/ _ |- _ => destruct H end; congruence.
Qed.

(** Case analysis on the process or CPU that moved. *)
Ltac moved :=
  intros; unfold asleep in *; cbn [pc ps chan_set plock cpus lk cond set_pc set_ps set_chan set_plock set_cpu set_lk set_cond] in *;
  unfold upd in *; repeat case_decide; subst; cbn [plock_of has_lk pending] in *.

(** Goals about what did not move, or moved in an obvious way. *)
Ltac settle I1 I2 I4 I5 I6 :=
  try done; try congruence;
  try (repeat match goal with H : _ \/ _ |- _ => destruct H end; congruence);
  try (by eauto 2);
  try match goal with
  | H : cpus ?s ?c = Runs ?q |- match pc ?s ?q with _ => _ end => exact (I4 c q H)
  | Hc : cpus ?s ?c = Runs ?q |- (exists c, cpus ?s c = Runs ?q) \/ _ => left; exists c; exact Hc
  | H : has_lk (pc ?s ?q) = true |- _ => apply I6 in H; congruence
  | H : cpus ?s ?c = Held ?i \/ cpus ?s ?c = Back ?i |- _ => apply I1 in H; congruence
  | H : cpus ?s ?c = Runs ?q, H2 : plock_of ?q (pc ?s ?q) = Some ?i |- _ => pose proof (I2 c q i H H2); congruence
  end.

(** A wakeup that is still on its way. *)
Ltac still I11 Hpc q i :=
  match goal with Hc : cond ?s = true |- _ =>
    destruct (I11 Hc i) as [q1 Hq1]; [done|unfold asleep; tauto|]; exists q1;
    destruct (decide (q1 = q)) as [->|]; [rewrite Hpc in Hq1; cbn [pending] in *; first [done|lia]|done] end.

Lemma pstep_inv c q s s' : inv s -> cpus s c = Runs q -> pstep q s s' -> inv s'.
Proof.
  intros I Hc Hs. pose proof (iv_runs _ I c q Hc) as Hr.
  destruct I as [I1 I2 I3 I4 I5 I6 I7 I8 I9 I10 I11].
  pose proof (fun i => I2 c q i Hc) as J2. pose proof (I6 q) as J6. pose proof (I8 q) as J8. pose proof (I9 q) as J9.
  pose proof (I10 q) as J10. pose proof (fun H => I11 H q) as J11. unfold asleep in J11.
  destruct Hs; match goal with H : pc s q = _ |- _ => rename H into Hpc; rewrite Hpc in Hr, J2, J6, J8, J9, J10, J11 end;
    cbn [plock_of has_lk] in *.
  all: try specialize (J6 eq_refl). all: try specialize (J2 _ eq_refl).
  all: split.
  all: try (moved; settle I1 I2 I4 I5 I6; fail).
  all: moved; settle I1 I2 I4 I5 I6.
  all: try match goal with |- exists q0, pending (if decide (q0 = ?q) then _ else _) ?i => still I11 Hpc q i end.
  (* p_s1 *)
  - apply J9. tauto.
  (* p_s2 *)
  - assert (cond s = false) by (apply J9; tauto). congruence.
  (* p_s4 *)
  - apply J8. tauto.
  (* p_pset *)
  - assert (lk s = Some q0) by (apply I6; destruct H as [-> | ->]; done). congruence.
  - exists q. rewrite decide_True by done. simpl. lia.
  (* p_w2_wake *)
  - destruct (I7 i ltac:(done)) as [E|E]; rewrite E.
    + pose proof (I2 c0 i i ltac:(done)) as E2. rewrite E in E2. specialize (E2 eq_refl). congruence.
    + pose proof (I4 c0 i ltac:(done)) as E2. rewrite E in E2. congruence.
  - destruct (I5 i) as [Hrun|[Hoff _]]; [by left|]. right. split; [done|done].
  - exfalso. match goal with H : PRunnable = PSleeping \/ _ |- _ => destruct (I7 i ltac:(done)), H as [?|[?|?]]; congruence end.
  (* p_w2_skip *)
  - match goal with H : _ \/ W3 _ = W3 _ |- _ => destruct H as [[=]|[= <-]] end. apply J10. tauto.
  - match goal with Hcond : cond s = true |- _ => destruct (I11 Hcond i0) as [q1 Hq1]; [done|done|] end.
    exists q1. destruct (decide (q1 = q)) as [->|]; [|done]. rewrite Hpc in Hq1. cbn [pending] in *.
    enough (i <> i0) by lia. intros <-. clear Hq1.
    (* the process looked at is not asleep *)
    match goal with H : ps s i = PSleeping \/ _ |- _ => destruct H as [Ha|Ha] end.
    + destruct (I7 i Ha) as [E|E]; (assert (chan_set s i = true) by (apply I8; tauto));
        match goal with H : ps s i <> PSleeping \/ _ |- _ => destruct H; congruence end.
    + destruct (I5 i) as [[c1 Hc1]|[Hoff _]]; [|destruct Ha, Hoff; congruence].
      pose proof (I2 c1 i i Hc1) as E2. assert (plock_of i (pc s i) = Some i) as E3 by (by destruct Ha as [-> | ->]).
      specialize (E2 E3). assert (i <> q) by (apply J10; tauto). congruence.
Qed.

(** A process that was running on another CPU still is. *)
Ltac on_cpu I5 :=
  match goal with |- (exists c0, (if decide (c0 = ?c) then _ else _) = Runs ?q) \/ _ =>
    destruct (I5 q) as [[c1 Hc1]|Hoff]; [left; exists c1; rewrite decide_False by congruence; exact Hc1|by right] end.

Lemma lock_inv s c i : inv s -> cpus s c = Scan i -> plock s i = None ->
  inv (set_cpu c (Held i) (set_plock i (Some (ByCpu c)) s)).
Proof.
  intros [I1 I2 I3 I4 I5 I6 I7 I8 I9 I10 I11] Hc Hl. split; moved; settle I1 I2 I4 I5 I6. on_cpu I5.
Qed.

Lemma unlock_inv s c i j : inv s -> cpus s c = Back i -> inv (set_cpu c (Scan j) (set_plock i None s)).
Proof.
  intros [I1 I2 I3 I4 I5 I6 I7 I8 I9 I10 I11] Hc. pose proof (I1 c i ltac:(tauto)) as Hl.
  split; moved; settle I1 I2 I4 I5 I6. on_cpu I5.
Qed.

Lemma skip_inv s c i : inv s -> cpus s c = Held i -> inv (set_cpu c (Back i) s).
Proof.
  intros [I1 I2 I3 I4 I5 I6 I7 I8 I9 I10 I11] Hc. pose proof (I1 c i ltac:(tauto)) as Hl.
  split; moved; settle I1 I2 I4 I5 I6. on_cpu I5.
Qed.

(** The process a CPU is about to run does not run on another one. *)
Lemma held_off s c i : inv s -> cpus s c = Held i -> ps s i = PRunnable ->
  (forall c', cpus s c' <> Runs i) /\ (pc s i = S6 \/ pc s i = Y4).
Proof.
  intros I Hc Hp. pose proof (iv_cpu _ I c i ltac:(tauto)) as Hl.
  assert (forall c', cpus s c' <> Runs i) as Hno.
  { intros c' Hc'. pose proof (iv_runs _ I c' i Hc') as Hr.
    assert (pc s i = Y3) as Hy by (destruct (pc s i); congruence).
    pose proof (iv_plock _ I c' i i Hc') as E. rewrite Hy in E. specialize (E eq_refl). congruence. }
  split; [done|]. destruct (iv_off _ I i) as [[c' Hc']|[? _]]; [by destruct (Hno c')|done].
Qed.

Lemma run_inv s c i : inv s -> cpus s c = Held i -> ps s i = PRunnable ->
  inv (set_cpu c (Runs i) (set_plock i (Some (ByProc i)) (set_ps i PRunning s))).
Proof.
  intros I Hc Hp. destruct (held_off s c i I Hc Hp) as [Hno Hpc]. pose proof (iv_cpu _ I c i ltac:(tauto)) as Hl.
  destruct I as [I1 I2 I3 I4 I5 I6 I7 I8 I9 I10 I11].
  split; moved; settle I1 I2 I4 I5 I6.
  - match goal with H : Runs _ = Runs _ |- _ => injection H as <- end.
    destruct Hpc as [E|E]; rewrite E in *; cbn [plock_of] in *; congruence.
  - by destruct Hpc as [-> | ->].
  - left. exists c. by rewrite decide_True.
  - on_cpu I5.
Qed.

(** Giving up the CPU in [sched]: the process's state is set and the
    scheduler takes over its lock. *)
Lemma sched_inv s c q y : inv s -> cpus s c = Runs q -> (pc s q = S5 /\ y = S6) \/ (pc s q = Y3 /\ y = Y4) ->
  inv (set_cpu c (Back q) (set_plock q (Some (ByCpu c)) (set_pc q y s))).
Proof.
  intros I Hc Hy. pose proof (iv_runs _ I c q Hc) as Hr. pose proof (iv_plock _ I c q q Hc) as Hl.
  assert (plock s q = Some (ByProc q)) as Hlq by (apply Hl; destruct Hy as [[-> _]|[-> _]]; done). clear Hl.
  assert (forall c', cpus s c' = Runs q -> c' = c) as Hone by (intros; by eapply iv_one).
  destruct I as [I1 I2 I3 I4 I5 I6 I7 I8 I9 I10 I11].
  destruct Hy as [[Hpc ->]|[Hpc ->]]; rewrite Hpc in Hr.
  all: split; moved; settle I1 I2 I4 I5 I6.
  all: try match goal with H : cpus _ ?c0 = Runs _, Hn : ?c0 <> _ |- _ => by destruct (Hn (Hone c0 H)) end.
  all: try match goal with |- exists q0, pending (if decide (q0 = ?q) then _ else _) ?i => still I11 Hpc q i end.
  all: try (right; split; [tauto|congruence]).
  all: try on_cpu I5.
  apply I8. tauto.
Qed.

Lemma sys_inv_step s s' : inv s -> step s s' -> inv s'.
Proof.
  intros I [c i H1 H2|c i H1 H2|c i H1 H2|c i H1|c q s1 H1 H2|c q H1 H2|c q H1 H2].
  - by apply lock_inv.
  - by apply run_inv.
  - by apply skip_inv.
  - by apply unlock_inv.
  - by eapply pstep_inv.
  - apply sched_inv; tauto.
  - apply sched_inv; tauto.
Qed.

Lemma sys_inv_reach s : reach s -> inv s.
Proof.
  unfold reach. generalize sys_inv_boot. generalize boot. intros s0 I Hr. revert I.
  induction Hr as [|s0 s1 s2 Hst _ IH]; [done|]. intros I. by apply IH, sys_inv_step with s0.
Qed.

(** C3: No wakeup is lost.  In every state that any number of CPUs and
    processes reach, whatever the interleaving: when the condition holds and
    no process is inside the critical section that tests it or sets it, no
    process sleeps on it, nor is about to go to sleep; and a process that
    sleeps while the condition holds still has a wakeup on its way to it.
    At no time does a process run on two CPUs. *)
Theorem no_lost_wakeup s : reach s ->
  (cond s = true -> lk s = None -> forall i, (i < nproc)%nat -> ~ asleep s i) /\
  (cond s = true -> forall i, (i < nproc)%nat -> ps s i = PSleeping -> exists q, pending (pc s q) i /\ lk s = Some q) /\
  (forall c c' q, cpus s c = Runs q -> cpus s c' = Runs q -> c = c').
Proof.
  intros Hr. pose proof (sys_inv_reach s Hr) as I.
  assert (forall q i, pending (pc s q) i -> lk s = Some q) as Hp.
  { intros q i Hp. apply (iv_lk _ I). by destruct (pc s q). }
  split; [|split; [|apply (iv_one _ I)]].
  - intros Hc Hl i Hi Ha. destruct (iv_wake _ I Hc i Hi Ha) as [q Hq]. apply Hp in Hq. congruence.
  - intros Hc i Hi Ha. destruct (iv_wake _ I Hc i Hi) as [q Hq]; [by left|]. exists q. split; [done|by eapply Hp].
Qed.

End sleep.

(** CPU 0 runs process 0 of two. *)
Lemma no_lost_wakeup_witness : exists s, reach 2 s /\ cpus s 0 = Runs 0 /\ forall c, cpus s c = Runs 0 -> c = 0%nat.
Proof.
  eexists. split; [|split].
  - eapply rtc_l; [apply (c_lock 2 _ 0 0); reflexivity|]. eapply rtc_l; [apply (c_run 2 _ 0 0); reflexivity|]. apply rtc_refl.
  - reflexivity.
  - intros c Hc. eapply (no_lost_wakeup 2); [|exact Hc|reflexivity].
    eapply rtc_l; [apply (c_lock 2 _ 0 0); reflexivity|]. eapply rtc_l; [apply (c_run 2 _ 0 0); reflexivity|]. apply rtc_refl.
Defined.
