(* ===== verification/Ring.v ===== *)
(** * Ring buffers

    The pipe, the console input buffer and the UART output buffer all keep
    bytes in an array of [N] slots, indexed modulo [N] by counters that only
    grow and wrap at the width [M] of their C type.  This file relates such
    a buffer to the list of bytes it holds. *)

From S2P Require Import Prelude.

(** The widths of [uint] and [uint64] counters. *)
Definition M32 : Z := 2 ^ 32.
Definition M64 : Z := 2 ^ 64.

Definition ring_get (N : Z) (buf : list Z) (i : Z) : Z := nth (Z.to_nat (i mod N)) buf 0.
Definition ring_set (N : Z) (buf : list Z) (i c : Z) : list Z := <[Z.to_nat (i mod N) := c]> buf.

(** How many bytes there are between the counters [r] and [w]. *)
Definition ring_len (M r w : Z) : Z := (w - r) mod M.

Definition ring_list (N M : Z) (buf : list Z) (r w : Z) : list Z :=
  map (fun k => ring_get N buf (r + Z.of_nat k)) (seq 0 (Z.to_nat (ring_len M r w))).

Lemma seq_from n k : seq n k = map (fun i => (n + i)%nat) (seq 0 k).
Proof.
  revert n. induction k as [|k IH]; intros n; [done|]. simpl. rewrite (IH (S n)), (IH 1%nat), map_map.
  f_equal; [lia|]. apply map_ext. intros. lia.
Qed.

Section ring.
Context (N M : Z) (HN : 0 < N) (HNM : N < M) (HM : M mod N = 0).

Lemma mod_mod_wrap i : (i mod M) mod N = i mod N.
Proof.
  apply Z.mod_divide in HM as [q Hq]; [|lia].
  rewrite (Z.div_mod i M) at 2 by lia. rewrite Hq at 2.
  replace (q * N * (i / M) + i mod M) with (i mod M + (q * (i / M)) * N) by lia.
  by rewrite Z_mod_plus_full.
Qed.

Lemma ring_get_wrap buf i : ring_get N buf (i mod M) = ring_get N buf i.
Proof. unfold ring_get. by rewrite mod_mod_wrap. Qed.

Lemma ring_set_wrap buf i c : ring_set N buf (i mod M) c = ring_set N buf i c.
Proof. unfold ring_set. by rewrite mod_mod_wrap. Qed.

Lemma ring_len_range r w : 0 <= ring_len M r w < M.
Proof. apply Z.mod_pos_bound. lia. Qed.

Lemma ring_len_push r w : ring_len M r w < M - 1 -> ring_len M r ((w + 1) mod M) = ring_len M r w + 1.
Proof.
  intros H. unfold ring_len in *. rewrite Zminus_mod_idemp_l.
  replace (w + 1 - r) with (w - r + 1) by lia. rewrite <- Zplus_mod_idemp_l.
  apply Z.mod_small. pose proof (Z.mod_pos_bound (w - r) M). lia.
Qed.

Lemma ring_len_pop r w : 0 < ring_len M r w -> ring_len M ((r + 1) mod M) w = ring_len M r w - 1.
Proof.
  intros H. unfold ring_len in *. rewrite Zminus_mod_idemp_r.
  replace (w - (r + 1)) with (w - r - 1) by lia. rewrite <- Zminus_mod_idemp_l.
  apply Z.mod_small. pose proof (Z.mod_pos_bound (w - r) M). lia.
Qed.

Lemma ring_len_unpush r w : 0 < ring_len M r w -> ring_len M r ((w - 1) mod M) = ring_len M r w - 1.
Proof.
  intros H. unfold ring_len in *. rewrite Zminus_mod_idemp_l.
  replace (w - 1 - r) with (w - r - 1) by lia. rewrite <- Zminus_mod_idemp_l.
  apply Z.mod_small. pose proof (Z.mod_pos_bound (w - r) M). lia.
Qed.

Lemma ring_empty r w : 0 <= r < M -> 0 <= w < M -> ring_len M r w = 0 <-> r = w.
Proof.
  intros Hr Hw. unfold ring_len. split; [|intros ->; by rewrite Z.sub_diag, Zmod_0_l].
  intros H. apply Z.mod_divide in H as [q Hq]; [|lia].
  assert (- M < q * M < M) by lia. assert (q = 0) as -> by (destruct (Z.lt_trichotomy q 0) as [?|[?|?]]; nia). lia.
Qed.

(** The test [w == r + N] of the code, at the width of the counters. *)
Lemma ring_full r w : 0 <= w < M -> w = (r + N) mod M <-> ring_len M r w = N.
Proof.
  intros Hw. unfold ring_len. split.
  - intros ->. rewrite Zminus_mod_idemp_l. replace (r + N - r) with N by lia. apply Z.mod_small. lia.
  - intros H. rewrite <- H. rewrite Zplus_mod_idemp_r. replace (r + (w - r)) with w by lia.
    by rewrite Z.mod_small.
Qed.

Lemma ring_get_set buf i j c : length buf = Z.to_nat N ->
  ring_get N (ring_set N buf i c) j = if decide (j mod N = i mod N) then c else ring_get N buf j.
Proof.
  intros Hl. unfold ring_get, ring_set. pose proof (Z.mod_pos_bound i N HN). pose proof (Z.mod_pos_bound j N HN).
  case_decide as E.
  - rewrite E. rewrite (nth_lookup_Some _ _ _ c); [done|]. apply list_lookup_insert_eq. lia.
  - rewrite !nth_lookup. rewrite list_lookup_insert_ne; [done|lia].
Qed.

Lemma length_ring_list buf r w : length (ring_list N M buf r w) = Z.to_nat (ring_len M r w).
Proof. unfold ring_list. by rewrite length_map, length_seq. Qed.

(** [buf[w++ % N] = c] appends [c]. *)
Lemma ring_push buf r w c : length buf = Z.to_nat N -> ring_len M r w < N ->
  ring_list N M (ring_set N buf w c) r ((w + 1) mod M) = ring_list N M buf r w ++ [c].
Proof.
  intros Hl Hn. unfold ring_list. pose proof (ring_len_range r w). rewrite ring_len_push by lia.
  replace (Z.to_nat (ring_len M r w + 1)) with (S (Z.to_nat (ring_len M r w))) by lia.
  rewrite seq_S, map_app. simpl. f_equal.
  - apply map_ext_in. intros k Hk. apply in_seq in Hk. rewrite ring_get_set by done.
    rewrite decide_False; [done|]. intros E. unfold ring_len in *.
    assert ((w - (r + Z.of_nat k)) mod N = 0) as E2.
    { rewrite Zminus_mod, E, Z.sub_diag. apply Zmod_0_l. }
    rewrite <- (mod_mod_wrap (w - (r + Z.of_nat k))) in E2.
    replace (w - (r + Z.of_nat k)) with (w - r - Z.of_nat k) in E2 by lia.
    rewrite <- Zminus_mod_idemp_l, (Z.mod_small (_ - Z.of_nat k) M), Z.mod_small in E2 by lia. lia.
  - rewrite ring_get_set by done. rewrite decide_True; [done|].
    rewrite Z2Nat.id by lia. unfold ring_len. rewrite <- mod_mod_wrap, Zplus_mod_idemp_r.
    replace (r + (w - r)) with w by lia. apply mod_mod_wrap.
Qed.

(** [buf[r++ % N]] is the oldest byte, and the rest stays. *)
Lemma ring_pop buf r w : 0 < ring_len M r w ->
  ring_list N M buf r w = ring_get N buf r :: ring_list N M buf ((r + 1) mod M) w.
Proof.
  intros H. unfold ring_list. rewrite ring_len_pop by done.
  replace (Z.to_nat (ring_len M r w)) with (S (Z.to_nat (ring_len M r w - 1))) by lia. simpl.
  rewrite Z.add_0_r. f_equal. rewrite <- seq_shift, map_map. apply map_ext. intros k.
  rewrite <- (ring_get_wrap _ ((r + 1) mod M + Z.of_nat k)), Zplus_mod_idemp_l, ring_get_wrap.
  f_equal. lia.
Qed.

(** Two adjacent stretches. *)
Lemma ring_split buf r w e : ring_len M r w + ring_len M w e < M ->
  ring_list N M buf r e = ring_list N M buf r w ++ ring_list N M buf w e /\
  ring_len M r e = ring_len M r w + ring_len M w e.
Proof.
  intros H. pose proof (ring_len_range r w). pose proof (ring_len_range w e).
  assert (ring_len M r e = ring_len M r w + ring_len M w e) as E.
  { unfold ring_len in *. rewrite <- (Z.mod_small ((w - r) mod M + (e - w) mod M) M) by lia.
    rewrite <- Zplus_mod. f_equal. lia. }
  split; [|done]. unfold ring_list. rewrite E, Z2Nat.inj_add, seq_app, map_app by lia. f_equal.
  simpl. rewrite seq_from, map_map. apply map_ext. intros k.
  rewrite <- (ring_get_wrap buf (w + _)), <- (ring_get_wrap buf (r + _)). f_equal.
  rewrite Nat2Z.inj_add, Z2Nat.id by lia. unfold ring_len. rewrite Z.add_assoc.
  rewrite <- (Zplus_mod_idemp_l (r + _)), Zplus_mod_idemp_r, Zplus_mod_idemp_l. f_equal.
  by replace (r + (w - r)) with w by lia.
Qed.

Lemma ring_get_last buf r w : 0 < ring_len M r w ->
  last (ring_list N M buf r w) = Some (ring_get N buf ((w - 1) mod M)).
Proof.
  intros H. unfold ring_list. replace (Z.to_nat (ring_len M r w)) with (S (Z.to_nat (ring_len M r w - 1))) by lia.
  rewrite seq_S, map_app, last_app. simpl. f_equal.
  rewrite <- (ring_get_wrap buf (r + _)), !Z2Nat.id by lia. f_equal. unfold ring_len.
  replace (r + ((w - r) mod M - 1)) with ((w - r) mod M + (r - 1)) by lia.
  rewrite Zplus_mod_idemp_l. f_equal. lia.
Qed.

(** [w--] drops the newest byte. *)
Lemma ring_unpush buf r w : 0 < ring_len M r w ->
  ring_list N M buf r ((w - 1) mod M) = removelast (ring_list N M buf r w).
Proof.
  intros H. unfold ring_list. rewrite ring_len_unpush by done.
  replace (Z.to_nat (ring_len M r w)) with (S (Z.to_nat (ring_len M r w - 1))) by lia.
  rewrite seq_S, map_app. simpl. by rewrite removelast_last.
Qed.

(** Writing outside a stretch leaves it alone. *)
Lemma ring_list_set buf r w e c : length buf = Z.to_nat N ->
  ring_len M r w + ring_len M w e < N -> ring_list N M (ring_set N buf e c) r w = ring_list N M buf r w.
Proof.
  intros Hl H. pose proof (ring_len_range r w). pose proof (ring_len_range w e).
  destruct (ring_split buf r w e ltac:(lia)) as [E1 E2].
  destruct (ring_split (ring_set N buf e c) r w ((e + 1) mod M)) as [E3 E4].
  { rewrite ring_len_push by lia. lia. }
  rewrite ring_push in E3 by (done || lia). rewrite E1 in E3.
  apply (f_equal (take (length (ring_list N M buf r w)))) in E3.
  rewrite <- app_assoc, take_app_length in E3.
  replace (length (ring_list N M buf r w)) with (length (ring_list N M (ring_set N buf e c) r w)) in E3
    by by rewrite !length_ring_list.
  by rewrite take_app_length in E3.
Qed.

End ring.
