(* ===== verification/KState.v ===== *)
(** * The state of the whole kernel

    The file system of Fs.v together with the process table (kernel/proc.h),
    the file table (kernel/file.h), pipes, the console and the UART: the
    state on which the file, process and system-call layers run.  Code runs
    on behalf of the process [k_me].  A critical section of a spin lock is
    one atomic piece of the run (see Spinlock.v); a call of [sleep] ends the
    run with [Sleep]. *)

From S2P Require Import Prelude Memory KString Kalloc Vm Bytes Sleeplock Bio Log Fs FsFile Ring.

(** ** kernel/proc.h *)

Inductive procstate := UNUSED | USED | SLEEPING | RUNNABLE | RUNNING | ZOMBIE.

#[export] Instance procstate_eq_dec : EqDecision procstate.
Proof. solve_decision. Defined.

(** What a process sleeps on: the address passed to [sleep]. *)
Inductive chan :=
| ChProc (p : nat)       (** a struct proc, for wait() *)
| ChPipeRead (pi : Z)    (** &pi->nread *)
| ChPipeWrite (pi : Z)   (** &pi->nwrite *)
| ChTicks                (** &ticks *)
| ChCons                 (** &cons.r *)
| ChUart                 (** &uart_tx_r *)
| ChFs.                  (** a sleep lock or the log *)

#[export] Instance chan_eq_dec : EqDecision chan.
Proof. solve_decision. Defined.

(** The return address a saved context resumes at. *)
Inductive kcode := AtZero | AtForkret | AtKernel (pc : Z).

Record context := Context_ { ctx_ra : kcode; ctx_sp : Z; ctx_s : list Z }.

Record proc := Proc {
  p_state : procstate;
  p_chan : option chan;
  p_killed : bool;
  p_xstate : Z;
  p_pid : Z;
  p_parent : option nat;
  p_kstack : Z;
  p_sz : Z;
  p_pagetable : Z;
  p_trapframe : Z;
  p_context : context;
  p_ofile : list (option nat);
  p_cwd : option nat;
  p_name : list Z  (** the C string in name[16] *)
}.

Definition set_state v (p : proc) := Proc v (p_chan p) (p_killed p) (p_xstate p) (p_pid p) (p_parent p)
  (p_kstack p) (p_sz p) (p_pagetable p) (p_trapframe p) (p_context p) (p_ofile p) (p_cwd p) (p_name p).
Definition set_chan v (p : proc) := Proc (p_state p) v (p_killed p) (p_xstate p) (p_pid p) (p_parent p)
  (p_kstack p) (p_sz p) (p_pagetable p) (p_trapframe p) (p_context p) (p_ofile p) (p_cwd p) (p_name p).
Definition set_killed v (p : proc) := Proc (p_state p) (p_chan p) v (p_xstate p) (p_pid p) (p_parent p)
  (p_kstack p) (p_sz p) (p_pagetable p) (p_trapframe p) (p_context p) (p_ofile p) (p_cwd p) (p_name p).
Definition set_xstate v (p : proc) := Proc (p_state p) (p_chan p) (p_killed p) v (p_pid p) (p_parent p)
  (p_kstack p) (p_sz p) (p_pagetable p) (p_trapframe p) (p_context p) (p_ofile p) (p_cwd p) (p_name p).
Definition set_procid v (p : proc) := Proc (p_state p) (p_chan p) (p_killed p) (p_xstate p) v (p_parent p)
  (p_kstack p) (p_sz p) (p_pagetable p) (p_trapframe p) (p_context p) (p_ofile p) (p_cwd p) (p_name p).
Definition set_parent v (p : proc) := Proc (p_state p) (p_chan p) (p_killed p) (p_xstate p) (p_pid p) v
  (p_kstack p) (p_sz p) (p_pagetable p) (p_trapframe p) (p_context p) (p_ofile p) (p_cwd p) (p_name p).
Definition set_psz v (p : proc) := Proc (p_state p) (p_chan p) (p_killed p) (p_xstate p) (p_pid p) (p_parent p)
  (p_kstack p) v (p_pagetable p) (p_trapframe p) (p_context p) (p_ofile p) (p_cwd p) (p_name p).
Definition set_pagetable v (p : proc) := Proc (p_state p) (p_chan p) (p_killed p) (p_xstate p) (p_pid p) (p_parent p)
  (p_kstack p) (p_sz p) v (p_trapframe p) (p_context p) (p_ofile p) (p_cwd p) (p_name p).
Definition set_trapframe v (p : proc) := Proc (p_state p) (p_chan p) (p_killed p) (p_xstate p) (p_pid p) (p_parent p)
  (p_kstack p) (p_sz p) (p_pagetable p) v (p_context p) (p_ofile p) (p_cwd p) (p_name p).
Definition set_context v (p : proc) := Proc (p_state p) (p_chan p) (p_killed p) (p_xstate p) (p_pid p) (p_parent p)
  (p_kstack p) (p_sz p) (p_pagetable p) (p_trapframe p) v (p_ofile p) (p_cwd p) (p_name p).
Definition set_ofile v (p : proc) := Proc (p_state p) (p_chan p) (p_killed p) (p_xstate p) (p_pid p) (p_parent p)
  (p_kstack p) (p_sz p) (p_pagetable p) (p_trapframe p) (p_context p) v (p_cwd p) (p_name p).
Definition set_cwd v (p : proc) := Proc (p_state p) (p_chan p) (p_killed p) (p_xstate p) (p_pid p) (p_parent p)
  (p_kstack p) (p_sz p) (p_pagetable p) (p_trapframe p) (p_context p) (p_ofile p) v (p_name p).
Definition set_name v (p : proc) := Proc (p_state p) (p_chan p) (p_killed p) (p_xstate p) (p_pid p) (p_parent p)
  (p_kstack p) (p_sz p) (p_pagetable p) (p_trapframe p) (p_context p) (p_ofile p) (p_cwd p) v.

Definition NOFILE : nat := 16.
Definition proc0 : proc :=
  Proc UNUSED None false 0 0 None 0 0 0 0 (Context_ AtZero 0 (replicate 12 0)) (replicate NOFILE None) None
    [].

(** Byte offsets in struct trapframe. *)
Definition TF_epc : Z := 24.
Definition TF_sp : Z := 48.
Definition TF_a (n : Z) : Z := 112 + 8 * n.
Definition TF_SIZE : Z := 288.

(** ** kernel/file.h and kernel/pipe.c *)

Inductive fdtype := FD_NONE | FD_PIPE | FD_INODE | FD_DEVICE.

#[export] Instance fdtype_eq_dec : EqDecision fdtype.
Proof. solve_decision. Defined.

Record file := File {
  f_type : fdtype;
  f_ref : Z;
  f_readable : bool;
  f_writable : bool;
  f_pipe : Z;
  f_ip : nat;
  f_off : Z;
  f_major : Z
}.

Definition file0 : file := File FD_NONE 0 false false 0 0 0 0.
Definition set_fref n (f : file) :=
  File (f_type f) n (f_readable f) (f_writable f) (f_pipe f) (f_ip f) (f_off f) (f_major f).
Definition set_foff n (f : file) :=
  File (f_type f) (f_ref f) (f_readable f) (f_writable f) (f_pipe f) (f_ip f) n (f_major f).

Definition NFILE : nat := 100.
Definition NDEV : Z := 10.
Definition PIPESIZE : Z := 512.

Record pipe := Pipe {
  pi_data : list Z;
  nread : Z;
  nwrite : Z;
  readopen : bool;
  writeopen : bool
}.

(** ** Console and UART *)

Definition INPUT_BUF_SIZE : Z := 128.
Definition UART_TX_BUF_SIZE : Z := 32.

Record console := Console { cons_buf : list Z; cons_r : Z; cons_w : Z; cons_e : Z }.

(** The transmit buffer; the answers the next reads of the line status
    register give (transmitter idle or not); and the bytes written to the
    transmit register so far. *)
Record uart := Uart {
  tx_buf : list Z;
  tx_w : Z;
  tx_r : Z;
  lsr_idle : list bool;
  thr : list Z
}.

(** ** The state *)

Record kstate := KState {
  k_fs : fstate;
  k_ftable : list file;
  k_pipes : gmap Z pipe;
  k_proc : list proc;
  k_initproc : option nat;
  k_nextpid : Z;
  k_me : nat;
  k_ticks : Z;
  k_cons : console;
  k_uart : uart
}.

Definition with_fs v (s : kstate) := KState v (k_ftable s) (k_pipes s) (k_proc s) (k_initproc s) (k_nextpid s)
  (k_me s) (k_ticks s) (k_cons s) (k_uart s).
Definition with_ftable v (s : kstate) := KState (k_fs s) v (k_pipes s) (k_proc s) (k_initproc s) (k_nextpid s)
  (k_me s) (k_ticks s) (k_cons s) (k_uart s).
Definition with_pipes v (s : kstate) := KState (k_fs s) (k_ftable s) v (k_proc s) (k_initproc s) (k_nextpid s)
  (k_me s) (k_ticks s) (k_cons s) (k_uart s).
Definition with_proc v (s : kstate) := KState (k_fs s) (k_ftable s) (k_pipes s) v (k_initproc s) (k_nextpid s)
  (k_me s) (k_ticks s) (k_cons s) (k_uart s).
Definition with_initproc v (s : kstate) := KState (k_fs s) (k_ftable s) (k_pipes s) (k_proc s) v (k_nextpid s)
  (k_me s) (k_ticks s) (k_cons s) (k_uart s).
Definition with_nextpid v (s : kstate) := KState (k_fs s) (k_ftable s) (k_pipes s) (k_proc s) (k_initproc s) v
  (k_me s) (k_ticks s) (k_cons s) (k_uart s).
Definition with_ticks v (s : kstate) := KState (k_fs s) (k_ftable s) (k_pipes s) (k_proc s) (k_initproc s)
  (k_nextpid s) (k_me s) v (k_cons s) (k_uart s).
Definition with_cons v (s : kstate) := KState (k_fs s) (k_ftable s) (k_pipes s) (k_proc s) (k_initproc s)
  (k_nextpid s) (k_me s) (k_ticks s) v (k_uart s).
Definition with_uart v (s : kstate) := KState (k_fs s) (k_ftable s) (k_pipes s) (k_proc s) (k_initproc s)
  (k_nextpid s) (k_me s) (k_ticks s) (k_cons s) v.

Definition getp (s : kstate) (p : nat) : proc := default proc0 (k_proc s !! p).
Definition setp (s : kstate) (p : nat) (x : proc) : kstate := with_proc (<[p := x]> (k_proc s)) s.
Definition pget (p : nat) : K kstate proc := fun s => Ret (getp s p) s.
Definition pmod (p : nat) (f : proc -> proc) : K kstate unit := fun s => Ret tt (setp s p (f (getp s p))).
(** [myproc()] *)
Definition myproc : K kstate nat := fun s => Ret (k_me s) s.
(** The running process's struct proc, and updating it. *)
Definition mine : K kstate proc := fun s => Ret (getp s (k_me s)) s.
Definition pmine (f : proc -> proc) : K kstate unit := fun s => pmod (k_me s) f s.

(** ** Running the lower layers *)

(** The file system as the running process sees it: its page table, current
    directory and pid. *)
Definition enter_fs (s : kstate) : fstate :=
  let p := getp s (k_me s) in
  let f := k_fs s in
  let b := ls_bio (fs_ls f) in
  FState (LState (BState (bc_buf b) (bc_list b) (bc_disk b) (p_pid p)) (ls_log (fs_ls f)))
    (fs_sb f) (fs_itable f) (fs_mem f) (p_pagetable p) (default 0%nat (p_cwd p)).

(** Going to sleep: [p->chan = chan; p->state = SLEEPING; sched();]. *)
Definition sleep_on (c : chan) (s : kstate) : kstate :=
  setp s (k_me s) (set_state SLEEPING (set_chan (Some c) (getp s (k_me s)))).

Definition sleep {A} (c : chan) : K kstate A := fun s => Sleep (sleep_on c s).

(** The shared part of what the file system code left behind. *)
Definition leave_fs (f : fstate) (s : kstate) : kstate :=
  let b := ls_bio (fs_ls f) in
  let f0 := k_fs s in
  with_fs (FState (LState (BState (bc_buf b) (bc_list b) (bc_disk b) (bc_pid (ls_bio (fs_ls f0)))) (ls_log (fs_ls f)))
    (fs_sb f) (fs_itable f) (fs_mem f) (fs_pagetable f0) (fs_cwd f0)) s.

Definition liftF {A} (c : K fstate A) : K kstate A := fun s =>
  match c (enter_fs s) with
  | Ret a f => Ret a (leave_fs f s)
  | Panic msg => Panic msg
  | Sleep f => Sleep (sleep_on ChFs (leave_fs f s))
  | Diverge => Diverge
  end.

(** [wakeup(chan)] *)
Definition wake1 (me : nat) (c : chan) (i : nat) (p : proc) : proc :=
  if decide (i = me) then p
  else if decide (p_state p = SLEEPING /\ p_chan p = Some c) then set_state RUNNABLE p else p.

Definition wakeup (c : chan) : K kstate unit := fun s =>
  Ret tt (with_proc (imap (wake1 (k_me s) c) (k_proc s)) s).

(** File-system code that releases a sleep lock or closes an operation on the
    log: whoever waits for a lock or for the log is woken up, and checks again
    as [acquiresleep] and [begin_op] do. *)
Definition liftW {A} (c : K fstate A) : K kstate A :=
  a <- liftF c ;; wakeup ChFs ;;; kret a.

Definition kmemop {A} (c : K kmem A) : K kstate A := liftF (liftM c).
Definition kbegin_op : K kstate unit := liftF (liftL begin_op).
Definition kend_op : K kstate unit := liftW (liftL end_op).

(** A field of the trapframe at address [tf]. *)
Definition tf_get (tf off : Z) : K kstate Z := kmemop (kld64 (tf + off)).
Definition tf_set (tf off v : Z) : K kstate unit := kmemop (kst64 (tf + off) v).

(** ** kill and killed (kernel/proc.c) *)

Fixpoint kill_loop (k : nat) (p : nat) (pid : Z) : K kstate Z :=
  match k with
  | O => kret (-1)
  | S k' =>
      x <- pget p ;;
      if p_pid x =? pid then
        pmod p (set_killed true) ;;;
        (if decide (p_state x = SLEEPING) then pmod p (set_state RUNNABLE) else kret tt) ;;;
        kret 0
      else kill_loop k' (S p) pid
  end.

Definition kill (pid : Z) : K kstate Z := kill_loop (Z.to_nat NPROC) 0 pid.

Definition setkilled (p : nat) : K kstate unit := pmod p (set_killed true).
Definition killed (p : nat) : K kstate bool := x <- pget p ;; kret (p_killed x).

(** ** Properties of the lifts *)

Definition mem_of (s : kstate) : kmem := fs_mem (k_fs s).

Definition with_mem (m : kmem) (s : kstate) : kstate :=
  let f := k_fs s in
  with_fs (FState (fs_ls f) (fs_sb f) (fs_itable f) m (fs_pagetable f) (fs_cwd f)) s.

Lemma kmemop_ret {A} (c : K kmem A) s a m : c (mem_of s) = Ret a m -> kmemop c s = Ret a (with_mem m s).
Proof.
  intros H. unfold kmemop, liftF, liftM. cbn [enter_fs fs_mem]. unfold mem_of in H. rewrite H.
  by destruct s as [[[[] ]] ].
Qed.

Lemma with_mem_same s : with_mem (mem_of s) s = s.
Proof. by destruct s as [[] ]. Qed.
