(* ===== verification/Machine.v ===== *)
(** * A concrete machine

    A memory with one small user address space in it, and a
    kernel state with one running process: the inputs at which the theorems
    on system calls, pipes, the console and the process table are
    instantiated. *)

From S2P Require Import Prelude Memory KString Kalloc Vm Bytes Sleeplock Bio Log Fs FsFile Ring KState.

(** A page table of three pages that maps address 0 to [user0], readable and
    writable by the user; the page starts with the bytes of [hello]. *)
Definition root0 : Z := 0x87fff000.
Definition mid0 : Z := 0x87ffe000.
Definition leaf0 : Z := 0x87ffd000.
Definition user0 : Z := 0x87ffc000.
Definition frame0 : Z := 0x87ffb000.
Definition hello : list Z := [104; 101; 108; 108; 111].

(** The trapframe asks for system call 11, getpid. *)
Definition mem0 : memory :=
  write_bytes (st64
    (st64 (st64 (st64 ∅ root0 (Z.lor (PA2PTE mid0) PTE_V)) mid0 (Z.lor (PA2PTE leaf0) PTE_V))
      leaf0 (Z.lor (PA2PTE user0) (Z.lor PTE_U (Z.lor PTE_W (Z.lor PTE_R PTE_V)))))
    (frame0 + TF_a 7) 11) user0 hello.

(** Process 1 runs with one page of memory; its trapframe is [frame0]. *)
Definition init0 : proc :=
  Proc RUNNING None false 0 1 None (KSTACK 0) PGSIZE root0 frame0 (p_context proc0) (p_ofile proc0) None hello.

Definition fs0 : fstate :=
  FState (LState (binit (Disk ∅ []) 0) (Log 2 30 0 false 1 (LogHeader 0 (replicate (Z.to_nat LOGSIZE) 0))))
    (Superblock FSMAGIC 1000 950 200 30 2 32 45) iinit (Kmem mem0 0) 0 0.

Definition cons0 : console := Console (replicate (Z.to_nat INPUT_BUF_SIZE) 0) 0 0 0.
Definition uart0 : uart := Uart (replicate (Z.to_nat UART_TX_BUF_SIZE) 0) 0 0 (replicate 400 true) [].

(** The 63 other slots of the table are free. *)
Definition kstate0 : kstate :=
  KState fs0 (replicate NFILE file0) ∅ (init0 :: replicate (Z.to_nat (NPROC - 1)) proc0) (Some 0%nat) 2 0 0 cons0 uart0.

(** The same machine with eight free pages. *)
Definition kmem8 : kmem :=
  match @freerange image0 0x87ff0000 0x87ff8000 (Kmem mem0 0) with Ret _ m => m | _ => Kmem mem0 0 end.
Definition kstate8 : kstate := with_mem kmem8 kstate0.
