(* ===== verification/Pipe.v ===== *)
(** * Pipes (kernel/pipe.c)

    [piperead] and [pipewrite] over the kernel state.  The theorems relate a
    pipe to the queue of bytes it holds: a write appends the bytes it copied
    in, a read delivers the oldest bytes and removes exactly those, and the
    queue never exceeds PIPESIZE, across the wrap-around of the 32-bit
    counters. *)

From S2P Require Import Prelude Memory KString Kalloc Vm Bytes Sleeplock Bio Log Fs FsFile Ring KState Machine.

Definition piget (pi : Z) : K kstate pipe := fun s =>
  match k_pipes s !! pi with Some x => Ret x s | None => Panic "no such pipe" end.
Definition piset (pi : Z) (x : pipe) : K kstate unit := fun s =>
  Ret tt (with_pipes (<[pi := x]> (k_pipes s)) s).

Section pipe.
Context `{I : KernelImage}.

(** One byte of user memory. *)
Definition copyin1 (addr : Z) : K kstate (Z * list Z) :=
  p <- mine ;; kmemop (copyin (p_pagetable p) addr 1).
Definition copyout1 (addr ch : Z) : K kstate Z :=
  p <- mine ;; kmemop (copyout (p_pagetable p) addr [ch]).

Definition pipeclose (pi : Z) (writable : bool) : K kstate unit :=
  x <- piget pi ;;
  (if writable then
     piset pi (Pipe (pi_data x) (nread x) (nwrite x) (readopen x) false) ;;;
     wakeup (ChPipeRead pi)
   else
     piset pi (Pipe (pi_data x) (nread x) (nwrite x) false (writeopen x)) ;;;
     wakeup (ChPipeWrite pi)) ;;;
  x <- piget pi ;;
  if negb (readopen x) && negb (writeopen x) then
    kmod (fun s => with_pipes (delete pi (k_pipes s)) s) ;;;
    kmemop (kfree pi)
  else kret tt.

(** [data[nwrite++ % PIPESIZE] = ch] *)
Definition pipe_put (x : pipe) (ch : Z) : pipe :=
  Pipe (ring_set PIPESIZE (pi_data x) (nwrite x) ch) (nread x) (uint32 (nwrite x + 1)) (readopen x) (writeopen x).
(** [data[nread++ % PIPESIZE]] *)
Definition pipe_head (x : pipe) : Z := ring_get PIPESIZE (pi_data x) (nread x).
Definition pipe_take (x : pipe) : pipe :=
  Pipe (pi_data x) (uint32 (nread x + 1)) (nwrite x) (readopen x) (writeopen x).

(** The loop of [pipewrite] from byte [i] on; a process that slept in it
    resumes here. *)
Fixpoint pipewrite_loop (fuel : nat) (pi addr i n : Z) : K kstate Z :=
  match fuel with
  | O => kdiverge
  | S fuel' =>
      if i <? n then
        x <- piget pi ;;
        me <- myproc ;;
        k <- killed me ;;
        if negb (readopen x) || k then kret (-1)
        else if nwrite x =? uint32 (nread x + PIPESIZE) then
          wakeup (ChPipeRead pi) ;;;
          sleep (ChPipeWrite pi)
        else
          r <- copyin1 (uint64 (addr + i)) ;;
          if fst r =? -1 then wakeup (ChPipeRead pi) ;;; kret i
          else
            piset pi (pipe_put x (nth 0 (snd r) 0)) ;;;
            pipewrite_loop fuel' pi addr (i + 1) n
      else wakeup (ChPipeRead pi) ;;; kret i
  end.

Definition pipewrite (pi addr n : Z) : K kstate Z :=
  pipewrite_loop (S (Z.to_nat n)) pi addr 0 n.

Fixpoint piperead_loop (fuel : nat) (pi addr i n : Z) : K kstate Z :=
  match fuel with
  | O => kdiverge
  | S fuel' =>
      if i <? n then
        x <- piget pi ;;
        if nread x =? nwrite x then kret i
        else
          piset pi (pipe_take x) ;;;
          r <- copyout1 (uint64 (addr + i)) (pipe_head x) ;;
          if r =? -1 then kret i
          else piperead_loop fuel' pi addr (i + 1) n
      else kret i
  end.

Definition piperead (pi addr n : Z) : K kstate Z :=
  x <- piget pi ;;
  me <- myproc ;;
  if (nread x =? nwrite x) && writeopen x then
    k <- killed me ;;
    if k then kret (-1) else sleep (ChPipeRead pi)
  else
    r <- piperead_loop (S (Z.to_nat n)) pi addr 0 n ;;
    wakeup (ChPipeWrite pi) ;;;
    kret r.

(** ** The queue *)

Definition queue (x : pipe) : list Z := ring_list PIPESIZE M32 (pi_data x) (nread x) (nwrite x).

Record pipe_ok (x : pipe) : Prop := {
  po_data : length (pi_data x) = Z.to_nat PIPESIZE;
  po_nread : 0 <= nread x < M32;
  po_nwrite : 0 <= nwrite x < M32;
  po_len : ring_len M32 (nread x) (nwrite x) <= PIPESIZE
}.

Lemma ring512 : 0 < PIPESIZE /\ PIPESIZE < M32 /\ M32 mod PIPESIZE = 0.
Proof. done. Qed.

Lemma length_queue x : length (queue x) = Z.to_nat (ring_len M32 (nread x) (nwrite x)).
Proof. apply length_ring_list. Qed.

Lemma queue_full x : pipe_ok x -> (nwrite x =? uint32 (nread x + PIPESIZE)) = (Z.of_nat (length (queue x)) =? PIPESIZE).
Proof.
  destruct ring512 as (H1 & H2 & H3). intros [D R W L]. apply eq_true_iff_eq. rewrite !Z.eqb_eq.
  unfold uint32. change (2 ^ 32) with M32. rewrite (ring_full PIPESIZE M32) by done.
  rewrite length_queue. pose proof (ring_len_range PIPESIZE M32 H1 H2 (nread x) (nwrite x)). lia.
Qed.

Lemma queue_empty x : pipe_ok x -> (nread x =? nwrite x) = (Z.of_nat (length (queue x)) =? 0).
Proof.
  destruct ring512 as (H1 & H2 & H3). intros [D R W L]. apply eq_true_iff_eq. rewrite !Z.eqb_eq.
  rewrite <- (ring_empty PIPESIZE M32 H1 H2) by done. rewrite length_queue.
  pose proof (ring_len_range PIPESIZE M32 H1 H2 (nread x) (nwrite x)). lia.
Qed.

Lemma pipe_put_ok x ch : pipe_ok x -> Z.of_nat (length (queue x)) <> PIPESIZE ->
  pipe_ok (pipe_put x ch) /\ queue (pipe_put x ch) = queue x ++ [ch].
Proof.
  destruct ring512 as (H1 & H2 & H3). intros [D R W L] Hq. rewrite length_queue in Hq.
  pose proof (ring_len_range PIPESIZE M32 H1 H2 (nread x) (nwrite x)). split; [split; simpl|].
  - unfold ring_set. by rewrite length_insert.
  - done.
  - apply Z.mod_pos_bound. done.
  - unfold uint32. change (2 ^ 32) with M32. rewrite (ring_len_push PIPESIZE) by lia. lia.
  - unfold queue, pipe_put, uint32. cbn [pi_data nread nwrite]. change (2 ^ 32) with M32.
    apply ring_push; try done. lia.
Qed.

Lemma pipe_take_ok x : pipe_ok x -> (0 < length (queue x))%nat ->
  pipe_ok (pipe_take x) /\ queue x = pipe_head x :: queue (pipe_take x).
Proof.
  destruct ring512 as (H1 & H2 & H3). intros [D R W L] Hq. rewrite length_queue in Hq.
  split; [split; simpl|].
  - done.
  - apply Z.mod_pos_bound. done.
  - done.
  - unfold uint32. change (2 ^ 32) with M32. rewrite (ring_len_pop PIPESIZE) by lia. lia.
  - unfold queue, pipe_take, uint32, pipe_head. cbn [pi_data nread nwrite]. change (2 ^ 32) with M32.
    apply ring_pop; try done. lia.
Qed.

(** ** One byte of user memory *)

Lemma walk_from_read level : forall pt va s, exists a, walk_from level pt va false s = Ret a s.
Proof.
  induction level as [|level IH]; intros pt va s; cbn [walk_from]; [by eexists|].
  unfold kbind, kld64. destruct (has _ _); [apply IH|by eexists].
Qed.

Lemma walkaddr_read pt va s : exists a, walkaddr pt va s = Ret a s.
Proof.
  unfold walkaddr, walk. destruct (MAXVA <=? va); [by eexists|].
  destruct (walk_from_read 2 pt va s) as [a Ha]. rewrite (kbind_ret _ _ _ _ _ Ha).
  destruct (a =? 0); [by eexists|]. unfold kbind, kld64.
  repeat (case_match; try by eexists).
Qed.

(** The byte the running process has at [a], if it may read it. *)
Definition user_byte (s : kstate) (a : Z) : option Z :=
  match copyin1 a s with
  | Ret (0, [b]) _ => Some b
  | _ => None
  end.

Lemma copyin1_spec s a : 0 <= a < 2 ^ 64 ->
  copyin1 a s = Ret (match user_byte s a with Some b => (0, [b]) | None => (-1, []) end) s.
Proof.
  intros Ha. assert (copyin1 a s = Ret (-1, []) s \/ exists b, copyin1 a s = Ret (0, [b]) s) as [H|[b H]].
  2-3: by unfold user_byte; rewrite !H.
  unfold copyin1, mine. cbn [kbind].
  set (pt := p_pagetable (getp s (k_me s))).
  assert (copyin pt a 1 (mem_of s) = Ret (-1, []) (mem_of s) \/
    exists b, copyin pt a 1 (mem_of s) = Ret (0, [b]) (mem_of s)) as [H|[b H]].
  - unfold copyin. change (Z.to_nat 1) with 1%nat. cbn [copyin_loop].
    change (0 <? 1) with true. cbv iota zeta.
    destruct (walkaddr_read pt (PGROUNDDOWN a) (mem_of s)) as [pa Hpa]. rewrite (kbind_ret _ _ _ _ _ Hpa).
    destruct (pa =? 0); [by left|]. right.
    assert ((if 1 <? PGSIZE - (a - PGROUNDDOWN a) then 1 else PGSIZE - (a - PGROUNDDOWN a)) = 1) as ->.
    { rewrite PGROUNDDOWN_eq by lia. unfold PGSIZE. destruct (Z.ltb_spec 1 (4096 - (a - (a - a mod 4096)))); [done|].
      Z.div_mod_to_equations. lia. }
    unfold kread, kbind at 1. cbv beta iota. change (Z.to_nat 1) with 1%nat. cbn [read_bytes].
    change (1 - 1) with 0. change (0 <? 0) with false. by eexists.
  - left. unfold kbind. rewrite (kmemop_ret _ _ _ _ H). by rewrite with_mem_same.
  - right. exists b. unfold kbind. rewrite (kmemop_ret _ _ _ _ H). by rewrite with_mem_same.
Qed.

Lemma user_byte_pipes P s a : user_byte (with_pipes P s) a = user_byte s a.
Proof.
  unfold user_byte, copyin1, mine, kbind, kmemop, liftF, liftM.
  change (getp (with_pipes P s) (k_me (with_pipes P s))) with (getp s (k_me s)).
  change (enter_fs (with_pipes P s)) with (enter_fs s).
  destruct (copyin _ _ _ _) as [[r bs] ?|?|?|]; try done.
Qed.

(** ** pipewrite *)

Lemma pipewrite_loop_S fuel pi addr i n :
  pipewrite_loop (S fuel) pi addr i n =
    (if i <? n then
        x <- piget pi ;;
        me <- myproc ;;
        k <- killed me ;;
        if negb (readopen x) || k then kret (-1)
        else if nwrite x =? uint32 (nread x + PIPESIZE) then
          wakeup (ChPipeRead pi) ;;;
          sleep (ChPipeWrite pi)
        else
          r <- copyin1 (uint64 (addr + i)) ;;
          if fst r =? -1 then wakeup (ChPipeRead pi) ;;; kret i
          else
            piset pi (pipe_put x (nth 0 (snd r) 0)) ;;;
            pipewrite_loop fuel pi addr (i + 1) n
      else wakeup (ChPipeRead pi) ;;; kret i).
Proof. done. Qed.

(** How a write ends, having put [bs] of its bytes into the pipe. *)
Inductive write_end (s : kstate) (pi addr i n : Z) (bs : list Z) (P : gmap Z pipe) (x' : pipe) :
  outcome kstate Z -> Prop :=
| write_done s' : k_pipes s' = P -> k_fs s' = k_fs s ->
    i + Z.of_nat (length bs) = n \/ user_byte s (uint64 (addr + (i + Z.of_nat (length bs)))) = None ->
    write_end s pi addr i n bs P x' (Ret (i + Z.of_nat (length bs)) s')
| write_sleep s' : k_pipes s' = P -> k_fs s' = k_fs s ->
    Z.of_nat (length (queue x')) = PIPESIZE -> i + Z.of_nat (length bs) < n ->
    write_end s pi addr i n bs P x' (Sleep s').

Lemma pipewrite_loop_ok fuel : forall s x pi addr i n,
  k_pipes s !! pi = Some x -> pipe_ok x -> readopen x = true -> p_killed (getp s (k_me s)) = false ->
  i <= n -> n - i < Z.of_nat fuel ->
  exists bs x', pipe_ok x' /\ queue x' = queue x ++ bs /\ readopen x' = true /\ writeopen x' = writeopen x /\
    (forall j b, bs !! j = Some b -> user_byte s (uint64 (addr + (i + Z.of_nat j))) = Some b) /\
    write_end s pi addr i n bs (<[pi := x']> (k_pipes s)) x' (pipewrite_loop fuel pi addr i n s).
Proof.
  induction fuel as [|fuel IH]; intros s x pi addr i n Hx Ho Hr Hk Hi Hf; [lia|]. rewrite pipewrite_loop_S.
  assert (forall e : outcome kstate Z, write_end s pi addr i n [] (<[pi := x]> (k_pipes s)) x e ->
    exists bs x', pipe_ok x' /\ queue x' = queue x ++ bs /\ readopen x' = true /\ writeopen x' = writeopen x /\
    (forall j b, bs !! j = Some b -> user_byte s (uint64 (addr + (i + Z.of_nat j))) = Some b) /\
    write_end s pi addr i n bs (<[pi := x']> (k_pipes s)) x' e) as Hstop.
  { intros e He. exists [], x. rewrite app_nil_r. done. }
  assert (<[pi := x]> (k_pipes s) = k_pipes s) as Hid by by apply insert_id.
  destruct (i <? n) eqn:E; [apply Z.ltb_lt in E|apply Z.ltb_ge in E].
  2:{ apply Hstop. rewrite Hid. unfold kbind, wakeup, kret. replace i with (i + Z.of_nat (length (@nil Z))) at 2 by (simpl; lia).
      constructor; try done. simpl. lia. }
  unfold kbind at 1, piget at 1. rewrite Hx. unfold kbind at 1, myproc at 1. unfold kbind at 1, killed, kbind at 1, pget, kret at 1.
  rewrite Hr, Hk. cbn [negb orb]. rewrite queue_full by done.
  destruct (Z.eqb_spec (Z.of_nat (length (queue x))) PIPESIZE) as [Hq|Hq].
  { apply Hstop. rewrite Hid. unfold kbind, wakeup, sleep, sleep_on. constructor; try done. simpl. lia. }
  rewrite (kbind_ret _ _ _ _ _ (copyin1_spec s (uint64 (addr + i)) (uint64_range _))).
  destruct (user_byte s (uint64 (addr + i))) as [b|] eqn:Eb; cbn [fst snd].
  2:{ apply Hstop. rewrite Hid. change (-1 =? -1) with true. cbv iota.
      unfold kbind, wakeup, kret. replace i with (i + Z.of_nat (length (@nil Z))) at 2 by (simpl; lia).
      constructor; try done. right. simpl. by rewrite Z.add_0_r. }
  change (0 =? -1) with false. cbv iota. unfold kbind at 1, piset. cbn [nth].
  destruct (pipe_put_ok x b Ho Hq) as [Ho' Hq'].
  set (s1 := with_pipes (<[pi:=pipe_put x b]> (k_pipes s)) s).
  destruct (IH s1 (pipe_put x b) pi addr (i + 1) n) as (bs & x' & H1 & H2 & H3 & H4 & H5 & H6);
    try done; try lia; [apply lookup_insert_eq|].
  exists (b :: bs), x'. split; [done|]. split; [rewrite H2, Hq', <- app_assoc; done|].
  split; [done|]. split; [by rewrite H4|]. split.
  - intros [|j] b' Hb; simpl in Hb; [simplify_eq; by rewrite Z.add_0_r|].
    specialize (H5 j b' Hb). unfold s1 in H5. rewrite user_byte_pipes in H5.
    by replace (i + Z.of_nat (S j)) with (i + 1 + Z.of_nat j) by lia.
  - change (with_pipes _ s) with s1. unfold s1 in H6 at 2. cbn [k_pipes with_pipes] in H6. rewrite insert_insert_eq in H6.
    change (with_pipes _ s) with s1 in H6.
    inversion H6 as [s' A1 A2 A3 A4|s' A1 A2 A3 A4 A5].
    + replace (i + 1 + Z.of_nat (length bs)) with (i + Z.of_nat (length (b :: bs))) by (simpl; lia).
      constructor; try done. destruct A3 as [A3|A3]; [left; simpl; lia|right].
      unfold s1 in A3. rewrite user_byte_pipes in A3.
      by replace (i + Z.of_nat (length (b :: bs))) with (i + 1 + Z.of_nat (length bs)) by (simpl; lia).
    + constructor; try done. simpl. lia.
Qed.

(** ** piperead *)

(** Copying the bytes [bs] out one by one, up to the first failure; the
    result is how far it got. *)
Fixpoint deliver (addr i : Z) (bs : list Z) : K kstate Z :=
  match bs with
  | [] => kret i
  | b :: bs' =>
      r <- copyout1 (uint64 (addr + i)) b ;;
      if r =? -1 then kret i else deliver addr (i + 1) bs'
  end.

Lemma copyout1_pipes P a b s :
  copyout1 a b (with_pipes P s) =
    match copyout1 a b s with
    | Ret r s' => Ret r (with_pipes P s')
    | Panic msg => Panic msg
    | Sleep s' => Sleep (with_pipes P s')
    | Diverge => Diverge
    end.
Proof.
  unfold copyout1, mine, kbind, kmemop, liftF, liftM.
  change (getp (with_pipes P s) (k_me (with_pipes P s))) with (getp s (k_me s)).
  change (enter_fs (with_pipes P s)) with (enter_fs s).
  by destruct (copyout _ _ _ _).
Qed.

Lemma copyout1_keeps a b s r s' : copyout1 a b s = Ret r s' -> k_pipes s' = k_pipes s.
Proof.
  unfold copyout1, mine, kbind, kmemop, liftF, liftM. by destruct (copyout _ _ _ _); intros [= <- <-].
Qed.

Lemma deliver_pipes P addr bs : forall i s,
  deliver addr i bs (with_pipes P s) =
    match deliver addr i bs s with
    | Ret r s' => Ret r (with_pipes P s')
    | Panic msg => Panic msg
    | Sleep s' => Sleep (with_pipes P s')
    | Diverge => Diverge
    end.
Proof.
  induction bs as [|b bs IH]; intros i s; [done|]. cbn [deliver]. unfold kbind. rewrite copyout1_pipes.
  destruct (copyout1 _ b s) as [r s'| | |]; try done. destruct (r =? -1); [done|]. apply IH.
Qed.

Lemma piperead_loop_S fuel pi addr i n :
  piperead_loop (S fuel) pi addr i n =
    (if i <? n then
        x <- piget pi ;;
        if nread x =? nwrite x then kret i
        else
          piset pi (pipe_take x) ;;;
          r <- copyout1 (uint64 (addr + i)) (pipe_head x) ;;
          if r =? -1 then kret i
          else piperead_loop fuel pi addr (i + 1) n
      else kret i).
Proof. done. Qed.

Lemma with_pipes_id s : with_pipes (k_pipes s) s = s.
Proof. by destruct s. Qed.

Lemma piperead_loop_ok fuel : forall s s1 x pi addr i n k,
  k_pipes s !! pi = Some x -> pipe_ok x -> i <= n -> n - i < Z.of_nat fuel ->
  let out := take (Z.to_nat (n - i)) (queue x) in
  deliver addr i out s = Ret k s1 ->
  exists x', piperead_loop fuel pi addr i n s = Ret k (with_pipes (<[pi := x']> (k_pipes s)) s1) /\ pipe_ok x' /\
    readopen x' = readopen x /\ writeopen x' = writeopen x /\ i <= k <= i + Z.of_nat (length out) /\
    queue x' = drop (Z.to_nat (k - i) + (if k - i =? Z.of_nat (length out) then 0 else 1)) (queue x).
Proof.
  induction fuel as [|fuel IH]; intros s s1 x pi addr i n k Hx Ho Hi Hf out Hd.
  { assert (out = []) as E by (unfold out; by replace (Z.to_nat (n - i)) with 0%nat by lia).
    rewrite E in Hd. change (Ret i s = Ret k s1) in Hd. injection Hd as <- <-. lia. }
  rewrite piperead_loop_S.
  assert (out = [] -> k = i /\ s1 = s) as Hnil by (intros E; rewrite E in Hd; change (Ret i s = Ret k s1) in Hd; by injection Hd).
  assert (out = [] -> exists x', Ret i s = Ret k (with_pipes (<[pi := x']> (k_pipes s)) s1) /\ pipe_ok x' /\
    readopen x' = readopen x /\ writeopen x' = writeopen x /\ i <= k <= i + Z.of_nat (length out) /\
    queue x' = drop (Z.to_nat (k - i) + (if k - i =? Z.of_nat (length out) then 0 else 1)) (queue x)) as Hstop.
  { intros E. destruct (Hnil E) as [-> ->]. exists x. rewrite E, insert_id, with_pipes_id by done.
    rewrite Z.sub_diag. simpl. repeat (split; [done || lia|]). done. }
  destruct (i <? n) eqn:E; [apply Z.ltb_lt in E|apply Z.ltb_ge in E].
  2:{ apply Hstop. unfold out. by replace (Z.to_nat (n - i)) with 0%nat by lia. }
  unfold kbind at 1, piget at 1. rewrite Hx, queue_empty by done.
  destruct (Z.eqb_spec (Z.of_nat (length (queue x))) 0) as [Hq|Hq].
  { apply Hstop. unfold out. destruct (queue x); [by rewrite take_nil|simpl in Hq; lia]. }
  destruct (pipe_take_ok x Ho ltac:(lia)) as [Ho' Hq']. unfold kbind at 1, piset at 1.
  assert (out = pipe_head x :: take (Z.to_nat (n - (i + 1))) (queue (pipe_take x))) as Hout.
  { unfold out. rewrite Hq'. by replace (Z.to_nat (n - i)) with (S (Z.to_nat (n - (i + 1)))) by lia. }
  rewrite Hout in Hd. cbn [deliver] in Hd. apply kbind_inv in Hd as (r & s2 & E1 & Hd).
  unfold kbind at 1. rewrite copyout1_pipes, E1. destruct (r =? -1).
  - injection Hd as <- <-. exists (pipe_take x). rewrite Z.sub_diag, Hout. simpl length.
    rewrite (proj2 (Z.eqb_neq _ _)) by lia. repeat (split; [done || lia|]). by rewrite Hq'.
  - set (s3 := with_pipes (<[pi:=pipe_take x]> (k_pipes s)) s2).
    assert (deliver addr (i + 1) (take (Z.to_nat (n - (i + 1))) (queue (pipe_take x))) s3 =
      Ret k (with_pipes (<[pi:=pipe_take x]> (k_pipes s)) s1)) as Hd' by (unfold s3; by rewrite deliver_pipes, Hd).
    destruct (IH s3 _ (pipe_take x) pi addr (i + 1) n k (lookup_insert_eq _ _ _) Ho' ltac:(lia) ltac:(lia) Hd')
      as (x' & H1 & H2 & H3 & H4 & H5 & H6).
    exists x'. rewrite H1. unfold s3. cbn [k_pipes with_pipes]. rewrite insert_insert_eq.
    split; [done|]. split; [done|]. split; [done|]. split; [done|]. rewrite Hout. cbn [length] in *. split; [lia|].
    rewrite H6, Hq'. replace (Z.to_nat (k - i)) with (S (Z.to_nat (k - (i + 1)))) by lia. cbn [Nat.add drop].
    destruct (Z.eqb_spec (k - i) (Z.of_nat (S (length (take (Z.to_nat (n - (i + 1))) (queue (pipe_take x)))))));
      destruct (Z.eqb_spec (k - (i + 1)) (Z.of_nat (length (take (Z.to_nat (n - (i + 1))) (queue (pipe_take x))))));
      try lia; done.
Qed.

(** C20: A write to a pipe whose reading end is open, by a process that is not
    killed, appends to the pipe's queue exactly the bytes the writer has at
    [addr], in order, and returns their number: all [n] of them, or as many as
    the writer may read.  It sleeps only when the queue holds PIPESIZE bytes;
    the pipe stays well formed, the counters wrapping around included. *)
Theorem pipewrite_appends s x pi addr n :
  k_pipes s !! pi = Some x -> pipe_ok x -> readopen x = true -> p_killed (getp s (k_me s)) = false -> 0 <= n ->
  exists bs x', pipe_ok x' /\ queue x' = queue x ++ bs /\
    (forall j b, bs !! j = Some b -> user_byte s (uint64 (addr + Z.of_nat j)) = Some b) /\
    write_end s pi addr 0 n bs (<[pi := x']> (k_pipes s)) x' (pipewrite pi addr n s).
Proof.
  intros Hx Ho Hr Hk Hn.
  destruct (pipewrite_loop_ok (S (Z.to_nat n)) s x pi addr 0 n) as (bs & x' & H1 & H2 & H3 & H4 & H5 & H6);
    try done; [lia|]. by exists bs, x'.
Qed.

(** C21: A read from a pipe that is not empty, or has no writer, removes from
    the front of the queue the bytes it copies out to the reader, in order;
    if every copy succeeds it returns [min n (length of the queue)], and the
    rest of the queue stays.  A byte whose copy fails is lost. *)
Theorem piperead_removes s s1 x pi addr n k :
  k_pipes s !! pi = Some x -> pipe_ok x -> queue x <> [] \/ writeopen x = false -> 0 <= n ->
  let out := take (Z.to_nat n) (queue x) in
  deliver addr 0 out s = Ret k s1 ->
  exists x' s2, piperead pi addr n s = Ret k s2 /\ k_pipes s2 = <[pi := x']> (k_pipes s) /\ k_fs s2 = k_fs s1 /\
    pipe_ok x' /\ 0 <= k <= Z.of_nat (length out) /\
    queue x' = drop (Z.to_nat k + (if k =? Z.of_nat (length out) then 0 else 1)) (queue x).
Proof.
  intros Hx Ho Hw Hn out Hd. unfold piperead. unfold kbind at 1, piget at 1. rewrite Hx. unfold kbind at 1, myproc at 1.
  rewrite queue_empty by done.
  assert ((Z.of_nat (length (queue x)) =? 0) && writeopen x = false) as ->.
  { destruct Hw as [Hw| ->]; [|by rewrite andb_false_r]. destruct (queue x); [done|]. done. }
  destruct (piperead_loop_ok (S (Z.to_nat n)) s s1 x pi addr 0 n k) as (x' & H1 & H2 & H3 & H4 & H5 & H6);
    rewrite ?Z.sub_0_r in *; try done; [lia|].
  rewrite (kbind_ret _ _ _ _ _ H1). exists x'. eexists. split; [reflexivity|]. done.
Qed.

End pipe.

Lemma pipewrite_appends_witness :
  let x := Pipe (replicate (Z.to_nat PIPESIZE) 0) 0 0 true true in
  let s := with_pipes (<[7 := x]> ∅) kstate0 in
  exists bs x', pipe_ok x' /\ queue x' = queue x ++ bs /\
    (forall j b, bs !! j = Some b -> user_byte s (uint64 (0 + Z.of_nat j)) = Some b) /\
    write_end s 7 0 0 3 bs (<[7 := x']> (k_pipes s)) x' (pipewrite 7 0 3 s).
Proof.
  intros x s. apply (pipewrite_appends s x 7 0 3); [reflexivity|by split|reflexivity|reflexivity|lia].
Defined.

Definition pipe1 : pipe := Pipe (5 :: 6 :: 7 :: replicate 509 0) 0 3 true true.
Definition kstate1 : kstate := with_pipes (<[7 := pipe1]> ∅) kstate0.

Lemma pipe1_ok : pipe_ok pipe1 /\ queue pipe1 <> [].
Proof. split; [by split|by vm_compute]. Qed.

Lemma piperead_removes_witness : exists x' s2, piperead 7 0 2 kstate1 = Ret 2 s2 /\ pipe_ok x' /\ queue x' = [7].
Proof.
  assert (is_ret (deliver 0 0 (take (Z.to_nat 2) (queue pipe1)) kstate1) = true) as Hret by (vm_compute; reflexivity).
  destruct (is_ret_true _ Hret) as (k & s1 & Hd). clear Hret.
  assert (k = 2) as ->.
  { change k with (match Ret k s1 with Ret k _ => k | _ => 0 end). rewrite <- Hd. vm_compute. reflexivity. }
  pose proof (piperead_removes kstate1 s1 pipe1 7 0 2 2 eq_refl (proj1 pipe1_ok) (or_introl (proj2 pipe1_ok)) ltac:(lia) Hd) as (x' & s2 & H1 & _ & _ & H2 & _ & H3).
  exists x', s2. split; [exact H1|]. split; [exact H2|]. rewrite H3. vm_compute. reflexivity.
Defined.
