(* ===== verification/Console.v ===== *)
(** * The console and the UART (kernel/console.c, kernel/uart.c)

    The UART's transmit ring buffer and the console's line editing, over the
    kernel state.  What the device answers when its line status register is
    read is the list [lsr_idle] of the state, so the theorems hold for every
    behaviour of the device. *)

From S2P Require Import Prelude Memory KString Kalloc Vm Bytes Sleeplock Bio Log Fs FsFile Ring KState Machine.

(** ** uart.c *)

Definition umod (f : uart -> uart) : K kstate unit := fun s => Ret tt (with_uart (f (k_uart s)) s).

(** [ReadReg(LSR) & LSR_TX_IDLE] *)
Definition read_lsr (u : uart) : bool * uart :=
  match lsr_idle u with
  | [] => (false, u)
  | b :: bs => (b, Uart (tx_buf u) (tx_w u) (tx_r u) bs (thr u))
  end.

(** [WriteReg(THR, c)] *)
Definition write_thr (c : Z) (u : uart) : uart :=
  Uart (tx_buf u) (tx_w u) (tx_r u) (lsr_idle u) (thr u ++ [uint8 c]).

(** [uart_tx_r += 1] *)
Definition uart_take (u : uart) : uart :=
  Uart (tx_buf u) (tx_w u) (uint64 (tx_r u + 1)) (lsr_idle u) (thr u).

Fixpoint uartstart_loop (fuel : nat) : K kstate unit :=
  match fuel with
  | O => kdiverge
  | S fuel' =>
      s <- kget ;;
      let u := k_uart s in
      if tx_w u =? tx_r u then kret tt
      else
        let (idle, u) := read_lsr u in
        kmod (with_uart u) ;;;
        if negb idle then kret tt
        else
          let c := ring_get UART_TX_BUF_SIZE (tx_buf u) (tx_r u) in
          umod uart_take ;;;
          wakeup ChUart ;;;
          umod (write_thr c) ;;;
          uartstart_loop fuel'
  end.

(** The transmit buffer holds at most UART_TX_BUF_SIZE bytes. *)
Definition uartstart : K kstate unit := uartstart_loop (S (Z.to_nat UART_TX_BUF_SIZE)).

(** [uart_tx_buf[uart_tx_w % UART_TX_BUF_SIZE] = c; uart_tx_w += 1;] *)
Definition uart_put (c : Z) (u : uart) : uart :=
  Uart (ring_set UART_TX_BUF_SIZE (tx_buf u) (tx_w u) (uint8 c)) (uint64 (tx_w u + 1)) (tx_r u) (lsr_idle u) (thr u).

(** [uartputc] and [uartputc_sync] begin with [if(panicked) for(;;);]: after a
    panic, which ends a run of the model, no other CPU sends anything more. *)
Definition uartputc (c : Z) : K kstate unit :=
  s <- kget ;;
  let u := k_uart s in
  if tx_w u =? uint64 (tx_r u + UART_TX_BUF_SIZE) then sleep ChUart
  else umod (uart_put c) ;;; uartstart.

(** Spin until the device is idle, then send. *)
Fixpoint lsr_wait (l : list bool) : option (list bool) :=
  match l with
  | [] => None
  | true :: l' => Some l'
  | false :: l' => lsr_wait l'
  end.

Definition uartputc_sync (c : Z) : K kstate unit :=
  s <- kget ;;
  let u := k_uart s in
  match lsr_wait (lsr_idle u) with
  | None => kdiverge
  | Some l => kmod (with_uart (write_thr c (Uart (tx_buf u) (tx_w u) (tx_r u) l (thr u))))
  end.

(** ** console.c *)

Definition BACKSPACE : Z := 0x100.
Definition Ctrl (x : Z) : Z := x - 64.

Definition consputc (c : Z) : K kstate unit :=
  if c =? BACKSPACE then uartputc_sync 8 ;;; uartputc_sync 32 ;;; uartputc_sync 8
  else uartputc_sync c.

Definition cmod (f : console -> console) : K kstate unit := fun s => Ret tt (with_cons (f (k_cons s)) s).
Definition set_r n c := Console (cons_buf c) n (cons_w c) (cons_e c).
Definition set_w n c := Console (cons_buf c) (cons_r c) n (cons_e c).
Definition set_e n c := Console (cons_buf c) (cons_r c) (cons_w c) n.
Definition cons_at (c : console) (i : Z) : Z := ring_get INPUT_BUF_SIZE (cons_buf c) i.

Section console.
Context `{I : KernelImage}.

(** [consolewrite] from byte [i] on; a process that slept in [uartputc]
    resumes there and then continues here. *)
Fixpoint consolewrite_loop (k : nat) (src : source) (i n : Z) : K kstate Z :=
  match k with
  | O => kret i
  | S k' =>
      if i <? n then
        r <- liftF (either_copyin src i 1) ;;
        if fst r =? -1 then kret i
        else uartputc (nth 0 (snd r) 0) ;;; consolewrite_loop k' src (i + 1) n
      else kret i
  end.

Definition consolewrite (src : source) (n : Z) : K kstate Z :=
  consolewrite_loop (S (Z.to_nat n)) src 0 n.

(** The outer loop of [consoleread], with [n] bytes still wanted. *)
Fixpoint consoleread_loop (fuel : nat) (user_dst : bool) (dst n target : Z) : K kstate Z :=
  match fuel with
  | O => kdiverge
  | S fuel' =>
      if 0 <? n then
        s <- kget ;;
        let c := k_cons s in
        if cons_r c =? cons_w c then
          me <- myproc ;;
          k <- killed me ;;
          if k then kret (-1) else sleep ChCons
        else
          let ch := cons_at c (cons_r c) in
          cmod (set_r (uint32 (cons_r c + 1))) ;;;
          if ch =? Ctrl 68 then
            (if uint32 n <? target then cmod (set_r (cons_r c)) else kret tt) ;;;
            kret (int32 (target - n))
          else
            r <- liftF (either_copyout user_dst dst [ch]) ;;
            if r =? -1 then kret (int32 (target - n))
            else if ch =? 10 then kret (int32 (target - (n - 1)))
            else consoleread_loop fuel' user_dst (uint64 (dst + 1)) (n - 1) target
      else kret (int32 (target - n))
  end.

Definition consoleread (user_dst : bool) (dst n : Z) : K kstate Z :=
  consoleread_loop (S (Z.to_nat n)) user_dst dst n (uint32 n).

(** [while(cons.e != cons.w && cons.buf[(cons.e-1) % SIZE] != '\n')]: the
    loop of control-U; the edit index is at most INPUT_BUF_SIZE ahead. *)
Fixpoint kill_line (fuel : nat) : K kstate unit :=
  match fuel with
  | O => kdiverge
  | S fuel' =>
      s <- kget ;;
      let c := k_cons s in
      if negb (cons_e c =? cons_w c) && negb (cons_at c (uint32 (cons_e c - 1)) =? 10) then
        cmod (set_e (uint32 (cons_e c - 1))) ;;;
        consputc BACKSPACE ;;;
        kill_line fuel'
      else kret tt
  end.

(** [cons.buf[cons.e++ % INPUT_BUF_SIZE] = c] *)
Definition cons_store (ch : Z) (c : console) : console :=
  Console (ring_set INPUT_BUF_SIZE (cons_buf c) (cons_e c) (uint8 ch)) (cons_r c) (cons_w c) (uint32 (cons_e c + 1)).

(** The default case of [consoleintr]. *)
Definition cons_input (c : Z) : K kstate unit :=
  s <- kget ;;
  if negb (c =? 0) && (uint32 (cons_e (k_cons s) - cons_r (k_cons s)) <? INPUT_BUF_SIZE) then
    let c := if c =? 13 then 10 else c in
    consputc c ;;;
    cmod (cons_store c) ;;;
    s <- kget ;;
    let x := k_cons s in
    if (c =? 10) || (c =? Ctrl 68) || (uint32 (cons_e x - cons_r x) =? INPUT_BUF_SIZE) then
      cmod (set_w (cons_e x)) ;;;
      wakeup ChCons
    else kret tt
  else kret tt.

(** [consoleintr]; the process listing of control-P is printed without
    changing the state. *)
Definition consoleintr (c : Z) : K kstate unit :=
  if c =? Ctrl 80 then kret tt
  else if c =? Ctrl 85 then kill_line (S (Z.to_nat INPUT_BUF_SIZE))
  else if (c =? Ctrl 72) || (c =? 127) then
    s <- kget ;;
    let x := k_cons s in
    if negb (cons_e x =? cons_w x) then
      cmod (set_e (uint32 (cons_e x - 1))) ;;;
      consputc BACKSPACE
    else kret tt
  else cons_input c.

(** [uartintr] with the characters the receiver delivers. *)
Fixpoint uartintr (input : list Z) : K kstate unit :=
  match input with
  | [] => uartstart
  | c :: input' => consoleintr c ;;; uartintr input'
  end.

End console.

(** ** The transmitter is a queue *)

Definition pending (u : uart) : list Z := ring_list UART_TX_BUF_SIZE M64 (tx_buf u) (tx_r u) (tx_w u).

Record uart_ok (u : uart) : Prop := {
  uo_buf : length (tx_buf u) = Z.to_nat UART_TX_BUF_SIZE;
  uo_byte : Forall (fun b => 0 <= b < 256) (tx_buf u);
  uo_r : 0 <= tx_r u < M64;
  uo_w : 0 <= tx_w u < M64;
  uo_len : ring_len M64 (tx_r u) (tx_w u) <= UART_TX_BUF_SIZE
}.

Lemma ring32 : 0 < UART_TX_BUF_SIZE /\ UART_TX_BUF_SIZE < M64 /\ M64 mod UART_TX_BUF_SIZE = 0.
Proof. done. Qed.

Lemma length_pending u : uart_ok u -> Z.of_nat (length (pending u)) = ring_len M64 (tx_r u) (tx_w u).
Proof.
  intros H. unfold pending. rewrite length_ring_list.
  destruct ring32 as (H1 & H2 & _). pose proof (ring_len_range UART_TX_BUF_SIZE M64 H1 H2 (tx_r u) (tx_w u)). lia.
Qed.

Lemma uart_take_ok u : uart_ok u -> pending u <> [] ->
  uart_ok (uart_take u) /\ pending u = ring_get UART_TX_BUF_SIZE (tx_buf u) (tx_r u) :: pending (uart_take u) /\
  0 <= ring_get UART_TX_BUF_SIZE (tx_buf u) (tx_r u) < 256.
Proof.
  destruct ring32 as (H1 & H2 & H3). intros Ho Hq. pose proof (length_pending u Ho) as Hl. destruct Ho as [B Y R W L].
  assert (0 < ring_len M64 (tx_r u) (tx_w u)) by (destruct (pending u); simpl in *; [done|lia]).
  split; [split; simpl; try done|split].
  - apply Z.mod_pos_bound. done.
  - unfold uint64. change (2 ^ 64) with M64. rewrite (ring_len_pop UART_TX_BUF_SIZE) by lia. lia.
  - unfold pending, uart_take, uint64. cbn [tx_buf tx_r tx_w]. change (2 ^ 64) with M64. by apply ring_pop.
  - unfold ring_get. pose proof (Z.mod_pos_bound (tx_r u) UART_TX_BUF_SIZE H1).
    rewrite Forall_lookup in Y. apply (Y (Z.to_nat (tx_r u mod UART_TX_BUF_SIZE))).
    rewrite nth_lookup. destruct (lookup_lt_is_Some_2 (tx_buf u) (Z.to_nat (tx_r u mod UART_TX_BUF_SIZE))) as [b ->]; [|done].
    rewrite B. lia.
Qed.

Lemma uart_put_ok u c : uart_ok u -> Z.of_nat (length (pending u)) < UART_TX_BUF_SIZE ->
  uart_ok (uart_put c u) /\ pending (uart_put c u) = pending u ++ [uint8 c].
Proof.
  destruct ring32 as (H1 & H2 & H3). intros Ho Hq. rewrite length_pending in Hq by done. destruct Ho as [B Y R W L].
  pose proof (ring_len_range UART_TX_BUF_SIZE M64 H1 H2 (tx_r u) (tx_w u)).
  split; [split; simpl; try done|].
  - unfold ring_set. by rewrite length_insert.
  - unfold ring_set. apply Forall_insert; [done|apply uint8_range].
  - apply Z.mod_pos_bound. done.
  - unfold uint64. change (2 ^ 64) with M64. rewrite (ring_len_push UART_TX_BUF_SIZE) by lia. lia.
  - unfold pending, uart_put, uint64. cbn [tx_buf tx_r tx_w]. change (2 ^ 64) with M64. by apply ring_push.
Qed.

Lemma uart_empty u : uart_ok u -> (tx_w u =? tx_r u) = true <-> pending u = [].
Proof.
  destruct ring32 as (H1 & H2 & H3). intros Ho. pose proof (length_pending u Ho) as Hl. destruct Ho as [B Y R W L].
  rewrite Z.eqb_eq. split.
  - intros E. destruct (pending u); [done|]. assert (ring_len M64 (tx_r u) (tx_w u) = 0); [|simpl in Hl; lia].
    by apply (ring_empty UART_TX_BUF_SIZE).
  - intros E. rewrite E in Hl. symmetry. apply (ring_empty UART_TX_BUF_SIZE M64); [done..|]. simpl in Hl. lia.
Qed.

Lemma read_lsr_ok u : uart_ok u ->
  uart_ok (snd (read_lsr u)) /\ pending (snd (read_lsr u)) = pending u /\ thr (snd (read_lsr u)) = thr u /\
  tx_buf (snd (read_lsr u)) = tx_buf u /\ tx_r (snd (read_lsr u)) = tx_r u.
Proof. intros [B Y R W L]. unfold read_lsr. by destruct (lsr_idle u). Qed.

(** [uartstart] moves bytes from the buffer to the device, oldest first. *)
Lemma uartstart_loop_ok fuel : forall s, uart_ok (k_uart s) -> (length (pending (k_uart s)) < fuel)%nat ->
  exists s', uartstart_loop fuel s = Ret tt s' /\ uart_ok (k_uart s') /\
    thr (k_uart s') ++ pending (k_uart s') = thr (k_uart s) ++ pending (k_uart s) /\
    (pending (k_uart s') = [] \/ exists l, lsr_idle (k_uart s) = l ++ lsr_idle (k_uart s') /\ last l = Some false
       \/ lsr_idle (k_uart s') = []).
Proof.
  induction fuel as [|fuel IH]; intros s Ho Hf; [lia|]. cbn [uartstart_loop]. unfold kbind at 1, kget at 1. cbv zeta.
  destruct (tx_w (k_uart s) =? tx_r (k_uart s)) eqn:E.
  { apply uart_empty in E; [|done]. exists s. split; [done|]. split; [done|]. split; [done|]. by left. }
  assert (pending (k_uart s) <> []) as Hne by (rewrite <- uart_empty by done; congruence).
  destruct (read_lsr_ok _ Ho) as (Ho1 & Hp1 & Ht1 & Hb1 & Hr1). unfold read_lsr in *.
  destruct (lsr_idle (k_uart s)) as [|b l] eqn:El; cbn [snd] in *.
  { cbv iota. unfold kbind at 1, kmod at 1. cbn [negb]. eexists. split; [reflexivity|]. split; [done|]. split; [done|].
    right. exists []. right. simpl. done. }
  set (u := Uart _ _ _ l _) in *. unfold kbind at 1, kmod at 1. destruct b; cbn [negb].
  2:{ eexists. split; [reflexivity|]. split; [done|]. split; [done|]. right. exists [false]. by left. }
  unfold kbind at 1, umod at 1. unfold kbind at 1, wakeup at 1. unfold kbind at 1, umod at 1.
  cbn [k_uart with_uart with_proc].
  destruct (uart_take_ok u Ho1) as (Ho2 & Hp2 & Hc); [by rewrite Hp1|].
  set (c := ring_get _ (tx_buf u) (tx_r u)) in *.
  match goal with |- context [uartstart_loop fuel ?x] => set (s2 := x) end.
  assert (k_uart s2 = write_thr c (uart_take u)) as Hu2 by done.
  assert (pending (k_uart s2) = pending (uart_take u)) as Hp3 by done.
  destruct (IH s2) as (s3 & E3 & Ho3 & Ht3 & Hend).
  { rewrite Hu2. by destruct Ho2. }
  { rewrite Hp3. rewrite <- Hp1, Hp2 in Hf. simpl in Hf. lia. }
  exists s3. split; [exact E3|]. split; [done|]. split.
  - rewrite Ht3, Hp3, Hu2. cbn [thr write_thr uart_take]. rewrite uint8_small by done.
    rewrite <- app_assoc. cbn [app]. rewrite <- Hp2, Hp1. done.
  - destruct Hend as [?|(l' & [[Hl Hlast]|Hl])]; [by left| |]; right.
    + exists (true :: l'). left. split; [simpl; rewrite <- Hl; done|]. by destruct l'.
    + exists []. by right.
Qed.

(** The UART output buffer is a first-in first-out queue: whatever the
    device answers, [uartputc] either sleeps with the buffer full and nothing
    changed, or accepts the byte, and the bytes sent followed by the bytes
    still buffered are those of before followed by the new one.  It stops
    sending only when the buffer is empty or the device was not idle. *)
Theorem uartputc_fifo s c : uart_ok (k_uart s) ->
  (Z.of_nat (length (pending (k_uart s))) = UART_TX_BUF_SIZE /\
     exists s', uartputc c s = Sleep s' /\ k_uart s' = k_uart s) \/
  (Z.of_nat (length (pending (k_uart s))) < UART_TX_BUF_SIZE /\
     exists s', uartputc c s = Ret tt s' /\ uart_ok (k_uart s') /\
       thr (k_uart s') ++ pending (k_uart s') = thr (k_uart s) ++ pending (k_uart s) ++ [uint8 c] /\
       (pending (k_uart s') = [] \/ exists l, lsr_idle (k_uart s) = l ++ lsr_idle (k_uart s') /\ last l = Some false
          \/ lsr_idle (k_uart s') = [])).
Proof.
  intros Ho. destruct ring32 as (H1 & H2 & H3). pose proof (length_pending _ Ho) as Hl.
  pose proof (uo_len _ Ho) as Hm.
  assert (uartputc c s = if tx_w (k_uart s) =? uint64 (tx_r (k_uart s) + UART_TX_BUF_SIZE) then sleep ChUart s
    else uartstart (with_uart (uart_put c (k_uart s)) s)) as -> by (unfold uartputc, kbind, kget; by case_match).
  destruct (Z.eqb_spec (tx_w (k_uart s)) (uint64 (tx_r (k_uart s) + UART_TX_BUF_SIZE))) as [E|E].
  - left. apply (ring_full UART_TX_BUF_SIZE M64) in E; [|done..|apply Ho]. split; [lia|].
    eexists. split; [reflexivity|done].
  - right. assert (Z.of_nat (length (pending (k_uart s))) < UART_TX_BUF_SIZE) as Hlt.
    { enough (ring_len M64 (tx_r (k_uart s)) (tx_w (k_uart s)) <> UART_TX_BUF_SIZE) by lia.
      intros E2. apply E. apply (ring_full UART_TX_BUF_SIZE M64) in E2; [done..|apply Ho]. }
    split; [done|]. destruct (uart_put_ok _ c Ho Hlt) as [Ho1 Hp1].
    destruct (uartstart_loop_ok (S (Z.to_nat UART_TX_BUF_SIZE)) (with_uart (uart_put c (k_uart s)) s))
      as (s' & E1 & Ho' & Ht & Hend); [done| |].
    { cbn [k_uart with_uart]. rewrite Hp1, length_app. cbn [length]. change UART_TX_BUF_SIZE with 32 in *. lia. }
    exists s'. split; [exact E1|]. split; [done|]. split; [|done]. rewrite Ht. cbn [k_uart with_uart]. rewrite Hp1. done.
Qed.

Lemma uart0_ok : uart_ok uart0.
Proof. split; try done. apply Forall_replicate. lia. Qed.

Lemma uartputc_fifo_witness : exists s', uartputc 65 kstate0 = Ret tt s' /\
  uart_ok (k_uart s') /\ thr (k_uart s') ++ pending (k_uart s') = [65].
Proof.
  destruct (uartputc_fifo kstate0 65) as [[H _]|(_ & s' & H1 & H2 & H3 & _)]; [apply uart0_ok|vm_compute in H; lia|].
  exists s'. split; [exact H1|]. split; [exact H2|]. exact H3.
Defined.

