(* ===== verification/ConsoleSpec.v ===== *)
(** * The line discipline of the console

    What typing a character does to the two parts of the console's input:
    the lines already handed over to readers and the line being edited.
    [consoleintr] on the ring buffer refines the function [line_input] on
    two lists. *)

From S2P Require Import Prelude Memory KString Kalloc Vm Bytes Sleeplock Bio Log Fs FsFile Ring KState Machine Console.

(** Input that [consoleread] may deliver, and input still being edited. *)
Definition committed (c : console) : list Z := ring_list INPUT_BUF_SIZE M32 (cons_buf c) (cons_r c) (cons_w c).
Definition editing (c : console) : list Z := ring_list INPUT_BUF_SIZE M32 (cons_buf c) (cons_w c) (cons_e c).

Record cons_ok (c : console) : Prop := {
  co_buf : length (cons_buf c) = Z.to_nat INPUT_BUF_SIZE;
  co_r : 0 <= cons_r c < M32;
  co_w : 0 <= cons_w c < M32;
  co_e : 0 <= cons_e c < M32;
  co_len : ring_len M32 (cons_r c) (cons_w c) + ring_len M32 (cons_w c) (cons_e c) <= INPUT_BUF_SIZE;
  co_nl : 10 ∉ editing c
}.

(** The line discipline on lists: control-U erases the line, backspace and
    delete its last character, a newline (or carriage return), control-D or
    a full buffer hands the line over. *)
Definition line_input (com ed : list Z) (c : Z) : list Z * list Z :=
  if c =? Ctrl 80 then (com, ed)
  else if c =? Ctrl 85 then (com, [])
  else if (c =? Ctrl 72) || (c =? 127) then (com, removelast ed)
  else if negb (c =? 0) && (Z.of_nat (length com + length ed) <? INPUT_BUF_SIZE) then
    let c := if c =? 13 then 10 else c in
    let ed := ed ++ [c] in
    if (c =? 10) || (c =? Ctrl 68) || (Z.of_nat (length com + length ed) =? INPUT_BUF_SIZE)
    then (com ++ ed, []) else (com, ed)
  else (com, ed).

Lemma ring128 : 0 < INPUT_BUF_SIZE /\ INPUT_BUF_SIZE < M32 /\ M32 mod INPUT_BUF_SIZE = 0.
Proof. done. Qed.

Lemma length_committed c : Z.of_nat (length (committed c)) = ring_len M32 (cons_r c) (cons_w c).
Proof.
  unfold committed. rewrite length_ring_list. destruct ring128 as (H1 & H2 & _).
  pose proof (ring_len_range INPUT_BUF_SIZE M32 H1 H2 (cons_r c) (cons_w c)). lia.
Qed.

Lemma length_editing c : Z.of_nat (length (editing c)) = ring_len M32 (cons_w c) (cons_e c).
Proof.
  unfold editing. rewrite length_ring_list. destruct ring128 as (H1 & H2 & _).
  pose proof (ring_len_range INPUT_BUF_SIZE M32 H1 H2 (cons_w c) (cons_e c)). lia.
Qed.

(** ** The echo *)

(** How often the transmitter will report idle. *)
Definition idles (u : uart) : nat := length (filter (fun b => b = true) (lsr_idle u)).

Lemma lsr_wait_ok l : (0 < length (filter (fun b => b = true) l))%nat ->
  exists l', lsr_wait l = Some l' /\
    length (filter (fun b => b = true) l) = S (length (filter (fun b => b = true) l')).
Proof.
  induction l as [|[|] l IH]; cbn [filter list_filter]; intros H; [simpl in H; lia| |].
  - rewrite decide_True by done. by exists l.
  - rewrite decide_False in * by done. by apply IH.
Qed.

Lemma uartputc_sync_ok c s : (0 < idles (k_uart s))%nat ->
  exists u, uartputc_sync c s = Ret tt (with_uart u s) /\ idles (k_uart s) = S (idles u).
Proof.
  intros H. destruct (lsr_wait_ok _ H) as (l & E & Hl). unfold uartputc_sync, kbind, kget. cbv zeta. rewrite E.
  eexists. split; [reflexivity|]. exact Hl.
Qed.

Lemma consputc_ok c s : (3 <= idles (k_uart s))%nat ->
  exists u, consputc c s = Ret tt (with_uart u s) /\ (idles (k_uart s) <= idles u + 3)%nat.
Proof.
  intros H. unfold consputc. destruct (c =? BACKSPACE).
  - destruct (uartputc_sync_ok 8 s) as (u1 & E1 & H1); [lia|].
    destruct (uartputc_sync_ok 32 (with_uart u1 s)) as (u2 & E2 & H2); [cbn [k_uart with_uart]; lia|].
    destruct (uartputc_sync_ok 8 (with_uart u2 s)) as (u3 & E3 & H3); [cbn [k_uart with_uart] in *; lia|].
    rewrite (kbind_ret _ _ _ _ _ E1), (kbind_ret _ _ _ _ _ E2). exists u3. split; [exact E3|].
    cbn [k_uart with_uart] in *. lia.
  - destruct (uartputc_sync_ok c s) as (u1 & E1 & H1); [lia|]. exists u1. split; [done|]. lia.
Qed.

(** ** Editing *)

(** [cons.e--] *)
Definition cons_back (c : console) : console := set_e (uint32 (cons_e c - 1)) c.

Lemma cons_empty c : cons_ok c -> (cons_e c =? cons_w c) = true <-> editing c = [].
Proof.
  destruct ring128 as (H1 & H2 & H3). intros Ho. pose proof (length_editing c) as Hl. rewrite Z.eqb_eq. split.
  - intros E. destruct (editing c); [done|]. assert (ring_len M32 (cons_w c) (cons_e c) = 0); [|simpl in Hl; lia].
    apply (ring_empty INPUT_BUF_SIZE); try done; apply Ho.
  - intros E. rewrite E in Hl. symmetry. apply (ring_empty INPUT_BUF_SIZE M32); [done..|apply Ho|apply Ho|]. simpl in Hl. lia.
Qed.

Lemma cons_back_ok c : cons_ok c -> editing c <> [] ->
  cons_ok (cons_back c) /\ committed (cons_back c) = committed c /\ editing (cons_back c) = removelast (editing c).
Proof.
  destruct ring128 as (H1 & H2 & H3). intros [B R W E L N] Hne. pose proof (length_editing c) as Hl.
  assert (0 < ring_len M32 (cons_w c) (cons_e c)) as Hpos by (destruct (editing c); simpl in *; [done|lia]).
  assert (editing (cons_back c) = removelast (editing c)) as He.
  { unfold editing, cons_back, set_e, uint32. cbn [cons_buf cons_w cons_e]. change (2 ^ 32) with M32.
    by apply ring_unpush. }
  split; [split; simpl; try done|done].
  - apply Z.mod_pos_bound. done.
  - unfold uint32. change (2 ^ 32) with M32. rewrite (ring_len_unpush INPUT_BUF_SIZE) by lia. lia.
  - rewrite He. intros Hin. apply N. apply list_elem_of_In in Hin. apply list_elem_of_In.
    rewrite (app_removelast_last 0 Hne). apply in_app_iff. by left.
Qed.

Lemma kill_line_S fuel :
  kill_line (S fuel) =
    (s <- kget ;;
      let c := k_cons s in
      if negb (cons_e c =? cons_w c) && negb (cons_at c (uint32 (cons_e c - 1)) =? 10) then
        cmod (set_e (uint32 (cons_e c - 1))) ;;;
        consputc BACKSPACE ;;;
        kill_line fuel
      else kret tt).
Proof. done. Qed.

Lemma kill_line_ok fuel : forall s, cons_ok (k_cons s) ->
  (length (editing (k_cons s)) < fuel)%nat -> (3 * length (editing (k_cons s)) <= idles (k_uart s))%nat ->
  exists c u, kill_line fuel s = Ret tt (with_uart u (with_cons c s)) /\ cons_ok c /\
    committed c = committed (k_cons s) /\ editing c = [].
Proof.
  destruct ring128 as (H1 & H2 & H3).
  induction fuel as [|fuel IH]; intros s Ho Hf Hi; [lia|]. rewrite kill_line_S. unfold kbind at 1, kget at 1. cbv zeta.
  destruct (cons_e (k_cons s) =? cons_w (k_cons s)) eqn:E; cbn [negb andb].
  { apply cons_empty in E; [|done]. exists (k_cons s), (k_uart s). split; [by destruct s|]. done. }
  assert (editing (k_cons s) <> []) as Hne by (rewrite <- cons_empty by done; congruence).
  pose proof (length_editing (k_cons s)) as Hl.
  assert (last (editing (k_cons s)) = Some (cons_at (k_cons s) (uint32 (cons_e (k_cons s) - 1)))) as Hlast.
  { unfold editing, cons_at, uint32. change (2 ^ 32) with M32. apply ring_get_last; try done.
    destruct (editing (k_cons s)); simpl in *; [done|lia]. }
  destruct (Z.eqb_spec (cons_at (k_cons s) (uint32 (cons_e (k_cons s) - 1))) 10) as [Ea|Ea].
  { exfalso. rewrite Ea in Hlast. apply (co_nl _ Ho). apply list_elem_of_In. apply last_Some in Hlast as [l' ->].
    apply in_app_iff. right. by left. }
  cbn [negb]. destruct (cons_back_ok _ Ho Hne) as (Ho1 & Hc1 & He1). unfold kbind at 1, cmod at 1.
  change (set_e (uint32 (cons_e (k_cons s) - 1)) (k_cons s)) with (cons_back (k_cons s)).
  assert (length (editing (k_cons s)) = S (length (removelast (editing (k_cons s))))) as Hlen.
  { rewrite (app_removelast_last 0 Hne) at 1. rewrite length_app. simpl. lia. }
  destruct (consputc_ok BACKSPACE (with_cons (cons_back (k_cons s)) s)) as (u1 & E1 & Hu1);
    [cbn [k_uart with_cons]; lia|].
  rewrite (kbind_ret _ _ _ _ _ E1).
  destruct (IH (with_uart u1 (with_cons (cons_back (k_cons s)) s))) as (c2 & u2 & E2 & Ho2 & Hc2 & He2).
  { done. }
  { cbn [k_cons with_uart with_cons]. rewrite He1. lia. }
  { cbn [k_cons k_uart with_uart with_cons] in *. rewrite He1. lia. }
  exists c2, u2. split; [by rewrite E2|]. split; [done|]. split; [|done]. by rewrite Hc2.
Qed.

(** ** Typing a character *)

Lemma cons_store_ok ch c : cons_ok c -> 0 <= ch < 256 ->
  Z.of_nat (length (committed c) + length (editing c)) < INPUT_BUF_SIZE ->
  committed (cons_store ch c) = committed c /\ editing (cons_store ch c) = editing c ++ [ch] /\
  uint32 (cons_e (cons_store ch c) - cons_r (cons_store ch c)) =
    Z.of_nat (length (committed c) + length (editing c ++ [ch])).
Proof.
  destruct ring128 as (H1 & H2 & H3). intros [B R W E L N] Hch Hlt.
  pose proof (length_committed c) as Hlc. pose proof (length_editing c) as Hle.
  pose proof (ring_len_range INPUT_BUF_SIZE M32 H1 H2 (cons_r c) (cons_w c)).
  pose proof (ring_len_range INPUT_BUF_SIZE M32 H1 H2 (cons_w c) (cons_e c)).
  unfold committed, editing, cons_store, uint32. cbn [cons_buf cons_r cons_w cons_e]. change (2 ^ 32) with M32.
  rewrite uint8_small by done. split; [|split].
  - apply ring_list_set; try done. lia.
  - apply ring_push; try done. lia.
  - change (((cons_e c + 1) mod M32 - cons_r c) mod M32) with (ring_len M32 (cons_r c) ((cons_e c + 1) mod M32)).
    destruct (ring_split INPUT_BUF_SIZE M32 H1 H2 H3 (cons_buf c) (cons_r c) (cons_w c) ((cons_e c + 1) mod M32)) as [_ E1].
    { rewrite (ring_len_push INPUT_BUF_SIZE) by lia. lia. }
    rewrite E1, (ring_len_push INPUT_BUF_SIZE) by lia. rewrite length_app. simpl length.
    unfold committed, editing in Hlc, Hle. lia.
Qed.

Lemma cons_room c : cons_ok c ->
  uint32 (cons_e c - cons_r c) = Z.of_nat (length (committed c) + length (editing c)).
Proof.
  destruct ring128 as (H1 & H2 & H3). intros [B R W E L N].
  pose proof (length_committed c) as Hlc. pose proof (length_editing c) as Hle.
  unfold uint32. change (2 ^ 32) with M32.
  change ((cons_e c - cons_r c) mod M32) with (ring_len M32 (cons_r c) (cons_e c)).
  destruct (ring_split INPUT_BUF_SIZE M32 H1 H2 H3 (cons_buf c) (cons_r c) (cons_w c) (cons_e c)) as [_ ->]; lia.
Qed.

Lemma cons_store_wf ch c : cons_ok c -> 0 <= ch < 256 -> ch <> 10 ->
  Z.of_nat (length (committed c) + length (editing c)) < INPUT_BUF_SIZE -> cons_ok (cons_store ch c).
Proof.
  intros Ho Hch Hnl Hlt. destruct (cons_store_ok ch c Ho Hch Hlt) as (E1 & E2 & E3). destruct Ho as [B R W E L N].
  pose proof (length_committed (cons_store ch c)) as Hlc. pose proof (length_editing (cons_store ch c)) as Hle.
  rewrite E1 in Hlc. rewrite E2, length_app in Hle. simpl length in Hle.
  split; try done.
  - simpl. unfold ring_set. by rewrite length_insert.
  - apply Z.mod_pos_bound. done.
  - rewrite <- Hlc, <- Hle. lia.
  - rewrite E2. intros Hin. apply elem_of_app in Hin as [Hin|Hin]; [done|]. apply elem_of_cons in Hin as [Hin|Hin]; [done|].
    by apply elem_of_nil in Hin.
Qed.

(** Handing the edited line over. *)
Lemma set_w_ok c : length (cons_buf c) = Z.to_nat INPUT_BUF_SIZE ->
  0 <= cons_r c < M32 -> 0 <= cons_e c < M32 ->
  Z.of_nat (length (committed c) + length (editing c)) <= INPUT_BUF_SIZE ->
  cons_ok (set_w (cons_e c) c) /\ committed (set_w (cons_e c) c) = committed c ++ editing c /\
  editing (set_w (cons_e c) c) = [].
Proof.
  destruct ring128 as (H1 & H2 & H3). intros B R E L.
  pose proof (length_committed c) as Hlc. pose proof (length_editing c) as Hle.
  destruct (ring_split INPUT_BUF_SIZE M32 H1 H2 H3 (cons_buf c) (cons_r c) (cons_w c) (cons_e c)) as [E1 E2]; [lia|].
  assert (ring_len M32 (cons_e c) (cons_e c) = 0) as E0 by (unfold ring_len; by rewrite Z.sub_diag).
  assert (editing (set_w (cons_e c) c) = []) as E3.
  { unfold editing, set_w, ring_list. cbn [cons_buf cons_w cons_e]. by rewrite E0. }
  split; [|done]. split; simpl; try done.
  - rewrite E0, E2. lia.
  - rewrite E3. apply not_elem_of_nil.
Qed.

Lemma cons_input_ok s c : cons_ok (k_cons s) -> 0 <= c < 256 -> (3 <= idles (k_uart s))%nat ->
  exists s', cons_input c s = Ret tt s' /\ cons_ok (k_cons s') /\
    (committed (k_cons s'), editing (k_cons s')) =
      (if negb (c =? 0) && (Z.of_nat (length (committed (k_cons s)) + length (editing (k_cons s))) <? INPUT_BUF_SIZE) then
        let c := if c =? 13 then 10 else c in
        let ed := editing (k_cons s) ++ [c] in
        if (c =? 10) || (c =? Ctrl 68) || (Z.of_nat (length (committed (k_cons s)) + length ed) =? INPUT_BUF_SIZE)
        then (committed (k_cons s) ++ ed, []) else (committed (k_cons s), ed)
      else (committed (k_cons s), editing (k_cons s))).
Proof.
  intros Ho Hc Hi.
  assert (cons_input c s =
    if negb (c =? 0) && (uint32 (cons_e (k_cons s) - cons_r (k_cons s)) <? INPUT_BUF_SIZE) then
      let c := if c =? 13 then 10 else c in
      (consputc c ;;; cmod (cons_store c) ;;;
       s <- kget ;;
       let x := k_cons s in
       if (c =? 10) || (c =? Ctrl 68) || (uint32 (cons_e x - cons_r x) =? INPUT_BUF_SIZE) then
         cmod (set_w (cons_e x)) ;;; wakeup ChCons
       else kret tt) s
    else Ret tt s) as -> by (unfold cons_input; unfold kbind at 1, kget at 1; by case_match).
  rewrite cons_room by done.
  destruct (negb (c =? 0) && _) eqn:Eg; [|exists s; done].
  apply andb_true_iff in Eg as [_ Eg]. apply Z.ltb_lt in Eg. cbv zeta.
  set (ch := if c =? 13 then 10 else c). assert (0 <= ch < 256) as Hch by (unfold ch; destruct (c =? 13); lia).
  destruct (consputc_ok ch s Hi) as (u & E1 & _). rewrite (kbind_ret _ _ _ _ _ E1). unfold kbind at 1, cmod at 1.
  unfold kbind at 1, kget at 1. cbv zeta. cbn [k_cons with_cons with_uart].
  destruct (cons_store_ok ch (k_cons s) Ho Hch Eg) as (C1 & C2 & C3). rewrite C3.
  destruct ((ch =? 10) || (ch =? Ctrl 68) || _) eqn:Ec.
  - unfold kbind at 1, cmod at 1, wakeup. eexists. split; [reflexivity|]. cbn [k_cons with_cons with_uart with_proc].
    destruct (set_w_ok (cons_store ch (k_cons s))) as (W1 & W2 & W3).
    { simpl. unfold ring_set. rewrite length_insert. apply Ho. }
    { apply Ho. }
    { apply Z.mod_pos_bound. done. }
    { rewrite C1, C2, length_app. simpl length. lia. }
    split; [done|]. by rewrite W2, W3, C1, C2.
  - eexists. split; [reflexivity|]. cbn [k_cons with_cons with_uart]. split; [|by rewrite C1, C2].
    apply cons_store_wf; try done. apply orb_false_iff in Ec as [Ec _]. apply orb_false_iff in Ec as [Ec _]. lia.
Qed.

(** C19: Line editing on the console's ring buffer refines the line discipline
    on lists: each character typed changes the input handed over to readers
    and the line being edited as [line_input] says, keeps the buffer within
    its 128 bytes, and never fails, as long as the transmitter becomes idle
    often enough to echo a whole line. *)
Theorem consoleintr_refines s c :
  cons_ok (k_cons s) -> 0 <= c < 256 -> (3 * Z.to_nat INPUT_BUF_SIZE <= idles (k_uart s))%nat ->
  exists s', consoleintr c s = Ret tt s' /\ cons_ok (k_cons s') /\
    (committed (k_cons s'), editing (k_cons s')) = line_input (committed (k_cons s)) (editing (k_cons s)) c.
Proof.
  intros Ho Hc Hi. unfold consoleintr, line_input. change (Z.to_nat INPUT_BUF_SIZE) with 128%nat in *.
  pose proof (length_editing (k_cons s)) as Hle. pose proof (co_len _ Ho) as HL. destruct ring128 as (H1 & H2 & H3).
  pose proof (ring_len_range INPUT_BUF_SIZE M32 H1 H2 (cons_r (k_cons s)) (cons_w (k_cons s))).
  change INPUT_BUF_SIZE with 128 in HL.
  destruct (c =? Ctrl 80); [by exists s|]. destruct (c =? Ctrl 85).
  { destruct (kill_line_ok 129 s) as (c2 & u2 & E2 & Ho2 & Hc2 & He2); [done|lia|lia|].
    eexists. split; [exact E2|]. split; [done|]. cbn [k_cons with_uart with_cons]. by rewrite Hc2, He2. }
  destruct ((c =? Ctrl 72) || (c =? 127)); [|apply cons_input_ok; [done|done|lia]].
  unfold kbind at 1, kget at 1. cbv zeta.
  destruct (cons_e (k_cons s) =? cons_w (k_cons s)) eqn:E; cbn [negb].
  { apply cons_empty in E; [|done]. exists s. split; [done|]. split; [done|]. by rewrite E. }
  assert (editing (k_cons s) <> []) as Hne by (rewrite <- cons_empty by done; congruence).
  destruct (cons_back_ok _ Ho Hne) as (Ho1 & Hc1 & He1). unfold kbind at 1, cmod at 1.
  destruct (consputc_ok BACKSPACE (with_cons (cons_back (k_cons s)) s)) as (u1 & E1 & Hu1);
    [cbn [k_uart with_cons]; lia|].
  eexists. split; [exact E1|]. cbn [k_cons with_uart with_cons]. split; [done|]. by rewrite Hc1, He1.
Qed.

Lemma consoleintr_refines_witness : exists s', consoleintr 97 kstate0 = Ret tt s' /\ cons_ok (k_cons s') /\
  committed (k_cons s') = [] /\ editing (k_cons s') = [97].
Proof.
  destruct (consoleintr_refines kstate0 97) as (s' & H1 & H2 & H3); [|lia|by vm_compute; lia|].
  - split; try by vm_compute. vm_compute. inversion 1.
  - exists s'. split; [exact H1|]. split; [exact H2|]. change (line_input _ _ _) with (@nil Z, [97]) in H3.
    by injection H3 as -> ->.
Defined.

