(* ===== verification/File.v ===== *)
(** * Open files (kernel/file.c, and pipealloc of kernel/pipe.c)

    The table of open files and the operations behind read, write, close
    and fstat, which dispatch on the type of the file. *)

From S2P Require Import Prelude Memory KString Kalloc Vm Bytes Sleeplock Bio Log Fs FsFile Ring KState Pipe Console.

Definition CONSOLE : Z := 1.

Definition getf (s : kstate) (f : nat) : file := default file0 (k_ftable s !! f).
Definition fget (f : nat) : K kstate file := fun s => Ret (getf s f) s.
Definition fset (f : nat) (x : file) : K kstate unit := fun s => Ret tt (with_ftable (<[f := x]> (k_ftable s)) s).
Definition fmod (f : nat) (g : file -> file) : K kstate unit := x <- fget f ;; fset f (g x).

(** [for(f = ftable.file; f < ftable.file + NFILE; f++) if(f->ref == 0)] *)
Fixpoint find_free (l : list file) (i : nat) : option nat :=
  match l with
  | [] => None
  | x :: l' => if f_ref x =? 0 then Some i else find_free l' (S i)
  end.

Definition filealloc : K kstate (option nat) :=
  s <- kget ;;
  match find_free (k_ftable s) 0 with
  | Some f => fmod f (set_fref 1) ;;; kret (Some f)
  | None => kret None
  end.

Definition filedup (f : nat) : K kstate nat :=
  x <- fget f ;;
  if f_ref x <? 1 then panic "filedup"
  else fset f (set_fref (f_ref x + 1) x) ;;; kret f.

Section file.
Context `{I : KernelImage}.

Definition fileclose (f : nat) : K kstate unit :=
  x <- fget f ;;
  if f_ref x <? 1 then panic "fileclose"
  else if 0 <? f_ref x - 1 then fset f (set_fref (f_ref x - 1) x)
  else
    fset f (File FD_NONE 0 (f_readable x) (f_writable x) (f_pipe x) (f_ip x) (f_off x) (f_major x)) ;;;
    match f_type x with
    | FD_PIPE => pipeclose (f_pipe x) (f_writable x)
    | FD_INODE | FD_DEVICE =>
        kbegin_op ;;;
        liftW (iput (f_ip x)) ;;;
        kend_op
    | FD_NONE => kret tt
    end.

(** struct stat as it lies in memory: dev, ino, type, nlink, four bytes of
    padding (never written by the code, taken to be 0), size. *)
Definition stat_bytes (st : stat) : list Z :=
  le_bytes 4 (st_dev st) ++ le_bytes 4 (st_ino st) ++ le_bytes 2 (st_type st) ++
  le_bytes 2 (st_nlink st) ++ [0; 0; 0; 0] ++ le_bytes 8 (st_size st).

Definition filestat (f : nat) (addr : Z) : K kstate Z :=
  x <- fget f ;;
  match f_type x with
  | FD_INODE | FD_DEVICE =>
      liftW (ilock (f_ip x)) ;;;
      st <- liftF (stati (f_ip x)) ;;
      liftW (iunlock (f_ip x)) ;;;
      p <- mine ;;
      r <- kmemop (copyout (p_pagetable p) addr (stat_bytes st)) ;;
      if r <? 0 then kret (-1) else kret 0
  | _ => kret (-1)
  end.

Definition fileread (f : nat) (addr n : Z) : K kstate Z :=
  x <- fget f ;;
  if negb (f_readable x) then kret (-1)
  else
    match f_type x with
    | FD_PIPE => piperead (f_pipe x) addr n
    | FD_DEVICE =>
        if (f_major x <? 0) || (NDEV <=? f_major x) || negb (f_major x =? CONSOLE) then kret (-1)
        else consoleread true addr n
    | FD_INODE =>
        liftW (ilock (f_ip x)) ;;;
        r <- liftW (readi (f_ip x) true addr (f_off x) (uint32 n)) ;;
        (if 0 <? fst r then fmod f (fun x => set_foff (uint32 (f_off x + fst r)) x) else kret tt) ;;;
        liftW (iunlock (f_ip x)) ;;;
        kret (fst r)
    | FD_NONE => panic "fileread"
    end.

(** The loop of [filewrite] on an inode, one transaction per piece. *)
Definition filewrite_max : Z := (MAXOPBLOCKS - 1 - 1 - 2) / 2 * BSIZE.

Fixpoint filewrite_loop (fuel : nat) (f : nat) (addr i n : Z) : K kstate Z :=
  match fuel with
  | O => kdiverge
  | S fuel' =>
      if i <? n then
        let n1 := Z.min (n - i) filewrite_max in
        x <- fget f ;;
        kbegin_op ;;;
        liftW (ilock (f_ip x)) ;;;
        r <- liftW (writei (f_ip x) (FromUser (uint64 (addr + i))) (f_off x) n1) ;;
        (if 0 <? r then fmod f (fun x => set_foff (uint32 (f_off x + r)) x) else kret tt) ;;;
        liftW (iunlock (f_ip x)) ;;;
        kend_op ;;;
        if negb (r =? n1) then kret i
        else filewrite_loop fuel' f addr (i + r) n
      else kret i
  end.

Definition filewrite (f : nat) (addr n : Z) : K kstate Z :=
  x <- fget f ;;
  if negb (f_writable x) then kret (-1)
  else
    match f_type x with
    | FD_PIPE => pipewrite (f_pipe x) addr n
    | FD_DEVICE =>
        if (f_major x <? 0) || (NDEV <=? f_major x) || negb (f_major x =? CONSOLE) then kret (-1)
        else consolewrite (FromUser addr) n
    | FD_INODE =>
        i <- filewrite_loop (S (Z.to_nat n)) f addr 0 n ;;
        kret (if i =? n then n else -1)
    | FD_NONE => panic "filewrite"
    end.

(** The two ends, or nothing. *)
Definition pipealloc : K kstate (option (nat * nat)) :=
  f0 <- filealloc ;;
  match f0 with
  | None => kret None
  | Some r =>
      f1 <- filealloc ;;
      match f1 with
      | None => fileclose r ;;; kret None
      | Some w =>
          pi <- kmemop kalloc ;;
          if pi =? 0 then fileclose r ;;; fileclose w ;;; kret None
          else
            kmod (fun s => with_pipes (<[pi := Pipe (replicate (Z.to_nat PIPESIZE) 5) 0 0 true true]> (k_pipes s)) s) ;;;
            fmod r (fun x => File FD_PIPE (f_ref x) true false pi (f_ip x) (f_off x) (f_major x)) ;;;
            fmod w (fun x => File FD_PIPE (f_ref x) false true pi (f_ip x) (f_off x) (f_major x)) ;;;
            kret (Some (r, w))
      end
  end.

End file.
