(* ===== verification/Proc.v ===== *)
(** * Processes (kernel/proc.c)

    Allocating and freeing processes and their page tables, fork, exit,
    wait, the scheduler's choice and growing the user memory.  [swtch] is
    assembly code.  A call of [sched] from exit or from a wait ends the run of
    the process with [Sleep], in whatever state the code has set it to.  The
    [yield] of a timer interrupt returns once the scheduler has chosen the
    process again; what the other processes do until then is an argument. *)

From S2P Require Import Prelude Memory KString Kalloc Vm Bytes Sleeplock Bio Log Fs FsFile Ring KState Pipe Console File.

Definition sched {A} : K kstate A := fun s =>
  if decide (p_state (getp s (k_me s)) = RUNNING) then Panic "sched running" else Sleep s.

Definition with_me (p : nat) (s : kstate) : kstate :=
  KState (k_fs s) (k_ftable s) (k_pipes s) (k_proc s) (k_initproc s) (k_nextpid s) p (k_ticks s) (k_cons s) (k_uart s).

(** What [scheduler] does with entry [p] of the table: it runs a process that is
    RUNNABLE. *)
Definition dispatch (p : nat) (s : kstate) : option kstate :=
  if decide (p_state (getp s p) = RUNNABLE) then Some (with_me p (setp s p (set_state RUNNING (getp s p)))) else None.

(** [sched] of a process that waits for its next turn.  [others] is what the
    other CPUs and processes do to the kernel's state before the scheduler comes
    to the process again ([None] if it never does), with the registers the
    process then finds on its CPU. *)
Definition sched_until {R} (others : kstate -> option (R * kstate)) : K kstate R := fun s =>
  if decide (p_state (getp s (k_me s)) = RUNNING) then Panic "sched running"
  else
    match others s with
    | None => Sleep s
    | Some (r, s1) =>
        match dispatch (k_me s) s1 with
        | Some s2 => Ret r s2
        | None => Sleep s1
        end
    end.

Definition yield {R} (others : kstate -> option (R * kstate)) : K kstate R :=
  pmine (set_state RUNNABLE) ;;;
  sched_until others.

Definition procinit : list proc :=
  map (fun i => Proc UNUSED None false 0 0 None (KSTACK (Z.of_nat i)) 0 0 0 (p_context proc0) (p_ofile proc0) None [])
    (seq 0 (Z.to_nat NPROC)).

Definition allocpid : K kstate Z := fun s =>
  Ret (k_nextpid s) (with_nextpid (int32 (k_nextpid s + 1)) s).

(** [safestrcpy(dst, src, sizeof(p->name))] on C strings. *)
Definition copy_name (src : list Z) : list Z := take 15 src.

Section proc.
Context `{I : KernelImage}.

(** ** Page tables of processes *)

Definition proc_pagetable (trapframe : Z) : K kmem Z :=
  pagetable <- uvmcreate ;;
  if pagetable =? 0 then kret 0
  else
    r <- mappages pagetable TRAMPOLINE PGSIZE trampoline (Z.lor PTE_R PTE_X) ;;
    if r <? 0 then uvmfree pagetable 0 ;;; kret 0
    else
      r <- mappages pagetable TRAPFRAME PGSIZE trapframe (Z.lor PTE_R PTE_W) ;;
      if r <? 0 then
        uvmunmap pagetable TRAMPOLINE 1 false ;;;
        uvmfree pagetable 0 ;;;
        kret 0
      else kret pagetable.

Definition proc_freepagetable (pagetable sz : Z) : K kmem unit :=
  uvmunmap pagetable TRAMPOLINE 1 false ;;;
  uvmunmap pagetable TRAPFRAME 1 false ;;;
  uvmfree pagetable sz.

(** ** Allocating and freeing *)

Definition freeproc (p : nat) : K kstate unit :=
  x <- pget p ;;
  (if negb (p_trapframe x =? 0) then kmemop (kfree (p_trapframe x)) else kret tt) ;;;
  pmod p (set_trapframe 0) ;;;
  (if negb (p_pagetable x =? 0) then kmemop (proc_freepagetable (p_pagetable x) (p_sz x)) else kret tt) ;;;
  pmod p (fun x =>
    set_state UNUSED (set_xstate 0 (set_killed false (set_chan None (set_name [] (set_parent None
      (set_procid 0 (set_psz 0 (set_pagetable 0 x))))))))).

(** The first UNUSED slot. *)
Fixpoint find_unused (l : list proc) (i : nat) : option nat :=
  match l with
  | [] => None
  | p :: l' => if decide (p_state p = UNUSED) then Some i else find_unused l' (S i)
  end.

Definition allocproc : K kstate (option nat) :=
  s <- kget ;;
  match find_unused (k_proc s) 0 with
  | None => kret None
  | Some p =>
      pid <- allocpid ;;
      pmod p (fun x => set_state USED (set_procid pid x)) ;;;
      tf <- kmemop kalloc ;;
      pmod p (set_trapframe tf) ;;;
      if tf =? 0 then freeproc p ;;; kret None
      else
        pt <- kmemop (proc_pagetable tf) ;;
        pmod p (set_pagetable pt) ;;;
        if pt =? 0 then freeproc p ;;; kret None
        else
          pmod p (fun x => set_context (Context_ AtForkret (uint64 (p_kstack x + PGSIZE)) (replicate 12 0)) x) ;;;
          kret (Some p)
  end.

(** The bytes of user/initcode.S, as the source has them. *)
Definition initcode : list Z :=
  [ 0x17; 0x05; 0x00; 0x00; 0x13; 0x05; 0x45; 0x02; 0x97; 0x05; 0x00; 0x00; 0x93; 0x85; 0x35; 0x02;
    0x93; 0x08; 0x70; 0x00; 0x73; 0x00; 0x00; 0x00; 0x93; 0x08; 0x20; 0x00; 0x73; 0x00; 0x00; 0x00;
    0xef; 0xf0; 0x9f; 0xff; 0x2f; 0x69; 0x6e; 0x69; 0x74; 0x00; 0x00; 0x24; 0x00; 0x00; 0x00; 0x00;
    0x00; 0x00; 0x00; 0x00 ].

(** "initcode" *)
Definition initcode_name : list Z := [105; 110; 105; 116; 99; 111; 100; 101].

(** [userinit]; a null result of [allocproc] is dereferenced, which the
    kernel's page table does not map. *)
Definition userinit : K kstate unit :=
  p <- allocproc ;;
  kmod (with_initproc p) ;;;
  match p with
  | None => panic "kerneltrap"
  | Some p =>
      x <- pget p ;;
      kmemop (uvmfirst (p_pagetable x) initcode) ;;;
      pmod p (set_psz PGSIZE) ;;;
      tf_set (p_trapframe x) TF_epc 0 ;;;
      tf_set (p_trapframe x) TF_sp PGSIZE ;;;
      pmod p (set_name (copy_name initcode_name)) ;;;
      cwd <- liftW (namei [SLASH]) ;;
      pmod p (set_cwd cwd) ;;;
      pmod p (set_state RUNNABLE)
  end.

Definition growproc (n : Z) : K kstate Z :=
  x <- mine ;;
  let sz := p_sz x in
  if 0 <? n then
    sz' <- kmemop (uvmalloc (p_pagetable x) sz (uint64 (sz + n)) PTE_W) ;;
    if sz' =? 0 then kret (-1) else pmine (set_psz sz') ;;; kret 0
  else if n <? 0 then
    sz' <- kmemop (uvmdealloc (p_pagetable x) sz (uint64 (sz + n))) ;;
    pmine (set_psz sz') ;;; kret 0
  else pmine (set_psz sz) ;;; kret 0.

(** ** fork *)

(** [for(i = 0; i < NOFILE; i++) if(p->ofile[i]) np->ofile[i] = filedup(p->ofile[i])] *)
Fixpoint dup_files (l : list (option nat)) (np i : nat) : K kstate unit :=
  match l with
  | [] => kret tt
  | None :: l' => dup_files l' np (S i)
  | Some f :: l' =>
      f' <- filedup f ;;
      pmod np (fun x => set_ofile (<[i := Some f']> (p_ofile x)) x) ;;;
      dup_files l' np (S i)
  end.

Definition fork : K kstate Z :=
  me <- myproc ;;
  np <- allocproc ;;
  match np with
  | None => kret (-1)
  | Some np =>
      p <- mine ;;
      n <- pget np ;;
      r <- kmemop (uvmcopy (p_pagetable p) (p_pagetable n) (p_sz p)) ;;
      if r <? 0 then freeproc np ;;; kret (-1)
      else
        pmod np (set_psz (p_sz p)) ;;;
        kmemop (kmemmove (p_trapframe n) (p_trapframe p) TF_SIZE) ;;;
        tf_set (p_trapframe n) (TF_a 0) 0 ;;;
        dup_files (p_ofile p) np 0 ;;;
        cwd <- liftF (idup (default 0%nat (p_cwd p))) ;;
        pmod np (set_cwd (Some cwd)) ;;;
        pmod np (set_name (copy_name (p_name p))) ;;;
        x <- pget np ;;
        pmod np (set_parent (Some me)) ;;;
        pmod np (set_state RUNNABLE) ;;;
        kret (p_pid x)
  end.

(** ** exit and wait *)

Definition wakeup_proc (p : option nat) : K kstate unit :=
  match p with Some p => wakeup (ChProc p) | None => kret tt end.

Fixpoint reparent_loop (k pp p : nat) : K kstate unit :=
  match k with
  | O => kret tt
  | S k' =>
      x <- pget pp ;;
      (if decide (p_parent x = Some p) then
         s <- kget ;;
         pmod pp (set_parent (k_initproc s)) ;;;
         wakeup_proc (k_initproc s)
       else kret tt) ;;;
      reparent_loop k' (S pp) p
  end.

Definition reparent (p : nat) : K kstate unit := reparent_loop (Z.to_nat NPROC) 0 p.

Fixpoint close_files (k fd : nat) : K kstate unit :=
  match k with
  | O => kret tt
  | S k' =>
      x <- mine ;;
      (match p_ofile x !! fd with
       | Some (Some f) =>
           fileclose f ;;;
           pmine (fun x => set_ofile (<[fd := None]> (p_ofile x)) x)
       | _ => kret tt
       end) ;;;
      close_files k' (S fd)
  end.

Definition exit (status : Z) : K kstate unit :=
  me <- myproc ;;
  s <- kget ;;
  if decide (k_initproc s = Some me) then panic "init exiting"
  else
    close_files NOFILE 0 ;;;
    kbegin_op ;;;
    x <- mine ;;
    liftW (iput (default 0%nat (p_cwd x))) ;;;
    kend_op ;;;
    pmine (set_cwd None) ;;;
    reparent me ;;;
    x <- mine ;;
    wakeup_proc (p_parent x) ;;;
    pmine (fun x => set_state ZOMBIE (set_xstate status x)) ;;;
    sched.

(** The scan of [wait]: the value to return, or whether there are children. *)
Fixpoint wait_scan (k pp : nat) (addr : Z) (havekids : bool) : K kstate (Z + bool) :=
  match k with
  | O => kret (inr havekids)
  | S k' =>
      me <- myproc ;;
      x <- pget pp ;;
      if decide (p_parent x = Some me) then
        if decide (p_state x = ZOMBIE) then
          p <- mine ;;
          r <- (if addr =? 0 then kret 0
                else kmemop (copyout (p_pagetable p) addr (le_bytes 4 (p_xstate x)))) ;;
          if r <? 0 then kret (inl (-1))
          else freeproc pp ;;; kret (inl (p_pid x))
        else wait_scan k' (S pp) addr true
      else wait_scan k' (S pp) addr havekids
  end.

(** One round of [wait]; a process that slept in it starts the next one. *)
Definition wait (addr : Z) : K kstate Z :=
  me <- myproc ;;
  r <- wait_scan (Z.to_nat NPROC) 0 addr false ;;
  match r with
  | inl v => kret v
  | inr havekids =>
      k <- killed me ;;
      if negb havekids || k then kret (-1) else sleep (ChProc me)
  end.

End proc.

(** ** The scheduler *)

(** One pass of the scheduler over the process table; [run p] is what the
    process [p] does between the two [swtch]es.  The result is [found]. *)
Fixpoint scheduler_pass (run : nat -> kstate -> kstate) (k p : nat) (found : bool) (s : kstate) : bool * kstate :=
  match k with
  | O => (found, s)
  | S k' =>
      if decide (p_state (getp s p) = RUNNABLE) then
        let s := setp s p (set_state RUNNING (getp s p)) in
        let s := KState (k_fs s) (k_ftable s) (k_pipes s) (k_proc s) (k_initproc s) (k_nextpid s) p (k_ticks s)
                   (k_cons s) (k_uart s) in
        scheduler_pass run k' (S p) true (run p s)
      else scheduler_pass run k' (S p) found s
  end.
