(* ===== verification/Syscall.v ===== *)
(** * System call arguments (kernel/syscall.c) and kernel/sysproc.c

    Fetching arguments from the trapframe and from user memory, and the
    system calls on processes. *)

From S2P Require Import Prelude Memory KString Kalloc Vm Bytes Sleeplock Bio Log Fs FsFile Ring KState Pipe Console File Proc.

(** The value a [uint64] register gets from an [int]. *)
Definition sext (z : Z) : Z := uint64 z.

Section syscall.
Context `{I : KernelImage}.

Definition fetchaddr (addr : Z) : K kstate (Z * Z) :=
  p <- mine ;;
  if (p_sz p <=? addr) || (p_sz p <? uint64 (addr + 8)) then kret (-1, 0)
  else
    r <- kmemop (copyin (p_pagetable p) addr 8) ;;
    if negb (fst r =? 0) then kret (-1, 0) else kret (0, get_le 8 (snd r) 0).

(** The length and the string, without its NUL. *)
Definition fetchstr (addr max : Z) : K kstate (Z * list Z) :=
  p <- mine ;;
  r <- kmemop (copyinstr (p_pagetable p) addr max) ;;
  if fst r <? 0 then kret (-1, [])
  else kret (Z.of_nat (length (snd r)) - 1, removelast (snd r)).

Definition argraw (n : Z) : K kstate Z :=
  if (0 <=? n) && (n <=? 5) then
    p <- mine ;; tf_get (p_trapframe p) (TF_a n)
  else panic "argraw".

Definition argint (n : Z) : K kstate Z := v <- argraw n ;; kret (int32 v).
Definition argaddr (n : Z) : K kstate Z := argraw n.
Definition argstr (n max : Z) : K kstate (Z * list Z) := addr <- argaddr n ;; fetchstr addr max.

(** ** sysproc.c *)

Definition sys_exit : K kstate Z := n <- argint 0 ;; exit n ;;; kret 0.
Definition sys_getpid : K kstate Z := p <- mine ;; kret (p_pid p).
Definition sys_fork : K kstate Z := fork.
Definition sys_wait : K kstate Z := p <- argaddr 0 ;; wait p.

Definition sys_sbrk : K kstate Z :=
  n <- argint 0 ;;
  x <- mine ;;
  r <- growproc n ;;
  if r <? 0 then kret (-1) else kret (p_sz x).

(** The loop of [sys_sleep], entered with the tick count [ticks0] of its
    start; a process that slept in it resumes here. *)
Definition sleep_until (ticks0 n : Z) : K kstate Z :=
  s <- kget ;;
  if uint32 (k_ticks s - ticks0) <? n then
    me <- myproc ;;
    k <- killed me ;;
    if k then kret (-1) else sleep ChTicks
  else kret 0.

Definition sys_sleep : K kstate Z :=
  n <- argint 0 ;;
  let n := if n <? 0 then 0 else n in
  s <- kget ;;
  sleep_until (k_ticks s) n.

Definition sys_kill : K kstate Z := pid <- argint 0 ;; kill pid.
Definition sys_uptime : K kstate Z := s <- kget ;; kret (k_ticks s).

End syscall.
