(* ===== verification/Sysfile.v ===== *)
(** * System calls on files (kernel/sysfile.c) *)

From S2P Require Import Prelude Memory KString Kalloc Vm Bytes Sleeplock Bio Log Fs FsFile Ring KState Pipe Console File Proc Syscall.

Definition MAXPATH : Z := 128.
Definition MAXARG : nat := 32.
Definition O_RDONLY : Z := 0.
Definition O_WRONLY : Z := 1.
Definition O_RDWR : Z := 2.
Definition O_CREATE : Z := 0x200.
Definition O_TRUNC : Z := 0x400.

(** The first empty descriptor. *)
Fixpoint find_fd (l : list (option nat)) (i : nat) : option nat :=
  match l with
  | [] => None
  | None :: _ => Some i
  | Some _ :: l' => find_fd l' (S i)
  end.

Definition fdalloc (f : nat) : K kstate Z :=
  p <- mine ;;
  match find_fd (p_ofile p) 0 with
  | Some fd => pmine (fun x => set_ofile (<[fd := Some f]> (p_ofile x)) x) ;;; kret (Z.of_nat fd)
  | None => kret (-1)
  end.

Definition fdclear (fd : Z) : K kstate unit :=
  pmine (fun x => set_ofile (<[Z.to_nat fd := None]> (p_ofile x)) x).

Section sysfile.
Context `{I : KernelImage}.

(** The descriptor and the file, or nothing. *)
Definition argfd (n : Z) : K kstate (option (Z * nat)) :=
  fd <- argint n ;;
  if (fd <? 0) || (Z.of_nat NOFILE <=? fd) then kret None
  else
    p <- mine ;;
    match p_ofile p !! Z.to_nat fd with
    | Some (Some f) => kret (Some (fd, f))
    | _ => kret None
    end.

Definition sys_dup : K kstate Z :=
  a <- argfd 0 ;;
  match a with
  | None => kret (-1)
  | Some (_, f) =>
      fd <- fdalloc f ;;
      if fd <? 0 then kret (-1) else filedup f ;;; kret fd
  end.

Definition sys_read : K kstate Z :=
  p <- argaddr 1 ;;
  n <- argint 2 ;;
  a <- argfd 0 ;;
  match a with None => kret (-1) | Some (_, f) => fileread f p n end.

Definition sys_write : K kstate Z :=
  p <- argaddr 1 ;;
  n <- argint 2 ;;
  a <- argfd 0 ;;
  match a with None => kret (-1) | Some (_, f) => filewrite f p n end.

Definition sys_close : K kstate Z :=
  a <- argfd 0 ;;
  match a with
  | None => kret (-1)
  | Some (fd, f) => fdclear fd ;;; fileclose f ;;; kret 0
  end.

Definition sys_fstat : K kstate Z :=
  st <- argaddr 1 ;;
  a <- argfd 0 ;;
  match a with None => kret (-1) | Some (_, f) => filestat f st end.

(** ** link and unlink *)

(** [bad:] of [sys_link]. *)
Definition link_bad (ip : nat) : K kstate Z :=
  liftW (ilock ip ;;; (x <- inget ip ;; inmod ip (set_nlink (int16 (i_nlink x - 1)))) ;;; iupdate ip ;;; iunlockput ip) ;;;
  kend_op ;;;
  kret (-1).

Definition sys_link : K kstate Z :=
  old <- argstr 0 MAXPATH ;;
  if fst old <? 0 then kret (-1)
  else
    new <- argstr 1 MAXPATH ;;
    if fst new <? 0 then kret (-1)
    else
      kbegin_op ;;;
      ip <- liftW (namei (snd old)) ;;
      match ip with
      | None => kend_op ;;; kret (-1)
      | Some ip =>
          liftW (ilock ip) ;;;
          x <- liftF (inget ip) ;;
          if i_type x =? T_DIR then liftW (iunlockput ip) ;;; kend_op ;;; kret (-1)
          else
            liftW (inmod ip (set_nlink (int16 (i_nlink x + 1))) ;;; iupdate ip ;;; iunlock ip) ;;;
            dp <- liftW (nameiparent (snd new) []) ;;
            match dp with
            | (None, _) => link_bad ip
            | (Some dp, name) =>
                liftW (ilock dp) ;;;
                d <- liftF (inget dp) ;;
                x <- liftF (inget ip) ;;
                r <- (if negb (i_dev d =? i_dev x) then kret (-1) else liftW (dirlink dp name (i_inum x))) ;;
                if r <? 0 then liftW (iunlockput dp) ;;; link_bad ip
                else
                  liftW (iunlockput dp) ;;;
                  liftW (iput ip) ;;;
                  kend_op ;;;
                  kret 0
            end
      end.

Fixpoint isdirempty_loop (fuel : nat) (dp : nat) (off : Z) : K fstate bool :=
  match fuel with
  | O => kdiverge
  | S fuel' =>
      x <- inget dp ;;
      if off <? i_size x then
        r <- readi dp false 0 off DIRENT ;;
        if negb (fst r =? DIRENT) then panic "isdirempty: readi"
        else if negb (de_inum (snd r) =? 0) then kret false
        else isdirempty_loop fuel' dp (off + DIRENT)
      else kret true
  end.

Definition isdirempty (dp : nat) : K fstate bool :=
  x <- inget dp ;;
  isdirempty_loop (S (S (Z.to_nat (i_size x / DIRENT)))) dp (2 * DIRENT).

(** [bad:] of [sys_unlink]. *)
Definition unlink_bad (dp : nat) : K kstate Z := liftW (iunlockput dp) ;;; kend_op ;;; kret (-1).

Definition DOTNAME : list Z := [46].
Definition DOTDOT : list Z := [46; 46].

Definition sys_unlink : K kstate Z :=
  path <- argstr 0 MAXPATH ;;
  if fst path <? 0 then kret (-1)
  else
    kbegin_op ;;;
    dp <- liftW (nameiparent (snd path) []) ;;
    match dp with
    | (None, _) => kend_op ;;; kret (-1)
    | (Some dp, name) =>
        liftW (ilock dp) ;;;
        if (namecmp name DOTNAME =? 0) || (namecmp name DOTDOT =? 0) then unlink_bad dp
        else
          e <- liftW (dirlookup dp name) ;;
          match e with
          | None => unlink_bad dp
          | Some (ip, off) =>
              liftW (ilock ip) ;;;
              x <- liftF (inget ip) ;;
              if i_nlink x <? 1 then panic "unlink: nlink < 1"
              else
                empty <- (if i_type x =? T_DIR then liftW (isdirempty ip) else kret true) ;;
                if negb empty then liftW (iunlockput ip) ;;; unlink_bad dp
                else
                  r <- liftW (writei dp (FromKernel (replicate (Z.to_nat DIRENT) 0)) off DIRENT) ;;
                  if negb (r =? DIRENT) then panic "unlink: writei"
                  else
                    (if i_type x =? T_DIR then
                       liftW (d <- inget dp ;; inmod dp (set_nlink (int16 (i_nlink d - 1))) ;;; iupdate dp)
                     else kret tt) ;;;
                    liftW (iunlockput dp) ;;;
                    liftW (x <- inget ip ;; inmod ip (set_nlink (int16 (i_nlink x - 1))) ;;; iupdate ip ;;; iunlockput ip) ;;;
                    kend_op ;;;
                    kret 0
          end
    end.

(** ** create, open, mkdir, mknod *)

(** [fail:] of [create]. *)
Definition create_fail (ip dp : nat) : K fstate (option nat) :=
  inmod ip (set_nlink 0) ;;; iupdate ip ;;; iunlockput ip ;;; iunlockput dp ;;; kret None.

Definition create (path : list Z) (type major minor : Z) : K fstate (option nat) :=
  dp <- nameiparent path [] ;;
  match dp with
  | (None, _) => kret None
  | (Some dp, name) =>
      ilock dp ;;;
      e <- dirlookup dp name ;;
      match e with
      | Some (ip, _) =>
          iunlockput dp ;;;
          ilock ip ;;;
          x <- inget ip ;;
          if (type =? T_FILE) && ((i_type x =? T_FILE) || (i_type x =? T_DEVICE)) then kret (Some ip)
          else iunlockput ip ;;; kret None
      | None =>
          d <- inget dp ;;
          ip <- ialloc (i_dev d) type ;;
          match ip with
          | None => iunlockput dp ;;; kret None
          | Some ip =>
              ilock ip ;;;
              inmod ip (set_devno major minor) ;;;
              inmod ip (set_nlink 1) ;;;
              iupdate ip ;;;
              x <- inget ip ;;
              r <- (if type =? T_DIR then
                      r <- dirlink ip DOTNAME (i_inum x) ;;
                      if r <? 0 then kret r else dirlink ip DOTDOT (i_inum d)
                    else kret 0) ;;
              if r <? 0 then create_fail ip dp
              else
                r <- dirlink dp name (i_inum x) ;;
                if r <? 0 then create_fail ip dp
                else
                  (if type =? T_DIR then
                     d <- inget dp ;; inmod dp (set_nlink (int16 (i_nlink d + 1))) ;;; iupdate dp
                   else kret tt) ;;;
                  iunlockput dp ;;;
                  kret (Some ip)
          end
      end
  end.

(** The inode [sys_open] opens, locked, or nothing. *)
Definition open_inode (path : list Z) (omode : Z) : K kstate (option nat) :=
  if has omode O_CREATE then liftW (create path T_FILE 0 0)
  else
    ip <- liftW (namei path) ;;
    match ip with
    | None => kret None
    | Some ip =>
        liftW (ilock ip) ;;;
        x <- liftF (inget ip) ;;
        if (i_type x =? T_DIR) && negb (omode =? O_RDONLY) then liftW (iunlockput ip) ;;; kret None
        else kret (Some ip)
    end.

Definition sys_open : K kstate Z :=
  omode <- argint 1 ;;
  path <- argstr 0 MAXPATH ;;
  if fst path <? 0 then kret (-1)
  else
    kbegin_op ;;;
    ip <- open_inode (snd path) omode ;;
    match ip with
    | None => kend_op ;;; kret (-1)
    | Some ip =>
        x <- liftF (inget ip) ;;
        if (i_type x =? T_DEVICE) && ((i_major x <? 0) || (NDEV <=? i_major x)) then
          liftW (iunlockput ip) ;;; kend_op ;;; kret (-1)
        else
          f <- filealloc ;;
          match f with
          | None => liftW (iunlockput ip) ;;; kend_op ;;; kret (-1)
          | Some f =>
              fd <- fdalloc f ;;
              if fd <? 0 then
                fileclose f ;;; liftW (iunlockput ip) ;;; kend_op ;;; kret (-1)
              else
                let r := negb (has omode O_WRONLY) in
                let w := has omode O_WRONLY || has omode O_RDWR in
                (if i_type x =? T_DEVICE
                 then fmod f (fun y => File FD_DEVICE (f_ref y) r w (f_pipe y) ip (f_off y) (i_major x))
                 else fmod f (fun y => File FD_INODE (f_ref y) r w (f_pipe y) ip 0 (f_major y))) ;;;
                (if has omode O_TRUNC && (i_type x =? T_FILE) then liftW (itrunc ip) else kret tt) ;;;
                liftW (iunlock ip) ;;;
                kend_op ;;;
                kret fd
          end
    end.

Definition sys_mkdir : K kstate Z :=
  kbegin_op ;;;
  path <- argstr 0 MAXPATH ;;
  ip <- (if fst path <? 0 then kret None else liftW (create (snd path) T_DIR 0 0)) ;;
  match ip with
  | None => kend_op ;;; kret (-1)
  | Some ip => liftW (iunlockput ip) ;;; kend_op ;;; kret 0
  end.

Definition sys_mknod : K kstate Z :=
  kbegin_op ;;;
  major <- argint 1 ;;
  minor <- argint 2 ;;
  path <- argstr 0 MAXPATH ;;
  ip <- (if fst path <? 0 then kret None else liftW (create (snd path) T_DEVICE (int16 major) (int16 minor))) ;;
  match ip with
  | None => kend_op ;;; kret (-1)
  | Some ip => liftW (iunlockput ip) ;;; kend_op ;;; kret 0
  end.

Definition sys_chdir : K kstate Z :=
  kbegin_op ;;;
  path <- argstr 0 MAXPATH ;;
  ip <- (if fst path <? 0 then kret None else liftW (namei (snd path))) ;;
  match ip with
  | None => kend_op ;;; kret (-1)
  | Some ip =>
      liftW (ilock ip) ;;;
      x <- liftF (inget ip) ;;
      if negb (i_type x =? T_DIR) then liftW (iunlockput ip) ;;; kend_op ;;; kret (-1)
      else
        liftW (iunlock ip) ;;;
        p <- mine ;;
        liftW (iput (default 0%nat (p_cwd p))) ;;;
        kend_op ;;;
        pmine (set_cwd (Some ip)) ;;;
        kret 0
  end.

(** ** pipe *)

Definition sys_pipe : K kstate Z :=
  fdarray <- argaddr 0 ;;
  p <- pipealloc ;;
  match p with
  | None => kret (-1)
  | Some (rf, wf) =>
      fd0 <- fdalloc rf ;;
      fd1 <- (if fd0 <? 0 then kret (-1) else fdalloc wf) ;;
      if fd1 <? 0 then
        (if 0 <=? fd0 then fdclear fd0 else kret tt) ;;;
        fileclose rf ;;; fileclose wf ;;; kret (-1)
      else
        x <- mine ;;
        r <- kmemop (copyout (p_pagetable x) fdarray (le_bytes 4 fd0)) ;;
        r <- (if r <? 0 then kret r else kmemop (copyout (p_pagetable x) (uint64 (fdarray + 4)) (le_bytes 4 fd1))) ;;
        if r <? 0 then
          fdclear fd0 ;;; fdclear fd1 ;;;
          fileclose rf ;;; fileclose wf ;;; kret (-1)
        else kret 0
  end.

End sysfile.
