(* ===== verification/Ulib.v ===== *)
(** * The user library

    The string routines of user/ulib.c on lists of bytes (a C string is the
    list of its characters up to the NUL, or up to the end of the list), and
    its [memmove] on memory. *)

From S2P Require Import Prelude Memory KString.

(** *s, with the NUL at the end of the list. *)
Definition chr (s : list Z) : Z := default 0 (head s).

Fixpoint strlen (s : list Z) : Z :=
  match s with
  | [] => 0
  | c :: s' => if c =? 0 then 0 else 1 + strlen s'
  end.

(** The length of the second string bounds the loop as well as the first. *)
Fixpoint strcmp (p q : list Z) : Z :=
  match p with
  | c :: p' => if negb (c =? 0) && (c =? chr q) then strcmp p' (tail q) else c - chr q
  | [] => 0 - chr q
  end.

(** The rest of the string from the first [c] on. *)
Fixpoint strchr (s : list Z) (c : Z) : option (list Z) :=
  match s with
  | [] => None
  | d :: s' => if d =? 0 then None else if d =? c then Some s else strchr s' c
  end.

Fixpoint atoi_loop (n : Z) (s : list Z) : Z :=
  match s with
  | c :: s' => if (48 <=? c) && (c <=? 57) then atoi_loop (int32 (n * 10 + c - 48)) s' else n
  | [] => n
  end.
Definition atoi (s : list Z) : Z := atoi_loop 0 s.

(** [gets]: [room] is max - 1 - i, and [input] what read(0, ...) will deliver,
    one character a call.  The line and the input that is left. *)
Fixpoint gets_loop (room : nat) (input : list Z) : list Z * list Z :=
  match room, input with
  | S room', c :: input' =>
      if (c =? 10) || (c =? 13) then ([c], input')
      else let r := gets_loop room' input' in (c :: fst r, snd r)
  | _, _ => ([], input)
  end.
Definition gets (max : Z) (input : list Z) : list Z * list Z := gets_loop (Z.to_nat (max - 1)) input.

Fixpoint memcmp (n : nat) (p1 p2 : list Z) : Z :=
  match n with
  | O => 0
  | S n' => if negb (chr p1 =? chr p2) then chr p1 - chr p2 else memcmp n' (tail p1) (tail p2)
  end.

(** Moves upwards only when the source lies above the destination. *)
Definition memmove (m : memory) (dst src n : Z) : memory :=
  if dst <? src then move_up (Z.to_nat n) m dst src
  else move_down (Z.to_nat n) m (dst + n) (src + n).

Lemma ulib_memmove m dst src n a : 0 <= n ->
  ld8 (memmove m dst src n) a = if decide (dst <= a < dst + n) then ld8 m (src + (a - dst)) else ld8 m a.
Proof.
  intros Hn. unfold memmove. destruct (Z.ltb_spec dst src).
  - rewrite ld8_move_up by lia. by rewrite Z2Nat.id.
  - rewrite ld8_move_down by lia. rewrite Z2Nat.id by done. repeat case_decide; try lia; try done. f_equal. lia.
Qed.

(** [gets] takes at most [max - 1] characters of the input, stops after the
    first end of line, and takes nothing else. *)
Lemma gets_line max input : let r := gets max input in
  fst r ++ snd r = input /\ (length (fst r) <= Z.to_nat (max - 1))%nat /\
  (forall l c, fst r = l ++ [c] -> Forall (fun x => x <> 10 /\ x <> 13) l).
Proof.
  unfold gets. generalize (Z.to_nat (max - 1)) as room. intros room. revert input.
  induction room as [|room IH]; intros input.
  { destruct input; cbn; (split; [done|]); (split; [lia|]); by intros [] c. }
  destruct input as [|c input].
  { cbn. split; [done|]. split; [lia|]. by intros [] c. }
  cbn [gets_loop]. destruct ((c =? 10) || (c =? 13)) eqn:E.
  - cbn. split; [done|]. split; [lia|]. intros l d [= El]. destruct l as [|? []]; done.
  - destruct (IH input) as (H1 & H2 & H3). cbn [fst snd app length]. split; [by rewrite H1|]. split; [lia|].
    intros l d Hl. destruct l as [|e l]; [constructor|]. cbn in Hl. injection Hl as -> Hl. constructor; [lia|by eapply H3].
Qed.
