(* ===== verification/Printf.v ===== *)
(** * printf

    The formatted output of the kernel (kernel/printf.c) and of user programs
    (user/printf.c).  The output is the list of characters passed to consputc
    or written to the file; [None] is a write outside the buffer of
    [printint], or a missing argument.  An argument is a 64-bit word, as the
    calling convention passes it. *)

From S2P Require Import Prelude Ulib.

Definition int64 (z : Z) : Z := (z + 2 ^ 63) mod 2 ^ 64 - 2 ^ 63.

(** "0123456789abcdef" and "0123456789ABCDEF" *)
Definition kdigits : list Z := [48;49;50;51;52;53;54;55;56;57;97;98;99;100;101;102].
Definition udigits : list Z := [48;49;50;51;52;53;54;55;56;57;65;66;67;68;69;70].

(** [do { buf[i++] = digits[x % base]; } while((x /= base) != 0);] with [room]
    bytes of [buf] left. *)
Fixpoint put_digits (room : nat) (digits : list Z) (x base : Z) : option (list Z) :=
  match room with
  | O => None
  | S room' =>
      let c := nth (Z.to_nat (x mod base)) digits 0 in
      if x / base =? 0 then Some [c] else cons c <$> put_digits room' digits (x / base) base
  end.

(** The digits, the sign, and the output backwards. *)
Definition put_int (digits : list Z) (neg : bool) (x base : Z) : option (list Z) :=
  buf ← put_digits 16 digits x base;
  if neg then if (16 <=? length buf)%nat then None else Some (rev (buf ++ [45])) else Some (rev buf).

(** [printint] of the kernel, and of user programs. *)
Definition kprintint (xx base : Z) (sign : bool) : option (list Z) :=
  let sign := sign && (xx <? 0) in
  put_int kdigits sign (uint64 (if sign then - xx else xx)) base.
Definition uprintint (xx base : Z) (sgn : bool) : option (list Z) :=
  let neg := sgn && (xx <? 0) in
  put_int udigits neg (uint32 (if neg then - xx else xx)) base.

Fixpoint ptr_digits (n : nat) (digits : list Z) (x : Z) : list Z :=
  match n with
  | O => []
  | S n' => nth (Z.to_nat (Z.shiftr x 60)) digits 0 :: ptr_digits n' digits (uint64 (Z.shiftl x 4))
  end.
Definition printptr (digits : list Z) (x : Z) : list Z := 48 :: 120 :: ptr_digits 16 digits x.

Definition null_str : list Z := [40;110;117;108;108;41].

(** What a conversion prints, and how many characters after its first one
    belong to it; [None] as the first component for the end of the format. *)
Section conversion.
(** The string a pointer points to. *)
Variable str : Z -> list Z.
Variable digits : list Z.
Variable int : Z -> Z -> bool -> option (list Z).

Definition with_arg (args : list Z) (k : Z -> option (list Z)) (skip : nat) : option (list Z * list Z * nat) :=
  match args with
  | [] => None
  | w :: args' => out ← k w; Some (out, args', skip)
  end.

Definition conversion (c0 c1 c2 : Z) (args : list Z) : option (list Z * list Z * nat) :=
  if c0 =? 100 then with_arg args (fun w => int (int32 w) 10 true) 0
  else if (c0 =? 108) && (c1 =? 100) then with_arg args (fun w => int w 10 true) 1
  else if (c0 =? 108) && (c1 =? 108) && (c2 =? 100) then with_arg args (fun w => int w 10 true) 2
  else if c0 =? 117 then with_arg args (fun w => int (int32 w) 10 false) 0
  else if (c0 =? 108) && (c1 =? 117) then with_arg args (fun w => int w 10 false) 1
  else if (c0 =? 108) && (c1 =? 108) && (c2 =? 117) then with_arg args (fun w => int w 10 false) 2
  else if c0 =? 120 then with_arg args (fun w => int (int32 w) 16 false) 0
  else if (c0 =? 108) && (c1 =? 120) then with_arg args (fun w => int w 16 false) 1
  else if (c0 =? 108) && (c1 =? 108) && (c2 =? 120) then with_arg args (fun w => int w 16 false) 2
  else if c0 =? 112 then with_arg args (fun w => Some (printptr digits w)) 0
  else if c0 =? 115 then with_arg args (fun w => Some (if w =? 0 then null_str else str w)) 0
  else if c0 =? 37 then Some ([37], args, 0%nat)
  else Some ([37; c0], args, 0%nat).

(** The loop over the format: a character, or [%] and what follows it.  It
    ends at the end of the format. *)
Fixpoint format (fuel : nat) (fmt args : list Z) : option (list Z) :=
  match fuel, fmt with
  | S fuel', c :: fmt' =>
      if negb (c =? 37) then cons c <$> format fuel' fmt' args
      else
        match fmt' with
        | [] => Some []
        | c0 :: fmt'' =>
            '(out, args', skip) ← conversion c0 (chr fmt'') (chr (tail fmt'')) args;
            app out <$> format fuel' (drop skip fmt'') args'
        end
  | _, _ => Some []
  end.
End conversion.

(** A 64-bit argument reaches [printint] as a long long in the kernel, and as
    an int in user programs. *)
Definition kprintf (str : Z -> list Z) (fmt args : list Z) : option (list Z) :=
  format str kdigits (fun w => kprintint (int64 w)) (length fmt) fmt args.
Definition uprintf (str : Z -> list Z) (fmt args : list Z) : option (list Z) :=
  format str udigits (fun w => uprintint (int32 w)) (length fmt) fmt args.

(** ** The buffer of printint *)

Lemma put_digits_room digits base room : forall x, 2 <= base -> 0 <= x -> (0 < room)%nat ->
  if decide (x < base ^ Z.of_nat room) then exists ds, put_digits room digits x base = Some ds /\ (length ds <= room)%nat
  else put_digits room digits x base = None.
Proof.
  induction room as [|room IH]; intros x Hb Hx Hr; [lia|]. cbn [put_digits].
  rewrite Nat2Z.inj_succ, Z.pow_succ_r by lia.
  assert (0 < base ^ Z.of_nat room) as Hp by (apply Z.pow_pos_nonneg; lia).
  pose proof (Z.div_mod x base ltac:(lia)) as Hdm. pose proof (Z.mod_pos_bound x base ltac:(lia)) as Hmod.
  assert (0 <= x / base) as Hd by (apply Z.div_pos; lia).
  destruct (Z.eqb_spec (x / base) 0) as [E|E].
  - rewrite decide_True by nia. eexists. split; [reflexivity|]. cbn. lia.
  - destruct (decide (room = 0%nat)) as [->|Hr0].
    + cbn [Z.of_nat Z.pow]. rewrite decide_False; [done|]. change (base * base ^ 0) with (base * 1). nia.
    + specialize (IH (x / base) Hb Hd ltac:(lia)). destruct (decide (x < base * base ^ Z.of_nat room)) as [E1|E1].
      * rewrite decide_True in IH by nia. destruct IH as (ds & -> & Hl). eexists. split; [reflexivity|]. cbn. lia.
      * rewrite decide_False in IH by nia. by rewrite IH.
Qed.

(** The room only decides whether there is a result. *)
Lemma put_digits_fun digits base r : forall r' x ds ds',
  put_digits r digits x base = Some ds -> put_digits r' digits x base = Some ds' -> ds = ds'.
Proof.
  induction r as [|r IH]; intros r' x ds ds' E E'; [done|]. destruct r' as [|r']; [done|]. cbn [put_digits] in *.
  destruct (x / base =? 0); [congruence|].
  destruct (put_digits r digits (x / base) base) eqn:E1, (put_digits r' digits (x / base) base) eqn:E2; try done.
  injection E as <-. injection E' as <-. f_equal. by eapply IH.
Qed.

(** An int in decimal always fits the buffer of printint. *)
Lemma uprintint_int w sgn : exists ds, uprintint w 10 sgn = Some ds.
Proof.
  unfold uprintint, put_int. set (neg := sgn && (w <? 0)). pose proof (uint32_range (if neg then - w else w)) as Hx.
  pose proof (put_digits_room udigits 10 15 _ ltac:(lia) (proj1 Hx) ltac:(lia)) as H. rewrite decide_True in H by lia. destruct H as (ds & E & Hl).
  pose proof (put_digits_room udigits 10 16 _ ltac:(lia) (proj1 Hx) ltac:(lia)) as H. rewrite decide_True in H by lia. destruct H as (ds' & E' & _).
  rewrite E'. cbn [mbind option_bind]. pose proof (put_digits_fun _ _ _ _ _ _ _ E E') as ->. destruct neg; [|by eexists].
  rewrite (proj2 (Nat.leb_gt _ _)) by lia. by eexists.
Qed.

(** What %d prints. *)
Definition decimal (w : Z) : list Z := default [] (uprintint (int32 w) 10 true).
Lemma uprintf_decimal w : uprintint (int32 (int32 w)) 10 true = Some (decimal w).
Proof. unfold decimal. rewrite (int32_small (int32 w)) by apply int32_range. by destruct (uprintint_int (int32 w) true) as [ds ->]. Qed.

(** Reading decimal digits back. *)
Lemma digit_char x : 0 <= x < 10 -> nth (Z.to_nat x) udigits 0 = 48 + x.
Proof.
  intros Hx. assert (x ∈ [0;1;2;3;4;5;6;7;8;9]) as Hin by (rewrite !elem_of_cons, elem_of_nil; lia).
  rewrite !elem_of_cons, elem_of_nil in Hin. destruct_or! Hin; by subst.
Qed.

Lemma atoi_digits room : forall x ds rest, put_digits room udigits x 10 = Some ds -> 0 <= x < 2 ^ 31 ->
  atoi_loop 0 (rev ds ++ rest) = atoi_loop x rest.
Proof.
  induction room as [|room IH]; intros x ds rest E Hx; [done|]. cbn [put_digits] in E.
  pose proof (Z.mod_pos_bound x 10 ltac:(lia)) as Hmod. rewrite digit_char in E by done.
  assert (forall n, n = x / 10 -> atoi_loop n ((48 + x mod 10) :: rest) = atoi_loop x rest) as Hstep.
  { intros n ->. cbn [atoi_loop]. replace ((48 <=? 48 + x mod 10) && (48 + x mod 10 <=? 57)) with true by lia.
    f_equal. rewrite int32_small by (Z.div_mod_to_equations; lia). Z.div_mod_to_equations. lia. }
  destruct (Z.eqb_spec (x / 10) 0) as [E0|E0].
  - injection E as <-. cbn [rev app]. by apply Hstep.
  - destruct (put_digits room udigits (x / 10) 10) as [ds'|] eqn:E1; [|done]. injection E as <-.
    cbn [rev]. rewrite <- app_assoc. cbn [app]. rewrite (IH (x / 10)) by (done || (Z.div_mod_to_equations; lia)). by apply Hstep.
Qed.

Lemma atoi_stop n rest : ~ (48 <= chr rest <= 57) -> atoi_loop n rest = n.
Proof.
  intros Hc. destruct rest as [|c rest]; [done|]. cbn [atoi_loop]. change (chr (c :: rest)) with c in Hc.
  by replace ((48 <=? c) && (c <=? 57)) with false by lia.
Qed.

(** A number printed with %d is read back by [atoi].  For every int (the
    smallest one apart, whose negation is not an int), [printint] of user
    programs stays inside its buffer, prints a minus sign exactly for negative
    numbers, and [atoi] of the digits, whatever other characters follow them,
    returns the absolute value. *)
Theorem atoi_printint n rest : - 2 ^ 31 < n < 2 ^ 31 -> ~ (48 <= chr rest <= 57) ->
  exists out, uprintint n 10 true = Some ((if n <? 0 then [45] else []) ++ out) /\ atoi (out ++ rest) = Z.abs n.
Proof.
  intros Hn Hrest. unfold uprintint, put_int. cbn [andb]. set (x := Z.abs n).
  assert (uint32 (if n <? 0 then - n else n) = x) as ->.
  { unfold x. rewrite uint32_small; destruct (Z.ltb_spec n 0); lia. }
  pose proof (put_digits_room udigits 10 16 x ltac:(lia) ltac:(lia) ltac:(lia)) as Hr.
  rewrite decide_True in Hr by (change (10 ^ Z.of_nat 16) with 10000000000000000; lia).
  destruct Hr as (ds & Eds & Hl).
  pose proof (put_digits_room udigits 10 10 x ltac:(lia) ltac:(lia) ltac:(lia)) as Hr10.
  rewrite decide_True in Hr10 by (change (10 ^ Z.of_nat 10) with 10000000000; lia). destruct Hr10 as (ds' & E' & Hl').
  rewrite (put_digits_fun _ _ _ _ _ _ _ E' Eds) in Hl'.
  rewrite Eds. cbn [mbind option_bind]. exists (rev ds). split.
  - destruct (n <? 0); [|done]. replace (16 <=? length ds)%nat with false by (symmetry; apply Nat.leb_gt; lia). by rewrite rev_app_distr.
  - unfold atoi. rewrite (atoi_digits 16 x ds rest Eds) by lia. by apply atoi_stop.
Qed.

Lemma atoi_printint_witness : exists out, uprintint (-42) 10 true = Some ([45] ++ out) /\ atoi (out ++ [32]) = 42.
Proof.
  destruct (atoi_printint (-42) [32]) as (out & E & Ha); [lia|cbn; lia|]. exists out. split; [exact E|exact Ha].
Defined.

(** ** The kernel's printf *)

Lemma int64_small z : - 2 ^ 63 <= z < 2 ^ 63 -> int64 z = z.
Proof. intros. unfold int64. rewrite Z.mod_small; lia. Qed.

(** "%d", "%u", "%x" and "%lu" *)
Definition fmt_d : list Z := [37; 100].
Definition fmt_u : list Z := [37; 117].
Definition fmt_x : list Z := [37; 120].
Definition fmt_lu : list Z := [37; 108; 117].

Lemma kprintf_one str w : 0 <= w < 2 ^ 64 ->
  kprintf str fmt_d [w] = (out ← kprintint (int64 (int32 w)) 10 true; Some (out ++ [])) /\
  kprintf str fmt_u [w] = (out ← kprintint (int64 (int32 w)) 10 false; Some (out ++ [])) /\
  kprintf str fmt_x [w] = (out ← kprintint (int64 (int32 w)) 16 false; Some (out ++ [])) /\
  kprintf str fmt_lu [w] = (out ← kprintint (int64 w) 10 false; Some (out ++ [])).
Proof.
  intros Hw. unfold kprintf, fmt_d, fmt_u, fmt_x, fmt_lu.
  repeat split; cbn -[kprintint int32 int64]; by destruct (kprintint _ _ _).
Qed.

(** An int without its sign has up to 20 digits. *)
Lemma uint64_int32 w : uint64 (int64 (int32 w)) = if int32 w <? 0 then int32 w + 2 ^ 64 else int32 w.
Proof.
  pose proof (int32_range w). rewrite int64_small by lia. unfold uint64. destruct (Z.ltb_spec (int32 w) 0); [|by apply Z.mod_small; lia].
  rewrite <- (Z.mod_add _ 1) by lia. rewrite Z.mod_small; lia.
Qed.

(** C40: The kernel's [printf] writes past the 16-byte buffer of [printint] for
    some arguments.  %d and %x never do; %u does exactly when the int is
    negative, which is printed as a 64-bit number of 20 digits, and %lu
    exactly from 10^16 on. *)
Theorem kprintf_buffer str w : 0 <= w < 2 ^ 64 ->
  is_Some (kprintf str fmt_d [w]) /\ is_Some (kprintf str fmt_x [w]) /\
  (kprintf str fmt_u [w] = None <-> int32 w < 0) /\ (kprintf str fmt_lu [w] = None <-> 10 ^ 16 <= w).
Proof.
  intros Hw. destruct (kprintf_one str w Hw) as (-> & -> & -> & ->). pose proof (int32_range w) as Hi.
  assert (forall neg x base, 2 <= base -> 0 <= x -> (neg = true -> x < base ^ 15) -> x < base ^ 16 ->
    is_Some (put_int kdigits neg x base)) as Hsome.
  { intros neg x base Hb Hx H15 H16. unfold put_int.
    pose proof (put_digits_room kdigits base 16 x Hb Hx ltac:(lia)) as Hr. rewrite decide_True in Hr by done. destruct Hr as (ds & E & Hl).
    rewrite E. cbn [mbind option_bind]. destruct neg; [|done].
    pose proof (put_digits_room kdigits base 15 x Hb Hx ltac:(lia)) as Hr. rewrite decide_True in Hr by (by apply H15).
    destruct Hr as (ds' & E' & Hl'). rewrite (put_digits_fun _ _ _ _ _ _ _ E' E) in Hl'.
    by replace (16 <=? length ds)%nat with false by (symmetry; apply Nat.leb_gt; lia). }
  assert (forall x, 0 <= x -> put_int kdigits false x 10 = None <-> 10 ^ 16 <= x) as Hnone.
  { intros x Hx. unfold put_int. pose proof (put_digits_room kdigits 10 16 x ltac:(lia) Hx ltac:(lia)) as Hr.
    change (10 ^ Z.of_nat 16) with (10 ^ 16) in Hr. case_decide as E; [destruct Hr as (ds & -> & _)|rewrite Hr]; cbn [mbind option_bind].
    - split; [done|lia].
    - split; [lia|done]. }
  assert (forall o : option (list Z), is_Some o -> is_Some (out ← o; Some (out ++ []))) as Hb by (intros o [y ->]; done).
  assert (forall o : option (list Z), (out ← o; Some (out ++ [])) = None <-> o = None) as Hb' by (intros [y|]; done).
  split; [apply Hb|split; [apply Hb|split; rewrite Hb']]; unfold kprintint; cbn [andb]; cbv zeta.
  - rewrite int64_small by lia. apply Hsome; [lia| | |].
    + apply uint64_range.
    + intros _. rewrite uint64_small by (destruct (_ <? 0) eqn:E; lia). change (10 ^ 15) with 1000000000000000. destruct (_ <? 0) eqn:E; lia.
    + rewrite uint64_small by (destruct (_ <? 0) eqn:E; lia). change (10 ^ 16) with 10000000000000000. destruct (_ <? 0) eqn:E; lia.
  - apply Hsome; [lia|apply uint64_range|done|]. change (16 ^ 16) with (2 ^ 64). apply uint64_range.
  - rewrite Hnone by apply uint64_range. rewrite uint64_int32. change (10 ^ 16) with 10000000000000000.
    destruct (Z.ltb_spec (int32 w) 0); lia.
  - rewrite Hnone by apply uint64_range. assert (uint64 (int64 w) = w) as ->; [|done].
    unfold uint64, int64. rewrite Zminus_mod_idemp_l. replace (w + 2 ^ 63 - 2 ^ 63) with w by lia. by apply Z.mod_small.
Qed.

Lemma kprintf_buffer_witness : kprintf (fun _ => []) fmt_u [2 ^ 64 - 1] = None.
Proof.
  destruct (kprintf_buffer (fun _ => []) (2 ^ 64 - 1)) as (_ & _ & Hu & _); [lia|]. apply Hu. reflexivity.
Defined.
