(* ===== verification/Exec.v ===== *)
(** * exec (kernel/exec.c) and sys_exec (kernel/sysfile.c)

    Loading an ELF file into a new page table, building the argument stack
    and switching the process to the new image. *)

From S2P Require Import Prelude Memory KString Ulib Printf Kalloc Vm Bytes Sleeplock Bio Log Fs FsFile Ring KState Pipe Console File Proc Syscall Sysfile.

(** ** kernel/elf.h *)

Definition ELF_MAGIC : Z := 0x464C457F.
Definition ELF_PROG_LOAD : Z := 1.
Definition ELFHDR : Z := 64.
Definition PROGHDR : Z := 56.
Definition USERSTACK : Z := 1.

Definition get64 (d : list Z) (off : Z) : Z := get_le 8 d off.

Definition elf_magic (h : list Z) : Z := get32 h 0.
Definition elf_entry (h : list Z) : Z := get64 h 24.
Definition elf_phoff (h : list Z) : Z := get64 h 32.
Definition elf_phnum (h : list Z) : Z := get16 h 56.

Definition ph_type (h : list Z) : Z := get32 h 0.
Definition ph_flags (h : list Z) : Z := get32 h 4.
Definition ph_off (h : list Z) : Z := get64 h 8.
Definition ph_vaddr (h : list Z) : Z := get64 h 16.
Definition ph_filesz (h : list Z) : Z := get64 h 32.
Definition ph_memsz (h : list Z) : Z := get64 h 40.

Definition flags2perm (flags : Z) : Z :=
  let perm := if has flags 1 then PTE_X else 0 in
  if has flags 2 then Z.lor perm PTE_W else perm.

(** The name after the last slash. *)
Fixpoint last_elem (path last : list Z) : list Z :=
  match path with
  | [] => last
  | c :: path' => if c =? SLASH then last_elem path' path' else last_elem path' last
  end.

(** ** printf on the console *)

(** A C string. *)
Definition cstr (s : string) : list Z := map (fun a => Z.of_N (Ascii.N_of_ascii a)) (String.list_ascii_of_string s).

(** [printf] with the strings [str] at the addresses it is given. *)
Definition kprint_str (str : Z -> list Z) (fmt args : list Z) : K kstate unit :=
  match kprintf str fmt args with
  | Some out => foldr (fun c k => consputc c ;;; k) (kret tt) out
  | None => panic "printint: buffer overrun"
  end.

(** [printf] with a format that has no [%s]. *)
Definition kprint : list Z -> list Z -> K kstate unit := kprint_str (fun _ => []).

Section exec.
Context `{I : KernelImage}.

Fixpoint loadseg_loop (fuel : nat) (pagetable va : Z) (ip : nat) (offset sz i : Z) : K kstate Z :=
  match fuel with
  | O => kdiverge
  | S fuel' =>
      if i <? sz then
        pa <- kmemop (walkaddr pagetable (uint64 (va + i))) ;;
        if pa =? 0 then panic "loadseg: address should exist"
        else
          let n := if sz - i <? PGSIZE then sz - i else PGSIZE in
          r <- liftW (readi ip false pa (uint32 (offset + i)) n) ;;
          kmemop (kwrite pa (snd r)) ;;;
          if negb (fst r =? n) then kret (-1)
          else loadseg_loop fuel' pagetable va ip offset sz (uint32 (i + PGSIZE))
      else kret 0
  end.

Definition loadseg (pagetable va : Z) (ip : nat) (offset sz : Z) : K kstate Z :=
  loadseg_loop (S (S (Z.to_nat (sz / PGSIZE)))) pagetable va ip offset sz 0.

(** The loop over program headers: whether all were loaded, and the size
    reached, which [bad:] needs as well. *)
Fixpoint load_loop (k : nat) (pagetable : Z) (ip : nat) (off sz : Z) : K kstate (bool * Z) :=
  match k with
  | O => kret (true, sz)
  | S k' =>
      r <- liftW (readi ip false 0 (uint32 off) PROGHDR) ;;
      if negb (fst r =? PROGHDR) then kret (false, sz)
      else
        let ph := snd r in
        let off' := int32 (off + PROGHDR) in
        if negb (ph_type ph =? ELF_PROG_LOAD) then load_loop k' pagetable ip off' sz
        else if ph_memsz ph <? ph_filesz ph then kret (false, sz)
        else if uint64 (ph_vaddr ph + ph_memsz ph) <? ph_vaddr ph then kret (false, sz)
        else if negb (ph_vaddr ph mod PGSIZE =? 0) then kret (false, sz)
        else
          sz1 <- kmemop (uvmalloc pagetable sz (uint64 (ph_vaddr ph + ph_memsz ph)) (flags2perm (ph_flags ph))) ;;
          if sz1 =? 0 then kret (false, sz)
          else
            r <- loadseg pagetable (ph_vaddr ph) ip (uint32 (ph_off ph)) (uint32 (ph_filesz ph)) ;;
            if r <? 0 then kret (false, sz1)
            else load_loop k' pagetable ip off' sz1
  end.

(** Pushing the argument strings: the stack pointer and the addresses. *)
Fixpoint push_args (argv : list (list Z)) (argc : nat) (pagetable sp stackbase : Z) (ustack : list Z) :
    K kstate (option (Z * list Z)) :=
  match argv with
  | [] => kret (Some (sp, ustack))
  | arg :: argv' =>
      if bool_decide (MAXARG <= argc)%nat then kret None
      else
        let sp := uint64 (sp - (Z.of_nat (length arg) + 1)) in
        let sp := uint64 (sp - sp mod 16) in
        if sp <? stackbase then kret None
        else
          r <- kmemop (copyout pagetable sp (arg ++ [0])) ;;
          if r <? 0 then kret None
          else push_args argv' (S argc) pagetable sp stackbase (ustack ++ [sp])
  end.

(** [bad:] with and without the inode still locked. *)
Definition exec_bad (pagetable sz : Z) (ip : option nat) : K kstate Z :=
  (if negb (pagetable =? 0) then kmemop (proc_freepagetable pagetable sz) else kret tt) ;;;
  match ip with
  | Some ip => liftW (iunlockput ip) ;;; kend_op
  | None => kret tt
  end ;;;
  kret (-1).

(** The second half, after the program is loaded and the inode released. *)
Definition exec_image (path : list Z) (argv : list (list Z)) (elf : list Z) (pagetable sz : Z) : K kstate Z :=
  p <- mine ;;
  let oldsz := p_sz p in
  let sz := PGROUNDUP sz in
  sz1 <- kmemop (uvmalloc pagetable sz (uint64 (sz + (USERSTACK + 1) * PGSIZE)) PTE_W) ;;
  if sz1 =? 0 then exec_bad pagetable sz None
  else
    let sz := sz1 in
    kmemop (uvmclear pagetable (uint64 (sz - (USERSTACK + 1) * PGSIZE))) ;;;
    let stackbase := uint64 (sz - USERSTACK * PGSIZE) in
    a <- push_args argv 0 pagetable sz stackbase [] ;;
    match a with
    | None => exec_bad pagetable sz None
    | Some (sp, ustack) =>
        let argc := Z.of_nat (length argv) in
        let sp := uint64 (sp - (argc + 1) * 8) in
        let sp := uint64 (sp - sp mod 16) in
        if sp <? stackbase then exec_bad pagetable sz None
        else
          r <- kmemop (copyout pagetable sp (flat_map (le_bytes 8) (ustack ++ [0]))) ;;
          if r <? 0 then exec_bad pagetable sz None
          else
            tf_set (p_trapframe p) (TF_a 1) sp ;;;
            pmine (set_name (copy_name (last_elem path path))) ;;;
            pmine (set_pagetable pagetable) ;;;
            pmine (set_psz sz) ;;;
            tf_set (p_trapframe p) TF_epc (elf_entry elf) ;;;
            tf_set (p_trapframe p) TF_sp sp ;;;
            kmemop (proc_freepagetable (p_pagetable p) oldsz) ;;;
            kret argc
    end.

Definition exec (path : list Z) (argv : list (list Z)) : K kstate Z :=
  kbegin_op ;;;
  ip <- liftW (namei path) ;;
  match ip with
  | None => kend_op ;;; kret (-1)
  | Some ip =>
      liftW (ilock ip) ;;;
      r <- liftW (readi ip false 0 0 ELFHDR) ;;
      if negb (fst r =? ELFHDR) || negb (elf_magic (snd r) =? ELF_MAGIC) then exec_bad 0 0 (Some ip)
      else
        let elf := snd r in
        p <- mine ;;
        pagetable <- kmemop (proc_pagetable (p_trapframe p)) ;;
        if pagetable =? 0 then exec_bad 0 0 (Some ip)
        else
          l <- load_loop (Z.to_nat (elf_phnum elf)) pagetable ip (int32 (elf_phoff elf)) 0 ;;
          if negb (fst l) then exec_bad pagetable (snd l) (Some ip)
          else
            liftW (iunlockput ip) ;;;
            kend_op ;;;
            exec_image path argv elf pagetable (snd l)
  end.

(** ** sys_exec *)

(** The loop that fetches the arguments, with the pages and strings so far;
    the first result says whether it reached the end of [uargv]. *)
Fixpoint fetch_args (k : nat) (uargv i : Z) (pages : list Z) (args : list (list Z)) :
    K kstate (bool * list Z * list (list Z)) :=
  match k with
  | O => kret (false, pages, args)
  | S k' =>
      a <- fetchaddr (uint64 (uargv + 8 * i)) ;;
      if fst a <? 0 then kret (false, pages, args)
      else if snd a =? 0 then kret (true, pages, args)
      else
        page <- kmemop kalloc ;;
        if page =? 0 then kret (false, pages, args)
        else
          r <- fetchstr (snd a) PGSIZE ;;
          if fst r <? 0 then kret (false, pages ++ [page], args)
          else
            kmemop (kwrite page (snd r ++ [0])) ;;;
            fetch_args k' uargv (i + 1) (pages ++ [page]) (args ++ [snd r])
  end.

Fixpoint free_args (pages : list Z) : K kstate unit :=
  match pages with
  | [] => kret tt
  | p :: pages' => kmemop (kfree p) ;;; free_args pages'
  end.

Definition sys_exec : K kstate Z :=
  uargv <- argaddr 1 ;;
  path <- argstr 0 MAXPATH ;;
  if fst path <? 0 then kret (-1)
  else
    a <- fetch_args MAXARG uargv 0 [] [] ;;
    let '(ok, pages, args) := a in
    if negb ok then free_args pages ;;; kret (-1)
    else
      ret <- exec (snd path) args ;;
      free_args pages ;;;
      kret ret.

(** ** The system call table *)

Definition SYS_close : Z := 21.

Definition syscalls (num : Z) : option (K kstate Z) :=
  match num with
  | 1 => Some sys_fork | 2 => Some sys_exit | 3 => Some sys_wait | 4 => Some sys_pipe
  | 5 => Some sys_read | 6 => Some sys_kill | 7 => Some sys_exec | 8 => Some sys_fstat
  | 9 => Some sys_chdir | 10 => Some sys_dup | 11 => Some sys_getpid | 12 => Some sys_sbrk
  | 13 => Some sys_sleep | 14 => Some sys_uptime | 15 => Some sys_open | 16 => Some sys_write
  | 17 => Some sys_mknod | 18 => Some sys_unlink | 19 => Some sys_link | 20 => Some sys_mkdir
  | 21 => Some sys_close
  | _ => None
  end.

(** The address of [p->name]; all that [printf] asks of it is not to be 0. *)
Definition name_addr : Z := 1.

(** [syscall]; the result goes to [p->trapframe->a0] of the calling process
    (whose trapframe page does not change during the call). *)
Definition syscall : K kstate unit :=
  p <- mine ;;
  num <- tf_get (p_trapframe p) (TF_a 7) ;;
  match syscalls (int32 num) with
  | Some f => r <- f ;; tf_set (p_trapframe p) (TF_a 0) (uint64 r)
  | None =>
      kprint_str (fun _ => p_name p) (cstr "%d %s: unknown sys call %d" ++ [10]) [uint64 (p_pid p); name_addr; uint64 (int32 num)] ;;;
      tf_set (p_trapframe p) (TF_a 0) (uint64 (-1))
  end.

End exec.
