(* ===== verification/Quiet.v ===== *)
(** * What a system call does to the process table

    [evolves] bounds what kernel code running for a process may do to the
    process table: change the memory, open files, current directory and name
    of the running process itself, and wake other processes up.  Every
    operation of the file, pipe, console and memory layers, and every system
    call but fork, exit, wait and kill, stays within it. *)

From S2P Require Import Prelude Memory KString Ulib Printf Kalloc Vm Bytes Sleeplock Bio Log Fs FsFile Ring KState Machine Pipe Console File Proc Syscall Sysfile Exec.

(** Another process is left alone, or woken up. *)
Definition woken (x y : proc) : Prop := y = x \/ (p_state x = SLEEPING /\ y = set_state RUNNABLE x).

(** The running process keeps everything but its size, page table, open
    files, current directory and name. *)
Definition own_change (x y : proc) : Prop :=
  p_state y = p_state x /\ p_chan y = p_chan x /\ p_killed y = p_killed x /\ p_xstate y = p_xstate x /\
  p_pid y = p_pid x /\ p_parent y = p_parent x /\ p_kstack y = p_kstack x /\ p_trapframe y = p_trapframe x /\
  p_context y = p_context x /\ length (p_ofile y) = length (p_ofile x).

Record evolves (s s' : kstate) : Prop := {
  ev_next : k_nextpid s' = k_nextpid s;
  ev_me : k_me s' = k_me s;
  ev_init : k_initproc s' = k_initproc s;
  ev_len : length (k_proc s') = length (k_proc s);
  ev_other : forall i, i <> k_me s -> woken (getp s i) (getp s' i);
  ev_own : own_change (getp s (k_me s)) (getp s' (k_me s))
}.

Definition quiet {A} (c : K kstate A) : Prop := forall s,
  match c s with
  | Ret _ s' => evolves s s'
  | Sleep s' => exists ch s1, evolves s s1 /\ s' = sleep_on ch s1
  | Panic _ | Diverge => True
  end.

Lemma woken_trans x y z : woken x y -> woken y z -> woken x z.
Proof.
  intros [->|[H1 ->]] [->|[H2 ->]]; try (by left); right; done.
Qed.

Lemma own_change_trans x y z : own_change x y -> own_change y z -> own_change x z.
Proof. unfold own_change. intuition congruence. Qed.

Lemma own_change_refl x : own_change x x.
Proof. done. Qed.

Lemma evolves_refl s : evolves s s.
Proof. split; try done. intros. by left. Qed.

Lemma evolves_trans s1 s2 s3 : evolves s1 s2 -> evolves s2 s3 -> evolves s1 s3.
Proof.
  intros [A1 A2 A3 A4 A5 A6] [B1 B2 B3 B4 B5 B6]. split; try congruence.
  - intros i Hi. eapply woken_trans; [by apply A5|]. apply B5. congruence.
  - rewrite A2 in B6. by eapply own_change_trans.
Qed.

(** Nothing of the process table changes. *)
Lemma evolves_same s s' :
  k_nextpid s' = k_nextpid s -> k_me s' = k_me s -> k_initproc s' = k_initproc s -> k_proc s' = k_proc s -> evolves s s'.
Proof.
  intros H1 H2 H3 H4. assert (forall i, getp s' i = getp s i) as Hg by (intros; unfold getp; by rewrite H4).
  split; try done; [by rewrite H4|intros i _; left; apply Hg|by rewrite Hg].
Qed.

Create HintDb quiet discriminated.

Lemma quiet_bind {A B} (c : K kstate A) (f : A -> K kstate B) :
  quiet c -> (forall a, quiet (f a)) -> quiet (kbind c f).
Proof.
  intros Hc Hf s. specialize (Hc s). unfold kbind. destruct (c s) as [a s1|m|s1|]; try done.
  specialize (Hf a s1). destruct (f a s1) as [b s2|m|s2|]; try done.
  - by eapply evolves_trans.
  - destruct Hf as (ch & s3 & H1 & H2). exists ch, s3. split; [by eapply evolves_trans|done].
Qed.

Lemma quiet_ret {A} (a : A) : quiet (kret a).
Proof. intros s. apply evolves_refl. Qed.
Lemma quiet_panic {A} msg : quiet (panic (A := A) msg).
Proof. done. Qed.
Lemma quiet_diverge {A} : quiet (kdiverge (A := A)).
Proof. done. Qed.
Lemma quiet_get : quiet kget.
Proof. intros s. apply evolves_refl. Qed.
Lemma quiet_myproc : quiet myproc.
Proof. intros s. apply evolves_refl. Qed.
Lemma quiet_mine : quiet mine.
Proof. intros s. apply evolves_refl. Qed.
Lemma quiet_pget p : quiet (pget p).
Proof. intros s. apply evolves_refl. Qed.
Lemma quiet_piget pi : quiet (piget pi).
Proof. intros s. unfold piget. destruct (k_pipes s !! pi); [apply evolves_refl|done]. Qed.
Lemma quiet_piset pi x : quiet (piset pi x).
Proof. intros s. by apply evolves_same. Qed.
Lemma quiet_fget f : quiet (fget f).
Proof. intros s. apply evolves_refl. Qed.
Lemma quiet_fset f x : quiet (fset f x).
Proof. intros s. by apply evolves_same. Qed.
Lemma quiet_umod f : quiet (umod f).
Proof. intros s. by apply evolves_same. Qed.
Lemma quiet_cmod f : quiet (cmod f).
Proof. intros s. by apply evolves_same. Qed.
Lemma quiet_with_uart u : quiet (kmod (with_uart u)).
Proof. intros s. by apply evolves_same. Qed.
Lemma quiet_with_pipes f : quiet (kmod (fun s => with_pipes (f s) s)).
Proof. intros s. by apply evolves_same. Qed.

Lemma quiet_liftF {A} (c : K fstate A) : quiet (liftF c).
Proof.
  intros s. unfold liftF. destruct (c (enter_fs s)) as [a f|m|f|]; try done.
  - by apply evolves_same.
  - exists ChFs, (leave_fs f s). split; [by apply evolves_same|done].
Qed.

Lemma quiet_sleep {A} ch : quiet (sleep (A := A) ch).
Proof. intros s. exists ch, s. split; [apply evolves_refl|done]. Qed.

Lemma quiet_wakeup ch : quiet (wakeup ch).
Proof.
  intros s. unfold wakeup.
  assert (forall i, getp (with_proc (imap (wake1 (k_me s) ch) (k_proc s)) s) i =
    if decide (i < length (k_proc s))%nat then wake1 (k_me s) ch i (getp s i) else getp s i) as Hg.
  { intros i. unfold getp. cbn [k_proc with_proc]. rewrite list_lookup_imap. case_decide as E.
    - apply lookup_lt_is_Some_2 in E as [x ->]. done.
    - rewrite lookup_ge_None_2 by lia. done. }
  split; try done.
  - cbn [k_proc with_proc]. by rewrite length_imap.
  - intros i Hi. rewrite Hg. case_decide; [|by left]. unfold wake1. rewrite decide_False by done.
    case_decide as E; [right; split; [apply E|done]|by left].
  - rewrite Hg. case_decide; [|done]. unfold wake1. by rewrite decide_True.
Qed.

Lemma quiet_liftW {A} (c : K fstate A) : quiet (liftW c).
Proof.
  apply quiet_bind; [apply quiet_liftF|]. intros a. apply quiet_bind; [apply quiet_wakeup|]. intros []. apply quiet_ret.
Qed.

Lemma getp_setp_same s p x : (p < length (k_proc s))%nat -> getp (setp s p x) p = x.
Proof. intros H. unfold getp, setp. cbn [k_proc with_proc]. by rewrite list_lookup_insert_eq. Qed.
Lemma getp_setp_other s p x i : i <> p -> getp (setp s p x) i = getp s i.
Proof. intros H. unfold getp, setp. cbn [k_proc with_proc]. by rewrite list_lookup_insert_ne. Qed.

(** A change to the running process that [own_change] allows. *)
Lemma quiet_pmine f : (forall x, own_change x (f x)) -> quiet (pmine f).
Proof.
  intros Hf s. unfold pmine, pmod. split; try done.
  - unfold setp. cbn [k_proc with_proc]. by rewrite length_insert.
  - intros i Hi. rewrite getp_setp_other by done. by left.
  - destruct (decide (k_me s < length (k_proc s))%nat).
    + by rewrite getp_setp_same.
    + unfold getp, setp. cbn [k_proc with_proc k_me]. by rewrite list_insert_ge by lia.
Qed.

#[export] Hint Resolve quiet_ret quiet_panic quiet_diverge quiet_get quiet_myproc quiet_mine quiet_pget quiet_piget
  quiet_piset quiet_fget quiet_fset quiet_umod quiet_cmod quiet_with_uart quiet_with_pipes quiet_liftF quiet_liftW quiet_sleep
  quiet_wakeup : quiet.

(** [quiet_tac] walks through the code of an operation. *)
Ltac quiet_tac :=
  repeat first
    [ solve [auto with quiet nocore]
    | apply quiet_bind; [|intros]
    | apply quiet_pmine; intros; unfold own_change; cbn; rewrite ?length_insert; done
    | progress cbv zeta
    | case_match ].

Section quiet.
Context `{I : KernelImage}.

Lemma quiet_kmemop {A} (c : K kmem A) : quiet (kmemop c).
Proof. apply quiet_liftF. Qed.
Lemma quiet_begin_op : quiet kbegin_op.
Proof. apply quiet_liftF. Qed.
Lemma quiet_end_op : quiet kend_op.
Proof. apply quiet_liftW. Qed.
Lemma quiet_tf_get tf off : quiet (tf_get tf off).
Proof. apply quiet_liftF. Qed.
Lemma quiet_tf_set tf off v : quiet (tf_set tf off v).
Proof. apply quiet_liftF. Qed.
Lemma quiet_killed p : quiet (killed p).
Proof. unfold killed. quiet_tac. Qed.
Lemma quiet_copyin1 a : quiet (copyin1 a).
Proof. apply quiet_bind; [apply quiet_mine|]. intros. apply quiet_liftF. Qed.
Lemma quiet_copyout1 a c : quiet (copyout1 a c).
Proof. apply quiet_bind; [apply quiet_mine|]. intros. apply quiet_liftF. Qed.
#[local] Hint Resolve quiet_kmemop quiet_begin_op quiet_end_op quiet_tf_get quiet_tf_set quiet_killed quiet_copyin1
  quiet_copyout1 : quiet.

(** ** Pipes, console, files *)

Lemma quiet_pipeclose pi w : quiet (pipeclose pi w).
Proof. unfold pipeclose. quiet_tac. Qed.
Lemma quiet_pipewrite pi addr n : quiet (pipewrite pi addr n).
Proof.
  unfold pipewrite. generalize 0 at 1. induction (S (Z.to_nat n)) as [|k IH]; intros i; cbn [pipewrite_loop]; quiet_tac.
Qed.
Lemma quiet_piperead pi addr n : quiet (piperead pi addr n).
Proof.
  assert (forall k i, quiet (piperead_loop k pi addr i n)) as Hl
    by (induction k; intros; cbn [piperead_loop]; quiet_tac).
  unfold piperead. quiet_tac.
Qed.
Lemma quiet_uartstart : quiet uartstart.
Proof. unfold uartstart. induction (S _); cbn [uartstart_loop]; quiet_tac. Qed.
#[local] Hint Resolve quiet_pipeclose quiet_pipewrite quiet_piperead quiet_uartstart : quiet.
Lemma quiet_uartputc c : quiet (uartputc c).
Proof. unfold uartputc. quiet_tac. Qed.
#[local] Hint Resolve quiet_uartputc : quiet.
Lemma quiet_uartputc_sync c : quiet (uartputc_sync c).
Proof. unfold uartputc_sync. quiet_tac. Qed.
Lemma quiet_consputc c : quiet (consputc c).
Proof. pose proof quiet_uartputc_sync. unfold consputc. quiet_tac. Qed.
Lemma quiet_kprint_str str fmt args : quiet (kprint_str str fmt args).
Proof.
  pose proof quiet_consputc. unfold kprint_str. destruct (kprintf _ fmt args) as [out|]; [|apply quiet_panic]. induction out; cbn [foldr]; quiet_tac.
Qed.
Lemma quiet_kprint fmt args : quiet (kprint fmt args).
Proof. apply quiet_kprint_str. Qed.
Lemma quiet_consolewrite src n : quiet (consolewrite src n).
Proof.
  unfold consolewrite. generalize 0 at 1. induction (S (Z.to_nat n)) as [|k IH]; intros i; cbn [consolewrite_loop]; quiet_tac.
Qed.
Lemma quiet_consoleread u dst n : quiet (consoleread u dst n).
Proof.
  assert (forall k dst m t, quiet (consoleread_loop k u dst m t)) as Hl
    by (induction k; intros; cbn [consoleread_loop]; quiet_tac).
  unfold consoleread. quiet_tac.
Qed.
#[local] Hint Resolve quiet_consolewrite quiet_consoleread : quiet.

Lemma quiet_fmod f g : quiet (fmod f g).
Proof. unfold fmod. quiet_tac. Qed.
#[local] Hint Resolve quiet_fmod : quiet.
Lemma quiet_filealloc : quiet filealloc.
Proof. unfold filealloc. quiet_tac. Qed.
Lemma quiet_filedup f : quiet (filedup f).
Proof. unfold filedup. quiet_tac. Qed.
Lemma quiet_fileclose f : quiet (fileclose f).
Proof. unfold fileclose. quiet_tac. Qed.
Lemma quiet_filestat f a : quiet (filestat f a).
Proof. unfold filestat. quiet_tac. Qed.
Lemma quiet_fileread f a n : quiet (fileread f a n).
Proof. unfold fileread. quiet_tac. Qed.
Lemma quiet_filewrite f a n : quiet (filewrite f a n).
Proof.
  assert (forall k i, quiet (filewrite_loop k f a i n)) as Hl
    by (induction k; intros; cbn [filewrite_loop]; quiet_tac).
  unfold filewrite. quiet_tac.
Qed.
#[local] Hint Resolve quiet_filealloc quiet_filedup quiet_fileclose quiet_filestat quiet_fileread quiet_filewrite : quiet.
Lemma quiet_pipealloc : quiet pipealloc.
Proof. unfold pipealloc. quiet_tac. Qed.
#[local] Hint Resolve quiet_pipealloc : quiet.

(** ** System calls *)

Lemma quiet_argraw n : quiet (argraw n).
Proof. unfold argraw. quiet_tac. Qed.
Lemma quiet_argaddr n : quiet (argaddr n).
Proof. apply quiet_argraw. Qed.
#[local] Hint Resolve quiet_argraw quiet_argaddr : quiet.
Lemma quiet_argint n : quiet (argint n).
Proof. unfold argint. quiet_tac. Qed.
Lemma quiet_fetchaddr a : quiet (fetchaddr a).
Proof. unfold fetchaddr. quiet_tac. Qed.
Lemma quiet_fetchstr a m : quiet (fetchstr a m).
Proof. unfold fetchstr. quiet_tac. Qed.
#[local] Hint Resolve quiet_argint quiet_fetchaddr quiet_fetchstr : quiet.
Lemma quiet_argstr n m : quiet (argstr n m).
Proof. unfold argstr. quiet_tac. Qed.
Lemma quiet_argfd n : quiet (argfd n).
Proof. unfold argfd. quiet_tac. Qed.
Lemma quiet_fdalloc f : quiet (fdalloc f).
Proof. unfold fdalloc. quiet_tac. Qed.
Lemma quiet_fdclear f : quiet (fdclear f).
Proof. unfold fdclear. quiet_tac. Qed.
#[local] Hint Resolve quiet_argstr quiet_argfd quiet_fdalloc quiet_fdclear : quiet.

Lemma quiet_sys_pipe : quiet sys_pipe.
Proof. unfold sys_pipe. quiet_tac. Qed.
Lemma quiet_sys_read : quiet sys_read.
Proof. unfold sys_read. quiet_tac. Qed.
Lemma quiet_sys_write : quiet sys_write.
Proof. unfold sys_write. quiet_tac. Qed.
Lemma quiet_sys_fstat : quiet sys_fstat.
Proof. unfold sys_fstat. quiet_tac. Qed.
Lemma quiet_sys_chdir : quiet sys_chdir.
Proof. unfold sys_chdir. quiet_tac. Qed.
Lemma quiet_sys_dup : quiet sys_dup.
Proof. unfold sys_dup. quiet_tac. Qed.
Lemma quiet_sys_close : quiet sys_close.
Proof. unfold sys_close. quiet_tac. Qed.
Lemma quiet_sys_getpid : quiet sys_getpid.
Proof. unfold sys_getpid. quiet_tac. Qed.
Lemma quiet_growproc n : quiet (growproc n).
Proof. unfold growproc. quiet_tac. Qed.
#[local] Hint Resolve quiet_growproc : quiet.
Lemma quiet_sys_sbrk : quiet sys_sbrk.
Proof. unfold sys_sbrk. quiet_tac. Qed.
Lemma quiet_sys_sleep : quiet sys_sleep.
Proof. unfold sys_sleep, sleep_until. quiet_tac. Qed.
Lemma quiet_sys_uptime : quiet sys_uptime.
Proof. unfold sys_uptime. quiet_tac. Qed.
Lemma quiet_open_inode p m : quiet (open_inode p m).
Proof. unfold open_inode. quiet_tac. Qed.
#[local] Hint Resolve quiet_open_inode : quiet.
Lemma quiet_sys_open : quiet sys_open.
Proof. unfold sys_open. quiet_tac. Qed.
Lemma quiet_sys_mknod : quiet sys_mknod.
Proof. unfold sys_mknod. quiet_tac. Qed.
Lemma quiet_sys_mkdir : quiet sys_mkdir.
Proof. unfold sys_mkdir. quiet_tac. Qed.
Lemma quiet_sys_link : quiet sys_link.
Proof. unfold sys_link, link_bad. quiet_tac. Qed.
Lemma quiet_sys_unlink : quiet sys_unlink.
Proof. unfold sys_unlink, unlink_bad. quiet_tac. Qed.

(** ** exec *)

Lemma quiet_loadseg pt va ip off sz : quiet (loadseg pt va ip off sz).
Proof. unfold loadseg. generalize 0 at 1. induction (S _) as [|k IH]; intros i; cbn [loadseg_loop]; quiet_tac. Qed.
#[local] Hint Resolve quiet_loadseg : quiet.
Lemma quiet_load_loop k : forall pt ip off sz, quiet (load_loop k pt ip off sz).
Proof. induction k; intros; cbn [load_loop]; quiet_tac. Qed.
Lemma quiet_push_args argv : forall argc pt sp base us, quiet (push_args argv argc pt sp base us).
Proof. induction argv; intros; cbn [push_args]; quiet_tac. Qed.
#[local] Hint Resolve quiet_load_loop quiet_push_args : quiet.
Lemma quiet_exec_bad pt sz ip : quiet (exec_bad pt sz ip).
Proof. unfold exec_bad. quiet_tac. Qed.
#[local] Hint Resolve quiet_exec_bad : quiet.
Lemma quiet_exec path argv : quiet (exec path argv).
Proof. unfold exec, exec_image. quiet_tac. Qed.
Lemma quiet_fetch_args k : forall u i pages args, quiet (fetch_args k u i pages args).
Proof. induction k; intros; cbn [fetch_args]; quiet_tac. Qed.
Lemma quiet_free_args pages : quiet (free_args pages).
Proof. induction pages; cbn [free_args]; quiet_tac. Qed.
#[local] Hint Resolve quiet_exec quiet_fetch_args quiet_free_args : quiet.
Lemma quiet_sys_exec : quiet sys_exec.
Proof. unfold sys_exec. quiet_tac. Qed.

Lemma syscall_quiet num f : syscalls num = Some f -> ~ In num [1; 2; 3; 6] -> quiet f.
Proof.
  intros H Hn. unfold syscalls in H. repeat (case_match; simplify_eq; try (exfalso; apply Hn; simpl; tauto));
    auto using quiet_sys_pipe, quiet_sys_read, quiet_sys_exec, quiet_sys_fstat, quiet_sys_chdir, quiet_sys_dup,
      quiet_sys_getpid, quiet_sys_sbrk, quiet_sys_sleep, quiet_sys_uptime, quiet_sys_open, quiet_sys_write,
      quiet_sys_mknod, quiet_sys_unlink, quiet_sys_link, quiet_sys_mkdir, quiet_sys_close.
Qed.

(** Every system call other than fork, exit, wait and kill leaves the
    process table alone except for the size, page table, open files, current
    directory and name of the calling process, and for waking up sleeping
    processes: no such call changes another process's memory size, page
    table, files, parent, pid, kill flag or exit status, creates or frees a
    process, or changes the caller's own pid or parent.  If it sleeps, it is
    the caller that sleeps. *)
Theorem syscalls_keep_process_table num f :
  syscalls num = Some f -> ~ In num [1; 2; 3; 6] -> quiet f.
Proof. apply syscall_quiet. Qed.

End quiet.

Lemma syscalls_keep_process_table_witness : @quiet Z (@sys_pipe image0).
Proof. apply (@syscalls_keep_process_table image0 4); [reflexivity|simpl; lia]. Defined.

