(* ===== verification/ProcInv.v ===== *)
(** * The process table stays well formed

    Invariant of the process table and its preservation by every system
    call: free slots hold no resources, pids in use are positive, distinct
    and below the next pid to be given out, and the calling process keeps
    running unless the call makes it give up the CPU. *)

From S2P Require Import Prelude Memory KString Ulib Printf Kalloc Vm Bytes Sleeplock Bio Log Fs FsFile Ring KState Machine Pipe Console File Proc Syscall Sysfile Exec Quiet.

(** A free slot: no page table, trapframe, memory, parent, channel or pid. *)
Definition blank (x : proc) : Prop :=
  p_pid x = 0 /\ p_pagetable x = 0 /\ p_trapframe x = 0 /\ p_sz x = 0 /\ p_parent x = None /\ p_chan x = None /\
  p_xstate x = 0.

Record tbl_ok (s : kstate) : Prop := {
  tb_len : length (k_proc s) = Z.to_nat NPROC;
  tb_blank : forall p, p_state (getp s p) = UNUSED -> blank (getp s p);
  tb_pid : forall p, p_state (getp s p) <> UNUSED -> 0 < p_pid (getp s p) < k_nextpid s;
  tb_uniq : forall p q, p_state (getp s p) <> UNUSED -> p_pid (getp s p) = p_pid (getp s q) -> p = q;
  tb_next : 0 < k_nextpid s < 2 ^ 31;
  tb_ofile : forall p, length (p_ofile (getp s p)) = NOFILE
}.

Definition running (s : kstate) : Prop := p_state (getp s (k_me s)) = RUNNING.
Definition ok (s : kstate) : Prop := tbl_ok s /\ running s.

(** From [P], the code returns with [Q], or gives up the CPU with the table
    well formed. *)
Definition triple {A} (P : kstate -> Prop) (c : K kstate A) (Q : A -> kstate -> Prop) : Prop := forall s, P s ->
  match c s with
  | Ret a s' => Q a s'
  | Sleep s' => tbl_ok s'
  | Panic _ | Diverge => True
  end.

Lemma triple_bind {A B} P Q R (c : K kstate A) (f : A -> K kstate B) :
  triple P c Q -> (forall a, triple (Q a) (f a) R) -> triple P (kbind c f) R.
Proof.
  intros Hc Hf s Hs. specialize (Hc s Hs). unfold kbind. destruct (c s) as [a s1|m|s1|]; try done.
  exact (Hf a s1 Hc).
Qed.

Lemma triple_ret {A} (P : A -> kstate -> Prop) a : triple (P a) (kret a) P.
Proof. by intros s Hs. Qed.

Lemma triple_weaken {A} (P P' : kstate -> Prop) (Q Q' : A -> kstate -> Prop) c :
  (forall s, P' s -> P s) -> (forall a s, Q a s -> Q' a s) -> triple P c Q -> triple P' c Q'.
Proof.
  intros H1 H2 H s Hs. specialize (H s (H1 s Hs)). destruct (c s); try done. by apply H2.
Qed.

Lemma triple_pre {A} (P P' : kstate -> Prop) (Q : A -> kstate -> Prop) c :
  triple P c Q -> (forall s, P' s -> P s) -> triple P' c Q.
Proof. intros H H1 s Hs. apply H. by apply H1. Qed.

(** ** Quiet code *)

Lemma getp_out s p : (length (k_proc s) <= p)%nat -> getp s p = proc0.
Proof. intros H. unfold getp. by rewrite lookup_ge_None_2. Qed.

Lemma me_in s : running s -> (k_me s < length (k_proc s))%nat.
Proof.
  intros H. destruct (decide (k_me s < length (k_proc s))%nat); [done|]. unfold running in H.
  by rewrite getp_out in H by lia.
Qed.

(** What [evolves] keeps of every process. *)
Lemma evolves_keeps s s' p : evolves s s' ->
  (p_state (getp s' p) = UNUSED <-> p_state (getp s p) = UNUSED) /\ p_pid (getp s' p) = p_pid (getp s p) /\
  length (p_ofile (getp s' p)) = length (p_ofile (getp s p)) /\ p_trapframe (getp s' p) = p_trapframe (getp s p).
Proof.
  intros [E1 E2 E3 E4 E5 E6]. destruct (decide (p = k_me s)) as [->|Hp].
  - destruct E6 as (-> & _ & _ & _ & -> & _ & _ & -> & _ & ->). done.
  - destruct (E5 p Hp) as [->|[Hs ->]]; [done|]. simpl. by rewrite Hs.
Qed.

Lemma evolves_ok s s' : ok s -> evolves s s' -> ok s'.
Proof.
  intros [[T1 T2 T3 T4 T5 T6] Hr] E. pose proof E as [E1 E2 E3 E4 E5 E6].
  assert (running s') as Hr' by (unfold running; rewrite E2; destruct E6 as [-> _]; done).
  split; [|done]. split; try congruence.
  - intros p Hp. destruct (evolves_keeps s s' p E) as (K1 & K2 & K3 & K4).
    destruct (decide (p = k_me s)) as [->|Hne]; [unfold running in Hr; apply K1 in Hp; congruence|].
    destruct (E5 p Hne) as [->|[Hs Hw]]; [apply T2; by apply K1|]. apply K1 in Hp. congruence.
  - intros p Hp. destruct (evolves_keeps s s' p E) as (K1 & K2 & K3 & K4). rewrite K2, E1. apply T3. by rewrite <- K1.
  - intros p q Hp. destruct (evolves_keeps s s' p E) as (K1 & K2 & K3 & K4).
    destruct (evolves_keeps s s' q E) as (_ & -> & _ & _). rewrite K2. apply T4. by rewrite <- K1.
  - intros p. destruct (evolves_keeps s s' p E) as (K1 & K2 & -> & K4). apply T6.
Qed.

Lemma getp_setp s p x i : (p < length (k_proc s))%nat ->
  getp (setp s p x) i = if decide (i = p) then x else getp s i.
Proof. intros H. case_decide as E; [subst; by apply getp_setp_same|by apply getp_setp_other]. Qed.

(** Replacing one entry by one with the same pid that is not free. *)
Lemma tbl_setp s p x : tbl_ok s -> (p < length (k_proc s))%nat ->
  p_state (getp s p) <> UNUSED -> p_state x <> UNUSED -> p_pid x = p_pid (getp s p) -> length (p_ofile x) = NOFILE ->
  tbl_ok (setp s p x).
Proof.
  intros [T1 T2 T3 T4 T5 T6] Hp Hu Hx Hpid Hl. split.
  - unfold setp. cbn [k_proc with_proc]. by rewrite length_insert.
  - intros q. rewrite getp_setp by done. case_decide; [done|]. apply T2.
  - intros q. rewrite getp_setp by done. case_decide; [intros _; rewrite Hpid; by apply T3|]. apply T3.
  - intros q r. rewrite !getp_setp by done. case_decide; case_decide; subst; try done; intros H1; rewrite ?Hpid; intros H2.
    + symmetry in H2. by apply T4.
    + by apply T4.
    + by apply T4.
  - done.
  - intros q. rewrite getp_setp by done. case_decide; [done|]. apply T6.
Qed.

Lemma sleep_on_tbl s ch : ok s -> tbl_ok (sleep_on ch s).
Proof.
  intros [T Hr]. unfold sleep_on. pose proof (me_in s Hr). unfold running in Hr.
  apply tbl_setp; try done; [by rewrite Hr|apply (tb_ofile s T)].
Qed.

(** A predicate that [evolves] keeps. *)
Definition stable (P : kstate -> Prop) : Prop := forall s s', P s -> ok s -> evolves s s' -> P s'.

Lemma triple_quiet {A} P (c : K kstate A) : quiet c -> stable P ->
  triple (fun s => ok s /\ P s) c (fun _ s => ok s /\ P s).
Proof.
  intros Hq HP s [Hs Hp]. specialize (Hq s). destruct (c s) as [a s1|m|s1|]; try done.
  - split; [by eapply evolves_ok|by eapply HP].
  - destruct Hq as (ch & s2 & He & ->). apply sleep_on_tbl. by eapply evolves_ok.
Qed.

Lemma triple_quiet_ok {A} (c : K kstate A) : quiet c -> triple ok c (fun _ => ok).
Proof.
  intros Hq. eapply triple_weaken; [| |apply (triple_quiet (fun _ => True) c Hq)].
  - done.
  - by intros a s [? _].
  - by intros s s'.
Qed.

(** ** Another process, held by the running one *)

(** [p] is not the running process, and in use but not sleeping (so nobody
    else changes its state). *)
Definition hold (p : nat) (s : kstate) : Prop :=
  p <> k_me s /\ (p_state (getp s p) <> UNUSED /\ p_state (getp s p) <> SLEEPING).

Lemma hold_in p s : hold p s -> (p < length (k_proc s))%nat.
Proof.
  intros (_ & H & _). destruct (decide (p < length (k_proc s))%nat); [done|]. by rewrite getp_out in H by lia.
Qed.

Lemma hold_getp p s s' : hold p s -> evolves s s' -> getp s' p = getp s p.
Proof. intros (H1 & H2 & H3) E. by destruct (ev_other _ _ E p H1) as [?|[? _]]. Qed.

Lemma hold_stable p : stable (hold p).
Proof.
  intros s s' Hh Hs E. pose proof (hold_getp p s s' Hh E) as Hg. destruct Hh as (H1 & H2). unfold hold.
  rewrite (ev_me _ _ E), Hg. done.
Qed.

Lemma triple_hold_quiet {A} p (c : K kstate A) : quiet c ->
  triple (fun s => ok s /\ hold p s) c (fun _ s => ok s /\ hold p s).
Proof. intros Hq. apply triple_quiet; [done|apply hold_stable]. Qed.

(** An update of [p] that keeps its pid and does not free it. *)
Definition mild (f : proc -> proc) : Prop := forall x,
  p_pid (f x) = p_pid x /\ length (p_ofile (f x)) = length (p_ofile x) /\
  (p_state (f x) = p_state x \/ p_state (f x) = RUNNABLE).

Lemma running_setp s p x : running s -> p <> k_me s -> running (setp s p x).
Proof. intros H Hp. unfold running. cbn [k_me setp with_proc]. by rewrite getp_setp_other. Qed.

Lemma triple_hold_pmod p f : mild f -> triple (fun s => ok s /\ hold p s) (pmod p f) (fun _ s => ok s /\ hold p s).
Proof.
  intros Hf s [[T Hr] Hh]. unfold pmod. pose proof (hold_in p s Hh) as Hin. destruct Hh as (H1 & H2 & H3).
  destruct (Hf (getp s p)) as (F1 & F2 & F3).
  assert (p_state (f (getp s p)) <> UNUSED /\ p_state (f (getp s p)) <> SLEEPING) as [H4 H5]
    by (destruct F3 as [-> | ->]; done).
  split; [split; [|by apply running_setp]|].
  - apply tbl_setp; try done. rewrite F2. apply (tb_ofile s T).
  - unfold hold. cbn [k_me setp with_proc]. by rewrite getp_setp_same.
Qed.

(** Freeing an entry: everything but the kill flag and the files is reset. *)
Lemma tbl_free s p x : tbl_ok s -> (p < length (k_proc s))%nat -> blank x -> p_state x = UNUSED ->
  length (p_ofile x) = NOFILE -> tbl_ok (setp s p x).
Proof.
  intros [T1 T2 T3 T4 T5 T6] Hp Hb Hu Hl. split.
  - unfold setp. cbn [k_proc with_proc]. by rewrite length_insert.
  - intros q. rewrite getp_setp by done. case_decide; [done|]. apply T2.
  - intros q. rewrite getp_setp by done. case_decide; [done|]. apply T3.
  - intros q r. rewrite !getp_setp by done. case_decide; case_decide; subst; try done; [|apply T4].
    intros H1 H2. destruct Hb as [Hb _]. specialize (T3 q H1). lia.
  - done.
  - intros q. rewrite getp_setp by done. case_decide; [done|]. apply T6.
Qed.

Section proc_inv.
Context `{I : KernelImage}.

Lemma freeproc_ok p : triple (fun s => ok s /\ hold p s) (freeproc p) (fun _ => ok).
Proof.
  unfold freeproc. eapply triple_bind; [apply triple_hold_quiet, quiet_pget|]. intros x. cbv beta.
  eapply triple_bind; [apply triple_hold_quiet; case_match; [apply quiet_liftF|apply quiet_ret]|]. intros [].
  set (P := fun s => ok s /\ (hold p s /\ p_trapframe (getp s p) = 0)).
  eapply (triple_bind _ (fun _ => P)).
  { intros s Hs. pose proof (triple_hold_pmod p (set_trapframe 0) ltac:(intros ?; simpl; tauto) s Hs) as H.
    unfold pmod in *. destruct H as [H1 H2]. split; [done|]. split; [done|].
    destruct Hs as [_ Hh]. rewrite getp_setp_same by by apply hold_in. done. }
  intros []. eapply (triple_bind _ (fun _ => P)).
  { apply triple_quiet; [case_match; [apply quiet_liftF|apply quiet_ret]|].
    intros s s' [Hh Ht] Hs E. split; [by eapply hold_stable|]. by rewrite (hold_getp p s s' Hh E). }
  intros [] s ([T Hr] & Hh & Ht). unfold pmod. pose proof (hold_in p s Hh) as Hin. destruct Hh as (H1 & H2 & H3).
  split; [|by apply running_setp]. apply tbl_free; try done. apply (tb_ofile s T).
Qed.

Lemma find_unused_spec l : forall i p, find_unused l i = Some p ->
  exists x, l !! (p - i)%nat = Some x /\ (i <= p)%nat /\ p_state x = UNUSED.
Proof.
  induction l as [|x l IH]; intros i p H; simpl in H; [done|]. case_decide as E.
  - injection H as <-. exists x. rewrite Nat.sub_diag. done.
  - destruct (IH (S i) p H) as (y & Hy & Hi & Hs). exists y. split; [|split; [lia|done]].
    replace (p - i)%nat with (S (p - S i))%nat by lia. done.
Qed.

(** Taking a free slot with a fresh pid. *)
Lemma tbl_take s p : ok s -> k_nextpid s < 2 ^ 31 - 1 -> (p < length (k_proc s))%nat -> p_state (getp s p) = UNUSED ->
  let s1 := with_nextpid (int32 (k_nextpid s + 1)) s in
  let s2 := setp s1 p (set_state USED (set_procid (k_nextpid s) (getp s p))) in
  ok s2 /\ hold p s2.
Proof.
  intros [[T1 T2 T3 T4 T5 T6] Hr] Hn Hp Hu s1 s2.
  assert (p <> k_me s) as Hne by (intros ->; unfold running in Hr; congruence).
  assert (k_nextpid s2 = k_nextpid s + 1) as Hn2 by (apply int32_small; lia).
  assert (forall q, getp s2 q = if decide (q = p) then set_state USED (set_procid (k_nextpid s) (getp s p)) else getp s q) as Hg.
  { intros q. unfold s2. by rewrite getp_setp. }
  split; [split; [split|]|].
  - unfold s2, setp. cbn [k_proc with_proc]. by rewrite length_insert.
  - intros q. rewrite Hg. case_decide; [done|]. apply T2.
  - intros q. rewrite Hg, Hn2. case_decide; [simpl; lia|]. intros Hq. specialize (T3 q Hq). lia.
  - intros q r. rewrite !Hg. case_decide; case_decide; subst; simpl; try done; [| |apply T4].
    + intros _ E. destruct (decide (p_state (getp s r) = UNUSED)) as [Hq|Hq].
      * destruct (T2 r Hq) as [Hz _]. lia.
      * specialize (T3 r Hq). lia.
    + intros Hq E. specialize (T3 q Hq). lia.
  - rewrite Hn2. lia.
  - intros q. rewrite Hg. case_decide; [apply T6|apply T6].
  - unfold running. rewrite Hg. rewrite decide_False by done. done.
  - unfold hold. rewrite Hg. rewrite decide_True by done. done.
Qed.

Lemma allocproc_ok : triple (fun s => ok s /\ k_nextpid s < 2 ^ 31 - 1) allocproc
  (fun r s => ok s /\ match r with Some p => hold p s | None => True end).
Proof.
  intros s [Hs Hn]. unfold allocproc. unfold kbind at 1, kget at 1.
  destruct (find_unused (k_proc s) 0) as [p|] eqn:Ef; [|done].
  apply find_unused_spec in Ef as (x & Hx & _ & Hu). rewrite Nat.sub_0_r in Hx.
  assert (getp s p = x) as Hg by (unfold getp; by rewrite Hx). pose proof (lookup_lt_Some _ _ _ Hx) as Hp.
  unfold kbind at 1, allocpid at 1. unfold kbind at 1, pmod at 1.
  change (getp (with_nextpid _ s) p) with (getp s p).
  assert (triple (fun s => ok s /\ hold p s) (freeproc p ;;; kret None)
    (fun r s => ok s /\ match r with Some p => hold p s | None => True end)) as Hfree.
  { eapply triple_bind; [apply freeproc_ok|]. by intros [] s1 H1. }
  destruct (tbl_take s p Hs Hn Hp) as [H1 H2]; [by rewrite Hg|]. generalize (conj H1 H2).
  generalize (setp (with_nextpid (int32 (k_nextpid s + 1)) s) p (set_state USED (set_procid (k_nextpid s) (getp s p)))).
  clear -Hfree. intros s1. revert s1.
  change (triple (fun s => ok s /\ hold p s) (tf <- kmemop kalloc ;; pmod p (set_trapframe tf) ;;;
      if tf =? 0 then freeproc p ;;; kret None
      else
        pt <- kmemop (proc_pagetable tf) ;;
        pmod p (set_pagetable pt) ;;;
        if pt =? 0 then freeproc p ;;; kret None
        else
          pmod p (fun x => set_context (Context_ AtForkret (uint64 (p_kstack x + PGSIZE)) (replicate 12 0)) x) ;;;
          kret (Some p)) (fun r s => ok s /\ match r with Some p => hold p s | None => True end)).
  eapply triple_bind; [apply triple_hold_quiet, quiet_liftF|]. intros tf. cbv beta.
  eapply triple_bind; [apply triple_hold_pmod; intros ?; simpl; tauto|]. intros []. destruct (tf =? 0); [done|].
  eapply triple_bind; [apply triple_hold_quiet, quiet_liftF|]. intros pt. cbv beta.
  eapply triple_bind; [apply triple_hold_pmod; intros ?; simpl; tauto|]. intros []. destruct (pt =? 0); [done|].
  eapply triple_bind; [apply triple_hold_pmod; intros ?; simpl; tauto|]. by intros [] s1 H1.
Qed.

(** ** fork *)

Lemma dup_files_ok l : forall np i, triple (fun s => ok s /\ hold np s) (dup_files l np i) (fun _ s => ok s /\ hold np s).
Proof.
  induction l as [|[f|] l IH]; intros np i; cbn [dup_files]; [by intros s H| |apply IH].
  eapply triple_bind; [apply triple_hold_quiet, quiet_filedup|]. intros f'. cbv beta.
  eapply triple_bind; [apply triple_hold_pmod; intros x; simpl; rewrite length_insert; tauto|]. intros []. apply IH.
Qed.

(** [hold_tac] runs through code that only touches the held process. *)
Ltac hold_tac :=
  repeat first
    [ eapply triple_bind; [apply triple_hold_quiet; first [apply quiet_liftF | apply quiet_mine | apply quiet_pget]|intros]
    | eapply triple_bind; [apply triple_hold_pmod; intros ?; simpl; tauto|intros]
    | eapply triple_bind; [apply dup_files_ok|intros] ];
  cbv beta.

Lemma fork_ok : triple (fun s => ok s /\ k_nextpid s < 2 ^ 31 - 1) fork (fun _ => ok).
Proof.
  unfold fork. eapply (triple_bind _ (fun _ s => ok s /\ k_nextpid s < 2 ^ 31 - 1)); [by intros s Hs|]. intros me.
  eapply triple_bind; [apply allocproc_ok|]. intros [np|]; cbv beta; [|by intros s [Hs _]].
  hold_tac. case_match.
  - eapply triple_bind; [apply freeproc_ok|]. by intros [] s1 H1.
  - hold_tac. by intros s1 [H1 _].
Qed.

(** ** wait and exit *)

Lemma wait_scan_ok k : forall pp addr hk, triple ok (wait_scan k pp addr hk) (fun _ => ok).
Proof.
  induction k as [|k IH]; intros pp addr hk; cbn [wait_scan]; [by intros s Hs|].
  eapply (triple_bind _ (fun me s => ok s /\ me = k_me s)); [by intros s Hs|]. intros me. cbv beta.
  eapply (triple_bind _ (fun x s => ok s /\ me = k_me s /\ x = getp s pp)); [by intros s []|]. intros x. cbv beta.
  case_decide; [|eapply triple_pre; [apply IH|by intros s [? _]]].
  case_decide as Hz; [|eapply triple_pre; [apply IH|by intros s [? _]]].
  eapply (triple_pre (fun s => ok s /\ hold pp s)).
  2:{ intros s (Hs & _ & ->). split; [done|]. destruct Hs as [_ Hr]. unfold hold. rewrite Hz.
    split; [|done]. intros ->. unfold running in Hr. congruence. }
  eapply triple_bind; [apply triple_hold_quiet, quiet_mine|]. intros p. cbv beta.
  eapply triple_bind; [apply triple_hold_quiet; case_match; [apply quiet_ret|apply quiet_liftF]|]. intros r. cbv beta.
  case_match; [by intros s [? _]|]. eapply triple_bind; [apply freeproc_ok|]. by intros [] s H1.
Qed.

Lemma wait_ok addr : triple ok (wait addr) (fun _ => ok).
Proof.
  unfold wait. eapply triple_bind; [apply triple_quiet_ok, quiet_myproc|]. intros me.
  eapply triple_bind; [apply wait_scan_ok|]. intros [v|hk]; [by intros s Hs|].
  eapply triple_bind; [apply triple_quiet_ok, quiet_killed|]. intros kd.
  apply triple_quiet_ok. case_match; [apply quiet_ret|apply quiet_sleep].
Qed.

Lemma reparent_loop_ok k : forall pp p, triple ok (reparent_loop k pp p) (fun _ => ok).
Proof.
  induction k as [|k IH]; intros pp p; cbn [reparent_loop]; [by intros s Hs|].
  eapply (triple_bind _ (fun x s => ok s /\ x = getp s pp)); [by intros s Hs|]. intros x. cbv beta.
  eapply (triple_bind _ (fun _ => ok)); [|intros; apply IH].
  case_decide as E; [|by intros s [? _]].
  eapply (triple_bind _ (fun _ s => ok s /\ x = getp s pp)); [by intros s Hs|]. intros s0.
  eapply (triple_bind _ (fun _ => ok)).
  - intros s [[T Hr] ->]. unfold pmod.
    assert (p_state (getp s pp) <> UNUSED) as Hu.
    { intros Hu. destruct (tb_blank s T pp Hu) as (_ & _ & _ & _ & Hp & _). congruence. }
    assert (pp < length (k_proc s))%nat as Hin.
    { destruct (decide (pp < length (k_proc s))%nat); [done|]. by rewrite getp_out in Hu by lia. }
    split; [apply tbl_setp; try done; apply (tb_ofile s T)|].
    unfold running in *. cbn [k_me setp with_proc]. rewrite getp_setp by done. by case_decide; subst.
  - intros []. apply triple_quiet_ok. unfold wakeup_proc. destruct (k_initproc s0); [apply quiet_wakeup|apply quiet_ret].
Qed.

Lemma quiet_close_files k : forall fd, quiet (close_files k fd).
Proof.
  pose proof quiet_fileclose. induction k; intros fd; cbn [close_files]; quiet_tac.
Qed.

Lemma exit_ok status : triple ok (exit status) (fun _ => ok).
Proof.
  unfold exit. eapply triple_bind; [apply triple_quiet_ok, quiet_myproc|]. intros me.
  eapply triple_bind; [apply triple_quiet_ok, quiet_get|]. intros s0. case_decide; [done|].
  eapply triple_bind; [apply triple_quiet_ok, quiet_close_files|]. intros [].
  eapply triple_bind; [apply triple_quiet_ok, quiet_liftF|]. intros [].
  eapply triple_bind; [apply triple_quiet_ok, quiet_mine|]. intros x.
  eapply triple_bind; [apply triple_quiet_ok, quiet_liftW|]. intros [].
  eapply triple_bind; [apply triple_quiet_ok, quiet_liftW|]. intros [].
  eapply triple_bind; [apply triple_quiet_ok, quiet_pmine; done|]. intros [].
  eapply triple_bind; [apply reparent_loop_ok|]. intros [].
  eapply triple_bind; [apply triple_quiet_ok, quiet_mine|]. intros y.
  eapply triple_bind; [apply triple_quiet_ok; unfold wakeup_proc; case_match; [apply quiet_wakeup|apply quiet_ret]|].
  intros [] s [T Hr]. pose proof (me_in s Hr) as Hin. unfold running in Hr. unfold kbind, pmine, pmod, sched.
  case_decide; [done|]. apply tbl_setp; try done; [by rewrite Hr|apply (tb_ofile s T)].
Qed.

(** ** kill *)

(** Setting the kill flag, on a free slot too. *)
Lemma tbl_killed s p : tbl_ok s -> let s' := setp s p (set_killed true (getp s p)) in tbl_ok s' /\ (running s -> running s').
Proof.
  intros T s'. unfold s'. clear s'. pose proof T as [T1 T2 T3 T4 T5 T6].
  destruct (decide (p < length (k_proc s))%nat) as [Hp|Hp].
  2:{ assert (setp s p (set_killed true (getp s p)) = s) as ->; [|done].
      unfold setp. rewrite list_insert_ge by lia. by destruct s. }
  assert (forall q, p_state (getp (setp s p (set_killed true (getp s p))) q) = p_state (getp s q) /\
    p_pid (getp (setp s p (set_killed true (getp s p))) q) = p_pid (getp s q)) as Hg.
  { intros q. rewrite getp_setp by done. by case_decide; subst. }
  split; [split|].
  - unfold setp. cbn [k_proc with_proc]. by rewrite length_insert.
  - intros q. rewrite getp_setp by done. case_decide; [subst|]; apply T2.
  - intros q. destruct (Hg q) as [-> ->]. apply T3.
  - intros q r. destruct (Hg q) as [-> ->]. destruct (Hg r) as [_ ->]. apply T4.
  - done.
  - intros q. rewrite getp_setp by done. case_decide; [subst|]; apply T6.
  - unfold running in *. cbn [k_me setp with_proc]. by destruct (Hg (k_me s)) as [-> _].
Qed.

Lemma tbl_set_killed s p : ok s -> ok (setp s p (set_killed true (getp s p))).
Proof. intros [T Hr]. destruct (tbl_killed s p T) as [? H]. split; [done|by apply H]. Qed.

Lemma kill_loop_ok k : forall p pid, triple ok (kill_loop k p pid) (fun _ => ok).
Proof.
  induction k as [|k IH]; intros p pid; cbn [kill_loop]; [by intros s Hs|].
  eapply (triple_bind _ (fun x s => ok s /\ x = getp s p)); [by intros s Hs|]. intros x. cbv beta.
  case_match; [|eapply triple_pre; [apply IH|by intros s [? _]]].
  eapply (triple_bind _ (fun _ s => ok s /\ p_state x = p_state (getp s p))).
  { intros s [Hs ->]. split; [by apply tbl_set_killed|].
    destruct (decide (p < length (k_proc s))%nat); [by rewrite getp_setp_same|].
    unfold setp. rewrite list_insert_ge by lia. done. }
  intros []. eapply (triple_bind _ (fun _ => ok)); [|by intros [] s Hs]. case_decide as E; [|by intros s [? _]].
  intros s [[T Hr] Hx]. unfold pmod. rewrite E in Hx. symmetry in Hx.
  assert (p < length (k_proc s))%nat as Hin.
  { destruct (decide (p < length (k_proc s))%nat); [done|]. by rewrite getp_out in Hx by lia. }
  split; [apply tbl_setp; try done; [by rewrite Hx|apply (tb_ofile s T)]|].
  apply running_setp; [done|]. intros ->. unfold running in Hr. congruence.
Qed.

(** ** kill(0) *)

Lemma kill_loop_zero s : tbl_ok s -> forall l k p q,
  drop p (k_proc s) = l -> length l = k -> find_unused l p = Some q ->
  kill_loop k p 0 s = Ret 0 (setp s q (set_killed true (getp s q))).
Proof.
  intros T l. induction l as [|x l IH]; intros k p q Hd Hk Hf; [done|]. destruct k as [|k]; [done|].
  assert (k_proc s !! p = Some x) as Hx by (rewrite <- (Nat.add_0_r p), <- lookup_drop, Hd; done).
  assert (getp s p = x) as Hg by (unfold getp; by rewrite Hx).
  cbn [kill_loop]. unfold kbind at 1, pget at 1. rewrite Hg. cbn [find_unused] in Hf. case_decide as E.
  - injection Hf as <-. destruct (tb_blank s T p) as [Hp _]; [by rewrite Hg|]. rewrite Hg in Hp. rewrite Hp. cbn [Z.eqb].
    unfold kbind at 1, pmod at 1. rewrite Hg, E. done.
  - assert (0 < p_pid x) by (rewrite <- Hg; apply (tb_pid s T); by rewrite Hg).
    replace (p_pid x =? 0) with false by (symmetry; apply Z.eqb_neq; lia). apply IH; [|simpl in Hk; lia|done].
    replace (S p) with (p + 1)%nat by lia. rewrite <- drop_drop, Hd. done.
Qed.

Lemma getp_set_same s p f : (p < length (k_proc s))%nat -> getp (setp s p f) p = f.
Proof. intros H. rewrite getp_setp by done. by rewrite decide_True. Qed.

Lemma find_unused_insert y l : forall q x i, l !! q = Some x -> p_state y = p_state x ->
  find_unused (<[q := y]> l) i = find_unused l i.
Proof.
  induction l as [|z l IH]; intros [|q] x i Hx Hy; simpl in *; try done.
  - injection Hx as ->. by rewrite Hy.
  - case_decide; [done|]. by apply IH with x.
Qed.

Lemma find_unused_mark s q : find_unused (k_proc s) 0 = Some q ->
  find_unused (k_proc (setp s q (set_killed true (getp s q)))) 0 = Some q.
Proof.
  intros Hf. rewrite <- Hf. apply find_unused_spec in Hf as (x & Hx & _ & _). rewrite Nat.sub_0_r in Hx.
  apply find_unused_insert with x; [done|]. unfold getp. by rewrite Hx.
Qed.

(** What [allocproc] leaves alone in the slot it takes: the kill flag. *)
Lemma allocproc_killed s q r s2 : find_unused (k_proc s) 0 = Some q -> allocproc s = Ret (Some r) s2 ->
  r = q /\ p_killed (getp s2 r) = p_killed (getp s q).
Proof.
  intros Hf H. unfold allocproc in H. unfold kbind at 1, kget at 1 in H. rewrite Hf in H.
  apply find_unused_spec in Hf as (x & Hx & _ & _). rewrite Nat.sub_0_r in Hx. pose proof (lookup_lt_Some _ _ _ Hx) as Hq.
  apply kbind_inv in H as (pid & s3 & H3 & H). injection H3 as <- <-.
  apply kbind_inv in H as ([] & s4 & H4 & H). injection H4 as <-.
  apply kbind_inv in H as (tf & s5 & H5 & H).
  apply kbind_inv in H as ([] & s6 & H6 & H). injection H6 as <-.
  destruct (tf =? 0); [by apply kbind_inv in H as (? & ? & _ & H)|].
  apply kbind_inv in H as (pt & s7 & H7 & H).
  apply kbind_inv in H as ([] & s8 & H8 & H). injection H8 as <-.
  destruct (pt =? 0); [by apply kbind_inv in H as (? & ? & _ & H)|].
  apply kbind_inv in H as ([] & s9 & H9 & H). injection H9 as <-. injection H as <- <-. split; [done|].
  unfold kmemop, liftF in H5, H7.
  repeat match goal with H : match ?c with _ => _ end = Ret _ _ |- _ => destruct c; [|done..]; injection H as <- <- end.
  unfold getp, setp, leave_fs. cbn [k_proc with_proc with_fs with_nextpid].
  rewrite !list_lookup_insert_eq by (rewrite ?length_insert; done). done.
Qed.

(** C39: A kill of pid 0, which no process has, succeeds: it marks the first
    free slot of the table as killed, and because [allocproc] does not reset
    the flag the next process created starts out killed. *)
Theorem kill_zero_kills_next_process s q :
  tbl_ok s -> find_unused (k_proc s) 0 = Some q ->
  exists s', kill 0 s = Ret 0 s' /\ find_unused (k_proc s') 0 = Some q /\
    forall r s2, allocproc s' = Ret (Some r) s2 -> r = q /\ p_killed (getp s2 r) = true.
Proof.
  intros T Hf. eexists. split; [|split].
  - unfold kill. apply (kill_loop_zero s T (k_proc s)); [apply drop_0|apply T|done].
  - by apply find_unused_mark.
  - intros r s2 H. apply find_unused_spec in Hf as Hq. destruct Hq as (x & Hx & _ & _). rewrite Nat.sub_0_r in Hx.
    apply allocproc_killed with (q := q) in H as [-> E]; [|by apply find_unused_mark]. split; [done|].
    rewrite E, getp_set_same by (by eapply lookup_lt_Some). done.
Qed.

Lemma syscall_ok : triple (fun s => ok s /\ k_nextpid s < 2 ^ 31 - 1) syscall (fun _ => ok).
Proof.
  assert (forall A (c : K kstate A), quiet c -> triple (fun s => ok s /\ k_nextpid s < 2 ^ 31 - 1) c
    (fun _ s => ok s /\ k_nextpid s < 2 ^ 31 - 1)) as Hq.
  { intros A c Hc. apply triple_quiet; [done|]. intros s1 s2 H1 _ E. by rewrite (ev_next _ _ E). }
  unfold syscall. eapply triple_bind; [apply Hq, quiet_mine|]. intros p. cbv beta.
  eapply triple_bind; [apply Hq, quiet_liftF|]. intros num. cbv beta.
  destruct (syscalls (int32 num)) as [f|] eqn:Ef.
  2:{ eapply triple_pre; [|by intros s1 [Hs1 _]; exact Hs1]. eapply triple_bind; [apply triple_quiet_ok, quiet_kprint_str|]. intros []. apply triple_quiet_ok, quiet_liftF. }
  eapply (triple_bind _ (fun _ => ok)); [|intros r; apply triple_quiet_ok, quiet_liftF].
  destruct (decide (In (int32 num) [1; 2; 3; 6])) as [Hin|Hin].
  - simpl in Hin. destruct Hin as [E|[E|[E|[E|[]]]]]; rewrite <- E in Ef; simpl in Ef; injection Ef as <-.
    + apply fork_ok.
    + apply (triple_pre ok); [|by intros s1 [? _]]. unfold sys_exit.
      eapply triple_bind; [apply triple_quiet_ok, quiet_argint|]. intros n. eapply triple_bind; [apply exit_ok|].
      by intros [] s1.
    + apply (triple_pre ok); [|by intros s1 [? _]]. unfold sys_wait.
      eapply triple_bind; [apply triple_quiet_ok, quiet_argaddr|]. intros n. apply wait_ok.
    + apply (triple_pre ok); [|by intros s1 [? _]]. unfold sys_kill.
      eapply triple_bind; [apply triple_quiet_ok, quiet_argint|]. intros n. apply kill_loop_ok.
  - apply (triple_pre ok); [|by intros s1 [? _]]. apply triple_quiet_ok.
    by apply (syscall_quiet (int32 num)).
Qed.

(** C4: Every system call keeps the process table well formed: free slots hold
    no resources, pids in use are positive and distinct and below the next
    one, every process has its NOFILE descriptors.  A call that returns
    returns to the running process; one that sleeps, or is exit, leaves the
    table well formed for the other processes.  (The pid counter is an int
    that has not overflowed.) *)
Theorem syscall_keeps_table_ok s :
  tbl_ok s -> running s -> k_nextpid s < 2 ^ 31 - 1 ->
  match syscall s with
  | Ret _ s' => tbl_ok s' /\ running s'
  | Sleep s' => tbl_ok s'
  | Panic _ | Diverge => True
  end.
Proof. intros T Hr Hn. by apply syscall_ok. Qed.

End proc_inv.

(** ** Instances *)

Lemma kstate0_ok : tbl_ok kstate0.
Proof.
  assert (forall p, getp kstate0 p = init0 /\ p = 0%nat \/ getp kstate0 p = proc0) as Hg.
  { intros [|p]; [by left|right]. unfold getp. change (k_proc kstate0 !! S p) with (replicate 63 proc0 !! p).
    destruct (replicate 63 proc0 !! p) eqn:E; [|done]. by apply lookup_replicate_1 in E as [-> _]. }
  split; try done.
  - intros p. by destruct (Hg p) as [[-> _]| ->].
  - intros p. by destruct (Hg p) as [[-> _]| ->].
  - intros p q. destruct (Hg p) as [[-> ->]| ->]; [|done]. by destruct (Hg q) as [[-> ->]| ->].
  - intros p. by destruct (Hg p) as [[-> _]| ->].
Qed.

Lemma tbl_ok_mem m s : tbl_ok s -> tbl_ok (with_mem m s).
Proof. by intros [T1 T2 T3 T4 T5 T6]; split. Qed.

Lemma kill_zero_kills_next_process_witness : exists s' s2, kill 0 kstate8 = Ret 0 s' /\
  @allocproc image0 s' = Ret (Some 1%nat) s2 /\ p_killed (getp s2 1) = true.
Proof.
  destruct (@kill_zero_kills_next_process image0 kstate8 1) as (s' & H1 & _ & H2);
    [apply tbl_ok_mem, kstate0_ok|reflexivity|].
  assert (s' = match kill 0 kstate8 with Ret _ s => s | _ => kstate0 end) as Hs by (by rewrite H1).
  assert ((match @allocproc image0 s' with Ret (Some 1%nat) _ => true | _ => false end) = true) as Ha.
  { rewrite Hs. vm_compute. reflexivity. }
  destruct (@allocproc image0 s') as [[[|[|?]]|] s2| | |] eqn:E; try discriminate Ha.
  exists s', s2. split; [exact H1|]. split; [exact E|]. by apply (H2 1%nat s2).
Defined.

Lemma syscall_keeps_table_ok_witness : exists s', @syscall image0 kstate0 = Ret tt s' /\ tbl_ok s' /\ running s'.
Proof.
  assert (is_ret (@syscall image0 kstate0) = true) as Hret by (vm_compute; reflexivity).
  destruct (is_ret_true _ Hret) as ([] & s' & E). clear Hret.
  pose proof (@syscall_keeps_table_ok image0 kstate0) as H. rewrite E in H.
  exists s'. split; [exact E|]. apply H; [apply kstate0_ok|reflexivity|reflexivity].
Defined.

