(* ===== verification/FileRefs.v ===== *)
(** * Reference counts of open files

    The count of an entry of the file table is the number of descriptors, over
    all processes, that designate it: the invariant behind [filedup] and
    [fileclose], kept by every system call. *)

From S2P Require Import Prelude Memory KString Ulib Printf Kalloc Vm Bytes Sleeplock Bio Log Fs FsFile Ring KState Machine Pipe Console File Proc Syscall Sysfile Exec Quiet ProcInv.

(** ** Counting *)

(** How often [f] occurs in a descriptor table, and in all of them. *)
Definition cnt (f : nat) (l : list (option nat)) : Z := Z.of_nat (length (filter (fun o => o = Some f) l)).
Definition nref (f : nat) (ls : list (list (option nat))) : Z := foldr (fun l n => cnt f l + n) 0 ls.

Definition one (f g : nat) : Z := if decide (f = g) then 1 else 0.
Definition entry (f : nat) (o : option nat) : Z := if decide (o = Some f) then 1 else 0.

Lemma cnt_cons f o l : cnt f (o :: l) = entry f o + cnt f l.
Proof. unfold cnt, entry. rewrite filter_cons. case_decide; cbn [length]; lia. Qed.

Lemma cnt_nonneg f l : 0 <= cnt f l.
Proof. unfold cnt. lia. Qed.

Lemma cnt_insert f l : forall i o o', l !! i = Some o -> cnt f (<[i := o']> l) = cnt f l + entry f o' - entry f o.
Proof.
  induction l as [|x l IH]; intros [|i] o o' Hi; [done|done|..].
  - injection Hi as ->. change (<[0%nat := o']> (o :: l)) with (o' :: l). rewrite !cnt_cons. lia.
  - change (<[S i := o']> (x :: l)) with (x :: <[i := o']> l). rewrite !cnt_cons. rewrite (IH i o o' Hi). lia.
Qed.

Lemma cnt_le f l : cnt f l <= Z.of_nat (length l).
Proof. unfold cnt. pose proof (length_filter (fun o => o = Some f) l). lia. Qed.

Lemma nref_cons f l ls : nref f (l :: ls) = cnt f l + nref f ls.
Proof. done. Qed.

Lemma nref_insert f ls : forall p l l', ls !! p = Some l -> nref f (<[p := l']> ls) = nref f ls + cnt f l' - cnt f l.
Proof.
  induction ls as [|x ls IH]; intros [|p] l l' Hp; [done|done|..].
  - injection Hp as ->. change (<[0%nat := l']> (l :: ls)) with (l' :: ls). rewrite !nref_cons. lia.
  - change (<[S p := l']> (x :: ls)) with (x :: <[p := l']> ls). rewrite !nref_cons. rewrite (IH p l l' Hp). lia.
Qed.

Lemma nref_nonneg f ls : 0 <= nref f ls.
Proof. induction ls as [|l ls IH]; [done|]. rewrite nref_cons. pose proof (cnt_nonneg f l). lia. Qed.

Lemma nref_pos f ls : forall p l fd, ls !! p = Some l -> l !! fd = Some (Some f) -> 1 <= nref f ls.
Proof.
  induction ls as [|x ls IH]; intros [|p] l fd Hp Hl; [done|done|..].
  - injection Hp as ->. rewrite nref_cons. pose proof (nref_nonneg f ls). rewrite <- (take_drop_middle l fd (Some f)) by done.
    unfold cnt. rewrite filter_app, filter_cons_True by done. rewrite length_app. cbn [length]. lia.
  - rewrite nref_cons. pose proof (IH p l fd Hp Hl). pose proof (cnt_nonneg f x). lia.
Qed.

Lemma nref_bound f n ls : Forall (fun l => length l = n) ls -> nref f ls <= Z.of_nat (length ls) * Z.of_nat n.
Proof.
  induction 1 as [|l ls Hl H IH]; [done|]. rewrite nref_cons. cbn [length]. pose proof (cnt_le f l). lia.
Qed.

(** ** The invariant *)

Definition tables (s : kstate) : list (list (option nat)) := map p_ofile (k_proc s).

(** No descriptors: free slots and processes that have exited. *)
Definition idle (x : proc) : Prop := p_state x = UNUSED \/ p_state x = ZOMBIE.
Definition no_files (x : proc) : Prop := forall fd f, p_ofile x !! fd <> Some (Some f).

(** [adj] accounts for references in the hands of the running code: taken and not
    yet in a table, or dropped and still there. *)
Record refs (adj : nat -> Z) (s : kstate) : Prop := {
  rf_count : forall f, (f < length (k_ftable s))%nat -> f_ref (getf s f) = nref f (tables s) + adj f;
  rf_in : forall p fd f, p_ofile (getp s p) !! fd = Some (Some f) -> (f < length (k_ftable s))%nat;
  rf_idle : forall p, idle (getp s p) -> no_files (getp s p);
  rf_len : forall p, length (p_ofile (getp s p)) = NOFILE;
  rf_me : (k_me s < length (k_proc s))%nat
}.

Definition small (adj : nat -> Z) : Prop := forall f, -1 <= adj f <= 1.
Definition near (s : kstate) : Prop := exists adj, refs adj s /\ small adj.
Definition zero : nat -> Z := fun _ => 0.

(** What code that takes and drops no reference may do. *)
Record same_refs (s s' : kstate) : Prop := {
  se_files : map f_ref (k_ftable s') = map f_ref (k_ftable s);
  se_tables : tables s' = tables s;
  se_me : k_me s' = k_me s;
  se_idle : forall p, idle (getp s' p) -> idle (getp s p)
}.

Lemma same_refs_refl s : same_refs s s.
Proof. by split. Qed.

Lemma same_refs_trans s1 s2 s3 : same_refs s1 s2 -> same_refs s2 s3 -> same_refs s1 s3.
Proof. intros [A1 A2 A3 A4] [B1 B2 B3 B4]. split; try congruence. intros p H. by apply A4, B4. Qed.

Lemma getf_ref s s' f : map f_ref (k_ftable s') = map f_ref (k_ftable s) -> f_ref (getf s' f) = f_ref (getf s f).
Proof.
  intros H. unfold getf. pose proof (f_equal (fun l => l !! f) H) as E. cbn beta in E. rewrite !list_lookup_fmap in E.
  destruct (k_ftable s' !! f), (k_ftable s !! f); cbn in *; congruence.
Qed.

Lemma getp_ofile s s' p : tables s' = tables s -> p_ofile (getp s' p) = p_ofile (getp s p).
Proof.
  intros H. unfold getp. pose proof (f_equal (fun l => l !! p) H) as E. cbn beta in E. unfold tables in E. rewrite !list_lookup_fmap in E.
  destruct (k_proc s' !! p), (k_proc s !! p); cbn in *; congruence.
Qed.

Lemma same_refs_keep adj s s' : same_refs s s' -> refs adj s -> refs adj s'.
Proof.
  intros [E1 E2 E3 E4] [R1 R2 R3 R4 R5]. pose proof (f_equal length E1) as El. rewrite !length_map in El.
  pose proof (f_equal length E2) as Ep. unfold tables in Ep. rewrite !length_map in Ep. split.
  - intros f Hf. rewrite (getf_ref s s' f E1), E2. apply R1. lia.
  - intros p fd f. rewrite (getp_ofile s s' p E2), El. apply R2.
  - intros p Hp fd f. rewrite (getp_ofile s s' p E2). by apply R3, E4.
  - intros p. rewrite (getp_ofile s s' p E2). apply R4.
  - by rewrite E3, Ep.
Qed.

(** ** Code that takes and drops no reference *)

Definition calm {A} (c : K kstate A) : Prop := forall s,
  match c s with
  | Ret _ s' | Sleep s' => same_refs s s'
  | Panic _ | Diverge => True
  end.

Create HintDb calm discriminated.

Lemma calm_bind {A B} (c : K kstate A) (f : A -> K kstate B) : calm c -> (forall a, calm (f a)) -> calm (kbind c f).
Proof.
  intros Hc Hf s. specialize (Hc s). unfold kbind. destruct (c s) as [a s1|m|s1|]; try done.
  specialize (Hf a s1). destruct (f a s1); try done; by eapply same_refs_trans.
Qed.

(** An entry of the process table that keeps its descriptors and does not become idle. *)
Lemma same_refs_setp s p x : p_ofile x = p_ofile (getp s p) -> (idle x -> idle (getp s p)) -> same_refs s (setp s p x).
Proof.
  intros Ho Hi. split; try done.
  - unfold tables, setp. cbn [k_proc with_proc]. rewrite list_fmap_insert, Ho. unfold getp. destruct (k_proc s !! p) as [y|] eqn:E; cbn.
    + apply list_insert_id. by rewrite list_lookup_fmap, E.
    + apply list_insert_ge. rewrite length_map. by apply lookup_ge_None_1.
  - intros q. unfold getp, setp. cbn [k_proc with_proc]. destruct (decide (q = p)) as [->|Hq]; [|by rewrite list_lookup_insert_ne].
    destruct (decide (p < length (k_proc s))%nat); [rewrite list_lookup_insert_eq by done; exact Hi|by rewrite list_insert_ge by lia].
Qed.

Lemma same_refs_ftable s f x : f_ref x = f_ref (getf s f) -> same_refs s (with_ftable (<[f := x]> (k_ftable s)) s).
Proof.
  intros Hr. split; try done. cbn [k_ftable with_ftable]. rewrite list_fmap_insert, Hr. unfold getf. destruct (k_ftable s !! f) as [y|] eqn:E; cbn.
  - apply list_insert_id. by rewrite list_lookup_fmap, E.
  - apply list_insert_ge. rewrite length_map. by apply lookup_ge_None_1.
Qed.

Lemma same_refs_sleep s ch : same_refs s (sleep_on ch s).
Proof. apply same_refs_setp; [done|]. by intros [H|H]. Qed.

Lemma calm_ret {A} (a : A) : calm (kret a).
Proof. intros s. apply same_refs_refl. Qed.
Lemma calm_panic {A} msg : calm (panic (A := A) msg).
Proof. done. Qed.
Lemma calm_diverge {A} : calm (kdiverge (A := A)).
Proof. done. Qed.
Lemma calm_get : calm kget.
Proof. intros s. apply same_refs_refl. Qed.
Lemma calm_myproc : calm myproc.
Proof. intros s. apply same_refs_refl. Qed.
Lemma calm_mine : calm mine.
Proof. intros s. apply same_refs_refl. Qed.
Lemma calm_pget p : calm (pget p).
Proof. intros s. apply same_refs_refl. Qed.
Lemma calm_piget pi : calm (piget pi).
Proof. intros s. unfold piget. destruct (k_pipes s !! pi); [apply same_refs_refl|done]. Qed.
Lemma calm_piset pi x : calm (piset pi x).
Proof. by intros s. Qed.
Lemma calm_fget f : calm (fget f).
Proof. intros s. apply same_refs_refl. Qed.
Lemma calm_fmod f g : (forall x, f_ref (g x) = f_ref x) -> calm (fmod f g).
Proof. intros Hg s. apply same_refs_ftable. apply Hg. Qed.
Lemma calm_umod f : calm (umod f).
Proof. by intros s. Qed.
Lemma calm_cmod f : calm (cmod f).
Proof. by intros s. Qed.
Lemma calm_with_uart u : calm (kmod (with_uart u)).
Proof. by intros s. Qed.
Lemma calm_with_pipes f : calm (kmod (fun s => with_pipes (f s) s)).
Proof. by intros s. Qed.
Lemma calm_pmod p f : (forall x, p_ofile (f x) = p_ofile x) -> (forall x, idle (f x) -> idle x) -> calm (pmod p f).
Proof. intros H1 H2 s. apply same_refs_setp; [apply H1|apply H2]. Qed.
Lemma calm_pmine f : (forall x, p_ofile (f x) = p_ofile x) -> (forall x, idle (f x) -> idle x) -> calm (pmine f).
Proof. intros H1 H2 s. by apply calm_pmod. Qed.

Lemma calm_liftF {A} (c : K fstate A) : calm (liftF c).
Proof.
  intros s. unfold liftF. destruct (c (enter_fs s)) as [a f|m|f|]; try done.
  eapply same_refs_trans; [|apply same_refs_sleep]. done.
Qed.

Lemma calm_sleep {A} ch : calm (sleep (A := A) ch).
Proof. intros s. apply same_refs_sleep. Qed.

Lemma calm_wakeup ch : calm (wakeup ch).
Proof.
  intros s. unfold wakeup. assert (forall i x, p_ofile (wake1 (k_me s) ch i x) = p_ofile x) as Ho by (intros i x; unfold wake1; by repeat case_decide).
  split; try done.
  - unfold tables. cbn [k_proc with_proc]. apply list_eq. intros i. rewrite !list_lookup_fmap, list_lookup_imap. destruct (k_proc s !! i); [|done]. cbn. by rewrite Ho.
  - intros p. unfold getp. cbn [k_proc with_proc]. rewrite list_lookup_imap. destruct (k_proc s !! p) as [x|]; [|done]. cbn [fmap option_fmap option_map default].
    unfold wake1. case_decide; [done|]. case_decide; [|done]. by intros [?|?].
Qed.

Lemma calm_liftW {A} (c : K fstate A) : calm (liftW c).
Proof.
  apply calm_bind; [apply calm_liftF|]. intros a. apply calm_bind; [apply calm_wakeup|]. intros []. apply calm_ret.
Qed.

#[export] Hint Resolve calm_ret calm_panic calm_diverge calm_get calm_myproc calm_mine calm_pget calm_piget calm_piset
  calm_fget calm_umod calm_cmod calm_with_uart calm_with_pipes calm_liftF calm_liftW calm_sleep calm_wakeup : calm.

(** [calm_tac] walks through the code of an operation. *)
Ltac calm_tac :=
  repeat first
    [ solve [auto with calm nocore]
    | apply calm_fmod; done
    | apply calm_bind; [|intros]
    | apply calm_pmine; done
    | apply calm_pmod; [done|first [done|by intros ? [?|?]]]
    | progress cbv zeta
    | case_match ].

Section calm.
Context `{I : KernelImage}.

Lemma calm_kmemop {A} (c : K kmem A) : calm (kmemop c).
Proof. apply calm_liftF. Qed.
Lemma calm_begin_op : calm kbegin_op.
Proof. apply calm_liftF. Qed.
Lemma calm_end_op : calm kend_op.
Proof. apply calm_liftW. Qed.
Lemma calm_tf_get tf off : calm (tf_get tf off).
Proof. apply calm_liftF. Qed.
Lemma calm_tf_set tf off v : calm (tf_set tf off v).
Proof. apply calm_liftF. Qed.
Lemma calm_killed p : calm (killed p).
Proof. unfold killed. calm_tac. Qed.
Lemma calm_copyin1 a : calm (copyin1 a).
Proof. apply calm_bind; [apply calm_mine|]. intros. apply calm_liftF. Qed.
Lemma calm_copyout1 a c : calm (copyout1 a c).
Proof. apply calm_bind; [apply calm_mine|]. intros. apply calm_liftF. Qed.
#[local] Hint Resolve calm_kmemop calm_begin_op calm_end_op calm_tf_get calm_tf_set calm_killed calm_copyin1 calm_copyout1 : calm.

(** Pipes, the console, and reading and writing files. *)
Lemma calm_pipeclose pi w : calm (pipeclose pi w).
Proof. unfold pipeclose. calm_tac. Qed.
Lemma calm_pipewrite pi addr n : calm (pipewrite pi addr n).
Proof. unfold pipewrite. generalize 0 at 1. induction (S (Z.to_nat n)) as [|k IH]; intros i; cbn [pipewrite_loop]; calm_tac. Qed.
Lemma calm_piperead pi addr n : calm (piperead pi addr n).
Proof.
  assert (forall k i, calm (piperead_loop k pi addr i n)) as Hl by (induction k; intros; cbn [piperead_loop]; calm_tac).
  unfold piperead. calm_tac.
Qed.
Lemma calm_uartstart : calm uartstart.
Proof. unfold uartstart. induction (S _); cbn [uartstart_loop]; calm_tac. Qed.
#[local] Hint Resolve calm_pipeclose calm_pipewrite calm_piperead calm_uartstart : calm.
Lemma calm_uartputc c : calm (uartputc c).
Proof. unfold uartputc. calm_tac. Qed.
#[local] Hint Resolve calm_uartputc : calm.
Lemma calm_consputc c : calm (consputc c).
Proof. unfold consputc, uartputc_sync. calm_tac. Qed.
Lemma calm_kprint_str str fmt args : calm (kprint_str str fmt args).
Proof. pose proof calm_consputc. unfold kprint_str. destruct (kprintf _ fmt args) as [out|]; [|done]. induction out; cbn [foldr]; calm_tac. Qed.
Lemma calm_consolewrite src n : calm (consolewrite src n).
Proof. unfold consolewrite. generalize 0 at 1. induction (S (Z.to_nat n)) as [|k IH]; intros i; cbn [consolewrite_loop]; calm_tac. Qed.
Lemma calm_consoleread u dst n : calm (consoleread u dst n).
Proof.
  assert (forall k dst m t, calm (consoleread_loop k u dst m t)) as Hl by (induction k; intros; cbn [consoleread_loop]; calm_tac).
  unfold consoleread. calm_tac.
Qed.
#[local] Hint Resolve calm_consolewrite calm_consoleread : calm.
Lemma calm_filestat f a : calm (filestat f a).
Proof. unfold filestat. calm_tac. Qed.
Lemma calm_fileread f a n : calm (fileread f a n).
Proof. unfold fileread. calm_tac. Qed.
Lemma calm_filewrite f a n : calm (filewrite f a n).
Proof.
  assert (forall k i, calm (filewrite_loop k f a i n)) as Hl by (induction k; intros; cbn [filewrite_loop]; calm_tac).
  unfold filewrite. calm_tac.
Qed.

(** Arguments. *)
Lemma calm_argraw n : calm (argraw n).
Proof. unfold argraw. calm_tac. Qed.
Lemma calm_argaddr n : calm (argaddr n).
Proof. apply calm_argraw. Qed.
#[local] Hint Resolve calm_filestat calm_fileread calm_filewrite calm_argraw calm_argaddr : calm.
Lemma calm_argint n : calm (argint n).
Proof. unfold argint. calm_tac. Qed.
Lemma calm_fetchaddr a : calm (fetchaddr a).
Proof. unfold fetchaddr. calm_tac. Qed.
Lemma calm_fetchstr a m : calm (fetchstr a m).
Proof. unfold fetchstr. calm_tac. Qed.
#[local] Hint Resolve calm_argint calm_fetchaddr calm_fetchstr : calm.
Lemma calm_argstr n m : calm (argstr n m).
Proof. unfold argstr. calm_tac. Qed.
Lemma calm_argfd n : calm (argfd n).
Proof. unfold argfd. calm_tac. Qed.
#[local] Hint Resolve calm_argstr calm_argfd : calm.
Lemma calm_open_inode p m : calm (open_inode p m).
Proof. unfold open_inode. calm_tac. Qed.
Lemma calm_growproc n : calm (growproc n).
Proof. unfold growproc. calm_tac. Qed.
#[local] Hint Resolve calm_open_inode calm_growproc : calm.

(** Exec. *)
Lemma calm_loadseg pt va ip off sz : calm (loadseg pt va ip off sz).
Proof. unfold loadseg. generalize 0 at 1. induction (S _) as [|k IH]; intros i; cbn [loadseg_loop]; calm_tac. Qed.
#[local] Hint Resolve calm_loadseg : calm.
Lemma calm_load_loop k : forall pt ip off sz, calm (load_loop k pt ip off sz).
Proof. induction k; intros; cbn [load_loop]; calm_tac. Qed.
Lemma calm_push_args argv : forall argc pt sp base us, calm (push_args argv argc pt sp base us).
Proof. induction argv; intros; cbn [push_args]; calm_tac. Qed.
Lemma calm_exec_bad pt sz ip : calm (exec_bad pt sz ip).
Proof. unfold exec_bad. calm_tac. Qed.
#[local] Hint Resolve calm_load_loop calm_push_args calm_exec_bad : calm.
Lemma calm_exec path argv : calm (exec path argv).
Proof. unfold exec, exec_image. calm_tac. Qed.
Lemma calm_fetch_args k : forall u i pages args, calm (fetch_args k u i pages args).
Proof. induction k; intros; cbn [fetch_args]; calm_tac. Qed.
Lemma calm_free_args pages : calm (free_args pages).
Proof. induction pages; cbn [free_args]; calm_tac. Qed.
#[local] Hint Resolve calm_exec calm_fetch_args calm_free_args : calm.

(** Waking and killing. *)
Lemma calm_wakeup_proc p : calm (wakeup_proc p).
Proof. unfold wakeup_proc. calm_tac. Qed.
#[local] Hint Resolve calm_wakeup_proc : calm.
Lemma calm_reparent p : calm (reparent p).
Proof. unfold reparent. generalize 0%nat. induction (Z.to_nat NPROC) as [|k IH]; intros pp; cbn [reparent_loop]; calm_tac. Qed.
Lemma calm_kill pid : calm (kill pid).
Proof. unfold kill. generalize 0%nat. induction (Z.to_nat NPROC) as [|k IH]; intros p; cbn [kill_loop]; calm_tac. Qed.
#[local] Hint Resolve calm_reparent calm_kill : calm.

(** The system calls that take and drop no descriptor. *)
Lemma syscall_calm num f : syscalls num = Some f -> ~ In num [1; 2; 3; 4; 10; 15; 21] -> calm f.
Proof.
  intros H Hn. unfold syscalls in H. repeat (case_match; simplify_eq; try (exfalso; apply Hn; simpl; tauto));
    unfold sys_read, sys_kill, sys_exec, sys_fstat, sys_chdir, sys_getpid, sys_sbrk, sys_sleep, sleep_until, sys_uptime, sys_write, sys_mknod,
      sys_unlink, unlink_bad, sys_link, link_bad, sys_mkdir; calm_tac.
Qed.
End calm.

(** ** Taking and dropping references *)

(** From [P], the code returns with [Q], or sleeps with counts that differ from
    the number of descriptors by the references it holds. *)
Definition rt {A} (P : kstate -> Prop) (c : K kstate A) (Q : A -> kstate -> Prop) : Prop := forall s, P s ->
  match c s with
  | Ret a s' => Q a s'
  | Sleep s' => near s'
  | Panic _ | Diverge => True
  end.

Lemma rt_bind {A B} P Q R (c : K kstate A) (f : A -> K kstate B) : rt P c Q -> (forall a, rt (Q a) (f a) R) -> rt P (kbind c f) R.
Proof. intros Hc Hf s Hs. specialize (Hc s Hs). unfold kbind. destruct (c s) as [a s1|m|s1|]; try done. exact (Hf a s1 Hc). Qed.

Lemma rt_pre {A} (P P' : kstate -> Prop) (Q : A -> kstate -> Prop) c : rt P c Q -> (forall s, P' s -> P s) -> rt P' c Q.
Proof. intros H H1 s Hs. apply H. by apply H1. Qed.

Lemma rt_ret {A} (P : kstate -> Prop) (Q : A -> kstate -> Prop) a : (forall s, P s -> Q a s) -> rt P (kret a) Q.
Proof. intros H s Hs. by apply H. Qed.

(** The descriptor tables and the size of the file table are kept. *)
Record keep (s s' : kstate) : Prop := {
  ke_tables : tables s' = tables s;
  ke_me : k_me s' = k_me s;
  ke_files : length (k_ftable s') = length (k_ftable s);
  ke_live : forall p, idle (getp s' p) -> idle (getp s p)
}.
Definition steady (R : kstate -> Prop) : Prop := forall s s', keep s s' -> R s -> R s'.

Lemma same_refs_keeps s s' : same_refs s s' -> keep s s'.
Proof. intros [E1 E2 E3 E4]. split; try done; [pose proof (f_equal length E1) as E; by rewrite !length_map in E]. Qed.

Lemma rt_calm {A} adj R (c : K kstate A) : calm c -> steady R -> small adj -> rt (fun s => refs adj s /\ R s) c (fun _ s => refs adj s /\ R s).
Proof.
  intros Hc HR Hs s [Hr HRs]. specialize (Hc s). destruct (c s) as [a s1|m|s1|]; try done.
  - split; [by eapply same_refs_keep|]. eapply HR; [by apply same_refs_keeps|done].
  - exists adj. split; [by eapply same_refs_keep|done].
Qed.

Definition own (s : kstate) : list (option nat) := p_ofile (getp s (k_me s)).
Definition flen (s : kstate) : nat := length (k_ftable s).
Definition live (s : kstate) : Prop := ~ idle (getp s (k_me s)).
Definition at_ (l : list (option nat)) (n : nat) (s : kstate) : Prop := own s = l /\ flen s = n /\ live s.

Lemma steady_at l n : steady (at_ l n).
Proof.
  intros s s' [E1 E2 E3 E4] (H1 & H2 & H3). split_and!; [|unfold flen in *; congruence|intros H; apply H3, E4; by rewrite <- E2].
  unfold own in *. rewrite E2. by rewrite (getp_ofile s s' _ E1).
Qed.

Definition plus (adj : nat -> Z) (f : nat) : nat -> Z := fun g => adj g + one f g.
Definition minus (adj : nat -> Z) (f : nat) : nat -> Z := fun g => adj g - one f g.

Lemma refs_ext adj adj' s : (forall f, adj' f = adj f) -> refs adj s -> refs adj' s.
Proof. intros E [R1 R2 R3 R4 R5]. split; try done. intros f Hf. rewrite E. by apply R1. Qed.

Lemma minus_plus adj f g : minus (plus adj f) f g = adj g.
Proof. unfold minus, plus. lia. Qed.
Lemma plus_minus adj f g : plus (minus adj f) f g = adj g.
Proof. unfold minus, plus. lia. Qed.

Lemma small_zero : small zero.
Proof. intros f. unfold zero. lia. Qed.
Lemma small_plus adj f : small adj -> adj f <= 0 -> small (plus adj f).
Proof. intros H Hf g. specialize (H g). unfold plus, one. case_decide; subst; lia. Qed.
Lemma small_minus adj f : small adj -> 0 <= adj f -> small (minus adj f).
Proof. intros H Hf g. specialize (H g). unfold minus, one. case_decide; subst; lia. Qed.
Lemma small_ext adj adj' : (forall f, adj' f = adj f) -> small adj -> small adj'.
Proof. intros E H f. rewrite E. apply H. Qed.

Lemma entry_some f g : entry g (Some f) = one f g.
Proof. unfold entry, one. destruct (decide (f = g)) as [->|]; [by rewrite decide_True|]. rewrite decide_False by congruence. done. Qed.

(** Changing the count of a file. *)
Lemma refs_fset adj s f x d : refs adj s -> (f < flen s)%nat -> f_ref x = f_ref (getf s f) + d ->
  refs (fun g => adj g + d * one f g) (with_ftable (<[f := x]> (k_ftable s)) s) /\ keep s (with_ftable (<[f := x]> (k_ftable s)) s).
Proof.
  intros [R1 R2 R3 R4 R5] Hf Hx. unfold flen in Hf. split; [|by split; try done; cbn [k_ftable with_ftable]; rewrite length_insert].
  split; try done; cbn [k_ftable with_ftable]; rewrite ?length_insert; [|by apply R2].
  intros g Hg. set (s' := with_ftable _ s). change (tables s') with (tables s). pose proof (R1 g Hg) as Hr. unfold getf in *. cbn [s' k_ftable with_ftable]. unfold one.
  destruct (decide (f = g)) as [->|Hne]; [rewrite list_lookup_insert_eq by done; cbn [default id]; lia|]. rewrite list_lookup_insert_ne by done. lia.
Qed.

(** Changing a descriptor. *)
Lemma refs_ofile adj s p fd o o' : refs adj s -> (p < length (k_proc s))%nat -> p_ofile (getp s p) !! fd = Some o ->
  (forall f, o' = Some f -> (f < flen s)%nat /\ ~ idle (getp s p)) ->
  refs (fun g => adj g + entry g o - entry g o') (setp s p (set_ofile (<[fd := o']> (p_ofile (getp s p))) (getp s p))).
Proof.
  intros [R1 R2 R3 R4 R5] Hp Ho Ho'. set (x := set_ofile _ _).
  assert (tables (setp s p x) = <[p := <[fd := o']> (p_ofile (getp s p))]> (tables s)) as Et by (unfold tables, setp; cbn [k_proc with_proc]; by rewrite list_fmap_insert).
  assert (tables s !! p = Some (p_ofile (getp s p))) as Ep.
  { unfold tables, getp. rewrite list_lookup_fmap. apply lookup_lt_is_Some_2 in Hp as [y ->]. done. }
  split.
  - intros g Hg. rewrite Et, (nref_insert g (tables s) p _ _ Ep), (cnt_insert g _ fd o o' Ho). change (getf (setp s p x) g) with (getf s g). rewrite (R1 g Hg). lia.
  - intros q gd g. rewrite getp_setp by done. case_decide; [|apply R2]. subst. cbn [x set_ofile p_ofile]. intros H. apply list_lookup_insert_Some in H as [(_ & E & _)|[_ H]]; [by apply Ho'|by eapply R2].
  - intros q. rewrite getp_setp by done. case_decide; [|apply R3]. subst. intros Hi gd g. cbn [x set_ofile p_ofile]. intros H.
    apply list_lookup_insert_Some in H as [(_ & E & _)|[_ H]]; [by destruct (Ho' g E) as [_ []]|]. exact (R3 p Hi gd g H).
  - intros q. rewrite getp_setp by done. case_decide; [|apply R4]. cbn [x set_ofile p_ofile]. by rewrite length_insert.
  - unfold setp. cbn [k_me k_proc with_proc]. by rewrite length_insert.
Qed.

Lemma refs_zero_pos adj s p fd f : refs adj s -> p_ofile (getp s p) !! fd = Some (Some f) -> 1 <= nref f (tables s).
Proof.
  intros R H. eapply (nref_pos f (tables s) p (p_ofile (getp s p)) fd); [|done]. unfold tables, getp in *. rewrite list_lookup_fmap.
  destruct (k_proc s !! p) eqn:E; [done|]. change (replicate NOFILE None !! fd = Some (Some f)) in H. by apply lookup_replicate_1 in H as [? _].
Qed.

Section ops.
Context `{I : KernelImage}.
Variables (adj : nat -> Z) (R : kstate -> Prop).
Hypothesis HR : steady R.

Lemma find_free_spec l : forall i k, find_free l i = Some k -> (i <= k)%nat /\ exists x, l !! (k - i)%nat = Some x /\ f_ref x = 0.
Proof.
  induction l as [|x l IH]; intros i k H; [done|]. cbn [find_free] in H. destruct (Z.eqb_spec (f_ref x) 0) as [E|E].
  - injection H as <-. split; [lia|]. exists x. by rewrite Nat.sub_diag.
  - destruct (IH (S i) k H) as [Hk (y & Hy & Hr)]. split; [lia|]. exists y. by replace (k - i)%nat with (S (k - S i)) by lia.
Qed.

Lemma filealloc_ok : rt (fun s => refs adj s /\ R s) filealloc (fun o s => match o with
  | Some f => refs (plus adj f) s /\ (f < flen s)%nat /\ adj f <= 0 /\ R s
  | None => refs adj s /\ R s
  end).
Proof.
  intros s [Hr HRs]. unfold filealloc, kbind, kget. destruct (find_free (k_ftable s) 0) as [f|] eqn:E; [|done].
  apply find_free_spec in E as [_ (x & Hx & H0)]. rewrite Nat.sub_0_r in Hx. pose proof (lookup_lt_Some _ _ _ Hx) as Hf.
  assert (getf s f = x) as Hg by (unfold getf; by rewrite Hx). unfold fmod, kbind, fget, fset, kret. rewrite Hg.
  destruct (refs_fset adj s f (set_fref 1 x) 1 Hr Hf) as [Hr' Hk]; [rewrite Hg, H0; done|].
  split; [eapply refs_ext; [|exact Hr']; intros g; unfold plus; lia|]. split; [unfold flen; by rewrite (ke_files _ _ Hk)|].
  split; [|by eapply HR]. pose proof (rf_count _ _ Hr f Hf) as Hc. rewrite Hg, H0 in Hc. pose proof (nref_nonneg f (tables s)). lia.
Qed.

Lemma filedup_ok f : rt (fun s => refs adj s /\ (f < flen s)%nat /\ R s) (filedup f) (fun g s => g = f /\ refs (plus adj f) s /\ R s).
Proof.
  intros s (Hr & Hf & HRs). unfold filedup, kbind, fget. destruct (_ <? 1); [done|]. unfold fset, kret.
  destruct (refs_fset adj s f (set_fref (f_ref (getf s f) + 1) (getf s f)) 1 Hr Hf eq_refl) as [Hr' Hk].
  split; [done|]. split; [eapply refs_ext; [|exact Hr']; intros g; unfold plus; lia|by eapply HR].
Qed.

Lemma fileclose_ok f : small (minus adj f) -> rt (fun s => refs adj s /\ (f < flen s)%nat /\ R s) (fileclose f) (fun _ s => refs (minus adj f) s /\ R s).
Proof.
  intros Hsm s (Hr & Hf & HRs). unfold fileclose. rewrite (kbind_ret (fget f) _ s (getf s f) s eq_refl). destruct (Z.ltb_spec (f_ref (getf s f)) 1); [done|].
  assert (forall x, f_ref x = f_ref (getf s f) - 1 -> refs (minus adj f) (with_ftable (<[f := x]> (k_ftable s)) s) /\ R (with_ftable (<[f := x]> (k_ftable s)) s)) as Hset.
  { intros x Hx. destruct (refs_fset adj s f x (-1) Hr Hf) as [Hr' Hk]; [lia|]. split; [eapply refs_ext; [|exact Hr']; intros g; unfold minus; lia|by eapply HR]. }
  destruct (Z.ltb_spec 0 (f_ref (getf s f) - 1)); [by apply Hset|].
  set (y := File FD_NONE 0 _ _ _ _ _ _). pose proof (Hset y ltac:(cbn; lia)) as H1. set (s1 := with_ftable _ s) in H1.
  rewrite (kbind_ret (fset f y) _ s tt s1 eq_refl).
  assert (calm (match f_type (getf s f) with
    | FD_PIPE => pipeclose (f_pipe (getf s f)) (f_writable (getf s f))
    | FD_INODE | FD_DEVICE => kbegin_op ;;; liftW (iput (f_ip (getf s f))) ;;; kend_op
    | FD_NONE => kret tt
    end)) as Hc.
  { pose proof calm_pipeclose. pose proof calm_begin_op. pose proof calm_end_op. destruct (f_type (getf s f)); calm_tac. }
  exact (rt_calm (minus adj f) R _ Hc HR Hsm s1 H1).
Qed.
End ops.

(** ** Descriptors *)

Section fds.
Context `{I : KernelImage}.

Lemma rt_at {A} adj l n (c : K kstate A) : calm c -> small adj -> rt (fun s => refs adj s /\ at_ l n s) c (fun _ s => refs adj s /\ at_ l n s).
Proof. intros Hc Hs. apply rt_calm; [done|apply steady_at|done]. Qed.

Lemma find_fd_spec l : forall i k, find_fd l i = Some k -> (i <= k)%nat /\ l !! (k - i)%nat = Some None.
Proof.
  induction l as [|[f|] l IH]; intros i k H; [done| |].
  - destruct (IH (S i) k H) as [Hk Hl]. split; [lia|]. by replace (k - i)%nat with (S (k - S i)) by lia.
  - injection H as <-. split; [lia|]. by rewrite Nat.sub_diag.
Qed.

(** Changing a descriptor of the running process. *)
Lemma own_set_ok adj l n fd o o' : l !! fd = Some o -> (forall f, o' = Some f -> (f < n)%nat) ->
  rt (fun s => refs adj s /\ at_ l n s) (pmine (fun x => set_ofile (<[fd := o']> (p_ofile x)) x))
    (fun _ s => refs (fun g => adj g + entry g o - entry g o') s /\ at_ (<[fd := o']> l) n s).
Proof.
  intros Ho Ho' s (Hr & Hl & Hn & Hli). unfold pmine, pmod. pose proof (rf_me _ _ Hr) as Hme. unfold own in Hl.
  split; [apply refs_ofile; [done|done|by rewrite Hl|]; intros f Hf; split; [rewrite Hn; by apply Ho'|done]|].
  unfold at_, own, flen, live. cbn [setp with_proc k_me k_ftable]. fold (setp s (k_me s) (set_ofile (<[fd:=o']> (p_ofile (getp s (k_me s)))) (getp s (k_me s)))).
  rewrite getp_setp_same by done. split_and!; [cbn; by rewrite Hl|done|done].
Qed.

Lemma fdalloc_ok adj l n f : (f < n)%nat -> rt (fun s => refs adj s /\ at_ l n s) (fdalloc f) (fun fd s =>
  (exists i, fd = Z.of_nat i /\ l !! i = Some None /\ refs (minus adj f) s /\ at_ (<[i := Some f]> l) n s) \/ fd = -1 /\ refs adj s /\ at_ l n s).
Proof.
  intros Hf s (Hr & Ha). pose proof Ha as (Hl & _). unfold fdalloc. rewrite (kbind_ret mine _ s (getp s (k_me s)) s eq_refl). unfold own in Hl. rewrite Hl.
  destruct (find_fd l 0) as [i|] eqn:E; [|by right]. apply find_fd_spec in E as [_ E]. rewrite Nat.sub_0_r in E.
  pose proof (own_set_ok adj l n i None (Some f) E ltac:(congruence) s (conj Hr Ha)) as H. unfold kbind.
  destruct (pmine _ s) as [[] s1|m|s1|]; try done. destruct H as [H1 H2]. left. exists i. split; [done|]. split; [done|]. split; [|done].
  eapply refs_ext; [|exact H1]. intros g. cbv beta. rewrite entry_some. unfold minus, entry. rewrite decide_False by done. lia.
Qed.

Lemma fdclear_ok adj l n i f : l !! i = Some (Some f) -> rt (fun s => refs adj s /\ at_ l n s) (fdclear (Z.of_nat i))
  (fun _ s => refs (plus adj f) s /\ at_ (<[i := None]> l) n s).
Proof.
  intros Hi s Hs. unfold fdclear. rewrite Nat2Z.id. pose proof (own_set_ok adj l n i (Some f) None Hi ltac:(done) s Hs) as H.
  destruct (pmine _ s) as [[] s1|m|s1|]; try done. destruct H as [H1 H2]. split; [|done].
  eapply refs_ext; [|exact H1]. intros g. cbv beta. rewrite entry_some. unfold plus, entry. rewrite decide_False by done. lia.
Qed.

(** A descriptor in use designates a file of the table. *)
Lemma at_file adj s l n i f : refs adj s -> at_ l n s -> l !! i = Some (Some f) -> (f < n)%nat.
Proof. intros Hr (Hl & Hn & _) Hi. rewrite <- Hn. apply (rf_in _ _ Hr (k_me s) i). unfold own in Hl. by rewrite Hl. Qed.

Lemma argfd_ok l n k : rt (fun s => refs zero s /\ at_ l n s) (argfd k) (fun o s => refs zero s /\ at_ l n s /\
  match o with Some (fd, f) => exists i, fd = Z.of_nat i /\ l !! i = Some (Some f) | None => True end).
Proof.
  unfold argfd. eapply rt_bind; [apply rt_at; [apply calm_argint|apply small_zero]|]. intros fd.
  destruct (Z.ltb_spec fd 0); [by intros s [? ?]|]. destruct (_ <=? fd); [by intros s [? ?]|]. cbn [orb].
  intros s [Hr Ha]. rewrite (kbind_ret mine _ s (getp s (k_me s)) s eq_refl). pose proof Ha as (Hl & _). unfold own in Hl. rewrite Hl.
  destruct (l !! Z.to_nat fd) as [[f|]|] eqn:E; [|done|done]. split; [done|]. split; [done|]. exists (Z.to_nat fd). split; [lia|done].
Qed.

(** [argfd] and what the call does with the descriptor. *)
Lemma with_fd l n k (c : Z * nat -> K kstate Z) : (forall i f, l !! i = Some (Some f) -> (f < n)%nat -> rt (fun s => refs zero s /\ at_ l n s) (c (Z.of_nat i, f)) (fun _ => refs zero)) ->
  rt (fun s => refs zero s /\ at_ l n s) (a <- argfd k ;; match a with None => kret (-1) | Some a => c a end) (fun _ => refs zero).
Proof.
  intros H. eapply rt_bind; [apply argfd_ok|]. intros [[fd f]|]; [|by intros s (? & _)].
  intros s (Hr & Ha & i & -> & Hi). apply (H i f Hi); [by eapply at_file|done].
Qed.

(** Rules for the calls that take a file or a descriptor. *)
Lemma rt_ext {A} adj adj' l n (c : K kstate A) Q : (forall g, adj' g = adj g) -> rt (fun s => refs adj s /\ at_ l n s) c Q ->
  rt (fun s => refs adj' s /\ at_ l n s) c Q.
Proof. intros E H. eapply rt_pre; [exact H|]. intros s [Hr Ha]. split; [|done]. eapply refs_ext; [|exact Hr]. intros g. by rewrite E. Qed.

Lemma rt_pure {A} (phi : Prop) P (c : K kstate A) Q : (phi -> rt P c Q) -> rt (fun s => phi /\ P s) c Q.
Proof. intros H s [H1 H2]. by apply H. Qed.

Lemma rt_pure' {A} (phi : Prop) P (c : K kstate A) Q : (phi -> rt P c Q) -> rt (fun s => P s /\ phi) c Q.
Proof. intros H s [H1 H2]. by apply H. Qed.

Lemma with_fdalloc {A} adj l n f (k : Z -> K kstate A) Q : (f < n)%nat ->
  (forall i, l !! i = Some None -> rt (fun s => refs (minus adj f) s /\ at_ (<[i := Some f]> l) n s) (k (Z.of_nat i)) Q) ->
  rt (fun s => refs adj s /\ at_ l n s) (k (-1)) Q -> rt (fun s => refs adj s /\ at_ l n s) (fd <- fdalloc f ;; k fd) Q.
Proof.
  intros Hf H1 H2. eapply rt_bind; [by apply fdalloc_ok|]. intros fd s [(i & -> & Hi & Hr & Ha)|(-> & Hr & Ha)]; [by apply H1|by apply H2].
Qed.

Lemma with_filealloc {A} adj l n (k : option nat -> K kstate A) Q :
  (forall f, (f < n)%nat -> adj f <= 0 -> rt (fun s => refs (plus adj f) s /\ at_ l n s) (k (Some f)) Q) ->
  rt (fun s => refs adj s /\ at_ l n s) (k None) Q -> rt (fun s => refs adj s /\ at_ l n s) (o <- filealloc ;; k o) Q.
Proof.
  intros H1 H2. eapply rt_bind; [apply filealloc_ok, steady_at|]. intros [f|]; [|done]. intros s (Hr & Hf & Hle & Ha).
  apply H1; [by destruct Ha as (_ & <- & _)|done|done].
Qed.

Lemma sys_dup_ok l n : rt (fun s => refs zero s /\ at_ l n s) sys_dup (fun _ => refs zero).
Proof.
  unfold sys_dup. apply (with_fd l n 0 (fun '(_, f) => fd <- fdalloc f ;; if fd <? 0 then kret (-1) else filedup f ;;; kret fd)).
  intros i f Hi Hf. apply with_fdalloc; [done| |by apply rt_ret; intros s [? _]]. intros j _. rewrite (proj2 (Z.ltb_ge _ 0)) by lia.
  eapply (rt_bind _ (fun _ => refs zero)); [|by intros g; apply rt_ret]. intros s [Hr (_ & Hn & _)]. assert (f < flen s)%nat as Hfs by (by rewrite Hn).
  pose proof (filedup_ok (minus zero f) (fun _ => True) ltac:(done) f s (conj Hr (conj Hfs Logic.I))) as H. destruct (filedup f s); try done.
  destruct H as (_ & H & _). eapply refs_ext; [|exact H]. intros g. by rewrite plus_minus.
Qed.

(** Closing a file that the running code holds a reference to. *)
Lemma close_held adj adj' l n f : (forall g, adj' g = plus adj f g) -> small adj -> (f < n)%nat ->
  rt (fun s => refs adj' s /\ at_ l n s) (fileclose f) (fun _ s => refs adj s /\ at_ l n s).
Proof.
  intros E Hs Hf s [Hr Ha]. assert (forall g, minus (plus adj f) f g = adj g) as Em by apply minus_plus.
  assert (small (minus (plus adj f) f)) as Hs' by by eapply small_ext. assert (f < flen s)%nat as Hfs by (by destruct Ha as (_ & -> & _)).
  pose proof (fileclose_ok (plus adj f) (at_ l n) (steady_at l n) f Hs' s (conj (refs_ext _ _ _ (fun g => eq_sym (E g)) Hr) (conj Hfs Ha))) as H.
  destruct (fileclose f s) as [[] s1| | |]; try done. destruct H as [H1 H2]. split; [|done]. eapply refs_ext; [|exact H1]. intros g. by rewrite Em.
Qed.

Lemma sys_close_ok l n : rt (fun s => refs zero s /\ at_ l n s) sys_close (fun _ => refs zero).
Proof.
  unfold sys_close. apply (with_fd l n 0 (fun '(fd, f) => fdclear fd ;;; fileclose f ;;; kret 0)).
  intros i f Hi Hf. eapply rt_bind; [by apply fdclear_ok|]. intros [].
  eapply rt_bind; [by apply close_held; [|apply small_zero|]|]. intros []. by apply rt_ret; intros s [? _].
Qed.

Lemma calm_refs {A} l n (c : K kstate A) : calm c -> rt (fun s => refs zero s /\ at_ l n s) c (fun _ => refs zero).
Proof. intros Hc s Hs. pose proof (rt_at zero l n c Hc small_zero s Hs) as H. destruct (c s); try done. apply H. Qed.

Lemma sys_open_ok l n : rt (fun s => refs zero s /\ at_ l n s) sys_open (fun _ => refs zero).
Proof.
  pose proof calm_end_op as He. pose proof calm_begin_op as Hb. unfold sys_open.
  eapply rt_bind; [apply rt_at; [apply calm_argint|apply small_zero]|]. intros omode.
  eapply rt_bind; [apply rt_at; [apply calm_argstr|apply small_zero]|]. intros path. case_match; [apply calm_refs; calm_tac|].
  eapply rt_bind; [apply rt_at; [done|apply small_zero]|]. intros [].
  eapply rt_bind; [apply rt_at; [apply calm_open_inode|apply small_zero]|]. intros [ip|]; [|apply calm_refs; calm_tac].
  eapply rt_bind; [apply rt_at; [apply calm_liftF|apply small_zero]|]. intros x. case_match; [apply calm_refs; calm_tac|].
  apply with_filealloc; [|apply calm_refs; calm_tac]. intros f Hf _. apply with_fdalloc; [done| |].
  - intros i Hi. rewrite (proj2 (Z.ltb_ge _ 0)) by lia. eapply rt_ext; [apply minus_plus|]. apply calm_refs. calm_tac.
  - change (-1 <? 0) with true. cbv iota. eapply rt_bind; [by apply (close_held zero); [|apply small_zero|]|]. intros []. apply calm_refs. calm_tac.
Qed.

(** ** Pipes *)

Lemma close_two l n r w v : r <> w -> (r < n)%nat -> (w < n)%nat ->
  rt (fun s => refs (plus (plus zero r) w) s /\ at_ l n s) (fileclose r ;;; fileclose w ;;; kret v) (fun (_ : Z) => refs zero).
Proof.
  intros Hne Hr Hw. eapply rt_bind; [apply (close_held (plus zero w)); [intros g; unfold plus; lia| |done]|].
  { apply small_plus; [apply small_zero|done]. }
  intros []. eapply rt_bind; [by apply (close_held zero); [|apply small_zero|]|]. intros []. by apply rt_ret; intros s [? _].
Qed.

(** Both ends of a new pipe are held by the running code. *)
Definition two_ends (l : list (option nat)) (n : nat) (o : option (nat * nat)) (s : kstate) : Prop :=
  match o with
  | Some (r, w) => (r <> w /\ (r < n)%nat /\ (w < n)%nat) /\ refs (plus (plus zero r) w) s /\ at_ l n s
  | None => refs zero s /\ at_ l n s
  end.

Lemma pipealloc_ok l n : rt (fun s => refs zero s /\ at_ l n s) pipealloc (two_ends l n).
Proof.
  unfold pipealloc. apply with_filealloc; [|by apply rt_ret]. intros r Hr _.
  assert (small (plus zero r)) as Hs1 by (apply small_plus; [apply small_zero|done]).
  apply with_filealloc.
  2:{ eapply rt_bind; [by apply (close_held zero); [|apply small_zero|]|]. intros []. by apply rt_ret. }
  intros w Hw Hle. assert (r <> w) as Hne by (intros ->; unfold plus, one, zero in Hle; rewrite decide_True in Hle by done; lia).
  assert (small (plus (plus zero r) w)) as Hs2 by by apply small_plus.
  eapply rt_bind; [by apply rt_at; [apply calm_kmemop|]|]. intros pi. case_match.
  - eapply rt_bind; [apply (close_held (plus zero w)); [intros g; unfold plus; lia| |done]|].
    { apply small_plus; [apply small_zero|done]. }
    intros []. eapply rt_bind; [by apply (close_held zero); [|apply small_zero|]|]. intros []. by apply rt_ret.
  - eapply rt_bind; [by apply rt_at; [apply calm_with_pipes|]|]. intros [].
    eapply rt_bind; [by apply rt_at; [apply calm_fmod|]|]. intros [].
    eapply rt_bind; [by apply rt_at; [apply calm_fmod|]|]. intros []. by apply rt_ret.
Qed.

Lemma sys_pipe_ok l n : rt (fun s => refs zero s /\ at_ l n s) sys_pipe (fun _ => refs zero).
Proof.
  unfold sys_pipe. eapply rt_bind; [apply rt_at; [apply calm_argaddr|apply small_zero]|]. intros fdarray.
  eapply rt_bind; [apply pipealloc_ok|]. intros [[r w]|]; [|by apply rt_ret; intros s [? _]]. apply rt_pure. intros (Hne & Hr & Hw).
  apply with_fdalloc; [done| |].
  2:{ change (-1 <? 0) with true. cbv iota. eapply rt_bind; [by apply (rt_ret _ (fun a s => (refs (plus (plus zero r) w) s /\ at_ l n s) /\ a = -1))|].
      intros a. apply rt_pure'. intros ->. change (-1 <? 0) with true. change (0 <=? -1) with false. cbv iota.
      eapply rt_bind; [by apply (rt_ret _ (fun _ s => refs (plus (plus zero r) w) s /\ at_ l n s))|]. intros []. by apply close_two. }
  intros i Hi. rewrite (proj2 (Z.ltb_ge (Z.of_nat i) 0)) by lia. set (l1 := <[i := Some r]> l).
  assert (l1 !! i = Some (Some r)) as Hi1 by (apply list_lookup_insert_eq; by eapply lookup_lt_Some).
  eapply (rt_ext (plus zero w)); [intros g; unfold minus, plus; lia|]. apply with_fdalloc; [done| |].
  - intros j Hj. rewrite (proj2 (Z.ltb_ge (Z.of_nat j) 0)) by lia. eapply rt_ext; [apply minus_plus|]. set (l2 := <[j := Some w]> l1).
    assert (i <> j) as Hij by (intros ->; congruence).
    eapply rt_bind; [apply rt_at; [apply calm_mine|apply small_zero]|]. intros x.
    eapply rt_bind; [apply rt_at; [apply calm_kmemop|apply small_zero]|]. intros r1.
    eapply rt_bind; [apply rt_at; [pose proof @calm_kmemop; calm_tac|apply small_zero]|]. intros r2. case_match; [|by apply rt_ret; intros s [? _]].
    eapply rt_bind; [apply (fdclear_ok zero l2 n i r); unfold l2; by rewrite list_lookup_insert_ne|]. intros [].
    eapply rt_bind; [apply (fdclear_ok _ _ n j w); rewrite list_lookup_insert_ne by done; apply list_lookup_insert_eq; by eapply lookup_lt_Some|]. intros [].
    by apply close_two.
  - change (-1 <? 0) with true. rewrite (proj2 (Z.leb_le 0 (Z.of_nat i))) by lia. cbv iota.
    eapply rt_bind; [by apply (fdclear_ok _ l1 n i r)|]. intros []. eapply (rt_ext (plus (plus zero r) w)); [intros g; unfold plus; lia|]. by apply close_two.
Qed.
End fds.

(** ** Processes *)

Section procs.
Context `{I : KernelImage}.

(** Another process: one without files, and one with the descriptors [m]. *)
Definition blank (p : nat) (s : kstate) : Prop := p <> k_me s /\ no_files (getp s p).
Definition child (np : nat) (m : list (option nat)) (s : kstate) : Prop :=
  np <> k_me s /\ (np < length (k_proc s))%nat /\ p_ofile (getp s np) = m /\ ~ idle (getp s np).

Lemma steady_blank p : steady (blank p).
Proof. intros s s' [E1 E2 E3 E4] [H1 H2]. split; [by rewrite E2|]. intros fd f. rewrite (getp_ofile s s' p E1). apply H2. Qed.

Lemma steady_child np m : steady (child np m).
Proof.
  intros s s' [E1 E2 E3 E4] (H1 & H2 & H3 & H4). pose proof (f_equal length E1) as El. unfold tables in El. rewrite !length_map in El.
  split_and!; [by rewrite E2|lia|by rewrite (getp_ofile s s' np E1)|]. intros Hi. by apply H4, E4.
Qed.

Lemma steady_and R1 R2 : steady R1 -> steady R2 -> steady (fun s => R1 s /\ R2 s).
Proof. intros H1 H2 s s' Hk [? ?]. split; [by eapply H1|by eapply H2]. Qed.

Lemma no_files_replicate (m : list (option nat)) : length m = NOFILE -> (forall fd f, m !! fd <> Some (Some f)) -> m = replicate NOFILE None.
Proof.
  intros Hl Hm. apply list_eq. intros i. destruct (decide (i < NOFILE)%nat) as [Hi|Hi].
  - rewrite lookup_replicate_2 by done. destruct (lookup_lt_is_Some_2 m i ltac:(lia)) as [[f|] E]; [by destruct (Hm i f)|done].
  - rewrite !lookup_ge_None_2; [done|rewrite length_replicate; lia|lia].
Qed.

(** An entry without files may change its state. *)
Lemma refs_idle adj s p x : refs adj s -> no_files (getp s p) -> p_ofile x = p_ofile (getp s p) -> refs adj (setp s p x).
Proof.
  intros [R1 R2 R3 R4 R5] Hn Hx. destruct (decide (p < length (k_proc s))%nat) as [Hp|Hp].
  2:{ unfold setp. rewrite list_insert_ge by lia. by destruct s. }
  assert (tables (setp s p x) = tables s) as Et.
  { unfold tables, setp. cbn [k_proc with_proc]. rewrite list_fmap_insert. apply list_insert_id. rewrite list_lookup_fmap.
    unfold getp in Hx. apply lookup_lt_is_Some_2 in Hp as [y E]. rewrite E in Hx |- *. cbn in *. congruence. }
  split; [intros f Hf; rewrite Et; by apply R1| | | |unfold setp; cbn [k_me k_proc with_proc]; by rewrite length_insert].
  - intros q fd f. rewrite (getp_ofile _ _ q Et). apply R2.
  - intros q Hq fd f. rewrite (getp_ofile _ _ q Et). rewrite getp_setp in Hq by done. case_decide; [subst; apply Hn|by apply R3].
  - intros q. rewrite (getp_ofile _ _ q Et). apply R4.
Qed.

Lemma at_setp l n s p x : p <> k_me s -> at_ l n s -> at_ l n (setp s p x).
Proof.
  intros Hp (H1 & H2 & H3). unfold at_, own, live in *. change (k_me (setp s p x)) with (k_me s).
  by rewrite getp_setp_other by done.
Qed.

Lemma freeproc_refs l n p : rt (fun s => refs zero s /\ at_ l n s /\ blank p s) (freeproc p) (fun _ s => refs zero s /\ at_ l n s).
Proof.
  assert (forall A (c : K kstate A), calm c -> rt (fun s => refs zero s /\ at_ l n s /\ blank p s) c (fun _ s => refs zero s /\ at_ l n s /\ blank p s)) as Hc.
  { intros A c Hc. apply rt_calm; [done|apply steady_and; [apply steady_at|apply steady_blank]|apply small_zero]. }
  pose proof @calm_kmemop. unfold freeproc. eapply rt_bind; [apply Hc, calm_pget|]. intros x. eapply rt_bind; [apply Hc; calm_tac|]. intros [].
  eapply rt_bind; [apply Hc; by apply calm_pmod|]. intros []. eapply rt_bind; [apply Hc; calm_tac|]. intros [].
  intros s (Hr & Ha & Hp & Hn). unfold pmod. split; [by apply refs_idle|by apply at_setp].
Qed.

Lemma child_blank p s : child p (replicate NOFILE None) s -> blank p s.
Proof. intros (H1 & _ & H2 & _). split; [done|]. intros fd f. rewrite H2. intros H. by apply lookup_replicate_1 in H as [? _]. Qed.

(** Code that takes no reference, beside a new process. *)
Lemma rt_child {A} adj l n np m (c : K kstate A) : calm c -> small adj ->
  rt (fun s => refs adj s /\ at_ l n s /\ child np m s) c (fun _ s => refs adj s /\ at_ l n s /\ child np m s).
Proof. intros Hc Hs. apply rt_calm; [done|apply steady_and; [apply steady_at|apply steady_child]|done]. Qed.

Lemma freechild_refs {A} l n np (v : A) Q : (forall s, refs zero s -> at_ l n s -> Q v s) ->
  rt (fun s => refs zero s /\ at_ l n s /\ child np (replicate NOFILE None) s) (freeproc np ;;; kret v) Q.
Proof.
  intros HQ. eapply rt_bind; [eapply rt_pre; [apply (freeproc_refs l n)|]|intros []; by apply rt_ret; intros s [? ?]; apply HQ].
  intros s (? & ? & Hc). split_and!; [done|done|by apply child_blank].
Qed.

(** A new process has no files. *)
Lemma take_slot l n p pid : rt (fun s => refs zero s /\ at_ l n s /\ (p < length (k_proc s))%nat /\ p_state (getp s p) = UNUSED)
  (pmod p (fun x => set_state USED (set_procid pid x))) (fun _ s => refs zero s /\ at_ l n s /\ child p (replicate NOFILE None) s).
Proof.
  intros s (Hr & Ha & Hp & Hu). unfold pmod. set (s1 := setp s p _).
  assert (idle (getp s p)) as Hi by by left. assert (p <> k_me s) as Hne by (intros ->; by apply Ha in Hi).
  pose proof (rf_idle _ _ Hr p Hi) as Hn. split; [by apply refs_idle|]. split; [by apply at_setp|].
  split; [done|]. split; [unfold s1, setp; cbn [k_proc with_proc]; by rewrite length_insert|]. unfold s1. rewrite getp_setp_same by done.
  split; [|by intros [?|?]]. apply no_files_replicate; [apply (rf_len _ _ Hr p)|exact Hn].
Qed.

Definition born (l : list (option nat)) (n : nat) (o : option nat) (s : kstate) : Prop :=
  refs zero s /\ at_ l n s /\ match o with Some np => child np (replicate NOFILE None) s | None => True end.

Lemma allocproc_refs l n : rt (fun s => refs zero s /\ at_ l n s) allocproc (born l n).
Proof.
  assert (forall p A (c : K kstate A), calm c -> rt (fun s => refs zero s /\ at_ l n s /\ child p (replicate NOFILE None) s) c (fun _ s => refs zero s /\ at_ l n s /\ child p (replicate NOFILE None) s)) as Hc.
  { intros p A c Hc. apply rt_child; [done|apply small_zero]. }
  intros s [Hr Ha]. unfold allocproc. rewrite (kbind_ret kget _ s s s eq_refl). destruct (find_unused (k_proc s) 0) as [p|] eqn:Ef; [|done].
  apply find_unused_spec in Ef as (x & Hx & _ & Hu). rewrite Nat.sub_0_r in Hx. pose proof (lookup_lt_Some _ _ _ Hx) as Hp.
  assert (p_state (getp s p) = UNUSED) as Hs by (unfold getp; by rewrite Hx). generalize (conj Hr (conj Ha (conj Hp Hs))). clear - Hc. revert s.
  set (P := fun s => refs zero s /\ at_ l n s /\ (p < length (k_proc s))%nat /\ p_state (getp s p) = UNUSED).
  eapply (rt_bind P (fun _ => P)); [intros s (Hr & H); split; [apply (same_refs_keep zero s); [by split|exact Hr]|exact H]|]. intros pid.
  eapply rt_bind; [apply take_slot|]. intros [].
  eapply rt_bind; [apply Hc, calm_kmemop|]. intros tf. eapply rt_bind; [apply Hc; by apply calm_pmod|]. intros [].
  case_match; [by apply freechild_refs|]. eapply rt_bind; [apply Hc, calm_kmemop|]. intros pt. eapply rt_bind; [apply Hc; by apply calm_pmod|]. intros [].
  case_match; [by apply freechild_refs|]. eapply rt_bind; [apply Hc; by apply calm_pmod|]. intros []. by apply rt_ret.
Qed.

(** The copies of the parent's descriptors. *)
Lemma child_set l n np m i f : m !! i = Some None -> (f < n)%nat -> rt (fun s => refs (plus zero f) s /\ at_ l n s /\ child np m s)
  (pmod np (fun x => set_ofile (<[i := Some f]> (p_ofile x)) x)) (fun _ s => refs zero s /\ at_ l n s /\ child np (<[i := Some f]> m) s).
Proof.
  intros Hi Hf s (Hr & Ha & Hne & Hp & Hm & Hl). unfold pmod. split; [|split; [by apply at_setp|]].
  - eapply refs_ext; [|apply (refs_ofile (plus zero f) s np i None (Some f)); [done|done|by rewrite Hm|]].
    + intros g. cbv beta. rewrite entry_some. unfold plus, zero, entry. rewrite decide_False by done. lia.
    + intros g [= <-]. split; [|done]. by destruct Ha as (_ & -> & _).
  - split; [done|]. split; [unfold setp; cbn [k_proc with_proc]; by rewrite length_insert|]. rewrite getp_setp_same by done.
    split; [by cbn; rewrite Hm|done].
Qed.

Lemma dup_files_refs l n np : forall fs m i, Forall (fun o => forall f, o = Some f -> (f < n)%nat) fs -> length m = NOFILE -> (i + length fs <= NOFILE)%nat ->
  (forall j, (i <= j < NOFILE)%nat -> m !! j = Some None) ->
  rt (fun s => refs zero s /\ at_ l n s /\ child np m s) (dup_files fs np i) (fun _ s => refs zero s /\ at_ l n s /\ exists m', child np m' s).
Proof.
  induction fs as [|[f|] fs IH]; intros m i Hfs Hm Hi Hn; cbn [dup_files].
  - apply rt_ret. intros s (? & ? & ?). eauto.
  - apply Forall_cons in Hfs as [Hf Hfs]. cbn [length] in Hi. specialize (Hf f eq_refl).
    eapply rt_bind.
    { eapply rt_pre; [apply (filedup_ok zero (fun s => at_ l n s /\ child np m s)), steady_and; [apply steady_at|apply steady_child]|].
      intros s (Hr & Ha & Hc). split; [done|]. split; [by destruct Ha as (_ & -> & _)|done]. }
    intros f'. apply rt_pure. intros ->. eapply rt_bind; [apply child_set; [apply Hn; lia|done]|]. intros [].
    apply IH; [done|by rewrite length_insert|lia|]. intros j Hj. rewrite list_lookup_insert_ne by lia. apply Hn. lia.
  - apply Forall_cons in Hfs as [_ Hfs]. cbn [length] in Hi. apply IH; [done|done|lia|]. intros j Hj. apply Hn. lia.
Qed.

(** The descriptors of the running process, as the code reads them. *)
Lemma mine_refs l n R : rt (fun s => refs zero s /\ at_ l n s /\ R s) mine (fun x s =>
  (p_ofile x = l /\ length l = NOFILE /\ Forall (fun o => forall f, o = Some f -> (f < n)%nat) l) /\ refs zero s /\ at_ l n s /\ R s).
Proof.
  intros s (Hr & Ha & HR). pose proof Ha as (Hl & Hn & _). unfold own in Hl. split; [|done]. split; [done|].
  split; [rewrite <- Hl; apply (rf_len _ _ Hr)|]. apply Forall_lookup. intros i o Ho f ->. by eapply at_file.
Qed.

Lemma fork_refs l n : rt (fun s => refs zero s /\ at_ l n s) fork (fun _ => refs zero).
Proof.
  assert (forall np m A (c : K kstate A), calm c -> rt (fun s => refs zero s /\ at_ l n s /\ child np m s) c (fun _ s => refs zero s /\ at_ l n s /\ child np m s)) as Hc.
  { intros np m A c Hc. apply rt_child; [done|apply small_zero]. }
  unfold fork. eapply rt_bind; [apply rt_at; [apply calm_myproc|apply small_zero]|]. intros me.
  eapply rt_bind; [apply allocproc_refs|]. intros [np|]; [|by apply rt_ret; intros s [? _]]. unfold born.
  eapply rt_bind; [apply (mine_refs l n (child np _))|]. intros p. apply rt_pure. intros (Hl & Hlen & Hfs).
  eapply rt_bind; [apply Hc, calm_pget|]. intros x. eapply rt_bind; [apply Hc, calm_kmemop|]. intros r.
  case_match; [by apply freechild_refs|]. eapply rt_bind; [apply Hc; by apply calm_pmod|]. intros [].
  eapply rt_bind; [apply Hc, calm_kmemop|]. intros []. eapply rt_bind; [apply Hc, calm_tf_set|]. intros [].
  eapply rt_bind; [rewrite Hl; apply (dup_files_refs l n np l (replicate NOFILE None) 0); [done|by rewrite length_replicate|lia|]|].
  { intros j Hj. apply lookup_replicate_2. lia. }
  intros []. eapply rt_pre; [|intros s (Hr & Ha & _); exact (conj Hr Ha)]. apply calm_refs.
  pose proof @calm_liftF. calm_tac.
Qed.

(** ** Exiting *)

Lemma close_files_refs n : forall k fd l, (fd + k = NOFILE)%nat -> length l = NOFILE -> (forall j, (j < fd)%nat -> l !! j = Some None) ->
  rt (fun s => refs zero s /\ at_ l n s) (close_files k fd) (fun _ s => refs zero s /\ at_ (replicate NOFILE None) n s).
Proof.
  induction k as [|k IH]; intros fd l Hk Hl Hn; cbn [close_files].
  - apply rt_ret. intros s Hs. rewrite <- (no_files_replicate l); [done|done|]. intros i f Hi.
    pose proof (lookup_lt_Some _ _ _ Hi) as Hlt. rewrite Hn in Hi by lia. done.
  - eapply rt_bind; [eapply rt_pre; [apply (mine_refs l n (fun _ => True))|by intros s [? ?]]|]. intros x. apply rt_pure. intros (-> & _ & Hfs).
    destruct (lookup_lt_is_Some_2 l fd ltac:(lia)) as [[f|] Ef]; rewrite Ef.
    + assert (f < n)%nat as Hf by (by eapply (Forall_lookup_1 _ _ _ _ Hfs Ef)).
      eapply (rt_bind _ (fun _ s => refs zero s /\ at_ (<[fd := None]> l) n s)).
      * eapply rt_bind.
        { eapply rt_pre; [apply (fileclose_ok zero (at_ l n) (steady_at l n) f); apply small_minus; [apply small_zero|done]|].
          intros s (Hr & Ha & _). split; [done|]. split; [by destruct Ha as (_ & -> & _)|done]. }
        intros [] s Hs. pose proof (own_set_ok _ l n fd (Some f) None Ef ltac:(done) s Hs) as H. destruct (pmine _ s); try done.
        destruct H as [H1 H2]. split; [|done]. eapply refs_ext; [|exact H1]. intros g. cbv beta. rewrite entry_some. unfold minus, zero, entry.
        rewrite decide_False by done. lia.
      * intros []. apply IH; [lia|by rewrite length_insert|]. intros j Hj. destruct (decide (j = fd)) as [->|]; [apply list_lookup_insert_eq; lia|].
        rewrite list_lookup_insert_ne by lia. apply Hn. lia.
    + eapply rt_bind; [apply (rt_ret _ (fun _ s => refs zero s /\ at_ l n s)); by intros s (? & ? & _)|]. intros []. apply IH; [lia|done|].
      intros j Hj. destruct (decide (j = fd)) as [->|]; [done|]. apply Hn. lia.
Qed.

Lemma exit_refs l n status : length l = NOFILE -> rt (fun s => refs zero s /\ at_ l n s) (exit status) (fun _ => refs zero).
Proof.
  intros Hl. assert (forall l A (c : K kstate A), calm c -> rt (fun s => refs zero s /\ at_ l n s) c (fun _ s => refs zero s /\ at_ l n s)) as Hc.
  { intros l' A c Hc. apply rt_at; [done|apply small_zero]. }
  unfold exit. eapply rt_bind; [apply Hc, calm_myproc|]. intros me. eapply rt_bind; [apply Hc, calm_get|]. intros s0. case_decide; [done|].
  eapply rt_bind; [apply close_files_refs; [done|done|lia]|]. intros [].
  eapply rt_bind; [apply Hc, calm_begin_op|]. intros []. eapply rt_bind; [apply Hc, calm_mine|]. intros x.
  eapply rt_bind; [apply Hc, calm_liftW|]. intros []. eapply rt_bind; [apply Hc, calm_end_op|]. intros [].
  eapply rt_bind; [apply Hc; by apply calm_pmine|]. intros []. eapply rt_bind; [apply Hc, calm_reparent|]. intros [].
  eapply rt_bind; [apply Hc, calm_mine|]. intros y. eapply rt_bind; [apply Hc, calm_wakeup_proc|]. intros [].
  eapply (rt_bind _ (fun _ => refs zero)).
  - intros s (Hr & Ho & _). apply refs_idle; [done| |done]. intros fd f. unfold own in Ho. rewrite Ho. intros Hf. by apply lookup_replicate_1 in Hf as [? _].
  - intros [] s Hs. unfold sched. case_decide; [done|]. exists zero. split; [done|apply small_zero].
Qed.

(** ** Waiting *)

Lemma wait_scan_refs l n addr : forall k pp h, rt (fun s => refs zero s /\ at_ l n s) (wait_scan k pp addr h) (fun _ s => refs zero s /\ at_ l n s).
Proof.
  induction k as [|k IH]; intros pp h; cbn [wait_scan]; [by apply rt_ret|].
  eapply rt_bind; [apply rt_at; [apply calm_myproc|apply small_zero]|]. intros me.
  eapply (rt_bind _ (fun x s => (refs zero s /\ at_ l n s) /\ (p_state x = ZOMBIE -> blank pp s))).
  { intros s [Hr Ha]. split; [done|]. intros Hz. assert (idle (getp s pp)) as Hi by by right. split; [intros ->; by apply Ha in Hi|by apply (rf_idle _ _ Hr)]. }
  intros x. assert (forall h, rt (fun s => (refs zero s /\ at_ l n s) /\ (p_state x = ZOMBIE -> blank pp s)) (wait_scan k (S pp) addr h) (fun _ s => refs zero s /\ at_ l n s)) as Hnext.
  { intros h'. eapply rt_pre; [apply IH|by intros s [? _]]. }
  case_decide; [|apply Hnext]. case_decide as Hz; [|apply Hnext].
  eapply (rt_pre (fun s => refs zero s /\ at_ l n s /\ blank pp s)); [|intros s [[? ?] Hb]; by eauto].
  assert (forall A (c : K kstate A), calm c -> rt (fun s => refs zero s /\ at_ l n s /\ blank pp s) c (fun _ s => refs zero s /\ at_ l n s /\ blank pp s)) as Hc.
  { intros A c Hc. apply rt_calm; [done|apply steady_and; [apply steady_at|apply steady_blank]|apply small_zero]. }
  eapply rt_bind; [apply Hc, calm_mine|]. intros p. eapply rt_bind; [apply Hc; pose proof @calm_kmemop; calm_tac|]. intros r.
  case_match; [apply rt_ret; by intros s (? & ? & _)|]. eapply rt_bind; [apply freeproc_refs|]. intros []. by apply rt_ret.
Qed.

Lemma wait_refs l n addr : rt (fun s => refs zero s /\ at_ l n s) (wait addr) (fun _ => refs zero).
Proof.
  unfold wait. eapply rt_bind; [apply rt_at; [apply calm_myproc|apply small_zero]|]. intros me.
  eapply rt_bind; [apply wait_scan_refs|]. intros r. apply calm_refs. pose proof calm_killed. pose proof @calm_sleep. calm_tac.
Qed.

(** ** Every system call *)

Lemma call_refs l n num f : syscalls num = Some f -> length l = NOFILE -> rt (fun s => refs zero s /\ at_ l n s) f (fun _ => refs zero).
Proof.
  intros Hf Hl. destruct (decide (In num [1; 2; 3; 4; 10; 15; 21])) as [Hin|Hin]; [|by eapply calm_refs, syscall_calm].
  cbn [In] in Hin. destruct Hin as [E|[E|[E|[E|[E|[E|[E|[]]]]]]]]; rewrite <- E in Hf; simpl in Hf; injection Hf as <-.
  - apply fork_refs.
  - unfold sys_exit. eapply rt_bind; [apply rt_at; [apply calm_argint|apply small_zero]|]. intros v.
    eapply rt_bind; [by apply (exit_refs l n)|]. intros []. by apply rt_ret.
  - unfold sys_wait. eapply rt_bind; [apply rt_at; [apply calm_argaddr|apply small_zero]|]. intros a. apply wait_refs.
  - apply sys_pipe_ok.
  - apply sys_dup_ok.
  - apply sys_open_ok.
  - apply sys_close_ok.
Qed.

Lemma rt_calm_zero {A} (c : K kstate A) : calm c -> rt (refs zero) c (fun _ => refs zero).
Proof.
  intros Hc s Hs. specialize (Hc s). destruct (c s); try done; [by eapply same_refs_keep|]. exists zero.
  split; [by eapply same_refs_keep|apply small_zero].
Qed.

Lemma syscall_refs l n : length l = NOFILE -> rt (fun s => refs zero s /\ at_ l n s) syscall (fun _ => refs zero).
Proof.
  intros Hl. unfold syscall. eapply rt_bind; [apply rt_at; [apply calm_mine|apply small_zero]|]. intros p.
  eapply rt_bind; [apply rt_at; [apply calm_tf_get|apply small_zero]|]. intros num.
  destruct (syscalls (int32 num)) as [f|] eqn:Ef; [|apply calm_refs, calm_bind; [apply calm_kprint_str|intros; apply calm_tf_set]].
  eapply rt_bind; [by eapply call_refs|]. intros r. apply rt_calm_zero, calm_tf_set.
Qed.

Lemma refs_range s p fd f : refs zero s -> p_ofile (getp s p) !! fd = Some (Some f) -> 1 <= f_ref (getf s f) <= Z.of_nat (length (k_proc s) * NOFILE).
Proof.
  intros Hr Hf. rewrite (rf_count _ _ Hr f (rf_in _ _ Hr p fd f Hf)). unfold zero. rewrite Z.add_0_r. split; [by eapply refs_zero_pos|].
  rewrite Nat2Z.inj_mul, <- (length_map p_ofile (k_proc s)). apply (nref_bound f NOFILE (tables s)). apply Forall_lookup. intros q l Hq.
  pose proof (rf_len _ _ Hr q) as Hl. unfold tables, getp in *. rewrite list_lookup_fmap in Hq. destruct (k_proc s !! q); by simplify_eq/=.
Qed.

(** C6: Reference counts of open files are right across every system call: when
    the call returns, the count of each entry of the file table is the number of
    descriptors, over all processes, that designate it, and exited processes hold
    none.  So a file with a descriptor has a positive count, below the number
    of descriptors of the system, and an entry with count 0 has no descriptor.
    When the call sleeps, a count differs from that number by at most one
    reference in the hands of the sleeping code. *)
Theorem file_refcounts s : refs zero s -> live s ->
  match syscall s with
  | Ret _ s' => refs zero s' /\
      forall p fd f, p_ofile (getp s' p) !! fd = Some (Some f) -> 1 <= f_ref (getf s' f) <= Z.of_nat (length (k_proc s') * NOFILE)
  | Sleep s' => near s'
  | Panic _ | Diverge => True
  end.
Proof.
  intros Hr Hl. pose proof (syscall_refs (own s) (flen s) (rf_len _ _ Hr (k_me s)) s (conj Hr (conj eq_refl (conj eq_refl Hl)))) as H.
  destruct (syscall s) as [[] s'|m|s'|]; try done. split; [done|]. intros p fd f. by apply refs_range.
Qed.
End procs.

(** ** Instance *)

(** Process 1 with the console as descriptor 0, calling dup(0). *)
Definition kstate_dup : kstate :=
  with_mem (Kmem (st64 mem0 (frame0 + TF_a 7) 10) 0)
    (with_ftable (<[0%nat := set_fref 1 (File FD_DEVICE 0 true true 0 0 0 1)]> (k_ftable kstate0))
      (with_proc (<[0%nat := set_ofile (<[0%nat := Some 0%nat]> (p_ofile init0)) init0]> (k_proc kstate0)) kstate0)).

Lemma kstate_dup_refs : refs zero kstate_dup.
Proof.
  set (x := set_ofile (<[0%nat := Some 0%nat]> (p_ofile init0)) init0).
  assert (forall p, getp kstate_dup p = x \/ getp kstate_dup p = proc0) as Hg.
  { intros [|p]; [by left|right]. unfold getp. change (k_proc kstate_dup !! S p) with (replicate 63 proc0 !! p).
    destruct (replicate 63 proc0 !! p) eqn:E; [|done]. by apply lookup_replicate_1 in E as [-> _]. }
  split.
  - assert (forallb (fun f => f_ref (getf kstate_dup f) =? nref f (tables kstate_dup) + 0) (seq 0 NFILE) = true) as H by (vm_compute; reflexivity).
    rewrite forallb_forall in H. intros f Hf. apply Z.eqb_eq, H, in_seq. change (length (k_ftable kstate_dup)) with NFILE in Hf. lia.
  - intros p fd f. destruct (Hg p) as [-> | ->]; intros H.
    + destruct fd as [|fd]; [injection H as <-; apply Nat.lt_0_succ|]. change (replicate 15 (@None nat) !! fd = Some (Some f)) in H. by apply lookup_replicate_1 in H as [? _].
    + change (replicate 16 (@None nat) !! fd = Some (Some f)) in H. by apply lookup_replicate_1 in H as [? _].
  - intros p. destruct (Hg p) as [-> | ->]; [by intros [?|?]|]. intros _ fd f H. change (replicate 16 (@None nat) !! fd = Some (Some f)) in H. by apply lookup_replicate_1 in H as [? _].
  - intros p. by destruct (Hg p) as [-> | ->].
  - apply Nat.lt_0_succ.
Qed.

Lemma file_refcounts_witness : exists s', @syscall image0 kstate_dup = Ret tt s' /\ refs zero s' /\ f_ref (getf s' 0) = 2.
Proof.
  assert (is_ret (@syscall image0 kstate_dup) = true) as Hret by (vm_compute; reflexivity).
  destruct (@syscall image0 kstate_dup) as [[] s'|m|s'|] eqn:E; try discriminate Hret.
  pose proof (@file_refcounts image0 kstate_dup kstate_dup_refs) as H. rewrite E in H.
  exists s'. split; [reflexivity|]. split; [apply H; by intros [?|?]|].
  assert (f_ref (getf (match @syscall image0 kstate_dup with Ret _ s => s | _ => kstate0 end) 0) = 2) as H2 by (vm_compute; reflexivity).
  rewrite E in H2. exact H2.
Defined.
