(* ===== verification/Umalloc.v ===== *)
(** * The user-level memory allocator

    user/umalloc.c: the circular list of free blocks, with [free], [morecore]
    and [malloc].  Addresses are bytes; a header is 16 bytes, and pointers to
    headers move in steps of a header.  The memory is the map from addresses
    to headers, 0 where nothing has been stored.

    What malloc promises: the free blocks, in the order of their addresses, and
    the blocks handed out partition the memory obtained from the kernel;
    [malloc] and [free] preserve this, whatever the owners of the blocks store in
    them. *)

From Stdlib Require Import Sorted.
From S2P Require Import Prelude.

(** sizeof(Header) *)
Definition HDR : Z := 16.

(** The pointer and the size of a header. *)
Record header := Header { s_ptr : Z; s_size : Z }.

Record heap := Heap {
  h_hdr : gmap Z header;
  h_freep : Z;
  h_brk : Z;       (** where the next sbrk starts *)
  h_limit : Z      (** what the kernel grants *)
}.

Definition hget (h : heap) (a : Z) : header := default (Header 0 0) (h_hdr h !! a).
Definition set_hdr (a : Z) (x : header) : K heap unit :=
  kmod (fun h => Heap (<[a := x]> (h_hdr h)) (h_freep h) (h_brk h) (h_limit h)).
Definition put_ptr (a p : Z) : K heap unit := fun h => set_hdr a (Header p (s_size (hget h a))) h.
Definition put_size (a n : Z) : K heap unit := fun h => set_hdr a (Header (s_ptr (hget h a)) (uint32 n)) h.
Definition set_freep (p : Z) : K heap unit := kmod (fun h => Heap (h_hdr h) p (h_brk h) (h_limit h)).
Definition hdr (a : Z) : K heap header := fun h => Ret (hget h a) h.
Definition freep : K heap Z := fun h => Ret (h_freep h) h.

(** What the allocator relies on of the system call: it returns the old end of
    memory, or -1 if the memory would exceed a limit.  (The kernel's side of it
    is [growproc] in Proc.v.) *)
Definition sbrk (n : Z) : K heap Z := fun h =>
  if h_limit h <? h_brk h + n then Ret (-1) h
  else Ret (h_brk h) (Heap (h_hdr h) (h_freep h) (h_brk h + n) (h_limit h)).

(** [free]: the search for the place of block [bp] in the list. *)
Fixpoint free_find (fuel : nat) (bp p : Z) : K heap Z :=
  match fuel with
  | O => kdiverge
  | S fuel' =>
      x <- hdr p ;;
      if (p <? bp) && (bp <? s_ptr x) then kret p
      else if (s_ptr x <=? p) && ((p <? bp) || (bp <? s_ptr x)) then kret p
      else free_find fuel' bp (s_ptr x)
  end.

Definition free (ap : Z) : K heap unit :=
  let bp := ap - HDR in
  fp <- freep ;;
  h <- kget ;;
  p <- free_find (S (size (h_hdr h))) bp fp ;;
  x <- hdr p ;;
  b <- hdr bp ;;
  (if bp + s_size b * HDR =? s_ptr x then
     n <- hdr (s_ptr x) ;;
     put_size bp (s_size b + s_size n) ;;;
     put_ptr bp (s_ptr n)
   else put_ptr bp (s_ptr x)) ;;;
  x <- hdr p ;;
  b <- hdr bp ;;
  (if p + s_size x * HDR =? bp then
     put_size p (s_size x + s_size b) ;;;
     put_ptr p (s_ptr b)
   else put_ptr p bp) ;;;
  set_freep p.

Definition morecore (nu : Z) : K heap Z :=
  let nu := if nu <? 4096 then 4096 else nu in
  p <- sbrk (int32 (nu * HDR)) ;;
  if p =? -1 then kret 0
  else
    put_size p nu ;;;
    free (p + HDR) ;;;
    freep.

Fixpoint malloc_loop (fuel : nat) (nunits prevp p : Z) : K heap Z :=
  match fuel with
  | O => kdiverge
  | S fuel' =>
      x <- hdr p ;;
      if nunits <=? s_size x then
        p <- (if s_size x =? nunits then put_ptr prevp (s_ptr x) ;;; kret p
              else
                put_size p (s_size x - nunits) ;;;
                x <- hdr p ;;
                put_size (p + s_size x * HDR) nunits ;;;
                kret (p + s_size x * HDR)) ;;
        set_freep prevp ;;;
        kret (p + HDR)
      else
        fp <- freep ;;
        if p =? fp then
          p <- morecore nunits ;;
          if p =? 0 then kret 0
          else x <- hdr p ;; malloc_loop fuel' nunits p (s_ptr x)
        else malloc_loop fuel' nunits p (s_ptr x)
  end.

Section malloc.
(** The address of the static header [base]. *)
Variable base : Z.

Definition nunits (nbytes : Z) : Z := uint32 ((nbytes + HDR - 1) / HDR + 1).

Definition malloc (nbytes : Z) : K heap Z :=
  let nunits := nunits nbytes in
  fp <- freep ;;
  (if fp =? 0 then
     set_freep base ;;;
     set_hdr base (Header base 0)
   else kret tt) ;;;
  prevp <- freep ;;
  x <- hdr prevp ;;
  h <- kget ;;
  malloc_loop (S (S (2 * size (h_hdr h) + 4))) nunits prevp (s_ptr x).

End malloc.

(** ** The blocks *)

(** A block: the address of its header and its size in headers. *)
Local Abbreviation blk := (Z * Z)%type (only parsing).

(** The addresses of the headers a block consists of. *)
Definition cells (b : blk) : list Z := map (fun i => b.1 + HDR * Z.of_nat i) (seq 0 (Z.to_nat b.2)).

Lemma cells_split a n m : 0 <= n -> 0 <= m -> cells (a, n + m) = cells (a, n) ++ cells (a + HDR * n, m).
Proof.
  intros Hn Hm. unfold cells. cbn [fst snd]. rewrite Z2Nat.inj_add, seq_app, map_app by done. f_equal.
  rewrite Nat.add_0_l, <- (Nat.add_0_r (Z.to_nat n)) at 1. rewrite <- fmap_add_seq, map_map.
  apply map_ext. intros i. unfold HDR. lia.
Qed.

Lemma elem_of_cells c b : c ∈ cells b <-> exists i, 0 <= i < b.2 /\ c = b.1 + HDR * i.
Proof.
  unfold cells. rewrite list_elem_of_fmap. setoid_rewrite elem_of_seq. split.
  - intros (i & -> & Hi). exists (Z.of_nat i). split; [lia|done].
  - intros (i & Hi & ->). exists (Z.to_nat i). split; [by rewrite Z2Nat.id by lia|lia].
Qed.

Lemma cells_head a n : 0 < n -> a ∈ cells (a, n).
Proof. intros. apply elem_of_cells. exists 0. cbn [fst snd]. split; [lia|]. unfold HDR. lia. Qed.

(** ** The list of free blocks *)

Definition hd_addr (l : list blk) (e : Z) : Z := match l with [] => e | b :: _ => b.1 end.

(** The headers of the blocks [l] are linked, the last one to [e]. *)
Fixpoint path (m : gmap Z header) (l : list blk) (e : Z) : Prop :=
  match l with
  | [] => True
  | b :: l' => m !! b.1 = Some (Header (hd_addr l' e) b.2) /\ path m l' e
  end.

Lemma hd_addr_app l l' e : hd_addr (l ++ l') e = hd_addr l (hd_addr l' e).
Proof. by destruct l. Qed.

Lemma path_app m l l' e : path m (l ++ l') e <-> path m l (hd_addr l' e) /\ path m l' e.
Proof.
  induction l as [|b l IH]; [simpl; tauto|]. cbn [path app]. rewrite IH, hd_addr_app. tauto.
Qed.

Lemma path_ext m m' l e : (forall a, a ∈ l.*1 -> m' !! a = m !! a) -> path m l e -> path m' l e.
Proof.
  induction l as [|b l IH]; intros Hm; [done|]. cbn [path fmap list_fmap] in *. intros [H1 H2]. split.
  - rewrite Hm; [done|]. left.
  - apply IH; [|done]. intros a Ha. apply Hm. by right.
Qed.

Lemma path_insert m l e a x : a ∉ l.*1 -> path m l e -> path (<[a := x]> m) l e.
Proof. intros Ha. apply path_ext. intros c Hc. apply lookup_insert_ne. by intros ->. Qed.

(** The number of free blocks is bounded by the number of headers stored. *)
Lemma path_size m l e : NoDup l.*1 -> path m l e -> (length l <= size m)%nat.
Proof.
  intros Hnd Hp. rewrite <- (length_fmap fst). rewrite <- size_dom.
  rewrite <- (size_list_to_set (C := gset Z)) by done. apply subseteq_size. intros a Ha.
  apply elem_of_list_to_set, list_elem_of_fmap in Ha as (b & -> & Hb). apply elem_of_dom.
  apply list_elem_of_split in Hb as (l1 & l2 & ->). apply path_app in Hp as [_ [Hb _]]. by rewrite Hb.
Qed.

(** ** The search in free *)

(** The search does not stop at a header [a] that points to [n]. *)
Definition nonstop (bp a n : Z) : Prop := ~ (a < bp < n) /\ ~ (n <= a /\ (a < bp \/ bp < n)).

Fixpoint nostops (bp : Z) (l : list blk) (e : Z) : Prop :=
  match l with
  | [] => True
  | b :: l' => nonstop bp b.1 (hd_addr l' e) /\ nostops bp l' e
  end.

Lemma hget_path h l e b l' : path (h_hdr h) (b :: l) e -> l' = l -> hget h b.1 = Header (hd_addr l e) b.2.
Proof. intros [Hb _] _. unfold hget. by rewrite Hb. Qed.

Lemma find_walk h bp l e fuel : path (h_hdr h) l e -> nostops bp l e ->
  free_find (length l + fuel) bp (hd_addr l e) h = free_find fuel bp e h.
Proof.
  induction l as [|b l IH]; intros Hp Hn; [done|]. destruct Hn as [[N1 N2] Hn].
  pose proof (hget_path _ _ _ _ l Hp eq_refl) as Hb. destruct Hp as [_ Hp].
  cbn [length hd_addr Nat.add free_find]. unfold kbind at 1, hdr at 1. rewrite Hb. cbn [s_ptr].
  replace ((b.1 <? bp) && (bp <? hd_addr l e)) with false by lia.
  replace ((hd_addr l e <=? b.1) && ((b.1 <? bp) || (bp <? hd_addr l e))) with false by lia.
  by apply IH.
Qed.

Lemma sorted_app_l (l1 l2 : list Z) : StronglySorted Z.lt (l1 ++ l2) -> StronglySorted Z.lt l1.
Proof.
  induction l1 as [|a l1 IH]; intros H; [constructor|]. inversion_clear H as [|? ? H1 H2]. constructor; [by apply IH|].
  by apply Forall_app in H2 as [H2 _].
Qed.

Lemma sorted_app_r (l1 l2 : list Z) : StronglySorted Z.lt (l1 ++ l2) -> StronglySorted Z.lt l2.
Proof. induction l1 as [|a l1 IH]; intros H; [done|]. inversion_clear H. by apply IH. Qed.

Lemma sorted_app_lt (l1 l2 : list Z) a b : StronglySorted Z.lt (l1 ++ l2) -> a ∈ l1 -> b ∈ l2 -> a < b.
Proof.
  induction l1 as [|c l1 IH]; intros H Ha Hb; [by apply elem_of_nil in Ha|]. inversion_clear H as [|? ? H1 H2].
  apply elem_of_cons in Ha as [->|Ha]; [|by apply IH]. rewrite Forall_forall in H2. apply H2, elem_of_app. by right.
Qed.

Lemma sorted_app (l1 l2 : list Z) : StronglySorted Z.lt l1 -> StronglySorted Z.lt l2 ->
  (forall a b, a ∈ l1 -> b ∈ l2 -> a < b) -> StronglySorted Z.lt (l1 ++ l2).
Proof.
  intros H1 H2. induction H1 as [|a l1 H1 IH Ha]; intros Hlt; [done|]. cbn. constructor.
  - apply IH. intros c b Hc Hb. apply Hlt; [by right|done].
  - apply Forall_app. split; [done|]. apply Forall_forall. intros b Hb. apply Hlt; [left|done].
Qed.

Lemma sorted_nodup (l : list Z) : StronglySorted Z.lt l -> NoDup l.
Proof.
  induction 1 as [|a l H IH Ha]; constructor; [|done]. intros Hin. rewrite Forall_forall in Ha. specialize (Ha a Hin). lia.
Qed.

(** Blocks below [bp] are passed. *)
Lemma nostops_low bp l e : StronglySorted Z.lt (l.*1 ++ [e]) -> e < bp -> nostops bp l e.
Proof.
  induction l as [|b l IH]; intros H He; [done|]. cbn [fmap list_fmap app] in H. inversion_clear H as [|? ? H1 H2].
  split; [|by apply IH]. assert (hd_addr l e <= e) as Hle.
  { destruct l as [|c l]; cbn [hd_addr]; [lia|]. cbn [fmap list_fmap app] in H1. inversion_clear H1 as [|? ? _ H3].
    rewrite Forall_forall in H3. specialize (H3 e). assert (c.1 < e); [|lia]. apply H3, elem_of_app. right. left. }
  assert (b.1 < hd_addr l e) as Hlt.
  { rewrite Forall_forall in H2. apply H2. destruct l as [|c l]; cbn; left. }
  unfold nonstop. lia.
Qed.

(** Blocks above [bp] are passed, to the end of the list. *)
Lemma nostops_high bp l e : StronglySorted Z.lt l.*1 -> (forall a, a ∈ l.*1 -> bp < a) -> e < bp -> nostops bp l e.
Proof.
  induction l as [|b l IH]; intros H Hl He; [done|]. cbn [fmap list_fmap] in *. inversion_clear H as [|? ? H1 H2].
  split; [|apply IH; [done| |done]; intros a Ha; apply Hl; by right].
  pose proof (Hl b.1 ltac:(left)) as Hb. unfold nonstop. destruct l as [|c l]; cbn [hd_addr]; [lia|].
  rewrite Forall_forall in H2. specialize (H2 c.1 ltac:(left)). lia.
Qed.

Lemma find_stop h bp b l e fuel : path (h_hdr h) (b :: l) e -> b.1 < bp -> bp < hd_addr l e \/ hd_addr l e <= b.1 ->
  free_find (S fuel) bp b.1 h = Ret b.1 h.
Proof.
  intros Hp H1 H2. pose proof (hget_path _ _ _ _ l Hp eq_refl) as Hb. cbn [free_find]. unfold kbind at 1, hdr at 1. rewrite Hb.
  cbn [s_ptr]. destruct ((b.1 <? bp) && (bp <? hd_addr l e)) eqn:E; [done|].
  by replace ((hd_addr l e <=? b.1) && ((b.1 <? bp) || (bp <? hd_addr l e))) with true by lia.
Qed.

(** The search finds the last block below [bp], from wherever it starts. *)
Lemma free_find_ok h bp l1 b l2 q fuel :
  let l := l1 ++ b :: l2 in
  path (h_hdr h) l (hd_addr l 0) -> StronglySorted Z.lt l.*1 -> q ∈ l.*1 -> b.1 < bp ->
  (forall a, a ∈ l2.*1 -> bp < a) -> (length l < fuel)%nat ->
  free_find fuel bp q h = Ret b.1 h.
Proof.
  intros l Hp Hs Hq Hb Hl2 Hf. set (base := hd_addr l 0) in *.
  unfold l in Hs. rewrite fmap_app, fmap_cons in Hs.
  assert (base <= b.1) as Hbase.
  { unfold base, l. destruct l1 as [|c l1]; cbn [hd_addr app]; [lia|]. cbn [fmap list_fmap app] in Hs.
    assert (c.1 < b.1); [|lia]. apply (sorted_app_lt (c.1 :: l1.*1) (b.1 :: l2.*1)); [done|left|left]. }
  unfold l in Hp. apply path_app in Hp as [Hp1 Hp2]. cbn [hd_addr] in Hp1.
  assert (forall f, free_find (S f) bp b.1 h = Ret b.1 h) as Hstop.
  { intros f. eapply find_stop; [exact Hp2|done|]. destruct l2 as [|c l2]; [right; cbn; lia|left]. apply Hl2. left. }
  assert (forall u w f, l1 = u ++ w -> (length w < f)%nat -> free_find f bp (hd_addr w b.1) h = Ret b.1 h) as Hlow.
  { intros u w f -> Hlf. replace f with (length w + S (f - length w - 1))%nat by lia.
    apply path_app in Hp1 as [_ Hp1]. rewrite find_walk; [apply Hstop|done|]. apply nostops_low; [|done].
    rewrite fmap_app in Hs. apply (sorted_app_l _ l2.*1), (sorted_app_r u.*1). by rewrite <- !app_assoc in *. }
  unfold l in Hf. rewrite length_app in Hf. cbn [length] in Hf.
  unfold l in Hq. rewrite fmap_app, fmap_cons in Hq. apply elem_of_app in Hq as [Hq|Hq].
  - apply list_elem_of_fmap in Hq as (c & -> & Hc). apply list_elem_of_split in Hc as (u & w & ->).
    rewrite length_app in Hf. cbn [length] in Hf. apply (Hlow u (c :: w)); [done|]. cbn [length]. lia.
  - apply elem_of_cons in Hq as [->|Hq]; [destruct fuel; [lia|]; apply Hstop|].
    apply list_elem_of_fmap in Hq as (c & -> & Hc). apply list_elem_of_split in Hc as (u & w & ->).
    destruct Hp2 as [_ Hp2]. apply path_app in Hp2 as [_ Hp2]. rewrite length_app in Hf. cbn [length] in Hf.
    replace fuel with (length (c :: w) + (fuel - S (length w)))%nat by (cbn [length]; lia).
    change c.1 with (hd_addr (c :: w) base). rewrite find_walk; [|done|].
    + assert (base = hd_addr l1 b.1) as -> by (unfold base, l; by rewrite hd_addr_app). apply (Hlow []); [done|lia].
    + rewrite fmap_app, fmap_cons in Hs. apply nostops_high; [| |lia].
      * apply (sorted_app_r (l1.*1 ++ b.1 :: u.*1)). by rewrite <- app_assoc.
      * intros a Ha. apply Hl2. rewrite fmap_app. apply elem_of_app. by right.
Qed.

(** ** The invariant *)

Section spec.
(** The static header, and where the memory from the kernel begins. *)
Variables base start : Z.
Hypothesis Hbase : 0 < base.
Hypothesis Hstart : base + HDR <= start.

(** [l] lists the free blocks, beginning with [base], and [A] the blocks handed
    out; together they are the [U] headers the kernel has granted. *)
Record hinv (h : heap) (U : Z) (l A : list blk) : Prop := {
  hi_head : head l = Some (base, 0);
  hi_path : path (h_hdr h) l base;
  hi_freep : h_freep h ∈ l.*1;
  hi_sorted : StronglySorted Z.lt l.*1;
  hi_free : forall b, b ∈ l -> b.1 = base \/ 0 < b.2;
  hi_used : forall b, b ∈ A -> 0 < b.2 /\ s_size (hget h b.1) = b.2;
  hi_part : (l ++ A) ≫= cells ≡ₚ cells (start, U);
  hi_units : 0 <= U;
  hi_brk : h_brk h = start + HDR * U;
  hi_limit : h_brk h <= h_limit h <= 2 ^ 35
}.

Lemma NoDup_cells b : NoDup (cells b).
Proof. unfold cells. apply NoDup_fmap_2; [|apply NoDup_seq]. intros i j. unfold HDR. lia. Qed.

Lemma part_nodup h U l A : hinv h U l A -> NoDup ((l ++ A) ≫= cells).
Proof. intros I. rewrite (hi_part _ _ _ _ I). apply NoDup_cells. Qed.

Lemma hinv_perm h U l A A' : A ≡ₚ A' -> hinv h U l A -> hinv h U l A'.
Proof.
  intros HA [I1 I2 I3 I4 I5 I6 I7 I8 I9 I10]. split; try done.
  - intros b Hb. apply I6. by rewrite HA.
  - by rewrite <- HA.
Qed.

(** A block lies inside the memory. *)
Lemma block_bounds U bs b : bs ≫= cells ≡ₚ cells (start, U) -> b ∈ bs -> 0 < b.2 ->
  start <= b.1 /\ b.1 + HDR * b.2 <= start + HDR * U /\ (b.1 - start) mod HDR = 0.
Proof.
  intros Hp Hb Hpos.
  assert (forall c, c ∈ cells b -> exists i, 0 <= i < U /\ c = start + HDR * i) as Hin.
  { intros c Hc. apply (elem_of_cells c (start, U)). rewrite <- Hp. apply list_elem_of_bind. eauto. }
  destruct (Hin b.1) as (i & Hi & Ei); [destruct b; by apply cells_head|].
  destruct (Hin (b.1 + HDR * (b.2 - 1))) as (j & Hj & Ej); [apply elem_of_cells; exists (b.2 - 1); split; [lia|done]|].
  unfold HDR in *. split; [lia|]. split; [lia|]. replace (b.1 - start) with (i * 16) by lia. apply Z.mod_mul. lia.
Qed.

(** Two blocks have no header in common. *)
Lemma blocks_apart (b1 b2 : blk) bs : NoDup ((b1 :: b2 :: bs) ≫= cells) -> 0 < b1.2 -> 0 < b2.2 ->
  (b1.1 - start) mod HDR = 0 -> (b2.1 - start) mod HDR = 0 -> b1.1 + HDR * b1.2 <= b2.1 \/ b2.1 + HDR * b2.2 <= b1.1.
Proof.
  intros Hnd H1 H2 M1 M2. cbn [mbind list_bind] in Hnd. apply NoDup_app in Hnd as (_ & Hd & _).
  assert (forall c, c ∈ cells b1 -> c ∉ cells b2) as Hdis.
  { intros c Hc Hc'. apply (Hd c Hc). apply elem_of_app. by left. }
  clear Hd. destruct (decide (b1.1 <= b2.1)).
  - left. destruct (decide (b1.1 + HDR * b1.2 <= b2.1)); [done|]. exfalso. apply (Hdis b2.1); [|destruct b2; by apply cells_head].
    apply elem_of_cells. exists ((b2.1 - b1.1) / HDR). unfold HDR in *. split; Z.div_mod_to_equations; lia.
  - right. destruct (decide (b2.1 + HDR * b2.2 <= b1.1)); [done|]. exfalso. apply (Hdis b1.1); [destruct b1; by apply cells_head|].
    apply elem_of_cells. exists ((b1.1 - b2.1) / HDR). unfold HDR in *. split; Z.div_mod_to_equations; lia.
Qed.

(** The list around a new block. *)
Lemma split_below (l : list blk) bp : StronglySorted Z.lt l.*1 -> bp ∉ l.*1 -> (exists b, head l = Some b /\ b.1 < bp) ->
  exists l1 b l2, l = l1 ++ b :: l2 /\ b.1 < bp /\ forall a, a ∈ l2.*1 -> bp < a.
Proof.
  induction l as [|b l IH]; intros Hs Hn (c & Hc & Hlt); [done|]. injection Hc as ->.
  cbn [fmap list_fmap] in *. inversion_clear Hs as [|? ? H1 H2]. apply not_elem_of_cons in Hn as [Hn1 Hn2].
  destruct l as [|d l]; [exists [], c, []; split; [done|]; split; [done|]; intros a Ha; by apply elem_of_nil in Ha|].
  destruct (decide (d.1 < bp)) as [Hd|Hd].
  - destruct (IH H1 Hn2) as (l1 & b & l2 & E & Hb & Hl2); [by exists d|]. rewrite E. by exists (c :: l1), b, l2.
  - exists [], c, (d :: l). split; [done|]. split; [done|]. intros a Ha. cbn [fmap list_fmap] in *.
    apply not_elem_of_cons in Hn2 as [Hn3 _]. inversion_clear H1 as [|? ? _ H3]. rewrite Forall_forall in H3.
    apply elem_of_cons in Ha as [->|Ha]; [lia|]. specialize (H3 a Ha). lia.
Qed.

Lemma units_small h U l A : hinv h U l A -> 0 <= U < 2 ^ 31.
Proof. intros I. pose proof (hi_units _ _ _ _ I). pose proof (hi_brk _ _ _ _ I). pose proof (hi_limit _ _ _ _ I). unfold HDR in *. lia. Qed.

(** A free block and a block handed out. *)
Lemma free_used h U l A a b : hinv h U l A -> b ∈ l -> a ∈ A ->
  start <= a.1 /\ a.1 + HDR * a.2 <= start + HDR * U /\ (b.1 = base \/
  start <= b.1 /\ b.1 + HDR * b.2 <= start + HDR * U /\ (a.1 + HDR * a.2 <= b.1 \/ b.1 + HDR * b.2 <= a.1)).
Proof.
  intros I Hb Ha. destruct (hi_used _ _ _ _ I a Ha) as [Hpa _].
  destruct (block_bounds U (l ++ A) a (hi_part _ _ _ _ I)) as (A1 & A2 & A3); [apply elem_of_app; by right|done|].
  split; [done|]. split; [done|]. destruct (hi_free _ _ _ _ I b Hb) as [|Hpb]; [by left|right].
  destruct (block_bounds U (l ++ A) b (hi_part _ _ _ _ I)) as (B1 & B2 & B3); [apply elem_of_app; by left|done|].
  split; [done|]. split; [done|]. pose proof (part_nodup _ _ _ _ I) as Hnd.
  apply elem_of_Permutation in Ha as [A' HA]. apply elem_of_Permutation in Hb as [l' Hl]. rewrite HA, Hl in Hnd.
  assert ((b :: l') ++ a :: A' ≡ₚ a :: b :: l' ++ A') as E by (rewrite <- Permutation_middle; done).
  rewrite E in Hnd. by apply (blocks_apart a b (l' ++ A')).
Qed.

(** Two blocks handed out. *)
Lemma used_used h U l A1 a b A2 : hinv h U l (a :: A1 ++ b :: A2) -> a.1 + HDR * a.2 <= b.1 \/ b.1 + HDR * b.2 <= a.1.
Proof.
  intros I. set (A := a :: A1 ++ b :: A2) in *. pose proof (part_nodup _ _ _ _ I) as Hnd.
  assert (a ∈ A /\ b ∈ A) as [Ha Hb] by (unfold A; split; [left|right; apply elem_of_app; right; left]).
  destruct (hi_used _ _ _ _ I a Ha) as [Hpa _]. destruct (hi_used _ _ _ _ I b Hb) as [Hpb _].
  destruct (block_bounds U (l ++ A) a (hi_part _ _ _ _ I)) as (_ & _ & M1); [apply elem_of_app; by right|done|].
  destruct (block_bounds U (l ++ A) b (hi_part _ _ _ _ I)) as (_ & _ & M2); [apply elem_of_app; by right|done|].
  apply (blocks_apart a b (l ++ A1 ++ A2)); try done.
  assert (l ++ A ≡ₚ a :: b :: l ++ A1 ++ A2) as E by (unfold A; rewrite <- !Permutation_middle; done).
  by rewrite E in Hnd.
Qed.

(** The list after block [bp] has been linked in behind block [p]. *)
Lemma relink h h2 U l1 p sp l2 bp s A seg w pre :
  hinv h U (l1 ++ (p, sp) :: l2) ((bp, s) :: A) -> l2 = pre ++ w -> p < bp -> (forall a, a ∈ l2.*1 -> bp < a) ->
  (forall a, a <> p -> a <> bp -> h_hdr h2 !! a = h_hdr h !! a) -> path (h_hdr h2) seg (hd_addr w base) ->
  seg.*1 = [p] \/ seg.*1 = [p; bp] -> head (l1 ++ seg) = Some (base, 0) -> (forall b, b ∈ seg -> b.1 = base \/ 0 < b.2) ->
  (seg ++ w) ≫= cells ≡ₚ ((p, sp) :: (bp, s) :: l2) ≫= cells ->
  h_freep h2 = p -> h_brk h2 = h_brk h -> h_limit h2 = h_limit h ->
  hinv h2 U (l1 ++ seg ++ w) A.
Proof.
  intros I Hw Hp Hl2 Hm Hseg Hs Hh Hpos Hc Hf Hbrk Hlim. pose proof I as [I1 I2 I3 I4 I5 I6 I7 I8 I9 I10].
  rewrite fmap_app, fmap_cons in I4. cbn [fst] in I4.
  assert (forall a, a ∈ l1.*1 -> a < p) as Hl1 by (intros a Ha; apply (sorted_app_lt l1.*1 (p :: l2.*1)); [done|done|left]).
  assert (forall a, a ∈ w.*1 -> bp < a) as Hw' by (intros a Ha; apply Hl2; rewrite Hw, fmap_app; apply elem_of_app; by right).
  assert (seg <> []) as Hne by (intros ->; by destruct Hs).
  assert (hd_addr seg 0 = p) as Hhd by (destruct seg as [|c seg]; [done|]; destruct Hs as [[=]|[=]]; done).
  split; try done.
  - rewrite app_assoc. by destruct (l1 ++ seg).
  - rewrite Hw in I2. apply path_app in I2 as [P1 P2]. cbn [hd_addr] in P1. destruct P2 as [_ P2]. apply path_app in P2 as [_ P2].
    apply path_app. split; [|apply path_app; split; [done|]].
    + rewrite hd_addr_app. assert (hd_addr seg (hd_addr w base) = p) as -> by (by destruct seg).
      eapply path_ext; [|exact P1]. intros a Ha. specialize (Hl1 a Ha). apply Hm; lia.
    + eapply path_ext; [|exact P2]. intros a Ha. specialize (Hw' a Ha). apply Hm; lia.
  - rewrite Hf, !fmap_app. apply elem_of_app. right. apply elem_of_app. left. destruct Hs as [-> | ->]; left.
  - rewrite !fmap_app. apply sorted_app; [by apply sorted_app_l in I4| |].
    + apply sorted_app.
      * destruct Hs as [-> | ->]; repeat constructor. done.
      * rewrite Hw, fmap_app in I4. apply (sorted_app_r (l1.*1 ++ p :: pre.*1)). by rewrite <- app_assoc.
      * intros a b Ha Hb. specialize (Hw' b Hb). destruct Hs as [E|E]; rewrite E in Ha; rewrite ?elem_of_cons, elem_of_nil in Ha; lia.
    + intros a b Ha Hb. specialize (Hl1 a Ha). apply elem_of_app in Hb as [Hb|Hb]; [|specialize (Hw' b Hb); lia].
      destruct Hs as [E|E]; rewrite E in Hb; rewrite ?elem_of_cons, elem_of_nil in Hb; lia.
  - intros b Hb. rewrite !elem_of_app in Hb. destruct Hb as [Hb|[Hb|Hb]]; [|by apply Hpos|].
    + apply I5, elem_of_app. by left.
    + apply I5. rewrite Hw, elem_of_app, elem_of_cons, elem_of_app. tauto.
  - intros b Hb. destruct (I6 b ltac:(by right)) as [Hb1 Hb2]. split; [done|]. unfold hget. rewrite Hm; [done| |].
    + destruct (free_used _ _ _ _ b (p, sp) I) as (F1 & _ & F2); [apply elem_of_app; right; left|by right|]. cbn [fst snd] in F2.
      unfold HDR in *. intros E0. destruct F2 as [|(F2 & F3 & F4)]; [lia|].
      destruct (I5 (p, sp)) as [E|E]; [apply elem_of_app; right; left|cbn in E; lia|cbn in E; lia].
    + apply list_elem_of_split in Hb as (A1 & A2 & ->). pose proof (used_used _ _ _ A1 (bp, s) b A2 I) as Hu.
      destruct (I6 (bp, s) ltac:(left)) as [Hs' _]. cbn [fst snd] in *. unfold HDR in *. lia.
  - rewrite <- I7, (bind_app cells (l1 ++ seg ++ w)), (bind_app cells l1 (seg ++ w)), Hc, !bind_app. cbn [mbind list_bind app].
    solve_Permutation.
  - lia.
  - lia.
Qed.

(** ** free *)

Definition with_hdr (h : heap) (m : gmap Z header) : heap := Heap m (h_freep h) (h_brk h) (h_limit h).

Lemma set_both a n p h : 0 <= n < 2 ^ 32 ->
  (put_size a n ;;; put_ptr a p) h = Ret tt (with_hdr h (<[a := Header p n]> (h_hdr h))).
Proof.
  intros Hn. unfold kbind, put_size, put_ptr, set_hdr, kmod, with_hdr, hget. cbn [h_hdr h_freep h_brk h_limit].
  rewrite lookup_insert_eq. cbn [default s_size s_ptr]. rewrite insert_insert_eq. by rewrite uint32_small.
Qed.

Lemma put_ptr_eq a p h s : s_size (hget h a) = s ->
  put_ptr a p h = Ret tt (with_hdr h (<[a := Header p s]> (h_hdr h))).
Proof. by intros <-. Qed.

(** The block is merged with the next free block, if that follows at once. *)
Lemma free_right h U l1 p sp l2 bp s A :
  hinv h U (l1 ++ (p, sp) :: l2) ((bp, s) :: A) -> p < bp -> (forall a, a ∈ l2.*1 -> bp < a) ->
  exists sb w pre,
    (if bp + s_size (hget h bp) * HDR =? hd_addr l2 base then
       n <- hdr (hd_addr l2 base) ;; put_size bp (s_size (hget h bp) + s_size n) ;;; put_ptr bp (s_ptr n)
     else put_ptr bp (hd_addr l2 base)) h = Ret tt (with_hdr h (<[bp := Header (hd_addr w base) sb]> (h_hdr h))) /\
    l2 = pre ++ w /\ s <= sb /\ cells (bp, sb) ++ (w ≫= cells) = cells (bp, s) ++ (l2 ≫= cells) /\ sb < 2 ^ 31.
Proof.
  intros I Hp Hl2. pose proof (units_small _ _ _ _ I) as HU. pose proof I as [I1 I2 I3 I4 I5 I6 I7 I8 I9 I10].
  destruct (I6 (bp, s) ltac:(left)) as [Hs Hsz]. cbn [fst snd] in Hs, Hsz. rewrite Hsz.
  destruct (block_bounds U _ (bp, s) I7) as (B1 & B2 & B3); [apply elem_of_app; right; left|done|]. cbn [fst snd] in B1, B2, B3.
  assert (s < 2 ^ 31) as Hs31 by (unfold HDR in *; lia).
  destruct (Z.eqb_spec (bp + s * HDR) (hd_addr l2 base)) as [E|E].
  2:{ exists s, l2, []. split; [by apply put_ptr_eq|]. done. }
  destruct l2 as [|[n sn] l2]; [exfalso; cbn [hd_addr] in E; unfold HDR in *; lia|]. cbn [hd_addr fst] in *.
  apply path_app in I2 as [_ P2]. destruct P2 as [_ P2]. pose proof (hget_path _ _ _ _ l2 P2 eq_refl) as Hn. cbn [fst snd] in Hn.
  destruct (free_used _ _ _ _ (bp, s) (n, sn) I) as (_ & _ & F); [apply elem_of_app; right; right; left|left|]. cbn [fst snd] in F.
  assert (bp < n) as Hbn by (apply Hl2; left).
  destruct F as [F|(F1 & F2 & F3)]; [unfold HDR in *; lia|].
  assert (0 < sn) as Hsn.
  { destruct (I5 (n, sn)) as [Hx|Hx]; [apply elem_of_app; right; right; left|cbn [fst] in Hx; unfold HDR in *; lia|done]. }
  exists (s + sn), l2, [(n, sn)]. split; [|split; [done|split; [lia|split]]].
  - rewrite (kbind_ret (hdr n) _ h (Header (hd_addr l2 base) sn) h); [|unfold hdr; by rewrite Hn]. cbn [s_size s_ptr].
    apply set_both. unfold HDR in *. lia.
  - rewrite cells_split by lia. cbn [mbind list_bind]. rewrite <- app_assoc.
    by replace (bp + HDR * s) with n by (unfold HDR in *; lia).
  - unfold HDR in *. lia.
Qed.

(** It is merged with the free block before it, if that ends where it begins. *)
Lemma free_left h U l1 p sp l2 bp s A sb w pre :
  let h1 := with_hdr h (<[bp := Header (hd_addr w base) sb]> (h_hdr h)) in
  hinv h U (l1 ++ (p, sp) :: l2) ((bp, s) :: A) -> p < bp -> (forall a, a ∈ l2.*1 -> bp < a) ->
  l2 = pre ++ w -> s <= sb -> cells (bp, sb) ++ (w ≫= cells) = cells (bp, s) ++ (l2 ≫= cells) -> sb < 2 ^ 31 ->
  hget h1 p = Header (hd_addr l2 base) sp ->
  exists h' l',
    ((if p + sp * HDR =? bp then put_size p (sp + sb) ;;; put_ptr p (hd_addr w base) else put_ptr p bp) ;;; set_freep p) h1 = Ret tt h' /\
    hinv h' U l' A /\ (exists b, b ∈ l' /\ s <= b.2) /\
    (length l' <= S (length (l1 ++ (p, sp) :: l2)))%nat /\ h_brk h' = h_brk h /\ h_limit h' = h_limit h.
Proof.
  intros h1 I Hp Hl2 Hw Hsb Hc Hsb31 Hx1. subst h1. pose proof (units_small _ _ _ _ I) as HU.
  pose proof I as [I1 I2 I3 I4 I5 I6 I7 I8 I9 I10]. destruct (I6 (bp, s) ltac:(left)) as [Hs _]. cbn [snd] in Hs.
  destruct (free_used _ _ _ _ (bp, s) (p, sp) I) as (B1 & B2 & F); [apply elem_of_app; right; left|left|]. cbn [fst snd] in F, B1, B2.
  assert (length (pre ++ w) = length l2) as Hlw by (by rewrite Hw). rewrite length_app in Hlw.
  destruct (Z.eqb_spec (p + sp * HDR) bp) as [E|E].
  - assert (p <> base) as Hpb.
    { intros ->. destruct l1 as [|c l1]; [injection I1 as E1; subst sp; unfold HDR in *; lia|]. injection I1 as E1. subst c. cbn [fmap list_fmap app] in I4.
      inversion_clear I4 as [|? ? _ H2]. rewrite Forall_forall in H2. specialize (H2 base). rewrite fmap_app in H2. cbn [fst] in H2.
      assert (base < base); [|lia]. apply H2, elem_of_app. right. left. }
    destruct F as [|(F1 & F2 & F3)]; [done|].
    assert (0 < sp) as Hsp by (destruct (I5 (p, sp)) as [Hx|]; [apply elem_of_app; right; left|by cbn in Hx|done]).
    assert (sp < 2 ^ 31) by (unfold HDR in *; lia).
    rewrite (kbind_ret _ _ _ _ _ (set_both p (sp + sb) (hd_addr w base) _ ltac:(lia))).
    eexists _, (l1 ++ [(p, sp + sb)] ++ w). split; [reflexivity|]. split; [|split; [|split; [|done]]].
    + eapply (relink h); try done.
      * intros a Ha1 Ha2. cbn [h_hdr with_hdr]. by rewrite !lookup_insert_ne by done.
      * split; [|done]. cbn [h_hdr with_hdr fst snd hd_addr]. by rewrite lookup_insert_eq.
      * by left.
      * destruct l1; [injection I1 as -> ->; done|done].
      * intros b Hb. apply list_elem_of_singleton in Hb as ->. right. cbn. lia.
      * cbn [mbind list_bind app]. rewrite cells_split by lia. rewrite <- app_assoc.
        replace (p + HDR * sp) with bp by (unfold HDR in *; lia). by rewrite Hc.
    + exists (p, sp + sb). split; [apply elem_of_app; right; left|cbn; lia].
    + rewrite !length_app. cbn [length]. lia.
  - rewrite (kbind_ret _ _ _ _ _ (put_ptr_eq p bp _ sp ltac:(by rewrite Hx1))).
    eexists _, (l1 ++ [(p, sp); (bp, sb)] ++ w). split; [reflexivity|]. split; [|split; [|split; [|done]]].
    + eapply (relink h); try done.
      * intros a Ha1 Ha2. cbn [h_hdr with_hdr]. by rewrite !lookup_insert_ne by done.
      * split; [cbn [h_hdr with_hdr fst snd hd_addr]; by rewrite lookup_insert_eq|]. split; [|done].
        cbn [h_hdr with_hdr fst snd hd_addr]. rewrite lookup_insert_ne by lia. by rewrite lookup_insert_eq.
      * by right.
      * by destruct l1.
      * intros b Hb. rewrite !elem_of_cons, elem_of_nil in Hb. destruct Hb as [->|[->|[]]]; [apply I5, elem_of_app; right; left|].
        right. cbn. lia.
      * cbn [mbind list_bind app]. by rewrite Hc.
    + exists (bp, sb). split; [apply elem_of_app; right; right; left|cbn; lia].
    + rewrite !length_app. cbn [length]. lia.
Qed.

Lemma free_ok h U l A bp s : hinv h U l ((bp, s) :: A) ->
  exists h' l', free (bp + HDR) h = Ret tt h' /\ hinv h' U l' A /\ (exists b, b ∈ l' /\ s <= b.2) /\
    (length l' <= S (length l))%nat /\ h_brk h' = h_brk h /\ h_limit h' = h_limit h.
Proof.
  intros I. pose proof (units_small _ _ _ _ I) as HU.
  destruct (hi_used _ _ _ _ I (bp, s) ltac:(left)) as [Hs Hsz]. cbn [fst snd] in Hs, Hsz.
  destruct (block_bounds U _ (bp, s) (hi_part _ _ _ _ I)) as (B1 & B2 & B3); [apply elem_of_app; right; left|done|]. cbn [fst snd] in B1, B2, B3.
  assert (bp ∉ l.*1) as Hn.
  { intros Hn. apply list_elem_of_fmap in Hn as (b & E & Hb). destruct (free_used _ _ _ _ (bp, s) b I Hb ltac:(left)) as (_ & _ & F).
    cbn [fst snd] in F. destruct (hi_free _ _ _ _ I b Hb); unfold HDR in *; lia. }
  destruct (split_below l bp (hi_sorted _ _ _ _ I) Hn) as (l1 & [p sp] & l2 & -> & Hp & Hl2).
  { exists (base, 0). split; [apply I|cbn; unfold HDR in *; lia]. }
  cbn [fst] in Hp. destruct (free_right _ _ _ _ _ _ _ _ _ I Hp Hl2) as (sb & w & pre & E1 & Hw & Hsb & Hc & Hsb31).
  pose proof I as [I1 I2 I3 I4 I5 I6 I7 I8 I9 I10].
  assert (hd_addr (l1 ++ (p, sp) :: l2) 0 = base) as Hhd by (by destruct l1; injection I1; intros; subst).
  pose proof (path_size _ _ _ (sorted_nodup _ I4) I2) as Hsize.
  assert (free_find (S (size (h_hdr h))) bp (h_freep h) h = Ret p h) as Ef.
  { apply (free_find_ok h bp l1 (p, sp) l2 (h_freep h)); try done; [by rewrite Hhd|lia]. }
  pose proof I2 as P. apply path_app in P as [_ P]. pose proof (hget_path _ _ _ _ l2 P eq_refl) as Hx. cbn [fst snd] in Hx.
  set (m1 := <[bp := Header (hd_addr w base) sb]> (h_hdr h)) in *. set (h1 := with_hdr h m1) in *.
  assert (hget h1 p = Header (hd_addr l2 base) sp) as Hx1.
  { unfold hget, h1, m1, with_hdr. cbn [h_hdr]. rewrite lookup_insert_ne by lia. exact Hx. }
  assert (hget h1 bp = Header (hd_addr w base) sb) as Hb1 by (unfold hget, h1, m1, with_hdr; cbn [h_hdr]; by rewrite lookup_insert_eq).
  assert (free (bp + HDR) h =
    ((if p + sp * HDR =? bp then put_size p (sp + sb) ;;; put_ptr p (hd_addr w base) else put_ptr p bp) ;;; set_freep p) h1) as ->.
  { unfold free. replace (bp + HDR - HDR) with bp by lia. cbv zeta.
    rewrite (kbind_ret freep _ h (h_freep h) h eq_refl), (kbind_ret kget _ h h h eq_refl), (kbind_ret _ _ _ _ _ Ef).
    rewrite (kbind_ret (hdr p) _ h (Header (hd_addr l2 base) sp) h) by (unfold hdr; by rewrite Hx).
    rewrite (kbind_ret (hdr bp) _ h (hget h bp) h eq_refl). cbn [s_ptr]. rewrite (kbind_ret _ _ _ _ _ E1). fold m1 h1.
    rewrite (kbind_ret (hdr p) _ h1 (Header (hd_addr l2 base) sp) h1) by (unfold hdr; by rewrite Hx1).
    rewrite (kbind_ret (hdr bp) _ h1 (Header (hd_addr w base) sb) h1) by (unfold hdr; by rewrite Hb1). done. }
  by eapply free_left.
Qed.

(** ** Taking a block off the list *)

(** A block handed out is none of the free ones. *)
Lemma used_ne h U l A a b : hinv h U l A -> b ∈ l -> a ∈ A -> a.1 <> b.1.
Proof.
  intros I Hb Ha E. destruct (free_used _ _ _ _ a b I Hb Ha) as (F1 & _ & F2). destruct (hi_used _ _ _ _ I a Ha) as [Hp _].
  destruct (hi_free _ _ _ _ I b Hb); unfold HDR in *; lia.
Qed.

Lemma mid_elem (x y : list blk) b : b ∈ x ++ b :: y.
Proof. apply elem_of_app. right. left. Qed.

(** The whole block. *)
Lemma take_all h U x p sp q y A : let l := x ++ (p, sp) :: q :: y in
  hinv h U l A -> q.1 <> base ->
  let h' := Heap (<[p := Header (hd_addr y base) sp]> (h_hdr h)) p (h_brk h) (h_limit h) in
  hinv h' U (x ++ (p, sp) :: y) (q :: A).
Proof.
  intros l I Hq h'. pose proof I as [I1 I2 I3 I4 I5 I6 I7 I8 I9 I10].
  unfold l in I4. rewrite fmap_app, !fmap_cons in I4. cbn [fst] in I4.
  pose proof (sorted_nodup _ I4) as Hnd. rewrite NoDup_app, !NoDup_cons in Hnd. destruct Hnd as (N1 & N2 & (N3 & N4 & N5)).
  apply not_elem_of_cons in N3 as [N3 N3'].
  assert (p ∉ x.*1) as Hpx by (intros Hx; apply (N2 p Hx); left).
  pose proof I2 as P. unfold l in P. apply path_app in P as [P1 P2]. cbn [hd_addr fst] in P1. destruct P2 as (P2 & P3 & P4).
  cbn [fst snd] in P2.
  split; try done.
  - unfold l in I1. by destruct x.
  - apply path_app. split; [by apply path_insert|]. split; [cbn [fst snd h_hdr h']; by rewrite lookup_insert_eq|by apply path_insert].
  - rewrite fmap_app. apply elem_of_app. right. left.
  - rewrite fmap_app, fmap_cons. cbn [fst]. apply sorted_app; [by apply sorted_app_l in I4| |].
    + apply sorted_app_r in I4. inversion_clear I4 as [|? ? S1 S2]. inversion_clear S1 as [|? ? S3 S4]. constructor; [done|].
      by apply Forall_cons in S2 as [_ S2].
    + intros a b Ha Hb. apply (sorted_app_lt _ _ a b I4 Ha). rewrite !elem_of_cons in *. tauto.
  - intros b Hb. apply I5. unfold l. rewrite elem_of_app, !elem_of_cons in *. tauto.
  - intros b Hb. apply elem_of_cons in Hb as [->|Hb].
    + destruct (I5 q) as [|Hpos]; [unfold l; rewrite elem_of_app, !elem_of_cons; tauto|done|]. split; [done|].
      unfold hget, h'. cbn [h_hdr]. rewrite lookup_insert_ne by done. by rewrite P3.
    + destruct (I6 b Hb) as [Hb1 Hb2]. split; [done|]. unfold hget, h'. cbn [h_hdr]. rewrite lookup_insert_ne; [done|].
      intros E. apply (used_ne h U l A b (p, sp) I); [apply mid_elem|done|done].
  - rewrite <- I7. unfold l. rewrite !bind_app. cbn [mbind list_bind]. solve_Permutation.
Qed.

(** The end of a larger block. *)
Lemma take_tail h U x p sp q sq y A n ptr : let l := x ++ (p, sp) :: (q, sq) :: y in
  hinv h U l A -> q <> base -> 0 < n < sq ->
  let a := q + (sq - n) * HDR in
  let h' := Heap (<[a := Header ptr n]> (<[q := Header (hd_addr y base) (sq - n)]> (h_hdr h))) p (h_brk h) (h_limit h) in
  hinv h' U (x ++ (p, sp) :: (q, sq - n) :: y) ((a, n) :: A).
Proof.
  intros l I Hq Hn a h'. pose proof I as [I1 I2 I3 I4 I5 I6 I7 I8 I9 I10].
  assert ((q, sq) ∈ l) as Hql by (unfold l; rewrite elem_of_app, !elem_of_cons; tauto).
  assert (l.*1 = (x ++ (p, sp) :: (q, sq - n) :: y).*1) as Haddr by (unfold l; by rewrite !fmap_app, !fmap_cons).
  destruct (block_bounds U _ (q, sq) I7) as (B1 & B2 & B3); [apply elem_of_app; by left|cbn; lia|]. cbn [fst snd] in B1, B2, B3.
  (* the new header is none of the list *)
  assert (forall b, b ∈ l -> a <> b.1) as Ha.
  { intros b Hb E. destruct (I5 b Hb) as [Hb0|Hbp]; [unfold a, HDR in *; lia|].
    destruct (decide (b = (q, sq))) as [->|Hne]; [cbn in E; unfold a, HDR in *; lia|].
    pose proof (part_nodup _ _ _ _ I) as Hnd. apply elem_of_Permutation in Hql as [l' Hl'].
    assert (b ∈ l') as Hb' by (rewrite Hl', elem_of_cons in Hb; destruct Hb; [done|done]).
    apply elem_of_Permutation in Hb' as [l'' Hl'']. rewrite Hl', Hl'' in Hnd.
    destruct (block_bounds U _ b I7) as (C1 & C2 & C3); [apply elem_of_app; by left|done|].
    destruct (blocks_apart (q, sq) b (l'' ++ A)) as [D|D]; try done; [cbn; lia|cbn [fst snd] in D; unfold a, HDR in *; lia|].
    cbn [fst snd] in D. unfold a, HDR in *. lia. }
  assert (a ∉ l.*1) as Hal.
  { intros Hx. apply list_elem_of_fmap in Hx as (b & E & Hb). by apply (Ha b Hb). }
  pose proof (sorted_nodup _ I4) as Hnd. unfold l in Hnd. rewrite fmap_app, !fmap_cons in Hnd. cbn [fst] in Hnd.
  rewrite NoDup_app, !NoDup_cons in Hnd. destruct Hnd as (N1 & N2 & (N3 & N4 & N5)). apply not_elem_of_cons in N3 as [N3 N3'].
  assert (q ∉ x.*1) as Hqx by (intros Hx; apply (N2 q Hx); right; left).
  split; try done.
  - unfold l in I1. by destruct x.
  - apply path_insert; [by rewrite <- Haddr|]. unfold l in I2. apply path_app in I2 as [P1 P2]. cbn [hd_addr fst] in P1.
    destruct P2 as (P2 & P3 & P4). cbn [fst snd hd_addr] in P2. apply path_app. split; [by apply path_insert|].
    split; [cbn [fst snd hd_addr]; by rewrite lookup_insert_ne|]. split; [cbn [fst snd]; by rewrite lookup_insert_eq|by apply path_insert].
  - rewrite <- Haddr. unfold l. rewrite fmap_app. apply elem_of_app. right. left.
  - by rewrite <- Haddr.
  - intros b Hb. rewrite elem_of_app, !elem_of_cons in Hb.
    destruct Hb as [Hb|[->|[->|Hb]]]; [|apply I5; apply mid_elem|right; cbn; lia|]; apply I5; unfold l; rewrite elem_of_app, !elem_of_cons; tauto.
  - intros b Hb. apply elem_of_cons in Hb as [->|Hb].
    + split; [cbn; lia|]. unfold hget, h'. cbn [h_hdr fst snd]. by rewrite lookup_insert_eq.
    + destruct (I6 b Hb) as [Hb1 Hb2]. split; [done|]. unfold hget, h'. cbn [h_hdr]. rewrite !lookup_insert_ne; [done| |].
      * intros E. by apply (used_ne h U l A b (q, sq) I).
      * intros E. destruct (free_used _ _ _ _ b (q, sq) I Hql Hb) as (F1 & F2 & [F3|(F3 & F4 & F5)]); cbn [fst snd] in *; unfold a, HDR in *; lia.
  - rewrite <- I7. unfold l. rewrite !bind_app. cbn [mbind list_bind].
    assert (cells (q, sq) = cells (q, sq - n) ++ cells (a, n)) as ->.
    { replace sq with ((sq - n) + n) at 1 by lia. rewrite cells_split by lia. do 3 f_equal. unfold a. lia. }
    solve_Permutation.
Qed.

(** ** The search in malloc *)

Fixpoint last_addr (l : list blk) (e : Z) : Z := match l with [] => e | b :: l' => last_addr l' b.1 end.

Lemma last_addr_snoc l b : forall e, last_addr (l ++ [b]) e = b.1.
Proof. induction l as [|c l IH]; intros e; [done|]. cbn. apply IH. Qed.

(** Blocks that are too small are passed. *)
Lemma malloc_walk h n l : forall prev e fuel,
  path (h_hdr h) l e -> (forall b, b ∈ l -> b.2 < n) -> (forall b, b ∈ l -> b.1 <> h_freep h) ->
  malloc_loop (length l + fuel) n prev (hd_addr l e) h = malloc_loop fuel n (last_addr l prev) e h.
Proof.
  induction l as [|b l IH]; intros prev e fuel Hp Hs Hf; [done|]. pose proof (hget_path _ _ _ _ l Hp eq_refl) as Hb.
  destruct Hp as [_ Hp]. cbn [length Nat.add hd_addr malloc_loop]. rewrite (kbind_ret (hdr b.1) _ h (hget h b.1) h eq_refl), Hb.
  cbn [s_size s_ptr]. pose proof (Hs b ltac:(left)). replace (n <=? b.2) with false by lia.
  rewrite (kbind_ret freep _ h (h_freep h) h eq_refl).
  replace (b.1 =? h_freep h) with false by (symmetry; apply Z.eqb_neq, Hf; left).
  rewrite IH; [done|done| |]; intros c Hc; [apply Hs|apply Hf]; by right.
Qed.

(** The first block that is large enough. *)
Lemma first_fit n (l : list blk) :
  (forall b, b ∈ l -> b.2 < n) \/ exists u q w, l = u ++ q :: w /\ n <= q.2 /\ forall b, b ∈ u -> b.2 < n.
Proof.
  induction l as [|b l IH]; [left; intros b Hb; by apply elem_of_nil in Hb|]. destruct (decide (n <= b.2)) as [Hb|Hb].
  - right. exists [], b, l. split; [done|]. split; [done|]. intros c Hc. by apply elem_of_nil in Hc.
  - destruct IH as [IH|(u & q & w & -> & Hq & Hu)]; [left|right].
    + intros c Hc. apply elem_of_cons in Hc as [->|Hc]; [lia|by apply IH].
    + exists (b :: u), q, w. split; [done|]. split; [done|]. intros c Hc. apply elem_of_cons in Hc as [->|Hc]; [lia|by apply Hu].
Qed.

(** In the order in which [malloc] visits the list, each block but [base] comes
    after the one that points to it. *)
Lemma visit_pred l1 f l2 u q w : head (l1 ++ f :: l2) = Some (base, 0) -> l2 ++ l1 ++ [f] = u ++ q :: w -> 0 < q.2 ->
  exists x sp y, l1 ++ f :: l2 = x ++ (last_addr u f.1, sp) :: q :: y.
Proof.
  intros Hh E Hq. assert (forall c k, l1 = c :: k -> c = (base, 0)) as Hl1 by (intros c k ->; by injection Hh).
  apply app_eq_inv in E as [(k & -> & E)|(k & -> & E)].
  - destruct k as [|c k].
    + cbn [app] in E. destruct l1 as [|c l1]; cbn [app] in E; injection E as -> _; [|by rewrite (Hl1 _ l1 eq_refl) in Hq].
      cbn in Hh. by injection Hh as ->.
    + injection E as -> E. destruct u as [|pv u _] using rev_ind.
      * exists l1, f.2, k. by destruct f.
      * rewrite last_addr_snoc. exists (l1 ++ f :: u), pv.2, k. rewrite <- !app_assoc. by destruct pv.
  - destruct k as [|pv k _] using rev_ind.
    + cbn [app] in E. destruct l1 as [|c l1]; cbn [app] in E; injection E as -> _; [|by rewrite (Hl1 _ l1 eq_refl) in Hq].
      cbn in Hh. by injection Hh as ->.
    + rewrite app_assoc, last_addr_snoc. apply app_eq_inv in E as [(k' & -> & E)|(k' & E1 & E)].
      * destruct k' as [|c k']; cbn [app] in E; injection E as -> E.
        -- exists k, pv.2, l2. rewrite <- !app_assoc. by destruct pv.
        -- exists k, pv.2, (k' ++ f :: l2). rewrite <- !app_assoc. by destruct pv.
      * destruct k' as [|c k']; [cbn [app] in E; injection E as -> _|by destruct k'].
        rewrite app_nil_r in E1. rewrite <- E1. exists k, pv.2, l2. rewrite <- !app_assoc. by destruct pv.
Qed.

(** A block that is large enough is taken. *)
Lemma malloc_found h U l A x p sp q y n fuel :
  hinv h U l A -> l = x ++ (p, sp) :: q :: y -> 0 < n <= q.2 ->
  exists a h' l', malloc_loop (S fuel) n p q.1 h = Ret (a + HDR) h' /\ hinv h' U l' ((a, n) :: A) /\
    h_brk h' = h_brk h /\ h_limit h' = h_limit h.
Proof.
  intros I -> Hn. destruct q as [q sq]. cbn [fst snd] in *. pose proof (units_small _ _ _ _ I) as HU.
  pose proof (hi_path _ _ _ _ I) as P. apply path_app in P as [_ P]. pose proof (hget_path _ _ _ _ _ P eq_refl) as Hx. destruct P as [_ P].
  pose proof (hget_path _ _ _ _ _ P eq_refl) as Hy. cbn [fst snd hd_addr] in Hx, Hy.
  assert (q <> base) as Hq.
  { intros ->. pose proof (hi_head _ _ _ _ I) as Hh. pose proof (hi_sorted _ _ _ _ I) as Hs. rewrite fmap_app in Hs.
    destruct x as [|c x]; injection Hh as E; subst.
    - cbn in Hs. inversion_clear Hs as [|? ? _ H2]. rewrite Forall_forall in H2. specialize (H2 base ltac:(left)). lia.
    - assert (base < base); [|lia]. apply (sorted_app_lt _ _ base base Hs); [left|right; left]. }
  cbn [malloc_loop]. rewrite (kbind_ret (hdr q) _ h (hget h q) h eq_refl), Hy. cbn [s_size s_ptr].
  replace (n <=? sq) with true by lia. destruct (Z.eqb_spec sq n) as [->|Hne].
  - rewrite (kbind_ret (put_ptr p _ ;;; kret q) _ h q (with_hdr h (<[p := Header (hd_addr y base) sp]> (h_hdr h)))).
    + eexists q, _, _. split; [reflexivity|]. split; [|done]. by apply (take_all h U x p sp (q, n) y A I).
    + by rewrite (kbind_ret _ _ _ _ _ (put_ptr_eq p (hd_addr y base) h sp ltac:(by rewrite Hx))).
  - destruct (block_bounds U _ (q, sq) (hi_part _ _ _ _ I)) as (B1 & B2 & B3);
      [apply elem_of_app; left; rewrite elem_of_app, !elem_of_cons; tauto|cbn; lia|]. cbn [fst snd] in B1, B2, B3.
    set (h1 := with_hdr h (<[q := Header (hd_addr y base) (sq - n)]> (h_hdr h))).
    assert (put_size q (sq - n) h = Ret tt h1) as E1.
    { unfold put_size. rewrite Hy. cbn [s_ptr]. rewrite uint32_small by (unfold HDR in *; lia). done. }
    assert (hget h1 q = Header (hd_addr y base) (sq - n)) as Hg by (unfold hget, h1; cbn [h_hdr with_hdr]; by rewrite lookup_insert_eq).
    set (a := q + (sq - n) * HDR).
    assert (put_size a n h1 = Ret tt (with_hdr h1 (<[a := Header (s_ptr (hget h1 a)) n]> (h_hdr h1)))) as E2.
    { unfold put_size. rewrite uint32_small by (unfold HDR in *; lia). done. }
    rewrite (kbind_ret (put_size q (sq - n) ;;; _) _ h a (with_hdr h1 (<[a := Header (s_ptr (hget h1 a)) n]> (h_hdr h1)))).
    + eexists a, _, _. split; [reflexivity|]. split; [|done].
      by apply (take_tail h U x p sp q sq y A n (s_ptr (hget h1 a)) I Hq); lia.
    + rewrite (kbind_ret _ _ _ _ _ E1), (kbind_ret (hdr q) _ h1 (hget h1 q) h1 eq_refl), Hg. cbn [s_size]. fold a.
      by rewrite (kbind_ret _ _ _ _ _ E2).
Qed.

Lemma malloc_fit_fuel h n p q f f' : n <= s_size (hget h q) -> malloc_loop (S f) n p q h = malloc_loop (S f') n p q h.
Proof.
  intros Hn. cbn [malloc_loop]. rewrite !(kbind_ret (hdr q) _ h (hget h q) h eq_refl).
  by replace (n <=? s_size (hget h q)) with true by lia.
Qed.

(** One round over the list: a block is found, or all are too small. *)
Lemma malloc_round h U l A n : hinv h U l A -> 0 < n ->
  (exists a h' l', (forall fuel, (length l < fuel)%nat -> malloc_loop fuel n (h_freep h) (s_ptr (hget h (h_freep h))) h = Ret (a + HDR) h') /\
      hinv h' U l' ((a, n) :: A) /\ h_brk h' = h_brk h /\ h_limit h' = h_limit h) \/
  (forall b, b ∈ l -> b.2 < n) /\ forall fuel,
    malloc_loop (length l + fuel) n (h_freep h) (s_ptr (hget h (h_freep h))) h =
      (p <- morecore n ;; if p =? 0 then kret 0 else x <- hdr p ;; malloc_loop fuel n p (s_ptr x)) h.
Proof.
  intros I Hn. pose proof I as [I1 I2 I3 I4 I5 I6 I7 I8 I9 I10].
  apply list_elem_of_fmap in I3 as (f & Hf & Hin). apply list_elem_of_split in Hin as (l1 & l2 & ->).
  assert (path (h_hdr h) (l2 ++ l1) f.1) as P.
  { apply path_app in I2 as [P1 [_ P2]]. cbn [hd_addr] in P1. apply path_app. split; [|done].
    assert (hd_addr l1 f.1 = base) as ->; [|done]. destruct l1; injection I1 as ->; done. }
  assert (hget h f.1 = Header (hd_addr (l2 ++ l1) f.1) f.2) as Hg.
  { apply path_app in I2 as [_ P2]. rewrite (hget_path _ _ _ _ _ P2 eq_refl). f_equal. rewrite hd_addr_app. f_equal.
    destruct l1; injection I1 as ->; done. }
  rewrite Hf, Hg. cbn [s_ptr].
  assert (forall b, b ∈ l2 ++ l1 -> b.1 <> h_freep h) as Hnf.
  { intros b Hb E. apply sorted_nodup in I4. rewrite fmap_app, fmap_cons, NoDup_app, NoDup_cons in I4. destruct I4 as (_ & N2 & (N3 & _)).
    rewrite Hf in E. apply elem_of_app in Hb as [Hb|Hb].
    - apply N3. rewrite <- E. by apply list_elem_of_fmap_2.
    - apply (N2 b.1); [by apply list_elem_of_fmap_2|]. rewrite E. left. }
  destruct (first_fit n (l2 ++ l1 ++ [f])) as [Hsm|(u & q & w & E & Hq & Hu)].
  - right. split.
    { intros b Hb. apply Hsm. rewrite !elem_of_app, elem_of_cons in *. rewrite elem_of_nil. tauto. }
    intros fuel. replace (length (l1 ++ f :: l2) + fuel)%nat with (length (l2 ++ l1) + S fuel)%nat by (rewrite !length_app; cbn; lia).
    rewrite malloc_walk; [|done|intros b Hb; apply Hsm; rewrite app_assoc; apply elem_of_app; by left|done].
    cbn [malloc_loop]. rewrite (kbind_ret (hdr f.1) _ h (hget h f.1) h eq_refl), Hg. cbn [s_size].
    pose proof (Hsm f ltac:(rewrite !elem_of_app; right; right; left)). replace (n <=? f.2) with false by lia.
    rewrite (kbind_ret freep _ h (h_freep h) h eq_refl), Hf, Z.eqb_refl. done.
  - left. destruct (visit_pred l1 f l2 u q w I1 E ltac:(lia)) as (x & sp & y & El).
    destruct (malloc_found h U _ A x (last_addr u f.1) sp q y n 0 I El ltac:(lia)) as (a & h' & l' & Em & I' & B1 & B2).
    exists a, h', l'. split; [|done]. intros fuel Hfu.
    assert (path (h_hdr h) u q.1 /\ hd_addr (l2 ++ l1) f.1 = hd_addr u q.1 /\ (forall b, b ∈ u -> b ∈ l2 ++ l1)) as (Pu & Hhd & Hsub).
    { rewrite app_assoc in E. apply app_eq_inv in E as [(k & E1 & E2)|(k & -> & E2)].
      - rewrite E1 in P |- *. apply path_app in P as [P1 P2]. rewrite hd_addr_app.
        assert (hd_addr k f.1 = q.1) as Hk by (destruct k; injection E2 as -> _; done). rewrite Hk in *.
        split; [done|]. split; [done|]. intros b Hb. apply elem_of_app. by left.
      - destruct k as [|c k]; [|by destruct k]. injection E2 as -> _. rewrite app_nil_r.
        split; [done|]. split; [done|]. done. }
    assert (length u < length (l1 ++ f :: l2))%nat as Hlu.
    { apply (f_equal length) in E. rewrite !length_app in E. rewrite !length_app. cbn [length] in *. lia. }
    rewrite Hhd. replace fuel with (length u + S (fuel - length u - 1))%nat by lia.
    rewrite malloc_walk; [|done|done|intros b Hb; by apply Hnf, Hsub]. rewrite <- Em. apply malloc_fit_fuel.
    rewrite El in I2. apply path_app in I2 as [_ [_ P2]]. by rewrite (hget_path _ _ _ _ _ P2 eq_refl).
Qed.

(** ** morecore and malloc *)

Definition grant (n : Z) : Z := Z.max n 4096.

(** The memory granted is one more block handed out, to be freed. *)
Lemma hinv_grow h U l A nu : hinv h U l A -> 0 < nu -> h_brk h + nu * HDR <= h_limit h ->
  let p := h_brk h in
  let h' := Heap (<[p := Header (s_ptr (hget h p)) nu]> (h_hdr h)) (h_freep h) (h_brk h + nu * HDR) (h_limit h) in
  hinv h' (U + nu) l ((p, nu) :: A).
Proof.
  intros I Hnu Hlim p h'. pose proof I as [I1 I2 I3 I4 I5 I6 I7 I8 I9 I10].
  assert (forall b, b ∈ l ++ A -> 0 < b.2 -> b.1 <> p) as Hne.
  { intros b Hb Hpos. destruct (block_bounds U _ b I7 Hb Hpos) as (B1 & B2 & _). unfold p, HDR in *. lia. }
  assert (p ∉ l.*1) as Hpl.
  { intros Hp. apply list_elem_of_fmap in Hp as (b & E & Hb). destruct (I5 b Hb) as [Hb0|Hb0].
    - unfold p, HDR in *. lia.
    - apply (Hne b); [apply elem_of_app; by left|done|done]. }
  split; try done.
  - by apply path_insert.
  - intros b Hb. apply elem_of_cons in Hb as [->|Hb].
    + split; [done|]. unfold hget, h'. cbn [h_hdr fst snd]. by rewrite lookup_insert_eq.
    + destruct (I6 b Hb) as [Hb1 Hb2]. split; [done|]. unfold hget, h'. cbn [h_hdr]. rewrite lookup_insert_ne; [done|].
      intros E. apply (Hne b); [apply elem_of_app; by right|done|done].
  - rewrite cells_split by lia. rewrite <- I7, <- I9, !bind_app. cbn [mbind list_bind]. fold p. solve_Permutation.
  - lia.
  - cbn [h' h_brk]. unfold HDR in *. lia.
  - cbn [h' h_brk h_limit]. unfold HDR in *. lia.
Qed.

Lemma freep_pos h U l A : hinv h U l A -> h_freep h <> 0.
Proof.
  intros [I1 I2 I3 I4 I5 I6 I7 I8 I9 I10] E. rewrite E in I3. destruct l as [|b l]; [done|]. injection I1 as ->.
  cbn [fmap list_fmap] in *. inversion_clear I4 as [|? ? _ H2]. apply elem_of_cons in I3 as [Hx|Hx]; [cbn in Hx; lia|].
  rewrite Forall_forall in H2. specialize (H2 0 Hx). cbn in H2. lia.
Qed.

Lemma morecore_ok h U l A n : hinv h U l A -> 0 < n < 2 ^ 27 ->
  (h_limit h < h_brk h + grant n * HDR /\ morecore n h = Ret 0 h) \/
  exists h' l', morecore n h = Ret (h_freep h') h' /\ hinv h' (U + grant n) l' A /\ (exists b, b ∈ l' /\ n <= b.2) /\
    (length l' <= S (length l))%nat.
Proof.
  intros I Hn. unfold morecore.
  assert ((if n <? 4096 then 4096 else n) = grant n) as -> by (unfold grant; destruct (Z.ltb_spec n 4096); lia).
  assert (0 < grant n /\ n <= grant n /\ grant n * HDR < 2 ^ 31) as (G1 & G2 & G3) by (unfold grant, HDR; lia).
  rewrite int32_small by (unfold HDR in *; lia). pose proof (hi_brk _ _ _ _ I) as Hb. pose proof (hi_units _ _ _ _ I) as HU.
  destruct (Z.ltb_spec (h_limit h) (h_brk h + grant n * HDR)) as [E|E].
  - left. split; [done|]. assert (sbrk (grant n * HDR) h = Ret (-1) h) as E1.
    { unfold sbrk. by replace (h_limit h <? h_brk h + grant n * HDR) with true by lia. }
    by rewrite (kbind_ret _ _ _ _ _ E1).
  - right. set (p := h_brk h) in *. set (h1 := Heap (h_hdr h) (h_freep h) (p + grant n * HDR) (h_limit h)).
    assert (sbrk (grant n * HDR) h = Ret p h1) as E1.
    { unfold sbrk. by replace (h_limit h <? h_brk h + grant n * HDR) with false by lia. }
    rewrite (kbind_ret _ _ _ _ _ E1). replace (p =? -1) with false by (unfold HDR in *; lia).
    pose proof (hinv_grow h U l A (grant n) I G1 E) as I2. fold p in I2.
    destruct (free_ok _ _ _ _ _ _ I2) as (h' & l' & E2 & I' & (b & Hb1 & Hb2) & Hl & _).
    exists h', l'. split; [|split; [done|split; [|done]]].
    + assert (put_size p (grant n) h1 = Ret tt (Heap (<[p := Header (s_ptr (hget h p)) (grant n)]> (h_hdr h)) (h_freep h) (p + grant n * HDR) (h_limit h))) as E3.
      { unfold put_size. rewrite uint32_small by (unfold HDR in *; lia). done. }
      rewrite (kbind_ret _ _ _ _ _ E3), (kbind_ret _ _ _ _ _ E2). done.
    + exists b. split; [done|lia].
Qed.

Lemma malloc_list h U l A n fuel : hinv h U l A -> 0 < n < 2 ^ 27 -> (2 * length l + 2 < fuel)%nat ->
  (h_limit h < h_brk h + grant n * HDR /\ malloc_loop fuel n (h_freep h) (s_ptr (hget h (h_freep h))) h = Ret 0 h) \/
  exists a h' U' l', malloc_loop fuel n (h_freep h) (s_ptr (hget h (h_freep h))) h = Ret (a + HDR) h' /\
    hinv h' U' l' ((a, n) :: A) /\ U <= U'.
Proof.
  intros I Hn Hf. destruct (malloc_round h U l A n I ltac:(lia)) as [(a & h' & l' & E & I' & _)|(Hsm & E)].
  - right. exists a, h', U, l'. split; [apply E; lia|]. split; [done|lia].
  - replace fuel with (length l + (fuel - length l))%nat by lia. rewrite E.
    destruct (morecore_ok h U l A n I Hn) as [[Hlim Em]|(h1 & l1 & Em & I1 & (b & Hb & Hbn) & Hl)]; rewrite (kbind_ret _ _ _ _ _ Em).
    + left. done.
    + right. replace (h_freep h1 =? 0) with false by (symmetry; apply Z.eqb_neq; by eapply freep_pos).
      rewrite (kbind_ret (hdr _) _ h1 (hget h1 (h_freep h1)) h1 eq_refl).
      destruct (malloc_round h1 _ l1 A n I1 ltac:(lia)) as [(a & h' & l' & E' & I' & _)|(Hsm' & _)]; [|specialize (Hsm' b Hb); lia].
      exists a, h', (U + grant n), l'. split; [apply E'; lia|]. split; [done|]. unfold grant. lia.
Qed.

(** ** Clients *)

(** The memory of a block that its owner may write. *)
Definition payload (b : blk) (c : Z) : Prop := c ∈ cells b /\ c <> b.1.

(** A client allocates, frees a block it has, and stores what it likes in its
    blocks. *)
Inductive ustep : heap * list blk -> heap * list blk -> Prop :=
| u_malloc h A nbytes r h' : 0 <= nbytes <= 2 ^ 31 - 32 -> malloc base nbytes h = Ret r h' ->
    ustep (h, A) (h', if r =? 0 then A else (r - HDR, nunits nbytes) :: A)
| u_free h A a s A' h' : A ≡ₚ (a, s) :: A' -> free (a + HDR) h = Ret tt h' -> ustep (h, A) (h', A')
| u_write h A m : (forall c, (forall b, b ∈ A -> ~ payload b c) -> m !! c = h_hdr h !! c) -> ustep (h, A) (with_hdr h m, A).

(** Before the first allocation. *)
Definition heap0 (limit : Z) : heap := Heap ∅ 0 start limit.

(** The invariant, or nothing has been allocated yet. *)
Definition heap_ok (h : heap) (A : list blk) : Prop :=
  (exists U l, hinv h U l A) \/ h_freep h = 0 /\ A = [] /\ h_brk h = start /\ start <= h_limit h <= 2 ^ 35.

Lemma nunits_eq nbytes : 0 <= nbytes <= 2 ^ 31 - 32 ->
  0 < nunits nbytes < 2 ^ 27 /\ nbytes + HDR <= HDR * nunits nbytes.
Proof.
  intros Hn. unfold nunits. rewrite uint32_small by (unfold HDR; Z.div_mod_to_equations; lia).
  unfold HDR. Z.div_mod_to_equations. lia.
Qed.

Lemma hinv_init h : h_brk h = start -> start <= h_limit h <= 2 ^ 35 ->
  hinv (Heap (<[base := Header base 0]> (h_hdr h)) base (h_brk h) (h_limit h)) 0 [(base, 0)] [].
Proof.
  intros Hb Hl. split; try done; cbn [h_hdr h_freep h_brk h_limit].
  - split; [|done]. cbn. by rewrite lookup_insert_eq.
  - left.
  - repeat constructor.
  - intros b Hx. apply list_elem_of_singleton in Hx as ->. by left.
  - intros b Hx. by apply elem_of_nil in Hx.
  - unfold HDR. lia.
  - lia.
Qed.

Lemma malloc_ok h A nbytes : heap_ok h A -> 0 <= nbytes <= 2 ^ 31 - 32 ->
  let n := nunits nbytes in
  exists r h', malloc base nbytes h = Ret r h' /\
    (r = 0 /\ h_limit h < h_brk h + grant n * HDR /\ heap_ok h' A \/
     r <> 0 /\ exists U l, hinv h' U l ((r - HDR, n) :: A)).
Proof.
  intros Hok Hn n. destruct (nunits_eq nbytes Hn) as [Hn1 Hn2]. fold n in Hn1, Hn2.
  assert (exists U l h1, hinv h1 U l A /\ h_limit h1 = h_limit h /\ h_brk h1 = h_brk h /\
    malloc base nbytes h = malloc_loop (S (S (2 * size (h_hdr h1) + 4))) n (h_freep h1) (s_ptr (hget h1 (h_freep h1))) h1) as
    (U & l & h1 & I & Hlim & Hbrk & E).
  { unfold malloc. cbv zeta. fold n. rewrite (kbind_ret freep _ h (h_freep h) h eq_refl).
    destruct Hok as [(U & l & I)|(Hf & -> & Hb & Hl)].
    - exists U, l, h. split; [done|]. replace (h_freep h =? 0) with false by (symmetry; apply Z.eqb_neq; by eapply freep_pos). done.
    - rewrite Hf. cbn [Z.eqb]. exists 0, [(base, 0)], (Heap (<[base := Header base 0]> (h_hdr h)) base (h_brk h) (h_limit h)).
      split; [by apply hinv_init|done]. }
  rewrite E. pose proof (path_size _ _ _ (sorted_nodup _ (hi_sorted _ _ _ _ I)) (hi_path _ _ _ _ I)) as Hsz.
  destruct (malloc_list h1 U l A n (S (S (2 * size (h_hdr h1) + 4))) I Hn1 ltac:(lia)) as [[Hfull E1]|(a & h' & U' & l' & E1 & I' & _)]; rewrite E1.
  - exists 0, h1. split; [done|]. left. split; [done|]. split; [congruence|]. left. by exists U, l.
  - exists (a + HDR), h'. split; [done|]. right. replace (a + HDR - HDR) with a by lia. split; [|by exists U', l'].
    destruct (free_used _ _ _ _ (a, n) (base, 0) I') as (F1 & _).
    + pose proof (hi_head _ _ _ _ I') as Hh. destruct l' as [|c l']; [done|]. injection Hh as ->. left.
    + left.
    + cbn in F1. unfold HDR in *. lia.
Qed.

Lemma hinv_write h U l A m : hinv h U l A -> (forall c, (forall b, b ∈ A -> ~ payload b c) -> m !! c = h_hdr h !! c) ->
  hinv (with_hdr h m) U l A.
Proof.
  intros I Hm. pose proof I as [I1 I2 I3 I4 I5 I6 I7 I8 I9 I10].
  split; try done; cbn [with_hdr h_hdr].
  - eapply path_ext; [|exact I2]. intros a Ha. apply list_elem_of_fmap in Ha as (b & -> & Hb). apply Hm.
    intros c Hc [Hp Hne]. apply elem_of_cells in Hp as (i & Hi & E). destruct (free_used _ _ _ _ c b I Hb Hc) as (F1 & F2 & F3).
    destruct (I5 b Hb); unfold HDR in *; lia.
  - intros b Hb. destruct (I6 b Hb) as [Hb1 Hb2]. split; [done|]. unfold hget in *. cbn [h_hdr]. rewrite Hm; [done|].
    intros c Hc [Hp Hne]. apply elem_of_cells in Hp as (i & Hi & E). apply elem_of_Permutation in Hb as [A' HA].
    rewrite HA in Hc. apply elem_of_cons in Hc as [->|Hc]; [unfold HDR in *; lia|]. apply list_elem_of_split in Hc as (A1 & A2 & ->).
    pose proof (used_used _ _ _ _ _ _ _ (hinv_perm _ _ _ _ _ HA I)) as Hu. unfold HDR in *. lia.
Qed.

Lemma free_heap_ok h A a s A' : heap_ok h A -> A ≡ₚ (a, s) :: A' ->
  exists h', free (a + HDR) h = Ret tt h' /\ heap_ok h' A'.
Proof.
  intros [(U & l & I)|(_ & -> & _)] HA; [|by apply Permutation_nil_cons in HA].
  destruct (free_ok h U l A' a s (hinv_perm _ _ _ _ _ HA I)) as (h' & l' & E & I' & _).
  exists h'. split; [done|]. left. by exists U, l'.
Qed.

Lemma heap_ok_step s s' : heap_ok s.1 s.2 -> ustep s s' -> heap_ok s'.1 s'.2.
Proof.
  intros Hok Hs. destruct Hs as [h A nbytes r h' Hn E|h A a s A' h' HA E|h A m Hm]; cbn [fst snd] in *.
  - destruct (malloc_ok h A nbytes Hok Hn) as (r' & h1 & E' & Hr). rewrite E in E'. injection E' as <- <-.
    destruct Hr as [(-> & _ & Hr)|(Hr & U & l & I)]; [done|]. replace (r =? 0) with false by lia. left. by exists U, l.
  - destruct (free_heap_ok h A a s A' Hok HA) as (h1 & E' & Hr). rewrite E in E'. by injection E' as <-.
  - destruct Hok as [(U & l & I)|Hok]; [|right; exact Hok]. left. exists U, l. by apply hinv_write.
Qed.

Lemma heap_ok_reach s s' : rtc ustep s s' -> heap_ok s.1 s.2 -> heap_ok s'.1 s'.2.
Proof. induction 1 as [|s0 s1 s2 Hst _ IH]; [done|]. intros Hok. apply IH. by apply (heap_ok_step s0). Qed.

(** C31: [malloc] and [free] never give out the same memory twice, and lose
    none, as long as no request exceeds 2^31 - 32 bytes (beyond that the byte
    count [morecore] passes to sbrk wraps around, see [malloc_oversize]).
    Whatever a client allocates within this bound, frees and stores in its
    blocks, in any order: every header of the memory obtained from the kernel
    belongs to exactly one free block or block handed out; [malloc] of a size
    within the bound returns, with 0 only if the kernel has no memory for the
    request, and otherwise with an aligned block of at least the size asked for
    that overlaps no other; and [free] of a block returns. *)
Theorem malloc_contract limit h A nbytes :
  start <= limit <= 2 ^ 35 -> rtc ustep (heap0 limit, []) (h, A) -> 0 <= nbytes <= 2 ^ 31 - 32 ->
  (exists U l, (l ++ A) ≫= cells ≡ₚ cells (start, U) /\ h_brk h = start + HDR * U) /\
  (exists r h', malloc base nbytes h = Ret r h' /\
    (r = 0 /\ h_limit h < h_brk h + grant (nunits nbytes) * HDR \/
     start + HDR <= r /\ r + nbytes <= h_brk h' <= h_limit h' /\ (r - start) mod HDR = 0 /\
     forall b, b ∈ A -> r + nbytes <= b.1 \/ b.1 + HDR * b.2 <= r - HDR)) /\
  (forall a s A', A ≡ₚ (a, s) :: A' -> exists h', free (a + HDR) h = Ret tt h').
Proof.
  intros Hlim Hr Hn.
  pose proof (heap_ok_reach _ _ Hr) as Hok. cbn [fst snd heap0 h_freep h_brk h_limit] in Hok.
  specialize (Hok ltac:(right; done)). split; [|split].
  - destruct Hok as [(U & l & I)|(_ & -> & Hb & _)]; [exists U, l; split; apply I|].
    exists 0, []. split; [done|]. rewrite Hb. lia.
  - destruct (malloc_ok h A nbytes Hok Hn) as (r & h' & E & Hc). exists r, h'. split; [done|].
    destruct Hc as [(-> & Hc & _)|(_ & U & l & I)]; [by left|right]. destruct (nunits_eq nbytes Hn) as [N1 N2].
    destruct (block_bounds U _ (r - HDR, nunits nbytes) (hi_part _ _ _ _ I)) as (B1 & B2 & B3);
      [apply elem_of_app; right; left|cbn; lia|]. cbn [fst snd] in B1, B2, B3.
    pose proof (hi_brk _ _ _ _ I). pose proof (hi_limit _ _ _ _ I). unfold HDR in *. split; [lia|]. split; [lia|].
    split; [Z.div_mod_to_equations; lia|]. intros b Hb. apply list_elem_of_split in Hb as (A1 & A2 & ->).
    pose proof (used_used _ _ _ _ _ _ _ I) as Hu. cbn [fst snd] in Hu. unfold HDR in Hu. lia.
  - intros a s A' HA. destruct (free_heap_ok h A a s A' Hok HA) as (h' & E & _). by exists h'.
Qed.

End spec.

(** A client with one block of 100 bytes. *)
Lemma malloc_contract_witness : exists h A r h', rtc (ustep 4096) (heap0 8192 (2 ^ 20), []) (h, A) /\ length A = 1%nat /\
  malloc 4096 50 h = Ret r h' /\ 8192 + HDR <= r.
Proof.
  destruct (is_ret_true (malloc 4096 100 (heap0 8192 (2 ^ 20)))) as (r0 & h0 & E0); [vm_compute; reflexivity|].
  assert (match malloc 4096 100 (heap0 8192 (2 ^ 20)) with Ret r h => (r =? 0, h_brk h, h_limit h) | _ => (true, 0, 0) end =
    (false, 8192 + 65536, 2 ^ 20)) as Hv by (vm_compute; reflexivity).
  rewrite E0 in Hv. injection Hv as Hr0 Hb0 Hl0.
  assert (rtc (ustep 4096) (heap0 8192 (2 ^ 20), []) (h0, if r0 =? 0 then [] else [(r0 - HDR, nunits 100)])) as Hr.
  { eapply rtc_l; [|apply rtc_refl]. apply (u_malloc 4096 _ [] 100 r0 h0); [lia|exact E0]. }
  destruct (malloc_contract 4096 8192 ltac:(lia) ltac:(unfold HDR; lia) (2 ^ 20) h0 (if r0 =? 0 then [] else [(r0 - HDR, nunits 100)]) 50
    ltac:(lia) Hr ltac:(lia)) as (_ & (r & h' & E & Hc) & _).
  rewrite Hr0 in *. exists h0, [(r0 - HDR, nunits 100)], r, h'. split; [exact Hr|]. split; [reflexivity|]. split; [exact E|].
  destruct Hc as [[_ Hc]|[Hc _]]; [|exact Hc]. rewrite Hb0, Hl0 in Hc. vm_compute in Hc. discriminate Hc.
Defined.

(** A request of nearly 4 GB is granted without any memory: the number of
    bytes [morecore] asks the kernel for does not fit the int argument of
    sbrk, which receives 0, and [malloc] returns a block that lies beyond the
    end of the memory of the process. *)
Theorem malloc_oversize : exists r h',
  malloc 4096 (2 ^ 32 - 16) (heap0 8192 (2 ^ 20)) = Ret r h' /\ r <> 0 /\ h_brk h' = 8192 /\ h_brk h' < r.
Proof.
  destruct (malloc 4096 (2 ^ 32 - 16) (heap0 8192 (2 ^ 20))) as [r h'| | |] eqn:E; [|vm_compute in E; discriminate E..].
  assert (match malloc 4096 (2 ^ 32 - 16) (heap0 8192 (2 ^ 20)) with Ret r h => (r, h_brk h) | _ => (0, 0) end = (8208, 8192)) as Hv
    by (vm_compute; reflexivity).
  rewrite E in Hv. injection Hv as -> Hb. exists 8208, h'. rewrite Hb. split; [done|]. split; [done|]. split; [done|lia].
Qed.
