(* ===== verification/Trap.v ===== *)
(** * Traps and interrupts

    kernel/trap.c and the claim of an interrupt of kernel/plic.c, on the state of
    the kernel.  What the hardware has put in its registers at a trap is the
    record [trap].  Turning interrupts on and off and the registers that only
    direct the next trap (stvec, stimecmp, the interrupt controller's completion
    register) are not part of the state. *)

From S2P Require Import Prelude Memory KString Ulib Printf Kalloc Vm Bytes Sleeplock Bio Log Fs FsFile Ring KState Machine Pipe Console File Proc Syscall Sysfile Exec Quiet ProcInv.

Definition SSTATUS_SPP : Z := Z.shiftl 1 8.
Definition SSTATUS_SPIE : Z := Z.shiftl 1 5.
Definition SSTATUS_SIE : Z := Z.shiftl 1 1.
Definition MAKE_SATP (pagetable : Z) : Z := Z.lor (Z.shiftl 8 60) (Z.shiftr pagetable 12).

Definition UART0_IRQ : Z := 10.
Definition VIRTIO0_IRQ : Z := 1.

Definition CAUSE_SYSCALL : Z := 8.
Definition CAUSE_EXTERNAL : Z := 0x8000000000000009.
Definition CAUSE_TIMER : Z := 0x8000000000000005.

(** The registers at a trap; what the interrupt controller answers to
    plic_claim; the characters the UART has received; the hart. *)
Record trap := Trap {
  t_scause : Z; t_sepc : Z; t_stval : Z; t_sstatus : Z; t_satp : Z;
  t_irq : Z; t_rx : list Z; t_hart : Z
}.

(** What the disk driver's interrupt handler promises: it wakes up processes and
    leaves the rest of the process table alone.  (Virtio.v has the handler on
    the driver's own state.) *)
Class DiskIntr := {
  virtio_disk_intr : K kstate unit;
  virtio_disk_intr_quiet : quiet virtio_disk_intr
}.

(** What the trampoline returns to user space with. *)
Record uret := URet { u_satp : Z; u_sepc : Z; u_sstatus : Z }.

(** Byte offsets in struct trapframe. *)
Definition TF_kernel_satp : Z := 0.
Definition TF_kernel_sp : Z := 8.
Definition TF_kernel_trap : Z := 16.
Definition TF_kernel_hartid : Z := 32.

Section trap.
Context `{I : KernelImage} `{DI : DiskIntr}.
(** The address of [usertrap]. *)
Variable usertrap_addr : Z.
(** What happens between a process's giving up the CPU and its next turn, and the
    registers it finds then, possibly on another hart. *)
Variable others : kstate -> option (trap * kstate).

Definition plic_claim (t : trap) : K kstate Z := kret (int32 (t_irq t)).

Definition clockintr (t : trap) : K kstate unit :=
  if t_hart t =? 0 then
    kmod (fun s => with_ticks (uint32 (k_ticks s + 1)) s) ;;;
    wakeup ChTicks
  else kret tt.

Definition devintr (t : trap) : K kstate Z :=
  if t_scause t =? CAUSE_EXTERNAL then
    irq <- plic_claim t ;;
    (if irq =? UART0_IRQ then uartintr (t_rx t)
     else if irq =? VIRTIO0_IRQ then virtio_disk_intr
     else if negb (irq =? 0) then kprint (cstr "unexpected interrupt irq=%d" ++ [10]) [uint64 irq]
     else kret tt) ;;;
    kret 1
  else if t_scause t =? CAUSE_TIMER then
    clockintr t ;;;
    kret 2
  else kret 0.

Definition usertrapret (t : trap) : K kstate uret :=
  p <- mine ;;
  let tf := p_trapframe p in
  tf_set tf TF_kernel_satp (t_satp t) ;;;
  tf_set tf TF_kernel_sp (uint64 (p_kstack p + PGSIZE)) ;;;
  tf_set tf TF_kernel_trap usertrap_addr ;;;
  tf_set tf TF_kernel_hartid (t_hart t) ;;;
  epc <- tf_get tf TF_epc ;;
  kret (URet (MAKE_SATP (p_pagetable p)) epc (Z.lor (Z.ldiff (t_sstatus t) SSTATUS_SPP) SSTATUS_SPIE)).

(** An interrupt, or an exception, of which the process dies. *)
Definition trap_other (t : trap) (me : nat) (p : proc) : K kstate Z :=
  w <- devintr t ;;
  if negb (w =? 0) then kret w
  else
    kprint (cstr "usertrap(): unexpected scause 0x%lx pid=%d" ++ [10]) [t_scause t; uint64 (p_pid p)] ;;;
    kprint (cstr "            sepc=0x%lx stval=0x%lx" ++ [10]) [t_sepc t; t_stval t] ;;;
    setkilled me ;;;
    kret 0.

(** Serving the trap; the result is [which_dev]. *)
Definition trap_service (t : trap) (me : nat) (p : proc) : K kstate Z :=
  if t_scause t =? CAUSE_SYSCALL then
    k <- killed me ;;
    (if k : bool then exit (-1) else kret tt) ;;;
    epc <- tf_get (p_trapframe p) TF_epc ;;
    tf_set (p_trapframe p) TF_epc (uint64 (epc + 4)) ;;;
    syscall ;;;
    kret 0
  else trap_other t me p.

Definition usertrap (t : trap) : K kstate uret :=
  if negb (Z.land (t_sstatus t) SSTATUS_SPP =? 0) then panic "usertrap: not from user mode"
  else
    me <- myproc ;;
    p <- mine ;;
    tf_set (p_trapframe p) TF_epc (t_sepc t) ;;;
    which_dev <- trap_service t me p ;;
    k <- killed me ;;
    (if k : bool then exit (-1) else kret tt) ;;;
    t' <- (if which_dev =? 2 then yield others else kret t) ;;
    usertrapret t'.

(** The registers kernelvec restores; [noproc] when no process runs. *)
Definition kerneltrap (noproc : bool) (t : trap) : K kstate (Z * Z) :=
  if Z.land (t_sstatus t) SSTATUS_SPP =? 0 then panic "kerneltrap: not from supervisor mode"
  else if negb (Z.land (t_sstatus t) SSTATUS_SIE =? 0) then panic "kerneltrap: interrupts enabled"
  else
    w <- devintr t ;;
    if w =? 0 then
      kprint (cstr "scause=0x%lx sepc=0x%lx stval=0x%lx" ++ [10]) [t_scause t; t_sepc t; t_stval t] ;;;
      panic "kerneltrap"
    else
      (if (w =? 2) && negb noproc then yield others else kret t) ;;;
      kret (t_sepc t, t_sstatus t).
End trap.

(** ** Code that does not return *)

Definition never {A} (c : K kstate A) : Prop := forall s, is_ret (c s) = false.

Lemma never_bind {A B} (c : K kstate A) (f : A -> K kstate B) : (forall a, never (f a)) -> never (kbind c f).
Proof. intros H s. unfold kbind. destruct (c s); try done. apply H. Qed.

Lemma never_sched {A} : never (sched (A := A)).
Proof. intros s. unfold sched. by case_decide. Qed.

Section safe.
Context `{I : KernelImage} `{DI : DiskIntr}.

Lemma never_exit status : never (exit status).
Proof.
  unfold exit. apply never_bind. intros me. apply never_bind. intros s. case_decide; [done|].
  repeat (apply never_bind; intros). apply never_sched.
Qed.

Lemma triple_never_bind {A B} P (c : K kstate A) (f : A -> K kstate B) Q Q' : never c -> triple P c Q -> triple P (kbind c f) Q'.
Proof. intros Hn H s Hs. specialize (H s Hs). specialize (Hn s). unfold kbind. by destruct (c s). Qed.

(** ** The handlers only wake processes up *)

#[local] Hint Resolve quiet_consputc : quiet.

Lemma quiet_kill_line n : quiet (kill_line n).
Proof. induction n; cbn [kill_line]; quiet_tac. Qed.
Lemma quiet_consoleintr c : quiet (consoleintr c).
Proof. pose proof quiet_kill_line. unfold consoleintr, cons_input. quiet_tac. Qed.
Lemma quiet_uartintr l : quiet (uartintr l).
Proof. pose proof quiet_consoleintr. pose proof quiet_uartstart. induction l; cbn [uartintr]; quiet_tac. Qed.

Lemma quiet_with_ticks n : quiet (kmod (fun s => with_ticks (n s) s)).
Proof. intros s. by apply evolves_same. Qed.

Lemma quiet_devintr t : quiet (devintr t).
Proof.
  pose proof quiet_uartintr. pose proof quiet_kprint. pose proof virtio_disk_intr_quiet. pose proof quiet_with_ticks.
  unfold devintr, plic_claim, clockintr. quiet_tac.
Qed.

(** [devintr] tells the kinds of trap apart. *)
Lemma devintr_kind t s w s' : devintr t s = Ret w s' ->
  w = 0 /\ t_scause t <> CAUSE_EXTERNAL /\ t_scause t <> CAUSE_TIMER \/ w = 1 /\ t_scause t = CAUSE_EXTERNAL \/ w = 2 /\ t_scause t = CAUSE_TIMER.
Proof.
  unfold devintr. destruct (Z.eqb_spec (t_scause t) CAUSE_EXTERNAL) as [E|E].
  { intros H. right. left. apply kbind_inv in H as (irq & s1 & _ & H). apply kbind_inv in H as ([] & s2 & _ & H). by injection H as <- _. }
  destruct (Z.eqb_spec (t_scause t) CAUSE_TIMER) as [E'|E'].
  { intros H. right. right. apply kbind_inv in H as ([] & s1 & _ & H). by injection H as <- _. }
  intros [= <- _]. by left.
Qed.

(** ** usertrap *)

Lemma evolves_killed s s' p : evolves s s' -> p_killed (getp s' p) = p_killed (getp s p).
Proof.
  intros [_ _ _ _ E5 E6]. destruct (decide (p = k_me s)) as [->|Hp]; [by destruct E6 as (_ & _ & -> & _)|].
  by destruct (E5 p Hp) as [->|[_ ->]].
Qed.

Definition flag (me : nat) (k : bool) (s : kstate) : Prop := p_killed (getp s me) = k.

Lemma flag_stable me k : stable (flag me k).
Proof. intros s s' Hf _ E. unfold flag. by rewrite (evolves_killed s s' me E). Qed.

(** What it means to be back in user space: the process runs, and the registers
    say user mode, interrupts on, its page table, and the program counter in
    its trapframe. *)
Definition back (u : uret) (s : kstate) : Prop :=
  ok s /\ Z.testbit (u_sstatus u) 8 = false /\ Z.testbit (u_sstatus u) 5 = true /\
  u_satp u = MAKE_SATP (p_pagetable (getp s (k_me s))) /\
  ld64 (km_mem (mem_of s)) (p_trapframe (getp s (k_me s)) + TF_epc) = u_sepc u.
Lemma tf_set_ret tf off v s : tf_set tf off v s = Ret tt (with_mem (Kmem (st64 (km_mem (mem_of s)) (tf + off) v) (km_freelist (mem_of s))) s).
Proof. by apply kmemop_ret. Qed.

Lemma tf_get_ret tf off s : tf_get tf off s = Ret (ld64 (km_mem (mem_of s)) (tf + off)) s.
Proof. unfold tf_get. rewrite (kmemop_ret _ s (ld64 (km_mem (mem_of s)) (tf + off)) (mem_of s)) by done. by rewrite with_mem_same. Qed.

Lemma user_sstatus x : Z.testbit (Z.lor (Z.ldiff x SSTATUS_SPP) SSTATUS_SPIE) 8 = false /\
  Z.testbit (Z.lor (Z.ldiff x SSTATUS_SPP) SSTATUS_SPIE) 5 = true.
Proof. rewrite !Z.lor_spec, !Z.ldiff_spec. split; [by rewrite andb_false_r|apply orb_true_r]. Qed.

(** [usertrapret] returns, and changes only the memory. *)
Lemma usertrapret_back a t s : ok s -> exists u s', usertrapret a t s = Ret u s' /\ back u s' /\
  k_me s' = k_me s /\ k_proc s' = k_proc s.
Proof.
  intros Hs. unfold usertrapret. rewrite (kbind_ret mine _ s (getp s (k_me s)) s eq_refl).
  do 4 rewrite (kbind_ret _ _ _ _ _ (tf_set_ret _ _ _ _)). rewrite (kbind_ret _ _ _ _ _ (tf_get_ret _ _ _)).
  unfold kret. do 2 eexists. split; [done|]. split; [|done]. unfold back. cbn [u_sstatus u_satp u_sepc]. destruct (user_sstatus (t_sstatus t)) as [-> ->].
  split; [|done]. eapply evolves_ok; [exact Hs|]. by apply evolves_same.
Qed.

(** The part of [usertrap] that serves the trap. *)
Definition served (t : trap) (me : nat) (b : bool) (w : Z) (s : kstate) : Prop :=
  ok s /\ (w = 0 /\ t_scause t = CAUSE_SYSCALL /\ b = false \/
           w = 0 /\ flag me true s \/
           w = 1 /\ t_scause t = CAUSE_EXTERNAL /\ flag me b s \/
           w = 2 /\ t_scause t = CAUSE_TIMER /\ flag me b s /\ k_me s = me).

Lemma trap_other_ok t me p b : triple (fun s => ok s /\ flag me b s /\ k_me s = me) (trap_other t me p) (served t me b).
Proof.
  assert (stable (fun s => flag me b s /\ k_me s = me)) as Hst.
  { intros s s' [H1 H2] Hok E. split; [by apply (flag_stable me b s s')|by rewrite (ev_me _ _ E)]. }
  assert (forall A (c : K kstate A), quiet c -> triple (fun s => ok s /\ flag me b s /\ k_me s = me) c (fun _ s => ok s /\ flag me b s /\ k_me s = me)) as Hq.
  { intros A c Hc. by apply triple_quiet. }
  unfold trap_other.
  eapply (triple_bind _ (fun w s => (ok s /\ flag me b s /\ k_me s = me) /\ (w = 0 \/ w = 1 /\ t_scause t = CAUSE_EXTERNAL \/ w = 2 /\ t_scause t = CAUSE_TIMER))).
  { intros s Hs. pose proof (Hq _ _ (quiet_devintr t) s Hs) as H. destruct (devintr t s) as [w s'| | |] eqn:E; try done. split; [done|].
    apply devintr_kind in E. tauto. }
  intros w. destruct (Z.eqb_spec w 0) as [->|Hw]; cbn [negb].
  - eapply triple_pre; [|intros s [Hs _]; exact Hs]. eapply triple_bind; [apply Hq, quiet_kprint|]. intros [].
    eapply triple_bind; [apply Hq, quiet_kprint|]. intros []. eapply (triple_bind _ (fun _ s => ok s /\ flag me true s)).
    + intros s (Hs & _ & Hm). split; [by apply tbl_set_killed|]. unfold flag. rewrite getp_setp_same; [done|]. rewrite <- Hm. by apply me_in, Hs.
    + intros [] s [Hs Hf]. split; [done|]. by right; left.
  - intros s [(Hs & Hf & Hm) Hk]. split; [done|]. destruct Hk as [?|[[? ?]|[? ?]]]; [done|by right; right; left|by right; right; right].
Qed.

Lemma trap_service_ok t me p b : triple (fun s => ok s /\ flag me b s /\ k_nextpid s < 2 ^ 31 - 1 /\ k_me s = me) (trap_service t me p) (served t me b).
Proof.
  intros s (Hs & Hf & Hn & Hm). unfold trap_service. destruct (Z.eqb_spec (t_scause t) CAUSE_SYSCALL) as [Hc|Hc].
  - rewrite (kbind_ret (killed me) _ s b s) by (unfold killed, pget, kbind, kret; by rewrite Hf). destruct b.
    { by apply (triple_never_bind ok (exit (-1)) _ (fun _ => ok)); [apply never_exit|apply exit_ok|]. }
    rewrite (kbind_ret (kret tt) _ s tt s eq_refl), (kbind_ret _ _ _ _ _ (tf_get_ret _ _ _)), (kbind_ret _ _ _ _ _ (tf_set_ret _ _ _ _)).
    set (s1 := with_mem _ s). assert (ok s1) as Hs1 by (eapply evolves_ok; [exact Hs|by apply evolves_same]).
    apply (triple_bind (fun s => ok s /\ k_nextpid s < 2 ^ 31 - 1) (fun _ => ok) _ syscall (fun _ => kret 0)); [apply syscall_ok| |done].
    intros [] s2 Hs2. split; [done|]. by left.
  - by apply trap_other_ok.
Qed.

(** ** Giving up the CPU *)

Lemma dispatch_ok p s s' : tbl_ok s -> dispatch p s = Some s' -> ok s' /\ k_me s' = p.
Proof.
  intros T. unfold dispatch. case_decide as E; [|done]. intros [= <-]. split; [|done].
  assert (p < length (k_proc s))%nat as Hin.
  { destruct (decide (p < length (k_proc s))%nat); [done|]. by rewrite getp_out in E by lia. }
  split.
  - assert (tbl_ok (setp s p (set_state RUNNING (getp s p)))) as T2 by (apply tbl_setp; try done; [by rewrite E|apply (tb_ofile s T)]).
    by destruct T2.
  - unfold running. change (p_state (getp (setp s p (set_state RUNNING (getp s p))) p) = RUNNING). by rewrite getp_setp_same.
Qed.

Section others.
Variable others : kstate -> option (trap * kstate).
(** The other processes leave the process table well formed. *)
Hypothesis Hothers : forall s r s', tbl_ok s -> others s = Some (r, s') -> tbl_ok s'.

(** The process is put back in the queue, the others run, and the scheduler
    makes it run again. *)
Definition resumed (me : nat) (s : kstate) (r : trap) (s' : kstate) : Prop :=
  exists s1, others (setp s me (set_state RUNNABLE (getp s me))) = Some (r, s1) /\ p_state (getp s1 me) = RUNNABLE /\
    s' = with_me me (setp s1 me (set_state RUNNING (getp s1 me))).

Lemma yield_ok s : ok s -> match yield others s with
  | Ret r s' => ok s' /\ k_me s' = k_me s /\ resumed (k_me s) s r s'
  | Sleep s' => tbl_ok s'
  | Panic _ | Diverge => False
  end.
Proof.
  intros [T Hr]. pose proof (me_in s Hr) as Hin. unfold running in Hr. unfold yield, kbind, pmine, pmod, sched_until.
  set (s0 := setp s _ _). change (k_me s0) with (k_me s).
  assert (tbl_ok s0) as T0 by (apply tbl_setp; try done; [by rewrite Hr|apply (tb_ofile s T)]).
  rewrite decide_False by (unfold s0; by rewrite getp_setp_same). destruct (others s0) as [[r s1]|] eqn:E; [|done].
  pose proof (Hothers _ _ _ T0 E) as T1. destruct (dispatch (k_me s) s1) as [s2|] eqn:E1; [|done].
  destruct (dispatch_ok _ _ _ T1 E1) as [Hs2 Hm2]. split; [done|]. split; [done|]. exists s1. split; [done|].
  unfold dispatch in E1. case_decide; [|done]. by injection E1 as <-.
Qed.

(** How a trap comes back to user space: at once, or after its turn of other
    processes. *)
Definition returned (t : trap) (me : nat) (b : bool) (u : uret) (s' : kstate) : Prop :=
  back u s' /\ b = false /\
  ((t_scause t = CAUSE_SYSCALL \/ t_scause t = CAUSE_EXTERNAL) /\ p_killed (getp s' me) = false \/
   t_scause t = CAUSE_TIMER /\ k_me s' = me /\
   exists s1 r s2, running s1 /\ p_killed (getp s1 me) = false /\ resumed me s1 r s2 /\ getp s' me = getp s2 me).

Lemma trap_return addr t me b w : triple (served t me b w)
  (k <- killed me ;; (if k : bool then exit (-1) else kret tt) ;;; t' <- (if w =? 2 then yield others else kret t) ;; usertrapret addr t')
  (returned t me b).
Proof.
  intros s [Hs Hsv]. rewrite (kbind_ret (killed me) _ s (p_killed (getp s me)) s eq_refl). destruct (p_killed (getp s me)) eqn:Hk.
  { by apply (triple_never_bind ok (exit (-1)) _ (fun _ => ok)); [apply never_exit|apply exit_ok|]. }
  rewrite (kbind_ret (kret tt) _ s tt s eq_refl). unfold flag in Hsv. rewrite Hk in Hsv. destruct (Z.eqb_spec w 2) as [->|Hw].
  - destruct Hsv as [(? & _)|[(? & _)|[(? & _)|(_ & Hc & <- & Hm)]]]; try done. pose proof (yield_ok s Hs) as Hy. unfold kbind.
    destruct (yield others s) as [r s2|m|s2|]; [|done|exact Hy|done]. destruct Hy as (Hs2 & Hm2 & Hy). rewrite Hm in Hy, Hm2.
    destruct (usertrapret_back addr r s2 Hs2) as (u & s' & -> & Hb & Hm' & Hp'). split; [done|]. split; [done|]. right.
    split; [done|]. split; [congruence|]. exists s, r, s2. split; [apply Hs|]. split; [done|]. split; [done|]. unfold getp. by rewrite Hp'.
  - rewrite (kbind_ret (kret t) _ s t s eq_refl). destruct (usertrapret_back addr t s Hs) as (u & s' & -> & Hb & Hm' & Hp').
    assert (p_killed (getp s' me) = false) as Hk' by (unfold getp; rewrite Hp'; exact Hk). unfold returned.
    destruct Hsv as [(_ & ? & ?)|[[_ ?]|[(_ & ? & <-)|[? _]]]]; try done; (split; [done|]; split; [done|]; left; auto).
Qed.
Lemma usertrap_ok addr t s : tbl_ok s -> running s -> k_nextpid s < 2 ^ 31 - 1 ->
  match usertrap addr others t s with
  | Ret u s' => returned t (k_me s) (p_killed (getp s (k_me s))) u s'
  | Sleep s' => tbl_ok s'
  | Panic _ | Diverge => True
  end.
Proof.
  intros T Hr Hn. unfold usertrap. destruct (negb _); [done|]. set (me := k_me s). set (b := p_killed (getp s me)).
  rewrite (kbind_ret myproc _ s me s eq_refl), (kbind_ret mine _ s (getp s me) s eq_refl), (kbind_ret _ _ _ _ _ (tf_set_ret _ _ _ _)).
  set (s1 := with_mem _ s). assert (ok s1) as Hs1 by (eapply evolves_ok; [by split|by apply evolves_same]).
  apply (triple_bind (fun s => ok s /\ flag me b s /\ k_nextpid s < 2 ^ 31 - 1 /\ k_me s = me) (served t me b)
    (returned t me b)); [apply trap_service_ok| |done].
  intros w. apply trap_return.
Qed.
End others.

(** An instance: processes that run in turn, each from one trap of theirs to the
    next, before the scheduler comes back to the process. *)
Fixpoint turns (addr : Z) (l : list (nat * trap)) (r : trap) (s : kstate) : option (trap * kstate) :=
  match l with
  | [] => Some (r, s)
  | (q, t) :: l' =>
      match dispatch q s with
      | None => turns addr l' r s
      | Some s1 =>
          if k_nextpid s1 <? 2 ^ 31 - 1 then
            match usertrap addr (fun _ => None) t s1 with
            | Ret _ s2 | Sleep s2 => turns addr l' r s2
            | Panic _ | Diverge => None
            end
          else None
      end
  end.

Lemma turns_ok addr l r : forall s r' s', tbl_ok s -> turns addr l r s = Some (r', s') -> tbl_ok s'.
Proof.
  induction l as [|[q t] l IH]; intros s r' s' T; cbn [turns]; [by intros [= _ <-]|].
  destruct (dispatch q s) as [s1|] eqn:E; [|by apply IH]. destruct (dispatch_ok _ _ _ T E) as [[T1 Hr1] _].
  destruct (Z.ltb_spec (k_nextpid s1) (2 ^ 31 - 1)) as [Hn|Hn]; [|done].
  pose proof (usertrap_ok (fun _ => None) ltac:(done) addr t s1 T1 Hr1 Hn) as H.
  destruct (usertrap addr _ t s1) as [u s2| |s2|]; try done; apply IH; [apply H|done].
Qed.

(** C17: a trap from user space leaves the process table well formed, whatever
    its cause.  It returns to user space only from a system call, a device
    interrupt or a timer interrupt, only if the process was not killed before,
    in user mode with interrupts on, with the process's own page table and at
    the program counter of its trapframe; an exception never returns.  After a
    system call or a device interrupt the process is not killed.  After a timer
    interrupt it returns when the scheduler has chosen it again: it was
    running and not killed when it gave up the CPU, it was RUNNABLE when the
    scheduler came to it, and it is returned to user space as the scheduler
    found it, killed in the meantime or not.  (What other processes do while
    it waits is arbitrary, as long as they leave the table well formed; the
    pid counter is an int that has not overflowed.) *)
Theorem usertrap_safe addr others t s (T : tbl_ok s) (Hr : running s) (Hn : k_nextpid s < 2 ^ 31 - 1)
    (Ho : forall s r s', tbl_ok s -> others s = Some (r, s') -> tbl_ok s') :
  match usertrap addr others t s with
  | Ret u s' => returned others t (k_me s) (p_killed (getp s (k_me s))) u s'
  | Sleep s' => tbl_ok s'
  | Panic _ | Diverge => True
  end.
Proof. by apply usertrap_ok. Qed.

(** A trap from the kernel returns only from an interrupt, to where it came
    from. *)
Lemma kerneltrap_ok others noproc t : (forall s r s', tbl_ok s -> others s = Some (r, s') -> tbl_ok s') ->
  triple ok (kerneltrap others noproc t)
    (fun r s => ok s /\ r = (t_sepc t, t_sstatus t) /\ (t_scause t = CAUSE_EXTERNAL \/ t_scause t = CAUSE_TIMER)).
Proof.
  intros Ho. unfold kerneltrap. destruct (Z.land _ _ =? 0); [by intros s ?|]. destruct (negb _); [by intros s ?|].
  eapply (triple_bind _ (fun w s => ok s /\ (w = 0 \/ w = 1 /\ t_scause t = CAUSE_EXTERNAL \/ w = 2 /\ t_scause t = CAUSE_TIMER))).
  { intros s Hs. pose proof (triple_quiet_ok _ (quiet_devintr t) s Hs) as H. destruct (devintr t s) as [w s'| | |] eqn:E; try done.
    split; [done|]. apply devintr_kind in E. tauto. }
  intros w s [Hs Hk]. destruct (Z.eqb_spec w 0) as [->|Hw].
  { apply (triple_bind ok (fun _ => ok)); [apply triple_quiet_ok, quiet_kprint|by intros [] ? ?|done]. }
  assert (t_scause t = CAUSE_EXTERNAL \/ t_scause t = CAUSE_TIMER) as Hc by tauto.
  destruct ((w =? 2) && negb noproc); [|by split].
  unfold kbind. pose proof (yield_ok others Ho s Hs) as Hy. destruct (yield others s); try done. by destruct Hy.
Qed.
End safe.

(** ** An instance *)

(** The disk's handler wakes up the processes that wait for a buffer. *)
#[export] Instance disk_intr_wakes : DiskIntr := {| virtio_disk_intr := wakeup ChFs; virtio_disk_intr_quiet := quiet_wakeup ChFs |}.

(** The process of the example machine calls getpid from address 4096; the timer
    interrupts it there. *)
Definition trap_getpid : trap := Trap CAUSE_SYSCALL 4096 0 0 0 0 [] 0.
Definition trap_timer : trap := Trap CAUSE_TIMER 4096 0 0 0 0 [] 0.

(** While it waits, it is killed; then it is chosen again, on hart 1. *)
Definition others_kill (s : kstate) : option (trap * kstate) :=
  Some (Trap 0 0 0 0 0 0 [] 1, setp s 0 (set_killed true (getp s 0))).

Lemma others_kill_ok s r s' : tbl_ok s -> others_kill s = Some (r, s') -> tbl_ok s'.
Proof. intros T [= _ <-]. by apply tbl_killed. Qed.

Lemma usertrap_safe_witness :
  (exists u s', @usertrap image0 disk_intr_wakes 0x80002000 others_kill trap_getpid kstate0 = Ret u s' /\
     u_sepc u = 4100 /\ back u s' /\ p_killed (getp s' 0) = false) /\
  (exists u s', @usertrap image0 disk_intr_wakes 0x80002000 others_kill trap_timer kstate0 = Ret u s' /\
     u_sepc u = 4096 /\ back u s' /\ p_killed (getp s' 0) = true).
Proof.
  split.
  - assert (match @usertrap image0 disk_intr_wakes 0x80002000 others_kill trap_getpid kstate0 with Ret u _ => u_sepc u | _ => 0 end = 4100) as Hv
      by (vm_compute; reflexivity).
    pose proof (@usertrap_safe image0 disk_intr_wakes 0x80002000 others_kill trap_getpid kstate0 kstate0_ok eq_refl eq_refl others_kill_ok) as H.
    destruct (@usertrap image0 disk_intr_wakes 0x80002000 others_kill trap_getpid kstate0) as [u s'| | |]; try discriminate Hv.
    exists u, s'. split; [reflexivity|]. split; [exact Hv|]. split; [apply H|]. destruct H as (_ & _ & [[_ H]|[H _]]); [exact H|discriminate H].
  - assert (match @usertrap image0 disk_intr_wakes 0x80002000 others_kill trap_timer kstate0 with Ret u s' => (u_sepc u, p_killed (getp s' 0)) | _ => (0, false) end = (4096, true)) as Hv
      by (vm_compute; reflexivity).
    pose proof (@usertrap_safe image0 disk_intr_wakes 0x80002000 others_kill trap_timer kstate0 kstate0_ok eq_refl eq_refl others_kill_ok) as H.
    destruct (@usertrap image0 disk_intr_wakes 0x80002000 others_kill trap_timer kstate0) as [u s'| | |]; try discriminate Hv.
    exists u, s'. split; [reflexivity|]. injection Hv as H1 H2. split; [exact H1|]. split; [apply H|exact H2].
Defined.
