(* ===== verification/Boot.v ===== *)
(** * Booting (kernel/start.c, kernel/main.c)

    From the reset of the machine to the first process: [start] in machine
    mode, [main] with the initialisation of the devices, of memory, of the
    kernel's page table and of its tables, the first process, and the
    scheduler's first choice. *)

From S2P Require Import Prelude Memory KString Ulib Printf Kalloc KallocSpec Vm VmSpec VmMap VmCopy VmUser VmGrow VmAlloc VmLife VmKernel Sleeplock Bio Virtio Bytes Log Fs FsFile Ring KState Machine Pipe Console File Proc Syscall Sysfile Exec Quiet ProcInv FileRefs Trap.

(** ** The memory of a new process

    [proc_pagetable] and [uvmfirst], the parts of [allocproc] and [userinit]
    that build an address space: with enough free pages they succeed, and
    leave a well-formed address space with the trampoline, the trapframe and
    the first program. *)

Section vm.
Context `{I : KernelImage} `{Ok : !KernelImageOk I}.

(** ** Mapping one page *)

Lemma mappages_one s root va pa perm F :
  free_pages s F -> pt_wf (km_mem s) root F -> va mod PGSIZE = 0 -> 0 <= va -> va + PGSIZE <= MAXVA ->
  0 <= pa -> pa + PGSIZE <= 2 ^ 56 -> 0 <= perm < 1024 -> has (pte_of (km_mem s) root va) PTE_V = false -> (2 <= length F)%nat ->
  exists s' used F', mappages root va PGSIZE pa perm s = Ret 0 s' /\ pt_step s s' root F used F' /\ (length used <= 2)%nat /\
    (forall va', 0 <= va' < MAXVA -> pte_of (km_mem s') root va' =
       if decide (va' / PGSIZE = va / PGSIZE) then mk_pte pa perm else pte_of (km_mem s) root va').
Proof.
  intros Hf Hwf Hal Hva Hmax Hpa Hpa' Hperm HV Hlen.
  destruct (mappages_ok s root va PGSIZE pa perm F) as (r & s' & used & F' & k & Hm & Hst & Hp & Hu & Hr); try done.
  { intros va' Hin. rewrite (pte_of_page _ _ va' va); [done|]. unfold in_range, PGSIZE in *. Z.div_mod_to_equations. lia. }
  change (PGSIZE / PGSIZE) with 1 in *. destruct Hr as [[-> ->]|(_ & _ & _ & ?)]; [|lia]. exists s', used, F'.
  split; [done|]. split; [done|]. split; [lia|]. intros va' Hva'. rewrite Hp by done. unfold map_range, in_range, PGSIZE in *.
  repeat case_decide; try done; try (exfalso; Z.div_mod_to_equations; lia). f_equal. Z.div_mod_to_equations. lia.
Qed.

(** ** proc_pagetable *)

(** An address space with only the trampoline and the trapframe. *)
Definition bare_pte (tf va : Z) : Z :=
  if decide (va / PGSIZE = TRAPFRAME / PGSIZE) then mk_pte tf (Z.lor PTE_R PTE_W)
  else if decide (va / PGSIZE = TRAMPOLINE / PGSIZE) then mk_pte trampoline (Z.lor PTE_R PTE_X) else 0.

Lemma bare_as m root F tf : pt_wf m root F -> ram_page tf -> (forall va, 0 <= va < MAXVA -> pte_of m root va = bare_pte tf va) -> as_wf m root F.
Proof.
  intros Hwf Htf Hp. assert (0 <= trampoline < 2 ^ 56) as Htr.
  { pose proof trampoline_range. pose proof etext_range. pose proof kernel_end_range. unfold KERNBASE, PHYSTOP, KERNBASE in *. lia. }
  assert (forall va, 0 <= va < TRAPFRAME -> pte_of m root va = 0) as Hlow.
  { intros va Hva. rewrite Hp by (unfold TRAPFRAME, TRAMPOLINE, PGSIZE in *; lia). unfold bare_pte.
    rewrite !decide_False by (unfold TRAPFRAME, TRAMPOLINE, PGSIZE in *; rewrite MAXVA_eq in *; Z.div_mod_to_equations; lia). done. }
  split; [done| |intros va Hva; by rewrite Hlow|intros va Hva; by rewrite Hlow|intros va va' Hva Hva'; by rewrite Hlow].
  intros va Hva. rewrite Hp by (unfold TRAPFRAME, TRAMPOLINE, PGSIZE in *; rewrite MAXVA_eq in *; lia). unfold readable, bare_pte.
  apply andb_false_iff. right. repeat case_decide; [| |done].
  - rewrite mk_pte_lor. apply has_pte; [by apply ram_page_56|done|done].
  - rewrite mk_pte_lor. apply has_pte; done.
Qed.

(** This is the page table of a child that [uvmcopy] could not fill, and
    [proc_freepagetable] frees it. *)
Lemma bare_frame_only m root tf : ram_page tf -> (forall va, 0 <= va < MAXVA -> pte_of m root va = bare_pte tf va) -> frame_only m root.
Proof.
  intros Htf Hp va Hva. assert (0 <= trampoline < 2 ^ 56) as Htr.
  { pose proof trampoline_range. pose proof etext_range. pose proof kernel_end_range. unfold KERNBASE, PHYSTOP, KERNBASE in *. lia. }
  rewrite Hp by done. unfold bare_pte. case_decide.
  - destruct (decide (va / PGSIZE = TRAPFRAME / PGSIZE)) as [E|E].
    + rewrite mk_pte_V, PTE_FLAGS_mk by (done || by apply ram_page_56). done.
    + rewrite decide_True by (unfold TRAPFRAME, TRAMPOLINE, PGSIZE in *; rewrite MAXVA_eq in *; Z.div_mod_to_equations; lia).
      rewrite mk_pte_V, PTE_FLAGS_mk by done. done.
  - rewrite !decide_False by (unfold TRAPFRAME, TRAMPOLINE, PGSIZE in *; rewrite MAXVA_eq in *; Z.div_mod_to_equations; lia). done.
Qed.

Lemma proc_freepagetable_unfilled root : proc_freepagetable root 0 = free_unfilled root.
Proof. done. Qed.

Lemma proc_pagetable_ok s F tf : free_pages s F -> ram_page tf -> (5 <= length F)%nat ->
  exists root s' F', proc_pagetable tf s = Ret root s' /\ 0 < root /\ free_pages s' F' /\ (length F <= 5 + length F')%nat /\ F' ⊆ F /\
    as_wf (km_mem s') root F' /\ (forall p, tree_page (km_mem s') root p -> p ∈ F) /\
    (forall va, 0 <= va < MAXVA -> pte_of (km_mem s') root va = bare_pte tf va) /\
    (forall b, (forall p, p ∈ F -> ~ in_page p b) -> ld8 (km_mem s') b = ld8 (km_mem s) b).
Proof.
  intros Hf Htf Hlen. destruct (uvmcreate_ok s F Hf) as [[-> _]|(root & F1 & s1 & -> & Hr0 & Hu & Hf1 & Hwf & Hpte & Hown & Hfr)]; [cbn in Hlen; lia|].
  cbn [length] in Hlen. pose proof trampoline_range. pose proof etext_range. pose proof kernel_end_range. pose proof trampoline_aligned.
  destruct (mappages_one s1 root TRAMPOLINE trampoline (Z.lor PTE_R PTE_X) F1) as (s2 & u1 & F2 & Hm1 & Hst1 & Hl1 & Hp1);
    [done|apply Hwf|done|done|done|unfold KERNBASE in *; lia|unfold PHYSTOP, KERNBASE, PGSIZE in *; lia|done|by rewrite Hpte|lia|].
  pose proof (f_equal length (ps_used _ _ _ _ _ _ Hst1)) as E1. rewrite length_app in E1.
  pose proof (ram_page_pos tf Htf). pose proof (ram_page_bound tf Htf).
  destruct (mappages_one s2 root TRAPFRAME tf (Z.lor PTE_R PTE_W) F2) as (s3 & u2 & F3 & Hm2 & Hst2 & Hl2 & Hp2);
    [apply Hst1|apply Hst1|done|done|done|lia|unfold PHYSTOP, KERNBASE in *; lia|done| |lia|].
  { rewrite Hp1 by done. rewrite decide_False by done. by rewrite Hpte. }
  pose proof (f_equal length (ps_used _ _ _ _ _ _ Hst2)) as E2. rewrite length_app in E2.
  pose proof (pt_step_trans _ _ _ _ _ _ _ _ _ Hst1 Hst2) as Hst.
  assert (forall va, 0 <= va < MAXVA -> pte_of (km_mem s3) root va = bare_pte tf va) as Hp.
  { intros va Hva. rewrite Hp2, Hp1, Hpte by done. done. }
  exists root, s3, F3. split.
  { unfold proc_pagetable. rewrite (kbind_ret _ _ _ _ _ Hu), (proj2 (Z.eqb_neq root 0)) by lia.
    rewrite (kbind_ret _ _ _ _ _ Hm1). change (0 <? 0) with false. cbv iota. by rewrite (kbind_ret _ _ _ _ _ Hm2). }
  split; [done|]. split; [apply Hst|]. split; [cbn [length]; lia|]. pose proof (ps_used _ _ _ _ _ _ Hst) as EF.
  split; [intros p Hp'; right; rewrite EF; apply elem_of_app; by right|]. split; [by eapply bare_as; [apply Hst| |]|].
  split; [|split; [done|]].
  - intros p Ht. destruct (ps_tree _ _ _ _ _ _ Hst p Ht) as [Ht'|Hu']; [|right; rewrite EF; apply elem_of_app; by left].
    assert (p = root) as -> by (apply Hown; by left). by left.
  - intros b Hb. rewrite (ps_frame _ _ _ _ _ _ Hst b); [apply Hfr, Hb; by left| |].
    + intros p Ht. assert (p = root) as -> by (apply Hown; by left). apply Hb. by left.
    + intros p Hp'. apply Hb. right. rewrite EF. apply elem_of_app. by left.
Qed.

(** ** uvmfirst *)

(** Writing to a page of the process. *)
Lemma as_step_write s root F va m' : free_pages s F -> as_wf (km_mem s) root F -> 0 <= va < TRAPFRAME -> has (pte_of (km_mem s) root va) PTE_V = true ->
  (forall b, ~ in_page (PTE2PA (pte_of (km_mem s) root va)) b -> ld8 m' b = ld8 (km_mem s) b) ->
  as_step s (Kmem m' (km_freelist s)) root F F /\ (forall va', pte_of m' root va' = pte_of (km_mem s) root va').
Proof.
  intros Hf Hwf Hva HV Hm. set (x := PTE2PA _) in *. destruct (as_data _ _ _ Hwf va Hva HV) as (Hx & HxF & Hxt). fold x in Hx, HxF, Hxt.
  assert (forall p b, tree_page (km_mem s) root p -> in_page p b -> ld8 m' b = ld8 (km_mem s) b) as Hfr.
  { intros p b Hp Hb. apply Hm. destruct (tree_ram _ _ _ _ (as_tree _ _ _ Hwf) Hp) as [Hpr _]. eapply page_apart; [exact Hpr|done| |done]. by intros ->. }
  destruct (pt_wf_frame _ m' _ _ (as_tree _ _ _ Hwf) Hfr) as [_ Ht].
  assert (forall va', pte_of m' root va' = pte_of (km_mem s) root va') as Hp by (intros va'; eapply pte_of_frame; [apply Hwf|done]).
  split; [|done]. split; cbn [km_mem].
  - apply free_pages_ext; [|done]. intros p b Hp' Hb. apply Hm. pose proof (free_ram s F p Hf Hp') as Hpr. eapply page_apart; [exact Hpr|done| |done]. by intros ->.
  - by eapply as_wf_frame.
  - intros p. unfold owns. rewrite Ht. by setoid_rewrite Hp.
  - intros b Hb. apply Hm. apply Hb. right. right. by exists va.
Qed.

Definition first_perm : Z := Z.lor (Z.lor (Z.lor PTE_W PTE_R) PTE_X) PTE_U.

Lemma uvmfirst_ok s root F src : free_pages s F -> as_wf (km_mem s) root F -> (3 <= length F)%nat -> Z.of_nat (length src) < PGSIZE ->
  Forall (fun b => 0 <= b < 256) src -> has (pte_of (km_mem s) root 0) PTE_V = false ->
  exists x s' F', uvmfirst root src s = Ret tt s' /\ as_step s s' root F F' /\ (length F <= 3 + length F')%nat /\ ram_page x /\ x ∈ F /\
    (forall va, 0 <= va < MAXVA -> pte_of (km_mem s') root va = if decide (va / PGSIZE = 0) then mk_pte x first_perm else pte_of (km_mem s) root va) /\
    (forall i, 0 <= i < PGSIZE -> ld8 (km_mem s') (x + i) = default 0 (src !! Z.to_nat i)).
Proof.
  intros Hf Hwf Hlen Hsrc Hbytes HV. assert (0 <= 0 < MAXVA) as Hz by done. assert (0 <= 0 < TRAPFRAME) as Hz' by done.
  assert (0 <= first_perm < 1024) as Hfp by done. destruct F as [|x F]; [cbn in Hlen; lia|]. cbn [length] in Hlen.
  destruct (grow_page s root x F 0 first_perm (fun m => memset m x 0 PGSIZE)) as (s1 & r & s3 & Ha & Hx0 & Hs1 & Hm & Hr);
    [exact Hf|exact Hwf|intros m b Hb; apply ld8_memset_out; unfold in_page in Hb; lia|reflexivity|by vm_compute|by vm_compute|by vm_compute|exact HV|].
  destruct Hr as [(-> & (F' & Hst & Hl) & Hp & Hdata & _)|(_ & ? & _)]; [|lia].
  assert (has (pte_of (km_mem s3) root 0) PTE_V = true) as HV3 by (rewrite (Hp 0 Hz), decide_True by reflexivity; apply mk_pte_V).
  destruct (free_pages_head _ _ _ Hf) as (_ & Hx & _).
  assert (PTE2PA (pte_of (km_mem s3) root 0) = x) as Hpa.
  { rewrite (Hp 0 Hz), decide_True by reflexivity. apply mk_pte_PA; [exact (ram_page_aligned x Hx)|exact (ram_page_56 x Hx)|exact Hfp]. }
  destruct (as_step_write s3 root F' 0 (write_bytes (km_mem s3) x src) (st_free _ _ _ _ _ Hst) (st_wf _ _ _ _ _ Hst)) as [Hst' Hp'];
    [exact Hz'|exact HV3|rewrite Hpa; intros b Hb; apply ld8_write_bytes_other; unfold in_page in Hb; lia|].
  exists x, (Kmem (write_bytes (km_mem s3) x src) (km_freelist s3)), F'. split.
  { unfold uvmfirst. rewrite (proj2 (Z.leb_gt _ _) Hsrc). rewrite (kbind_ret _ _ _ _ _ Ha). unfold kbind at 1, kmemset.
    rewrite (kbind_ret _ _ _ _ _ Hm). reflexivity. }
  clear Ha Hm. split; [by eapply as_step_trans|]. split; [cbn [length]; lia|]. split; [done|]. split; [by left|]. split.
  - intros va Hva. cbn [km_mem]. rewrite Hp', Hp by done. done.
  - intros i Hi. cbn [km_mem]. destruct (src !! Z.to_nat i) as [c|] eqn:Ec.
    + replace (x + i) with (x + Z.of_nat (Z.to_nat i)) by lia. rewrite (ld8_write_bytes_in _ _ _ _ _ Ec). apply uint8_small. by eapply Forall_lookup_1 in Hbytes.
    + apply lookup_ge_None_1 in Ec. rewrite ld8_write_bytes_other by lia. rewrite Hdata by (unfold in_page; lia). apply ld8_memset_in. lia.
Qed.

(** ** Pages in use *)

(** Only pages of [B] are written. *)
Definition within (B : list Z) (s s' : kmem) : Prop := forall b, (forall p, p ∈ B -> ~ in_page p b) -> ld8 (km_mem s') b = ld8 (km_mem s) b.

Lemma within_trans B s1 s2 s3 : within B s1 s2 -> within B s2 s3 -> within B s1 s3.
Proof. intros H1 H2 b Hb. by rewrite H2, H1. Qed.

Lemma within_page B s x m' : x ∈ B -> (forall b, ~ in_page x b -> ld8 m' b = ld8 (km_mem s) b) -> within B s (Kmem m' (km_freelist s)).
Proof. intros Hx Hm b Hb. apply Hm. by apply Hb. Qed.

Lemma free_pages_write s F x m' : free_pages s F -> ram_page x -> x ∉ F -> (forall b, ~ in_page x b -> ld8 m' b = ld8 (km_mem s) b) ->
  free_pages (Kmem m' (km_freelist s)) F.
Proof.
  intros Hf Hx HxF Hm. apply free_pages_ext; [|done]. intros p b Hp Hb. apply Hm. eapply page_apart; [by eapply free_ram|done| |done]. by intros ->.
Qed.

Lemma kalloc_take s F B : free_pages s F -> F ⊆ B -> (1 <= length F)%nat -> exists x F' s', F = x :: F' /\ kalloc s = Ret x s' /\ 0 < x /\ ram_page x /\ (x ∉ F') /\
  free_pages s' F' /\ within B s s'.
Proof.
  intros Hf HB Hl. destruct F as [|x F]; [cbn in Hl; lia|]. destruct (kalloc_some s x F Hf) as [Hk Hf']. destruct (free_pages_head s x F Hf) as (_ & Hx & HxF).
  exists x, F. eexists. split; [done|]. split; [exact Hk|]. split; [by apply ram_page_pos|]. split; [done|]. split; [done|]. split; [done|].
  intros b Hb. cbn [km_mem]. apply ld8_memset_out. assert (~ in_page x b) as H by (apply Hb, HB; left). unfold in_page in H. lia.
Qed.

(** ** The pages of the disk's queue *)

Lemma memset_within s F x B : free_pages s F -> ram_page x -> x ∉ F -> x ∈ B ->
  exists s', kmemset x 0 PGSIZE s = Ret tt s' /\ free_pages s' F /\ within B s s'.
Proof.
  intros Hf Hx HxF HxB. assert (forall b, ~ in_page x b -> ld8 (memset (km_mem s) x 0 PGSIZE) b = ld8 (km_mem s) b) as Hm
    by (intros b Hb; apply ld8_memset_out; unfold in_page in Hb; lia).
  eexists. split; [reflexivity|]. split; [by eapply free_pages_write|by eapply within_page].
Qed.

Lemma queue_ok s F : free_pages s F -> (3 <= length F)%nat -> exists desc avail used F' s1 s2 s3 s4,
  kalloc s = Ret desc s1 /\ kalloc s1 = Ret avail s2 /\ kalloc s2 = Ret used s3 /\ 0 < desc /\ 0 < avail /\ 0 < used /\
  (kmemset desc 0 PGSIZE ;;; kmemset avail 0 PGSIZE ;;; kmemset used 0 PGSIZE) s3 = Ret tt s4 /\
  F = desc :: avail :: used :: F' /\ free_pages s4 F' /\ within F s s4.
Proof.
  intros Hf Hl. destruct (kalloc_take s F F Hf ltac:(done) ltac:(lia)) as (x & F1 & s1 & E1 & K1 & P1 & R1 & N1 & Hf1 & W1).
  destruct (kalloc_take s1 F1 F Hf1 ltac:(subst F; set_solver) ltac:(subst F; cbn in Hl; lia)) as (y & F2 & s2 & E2 & K2 & P2 & R2 & N2 & Hf2 & W2).
  destruct (kalloc_take s2 F2 F Hf2 ltac:(subst; set_solver) ltac:(subst; cbn in Hl; lia)) as (z & F3 & s3 & E3 & K3 & P3 & R3 & N3 & Hf3 & W3).
  destruct (memset_within s3 F3 x F Hf3 R1 ltac:(subst; set_solver) ltac:(subst; set_solver)) as (s4 & M4 & Hf4 & W4).
  destruct (memset_within s4 F3 y F Hf4 R2 ltac:(subst; set_solver) ltac:(subst; set_solver)) as (s5 & M5 & Hf5 & W5).
  destruct (memset_within s5 F3 z F Hf5 R3 ltac:(subst; set_solver) ltac:(subst; set_solver)) as (s6 & M6 & Hf6 & W6).
  exists x, y, z, F3, s1, s2, s3, s6. split_and!; [exact K1|exact K2|exact K3|exact P1|exact P2|exact P3| |congruence|exact Hf6|].
  { rewrite (kbind_ret _ _ _ _ _ M4), (kbind_ret _ _ _ _ _ M5). exact M6. }
  exact (within_trans _ _ _ _ W1 (within_trans _ _ _ _ W2 (within_trans _ _ _ _ W3 (within_trans _ _ _ _ W4 (within_trans _ _ _ _ W5 W6))))).
Qed.

(** ** The memory of the first process *)

Definition first_pte (x tf va : Z) : Z := if decide (va / PGSIZE = 0) then mk_pte x first_perm else bare_pte tf va.

Lemma initcode_bytes : Forall (fun b => 0 <= b < 256) initcode.
Proof. repeat constructor; lia. Qed.

Record first_memory (s s' : kmem) (F F' : list Z) (pt tf : Z) : Prop := {
  fm_free : free_pages s' F';
  fm_sub : F' ⊆ F;
  fm_within : within F s s';
  fm_as : as_wf (km_mem s') pt F';
  fm_code : exists x, ram_page x /\ (forall va, 0 <= va < MAXVA -> pte_of (km_mem s') pt va = first_pte x tf va) /\
    forall i, 0 <= i < PGSIZE -> ld8 (km_mem s') (x + i) = default 0 (initcode !! Z.to_nat i);
  fm_epc : ld64 (km_mem s') (tf + TF_epc) = 0;
  fm_sp : ld64 (km_mem s') (tf + TF_sp) = PGSIZE
}.

Lemma first_memory_ok s F : free_pages s F -> (9 <= length F)%nat -> exists tf pt s1 s2 s3 F',
  kalloc s = Ret tf s1 /\ 0 < tf /\ proc_pagetable tf s1 = Ret pt s2 /\ 0 < pt /\ uvmfirst pt initcode s2 = Ret tt s3 /\
  first_memory s (Kmem (st64 (st64 (km_mem s3) (tf + TF_epc) 0) (tf + TF_sp) PGSIZE) (km_freelist s3)) F F' pt tf.
Proof.
  intros Hf Hl. destruct (kalloc_take s F F Hf ltac:(done) ltac:(lia)) as (tf & F1 & s1 & E1 & K1 & P1 & R1 & N1 & Hf1 & W1).
  destruct (proc_pagetable_ok s1 F1 tf Hf1 R1 ltac:(subst F; cbn in Hl; lia)) as (pt & s2 & F2 & K2 & P2 & Hf2 & L2 & S2 & A2 & T2 & PT2 & W2).
  destruct (uvmfirst_ok s2 pt F2 initcode Hf2 A2) as (x & s3 & F3 & K3 & St & L3 & R3 & X3 & PT3 & D3);
    [subst F; cbn [length] in Hl; lia|done|apply initcode_bytes|by rewrite PT2|].
  exists tf, pt, s1, s2, s3, F3. split; [exact K1|]. split; [done|]. split; [exact K2|]. split; [done|]. split; [exact K3|]. clear K1 K2 K3.
  assert (forall p, p ∈ F3 \/ owns (km_mem s3) pt p -> p ∈ F1) as Hown.
  { intros p Hp. apply (st_own _ _ _ _ _ St) in Hp as [Hp|[Hp|(va & Hva & HV & _)]]; [by apply S2|by apply T2|]. exfalso.
    rewrite PT2 in HV by (unfold TRAPFRAME, TRAMPOLINE, PGSIZE in *; lia). unfold bare_pte in HV.
    rewrite !decide_False in HV by (unfold TRAPFRAME, TRAMPOLINE, PGSIZE in *; rewrite MAXVA_eq in *; Z.div_mod_to_equations; lia). done. }
  assert (tf mod PGSIZE = 0) as Hal by by apply ram_page_aligned.
  set (m4 := st64 (st64 (km_mem s3) (tf + TF_epc) 0) (tf + TF_sp) PGSIZE).
  assert (forall b, ~ in_page tf b -> ld8 m4 b = ld8 (km_mem s3) b) as Hm4.
  { intros b Hb. unfold in_page, PGSIZE in Hb. unfold m4. rewrite !ld8_st64_other by (unfold TF_epc, TF_sp; lia). done. }
  assert (forall p b, p ∈ F1 -> in_page p b -> ld8 m4 b = ld8 (km_mem s3) b) as Hk.
  { intros p b Hp Hb. apply Hm4. eapply page_apart; [exact (free_ram _ _ _ Hf1 Hp)|done| |done]. by intros ->. }
  assert (forall p b, tree_page (km_mem s3) pt p -> in_page p b -> ld8 m4 b = ld8 (km_mem s3) b) as Htr.
  { intros p b Hp. apply Hk, Hown. right. by left. }
  split; cbn [km_mem].
  - eapply free_pages_write; [apply St|exact R1| |exact Hm4]. intros Hin. apply N1, Hown. by left.
  - intros p Hp. subst F. right. apply Hown. by left.
  - assert (forall p, p ∈ F1 -> p ∈ F) as HF1 by (subst F; by right). intros b Hb. cbn [km_mem].
    rewrite Hm4 by (apply Hb; subst F; by left). rewrite (st_frame _ _ _ _ _ St), W2, W1; [done|done| |].
    + intros p Hp. by apply Hb, HF1.
    + intros p Hp. apply Hb, HF1, Hown. by apply (st_own _ _ _ _ _ St).
  - eapply as_wf_frame; [apply St|exact Htr].
  - exists x. split; [done|]. split.
    + intros va Hva. rewrite (pte_of_frame (km_mem s3) m4 pt F3 va (as_tree _ _ _ (st_wf _ _ _ _ _ St)) Htr). rewrite PT3 by done. unfold first_pte.
      case_decide; [done|by apply PT2].
    + intros i Hi. rewrite (Hk x) by (by apply S2 || (unfold in_page; lia)). by apply D3.
  - unfold m4. rewrite ld64_st64_other by (unfold TF_epc, TF_sp; lia). by rewrite ld64_st64_same.
  - unfold m4. by rewrite ld64_st64_same.
Qed.

(** The program the first process sees at address 0. *)
Lemma first_bytes s s' F F' pt tf : first_memory s s' F F' pt tf ->
  user_bytes (Z.to_nat PGSIZE) (km_mem s') pt 0 = initcode ++ replicate (Z.to_nat PGSIZE - length initcode) 0.
Proof.
  intros [_ _ _ _ (x & Hx & Hp & Hb) _ _]. apply list_eq. intros i. destruct (decide (i < Z.to_nat PGSIZE)%nat) as [Hi|Hi].
  - rewrite lookup_user_bytes by done. rewrite Z.add_0_l. assert (0 <= Z.of_nat i < PGSIZE) as Hi' by lia. unfold user_addr.
    rewrite Hp by (unfold PGSIZE in *; rewrite MAXVA_eq; lia). unfold first_pte. rewrite decide_True by (by apply Z.div_small).
    rewrite (mk_pte_PA x first_perm (ram_page_aligned x Hx) (ram_page_56 x Hx)) by done. rewrite Z.mod_small by done. rewrite Hb, Nat2Z.id by done.
    destruct (decide (i < length initcode)%nat) as [Hc|Hc].
    + rewrite lookup_app_l by done. apply lookup_lt_is_Some_2 in Hc as [c Ec]. by rewrite Ec.
    + rewrite lookup_app_r by lia. rewrite (lookup_ge_None_2 initcode) by lia. rewrite lookup_replicate_2 by lia. done.
  - rewrite !lookup_ge_None_2; [done| |rewrite length_user_bytes; lia]. rewrite length_app, length_replicate.
    change (length initcode) with 52%nat. change (Z.to_nat PGSIZE) with 4096%nat in *. lia.
Qed.
End vm.

(** ** The hart *)

Inductive csr :=
| Mstatus | Mepc | Satp | Medeleg | Mideleg | Sie | Mie | Pmpaddr0 | Pmpcfg0 | Menvcfg | Mcounteren | Stimecmp | Stvec.

Scheme Boolean Equality for csr.

Inductive mode := UMode | SMode | MMode.

(** The privilege mode, the program counter, the register tp, the control and
    status registers; and what reading the hart's number and the clock gives. *)
Record hart := Hart { h_mode : mode; h_pc : Z; h_tp : Z; h_csr : csr -> Z; h_id : Z; h_time : Z }.

Definition r_csr (c : csr) : K hart Z := fun h => Ret (h_csr h c) h.
Definition w_csr (c : csr) (v : Z) : K hart unit := fun h =>
  Ret tt (Hart (h_mode h) (h_pc h) (h_tp h) (fun d => if csr_beq d c then uint64 v else h_csr h d) (h_id h) (h_time h)).
Definition w_tp (v : Z) : K hart unit := fun h => Ret tt (Hart (h_mode h) (h_pc h) v (h_csr h) (h_id h) (h_time h)).
Definition r_mhartid : K hart Z := fun h => Ret (h_id h) h.
Definition r_time : K hart Z := fun h => Ret (h_time h) h.
Definition cpuid : K hart Z := fun h => Ret (int32 (h_tp h)) h.

Definition MSTATUS_MPP_MASK : Z := Z.shiftl 3 11.
Definition MSTATUS_MPP_S : Z := Z.shiftl 1 11.
Definition SIE_SEIE : Z := Z.shiftl 1 9.
Definition SIE_STIE : Z := Z.shiftl 1 5.
Definition SIE_SSIE : Z := Z.shiftl 1 1.
Definition MIE_STIE : Z := Z.shiftl 1 5.

(** The instruction mret: the mode of the field MPP, the address in mepc; MIE is
    MPIE, MPIE is set and MPP becomes user mode. *)
Definition mret : K hart unit := fun h =>
  let x := h_csr h Mstatus in
  let m := match Z.land (Z.shiftr x 11) 3 with 0 => UMode | 1 => SMode | _ => MMode end in
  let y := Z.lor (Z.ldiff x (Z.lor MSTATUS_MPP_MASK (Z.lor (Z.shiftl 1 3) (Z.shiftl 1 7))))
             (Z.lor (Z.shiftl (Z.land (Z.shiftr x 7) 1) 3) (Z.shiftl 1 7)) in
  Ret tt (Hart m (h_csr h Mepc) (h_tp h) (fun d => if csr_beq d Mstatus then y else h_csr h d) (h_id h) (h_time h)).

(** ** start.c *)

Definition timerinit : K hart unit :=
  x <- r_csr Mie ;; w_csr Mie (Z.lor x MIE_STIE) ;;;
  x <- r_csr Menvcfg ;; w_csr Menvcfg (Z.lor x (Z.shiftl 1 63)) ;;;
  x <- r_csr Mcounteren ;; w_csr Mcounteren (Z.lor x 2) ;;;
  t <- r_time ;; w_csr Stimecmp (t + 1000000).

(** [main] is the address of the function main. *)
Definition start (main : Z) : K hart unit :=
  x <- r_csr Mstatus ;;
  w_csr Mstatus (Z.lor (Z.ldiff x MSTATUS_MPP_MASK) MSTATUS_MPP_S) ;;;
  w_csr Mepc main ;;;
  w_csr Satp 0 ;;;
  w_csr Medeleg 0xffff ;;;
  w_csr Mideleg 0xffff ;;;
  x <- r_csr Sie ;; w_csr Sie (Z.lor x (Z.lor (Z.lor SIE_SEIE SIE_STIE) SIE_SSIE)) ;;;
  w_csr Pmpaddr0 0x3fffffffffffff ;;;
  w_csr Pmpcfg0 0xf ;;;
  timerinit ;;;
  id <- r_mhartid ;; w_tp (uint64 (int32 id)) ;;;
  mret.

(** ** Device registers *)

(** Writes to device registers, address and value, newest first. *)
Definition iolog := list (Z * Z).
Definition iowrite (a v : Z) : K iolog unit := kmod (cons (a, v)).

Definition WriteReg (reg v : Z) : K iolog unit := iowrite (UART0 + reg) v.
Definition RHR : Z := 0.
Definition IER : Z := 1.
Definition FCR : Z := 2.
Definition LCR : Z := 3.
Definition LCR_EIGHT_BITS : Z := Z.shiftl 3 0.
Definition LCR_BAUD_LATCH : Z := Z.shiftl 1 7.

Definition uartinit : K iolog unit :=
  WriteReg IER 0x00 ;;;
  WriteReg LCR LCR_BAUD_LATCH ;;;
  WriteReg 0 0x03 ;;;
  WriteReg 1 0x00 ;;;
  WriteReg LCR LCR_EIGHT_BITS ;;;
  WriteReg FCR (Z.lor (Z.shiftl 1 0) (Z.shiftl 3 1)) ;;;
  WriteReg IER (Z.lor (Z.shiftl 1 1) (Z.shiftl 1 0)).

Definition PLIC_SENABLE (hart : Z) : Z := PLIC + 0x2080 + hart * 0x100.
Definition PLIC_SPRIORITY (hart : Z) : Z := PLIC + 0x201000 + hart * 0x2000.

Definition plicinit : K iolog unit :=
  iowrite (PLIC + UART0_IRQ * 4) 1 ;;;
  iowrite (PLIC + VIRTIO0_IRQ * 4) 1.

Definition plicinithart (hart : Z) : K iolog unit :=
  iowrite (PLIC_SENABLE hart) (Z.lor (Z.shiftl 1 UART0_IRQ) (Z.shiftl 1 VIRTIO0_IRQ)) ;;;
  iowrite (PLIC_SPRIORITY hart) 0.

(** ** main.c *)

(** The hart that boots, the writes to device registers, the kernel's data, and
    the globals kernel_pagetable and started. *)
Record machine := Machine { m_hart : hart; m_io : iolog; m_k : kstate; m_kpgtbl : Z; m_started : bool }.

Definition onhart {A} (c : K hart A) : K machine A := fun s =>
  match c (m_hart s) with
  | Ret a h => Ret a (Machine h (m_io s) (m_k s) (m_kpgtbl s) (m_started s))
  | Panic msg => Panic msg
  | Sleep h => Sleep (Machine h (m_io s) (m_k s) (m_kpgtbl s) (m_started s))
  | Diverge => Diverge
  end.

Definition onio {A} (c : K iolog A) : K machine A := fun s =>
  match c (m_io s) with
  | Ret a l => Ret a (Machine (m_hart s) l (m_k s) (m_kpgtbl s) (m_started s))
  | Panic msg => Panic msg
  | Sleep l => Sleep (Machine (m_hart s) l (m_k s) (m_kpgtbl s) (m_started s))
  | Diverge => Diverge
  end.

Definition onk {A} (c : K kstate A) : K machine A := fun s =>
  match c (m_k s) with
  | Ret a k => Ret a (Machine (m_hart s) (m_io s) k (m_kpgtbl s) (m_started s))
  | Panic msg => Panic msg
  | Sleep k => Sleep (Machine (m_hart s) (m_io s) k (m_kpgtbl s) (m_started s))
  | Diverge => Diverge
  end.

Definition set_kpgtbl (v : Z) : K machine unit := kmod (fun s => Machine (m_hart s) (m_io s) (m_k s) v (m_started s)).
Definition set_started : K machine unit := kmod (fun s => Machine (m_hart s) (m_io s) (m_k s) (m_kpgtbl s) true).

Section boot.
Context `{I : KernelImage}.
(** The addresses of kernelvec and of main. *)
Variables (kernelvec main_addr : Z).
(** What the registers of the disk read as. *)
Variable r : vregs.

Definition kvminit : K machine unit :=
  pt <- onk (kmemop kvmmake) ;; set_kpgtbl pt.

Definition kvminithart : K machine unit := fun s => onhart (w_csr Satp (MAKE_SATP (m_kpgtbl s))) s.
Definition trapinithart : K machine unit := onhart (w_csr Stvec kernelvec).

(** [virtio_disk_init] with the pages it allocates; its writes to registers are
    those of Virtio.v, at the address of the disk. *)
Definition disk_setup : K machine unit :=
  desc <- onk (kmemop kalloc) ;;
  avail <- onk (kmemop kalloc) ;;
  used <- onk (kmemop kalloc) ;;
  onio (fun l => match virtio_disk_init r desc avail used [] with
                 | Ret _ w => Ret tt (map (fun av => (VIRTIO0 + fst av, snd av)) w ++ l)
                 | Panic msg => Panic msg
                 | Sleep _ => Sleep l
                 | Diverge => Diverge
                 end) ;;;
  onk (kmemop (kmemset desc 0 PGSIZE ;;; kmemset avail 0 PGSIZE ;;; kmemset used 0 PGSIZE)).

(** [binit] and [iinit] on the kernel's data. *)
Definition with_bufs (s : kstate) : kstate :=
  let f := k_fs s in
  with_fs (FState (LState (binit (bc_disk (ls_bio (fs_ls f))) (bc_pid (ls_bio (fs_ls f)))) (ls_log (fs_ls f)))
    (fs_sb f) (fs_itable f) (fs_mem f) (fs_pagetable f) (fs_cwd f)) s.
Definition with_itable (l : list inode) (s : kstate) : kstate :=
  let f := k_fs s in with_fs (FState (fs_ls f) (fs_sb f) l (fs_mem f) (fs_pagetable f) (fs_cwd f)) s.

(** [main] up to the call of the scheduler.  [printfinit], [trapinit] and
    [fileinit] initialise locks. *)
Definition main : K machine unit :=
  id <- onhart cpuid ;;
  if id =? 0 then
    onio uartinit ;;;
    onk (kprint [10] []) ;;;
    onk (kprint (cstr "xv6 kernel is booting" ++ [10]) []) ;;;
    onk (kprint [10] []) ;;;
    onk (kmemop kinit) ;;;
    kvminit ;;;
    kvminithart ;;;
    onk (kmod (with_proc procinit)) ;;;
    trapinithart ;;;
    onio plicinit ;;;
    onio (plicinithart id) ;;;
    onk (kmod with_bufs) ;;;
    onk (kmod (with_itable iinit)) ;;;
    disk_setup ;;;
    onk userinit ;;;
    set_started
  else
    s <- kget ;;
    if negb (m_started s) then kdiverge
    else
      onk (kprint (cstr "hart %d starting" ++ [10]) [uint64 id]) ;;;
      kvminithart ;;;
      trapinithart ;;;
      onio (plicinithart id).

(** ** The scheduler *)

Fixpoint find_runnable (l : list proc) (i : nat) : option nat :=
  match l with
  | [] => None
  | x :: l' => if decide (p_state x = RUNNABLE) then Some i else find_runnable l' (S i)
  end.

(** The loop of [scheduler] from entry [p] of the table on, up to the switch to
    the process it finds. *)
Definition scheduler_next (p : nat) : K kstate bool :=
  s <- kget ;;
  match find_runnable (drop p (k_proc s)) p with
  | None => kret false
  | Some q => pmod q (set_state RUNNING) ;;; kmod (with_me q) ;;; kret true
  end.

(** From the entry of the kernel to the first process. *)
Definition boot : K machine bool :=
  onhart (start main_addr) ;;;
  main ;;;
  onk (scheduler_next 0).
End boot.

(** [forkret], where a process enters when it runs for the first time: the first
    process of all mounts the file system. *)
Definition forkret `{I : KernelImage} (usertrap_addr : Z) (t : trap) (first : bool) : K kstate uret :=
  (if first then liftW (fsinit ROOTDEV) else kret tt) ;;;
  usertrapret usertrap_addr t.

(** The kernel's data before [main]: all zero except nextpid; the memory and the
    state of the UART are arguments.  No process runs; [k_me] has no meaning
    yet. *)
Definition bss (m : kmem) (d : Bio.disk) (u : uart) : kstate :=
  KState (FState (LState (BState (replicate NBUF buf0) [] d 0) (Log 0 0 0 false 0 (LogHeader 0 (replicate (Z.to_nat LOGSIZE) 0))))
      (Superblock 0 0 0 0 0 0 0 0) (replicate NINODE inode0) m 0 0)
    (replicate NFILE file0) ∅ (replicate (Z.to_nat NPROC) proc0) None 1 0 0
    (Console (replicate (Z.to_nat INPUT_BUF_SIZE) 0) 0 0 0) u.
Definition uart_on (idle : list bool) (out : list Z) : uart := Uart (replicate (Z.to_nat UART_TX_BUF_SIZE) 0) 0 0 idle out.

(** ** Running the parts *)

Lemma onk_ret {A} (c : K kstate A) h io k pt b a k' : c k = Ret a k' -> onk c (Machine h io k pt b) = Ret a (Machine h io k' pt b).
Proof. intros H. unfold onk. cbn [m_k]. by rewrite H. Qed.

(** The state when [userinit] is called, and the first process. *)
Definition ready (m : kmem) (d : Bio.disk) (u : uart) : kstate :=
  KState (FState (LState (binit d 0) (Log 0 0 0 false 0 (LogHeader 0 (replicate (Z.to_nat LOGSIZE) 0))))
      (Superblock 0 0 0 0 0 0 0 0) iinit m 0 0)
    (replicate NFILE file0) ∅ procinit None 1 0 0 (Console (replicate (Z.to_nat INPUT_BUF_SIZE) 0) 0 0 0) u.

Definition first_proc (st : procstate) (pt tf : Z) : proc :=
  Proc st None false 0 1 None (KSTACK 0) PGSIZE pt tf (Context_ AtForkret (KSTACK 0 + PGSIZE) (replicate 12 0)) (replicate NOFILE None) (Some 0%nat) initcode_name.

Definition root_inode : inode :=
  Inode ROOTDEV ROOTINO 1 initsleeplock false 0 0 0 0 0 (replicate (Z.to_nat (NDIRECT + 1)) 0).

Definition first_state (st : procstate) (m : kmem) (pt tf : Z) (d : Bio.disk) (u : uart) : kstate :=
  KState (FState (LState (binit d 0) (Log 0 0 0 false 0 (LogHeader 0 (replicate (Z.to_nat LOGSIZE) 0))))
      (Superblock 0 0 0 0 0 0 0 0) (<[0%nat := root_inode]> iinit) m 0 0)
    (replicate NFILE file0) ∅ (<[0%nat := first_proc st pt tf]> procinit) (Some 0%nat) 2 0 0
    (Console (replicate (Z.to_nat INPUT_BUF_SIZE) 0) 0 0 0) u.

Section run.
Context `{I : KernelImage}.

Lemma userinit_run m d u tf m1 pt m2 m3 : kalloc m = Ret tf m1 -> tf <> 0 -> proc_pagetable tf m1 = Ret pt m2 -> pt <> 0 ->
  uvmfirst pt initcode m2 = Ret tt m3 ->
  userinit (ready m d u) =
    Ret tt (first_state RUNNABLE (Kmem (st64 (st64 (km_mem m3) (tf + TF_epc) 0) (tf + TF_sp) PGSIZE) (km_freelist m3)) pt tf d u).
Proof.
  intros H1 Htf H2 Hpt H3. unfold userinit.
  assert (allocproc (ready m d u) = Ret (Some 0%nat)
    (with_mem m2 (with_nextpid 2 (with_proc (<[0%nat := Proc USED None false 0 1 None (KSTACK 0) 0 pt tf
       (Context_ AtForkret (KSTACK 0 + PGSIZE) (replicate 12 0)) (replicate NOFILE None) None []]> procinit) (ready m d u))))) as Ha.
  { unfold allocproc. rewrite (kbind_ret kget _ _ _ _ eq_refl). change (find_unused (k_proc (ready m d u)) 0) with (Some 0%nat). cbv iota beta.
    erewrite kbind_ret; [|reflexivity]. erewrite kbind_ret; [|reflexivity]. erewrite kbind_ret; [|apply kmemop_ret; exact H1].
    erewrite kbind_ret; [|reflexivity]. rewrite (proj2 (Z.eqb_neq tf 0) Htf). erewrite kbind_ret; [|apply kmemop_ret; exact H2].
    erewrite kbind_ret; [|reflexivity]. rewrite (proj2 (Z.eqb_neq pt 0) Hpt). reflexivity. }
  rewrite (kbind_ret _ _ _ _ _ Ha). erewrite kbind_ret; [|reflexivity]. erewrite kbind_ret; [|reflexivity].
  erewrite kbind_ret; [|apply kmemop_ret; exact H3]. erewrite kbind_ret; [|reflexivity].
  erewrite kbind_ret; [|apply kmemop_ret; reflexivity]. erewrite kbind_ret; [|apply kmemop_ret; reflexivity].
  reflexivity.
Qed.
End run.

(** ** The hart *)

Lemma mpp_supervisor x : Z.land (Z.shiftr (uint64 (Z.lor (Z.ldiff x MSTATUS_MPP_MASK) MSTATUS_MPP_S)) 11) 3 = 1.
Proof.
  apply Z.bits_inj'. intros n Hn. rewrite Z.land_spec, Z.shiftr_spec by lia. change 3 with (Z.ones 2). destruct (decide (n < 2)).
  - rewrite Z.ones_spec_low, andb_true_r by lia. unfold uint64. rewrite Z.mod_pow2_bits_low by lia. rewrite Z.lor_spec, Z.ldiff_spec.
    assert (n = 0 \/ n = 1) as [-> | ->] by lia; unfold MSTATUS_MPP_MASK, MSTATUS_MPP_S; rewrite !Z.shiftl_spec by lia; cbn; by rewrite andb_false_r.
  - rewrite Z.ones_spec_high, andb_false_r by lia. symmetry. apply Z.bits_above_log2; cbn; lia.
Qed.

(** [start] enters [main] in supervisor mode with paging off, every trap and
    interrupt delegated and the interrupts of devices and timer enabled. *)
Lemma start_ok ma h : exists h', start ma h = Ret tt h' /\ h_mode h' = SMode /\ h_pc h' = uint64 ma /\ h_tp h' = uint64 (int32 (h_id h)) /\
  h_csr h' Satp = 0 /\ h_csr h' Medeleg = 0xffff /\ h_csr h' Mideleg = 0xffff /\
  Forall (fun i => Z.testbit (h_csr h' Sie) i = true) [1; 5; 9] /\ Z.testbit (h_csr h' Mie) 5 = true.
Proof.
  cbv [start timerinit kbind r_csr w_csr w_tp r_mhartid r_time mret kret h_csr h_mode h_pc h_tp h_id h_time].
  eexists. split; [reflexivity|]. cbv [h_mode h_pc h_tp h_csr].
  cbn [csr_beq].
  rewrite mpp_supervisor. split_and!; try reflexivity.
  - repeat constructor; unfold uint64; rewrite Z.mod_pow2_bits_low by lia; rewrite !Z.lor_spec; unfold SIE_SEIE, SIE_STIE, SIE_SSIE;
      rewrite !Z.shiftl_spec by lia; cbn; by rewrite ?orb_true_r.
  - unfold uint64. rewrite Z.mod_pow2_bits_low by lia. rewrite Z.lor_spec. cbn. by rewrite orb_true_r.
Qed.

(** ** Printing *)

Definition printed (out : list Z) (l : list bool) (u : uart) : uart := Uart (tx_buf u) (tx_w u) (tx_r u) l (thr u ++ map uint8 out).

Lemma putcs_ok out : forall s l, lsr_idle (k_uart s) = replicate (length out) true ++ l -> Forall (fun c => 0 <= c < 256) out ->
  foldr (fun c k => consputc c ;;; k) (kret tt) out s = Ret tt (with_uart (printed out l (k_uart s)) s).
Proof.
  induction out as [|c out IH]; intros s l Hl Hc; cbn [foldr].
  - cbn in Hl. subst l. unfold printed. cbn. rewrite app_nil_r. destruct s as [? ? ? ? ? ? ? ? ? []]. done.
  - apply Forall_cons in Hc as [Hc Hcs]. unfold consputc at 1. rewrite (proj2 (Z.eqb_neq c BACKSPACE)) by (unfold BACKSPACE; lia).
    erewrite kbind_ret; [|unfold uartputc_sync, kbind, kget; rewrite Hl; reflexivity]. rewrite (IH _ l); [|done|done].
    unfold printed. cbn. rewrite <- app_assoc. done.
Qed.

Definition banner : list Z := 10 :: cstr "xv6 kernel is booting" ++ [10; 10].

(** ** main *)

Section main.
Context `{I : KernelImage}.
Variables (kernelvec main_addr : Z) (r : vregs).

Lemma kprint_run fmt s l : kprintf (fun _ => []) fmt [] = Some fmt -> lsr_idle (k_uart s) = replicate (length fmt) true ++ l ->
  Forall (fun c => 0 <= c < 256) fmt -> kprint fmt [] s = Ret tt (with_uart (printed fmt l (k_uart s)) s).
Proof. intros Hf Hl Hc. unfold kprint, kprint_str. rewrite Hf. by apply putcs_ok. Qed.

(** The writes to device registers. *)
Definition boot_io (w : iolog) : iolog :=
  map (fun av => (VIRTIO0 + fst av, snd av)) w ++
  match (uartinit ;;; plicinit ;;; plicinithart 0) [] with Ret _ l => l | _ => [] end.

Definition main_hart (h : hart) (root : Z) : hart :=
  Hart (h_mode h) (h_pc h) (h_tp h)
    (fun d => if csr_beq d Stvec then uint64 kernelvec else if csr_beq d Satp then uint64 (MAKE_SATP root) else h_csr h d) (h_id h) (h_time h).

Lemma kprint_bss fmt m d l out : kprintf (fun _ => []) fmt [] = Some fmt -> Forall (fun c => 0 <= c < 256) fmt ->
  kprint fmt [] (bss m d (uart_on (replicate (length fmt) true ++ l) out)) = Ret tt (bss m d (uart_on l (out ++ map uint8 fmt))).
Proof. intros Hf Hc. by rewrite (kprint_run fmt _ l). Qed.

Lemma kmemop_bss {A} (c : K kmem A) m d u a m' : c m = Ret a m' -> kmemop c (bss m d u) = Ret a (bss m' d u).
Proof. intros H. by rewrite (kmemop_ret c _ a m'). Qed.

Lemma kmemop_ready {A} (c : K kmem A) m d u a m' : c m = Ret a m' -> kmemop c (ready m d u) = Ret a (ready m' d u).
Proof. intros H. by rewrite (kmemop_ret c _ a m'). Qed.

(** [disk_setup] *)
Lemma disk_setup_run h io m d u pt b s3 s4 s5 s6 desc avail used w :
  kalloc m = Ret desc s3 -> kalloc s3 = Ret avail s4 -> kalloc s4 = Ret used s5 -> virtio_disk_init r desc avail used [] = Ret tt w ->
  (kmemset desc 0 PGSIZE ;;; kmemset avail 0 PGSIZE ;;; kmemset used 0 PGSIZE) s5 = Ret tt s6 ->
  disk_setup r (Machine h io (ready m d u) pt b) = Ret tt (Machine h (map (fun av => (VIRTIO0 + fst av, snd av)) w ++ io) (ready s6 d u) pt b).
Proof.
  intros Q1 Q2 Q3 HV Q4. unfold disk_setup. rewrite (kbind_ret _ _ _ _ _ (onk_ret _ h io _ pt b _ _ (kmemop_ready _ _ d u _ _ Q1))).
  rewrite (kbind_ret _ _ _ _ _ (onk_ret _ h io _ pt b _ _ (kmemop_ready _ _ d u _ _ Q2))).
  rewrite (kbind_ret _ _ _ _ _ (onk_ret _ h io _ pt b _ _ (kmemop_ready _ _ d u _ _ Q3))).
  erewrite kbind_ret; [|unfold onio; rewrite HV; reflexivity]. cbn [m_hart m_io m_k m_kpgtbl m_started].
  apply onk_ret, kmemop_ready. exact Q4.
Qed.

(** The steps of [main] between the kernel's page table and the disk. *)
Lemma setup_run {A} h m d u root (k : K machine A) :
  (kvminithart ;;; onk (kmod (with_proc procinit)) ;;; trapinithart kernelvec ;;; onio plicinit ;;; onio (plicinithart 0) ;;;
   onk (kmod with_bufs) ;;; onk (kmod (with_itable iinit)) ;;; k)
     (Machine h (match uartinit [] with Ret _ l => l | _ => [] end) (bss m d u) root false) =
  k (Machine (main_hart h root) (match (uartinit ;;; plicinit ;;; plicinithart 0) [] with Ret _ l => l | _ => [] end) (ready m d u) root false).
Proof.
  cbv [kvminithart trapinithart onk onhart onio kbind kmod m_hart m_io m_k m_kpgtbl m_started w_csr plicinit plicinithart iowrite].
  reflexivity.
Qed.

Lemma main_run h m d l s1 s2 s3 s4 s5 s6 root desc avail used w tf t1 pt t2 t3 :
  int32 (h_tp h) = 0 ->
  kinit m = Ret tt s1 -> kvmmake s1 = Ret root s2 ->
  kalloc s2 = Ret desc s3 -> kalloc s3 = Ret avail s4 -> kalloc s4 = Ret used s5 -> virtio_disk_init r desc avail used [] = Ret tt w ->
  (kmemset desc 0 PGSIZE ;;; kmemset avail 0 PGSIZE ;;; kmemset used 0 PGSIZE) s5 = Ret tt s6 ->
  kalloc s6 = Ret tf t1 -> 0 < tf -> proc_pagetable tf t1 = Ret pt t2 -> 0 < pt -> uvmfirst pt initcode t2 = Ret tt t3 ->
  main kernelvec r (Machine h [] (bss m d (uart_on (replicate (length banner) true ++ l) [])) 0 false) =
    Ret tt (Machine (main_hart h root) (boot_io w)
      (first_state RUNNABLE (Kmem (st64 (st64 (km_mem t3) (tf + TF_epc) 0) (tf + TF_sp) PGSIZE) (km_freelist t3)) pt tf d (uart_on l banner)) root true).
Proof.
  intros Hid K1 K2 Q1 Q2 Q3 HV Q4 U1 Utf U2 Upt U3. unfold main.
  set (io1 := match uartinit [] with Ret _ l => l | _ => [] end).
  set (title := cstr "xv6 kernel is booting" ++ [10]).
  assert (Forall (fun c => 0 <= c < 256) title) as Ht by (apply (bool_decide_unpack _); vm_compute; reflexivity).
  assert (Forall (fun c => 0 <= c < 256) [10]) as Hn by (repeat constructor; lia).
  change (replicate (length banner) true ++ l) with (replicate (length [10]) true ++ replicate (length title) true ++ replicate (length [10]) true ++ l).
  rewrite (kbind_ret (onhart cpuid) _ _ _ _ eq_refl). cbn [m_hart]. rewrite Hid. change (0 =? 0) with true. cbv iota.
  rewrite (kbind_ret (onio uartinit) _ _ tt (Machine h io1 (bss m d (uart_on (replicate (length [10]) true ++ replicate (length title) true ++ replicate (length [10]) true ++ l) [])) 0 false)) by reflexivity.
  rewrite (kbind_ret _ _ _ _ _ (onk_ret _ h io1 _ 0 false _ _ (kprint_bss [10] m d _ [] eq_refl Hn))).
  rewrite (kbind_ret _ _ _ _ _ (onk_ret _ h io1 _ 0 false _ _ (kprint_bss title m d _ _ eq_refl Ht))).
  rewrite (kbind_ret _ _ _ _ _ (onk_ret _ h io1 _ 0 false _ _ (kprint_bss [10] m d _ _ eq_refl Hn))).
  change (uart_on l _) with (uart_on l banner).
  rewrite (kbind_ret _ _ _ _ _ (onk_ret _ h io1 _ 0 false _ _ (kmemop_bss _ _ d (uart_on l banner) _ _ K1))).
  assert (kvminit (Machine h io1 (bss s1 d (uart_on l banner)) 0 false) = Ret tt (Machine h io1 (bss s2 d (uart_on l banner)) root false)) as Hk.
  { unfold kvminit. by rewrite (kbind_ret _ _ _ _ _ (onk_ret _ h io1 _ 0 false _ _ (kmemop_bss _ _ d (uart_on l banner) _ _ K2))). }
  rewrite (kbind_ret _ _ _ _ _ Hk).
  rewrite setup_run.
  rewrite (kbind_ret _ _ _ _ _ (disk_setup_run _ _ _ _ _ _ _ _ _ _ _ _ _ _ _ Q1 Q2 Q3 HV Q4)).
  rewrite (kbind_ret _ _ _ _ _ (onk_ret _ _ _ _ root false _ _ (userinit_run s6 d (uart_on l banner) tf t1 pt t2 t3 U1 ltac:(lia) U2 ltac:(lia) U3))).
  reflexivity.
Qed.
End main.

(** ** The tables after booting *)

Lemma procinit_entry p x : procinit !! p = Some x -> p_state x = UNUSED /\ ProcInv.blank x /\ p_ofile x = replicate NOFILE None.
Proof. intros H. unfold procinit in H. apply list_lookup_fmap_Some in H as (i & -> & _). by split_and!. Qed.

Section tables.
Variables (m : kmem) (pt tf : Z) (d : Bio.disk) (u : uart).
Let s := first_state RUNNING m pt tf d u.

Lemma first_getp p : p = 0%nat /\ getp s p = first_proc RUNNING pt tf \/
  p <> 0%nat /\ p_state (getp s p) = UNUSED /\ ProcInv.blank (getp s p) /\ p_ofile (getp s p) = replicate NOFILE None.
Proof.
  destruct p as [|p]; [by left|]. right. split; [done|]. unfold getp, s, first_state. cbn [k_proc]. rewrite list_lookup_insert_ne by done.
  destruct (procinit !! S p) as [x|] eqn:E; cbn [default id]; [by apply (procinit_entry (S p))|by split_and!].
Qed.

Lemma first_ok : ok s.
Proof.
  split; [|done]. split; try done.
  - intros p. destruct (first_getp p) as [[_ ->]|(_ & _ & H & _)]; done.
  - intros p. destruct (first_getp p) as [[_ ->]|(_ & H & _)]; [done|congruence].
  - intros p q. destruct (first_getp p) as [[-> E]|(_ & H & _)]; [|congruence]. destruct (first_getp q) as [[-> _]|(_ & _ & (Hq & _) & _)]; [done|].
    rewrite E, Hq. done.
  - intros p. destruct (first_getp p) as [[_ ->]|(_ & _ & _ & ->)]; done.
Qed.

Lemma first_tables_empty p fd f : p_ofile (getp s p) !! fd <> Some (Some f).
Proof.
  assert (p_ofile (getp s p) = replicate NOFILE None) as -> by (destruct (first_getp p) as [[_ ->]|(_ & _ & _ & ->)]; done).
  intros H. by apply lookup_replicate_1 in H as [? _].
Qed.

Lemma first_refs : refs zero s.
Proof.
  split; [|intros p fd f H; by destruct (first_tables_empty p fd f)|intros p _ fd f; apply first_tables_empty| |].
  - intros f Hf. assert (getf s f = file0) as ->.
    { unfold getf, s, first_state. cbn [k_ftable]. destruct (replicate NFILE file0 !! f) eqn:E; [|done]. by apply lookup_replicate_1 in E as [-> _]. }
    change (tables s) with (replicate 64 (replicate NOFILE (@None nat))). unfold zero. rewrite Z.add_0_r. cbn [f_ref file0]. symmetry.
    assert (forall k, nref f (replicate k (replicate NOFILE None)) = 0) as ->; [|done]. induction k as [|k IH]; [done|]. cbn [replicate]. rewrite nref_cons, IH. done.
  - intros p. by destruct (first_getp p) as [[_ ->]|(_ & _ & _ & ->)].
  - apply Nat.lt_0_succ.
Qed.
End tables.

(** The process reaches user space with the table as it was. *)
Lemma forkret_ok `{I : KernelImage} addr t first : triple ok (forkret addr t first) (fun _ => ok).
Proof.
  unfold forkret. eapply triple_bind; [apply triple_quiet_ok; case_match; [apply quiet_liftW|apply quiet_ret]|]. intros [].
  unfold usertrapret. eapply triple_bind; [apply triple_quiet_ok, quiet_mine|]. intros p.
  do 4 (eapply triple_bind; [apply triple_quiet_ok, quiet_liftF|]; intros []).
  eapply triple_bind; [apply triple_quiet_ok, quiet_liftF|]. intros epc. apply triple_quiet_ok, quiet_ret.
Qed.

(** ** From reset to the first process *)

(** The registers of the disk, as virtio_disk_init expects them. *)
Record disk_present (r : vregs) : Prop := {
  dp_id : r_magic r = 1953655158 /\ r_version r = 2 /\ r_device r = 2 /\ r_vendor r = 1431127377;
  dp_features : Z.land (r_status r) 8 <> 0;
  dp_queue : r_ready r = 0 /\ Z.of_nat NUM <= r_max r
}.

Lemma disk_init_ret r desc avail used : disk_present r -> 0 < desc -> 0 < avail -> 0 < used -> exists w, virtio_disk_init r desc avail used [] = Ret tt w.
Proof.
  intros [(H1 & H2 & H3 & H4) Hf (Hr & Hm)] Hd Ha Hu. unfold virtio_disk_init. rewrite H1, H2, H3, H4. cbn [Z.eqb andb negb Pos.eqb].
  unfold kbind at 1 2 3 4 5, kmod at 1 2 3 4 5. rewrite (proj2 (Z.eqb_neq _ 0) Hf). unfold kbind at 1, kmod at 1. rewrite Hr. cbn [Z.eqb negb].
  assert (8 <= r_max r) as Hm' by exact Hm. rewrite (proj2 (Z.eqb_neq (r_max r) 0)), (proj2 (Z.ltb_ge (r_max r) (Z.of_nat NUM)) Hm) by lia.
  rewrite (proj2 (Z.eqb_neq desc 0)), (proj2 (Z.eqb_neq avail 0)), (proj2 (Z.eqb_neq used 0)) by lia. cbn [orb]. eexists. reflexivity.
Qed.

Section theorem.
Context `{I : KernelImage} `{Ok : !KernelImageOk I}.

(** The memory that [main] builds. *)
Record booted_memory (mem : kmem) (root : Z) (stk : list Z) (pt tf : Z) : Prop := {
  bm_kernel : forall va, 0 <= va < MAXVA -> pte_of (km_mem mem) root va = kernel_pte stk va;
  bm_stacks : length stk = Z.to_nat NPROC /\ NoDup stk /\ Forall ram_page stk;
  bm_user : exists F, free_pages mem F /\ as_wf (km_mem mem) pt F;
  bm_code : user_bytes (Z.to_nat PGSIZE) (km_mem mem) pt 0 = initcode ++ replicate (Z.to_nat PGSIZE - length initcode) 0;
  bm_epc : ld64 (km_mem mem) (tf + TF_epc) = 0;
  bm_sp : ld64 (km_mem mem) (tf + TF_sp) = PGSIZE
}.

Lemma within_mono B B' s s' : B' ⊆ B -> within B' s s' -> within B s s'.
Proof. intros HB H b Hb. apply H. intros p Hp. by apply Hb, HB. Qed.

(** All the memory operations of [main]. *)
Lemma boot_memory m : kernel_end <= PHYSTOP - 0x100000 -> exists root stk desc avail used tf pt s1 s2 s3 s4 s5 s6 t1 t2 t3,
  kinit (Kmem m 0) = Ret tt s1 /\ kvmmake s1 = Ret root s2 /\
  kalloc s2 = Ret desc s3 /\ kalloc s3 = Ret avail s4 /\ kalloc s4 = Ret used s5 /\ (0 < desc /\ 0 < avail /\ 0 < used) /\
  (kmemset desc 0 PGSIZE ;;; kmemset avail 0 PGSIZE ;;; kmemset used 0 PGSIZE) s5 = Ret tt s6 /\
  kalloc s6 = Ret tf t1 /\ 0 < tf /\ proc_pagetable tf t1 = Ret pt t2 /\ 0 < pt /\ uvmfirst pt initcode t2 = Ret tt t3 /\
  booted_memory (Kmem (st64 (st64 (km_mem t3) (tf + TF_epc) 0) (tf + TF_sp) PGSIZE) (km_freelist t3)) root stk pt tf.
Proof.
  intros He. destruct (kinit_pages (Kmem m 0) eq_refl) as (s1 & F0 & K1 & Hf & Hall). pose proof (ram_length F0 He Hall) as Hlen.
  assert (NoDup F0) as Hnd by apply Hf.
  destruct (kvmmake_ok F0 Hnd ltac:(change (length kernel_paths) with 102%nat; change (Z.to_nat NPROC) with 64%nat; lia) s1 Hf)
    as (root & stk & s2 & K2 & Hl & Hram & T & F & HP & Hf2 & Hwf & HT & Hstk & HL & Hpte).
  assert (length F0 = length T + (length stk + length F))%nat as El by (rewrite <- !length_app; by apply Permutation_length).
  rewrite HP in Hnd. pose proof Hnd as (HndT & _ & Hnd2)%NoDup_app. apply NoDup_app in Hnd2 as (Hnds & _ & _).
  pose proof (pages_bound _ root T kernel_paths HndT HT HL) as HTl. change (length kernel_paths) with 102%nat in HTl. change (Z.to_nat NPROC) with 64%nat in Hl.
  destruct (queue_ok s2 F Hf2 ltac:(lia)) as (desc & avail & used & F' & s3 & s4 & s5 & s6 & Q1 & Q2 & Q3 & P1 & P2 & P3 & Q4 & EF & Hf6 & W6).
  destruct (first_memory_ok s6 F' Hf6 ltac:(rewrite EF in El; cbn [length] in El; lia)) as (tf & pt & t1 & t2 & t3 & F'' & U1 & Utf & U2 & Upt & U3 & FM).
  exists root, stk, desc, avail, used, tf, pt, s1, s2, s3, s4, s5, s6, t1, t2, t3.
  split; [exact K1|]. split; [exact K2|]. split; [exact Q1|]. split; [exact Q2|]. split; [exact Q3|]. split; [exact (conj P1 (conj P2 P3))|].
  split; [exact Q4|]. split; [exact U1|]. split; [exact Utf|]. split; [exact U2|]. split; [exact Upt|]. split; [exact U3|].
  clear K1 K2 Q1 Q2 Q3 Q4 U1 U2 U3. set (mem := Kmem _ (km_freelist t3)) in *.
  assert (within F s2 mem) as HW.
  { eapply within_trans; [exact W6|]. eapply within_mono; [|exact (fm_within _ _ _ _ _ _ FM)]. rewrite EF. set_solver. }
  assert (forall p b, tree_page (km_mem s2) root p -> in_page p b -> ld8 (km_mem mem) b = ld8 (km_mem s2) b) as Hfr.
  { intros p b Hp Hb. apply HW. intros q Hq. destruct (tree_ram _ _ _ _ Hwf Hp) as [Hpr HpF]. eapply page_apart; [exact Hpr|exact (free_ram _ _ _ Hf2 Hq)| |done].
    by intros ->. }
  split; [|done| |by eapply first_bytes|apply FM|apply FM].
  - intros va Hva. rewrite (pte_of_frame (km_mem s2) (km_mem mem) root F va Hwf Hfr). by apply Hpte.
  - exists F''. split; apply FM.
Qed.

Lemma scheduler_first m pt tf d u : scheduler_next 0 (first_state RUNNABLE m pt tf d u) = Ret true (first_state RUNNING m pt tf d u).
Proof. reflexivity. Qed.

(** C8: The machine boots.  From reset on hart 0, with a disk that answers as
    virtio_disk_init expects, a UART that accepts characters and a megabyte of
    RAM left by the kernel, the code reaches the first process: the hart is in
    supervisor mode, runs on the kernel's page table and takes traps at
    kernelvec; the page table maps exactly what kvmmake promises; slot 0 of the
    process table runs with one page of memory that holds initcode, to be
    entered at address 0 with the stack pointer at its end, and the root
    directory; the invariants of the process table and of the counts of open
    files hold. *)
Theorem kernel_boots m d l h r kernelvec main_addr : h_id h = 0 -> kernel_end <= PHYSTOP - 0x100000 -> disk_present r ->
  exists root stk pt tf s, boot kernelvec main_addr r (Machine h [] (bss (Kmem m 0) d (uart_on (replicate (length banner) true ++ l) [])) 0 false) = Ret true s /\
    (h_mode (m_hart s) = SMode /\ h_csr (m_hart s) Satp = uint64 (MAKE_SATP root) /\ h_csr (m_hart s) Stvec = uint64 kernelvec) /\
    booted_memory (mem_of (m_k s)) root stk pt tf /\
    m_k s = first_state RUNNING (mem_of (m_k s)) pt tf d (uart_on l banner) /\ ok (m_k s) /\ refs zero (m_k s).
Proof.
  intros Hid He Hr. destruct (start_ok main_addr h) as (h1 & Hs & Hm & _ & Htp & _).
  destruct (boot_memory m He) as (root & stk & desc & avail & used & tf & pt & s1 & s2 & s3 & s4 & s5 & s6 & t1 & t2 & t3 & K1 & K2 & Q1 & Q2 & Q3 & (P1 & P2 & P3) & Q4 & U1 & Utf & U2 & Upt & U3 & HB).
  destruct (disk_init_ret r desc avail used Hr P1 P2 P3) as [w Hw].
  pose proof (main_run kernelvec r h1 (Kmem m 0) d l s1 s2 s3 s4 s5 s6 root desc avail used w tf t1 pt t2 t3 ltac:(by rewrite Htp, Hid) K1 K2 Q1 Q2 Q3 Hw Q4 U1 Utf U2 Upt U3) as Hmain.
  clear K1 K2 Q1 Q2 Q3 Q4 U1 U2 U3 Hw. set (mem := Kmem _ (km_freelist t3)) in *.
  exists root, stk, pt, tf, (Machine (main_hart kernelvec h1 root) (boot_io w) (first_state RUNNING mem pt tf d (uart_on l banner)) root true).
  split.
  - unfold boot. assert (onhart (start main_addr) (Machine h [] (bss (Kmem m 0) d (uart_on (replicate (length banner) true ++ l) [])) 0 false) =
      Ret tt (Machine h1 [] (bss (Kmem m 0) d (uart_on (replicate (length banner) true ++ l) [])) 0 false)) as H0 by (unfold onhart; cbn [m_hart]; by rewrite Hs).
    rewrite (kbind_ret _ _ _ _ _ H0), (kbind_ret _ _ _ _ _ Hmain). apply onk_ret, scheduler_first.
  - split; [split; [exact Hm|split; reflexivity]|]. split; [exact HB|]. split; [reflexivity|]. split; [apply first_ok|apply first_refs].
Qed.
End theorem.

(** ** Instance *)

Definition regs0 : vregs := Regs 1953655158 2 2 1431127377 0 8 0 8.
Definition hart0 : hart := Hart MMode 0x80000000 0 (fun _ => 0) 0 0.

Lemma kernel_boots_witness : exists root pt s, boot (I := image0) 0x80001000 0x80002000 regs0
    (Machine hart0 [] (bss (Kmem ∅ 0) (Bio.Disk ∅ []) (uart_on (replicate (length banner) true ++ []) [])) 0 false) = Ret true s /\
  h_csr (m_hart s) Satp = uint64 (MAKE_SATP root) /\ user_bytes 4 (km_mem (mem_of (m_k s))) pt 0 = [0x17; 0x05; 0x00; 0x00].
Proof.
  assert (disk_present regs0) as Hr by (split; [split_and!; reflexivity|discriminate|split; [reflexivity|vm_compute; discriminate]]).
  destruct (@kernel_boots image0 image0_ok ∅ (Bio.Disk ∅ []) [] hart0 regs0 0x80001000 0x80002000 eq_refl ltac:(vm_compute; discriminate) Hr)
    as (root & stk & pt & tf & s & H1 & (_ & H2 & _) & HB & _).
  exists root, pt, s. split; [exact H1|]. clear H1. split; [exact H2|]. pose proof (bm_code _ _ _ _ _ HB) as Hc.
  change (Z.to_nat PGSIZE) with (4 + 4092)%nat in Hc at 1. rewrite user_bytes_app in Hc. apply (f_equal (take 4)) in Hc.
  rewrite take_app_length' in Hc by (by rewrite length_user_bytes). rewrite Hc. reflexivity.
Defined.
