(* ===== verification/Typing.v ===== *)
(** * The types of the kernel's data

    What the C declarations say of the process table, the file table, the pipes,
    the console and the transmitter, together with what the code makes of its
    ring buffers: counters of 32 and 64 bits that are never further apart than
    the buffer is long.  Every trap keeps it. *)

From S2P Require Import Prelude Memory KString Ulib Printf Kalloc Vm Bytes Sleeplock Bio Log Fs FsFile Ring KState Machine Pipe Console ConsoleSpec File Proc Syscall Sysfile Exec Quiet ProcInv Trap Boot.

Definition is_int (z : Z) : Prop := - 2 ^ 31 <= z < 2 ^ 31.
Definition is_uint (z : Z) : Prop := 0 <= z < 2 ^ 32.

(** [int xstate; int pid; struct file *ofile[NOFILE]; char name[16];] and the
    saved registers s0 to s11. *)
Record typed_proc (x : proc) : Prop := {
  tp_xstate : is_int (p_xstate x);
  tp_pid : is_int (p_pid x);
  tp_ofile : length (p_ofile x) = NOFILE;
  tp_name : (length (p_name x) < 16)%nat;
  tp_ctx : length (ctx_s (p_context x)) = 12%nat
}.

(** [uint off;], and the index of a device in devsw. *)
Record typed_file (f : file) : Prop := {
  tf_off : is_uint (f_off f);
  tf_major : f_type f = FD_DEVICE -> 0 <= f_major f < NDEV
}.

Record typed (s : kstate) : Prop := {
  ty_nproc : length (k_proc s) = Z.to_nat NPROC;
  ty_proc : Forall typed_proc (k_proc s);
  ty_nextpid : is_int (k_nextpid s);
  ty_nfile : length (k_ftable s) = NFILE;
  ty_file : Forall typed_file (k_ftable s);
  ty_pipe : map_Forall (fun _ => pipe_ok) (k_pipes s);
  ty_ticks : is_uint (k_ticks s);
  ty_cons : cons_ok (k_cons s);
  ty_uart : uart_ok (k_uart s)
}.

(** The code keeps the types whenever it returns or gives up the CPU. *)
Definition keeps {A} (c : K kstate A) : Prop := forall s, typed s ->
  match c s with
  | Ret _ s' | Sleep s' => typed s'
  | Panic _ | Diverge => True
  end.

Create HintDb typed discriminated.

(** ** Walking through code *)

Lemma keeps_seq {A B} (c : K kstate A) (f : A -> K kstate B) : keeps c -> (forall a, keeps (f a)) -> keeps (kbind c f).
Proof.
  intros Hc Hf s Hs. specialize (Hc s Hs). unfold kbind. destruct (c s) as [a s1|m|s1|]; try done. exact (Hf a s1 Hc).
Qed.

(** What the result is known to be. *)
Lemma keeps_bind_with {A B} (P : A -> Prop) (c : K kstate A) (f : A -> K kstate B) :
  (forall s, typed s -> match c s with Ret a s' => typed s' /\ P a | Sleep s' => typed s' | _ => True end) ->
  (forall a, P a -> keeps (f a)) -> keeps (kbind c f).
Proof.
  intros Hc Hf s Hs. specialize (Hc s Hs). unfold kbind. destruct (c s) as [a s1|m|s1|]; try done. destruct Hc as [H1 H2]. exact (Hf a H2 s1 H1).
Qed.

Lemma keeps_return {A} (a : A) : keeps (kret a).
Proof. by intros s Hs. Qed.
Lemma keeps_panic {A} msg : keeps (panic (A := A) msg).
Proof. done. Qed.
Lemma keeps_diverge {A} : keeps (kdiverge (A := A)).
Proof. done. Qed.
Lemma keeps_get : keeps kget.
Proof. by intros s Hs. Qed.
Lemma keeps_myproc : keeps myproc.
Proof. by intros s Hs. Qed.

Lemma typed_proc0 : typed_proc proc0.
Proof. split; vm_compute; try done; lia. Qed.

Lemma typed_getp s p : typed s -> typed_proc (getp s p).
Proof.
  intros Hs. unfold getp. destruct (k_proc s !! p) as [x|] eqn:E; cbn; [|apply typed_proc0].
  exact (proj1 (Forall_lookup _ _) (ty_proc s Hs) p x E).
Qed.

Lemma typed_procs s l : typed s -> length l = length (k_proc s) -> Forall typed_proc l -> typed (with_proc l s).
Proof. intros [] Hl Hf. split; try done. cbn. congruence. Qed.

Lemma typed_setp s p x : typed s -> typed_proc x -> typed (setp s p x).
Proof. intros Hs Hx. apply typed_procs; [done|apply length_insert|]. apply Forall_insert; [apply Hs|done]. Qed.

Lemma typed_sleep_on c s : typed s -> typed (sleep_on c s).
Proof. intros Hs. apply typed_setp; [done|]. destruct (typed_getp s (k_me s) Hs). by split. Qed.

Lemma keeps_sleep {A} c : keeps (sleep (A := A) c).
Proof. intros s Hs. by apply typed_sleep_on. Qed.

Lemma keeps_sched {A} : keeps (sched (A := A)).
Proof. intros s Hs. unfold sched. by case_decide. Qed.

Lemma typed_with_fs f s : typed s -> typed (with_fs f s).
Proof. intros []. by split. Qed.

Lemma keeps_liftF {A} (c : K fstate A) : keeps (liftF c).
Proof.
  intros s Hs. unfold liftF. destruct (c (enter_fs s)); try done; [by apply typed_with_fs|]. apply typed_sleep_on. by apply typed_with_fs.
Qed.

Lemma keeps_wakeup c : keeps (wakeup c).
Proof.
  intros s Hs. apply typed_procs; [done|apply length_imap|]. apply Forall_lookup. intros i x. rewrite list_lookup_imap, fmap_Some. intros (y & E & ->).
  pose proof (proj1 (Forall_lookup _ _) (ty_proc s Hs) i y E) as []. unfold wake1. repeat case_decide; by split.
Qed.

Lemma keeps_liftW {A} (c : K fstate A) : keeps (liftW c).
Proof. apply keeps_seq; [apply keeps_liftF|]. intros a. apply keeps_seq; [apply keeps_wakeup|]. intros []. apply keeps_return. Qed.

Lemma keeps_pmod p f : (forall x, typed_proc x -> typed_proc (f x)) -> keeps (pmod p f).
Proof. intros Hf s Hs. apply typed_setp; [done|]. by apply Hf, typed_getp. Qed.
Lemma keeps_pmine f : (forall x, typed_proc x -> typed_proc (f x)) -> keeps (pmine f).
Proof. intros Hf s Hs. by apply (keeps_pmod (k_me s) f). Qed.

Lemma keeps_pget {B} p (f : proc -> K kstate B) : (forall x, typed_proc x -> keeps (f x)) -> keeps (kbind (pget p) f).
Proof. apply keeps_bind_with. intros s Hs. split; [done|by apply typed_getp]. Qed.
Lemma keeps_mine {B} (f : proc -> K kstate B) : (forall x, typed_proc x -> keeps (f x)) -> keeps (kbind mine f).
Proof. apply keeps_bind_with. intros s Hs. split; [done|by apply typed_getp]. Qed.

Lemma keeps_piget {B} pi (f : pipe -> K kstate B) : (forall x, pipe_ok x -> keeps (f x)) -> keeps (kbind (piget pi) f).
Proof. apply keeps_bind_with. intros s Hs. unfold piget. destruct (k_pipes s !! pi) as [x|] eqn:E; [|done]. split; [done|]. exact (ty_pipe s Hs pi x E). Qed.

Lemma typed_with_pipes l s : typed s -> map_Forall (fun _ => pipe_ok) l -> typed (with_pipes l s).
Proof. intros [] H. by split. Qed.

Lemma keeps_piset pi x : pipe_ok x -> keeps (piset pi x).
Proof. intros Hx s Hs. apply typed_with_pipes; [done|]. apply map_Forall_insert_2; [done|apply Hs]. Qed.
Lemma keeps_pipe_new pi x : pipe_ok x -> keeps (kmod (fun s => with_pipes (<[pi := x]> (k_pipes s)) s)).
Proof. apply keeps_piset. Qed.
Lemma keeps_pipe_free pi : keeps (kmod (fun s => with_pipes (delete pi (k_pipes s)) s)).
Proof. intros s Hs. apply typed_with_pipes; [done|]. apply map_Forall_delete, Hs. Qed.

Lemma typed_getf s f : typed s -> typed_file (default file0 (k_ftable s !! f)).
Proof.
  intros Hs. destruct (k_ftable s !! f) as [x|] eqn:E; cbn; [|by split]. exact (proj1 (Forall_lookup _ _) (ty_file s Hs) f x E).
Qed.

Lemma keeps_fget {B} f (k : file -> K kstate B) : (forall x, typed_file x -> keeps (k x)) -> keeps (kbind (fget f) k).
Proof. apply keeps_bind_with. intros s Hs. split; [done|]. exact (typed_getf s f Hs). Qed.
Lemma keeps_fset f x : typed_file x -> keeps (fset f x).
Proof. intros Hx s []. split; try done; cbn; [by rewrite length_insert|by apply Forall_insert]. Qed.
Lemma keeps_fmod f g : (forall x, typed_file x -> typed_file (g x)) -> keeps (fmod f g).
Proof. intros Hg. apply keeps_fget. intros x Hx. by apply keeps_fset, Hg. Qed.

Lemma is_int_int32 z : is_int (int32 z).
Proof. apply int32_range. Qed.
Lemma is_uint_uint32 z : is_uint (uint32 z).
Proof. apply uint32_range. Qed.

Lemma keeps_allocpid {B} (k : Z -> K kstate B) : (forall x, is_int x -> keeps (k x)) -> keeps (kbind allocpid k).
Proof. apply keeps_bind_with. intros s []. split; [|done]. split; try done. apply is_int_int32. Qed.

Lemma keeps_ticks : keeps (kmod (fun s => with_ticks (uint32 (k_ticks s + 1)) s)).
Proof. intros s []. split; try done. apply is_uint_uint32. Qed.

(** ** The transmitter *)

Lemma typed_with_uart u s : typed s -> uart_ok u -> typed (with_uart u s).
Proof. intros [] H. by split. Qed.

Lemma write_thr_ok c u : uart_ok u -> uart_ok (write_thr c u).
Proof. intros []. by split. Qed.

Lemma keeps_umod f : (forall u, uart_ok u -> uart_ok (f u)) -> keeps (umod f).
Proof. intros Hf s Hs. apply typed_with_uart; [done|]. apply Hf, Hs. Qed.

Lemma keeps_uartstart_loop fuel : keeps (uartstart_loop fuel).
Proof.
  induction fuel as [|fuel IH]; intros s Hs; cbn [uartstart_loop]; [done|]. unfold kbind at 1, kget at 1. cbv zeta.
  destruct (tx_w (k_uart s) =? tx_r (k_uart s)) eqn:E; [done|]. pose proof (ty_uart s Hs) as Hu.
  assert (pending (k_uart s) <> []) as Hne by (rewrite <- uart_empty by done; congruence).
  destruct (read_lsr_ok _ Hu) as (Hu1 & Hp1 & _). destruct (read_lsr (k_uart s)) as [idle u]. cbn [snd] in *. unfold kbind at 1, kmod at 1.
  assert (typed (with_uart u s)) as Hs1 by by apply typed_with_uart. destruct idle; cbn [negb]; [|done].
  unfold kbind at 1, umod at 1. cbn [k_uart with_uart].
  apply (keeps_seq (wakeup ChUart) _ (keeps_wakeup ChUart)).
  - intros _. apply keeps_seq; [|done]. apply keeps_umod. intros. by apply write_thr_ok.
  - apply (typed_with_uart (uart_take u)); [done|]. apply uart_take_ok; [done|]. by rewrite Hp1.
Qed.

Lemma keeps_uartstart : keeps uartstart.
Proof. apply keeps_uartstart_loop. Qed.

Lemma keeps_uartputc c : keeps (uartputc c).
Proof.
  intros s Hs. unfold uartputc. unfold kbind at 1, kget at 1. cbv zeta. pose proof (ty_uart s Hs) as Hu.
  destruct (Z.eqb_spec (tx_w (k_uart s)) (uint64 (tx_r (k_uart s) + UART_TX_BUF_SIZE))) as [E|E]; [by apply typed_sleep_on|].
  unfold kbind at 1, umod at 1. apply keeps_uartstart. apply typed_with_uart; [done|]. apply uart_put_ok; [done|].
  rewrite length_pending by done. destruct ring32 as (H1 & H2 & H3). destruct Hu as [B Y R W L]. unfold uint64 in E. change (2 ^ 64) with M64 in E.
  rewrite (ring_full UART_TX_BUF_SIZE M64) in E by done. lia.
Qed.

(** Sending at once only changes what has been sent. *)
Definition sends {A} (c : K kstate A) : Prop := forall s, uart_ok (k_uart s) ->
  match c s with
  | Ret _ s' => exists u, uart_ok u /\ s' = with_uart u s
  | Sleep _ => False
  | Panic _ | Diverge => True
  end.

Lemma sends_bind {A B} (c : K kstate A) (f : A -> K kstate B) : sends c -> (forall a, sends (f a)) -> sends (kbind c f).
Proof.
  intros Hc Hf s Hs. specialize (Hc s Hs). unfold kbind. destruct (c s) as [a s1|m|s1|]; try done. destruct Hc as (u & Hu & ->).
  specialize (Hf a (with_uart u s) Hu). by destruct (f a _).
Qed.

Lemma sends_uartputc_sync c : sends (uartputc_sync c).
Proof.
  intros s Hs. unfold uartputc_sync. unfold kbind at 1, kget at 1. cbv zeta. destruct (lsr_wait _) as [l|]; [|done].
  eexists. split; [|reflexivity]. apply write_thr_ok. destruct Hs. by split.
Qed.

Lemma sends_consputc c : sends (consputc c).
Proof.
  unfold consputc. destruct (c =? BACKSPACE); [|apply sends_uartputc_sync].
  repeat (apply sends_bind; [apply sends_uartputc_sync|intros]). apply sends_uartputc_sync.
Qed.

Lemma keeps_consputc c : keeps (consputc c).
Proof.
  intros s Hs. pose proof (sends_consputc c s (ty_uart s Hs)) as H. destruct (consputc c s); try done. destruct H as (u & Hu & ->). by apply typed_with_uart.
Qed.

(** ** The console *)

Lemma typed_with_cons c s : typed s -> cons_ok c -> typed (with_cons c s).
Proof. intros [] H. by split. Qed.

Lemma cons_take_ok c : cons_ok c -> cons_r c <> cons_w c -> cons_ok (set_r (uint32 (cons_r c + 1)) c).
Proof.
  destruct ring128 as (H1 & H2 & H3). intros [B R W E L N] Hne. split; try done; cbn [set_r cons_r cons_w cons_e].
  - apply Z.mod_pos_bound. done.
  - pose proof (ring_len_range INPUT_BUF_SIZE M32 H1 H2 (cons_r c) (cons_w c)) as Hr. rewrite <- (ring_empty INPUT_BUF_SIZE M32 H1 H2) in Hne by done.
    unfold uint32. change (2 ^ 32) with M32. rewrite (ring_len_pop INPUT_BUF_SIZE) by lia. lia.
Qed.

Lemma keeps_kill_line fuel : keeps (kill_line fuel).
Proof.
  induction fuel as [|fuel IH]; intros s Hs; [done|]. rewrite kill_line_S. unfold kbind at 1, kget at 1. cbv zeta. pose proof (ty_cons s Hs) as Hc.
  destruct (cons_e (k_cons s) =? cons_w (k_cons s)) eqn:E; cbn [negb andb]; [done|]. destruct (negb _); [|done].
  assert (editing (k_cons s) <> []) as Hne by (rewrite <- cons_empty by done; congruence).
  unfold kbind at 1, cmod at 1. apply (keeps_seq _ _ (keeps_consputc BACKSPACE)); [done|].
  apply typed_with_cons; [done|]. by apply cons_back_ok.
Qed.

Lemma keeps_cons_input c : 0 <= c < 256 -> keeps (cons_input c).
Proof.
  intros Hc s Hs. unfold cons_input. unfold kbind at 1, kget at 1. pose proof (ty_cons s Hs) as Ho. rewrite cons_room by done.
  destruct (negb (c =? 0) && _) eqn:Eg; [|done]. apply andb_true_iff in Eg as [_ Eg]. apply Z.ltb_lt in Eg. cbv zeta.
  set (ch := if c =? 13 then 10 else c). assert (0 <= ch < 256) as Hch by (unfold ch; destruct (c =? 13); lia).
  pose proof (sends_consputc ch s (ty_uart s Hs)) as Hp. unfold kbind at 1. destruct (consputc ch s) as [a s1|m|s1|]; try done. destruct Hp as (u & Hu & ->).
  unfold kbind at 1, cmod at 1. unfold kbind at 1, kget at 1. cbv zeta. cbn [k_cons with_cons with_uart].
  destruct (cons_store_ok ch (k_cons s) Ho Hch Eg) as (C1 & C2 & C3). rewrite C3.
  assert (typed (with_uart u s)) as Hs1 by by apply typed_with_uart.
  destruct ((ch =? 10) || (ch =? Ctrl 68) || _) eqn:Ec.
  - unfold kbind at 1, cmod at 1. apply keeps_wakeup. destruct (set_w_ok (cons_store ch (k_cons s))) as (W1 & _).
    { simpl. unfold ring_set. rewrite length_insert. apply Ho. }
    { apply Ho. }
    { apply Z.mod_pos_bound. done. }
    { rewrite C1, C2, length_app. simpl length. lia. }
    by apply (typed_with_cons _ _ Hs1) in W1.
  - unfold kret. apply (typed_with_cons (cons_store ch (k_cons s)) _ Hs1). apply cons_store_wf; try done.
    apply orb_false_iff in Ec as [Ec _]. apply orb_false_iff in Ec as [Ec _]. lia.
Qed.

Lemma keeps_consoleintr c : 0 <= c < 256 -> keeps (consoleintr c).
Proof.
  intros Hc. unfold consoleintr. destruct (c =? Ctrl 80); [apply keeps_return|]. destruct (c =? Ctrl 85); [apply keeps_kill_line|].
  destruct ((c =? Ctrl 72) || (c =? 127)); [|by apply keeps_cons_input]. intros s Hs. unfold kbind at 1, kget at 1. cbv zeta. pose proof (ty_cons s Hs) as Ho.
  destruct (cons_e (k_cons s) =? cons_w (k_cons s)) eqn:E; cbn [negb]; [done|].
  assert (editing (k_cons s) <> []) as Hne by (rewrite <- cons_empty by done; congruence).
  unfold kbind at 1, cmod at 1. apply keeps_consputc. apply typed_with_cons; [done|]. by apply cons_back_ok.
Qed.

Lemma keeps_uartintr l : Forall (fun c => 0 <= c < 256) l -> keeps (uartintr l).
Proof. induction 1 as [|c l Hc _ IH]; cbn [uartintr]; [apply keeps_uartstart|]. apply keeps_seq; [by apply keeps_consoleintr|done]. Qed.

(** ** Automation *)

Lemma keeps_pget_ p : keeps (pget p).
Proof. by intros s Hs. Qed.
Lemma keeps_mine_ : keeps mine.
Proof. by intros s Hs. Qed.
Lemma keeps_fget_ f : keeps (fget f).
Proof. by intros s Hs. Qed.
Lemma keeps_initproc v : keeps (kmod (with_initproc v)).
Proof. intros s []. by split. Qed.

#[export] Hint Resolve keeps_return keeps_panic keeps_diverge keeps_get keeps_myproc keeps_sleep keeps_sched keeps_liftF keeps_liftW
  keeps_wakeup keeps_pget_ keeps_mine_ keeps_fget_ keeps_ticks keeps_pipe_free keeps_initproc keeps_uartstart keeps_uartputc keeps_consputc
  keeps_kill_line is_int_int32 is_uint_uint32 : typed.

(** A changed process or file has the types it had. *)
Ltac typed_field :=
  first [ intros ? [] | match goal with H : typed_file _ |- _ => destruct H end | idtac ]; split; cbn; rewrite ?length_insert, ?length_replicate;
    solve [done | auto with typed nocore | unfold is_int; lia].

(** [typed_tac] walks through the code of an operation, step by step. *)
Ltac typed_step :=
  lazymatch goal with
  | |- keeps (kbind mine _) => apply keeps_mine; intros
  | |- keeps (kbind (pget _) _) => apply keeps_pget; intros
  | |- keeps (kbind (piget _) _) => apply keeps_piget; intros
  | |- keeps (kbind (fget _) _) => apply keeps_fget; intros
  | |- keeps (kbind allocpid _) => apply keeps_allocpid; intros
  | |- keeps (kbind _ _) => apply keeps_seq; [|intros]
  | |- keeps (pmine _) => apply keeps_pmine; typed_field
  | |- keeps (pmod _ _) => apply keeps_pmod; typed_field
  | |- keeps (fmod _ _) => apply keeps_fmod; typed_field
  | |- keeps (fset _ _) => apply keeps_fset; typed_field
  end.
Ltac typed_tac := repeat first [ solve [auto with typed nocore] | typed_step | progress cbv zeta | case_match ].

Section keeps.
Context `{I : KernelImage}.

Lemma keeps_killed p : keeps (killed p).
Proof. apply keeps_pget. intros. apply keeps_return. Qed.

Lemma keeps_consoleread_loop fuel : forall u dst n target, keeps (consoleread_loop fuel u dst n target).
Proof.
  induction fuel as [|fuel IH]; intros u dst n target; cbn [consoleread_loop]; [apply keeps_diverge|]. destruct (0 <? n); [|apply keeps_return].
  intros s Hs. unfold kbind at 1, kget at 1. cbv zeta. pose proof (ty_cons s Hs) as Ho.
  destruct (Z.eqb_spec (cons_r (k_cons s)) (cons_w (k_cons s))) as [E|E].
  - clear Ho E. revert s Hs. apply keeps_seq; [apply keeps_myproc|]. intros me. apply keeps_seq; [apply keeps_killed|].
    intros []; [apply keeps_return|apply keeps_sleep].
  - unfold kbind at 1, cmod at 1. assert (typed (with_cons (set_r (uint32 (cons_r (k_cons s) + 1)) (k_cons s)) s)) as Hs1.
    { apply typed_with_cons; [done|]. by apply cons_take_ok. }
    destruct (cons_at _ _ =? Ctrl 68).
    + destruct (uint32 n <? target); [|done]. unfold kbind at 1, cmod at 1. cbn [k_cons with_cons set_r]. unfold kret.
      apply (typed_with_cons (Console (cons_buf (k_cons s)) (cons_r (k_cons s)) (cons_w (k_cons s)) (cons_e (k_cons s))) _ Hs1). by destruct (k_cons s).
    + revert Hs1. generalize (with_cons (set_r (uint32 (cons_r (k_cons s) + 1)) (k_cons s)) s). apply keeps_seq; [apply keeps_liftF|].
      intros r. repeat case_match; first [apply keeps_return|apply IH].
Qed.

Lemma keeps_consoleread u dst n : keeps (consoleread u dst n).
Proof. apply keeps_consoleread_loop. Qed.

(** ** Pipes *)

Lemma pipe_put_typed x ch : pipe_ok x -> (nwrite x =? uint32 (nread x + PIPESIZE)) = false -> pipe_ok (pipe_put x ch).
Proof. intros H E. rewrite queue_full in E by done. apply pipe_put_ok; [done|]. by apply Z.eqb_neq. Qed.
Lemma pipe_take_typed x : pipe_ok x -> (nread x =? nwrite x) = false -> pipe_ok (pipe_take x).
Proof. intros H E. rewrite queue_empty in E by done. apply pipe_take_ok; [done|]. apply Z.eqb_neq in E. lia. Qed.

Lemma keeps_kmemop {A} (c : K kmem A) : keeps (kmemop c).
Proof. apply keeps_liftF. Qed.
Lemma keeps_begin_op : keeps kbegin_op.
Proof. apply keeps_liftF. Qed.
Lemma keeps_end_op : keeps kend_op.
Proof. apply keeps_liftW. Qed.
Lemma keeps_tf_get tf off : keeps (tf_get tf off).
Proof. apply keeps_liftF. Qed.
Lemma keeps_tf_set tf off v : keeps (tf_set tf off v).
Proof. apply keeps_liftF. Qed.
#[local] Hint Resolve keeps_kmemop keeps_begin_op keeps_end_op keeps_tf_get keeps_tf_set keeps_killed keeps_consoleread : typed.
Lemma keeps_copyin1 a : keeps (copyin1 a).
Proof. unfold copyin1. typed_tac. Qed.
Lemma keeps_copyout1 a c : keeps (copyout1 a c).
Proof. unfold copyout1. typed_tac. Qed.
#[local] Hint Resolve keeps_copyin1 keeps_copyout1 : typed.

Lemma keeps_pipeclose pi w : keeps (pipeclose pi w).
Proof.
  unfold pipeclose. apply keeps_piget. intros x Hx. apply keeps_seq; [|intros; typed_tac].
  destruct w; (apply keeps_seq; [apply keeps_piset; destruct Hx; by split|intros; typed_tac]).
Qed.

Lemma keeps_pipewrite pi addr n : keeps (pipewrite pi addr n).
Proof.
  unfold pipewrite. generalize 0 at 1. induction (S (Z.to_nat n)) as [|k IH]; intros i; cbn [pipewrite_loop]; [typed_tac|].
  destruct (i <? n); [|typed_tac]. apply keeps_piget. intros x Hx. do 2 (apply keeps_seq; [auto with typed nocore|intros]).
  destruct (negb (readopen x) || _); [typed_tac|]. destruct (nwrite x =? _) eqn:E; [typed_tac|].
  apply keeps_seq; [typed_tac|]. intros r. destruct (fst r =? -1); [typed_tac|]. apply keeps_seq; [by apply keeps_piset, pipe_put_typed|done].
Qed.

Lemma keeps_piperead pi addr n : keeps (piperead pi addr n).
Proof.
  assert (forall k i, keeps (piperead_loop k pi addr i n)) as Hl.
  { induction k as [|k IH]; intros i; cbn [piperead_loop]; [typed_tac|]. destruct (i <? n); [|typed_tac]. apply keeps_piget. intros x Hx.
    destruct (nread x =? nwrite x) eqn:E; [typed_tac|]. apply keeps_seq; [by apply keeps_piset, pipe_take_typed|]. intros. typed_tac. }
  unfold piperead. typed_tac.
Qed.
#[local] Hint Resolve keeps_pipeclose keeps_pipewrite keeps_piperead : typed.

(** ** Files *)

Lemma keeps_consolewrite src n : keeps (consolewrite src n).
Proof. unfold consolewrite. generalize 0 at 1. induction (S (Z.to_nat n)) as [|k IH]; intros i; cbn [consolewrite_loop]; typed_tac. Qed.
#[local] Hint Resolve keeps_consolewrite : typed.
Lemma keeps_filealloc : keeps filealloc.
Proof. unfold filealloc. typed_tac. Qed.
Lemma keeps_filedup f : keeps (filedup f).
Proof. unfold filedup. typed_tac. Qed.
Lemma keeps_fileclose f : keeps (fileclose f).
Proof. unfold fileclose. typed_tac. Qed.
Lemma keeps_filestat f a : keeps (filestat f a).
Proof. unfold filestat. typed_tac. Qed.
Lemma keeps_fileread f a n : keeps (fileread f a n).
Proof. unfold fileread. typed_tac. Qed.
Lemma keeps_filewrite f a n : keeps (filewrite f a n).
Proof.
  assert (forall k i, keeps (filewrite_loop k f a i n)) as Hl by (induction k; intros; cbn [filewrite_loop]; typed_tac).
  unfold filewrite. typed_tac.
Qed.
#[local] Hint Resolve keeps_filealloc keeps_filedup keeps_fileclose keeps_filestat keeps_fileread keeps_filewrite : typed.
Lemma keeps_pipealloc : keeps pipealloc.
Proof.
  assert (pipe_ok (Pipe (replicate (Z.to_nat PIPESIZE) 5) 0 0 true true)) as Hp by by split.
  pose proof (fun pi => keeps_pipe_new pi _ Hp). unfold pipealloc. typed_tac.
Qed.
#[local] Hint Resolve keeps_pipealloc : typed.

(** ** System calls *)

Lemma keeps_argraw n : keeps (argraw n).
Proof. unfold argraw. typed_tac. Qed.
#[local] Hint Resolve keeps_argraw : typed.
Lemma keeps_argint_ n : keeps (argint n).
Proof. unfold argint. typed_tac. Qed.
Lemma keeps_argint {B} n (k : Z -> K kstate B) : (forall x, is_int x -> keeps (k x)) -> keeps (kbind (argint n) k).
Proof.
  apply keeps_bind_with. intros s Hs. pose proof (keeps_argraw n s Hs) as H. unfold argint, kbind. destruct (argraw n s); try done.
  split; [done|]. apply is_int_int32.
Qed.
Lemma keeps_argaddr n : keeps (argaddr n).
Proof. apply keeps_argraw. Qed.
Lemma keeps_fetchaddr a : keeps (fetchaddr a).
Proof. unfold fetchaddr. typed_tac. Qed.
Lemma keeps_fetchstr a m : keeps (fetchstr a m).
Proof. unfold fetchstr. typed_tac. Qed.
#[local] Hint Resolve keeps_argint_ keeps_argaddr keeps_fetchaddr keeps_fetchstr : typed.
Lemma keeps_argstr n m : keeps (argstr n m).
Proof. unfold argstr. typed_tac. Qed.
Lemma keeps_argfd n : keeps (argfd n).
Proof. unfold argfd. typed_tac. Qed.
Lemma keeps_fdalloc f : keeps (fdalloc f).
Proof. unfold fdalloc. typed_tac. Qed.
Lemma keeps_fdclear f : keeps (fdclear f).
Proof. unfold fdclear. typed_tac. Qed.
#[local] Hint Resolve keeps_argstr keeps_argfd keeps_fdalloc keeps_fdclear : typed.

Lemma keeps_sys_pipe : keeps sys_pipe.
Proof. unfold sys_pipe. typed_tac. Qed.
Lemma keeps_sys_read : keeps sys_read.
Proof. unfold sys_read. typed_tac. Qed.
Lemma keeps_sys_write : keeps sys_write.
Proof. unfold sys_write. typed_tac. Qed.
Lemma keeps_sys_fstat : keeps sys_fstat.
Proof. unfold sys_fstat. typed_tac. Qed.
Lemma keeps_sys_chdir : keeps sys_chdir.
Proof. unfold sys_chdir. typed_tac. Qed.
Lemma keeps_sys_dup : keeps sys_dup.
Proof. unfold sys_dup. typed_tac. Qed.
Lemma keeps_sys_close : keeps sys_close.
Proof. unfold sys_close. typed_tac. Qed.
Lemma keeps_growproc n : keeps (growproc n).
Proof. unfold growproc. typed_tac. Qed.
#[local] Hint Resolve keeps_growproc : typed.
Lemma keeps_sys_sbrk : keeps sys_sbrk.
Proof. unfold sys_sbrk. typed_tac. Qed.
Lemma keeps_sys_sleep : keeps sys_sleep.
Proof. unfold sys_sleep, sleep_until. typed_tac. Qed.
Lemma keeps_open_inode p m : keeps (open_inode p m).
Proof. unfold open_inode. typed_tac. Qed.
#[local] Hint Resolve keeps_open_inode : typed.

(** The major number has been compared with NDEV. *)
Lemma keeps_sys_open : keeps sys_open.
Proof.
  unfold sys_open. do 2 (apply keeps_seq; [typed_tac|intros]). case_match; [typed_tac|]. do 2 (apply keeps_seq; [typed_tac|intros]). case_match; [|typed_tac].
  apply keeps_seq; [typed_tac|]. intros x. destruct ((i_type x =? T_DEVICE) && _) eqn:E; [typed_tac|]. apply keeps_seq; [typed_tac|]. intros [f|]; [|typed_tac].
  apply keeps_seq; [typed_tac|]. intros fd. case_match; [typed_tac|]. cbv zeta. apply keeps_seq; [|intros; typed_tac].
  destruct (i_type x =? T_DEVICE); [|typed_tac]. apply keeps_fmod. intros y []. split; cbn; [done|]. intros _. cbn in E. lia.
Qed.

Lemma keeps_sys_mknod : keeps sys_mknod.
Proof. unfold sys_mknod. typed_tac. Qed.
Lemma keeps_sys_mkdir : keeps sys_mkdir.
Proof. unfold sys_mkdir. typed_tac. Qed.
Lemma keeps_sys_link : keeps sys_link.
Proof. unfold sys_link, link_bad. typed_tac. Qed.
Lemma keeps_sys_unlink : keeps sys_unlink.
Proof. unfold sys_unlink, unlink_bad. typed_tac. Qed.

(** ** exec *)

Lemma copy_name_short l : (length (copy_name l) < 16)%nat.
Proof. unfold copy_name. rewrite length_take. lia. Qed.

Lemma keeps_set_name p l : keeps (pmod p (set_name (copy_name l))).
Proof. apply keeps_pmod. intros x []. split; try done. apply copy_name_short. Qed.
Lemma keeps_set_my_name l : keeps (pmine (set_name (copy_name l))).
Proof. apply keeps_pmine. intros x []. split; try done. apply copy_name_short. Qed.
#[local] Hint Resolve keeps_set_name keeps_set_my_name : typed.

Lemma keeps_loadseg pt va ip off sz : keeps (loadseg pt va ip off sz).
Proof. unfold loadseg. generalize 0 at 1. induction (S _) as [|k IH]; intros i; cbn [loadseg_loop]; typed_tac. Qed.
#[local] Hint Resolve keeps_loadseg : typed.
Lemma keeps_load_loop k : forall pt ip off sz, keeps (load_loop k pt ip off sz).
Proof. induction k; intros; cbn [load_loop]; typed_tac. Qed.
Lemma keeps_push_args argv : forall argc pt sp base us, keeps (push_args argv argc pt sp base us).
Proof. induction argv; intros; cbn [push_args]; typed_tac. Qed.
Lemma keeps_exec_bad pt sz ip : keeps (exec_bad pt sz ip).
Proof. unfold exec_bad. typed_tac. Qed.
#[local] Hint Resolve keeps_load_loop keeps_push_args keeps_exec_bad : typed.
Lemma keeps_exec_image path argv elf pt sz : keeps (exec_image path argv elf pt sz).
Proof. unfold exec_image. typed_tac. Qed.
#[local] Hint Resolve keeps_exec_image : typed.
Lemma keeps_exec path argv : keeps (exec path argv).
Proof. unfold exec. typed_tac. Qed.
Lemma keeps_fetch_args k : forall u i pages args, keeps (fetch_args k u i pages args).
Proof. induction k; intros; cbn [fetch_args]; typed_tac. Qed.
Lemma keeps_free_args pages : keeps (free_args pages).
Proof. induction pages; cbn [free_args]; typed_tac. Qed.
#[local] Hint Resolve keeps_exec keeps_fetch_args keeps_free_args : typed.
Lemma keeps_sys_exec : keeps sys_exec.
Proof. unfold sys_exec. typed_tac. Qed.

(** ** Processes *)

Lemma keeps_freeproc p : keeps (freeproc p).
Proof. unfold freeproc. typed_tac. Qed.
#[local] Hint Resolve keeps_freeproc : typed.
Lemma keeps_allocproc : keeps allocproc.
Proof. unfold allocproc. typed_tac. Qed.
Lemma keeps_dup_files l : forall np i, keeps (dup_files l np i).
Proof. induction l; intros; cbn [dup_files]; typed_tac. Qed.
#[local] Hint Resolve keeps_allocproc keeps_dup_files : typed.
Lemma keeps_fork : keeps fork.
Proof. unfold fork. typed_tac. Qed.
Lemma keeps_wakeup_proc p : keeps (wakeup_proc p).
Proof. unfold wakeup_proc. typed_tac. Qed.
#[local] Hint Resolve keeps_wakeup_proc : typed.
Lemma keeps_reparent p : keeps (reparent p).
Proof. unfold reparent. generalize 0%nat. induction (Z.to_nat NPROC); intros; cbn [reparent_loop]; typed_tac. Qed.
Lemma keeps_close_files k : forall fd, keeps (close_files k fd).
Proof. induction k; intros; cbn [close_files]; typed_tac. Qed.
#[local] Hint Resolve keeps_reparent keeps_close_files : typed.
Lemma keeps_exit status : is_int status -> keeps (exit status).
Proof. intros Hi. unfold exit. typed_tac. Qed.
Lemma keeps_wait_scan k : forall pp addr h, keeps (wait_scan k pp addr h).
Proof. induction k; intros; cbn [wait_scan]; typed_tac. Qed.
#[local] Hint Resolve keeps_wait_scan : typed.
Lemma keeps_wait addr : keeps (wait addr).
Proof. unfold wait. typed_tac. Qed.
Lemma keeps_kill pid : keeps (kill pid).
Proof. unfold kill. generalize 0%nat. induction (Z.to_nat NPROC); intros; cbn [kill_loop]; typed_tac. Qed.
Lemma keeps_sys_exit : keeps sys_exit.
Proof. unfold sys_exit. apply keeps_argint. intros n Hn. apply keeps_seq; [by apply keeps_exit|]. intros. apply keeps_return. Qed.
#[local] Hint Resolve keeps_sys_pipe keeps_sys_read keeps_sys_write keeps_sys_fstat keeps_sys_chdir keeps_sys_dup keeps_sys_close keeps_sys_sbrk
  keeps_sys_sleep keeps_sys_open keeps_sys_mknod keeps_sys_mkdir keeps_sys_link keeps_sys_unlink keeps_sys_exec keeps_fork keeps_wait keeps_kill
  keeps_sys_exit : typed.

Lemma keeps_syscalls num c : syscalls num = Some c -> keeps c.
Proof.
  unfold syscalls. repeat case_match; intros [= <-]; try (unfold sys_fork, sys_wait, sys_kill, sys_getpid, sys_uptime; typed_tac).
Qed.
Lemma keeps_kprint_str str fmt args : keeps (kprint_str str fmt args).
Proof. unfold kprint_str. destruct (kprintf _ fmt args) as [o|]; [|apply keeps_panic]. induction o; cbn [foldr]; typed_tac. Qed.
Lemma keeps_kprint fmt args : keeps (kprint fmt args).
Proof. apply keeps_kprint_str. Qed.
#[local] Hint Resolve keeps_kprint_str : typed.
Lemma keeps_syscall : keeps syscall.
Proof. unfold syscall. typed_tac. by eapply keeps_syscalls. Qed.

(** The scheduler's choice. *)
Lemma typed_dispatch p s s' : typed s -> dispatch p s = Some s' -> typed s'.
Proof.
  intros Hs. unfold dispatch. case_decide; [|done]. intros [= <-].
  assert (typed (setp s p (set_state RUNNING (getp s p)))) as H2.
  { apply typed_setp; [done|]. destruct (typed_getp s p Hs). by split. }
  by destruct H2.
Qed.

(** Giving up the CPU: the others keep the types. *)
Lemma keeps_yield {R} (others : kstate -> option (R * kstate)) :
  (forall s r s', typed s -> others s = Some (r, s') -> typed s') -> keeps (yield others).
Proof.
  intros Ho s Hs. unfold yield, kbind, pmine, pmod, sched_until.
  assert (typed (setp s (k_me s) (set_state RUNNABLE (getp s (k_me s))))) as H0.
  { apply typed_setp; [done|]. destruct (typed_getp s (k_me s) Hs). by split. }
  case_decide; [done|]. destruct (others _) as [[r s1]|] eqn:E; [|done]. pose proof (Ho _ _ _ H0 E) as H1.
  destruct (dispatch _ s1) as [s2|] eqn:E2; [|done]. by eapply typed_dispatch.
Qed.
End keeps.

(** ** Traps *)

(** The disk's interrupt handler marks buffers of the file system and wakes
    processes up. *)
Definition only_wakes (c : K kstate unit) : Prop := forall s,
  match c s with
  | Ret _ s' => exists f l, s' = with_proc l (with_fs f s) /\ Forall2 woken (k_proc s) l
  | _ => False
  end.

Lemma keeps_only_wakes c : only_wakes c -> keeps c.
Proof.
  intros H s Hs. specialize (H s). destruct (c s) as [a s'|m|s'|]; try done. destruct H as (f & l & -> & Hl).
  apply typed_procs; [by apply typed_with_fs|symmetry; by eapply Forall2_length|]. pose proof (ty_proc s Hs) as Hp.
  induction Hl as [|x y xs ys [->|[_ ->]] Hl IH]; [done|..]; apply Forall_cons in Hp as [[] Hp]; (constructor; [by split|by apply IH]).
Qed.

Section traps.
Context `{I : KernelImage} `{DI : DiskIntr}.
Hypothesis Hdisk : only_wakes virtio_disk_intr.
Variable t : trap.
Hypothesis Hrx : Forall (fun c => 0 <= c < 256) (t_rx t).

Variable others : kstate -> option (trap * kstate).
Hypothesis Hothers : forall s r s', typed s -> others s = Some (r, s') -> typed s'.

Lemma keeps_devintr : keeps (devintr t).
Proof.
  pose proof (keeps_uartintr _ Hrx). pose proof keeps_kprint. pose proof (keeps_only_wakes _ Hdisk). unfold devintr, plic_claim, clockintr. typed_tac.
Qed.

Lemma keeps_usertrap a : keeps (usertrap a others t).
Proof.
  pose proof keeps_devintr. pose proof keeps_kprint. pose proof keeps_syscall. pose proof keeps_killed. pose proof keeps_tf_get. pose proof keeps_tf_set.
  pose proof (keeps_yield others Hothers). assert (keeps (exit (-1))) by (apply keeps_exit; unfold is_int; lia).
  unfold usertrap, trap_service, trap_other, usertrapret, setkilled. typed_tac.
Qed.

Lemma keeps_kerneltrap b : keeps (kerneltrap others b t).
Proof. pose proof keeps_devintr. pose proof keeps_kprint. pose proof (keeps_yield others Hothers). unfold kerneltrap. typed_tac. Qed.
End traps.

(** ** The booted kernel *)

Lemma typed_procinit : Forall typed_proc procinit.
Proof.
  apply Forall_lookup. intros i x. unfold procinit. rewrite list_lookup_fmap, fmap_Some. intros (k & _ & ->). destruct typed_proc0. by split.
Qed.

Lemma typed_first m pt tf d idle sent : typed (first_state RUNNING m pt tf d (uart_on idle sent)).
Proof.
  split; cbn [first_state k_proc k_nextpid k_ftable k_pipes k_ticks k_cons k_uart].
  - by rewrite length_insert.
  - apply Forall_insert; [apply typed_procinit|]. split; cbn; unfold is_int; try done; lia.
  - unfold is_int. lia.
  - done.
  - apply Forall_replicate. split; [unfold is_uint; cbn; lia|done].
  - apply map_Forall_empty.
  - unfold is_uint. lia.
  - split; try done. apply not_elem_of_nil.
  - split; try done. apply Forall_replicate. lia.
Qed.

Lemma only_wakes_wakeup c : only_wakes (wakeup c).
Proof.
  intros s. exists (k_fs s), (imap (wake1 (k_me s) c) (k_proc s)). split; [by destruct s|]. apply Forall2_same_length_lookup_2; [by rewrite length_imap|].
  intros i x y Hx. rewrite list_lookup_imap, Hx. intros [= <-]. unfold wake1. repeat case_decide; [by left|right; tauto|by left].
Qed.

(** The example machine, and a key typed while its process runs. *)
Lemma typed_kstate0 : typed kstate0.
Proof.
  split.
  - done.
  - apply Forall_cons. split; [|apply Forall_replicate, typed_proc0]. split; cbn; unfold is_int; try done; lia.
  - unfold is_int. change (k_nextpid kstate0) with 2. lia.
  - done.
  - apply Forall_replicate. split; [unfold is_uint; cbn; lia|done].
  - apply map_Forall_empty.
  - unfold is_uint. change (k_ticks kstate0) with 0. lia.
  - split; try done. apply not_elem_of_nil.
  - apply uart0_ok.
Qed.
Definition trap_key : trap := Trap CAUSE_EXTERNAL 4096 0 0 0 UART0_IRQ [97] 0.

(** Processes that run in turn keep the types. *)
Lemma turns_typed `{I : KernelImage} `{DI : DiskIntr} addr l r : only_wakes virtio_disk_intr -> Forall (fun x => Forall (fun c => 0 <= c < 256) (t_rx x.2)) l ->
  forall s r' s', typed s -> turns addr l r s = Some (r', s') -> typed s'.
Proof.
  intros Hd. induction 1 as [|[q t] l Ht _ IH]; intros s r' s' Hs; cbn [turns]; [by intros [= _ <-]|].
  destruct (dispatch q s) as [s1|] eqn:E; [|by apply IH]. assert (typed s1) as Hs1 by by eapply typed_dispatch.
  destruct (_ <? _); [|done]. pose proof (keeps_usertrap Hd t Ht (fun _ => None) ltac:(done) addr s1 Hs1) as H.
  destruct (usertrap addr _ t s1); try done; by apply IH.
Qed.

(** C9: The kernel's data keep their types.  After booting and then after every trap
    from user space or from the kernel, however the code returns or gives up the
    CPU: the tables have NPROC and NFILE entries; pids, exit statuses and the
    next pid are ints, the name of a process fits its 16 bytes with the NUL and it
    has NOFILE descriptors; the offset of a file is a 32-bit number and the
    device number of a device an index of devsw; the counters of all pipes, of
    the console and of the transmitter are within their width and never
    further apart than their buffers are long.  (Between a process's [yield] and
    its next turn other processes run, of which the same holds.) *)
Theorem kernel_data_typed `{I : KernelImage} `{DI : DiskIntr} a others noproc t :
  (forall s r s', typed s -> others s = Some (r, s') -> typed s') -> only_wakes virtio_disk_intr -> Forall (fun c => 0 <= c < 256) (t_rx t) ->
  (forall m pt tf d idle sent, typed (first_state RUNNING m pt tf d (uart_on idle sent))) /\ keeps (usertrap a others t) /\ keeps (kerneltrap others noproc t).
Proof. intros Ho Hd Hr. split; [apply typed_first|]. split; [by apply keeps_usertrap|by apply keeps_kerneltrap]. Qed.

Lemma kernel_data_typed_witness :
  let others := @turns image0 disk_intr_wakes 0x80002000 [(1%nat, trap_key)] trap_key in
  (exists u s', @usertrap image0 disk_intr_wakes 0x80002000 others trap_key kstate0 = Ret u s' /\ editing (k_cons s') = [97] /\ typed s') /\
  (exists u s', @usertrap image0 disk_intr_wakes 0x80002000 others trap_timer kstate0 = Ret u s' /\ typed s').
Proof.
  intros others.
  assert (forall s r s', typed s -> others s = Some (r, s') -> typed s') as Ho.
  { apply turns_typed; [apply only_wakes_wakeup|repeat constructor; cbn; lia]. }
  split.
  - assert (match @usertrap image0 disk_intr_wakes 0x80002000 others trap_key kstate0 with Ret _ s' => editing (k_cons s') | _ => [] end = [97]) as Hv
      by (vm_compute; reflexivity).
    destruct (@kernel_data_typed image0 disk_intr_wakes 0x80002000 others false trap_key Ho (only_wakes_wakeup ChFs)) as (_ & H & _); [repeat constructor; lia|].
    specialize (H kstate0 typed_kstate0). destruct (@usertrap image0 disk_intr_wakes 0x80002000 others trap_key kstate0) as [u s'| | |]; try discriminate Hv.
    exists u, s'. split; [reflexivity|]. split; [exact Hv|exact H].
  - assert (is_ret (@usertrap image0 disk_intr_wakes 0x80002000 others trap_timer kstate0) = true) as Hv by (vm_compute; reflexivity).
    destruct (@kernel_data_typed image0 disk_intr_wakes 0x80002000 others false trap_timer Ho (only_wakes_wakeup ChFs)) as (_ & H & _); [constructor|].
    specialize (H kstate0 typed_kstate0). destruct (@usertrap image0 disk_intr_wakes 0x80002000 others trap_timer kstate0) as [u s'| | |]; try discriminate Hv.
    exists u, s'. split; [reflexivity|exact H].
Defined.
