(* ===== verification/Grep.v ===== *)
(** * user/grep.c

    The regular-expression matcher and the line loop of grep.  C strings
    are lists of characters without the terminating NUL, so [re[1]] past the
    end is the NUL the source tests for.  The matcher is proved equivalent
    to the language of the pattern it parses, and the line loop to filtering
    the lines of the whole input, however [read] cuts it into pieces. *)

From S2P Require Import Prelude.

Definition CARET : Z := 94.
Definition STAR : Z := 42.
Definition DOLLAR : Z := 36.
Definition DOT : Z := 46.
Definition NL : Z := 10.

(** ** The matcher *)

(** [do { if(matchhere(re, text)) return 1; } while( *text != 0 && ( *text++ == c || c == '.'))],
    with [mh] standing for the call of matchhere on the rest of the pattern. *)
Definition matchstar (mh : list Z -> bool) (c : Z) : list Z -> bool :=
  fix go text :=
    if mh text then true
    else match text with
         | [] => false
         | x :: text' => if (x =? c) || (c =? DOT) then go text' else false
         end.

Fixpoint matchhere (re text : list Z) {struct re} : bool :=
  match re with
  | [] => true
  | c :: re1 =>
      let one :=
        match text with
        | [] => false
        | x :: text' => if (c =? DOT) || (c =? x) then matchhere re1 text' else false
        end in
      match re1 with
      | [] =>
          if c =? DOLLAR then match text with [] => true | _ => false end
          else one
      | c1 :: re2 =>
          if c1 =? STAR then matchstar (matchhere re2) c text else one
      end
  end.

Fixpoint match_anywhere (re text : list Z) : bool :=
  if matchhere re text then true
  else match text with [] => false | _ :: text' => match_anywhere re text' end.

Definition match_ (re text : list Z) : bool :=
  match re with
  | c :: re' => if c =? CARET then matchhere re' text else match_anywhere re text
  | [] => match_anywhere re text
  end.

(** ** The line loop *)

(** [strchr(p, '\n')] in the NUL-terminated buffer: the text before the
    newline and after it. *)
Fixpoint strchr_nl (p : list Z) : option (list Z * list Z) :=
  match p with
  | [] => None
  | x :: p' =>
      if x =? 0 then None
      else if x =? NL then Some ([], p')
      else match strchr_nl p' with
           | Some (l, r) => Some (x :: l, r)
           | None => None
           end
  end.

(** The inner loop over the complete lines of the buffer: what it writes,
    and what is left at [p]. *)
Fixpoint grep_lines (fuel : nat) (pattern p : list Z) : list Z * list Z :=
  match fuel with
  | O => ([], p)
  | S fuel' =>
      match strchr_nl p with
      | None => ([], p)
      | Some (l, r) =>
          let (out, rest) := grep_lines fuel' pattern r in
          ((if match_ pattern l then l ++ [NL] else []) ++ out, rest)
      end
  end.

Definition BUFSZ : nat := 1024.

Section grep.

(** [read(fd, buf, max)] on a file whose unread bytes are [input] delivers
    the first [sz input max] of them. *)
Context (sz : list Z -> nat -> nat).

Fixpoint grep_loop (fuel : nat) (pattern buf input : list Z) : list Z :=
  match fuel with
  | O => []
  | S fuel' =>
      let n := sz input (BUFSZ - length buf - 1) in
      match n with
      | O => []
      | _ =>
          let (out, rest) := grep_lines BUFSZ pattern (buf ++ take n input) in
          out ++ grep_loop fuel' pattern rest (drop n input)
      end
  end.

Definition grep (pattern input : list Z) : list Z :=
  grep_loop (S (length input)) pattern [] input.

End grep.

(** ** The language of a pattern *)

(** A pattern is a sequence of single characters and starred characters,
    and may end in [$]; [.] stands for any character. *)
Inductive item := One (c : Z) | Many (c : Z).

Fixpoint parse_re (re : list Z) : list item * bool :=
  match re with
  | [] => ([], false)
  | c :: re1 =>
      match re1 with
      | [] => if c =? DOLLAR then ([], true) else ([One c], false)
      | c1 :: re2 =>
          if c1 =? STAR then let (l, e) := parse_re re2 in (Many c :: l, e)
          else let (l, e) := parse_re re1 in (One c :: l, e)
      end
  end.

Definition char_ok (c x : Z) : Prop := c = DOT \/ c = x.

Fixpoint lang (l : list item) (w : list Z) : Prop :=
  match l with
  | [] => w = []
  | One c :: l' => exists x w', w = x :: w' /\ char_ok c x /\ lang l' w'
  | Many c :: l' => exists u w', w = u ++ w' /\ Forall (char_ok c) u /\ lang l' w'
  end.

(** The pattern matches a prefix of the text; with [$], all of it. *)
Definition matches_prefix (re text : list Z) : Prop :=
  exists w rest, text = w ++ rest /\ lang (fst (parse_re re)) w /\ (snd (parse_re re) = true -> rest = []).

Lemma matchstar_spec mh c text :
  matchstar mh c text = true <-> exists u t, text = u ++ t /\ Forall (char_ok c) u /\ mh t = true.
Proof.
  induction text as [|x text IH]; simpl.
  - destruct (mh []) eqn:E; split; try done.
    + intros _. by exists [], [].
    + intros ([|] & [|] & H1 & H2 & H3); try done. congruence.
  - destruct (mh (x :: text)) eqn:E; [split; [intros _; by exists [], (x :: text)|done]|].
    destruct ((x =? c) || (c =? DOT)) eqn:E2.
    + rewrite IH. apply orb_true_iff in E2. rewrite !Z.eqb_eq in E2. split.
      * intros (u & t & -> & H2 & H3). exists (x :: u), t. split; [done|]. split; [|done].
        constructor; [unfold char_ok; destruct E2; auto|done].
      * intros ([|y u] & t & H1 & H2 & H3); simplify_eq/=; [congruence|]. inversion H2; subst. by exists u, t.
    + split; [done|]. intros ([|y u] & t & H1 & H2 & H3); simplify_eq/=; [congruence|].
      inversion H2 as [|? ? [->| ->]]; subst; apply orb_false_iff in E2 as [E2 E3]; rewrite ?Z.eqb_refl in *; done.
Qed.

Lemma one_spec c re1 x text :
  (if (c =? DOT) || (c =? x) then matchhere re1 text else false) = true <->
  char_ok c x /\ matchhere re1 text = true.
Proof.
  unfold char_ok. rewrite <- !Z.eqb_eq, <- orb_true_iff.
  destruct ((c =? DOT) || (c =? x)); intuition congruence.
Qed.

Lemma matchhere_one c re1 text :
  (forall t, matchhere re1 t = true <-> matches_prefix re1 t) ->
  match text with
  | [] => false
  | x :: text' => if (c =? DOT) || (c =? x) then matchhere re1 text' else false
  end = true <->
  exists w rest, text = w ++ rest /\ lang (One c :: fst (parse_re re1)) w /\
    (snd (parse_re re1) = true -> rest = []).
Proof.
  intros IH. destruct text as [|x text].
  - split; [done|]. intros (w & rest & H1 & (x & w' & -> & _) & _). done.
  - rewrite one_spec, IH. split.
    + intros (Hc & w & rest & -> & H2 & H3). exists (x :: w), rest. split; [done|]. split; [|done].
      exists x, w. done.
    + intros (w & rest & H1 & (y & w' & -> & Hc & H2) & H3). simplify_eq/=. split; [done|]. by exists w', rest.
Qed.

Lemma matchhere_spec_len n : forall re text, (length re <= n)%nat ->
  matchhere re text = true <-> matches_prefix re text.
Proof.
  induction n as [|n IH]; intros re text Hn.
  { destruct re; simpl in Hn; [|lia]. split; [|done]. intros _. by exists [], text. }
  destruct re as [|c [|c1 re2]].
  - split; [|done]. intros _. by exists [], text.
  - unfold matches_prefix. cbn [matchhere parse_re]. destruct (c =? DOLLAR).
    + cbn [fst snd lang]. destruct text as [|x text]; split; try done.
      * intros _. by exists [], [].
      * intros (w & rest & H1 & -> & H3). specialize (H3 eq_refl). by subst.
    + apply (matchhere_one c [] text). intros t. apply IH. simpl. lia.
  - assert (matchhere (c :: c1 :: re2) text =
      if c1 =? STAR then matchstar (matchhere re2) c text
      else match text with [] => false
           | x :: text' => if (c =? DOT) || (c =? x) then matchhere (c1 :: re2) text' else false end) as -> by done.
    assert (parse_re (c :: c1 :: re2) =
      if c1 =? STAR then let (l, e) := parse_re re2 in (Many c :: l, e)
      else let (l, e) := parse_re (c1 :: re2) in (One c :: l, e)) as Hp by done.
    unfold matches_prefix. rewrite Hp. destruct (c1 =? STAR).
    + rewrite matchstar_spec. specialize (IH re2). unfold matches_prefix in IH.
      destruct (parse_re re2) as [l e]. cbn [fst snd lang] in *. simpl in Hn. split.
      * intros (u & t & -> & Hu & Ht). apply IH in Ht as (w & rest & -> & H2 & H3); [|lia].
        exists (u ++ w), rest. split; [by rewrite <- app_assoc|]. split; [|done]. by exists u, w.
      * intros (w & rest & -> & (u & w' & -> & Hu & H2) & H3). exists u, (w' ++ rest).
        split; [by rewrite <- app_assoc|]. split; [done|]. apply IH; [lia|]. by exists w', rest.
    + rewrite (matchhere_one c (c1 :: re2) text) by (intros t; apply IH; simpl in *; lia).
      by destruct (parse_re (c1 :: re2)) as [l e].
Qed.

Lemma matchhere_prefix re text : matchhere re text = true <-> matches_prefix re text.
Proof. by apply (matchhere_spec_len (length re)). Qed.

Lemma match_anywhere_spec re text :
  match_anywhere re text = true <-> exists pre t, text = pre ++ t /\ matches_prefix re t.
Proof.
  induction text as [|x text IH]; simpl.
  - destruct (matchhere re []) eqn:E; [apply matchhere_prefix in E|]; split; try done.
    + intros _. by exists [], [].
    + intros (pre & t & H1 & H2). destruct pre, t; try done. apply matchhere_prefix in H2. congruence.
  - destruct (matchhere re (x :: text)) eqn:E.
    + apply matchhere_prefix in E. split; [|done]. intros _. by exists [], (x :: text).
    + rewrite IH. split.
      * intros (pre & t & -> & H). by exists (x :: pre), t.
      * intros ([|y pre] & t & H1 & H2); simplify_eq/=; [|by exists pre, t].
        apply matchhere_prefix in H2. congruence.
Qed.

(** C35: [match] reports a match exactly when the pattern, read as a regular
    expression with [^], [.], [*] and [$], matches somewhere in the text:
    at its beginning after [^], up to its end before [$], and with a star
    standing for any number of characters the starred character accepts. *)
Theorem match_spec re text : match_ re text = true <->
  match re with
  | 94 :: re' => matches_prefix re' text
  | _ => exists pre t, text = pre ++ t /\ matches_prefix re t
  end.
Proof.
  destruct re as [|c re]; [apply match_anywhere_spec|]. unfold match_, CARET.
  destruct (Z.eqb_spec c 94) as [->|Hc]; [apply matchhere_prefix|].
  rewrite match_anywhere_spec. by repeat (case_match; subst; try done).
Qed.

(** ** The whole input, line by line *)

(** What grep should print: every line of [text] that ends in a newline and
    matches; [cur] is the part of the current line already seen. *)
Fixpoint filter_lines (pattern cur text : list Z) : list Z :=
  match text with
  | [] => []
  | x :: text' =>
      if x =? NL then
        (if match_ pattern cur then cur ++ [NL] else []) ++ filter_lines pattern [] text'
      else filter_lines pattern (cur ++ [x]) text'
  end.

(** Every run of characters without a newline fits the buffer. *)
Definition lines_fit (text : list Z) : Prop :=
  forall a l r, text = a ++ l ++ r -> NL ∉ l -> (length l < BUFSZ - 1)%nat.

Lemma filter_lines_run pattern l : forall cur text, NL ∉ l ->
  filter_lines pattern cur (l ++ text) = filter_lines pattern (cur ++ l) text.
Proof.
  induction l as [|x l IH]; intros cur text Hl; simpl; [by rewrite app_nil_r|].
  apply not_elem_of_cons in Hl as [Hx Hl]. rewrite (proj2 (Z.eqb_neq _ _)) by congruence.
  rewrite IH by done. by rewrite <- app_assoc.
Qed.

Lemma strchr_nl_spec p : (0 ∉ p) ->
  match strchr_nl p with
  | None => NL ∉ p
  | Some (l, r) => p = l ++ NL :: r /\ NL ∉ l
  end.
Proof.
  induction p as [|x p IH]; intros H0; simpl; [apply not_elem_of_nil|].
  apply not_elem_of_cons in H0 as [Hx H0]. rewrite (proj2 (Z.eqb_neq _ _)) by congruence.
  destruct (Z.eqb_spec x NL) as [->|Hn]; [split; [done|apply not_elem_of_nil]|].
  specialize (IH H0). destruct (strchr_nl p) as [[l r]|].
  - destruct IH as [-> IH]. split; [done|]. apply not_elem_of_cons. split; [congruence|done].
  - apply not_elem_of_cons. split; [congruence|done].
Qed.

Lemma grep_lines_spec pattern fuel : forall p text, (0 ∉ p) -> (length p < fuel)%nat ->
  let (out, rest) := grep_lines fuel pattern p in
  filter_lines pattern [] (p ++ text) = out ++ filter_lines pattern [] (rest ++ text) /\
  (NL ∉ rest) /\ exists a, p = a ++ rest.
Proof.
  induction fuel as [|fuel IH]; intros p text H0 Hf; [lia|]. cbn [grep_lines].
  pose proof (strchr_nl_spec p H0) as Hs. destruct (strchr_nl p) as [[l r]|]; [|by split; [|split; [|exists []]]].
  destruct Hs as [-> Hl]. rewrite length_app in Hf. simpl in Hf.
  specialize (IH r text). destruct (grep_lines fuel pattern r) as [out rest]. destruct IH as (H1 & H2 & a & ->).
  { intros Hin. apply H0. apply elem_of_app. right. by right. }
  { lia. }
  rewrite <- app_assoc, filter_lines_run by done. simpl. rewrite H1, <- app_assoc. split; [done|].
  split; [done|]. exists (l ++ NL :: a). by rewrite <- app_assoc.
Qed.

Section grep_ok.
Context (sz : list Z -> nat -> nat).

(** What [read] promises of a file: it never delivers more than was asked
    for or is left, and delivers something while bytes are left. *)
Definition read_ok : Prop := forall input max,
  (sz input max <= max)%nat /\ (sz input max <= length input)%nat /\
  ((0 < max)%nat -> input <> [] -> (0 < sz input max)%nat).

Lemma grep_loop_spec pattern fuel : forall buf input,
  read_ok -> (0 ∉ buf ++ input) -> (NL ∉ buf) -> lines_fit (buf ++ input) -> (length input < fuel)%nat ->
  grep_loop sz fuel pattern buf input = filter_lines pattern [] (buf ++ input).
Proof.
  induction fuel as [|fuel IH]; intros buf input Hsz H0 Hb Hfit Hf; [lia|]. cbn [grep_loop].
  assert (length buf < BUFSZ - 1)%nat as Hlb by (by apply (Hfit [] buf input)).
  destruct (Hsz input (BUFSZ - length buf - 1)%nat) as (Hz1 & Hz2 & Hz3).
  destruct (sz input (BUFSZ - length buf - 1)) as [|n] eqn:En.
  { destruct input as [|x input]; [|specialize (Hz3 ltac:(lia) ltac:(done)); lia].
    rewrite filter_lines_run by done. done. }
  pose proof (grep_lines_spec pattern BUFSZ (buf ++ take (S n) input) (drop (S n) input)) as Hg.
  destruct (grep_lines BUFSZ pattern (buf ++ take (S n) input)) as [out rest].
  rewrite <- app_assoc, take_drop in Hg. destruct Hg as (-> & H2 & a & Ha).
  { intros Hin. apply H0. apply elem_of_app in Hin as [Hin|Hin]; apply elem_of_app; [by left|right].
    rewrite <- (take_drop (S n) input). apply elem_of_app. by left. }
  { rewrite length_app, length_take. lia. }
  assert (buf ++ input = a ++ rest ++ drop (S n) input) as Hall.
  { rewrite app_assoc, <- Ha, <- app_assoc. by rewrite take_drop. }
  f_equal. apply IH; try done.
  - intros Hin. apply H0. rewrite Hall. apply elem_of_app. by right.
  - intros a' l' r' E Hl'. apply (Hfit (a ++ a') l' r'); [|done]. rewrite Hall, E. by rewrite <- app_assoc.
  - rewrite length_drop. lia.
Qed.

(** C36: grep prints exactly the lines of its input that end in a newline and
    match the pattern, in order, however [read] splits the input, for a text
    file whose lines fit the 1024-byte buffer. *)
Theorem grep_prints_matching_lines pattern input :
  read_ok -> (0 ∉ input) -> lines_fit input ->
  grep sz pattern input = filter_lines pattern [] input.
Proof. intros. unfold grep. apply grep_loop_spec; try done; [apply not_elem_of_nil|lia]. Qed.

End grep_ok.

(** [read] that delivers at most three bytes at a time, on two lines. *)
Lemma grep_prints_matching_lines_witness :
  grep (fun input max => Nat.min 3 (Nat.min max (length input))) [97; 42; 98; 36] [99; 97; 98; 10; 98; 97; 10] =
    [99; 97; 98; 10].
Proof.
  rewrite (grep_prints_matching_lines (fun input max => Nat.min 3 (Nat.min max (length input)))
             [97; 42; 98; 36] [99; 97; 98; 10; 98; 97; 10]).
  - reflexivity.
  - intros input max. split; [lia|]. split; [lia|]. intros H1 H2. destruct input; [done|]. cbn [length]. lia.
  - rewrite list_elem_of_In. vm_compute. intuition discriminate.
  - intros a l r E _. apply (f_equal length) in E. rewrite !length_app in E. simpl in E.
    unfold BUFSZ. lia.
Defined.
