(* ===== verification/Wc.v ===== *)
(** * wc and cat

    user/wc.c and user/cat.c.  What read(fd, buf, 512) delivers is a list of
    chunks, and whether the last call returned 0 or an error. *)

From S2P Require Import Prelude Ulib Printf.

(** " \r\t\n\v" *)
Definition spaces : list Z := [32; 13; 9; 10; 11].

Record counts := Counts { wc_l : Z; wc_w : Z; wc_c : Z; wc_inword : bool }.

(** The body of the loop over the buffer. *)
Definition wc_byte (s : counts) (b : Z) : counts :=
  let c := int32 (wc_c s + 1) in
  let l := if b =? 10 then int32 (wc_l s + 1) else wc_l s in
  match strchr spaces b with
  | Some _ => Counts l (wc_w s) c false
  | None => if negb (wc_inword s) then Counts l (int32 (wc_w s + 1)) c true else Counts l (wc_w s) c (wc_inword s)
  end.

Fixpoint wc_chunk (s : counts) (buf : list Z) : counts :=
  match buf with
  | [] => s
  | b :: buf' => wc_chunk (wc_byte s b) buf'
  end.

Fixpoint wc_loop (s : counts) (chunks : list (list Z)) : counts :=
  match chunks with
  | [] => s
  | buf :: chunks' => wc_loop (wc_chunk s buf) chunks'
  end.

(** "%d %d %d %s\n" *)
Definition wc_format : list Z := [37; 100; 32; 37; 100; 32; 37; 100; 32; 37; 115; 10].

(** What [wc] prints, or [None] after a read error; [name] is the pointer to
    the name of the file. *)
Definition wc (str : Z -> list Z) (chunks : list (list Z)) (ok : bool) (name : Z) : option (list Z) :=
  let s := wc_loop (Counts 0 0 0 false) chunks in
  if ok then uprintf str wc_format [uint64 (wc_l s); uint64 (wc_w s); uint64 (wc_c s); name] else None.

(** [cat]: what is written to the standard output, and whether all went well;
    [writes] are the results of write. *)
Fixpoint cat (chunks : list (list Z)) (ok : bool) (writes : list Z) : list Z * bool :=
  match chunks, writes with
  | [], _ => ([], ok)
  | buf :: chunks', n :: writes' =>
      if n =? Z.of_nat (length buf) then let r := cat chunks' ok writes' in (buf ++ fst r, snd r)
      else (take (Z.to_nat n) buf, false)
  | _ :: _, [] => ([], false)
  end.

(** ** What wc counts *)

Definition is_space (b : Z) : bool := match strchr spaces b with Some _ => true | None => false end.

(** A word begins at position [i]. *)
Definition word_at (text : list Z) (i : nat) : bool :=
  match text !! i with
  | Some b => negb (is_space b) && match i with O => true | S j => match text !! j with Some a => is_space a | None => true end end
  | None => false
  end.

Definition count (p : nat -> bool) (n : nat) : Z := Z.of_nat (length (filter (fun i => p i = true) (seq 0 n))).
Definition nwords (text : list Z) : Z := count (word_at text) (length text).
Definition nlines (text : list Z) : Z := Z.of_nat (length (filter (fun b => b = 10) text)).

Lemma count_S p n : count p (S n) = count p n + if p n then 1 else 0.
Proof.
  unfold count. rewrite seq_S, filter_app, length_app, Nat2Z.inj_add. cbn [Nat.add]. f_equal.
  rewrite filter_cons, filter_nil. destruct (p n) eqn:E; [by rewrite decide_True|by rewrite decide_False].
Qed.

Lemma count_ext p q n : (forall i, (i < n)%nat -> p i = q i) -> count p n = count q n.
Proof.
  induction n as [|n IH]; intros H; [done|]. rewrite !count_S. rewrite IH by (intros; apply H; lia).
  by rewrite H by lia.
Qed.

Definition in_word (text : list Z) : bool := match last text with Some b => negb (is_space b) | None => false end.

Lemma nwords_snoc text b : nwords (text ++ [b]) = nwords text + if negb (is_space b) && negb (in_word text) then 1 else 0.
Proof.
  unfold nwords. rewrite length_app, Nat.add_1_r, count_S. f_equal.
  - apply count_ext. intros i Hi. unfold word_at. rewrite lookup_app_l by done. destruct (text !! i); [|done].
    destruct i; [done|]. by rewrite lookup_app_l by lia.
  - unfold word_at, in_word. rewrite lookup_app_r, Nat.sub_diag by done. cbn [lookup list_lookup].
    destruct text as [|a text _] using rev_ind; [done|]. rewrite length_app, last_snoc. cbn [length].
    replace (length text + 1)%nat with (S (length text)) by lia. rewrite <- app_assoc, lookup_app_r, Nat.sub_diag by done.
    cbn. by rewrite negb_involutive.
Qed.

Lemma nlines_snoc text b : nlines (text ++ [b]) = nlines text + if b =? 10 then 1 else 0.
Proof.
  unfold nlines. rewrite filter_app, length_app, Nat2Z.inj_add, filter_cons, filter_nil. f_equal.
  destruct (Z.eqb_spec b 10); [by rewrite decide_True|by rewrite decide_False].
Qed.

Lemma count_le p n : 0 <= count p n <= Z.of_nat n.
Proof. induction n as [|n IH]; [done|]. rewrite count_S. destruct (p n); lia. Qed.

Lemma nlines_le text : 0 <= nlines text <= Z.of_nat (length text).
Proof. unfold nlines. pose proof (length_filter (fun b => b = 10) text). lia. Qed.

(** The counters after a text. *)
Definition wc_of (text : list Z) : counts :=
  Counts (nlines text) (nwords text) (Z.of_nat (length text)) (in_word text).

Lemma wc_byte_of text b : Z.of_nat (length text) < 2 ^ 31 - 1 -> wc_byte (wc_of text) b = wc_of (text ++ [b]).
Proof.
  intros Hl. pose proof (nlines_le text). pose proof (count_le (word_at text) (length text)) as Hw. fold (nwords text) in Hw.
  unfold wc_of. rewrite nwords_snoc, nlines_snoc, length_app. unfold in_word at 3. rewrite last_snoc.
  unfold wc_byte. cbn [wc_l wc_w wc_c wc_inword length].
  rewrite !int32_small by lia. unfold is_space. destruct (strchr spaces b); cbn [negb andb].
  - f_equal; [destruct (b =? 10); lia|lia|lia].
  - destruct (in_word text); cbn [negb]; f_equal; try (destruct (b =? 10)); lia.
Qed.

Lemma wc_chunk_of buf : forall text, Z.of_nat (length (text ++ buf)) < 2 ^ 31 -> wc_chunk (wc_of text) buf = wc_of (text ++ buf).
Proof.
  induction buf as [|b buf IH]; intros text Hl; [by rewrite app_nil_r|]. rewrite length_app in Hl. cbn [length wc_chunk] in *.
  rewrite wc_byte_of by lia. rewrite IH; rewrite <- app_assoc; [done|]. rewrite !length_app. cbn [length app]. lia.
Qed.

Lemma wc_loop_of chunks : forall text, Z.of_nat (length (text ++ concat chunks)) < 2 ^ 31 ->
  wc_loop (wc_of text) chunks = wc_of (text ++ concat chunks).
Proof.
  induction chunks as [|buf chunks IH]; intros text Hl; [by rewrite app_nil_r|]. cbn [wc_loop concat] in *.
  rewrite app_assoc in Hl |- *. rewrite wc_chunk_of by (rewrite length_app in Hl; lia). by apply IH.
Qed.

(** [wc] counts correctly, however the reads split the input: it prints
    the number of lines, of words (the places where a character that is not a
    space begins the text or follows a space) and of bytes of the whole
    input, and the name. *)
Theorem wc_counts str chunks name :
  let text := concat chunks in
  Z.of_nat (length text) < 2 ^ 31 ->
  exists out1 out2 out3,
    uprintint (nlines text) 10 true = Some out1 /\ uprintint (nwords text) 10 true = Some out2 /\
    uprintint (Z.of_nat (length text)) 10 true = Some out3 /\
    wc str chunks true name = Some (out1 ++ [32] ++ out2 ++ [32] ++ out3 ++ [32] ++ (if name =? 0 then null_str else str name) ++ [10]).
Proof.
  intros text Hl. unfold wc. change (Counts 0 0 0 false) with (wc_of []). rewrite (wc_loop_of chunks []) by done. cbn [app wc_of wc_l wc_w wc_c]. fold text.
  pose proof (nlines_le text) as H1. pose proof (count_le (word_at text) (length text)) as H2. fold (nwords text) in H2.
  assert (forall n, 0 <= n < 2 ^ 31 -> exists out, uprintint n 10 true = Some out) as Hp.
  { intros n Hn. pose proof (put_digits_room udigits 10 16 n ltac:(lia) ltac:(lia) ltac:(lia)) as Hr.
    rewrite decide_True in Hr by (change (10 ^ Z.of_nat 16) with 10000000000000000; lia). destruct Hr as (ds & E & _).
    unfold uprintint, put_int. replace (n <? 0) with false by lia. cbn [andb]. rewrite uint32_small, E by lia. cbn. eauto. }
  destruct (Hp (nlines text)) as [out1 E1]; [lia|]. destruct (Hp (nwords text)) as [out2 E2]; [lia|].
  destruct (Hp (Z.of_nat (length text))) as [out3 E3]; [lia|]. exists out1, out2, out3.
  split; [done|]. split; [done|]. split; [done|].
  assert (forall n, 0 <= n < 2 ^ 31 -> int32 (int32 (uint64 n)) = n) as Hi.
  { intros n Hn. rewrite uint64_small by lia. by rewrite !int32_small by (rewrite ?int32_small; lia). }
  unfold uprintf, wc_format. cbn -[uprintint int32 uint64 null_str].
  rewrite Hi, E1 by lia. cbn -[uprintint int32 uint64 null_str]. rewrite Hi, E2 by lia. cbn -[uprintint int32 uint64 null_str].
  rewrite Hi, E3 by lia. cbn -[null_str]. done.
Qed.

(** "a b" and a newline, in two pieces: 1 2 4. *)
Lemma wc_counts_witness : wc (fun _ => [102]) [[97; 32]; [98; 10]] true 4096 = Some [49; 32; 50; 32; 52; 32; 102; 10].
Proof.
  destruct (wc_counts (fun _ => [102]) [[97; 32]; [98; 10]] 4096) as (o1 & o2 & o3 & E1 & E2 & E3 & E); [reflexivity|].
  rewrite E. vm_compute in E1, E2, E3. injection E1 as <-. injection E2 as <-. injection E3 as <-. reflexivity.
Defined.
