(* ===== verification/Sh.v ===== *)
(** * The parser of the shell

    user/sh.c from [gettoken] to [parsecmd].  The state is the part of the
    command line that is left, without the NUL at its end; a token is the list
    of its characters, which [nulterminate] makes a C string in the source.
    [panic] ends the shell's child with a message.  The calls of malloc in the
    constructors succeed. *)

From S2P Require Import Prelude Ulib.

Definition MAXARGS : nat := 10.

(** " \t\r\n\v" and "<|>&;()" *)
Definition whitespace : list Z := [32; 9; 13; 10; 11].
Definition symbols : list Z := [60; 124; 62; 38; 59; 40; 41].

Definition chars (s : list Z) (c : Z) : bool := match strchr s c with Some _ => true | None => false end.

(** The three redirections: [<], [>] and [>>]. *)
Inductive rkind := RIn | ROut | RAppend.

(** [O_RDONLY], [O_WRONLY|O_CREATE|O_TRUNC], [O_WRONLY|O_CREATE]; the
    descriptor is 0 for input and 1 for output. *)
Definition rmode (k : rkind) : Z := match k with RIn => 0 | ROut => 1537 | RAppend => 513 end.
Definition rfd (k : rkind) : Z := match k with RIn => 0 | _ => 1 end.

Inductive cmd :=
| EXEC (argv : list (list Z))
| REDIR (c : cmd) (file : list Z) (k : rkind)
| PIPE (left right : cmd)
| LIST (left right : cmd)
| BACK (c : cmd).

Abbreviation P := (K (list Z)).

Fixpoint skip_ws (s : list Z) : list Z :=
  match s with
  | c :: s' => if chars whitespace c then skip_ws s' else s
  | [] => []
  end.

(** [while(s < es && !strchr(whitespace, *s) && !strchr(symbols, *s)) s++;] *)
Fixpoint word (s : list Z) : list Z * list Z :=
  match s with
  | c :: s' =>
      if chars whitespace c || chars symbols c then ([], s)
      else let r := word s' in (c :: fst r, snd r)
  | [] => ([], [])
  end.

(** The kind of the token and its characters. *)
Definition gettoken : P (Z * list Z) := fun s =>
  let s := skip_ws s in
  let '(ret, tok, s) :=
    match s with
    | [] => (0, [], s)
    | c :: s' =>
        if (c =? 124) || (c =? 40) || (c =? 41) || (c =? 59) || (c =? 38) || (c =? 60) then (c, [c], s')
        else if c =? 62 then
          match s' with
          | d :: s'' => if d =? 62 then (43, [c; d], s'') else (c, [c], s')
          | [] => (c, [c], s')
          end
        else let r := word s in (97, fst r, snd r)
    end in
  Ret (ret, tok) (skip_ws s).

Definition peek (toks : list Z) : P bool := fun s =>
  let s := skip_ws s in Ret (match s with c :: _ => chars toks c | [] => false end) s.

(** The redirections that follow, in order.  In the source they are wrapped
    around a command whose arguments are still being collected, through a
    second pointer to it; here they are wrapped around it at the end. *)
Fixpoint parseredirs (fuel : nat) : P (list (list Z * rkind)) :=
  match fuel with
  | O => kdiverge
  | S fuel' =>
      b <- peek [60; 62] ;;
      if b then
        tok <- gettoken ;;
        t <- gettoken ;;
        if negb (fst t =? 97) then panic "missing file for redirection"
        else
          rs <- parseredirs fuel' ;;
          let k := if fst tok =? 60 then RIn else if fst tok =? 62 then ROut else RAppend in
          kret ((snd t, k) :: rs)
      else kret []
  end.

Definition redircmds (c : cmd) (rs : list (list Z * rkind)) : cmd :=
  fold_left (fun c r => REDIR c (fst r) (snd r)) rs c.

(** The loop of [parseexec]: arguments with redirections between them. *)
Fixpoint parseargs (fuel : nat) (argc : nat) : P (list (list Z) * list (list Z * rkind)) :=
  match fuel with
  | O => kdiverge
  | S fuel' =>
      b <- peek [124; 41; 38; 59] ;;
      if b then kret ([], [])
      else
        t <- gettoken ;;
        if fst t =? 0 then kret ([], [])
        else if negb (fst t =? 97) then panic "syntax"
        else if (MAXARGS <=? S argc)%nat then panic "too many args"
        else
          s <- kget ;;
          rs <- parseredirs (S (length s)) ;;
          r <- parseargs fuel' (S argc) ;;
          kret (snd t :: fst r, rs ++ snd r)
  end.

(** [while(peek(ps, es, "&"))] *)
Fixpoint parseback (fuel : nat) (c : cmd) : P cmd :=
  match fuel with
  | O => kdiverge
  | S fuel' =>
      b <- peek [38] ;;
      if b then gettoken ;;; parseback fuel' (BACK c) else kret c
  end.

Fixpoint parseline (fuel : nat) : P cmd :=
  match fuel with
  | O => kdiverge
  | S fuel' =>
      c <- parsepipe fuel' ;;
      s <- kget ;;
      c <- parseback (S (length s)) c ;;
      b <- peek [59] ;;
      if b then gettoken ;;; r <- parseline fuel' ;; kret (LIST c r) else kret c
  end
with parsepipe (fuel : nat) : P cmd :=
  match fuel with
  | O => kdiverge
  | S fuel' =>
      c <- parseexec fuel' ;;
      b <- peek [124] ;;
      if b then gettoken ;;; r <- parsepipe fuel' ;; kret (PIPE c r) else kret c
  end
with parseexec (fuel : nat) : P cmd :=
  match fuel with
  | O => kdiverge
  | S fuel' =>
      b <- peek [40] ;;
      if b then
        (* parseblock *)
        gettoken ;;;
        c <- parseline fuel' ;;
        b <- peek [41] ;;
        if negb b then panic "syntax - missing )"
        else
          gettoken ;;;
          s <- kget ;;
          rs <- parseredirs (S (length s)) ;;
          kret (redircmds c rs)
      else
        s <- kget ;;
        rs <- parseredirs (S (length s)) ;;
        s <- kget ;;
        r <- parseargs (S (length s)) 0 ;;
        kret (redircmds (EXEC (fst r)) (rs ++ snd r))
  end.

(** The message "leftovers" apart, what is left is a syntax error. *)
Definition parsecmd (s : list Z) : outcome (list Z) cmd :=
  (c <- parseline (3 * length s + 4) ;;
   peek [] ;;;
   s <- kget ;;
   if negb (length s =? 0)%nat then panic "syntax" else kret c) s.

(** ** Termination *)

Definition messages : list string :=
  ["syntax"; "missing file for redirection"; "too many args"; "syntax - missing )"].

(** The parser comes to an end, and does not read backwards. *)
Definition ok {A} (p : P A) (s : list Z) : Prop :=
  match p s with
  | Ret _ s' => (length s' <= length s)%nat
  | Panic m => m ∈ messages
  | _ => False
  end.

Lemma ok_panic {A} m s : existsb (String.eqb m) messages = true -> ok (@panic _ A m) s.
Proof. intros H. cbn. apply existsb_exists in H as (x & Hx & E). apply String.eqb_eq in E as <-. by apply list_elem_of_In. Qed.

Lemma ok_bind {A B} (c : P A) (f : A -> P B) s :
  ok c s -> (forall a s', c s = Ret a s' -> (length s' <= length s)%nat -> ok (f a) s') -> ok (kbind c f) s.
Proof.
  unfold ok, kbind. intros Hc Hf. destruct (c s) as [a s'| | |] eqn:E; try done. specialize (Hf a s' eq_refl Hc).
  destruct (f a s'); try done. lia.
Qed.

Lemma ok_ret {A} (a : A) s : ok (kret a) s.
Proof. unfold ok, kret. lia. Qed.

Lemma ok_get s : ok kget s.
Proof. unfold ok, kget. lia. Qed.

Lemma length_skip_ws s : (length (skip_ws s) <= length s)%nat.
Proof. induction s as [|c s IH]; [done|]. cbn [skip_ws]. destruct (chars whitespace c); cbn [length]; lia. Qed.

Lemma skip_ws_head s c s' : skip_ws s = c :: s' -> chars whitespace c = false.
Proof.
  induction s as [|d s IH]; [done|]. cbn [skip_ws]. destruct (chars whitespace d) eqn:E; [done|]. by intros [= -> ->].
Qed.

Lemma length_word s : (length (snd (word s)) <= length s)%nat.
Proof. induction s as [|c s IH]; [done|]. cbn [word]. destruct (_ || _); cbn [snd length]; lia. Qed.

(** A token other than the end of the line takes something away. *)
Lemma gettoken_ok s : exists t s', gettoken s = Ret t s' /\ (length s' <= length s)%nat /\
  (skip_ws s <> [] -> (length s' < length s)%nat) /\ (skip_ws s = [] -> fst t = 0 /\ s' = []).
Proof.
  unfold gettoken. pose proof (length_skip_ws s) as Hl. destruct (skip_ws s) as [|c s1] eqn:E.
  - cbn [skip_ws]. eexists _, _. split; [reflexivity|]. cbn. split; [lia|]. split; done.
  - cbn [length] in Hl. assert (forall u, (length u <= length s1)%nat -> (length (skip_ws u) < length s)%nat) as Hu.
    { intros u Hu. pose proof (length_skip_ws u). lia. }
    assert (forall (t : Z * list Z) u, (length u <= length s1)%nat ->
      exists (t' : Z * list Z) (s' : list Z), Ret t (skip_ws u) = Ret t' s' /\ (length s' <= length s)%nat /\
      (c :: s1 <> [] -> (length s' < length s)%nat) /\ (c :: s1 = [] -> fst t' = 0 /\ s' = [])) as Hr.
    { intros t u Hlu. exists t, (skip_ws u). specialize (Hu u Hlu). split; [done|]. split; [lia|]. split; [done|done]. }
    destruct (_ || _) eqn:E1; [by apply Hr|]. destruct (Z.eqb_spec c 62) as [->|E2].
    + destruct s1 as [|d s2]; [by apply Hr|]. destruct (d =? 62); apply Hr; cbn [length]; lia.
    + apply Hr. cbn [word]. rewrite (skip_ws_head s c s1 E). cbn [orb].
      assert (chars symbols c = false) as ->.
      { unfold chars, symbols. cbn [strchr]. repeat match goal with |- context [?a =? c] => destruct (Z.eqb_spec a c); [subst c; done|] end. done. }
      cbn [snd]. apply length_word.
Qed.

Lemma peek_ok toks s : exists b, peek toks s = Ret b (skip_ws s) /\ (b = true -> skip_ws s <> []).
Proof. unfold peek. eexists. split; [reflexivity|]. by destruct (skip_ws s). Qed.

Lemma ok_gettoken s : ok gettoken s.
Proof. destruct (gettoken_ok s) as (t & s' & E & Hl & _). unfold ok. by rewrite E. Qed.

Lemma ok_peek toks s : ok (peek toks) s.
Proof. destruct (peek_ok toks s) as (b & E & _). unfold ok. rewrite E. apply length_skip_ws. Qed.

(** After a successful [peek], the token is taken away. *)
Lemma skip_ws_idem s : skip_ws (skip_ws s) = skip_ws s.
Proof. induction s as [|c s IH]; [done|]. cbn [skip_ws]. destruct (chars whitespace c) eqn:E; [done|]. cbn [skip_ws]. by rewrite E. Qed.

Lemma ok_peek_bind {B} toks (f : bool -> P B) s :
  (forall s', (length s' <= length s)%nat -> skip_ws s' <> [] -> ok (f true) s') ->
  (forall s', (length s' <= length s)%nat -> ok (f false) s') -> ok (kbind (peek toks) f) s.
Proof.
  intros Ht Hf. apply ok_bind; [apply ok_peek|]. intros b s' E Hl. destruct (peek_ok toks s) as (b' & E' & Hb).
  rewrite E in E'. injection E' as -> ->. destruct b'; [|by apply Hf]. apply Ht; [done|]. rewrite skip_ws_idem. by apply Hb.
Qed.

Lemma ok_token_bind {B} (f : Z * list Z -> P B) s : skip_ws s <> [] ->
  (forall t s', (length s' < length s)%nat -> ok (f t) s') -> ok (kbind gettoken f) s.
Proof.
  intros Hs Hf. apply ok_bind; [apply ok_gettoken|]. intros t s' E _. destruct (gettoken_ok s) as (t' & s1 & E' & _ & Hlt & _).
  rewrite E in E'. injection E' as <- <-. by apply Hf, Hlt.
Qed.

Lemma ok_parseredirs fuel : forall s, (length s < fuel)%nat -> ok (parseredirs fuel) s.
Proof.
  induction fuel as [|fuel IH]; intros s Hf; [lia|]. cbn [parseredirs]. apply ok_peek_bind; [|intros; apply ok_ret].
  intros s1 H1 Hn. apply ok_token_bind; [done|]. intros tok s2 H2. apply ok_bind; [apply ok_gettoken|]. intros t s3 _ H3.
  destruct (negb _); [by apply ok_panic|]. apply ok_bind; [apply IH; lia|]. intros rs s4 _ _. apply ok_ret.
Qed.

Lemma ok_parseargs fuel : forall argc s, (length s < fuel)%nat -> ok (parseargs fuel argc) s.
Proof.
  induction fuel as [|fuel IH]; intros argc s Hf; [lia|]. cbn [parseargs]. apply ok_peek_bind; [intros; apply ok_ret|].
  intros s1 H1. destruct (decide (skip_ws s1 = [])) as [Hn|Hn].
  - apply ok_bind; [apply ok_gettoken|]. intros t s2 E _. destruct (gettoken_ok s1) as (t' & s3 & E' & _ & _ & H0).
    rewrite E in E'. injection E' as <- <-. destruct (H0 Hn) as [-> _]. apply ok_ret.
  - apply ok_token_bind; [done|]. intros t s2 H2. destruct (fst t =? 0); [apply ok_ret|]. destruct (negb _); [by apply ok_panic|].
    destruct (MAXARGS <=? S argc)%nat; [by apply ok_panic|]. apply ok_bind; [apply ok_get|]. intros s' s3 [= <- <-] _.
    apply ok_bind; [apply ok_parseredirs; lia|]. intros rs s4 _ H4. apply ok_bind; [apply IH; lia|]. intros r s5 _ _. apply ok_ret.
Qed.

Lemma ok_parseback fuel : forall c s, (length s < fuel)%nat -> ok (parseback fuel c) s.
Proof.
  induction fuel as [|fuel IH]; intros c s Hf; [lia|]. cbn [parseback]. apply ok_peek_bind; [|intros; apply ok_ret].
  intros s1 H1 Hn. apply ok_token_bind; [done|]. intros t s2 H2. apply IH. lia.
Qed.

Lemma ok_parse fuel : forall s,
  ((3 * length s + 3 <= fuel)%nat -> ok (parseline fuel) s) /\
  ((3 * length s + 2 <= fuel)%nat -> ok (parsepipe fuel) s) /\
  ((3 * length s + 1 <= fuel)%nat -> ok (parseexec fuel) s).
Proof.
  induction fuel as [|fuel IH]; intros s; [split; [lia|split; lia]|]. split; [|split]; intros Hf.
  - cbn [parseline]. apply ok_bind; [apply IH; lia|]. intros c s1 _ H1. apply ok_bind; [apply ok_get|]. intros ? s2 [= <- <-] _.
    apply ok_bind; [apply ok_parseback; lia|]. intros c' s3 _ H3. apply ok_peek_bind; [|intros; apply ok_ret].
    intros s4 H4 Hn. apply ok_token_bind; [done|]. intros t s5 H5. apply ok_bind; [apply IH; lia|]. intros; apply ok_ret.
  - cbn [parsepipe]. apply ok_bind; [apply IH; lia|]. intros c s1 _ H1. apply ok_peek_bind; [|intros; apply ok_ret].
    intros s4 H4 Hn. apply ok_token_bind; [done|]. intros t s5 H5. apply ok_bind; [apply IH; lia|]. intros; apply ok_ret.
  - cbn [parseexec]. apply ok_peek_bind.
    + intros s1 H1 Hn. apply ok_token_bind; [done|]. intros t s2 H2. apply ok_bind; [apply IH; lia|]. intros c s3 _ H3.
      apply ok_peek_bind; [|intros; by apply ok_panic]. intros s4 H4 Hn4. cbn [negb]. apply ok_token_bind; [done|]. intros t' s5 H5.
      apply ok_bind; [apply ok_get|]. intros ? s6 [= <- <-] _. apply ok_bind; [apply ok_parseredirs; lia|]. intros; apply ok_ret.
    + intros s1 H1. apply ok_bind; [apply ok_get|]. intros ? s2 [= <- <-] _. apply ok_bind; [apply ok_parseredirs; lia|].
      intros rs s3 _ H3. apply ok_bind; [apply ok_get|]. intros ? s4 [= <- <-] _. apply ok_bind; [apply ok_parseargs; lia|].
      intros; apply ok_ret.
Qed.

(** ** Printing commands *)

Inductive level := LExec | LPipe | LBack | LLine.

Definition pword (w : list Z) : list Z := w ++ [32].
Definition psym (c : Z) : list Z := [c; 32].
Definition paren (s : list Z) : list Z := psym 40 ++ s ++ psym 41.
Definition predir (r : list Z * rkind) : list Z :=
  match snd r with RIn => psym 60 | ROut => psym 62 | RAppend => 62 :: psym 62 end ++ pword (fst r).

(** A command line for [c], with parentheses where the grammar needs them. *)
Fixpoint print (lvl : level) (c : cmd) : list Z :=
  match c with
  | EXEC argv => concat (map pword argv)
  | REDIR c f k => print LExec c ++ predir (f, k)
  | PIPE l r =>
      let s := print LExec l ++ psym 124 ++ print LPipe r in
      match lvl with LExec => paren s | _ => s end
  | BACK c =>
      let s := print LBack c ++ psym 38 in
      match lvl with LExec | LPipe => paren s | _ => s end
  | LIST l r =>
      let s := print LBack l ++ psym 59 ++ print LLine r in
      match lvl with LLine => s | _ => paren s end
  end.

(** Words that are one token. *)
Definition good_char (c : Z) : bool := negb (c =? 0) && negb (chars whitespace c) && negb (chars symbols c).
Definition good_word (w : list Z) : Prop := w <> [] /\ Forall (fun c => good_char c = true) w.

Fixpoint cmd_wf (c : cmd) : Prop :=
  match c with
  | EXEC argv => (length argv < MAXARGS)%nat /\ Forall good_word argv
  | REDIR c f _ => cmd_wf c /\ good_word f
  | PIPE l r | LIST l r => cmd_wf l /\ cmd_wf r
  | BACK c => cmd_wf c
  end.

(** No blank at the beginning. *)
Definition nows (s : list Z) : Prop := match s with c :: _ => chars whitespace c = false | [] => True end.

Lemma nows_skip s : nows s -> skip_ws s = s.
Proof. destruct s as [|c s]; [done|]. cbn. by intros ->. Qed.

Lemma good_head c : good_char c = true -> chars whitespace c = false /\ chars symbols c = false.
Proof. unfold good_char. by destruct (c =? 0), (chars whitespace c), (chars symbols c). Qed.

Lemma nows_word w s : good_word w -> nows (pword w ++ s).
Proof. intros [Hn Hg]. destruct w as [|c w]; [done|]. inversion_clear Hg as [|? ? Hc _]. by apply good_head in Hc as [? _]. Qed.

Lemma nows_redirs rs s : nows s -> nows (concat (map predir rs) ++ s).
Proof. destruct rs as [|[f k] rs]; [done|]. by destruct k. Qed.

Lemma nows_words ws s : Forall good_word ws -> nows s -> nows (concat (map pword ws) ++ s).
Proof. intros Hw Hs. destruct Hw as [|w ws Hw _]; [done|]. cbn [map concat]. rewrite <- app_assoc. by apply nows_word. Qed.

Lemma nows_print c : forall lvl s, cmd_wf c -> nows s -> nows (print lvl c ++ s).
Proof.
  induction c as [argv|c IH f k|l IHl r IHr|l IHl r IHr|c IH]; intros lvl s Hw Hs; cbn [print cmd_wf] in *.
  - destruct Hw. by apply nows_words.
  - rewrite <- app_assoc. apply IH; [apply Hw|]. by destruct k.
  - destruct lvl; [done|..]; rewrite <- app_assoc; apply IHl; (apply Hw || done).
  - destruct lvl; [done..|]. rewrite <- app_assoc. apply IHl; (apply Hw || done).
  - destruct lvl; [done|done|..]; rewrite <- app_assoc; apply IH; (apply Hw || done).
Qed.

(** ** Reading tokens *)

Lemma peek_nows toks s : nows s -> peek toks s = Ret (match s with c :: _ => chars toks c | [] => false end) s.
Proof. intros Hs. unfold peek. by rewrite nows_skip. Qed.

Lemma token_sym c s : c ∈ [124; 40; 41; 59; 38; 60] -> nows s -> gettoken (psym c ++ s) = Ret (c, [c]) s.
Proof.
  intros Hc Hs. rewrite !elem_of_cons, elem_of_nil in Hc. rewrite <- (nows_skip s Hs) at 2.
  destruct_or! Hc; subst c; done.
Qed.

Lemma word_good w s : Forall (fun c => good_char c = true) w -> word (w ++ 32 :: s) = (w, 32 :: s).
Proof.
  induction 1 as [|c w Hc _ IH]; [done|]. cbn [app word]. apply good_head in Hc as [-> ->]. cbn [orb]. by rewrite IH.
Qed.

Lemma token_word w s : good_word w -> nows s -> gettoken (pword w ++ s) = Ret (97, w) s.
Proof.
  intros [Hn Hg] Hs. unfold gettoken. rewrite nows_skip by (by apply nows_word). unfold pword. rewrite <- app_assoc. cbn [app].
  destruct w as [|c w]; [done|]. cbn [app]. pose proof (Forall_inv Hg) as Hc. apply good_head in Hc as [Hc1 Hc2].
  assert (((c =? 124) || (c =? 40) || (c =? 41) || (c =? 59) || (c =? 38) || (c =? 60) = false) /\ (c =? 62) = false) as [-> ->].
  { unfold chars, symbols in Hc2. cbn [strchr] in Hc2.
    split; repeat match goal with |- context [c =? ?a] => destruct (Z.eqb_spec c a); [subst c; done|] end; done. }
  change (c :: w ++ 32 :: s) with ((c :: w) ++ 32 :: s). rewrite word_good by done. cbn [fst snd skip_ws]. cbn. by rewrite nows_skip.
Qed.

(** What may follow a command at each level. *)
Definition follow (toks : list Z) (s : list Z) : Prop := match s with c :: _ => c ∈ toks | [] => True end.

Lemma follow_nows toks s : follow toks s -> toks ⊆ [124; 41; 38; 59] -> nows s.
Proof.
  destruct s as [|c s]; [done|]. cbn. intros Hc Hsub. apply Hsub in Hc. rewrite !elem_of_cons, elem_of_nil in Hc. by destruct_or! Hc; subst c.
Qed.

Lemma parseredirs_print rs : forall fuel s, Forall (fun r => good_word (fst r)) rs -> nows s ->
  match s with c :: _ => chars [60; 62] c = false | [] => True end ->
  (length rs < fuel)%nat -> parseredirs fuel (concat (map predir rs) ++ s) = Ret rs s.
Proof.
  induction rs as [|[f k] rs IH]; intros fuel s Hw Hs Hf Hl; (destruct fuel as [|fuel]; [cbn in Hl; lia|]); cbn [parseredirs].
  - cbn [map concat app]. rewrite (kbind_ret _ _ _ _ _ (peek_nows [60; 62] s Hs)). destruct s as [|c s]; [done|]. by rewrite Hf.
  - inversion_clear Hw as [|? ? Hg Hw']. cbn [map concat length] in *. rewrite <- app_assoc.
    assert (nows (concat (map predir rs) ++ s)) as Hn by (by apply nows_redirs).
    assert (nows (predir (f, k) ++ concat (map predir rs) ++ s)) as Hnp by (by destruct k).
    rewrite (kbind_ret _ _ _ _ _ (peek_nows [60; 62] _ Hnp)).
    assert (exists tok, gettoken (predir (f, k) ++ concat (map predir rs) ++ s) = Ret tok (pword f ++ concat (map predir rs) ++ s) /\
      (if fst tok =? 60 then RIn else if fst tok =? 62 then ROut else RAppend) = k) as (tok & Et & Hk).
    { unfold predir at 1. cbn [fst snd]. rewrite <- app_assoc. pose proof (nows_word f (concat (map predir rs) ++ s) Hg) as Hn2.
      destruct k; eexists; (split; [unfold gettoken; cbn; by rewrite nows_skip|done]). }
    destruct (predir (f, k) ++ concat (map predir rs) ++ s) as [|c u] eqn:Eu; [by destruct k|].
    assert (chars [60; 62] c = true) as -> by (destruct k; injection Eu as <- _; done).
    rewrite (kbind_ret _ _ _ _ _ Et), (kbind_ret _ _ _ _ _ (token_word f _ Hg Hn)). cbn [fst snd negb Z.eqb Pos.eqb].
    rewrite (kbind_ret _ _ _ _ _ (IH fuel s Hw' Hs Hf ltac:(lia))). by rewrite Hk.
Qed.

Lemma follow_redirs toks s : follow toks s -> toks ⊆ [124; 41; 38; 59] ->
  match s with c :: _ => chars [60; 62] c = false | [] => True end.
Proof.
  destruct s as [|c s]; [done|]. cbn [follow]. intros Hc Hsub. apply Hsub in Hc. rewrite !elem_of_cons, elem_of_nil in Hc.
  by destruct_or! Hc; subst c.
Qed.

Lemma good_redirs w s : good_word w -> match pword w ++ s with c :: _ => chars [60; 62] c = false | [] => True end.
Proof.
  intros [Hn Hg]. destruct w as [|c w]; [done|]. inversion_clear Hg as [|? ? Hc _]. apply good_head in Hc as [_ Hc].
  cbn. unfold chars, symbols in *. cbn [strchr] in *.
  repeat match goal with |- context [?a =? c] => destruct (Z.eqb_spec a c); [subst c; done|] end. done.
Qed.

Definition ends : list Z := [124; 41; 38; 59].

(** No more arguments. *)
Lemma parseargs_end fuel argc s : follow ends s -> parseargs (S fuel) argc s = Ret ([], []) s.
Proof.
  intros Hs. cbn [parseargs]. pose proof (follow_nows _ _ Hs ltac:(done)) as Hn.
  rewrite (kbind_ret _ _ _ _ _ (peek_nows ends s Hn)). destruct s as [|c s]; [done|].
  cbn [follow] in Hs. unfold ends in Hs. rewrite !elem_of_cons, elem_of_nil in Hs. by destruct_or! Hs; subst c.
Qed.

Lemma length_redirs rs : (length rs <= length (concat (map predir rs)))%nat.
Proof. induction rs as [|[f k] rs IH]; [done|]. cbn [map concat length]. rewrite length_app. destruct k; cbn; rewrite ?length_app; cbn; lia. Qed.

Lemma parseargs_print argv rs s : Forall (fun r => good_word (fst r)) rs -> follow ends s ->
  forall fuel argc, argv <> [] -> Forall good_word argv -> (argc + length argv < MAXARGS)%nat -> (length argv < fuel)%nat ->
  parseargs fuel argc (concat (map pword argv) ++ concat (map predir rs) ++ s) = Ret (argv, rs) s.
Proof.
  intros Hrs Hs. pose proof (follow_nows _ _ Hs ltac:(done)) as Hns.
  induction argv as [|w argv IH]; intros fuel argc Hne Hw Hn Hl; [done|]. destruct fuel as [|fuel]; [lia|].
  inversion_clear Hw as [|? ? Hg Hw']. cbn [map concat length] in *. rewrite <- app_assoc. set (u := concat (map pword argv) ++ concat (map predir rs) ++ s).
  assert (nows u) as Hu by (apply nows_words; [done|by apply nows_redirs]). cbn [parseargs].
  rewrite (kbind_ret _ _ _ _ _ (peek_nows [124; 41; 38; 59] _ (nows_word w u Hg))).
  assert (match pword w ++ u with c :: _ => chars [124; 41; 38; 59] c | [] => false end = false) as ->.
  { destruct Hg as [Hwn Hwg]. destruct w as [|c w]; [done|]. inversion_clear Hwg as [|? ? Hc _]. apply good_head in Hc as [_ Hc].
    cbn. unfold chars, symbols in *. cbn [strchr] in *.
    repeat match goal with |- context [?a =? c] => destruct (Z.eqb_spec a c); [subst c; done|] end. done. }
  rewrite (kbind_ret _ _ _ _ _ (token_word w u Hg Hu)). cbn [fst snd Z.eqb Pos.eqb negb].
  replace (MAXARGS <=? S argc)%nat with false by (symmetry; apply Nat.leb_gt; lia).
  rewrite (kbind_ret kget _ u u u eq_refl). destruct argv as [|w' argv].
  - unfold u. cbn [map concat app]. pose proof (length_redirs rs) as Hlr.
    rewrite (kbind_ret _ _ _ _ _ (parseredirs_print rs (S (length (concat (map predir rs) ++ s))) s Hrs Hns (follow_redirs _ _ Hs ltac:(done))
      ltac:(rewrite length_app; lia))).
    destruct fuel as [|fuel]; [cbn in Hl; lia|]. rewrite (kbind_ret _ _ _ _ _ (parseargs_end fuel (S argc) s Hs)).
    cbn [fst snd]. by rewrite app_nil_r.
  - assert (parseredirs (S (length u)) u = Ret [] u) as E.
    { apply (parseredirs_print [] (S (length u)) u); [constructor|done| |cbn; lia].
      inversion_clear Hw' as [|? ? Hg' _]. unfold u. cbn [map concat]. rewrite <- app_assoc. by apply good_redirs. }
    rewrite (kbind_ret _ _ _ _ _ E). unfold u.
    rewrite (kbind_ret _ _ _ _ _ (IH fuel (S argc) ltac:(done) Hw' ltac:(lia) ltac:(cbn [length] in *; lia))). done.
Qed.

(** ** Commands *)

(** The redirections around a command. *)
Fixpoint core (c : cmd) : cmd := match c with REDIR c _ _ => core c | _ => c end.
Fixpoint redirs (c : cmd) : list (list Z * rkind) := match c with REDIR c f k => redirs c ++ [(f, k)] | _ => [] end.

Lemma redircmds_core c : redircmds (core c) (redirs c) = c.
Proof. induction c; try done. cbn [core redirs]. unfold redircmds in *. rewrite fold_left_app. cbn. by rewrite IHc. Qed.

Lemma print_core c : print LExec c = print LExec (core c) ++ concat (map predir (redirs c)).
Proof.
  induction c as [argv|c IH f k|l IHl r IHr|l IHl r IHr|c IH]; try (cbn [core redirs map concat]; by rewrite app_nil_r).
  cbn [print core redirs]. rewrite IH, map_app, concat_app, <- app_assoc. cbn [map concat]. by rewrite app_nil_r.
Qed.

Lemma redirs_wf c : cmd_wf c -> cmd_wf (core c) /\ Forall (fun r => good_word (fst r)) (redirs c).
Proof.
  induction c as [argv|c IH f k|l IHl r IHr|l IHl r IHr|c IH]; try done. cbn [cmd_wf core redirs]. intros [Hc Hf].
  destruct (IH Hc) as [H1 H2]. split; [done|]. apply Forall_app. split; [done|]. by constructor.
Qed.

Definition is_redir (c : cmd) : bool := match c with REDIR _ _ _ => true | _ => false end.
Lemma core_not_redir c : is_redir (core c) = false.
Proof. by induction c. Qed.

(** The trailing [&]s of a command. *)
Fixpoint bcore (c : cmd) : cmd := match c with BACK c => bcore c | _ => c end.
Fixpoint bcount (c : cmd) : nat := match c with BACK c => S (bcount c) | _ => 0 end.

Fixpoint backs (n : nat) (c : cmd) : cmd := match n with O => c | S n' => BACK (backs n' c) end.
Definition pbacks (n : nat) : list Z := concat (replicate n (psym 38)).

Lemma backs_core c : backs (bcount c) (bcore c) = c.
Proof. induction c; try done. cbn. by rewrite IHc. Qed.

Lemma pbacks_snoc n : pbacks n ++ psym 38 = psym 38 ++ pbacks n.
Proof. induction n as [|n IH]; [done|]. cbn [pbacks replicate concat] in *. unfold pbacks in *. cbn [replicate concat]. by rewrite <- app_assoc, IH. Qed.

Lemma print_back c : print LBack c = print LPipe (bcore c) ++ pbacks (bcount c).
Proof.
  induction c as [argv|c IH f k|l IHl r IHr|l IHl r IHr|c IH]; try (cbn; by rewrite app_nil_r).
  cbn [print bcore bcount]. rewrite IH, <- app_assoc, pbacks_snoc. done.
Qed.

Lemma peek_follow toks fs s : follow fs s -> fs ⊆ ends -> forallb (fun c => negb (chars toks c)) fs = true ->
  peek toks s = Ret false s.
Proof.
  intros Hs Hsub Hf. rewrite peek_nows by (by apply (follow_nows fs)). destruct s as [|c s]; [done|]. cbn [follow] in Hs.
  rewrite forallb_forall in Hf. apply list_elem_of_In, Hf in Hs. by destruct (chars toks c).
Qed.

Lemma peek_sym toks c s : chars toks c = true -> chars whitespace c = false -> peek toks (psym c ++ s) = Ret true (psym c ++ s).
Proof. intros Hc Hw. rewrite peek_nows by done. cbn [app psym]. by rewrite Hc. Qed.

Lemma backs_snoc n c : backs n (BACK c) = backs (S n) c.
Proof. induction n as [|n IH]; [done|]. cbn [backs] in *. by rewrite IH. Qed.

Lemma parseback_print n : forall fuel c s, follow [41; 59] s -> (n < fuel)%nat ->
  parseback fuel c (pbacks n ++ s) = Ret (backs n c) s.
Proof.
  induction n as [|n IH]; intros fuel c s Hs Hf; (destruct fuel as [|fuel]; [lia|]); cbn [parseback].
  - cbn [pbacks replicate concat app]. by rewrite (kbind_ret _ _ _ _ _ (peek_follow [38] _ s Hs ltac:(set_solver) eq_refl)).
  - unfold pbacks. cbn [replicate concat]. rewrite <- app_assoc. fold (pbacks n).
    assert (nows (pbacks n ++ s)) as Hn by (destruct n; [apply (follow_nows _ _ Hs); set_solver|done]).
    rewrite (kbind_ret _ _ _ _ _ (peek_sym [38] 38 _ eq_refl eq_refl)).
    rewrite (kbind_ret _ _ _ _ _ (token_sym 38 _ ltac:(set_solver) Hn)), IH by (done || lia). by rewrite backs_snoc.
Qed.

Definition Lp (c : cmd) : Prop := forall fuel s, follow [41] s -> (3 * length (print LLine c ++ s) + 3 <= fuel)%nat ->
  parseline fuel (print LLine c ++ s) = Ret c s.
Definition Pp (c : cmd) : Prop := forall fuel s, follow [41; 59; 38] s -> (3 * length (print LPipe c ++ s) + 2 <= fuel)%nat ->
  parsepipe fuel (print LPipe c ++ s) = Ret c s.
Definition Ep (c : cmd) : Prop := forall fuel s, follow ends s -> (3 * length (print LExec c ++ s) + 1 <= fuel)%nat ->
  parseexec fuel (print LExec c ++ s) = Ret c s.

Lemma length_words ws : (length ws <= length (concat (map pword ws)))%nat.
Proof. induction ws as [|w ws IH]; [done|]. cbn [map concat length]. unfold pword at 1. rewrite !length_app. cbn [length]. lia. Qed.

Lemma exec_args c argv : cmd_wf c -> core c = EXEC argv -> Ep c.
Proof.
  intros Hw Hc fuel s Hs Hf. destruct (redirs_wf c Hw) as [Hwc Hwr]. rewrite Hc in Hwc. destruct Hwc as [Hn Hwa].
  rewrite print_core, Hc, <- app_assoc. cbn [print]. destruct fuel as [|fuel]; [lia|]. cbn [parseexec].
  pose proof (follow_nows _ _ Hs ltac:(done)) as Hns. pose proof (length_redirs (redirs c)) as Hlr.
  set (u := concat (map pword argv) ++ concat (map predir (redirs c)) ++ s).
  assert (nows u) as Hu by (apply nows_words; [done|by apply nows_redirs]).
  rewrite (kbind_ret _ _ _ _ _ (peek_nows [40] u Hu)).
  assert (match u with d :: _ => chars [40] d | [] => false end = false) as ->.
  { unfold u. destruct argv as [|w argv]; cbn [map concat app].
    - destruct (redirs c) as [|[f k] rs]; [|by destruct k]. cbn [map concat app]. destruct s as [|d s]; [done|]. cbn in Hs.
      unfold ends in Hs. rewrite !elem_of_cons, elem_of_nil in Hs. by destruct_or! Hs; subst d.
    - inversion_clear Hwa as [|? ? [Hwn Hwg] _]. destruct w as [|d w]; [done|]. inversion_clear Hwg as [|? ? Hd _].
      apply good_head in Hd as [_ Hd]. cbn. unfold chars, symbols in *. cbn [strchr] in *.
      repeat match goal with |- context [?a =? d] => destruct (Z.eqb_spec a d); [subst d; done|] end. done. }
  rewrite (kbind_ret kget _ u u u eq_refl). destruct argv as [|w argv].
  - unfold u. cbn [map concat app].
    rewrite (kbind_ret _ _ _ _ _ (parseredirs_print (redirs c) (S (length (concat (map predir (redirs c)) ++ s))) s Hwr Hns (follow_redirs _ _ Hs ltac:(done)) ltac:(rewrite length_app; lia))).
    rewrite (kbind_ret kget _ s s s eq_refl), (kbind_ret _ _ _ _ _ (parseargs_end _ 0 s Hs)). cbn [fst snd].
    rewrite app_nil_r, <- Hc. unfold kret. by rewrite redircmds_core.
  - assert (parseredirs (S (length u)) u = Ret [] u) as E.
    { apply (parseredirs_print [] (S (length u)) u); [constructor|done| |cbn; lia].
      inversion_clear Hwa as [|? ? Hg' _]. unfold u. cbn [map concat]. rewrite <- app_assoc. by apply good_redirs. }
    rewrite (kbind_ret _ _ _ _ _ E), (kbind_ret kget _ u u u eq_refl). unfold u at 2.
    assert (length (w :: argv) < S (length u))%nat as Hlu by (unfold u; rewrite length_app; pose proof (length_words (w :: argv)); lia).
    rewrite (kbind_ret _ _ _ _ _ (parseargs_print (w :: argv) (redirs c) s Hwr Hs _ 0%nat ltac:(done) Hwa Hn Hlu)).
    cbn [fst snd app]. unfold kret. by rewrite <- Hc, redircmds_core.
Qed.

Definition is_exec (c : cmd) : bool := match c with EXEC _ => true | _ => false end.
Definition is_pipe (c : cmd) : bool := match c with PIPE _ _ => true | _ => false end.
Definition is_list (c : cmd) : bool := match c with LIST _ _ => true | _ => false end.

Lemma nows_sym c s : chars whitespace c = false -> nows (psym c ++ s).
Proof. done. Qed.

(** [(line) redirections] *)
Lemma exec_block c : cmd_wf c -> is_exec (core c) = false -> Lp (core c) -> Ep c.
Proof.
  intros Hw Hc HL fuel s Hs Hf. destruct (redirs_wf c Hw) as [Hwc Hwr]. pose proof (core_not_redir c) as Hnr.
  pose proof (follow_nows _ _ Hs ltac:(done)) as Hns. pose proof (length_redirs (redirs c)) as Hlr.
  rewrite print_core in *. assert (print LExec (core c) = paren (print LLine (core c))) as Ep' by (by destruct (core c)).
  rewrite Ep' in *. unfold paren in *. rewrite <- !app_assoc in *. set (u := concat (map predir (redirs c)) ++ s) in *.
  assert (nows u) as Hu by (by apply nows_redirs). assert (nows (print LLine (core c) ++ psym 41 ++ u)) as Hn by (by apply nows_print).
  destruct fuel as [|fuel]; [lia|]. cbn [parseexec]. rewrite (kbind_ret _ _ _ _ _ (peek_sym [40] 40 _ eq_refl eq_refl)).
  rewrite (kbind_ret _ _ _ _ _ (token_sym 40 _ ltac:(set_solver) Hn)).
  assert (follow [41] (psym 41 ++ u)) as Hfo by (cbn; set_solver).
  rewrite (kbind_ret _ _ _ _ _ (HL fuel (psym 41 ++ u) Hfo ltac:(rewrite (length_app (psym 40)) in Hf; cbn [length psym] in Hf; lia))).
  rewrite (kbind_ret _ _ _ _ _ (peek_sym [41] 41 _ eq_refl eq_refl)). cbn [negb].
  rewrite (kbind_ret _ _ _ _ _ (token_sym 41 _ ltac:(set_solver) Hu)), (kbind_ret kget _ u u u eq_refl). unfold u.
  rewrite (kbind_ret _ _ _ _ _ (parseredirs_print (redirs c) (S (length (concat (map predir (redirs c)) ++ s))) s Hwr Hns
    (follow_redirs _ _ Hs ltac:(done)) ltac:(rewrite length_app; lia))).
  unfold kret. by rewrite redircmds_core.
Qed.

Lemma pipe_exec c : is_pipe c = false -> Ep c -> Pp c.
Proof.
  intros Hc HE fuel s Hs Hf. assert (print LPipe c = print LExec c) as Epr by (by destruct c). rewrite Epr in *.
  destruct fuel as [|fuel]; [lia|]. cbn [parsepipe].
  assert (follow ends s) as Hs' by (destruct s; [done|]; cbn in *; set_solver).
  rewrite (kbind_ret _ _ _ _ _ (HE fuel s Hs' ltac:(lia))).
  by rewrite (kbind_ret _ _ _ _ _ (peek_follow [124] _ s Hs ltac:(set_solver) eq_refl)).
Qed.

Lemma pipe_pipe l r : cmd_wf r -> Ep l -> Pp r -> Pp (PIPE l r).
Proof.
  intros Hw HE HP fuel s Hs Hf. cbn [print] in *. rewrite <- !app_assoc in *. destruct fuel as [|fuel]; [lia|]. cbn [parsepipe].
  assert (nows s) as Hns by (apply (follow_nows _ _ Hs); set_solver). set (u := print LPipe r ++ s) in *.
  assert (nows u) as Hu by (by apply nows_print). assert (follow ends (psym 124 ++ u)) as Hfo by (cbn; set_solver).
  rewrite (kbind_ret _ _ _ _ _ (HE fuel _ Hfo ltac:(lia))), (kbind_ret _ _ _ _ _ (peek_sym [124] 124 _ eq_refl eq_refl)).
  rewrite (kbind_ret _ _ _ _ _ (token_sym 124 _ ltac:(set_solver) Hu)). unfold u.
  rewrite (kbind_ret _ _ _ _ _ (HP fuel s Hs ltac:(rewrite length_app, (length_app (psym 124)) in Hf; cbn [length psym] in Hf; fold u; lia))). done.
Qed.

(** A pipeline and its [&]s, in front of [;] or [)]. *)
Lemma line_backs c fuel s (k : cmd -> P cmd) : Pp (bcore c) -> follow [41; 59] s ->
  (3 * length (print LBack c ++ s) + 2 <= fuel)%nat ->
  (p <- parsepipe fuel ;; u <- kget ;; b <- parseback (S (length u)) p ;; k b) (print LBack c ++ s) = k c s.
Proof.
  intros HP Hs Hf. rewrite print_back, <- app_assoc in *.
  assert (follow [41; 59; 38] (pbacks (bcount c) ++ s)) as Hfo.
  { destruct (bcount c); [destruct s; [done|]; cbn in *; set_solver|cbn; set_solver]. }
  rewrite (kbind_ret _ _ _ _ _ (HP fuel _ Hfo Hf)), (kbind_ret kget _ _ _ _ eq_refl).
  assert (bcount c <= length (pbacks (bcount c)))%nat as Hl.
  { clear. induction (bcount c) as [|n IH]; [lia|]. unfold pbacks in *. cbn [replicate concat]. rewrite length_app. cbn [psym length]. lia. }
  rewrite (kbind_ret _ _ _ _ _ (parseback_print (bcount c) (S (length (pbacks (bcount c) ++ s))) (bcore c) s Hs ltac:(rewrite length_app; lia))).
  by rewrite backs_core.
Qed.

Lemma line_back c : is_list c = false -> Pp (bcore c) -> Lp c.
Proof.
  intros Hc HP fuel s Hs Hf. assert (print LLine c = print LBack c) as Epr by (by destruct c). rewrite Epr in *.
  destruct fuel as [|fuel]; [lia|]. cbn [parseline].
  assert (follow [41; 59] s) as Hs' by (destruct s; [done|]; cbn in *; set_solver).
  rewrite line_backs by (done || lia). by rewrite (kbind_ret _ _ _ _ _ (peek_follow [59] _ s Hs ltac:(set_solver) eq_refl)).
Qed.

Lemma line_list l r : cmd_wf r -> Pp (bcore l) -> Lp r -> Lp (LIST l r).
Proof.
  intros Hw HP HL fuel s Hs Hf. cbn [print] in *. rewrite <- !app_assoc in *. destruct fuel as [|fuel]; [lia|]. cbn [parseline].
  assert (nows s) as Hns by (apply (follow_nows _ _ Hs); set_solver). set (u := print LLine r ++ s) in *.
  assert (nows u) as Hu by (by apply nows_print). assert (follow [41; 59] (psym 59 ++ u)) as Hfo by (cbn; set_solver).
  rewrite line_backs by (done || lia). rewrite (kbind_ret _ _ _ _ _ (peek_sym [59] 59 _ eq_refl eq_refl)).
  rewrite (kbind_ret _ _ _ _ _ (token_sym 59 _ ltac:(set_solver) Hu)). unfold u.
  rewrite (kbind_ret _ _ _ _ _ (HL fuel s Hs ltac:(rewrite length_app, (length_app (psym 59)) in Hf; cbn [length psym] in Hf; fold u; lia))). done.
Qed.

Lemma print_parses c : cmd_wf c -> Lp c /\ Pp c /\ Ep c /\ Lp (core c) /\ Pp (bcore c).
Proof.
  induction c as [argv|c IH f k|l IHl r IHr|l IHl r IHr|c IH]; intros Hw; pose proof Hw as Hw'; cbn [cmd_wf core bcore] in *.
  - assert (Ep (EXEC argv)) as HE by (by eapply exec_args). assert (Pp (EXEC argv)) by (by apply pipe_exec).
    assert (Lp (EXEC argv)) by (by apply line_back). done.
  - destruct (IH (proj1 Hw)) as (_ & _ & _ & HL & _). assert (Ep (REDIR c f k)) as HE.
    { destruct (is_exec (core c)) eqn:E; [|by apply exec_block]. destruct (core c) as [argv| | | |] eqn:Ec; try done. by eapply exec_args. }
    assert (Pp (REDIR c f k)) by (by apply pipe_exec). assert (Lp (REDIR c f k)) by (by apply line_back). done.
  - destruct (IHl (proj1 Hw)) as (_ & _ & HE & _ & _). destruct (IHr (proj2 Hw)) as (_ & HP & _).
    assert (Pp (PIPE l r)) by (apply pipe_pipe; [apply Hw|done..]). assert (Lp (PIPE l r)) by (by apply line_back).
    assert (Ep (PIPE l r)) by (by apply exec_block). done.
  - destruct (IHl (proj1 Hw)) as (_ & _ & _ & _ & HP). destruct (IHr (proj2 Hw)) as (HL & _).
    assert (Lp (LIST l r)) by (apply line_list; [apply Hw|done..]). assert (Ep (LIST l r)) by (by apply exec_block).
    assert (Pp (LIST l r)) by (by apply pipe_exec). done.
  - destruct (IH Hw) as (_ & _ & _ & _ & HP). assert (Lp (BACK c)) by (by apply line_back).
    assert (Ep (BACK c)) by (by apply exec_block). assert (Pp (BACK c)) by (by apply pipe_exec). done.
Qed.

Lemma parse_print c : cmd_wf c -> parsecmd (print LLine c) = Ret c [].
Proof.
  intros Hw. destruct (print_parses c Hw) as (HL & _). unfold parsecmd. rewrite <- (app_nil_r (print LLine c)) at 2.
  by rewrite (kbind_ret _ _ _ _ _ (HL (3 * length (print LLine c) + 4)%nat [] I ltac:(rewrite app_nil_r; lia))).
Qed.

(** C33: printing a command and parsing the line gives the command back, for
    every command of the shell's syntax whose words are single tokens and whose
    argument lists are below [MAXARGS]: nothing is lost, reordered or
    bracketed differently by the parser. *)
Theorem parsecmd_print (c : cmd) (Hw : cmd_wf c) : parsecmd (print LLine c) = Ret c [].
Proof. by apply parse_print. Qed.

Lemma parsecmd_print_witness :
  (* (cat < in | wc & ; echo hi >> out) | grep x > out ; ls & *)
  let c := LIST (PIPE (LIST (BACK (PIPE (REDIR (EXEC [[99; 97; 116]]) [105; 110] RIn) (EXEC [[119; 99]])))
                            (REDIR (EXEC [[101; 99; 104; 111]; [104; 105]]) [111; 117; 116] RAppend))
                      (REDIR (EXEC [[103; 114; 101; 112]; [120]]) [111; 117; 116] ROut))
                (BACK (EXEC [[108; 115]])) in
  parsecmd (print LLine c) = Ret c [].
Proof. apply parsecmd_print. cbn. unfold good_word. repeat (split || constructor || lia || done). Defined.

(** C34: the parser comes to an end on every line, with a command and the whole
    line read, or with one of its error messages. *)
Theorem parsecmd_total (s : list Z) :
  (exists c, parsecmd s = Ret c []) \/ (exists m, parsecmd s = Panic m /\ m ∈ messages).
Proof.
  assert (ok (fun s => parsecmd s) s) as Hok.
  { unfold parsecmd. apply ok_bind; [apply ok_parse; lia|]. intros c s1 _ _. apply ok_bind; [apply ok_peek|]. intros b s2 _ _.
    apply ok_bind; [apply ok_get|]. intros s3 s4 _ _. destruct (negb _); [by apply ok_panic|apply ok_ret]. }
  unfold ok in Hok. destruct (parsecmd s) as [c s'|m| |] eqn:E; try done; [|right; by exists m].
  left. exists c. unfold parsecmd in E. apply kbind_inv in E as (c1 & s1 & _ & E). apply kbind_inv in E as (b & s2 & _ & E).
  apply kbind_inv in E as (s3 & s4 & E4 & E). injection E4 as <- <-. destruct s2; [|done]. by injection E as <- <-.
Qed.
