(* ===== verification/ShRun.v ===== *)
(** * Running commands in the shell

    [runcmd] of user/sh.c on the descriptor tables of the processes it creates.
    A table says what each descriptor of a process refers to.  [place], [close],
    [dup] and [pipe_fds] are what the shell relies on of the system calls:
    [open], [dup] and [pipe] take the lowest free descriptor ([find_fd] of
    Sysfile.v, the scan of the kernel's fdalloc).  A run is a tree of processes,
    each with its descriptors where it calls exec, waits or exits.  Which calls
    fail is up to the environment. *)

From S2P Require Import Prelude KState Sysfile Ulib Sh.

(** What a descriptor refers to: the console, what the shell was given by its
    parent, a file, or an end of a pipe of the line, which is named by the place
    of its command. *)
Inductive obj :=
| OTty
| OGiven (n : nat)
| OFile (name : list Z) (mode : Z)
| OPipeR (at_ : list bool)
| OPipeW (at_ : list bool).

Definition fdtab : Type := list (option obj).

(** A shell that waits does so for the command at a place of the line. *)
Inductive ptree :=
| TExec (fds : fdtab) (argv : list (list Z)) (failed : ptree)
| TFork (child parent : ptree)
| TWait (at_ : list bool) (fds : fdtab) (k : ptree)
| TExit (fds : fdtab) (status : Z).

(** The system calls on the table. *)
Definition place (o : obj) (fds : fdtab) : option (nat * fdtab) :=
  match find_fd (map (fun x : option obj => match x with Some _ => Some 0%nat | None => None end) fds) 0 with
  | Some i => Some (i, <[i := Some o]> fds)
  | None => None
  end.
Definition close (fd : nat) (fds : fdtab) : fdtab := <[fd := None]> fds.
Definition dup (fd : nat) (fds : fdtab) : fdtab :=
  match fds !! fd with
  | Some (Some o) => match place o fds with Some (_, fds') => fds' | None => fds end
  | _ => fds
  end.
Definition pipe_fds (at_ : list bool) (fds : fdtab) : option (nat * nat * fdtab) :=
  '(p0, fds) ← place (OPipeR at_) fds;
  '(p1, fds) ← place (OPipeW at_) fds;
  Some (p0, p1, fds).

(** Which calls succeed: the opens of the console, the pipe, the forks and the
    opens of a command. *)
Record env := Env {
  console_ok : nat -> bool;
  pipe_ok : list bool -> bool;
  fork_ok : list bool -> bool -> bool;
  open_ok : list bool -> list Z -> Z -> bool
}.

Section run.
Variable e : env.

(** [fork1]: a failing fork is a panic. *)
Definition fork1 (at_ : list bool) (second : bool) (fds : fdtab) (child parent : ptree) : ptree :=
  if fork_ok e at_ second then TFork child parent else TExit fds 1.

Fixpoint runcmd (at_ : list bool) (c : cmd) (fds : fdtab) : ptree :=
  match c with
  | EXEC argv =>
      match argv with
      | [] => TExit fds 1
      | _ => TExec fds argv (TExit fds 0)
      end
  | REDIR c file k =>
      let fds := close (Z.to_nat (rfd k)) fds in
      match (if open_ok e at_ file (rmode k) then place (OFile file (rmode k)) fds else None) with
      | None => TExit fds 1
      | Some (_, fds) => runcmd (false :: at_) c fds
      end
  | LIST l r =>
      fork1 at_ false fds (runcmd (false :: at_) l fds)
        (TWait at_ fds (runcmd (true :: at_) r fds))
  | PIPE l r =>
      match (if pipe_ok e at_ then pipe_fds at_ fds else None) with
      | None => TExit fds 1
      | Some (p0, p1, fds) =>
          fork1 at_ false fds
            (runcmd (false :: at_) l (close p1 (close p0 (dup p1 (close 1 fds)))))
            (fork1 at_ true fds
              (runcmd (true :: at_) r (close p1 (close p0 (dup p0 (close 0 fds)))))
              (let fds := close p1 (close p0 fds) in TWait at_ fds (TWait at_ fds (TExit fds 0))))
      end
  | BACK c => fork1 at_ false fds (runcmd (false :: at_) c fds) (TExit fds 0)
  end.
End run.

(** The loop at the start of [main] that opens the console until three
    descriptors are in use or an open fails, from the [n]-th open on.  Each
    turn fills a descriptor of NOFILE. *)
Fixpoint open_console_loop (e : env) (fuel n : nat) (fds : fdtab) : fdtab :=
  match fuel with
  | O => fds
  | S fuel' =>
      match (if console_ok e n then place OTty fds else None) with
      | Some (fd, fds) => if (3 <=? fd)%nat then close fd fds else open_console_loop e fuel' (S n) fds
      | None => fds
      end
  end.
Definition open_console (e : env) (fds : fdtab) : fdtab := open_console_loop e (S NOFILE) 0 fds.

(** The shell on one line that is not a [cd]: what its child does. *)
Definition run_line (e : env) (line : list Z) (fds : fdtab) : ptree :=
  match parsecmd line with
  | Ret c _ => runcmd e [] c fds
  | _ => TExit fds 1
  end.

(** ** The specification *)

(** Standard input, output and error, and nothing else. *)
Definition std (i o err : obj) : fdtab := [Some i; Some o; Some err] ++ replicate 13 None.

(** The programs started, each with its input, output and error. *)
Fixpoint plumb (e : env) (at_ : list bool) (c : cmd) (i o err : obj) : list (list (list Z) * fdtab) :=
  match c with
  | EXEC argv => match argv with [] => [] | _ => [(argv, std i o err)] end
  | REDIR c f k =>
      if open_ok e at_ f (rmode k) then
        match k with
        | RIn => plumb e (false :: at_) c (OFile f (rmode k)) o err
        | _ => plumb e (false :: at_) c i (OFile f (rmode k)) err
        end
      else []
  | PIPE l r => plumb e (false :: at_) l i (OPipeW at_) err ++ plumb e (true :: at_) r (OPipeR at_) o err
  | LIST l r => plumb e (false :: at_) l i o err ++ plumb e (true :: at_) r i o err
  | BACK c => plumb e (false :: at_) c i o err
  end.

(** The programs of a run, and the tables of processes that start a program or
    wait for one. *)
Fixpoint execs (t : ptree) : list (list (list Z) * fdtab) :=
  match t with
  | TExec fds argv failed => (argv, fds) :: execs failed
  | TFork c p => execs c ++ execs p
  | TWait _ _ k => execs k
  | TExit _ _ => []
  end.
Fixpoint tables (t : ptree) : list fdtab :=
  match t with
  | TExec fds _ failed => fds :: tables failed
  | TFork c p => tables c ++ tables p
  | TWait _ fds k => fds :: tables k
  | TExit _ _ => []
  end.
(** The shells that wait, with the place of the command they wait for. *)
Fixpoint waits (t : ptree) : list (list bool * fdtab) :=
  match t with
  | TExec _ _ failed => waits failed
  | TFork c p => waits c ++ waits p
  | TWait at_ fds k => (at_, fds) :: waits k
  | TExit _ _ => []
  end.

(** Neither end of the pipe of the command at [at_] is open. *)
Definition pipe_closed (w : list bool * fdtab) : Prop := (Some (OPipeR (fst w)) ∉ snd w) /\ (Some (OPipeW (fst w)) ∉ snd w).

(** [o] is not a pipe of the command at [at_] or of a part of it. *)
Definition outside (at_ : list bool) (o : obj) : Prop :=
  match o with
  | OPipeR p | OPipeW p => ~ at_ `suffix_of` p
  | _ => True
  end.

(** Only descriptors 0, 1 and 2 are in use. *)
Definition only_std (fds : fdtab) : Prop := exists i o err, fds = std i o err.

Lemma close_open k o i out err : exists i' o', place o (close (Z.to_nat (rfd k)) (std i out err)) = Some (Z.to_nat (rfd k), std i' o' err) /\
  match k with RIn => i' = o /\ o' = out | _ => i' = i /\ o' = o end.
Proof. destruct k; eexists _, _; (split; [reflexivity|done]). Qed.

Lemma pipe_std at_ i o err : exists fds, pipe_fds at_ (std i o err) = Some (3%nat, 4%nat, fds) /\
  close 4 (close 3 (dup 4 (close 1 fds))) = std i (OPipeW at_) err /\
  close 4 (close 3 (dup 3 (close 0 fds))) = std (OPipeR at_) o err /\
  close 4 (close 3 fds) = std i o err.
Proof. eexists. split; [reflexivity|]. done. Qed.

Lemma runcmd_tables e c : forall at_ i o err, Forall only_std (tables (runcmd e at_ c (std i o err))).
Proof.
  assert (forall i o err, only_std (std i o err)) as Hstd by (intros; by eexists _, _, _).
  induction c as [argv|c IH f k|l IHl r IHr|l IHl r IHr|c IH]; intros at_ i o err; cbn [runcmd].
  - destruct argv; cbn [tables]; auto.
  - destruct (open_ok e at_ f (rmode k)); [|constructor].
    destruct (close_open k (OFile f (rmode k)) i o err) as (i' & o' & -> & _). apply IH.
  - destruct (pipe_ok e at_); [|constructor]. destruct (pipe_std at_ i o err) as (fds & -> & -> & -> & ->).
    unfold fork1. destruct (fork_ok e at_ false), (fork_ok e at_ true); cbn [tables]; rewrite ?Forall_app; repeat split; auto.
  - unfold fork1. destruct (fork_ok e at_ false); cbn [tables]; rewrite ?Forall_app; repeat split; auto.
  - unfold fork1. destruct (fork_ok e at_ false); cbn [tables]; rewrite ?Forall_app; repeat split; auto.
Qed.

Lemma runcmd_execs e c : (forall at_, pipe_ok e at_ = true) -> (forall at_ b, fork_ok e at_ b = true) ->
  forall at_ i o err, execs (runcmd e at_ c (std i o err)) = plumb e at_ c i o err.
Proof.
  intros Hp Hf. induction c as [argv|c IH f k|l IHl r IHr|l IHl r IHr|c IH]; intros at_ i o err; cbn [runcmd plumb]; unfold fork1; rewrite ?Hf, ?Hp.
  - by destruct argv.
  - destruct (open_ok e at_ f (rmode k)); [|done].
    destruct (close_open k (OFile f (rmode k)) i o err) as (i' & o' & -> & Hio). rewrite IH. by destruct k; destruct Hio as [-> ->].
  - destruct (pipe_std at_ i o err) as (fds & -> & -> & -> & ->). cbn [execs]. by rewrite IHl, IHr, app_nil_r.
  - cbn [execs]. by rewrite IHl, IHr.
  - cbn [execs]. by rewrite IH, app_nil_r.
Qed.

Lemma outside_sub b at_ o : outside at_ o -> outside (b :: at_) o.
Proof. destruct o; cbn; try done; intros H (k & ->); apply H; exists (k ++ [b]); by rewrite <- app_assoc. Qed.

Lemma outside_own b at_ : outside (b :: at_) (OPipeR at_) /\ outside (b :: at_) (OPipeW at_).
Proof. split; cbn; intros (k & H%(f_equal length)); rewrite length_app in H; simpl in H; lia. Qed.

Lemma outside_closed at_ i o err : outside at_ i -> outside at_ o -> outside at_ err -> pipe_closed (at_, std i o err).
Proof.
  assert (forall x, outside at_ x -> x <> OPipeR at_ /\ x <> OPipeW at_) as Hne.
  { intros x Hx. split; intros ->; apply Hx; reflexivity. }
  intros Hi Ho He. destruct (Hne _ Hi), (Hne _ Ho), (Hne _ He).
  split; cbn [fst snd std app]; rewrite !elem_of_cons; intros [?|[?|[?|H']]]; simplify_eq; by apply elem_of_replicate in H' as [? _].
Qed.

Lemma runcmd_waits e c : forall at_ i o err, outside at_ i -> outside at_ o -> outside at_ err ->
  Forall pipe_closed (waits (runcmd e at_ c (std i o err))).
Proof.
  induction c as [argv|c IH f k|l IHl r IHr|l IHl r IHr|c IH]; intros at_ i o err Hi Ho He; cbn [runcmd];
    pose proof (outside_closed at_ i o err Hi Ho He) as Hc; pose proof (outside_sub) as Hs.
  - destruct argv; cbn [waits]; auto.
  - destruct (open_ok e at_ f (rmode k)); [|constructor].
    destruct (close_open k (OFile f (rmode k)) i o err) as (i' & o' & -> & Hio).
    destruct k; destruct Hio as [-> ->]; apply IH; auto; done.
  - destruct (pipe_ok e at_); [|constructor]. destruct (pipe_std at_ i o err) as (fds & -> & -> & -> & ->).
    destruct (outside_own false at_), (outside_own true at_).
    unfold fork1. destruct (fork_ok e at_ false), (fork_ok e at_ true); cbn [waits]; rewrite ?Forall_app; repeat split; auto.
  - unfold fork1. destruct (fork_ok e at_ false); cbn [waits]; rewrite ?Forall_app; repeat split; auto.
  - unfold fork1. destruct (fork_ok e at_ false); cbn [waits]; rewrite ?Forall_app; repeat split; auto.
Qed.

(** Any table in which only the first three descriptors may be in use. *)
Lemma open_console_std e a b c : exists a' b' c',
  open_console e ([a; b; c] ++ replicate 13 None) = [a'; b'; c'] ++ replicate 13 None /\
  ((forall n, console_ok e n = true) -> a' = Some (default OTty a) /\ b' = Some (default OTty b) /\ c' = Some (default OTty c)).
Proof.
  unfold open_console. change (S NOFILE) with 17%nat.
  destruct a, b, c; cbn [open_console_loop]; repeat (match goal with |- context [console_ok e ?n] => destruct (console_ok e n) eqn:? end; cbn);
    eexists _, _, _; (split; [reflexivity|]); intros Hok; rewrite ?Hok in *; done.
Qed.

(** C32: a shell that starts with any of its first three descriptors open and no
    other connects the programs of a command line as the line says.  However
    opens of the console fail, none but the first three descriptors is in use
    when it starts to read commands; if they succeed all three are.  Then each
    program of a pipeline writes to the pipe the next one reads, redirections
    replace input or output, and a program starts with descriptors 0, 1 and 2
    and no other, so that it keeps no end of a pipe that is not its input or
    output.  A shell process that waits has only these three descriptors too,
    and one that waits for the two sides of a pipe has closed both ends of it,
    so that the reader sees the end of its input when the writers are done (the
    descriptors the shell was given are not pipes of this line).  What is said
    of the descriptors of programs and of waiting shells holds whichever calls
    fail. *)
Theorem shell_plumbing (e : env) (c : cmd) (a b d : option obj) (Hw : cmd_wf c) :
  let fds := open_console e ([a; b; d] ++ replicate 13 None) in
  (exists a' b' d', fds = [a'; b'; d'] ++ replicate 13 None) /\
  ((forall n, console_ok e n = true) ->
   let t := run_line e (print LLine c) fds in
   Forall only_std (tables t) /\
   (Forall (outside []) (omap id [a; b; d]) -> Forall pipe_closed (waits t)) /\
   ((forall at_, pipe_ok e at_ = true) -> (forall at_ s, fork_ok e at_ s = true) ->
    execs t = plumb e [] c (default OTty a) (default OTty b) (default OTty d))).
Proof.
  intros fds. destruct (open_console_std e a b d) as (a' & b' & d' & E & H). fold fds in E. split; [by exists a', b', d'|].
  intros Hc t. destruct (H Hc) as (-> & -> & ->). assert (t = runcmd e [] c (std (default OTty a) (default OTty b) (default OTty d))) as ->.
  { unfold t, run_line. by rewrite parse_print, E by done. }
  split; [apply runcmd_tables|]. split; [|intros; by apply runcmd_execs].
  intros Ho. destruct a, b, d; cbn in Ho; decompose_Forall_hyps; by apply runcmd_waits.
Qed.

(** The line [cat < in | wc > out]. *)
Lemma shell_plumbing_witness :
  let c := PIPE (REDIR (EXEC [[99; 97; 116]]) [105; 110] RIn) (REDIR (EXEC [[119; 99]]) [111; 117; 116] ROut) in
  let e := Env (fun _ => true) (fun _ => true) (fun _ _ => true) (fun _ _ _ => true) in
  let t := run_line e (print LLine c) (open_console e ([None; None; None] ++ replicate 13 None)) in
  execs t = [([[99; 97; 116]], std (OFile [105; 110] 0) (OPipeW []) OTty); ([[119; 99]], std (OPipeR []) (OFile [111; 117; 116] 1537) OTty)] /\
  waits t = [([], std OTty OTty OTty); ([], std OTty OTty OTty)] /\ Forall pipe_closed (waits t).
Proof.
  intros c e t. destruct (shell_plumbing e c None None None) as (_ & H).
  { cbn. unfold good_word. repeat (split || constructor || lia || done). }
  destruct (H (fun _ => eq_refl)) as (_ & H1 & H2). split; [by apply H2|]. split; [vm_compute; reflexivity|]. apply H1. constructor.
Defined.
