(* ===== verification/Progs.v ===== *)
(** * Small user programs

    echo, cat, rm, mkdir, ln, kill, ls, zombie and init as interaction trees: the
    system calls are the events, the exit status is the result.  init is
    followed over all answers of the kernel; what ls, cat and echo print is proved
    against an interface: any kernel whose open, read, fstat, close and write
    keep the laws of the class [Files] makes ls print one line for each entry in
    use of the directory, in order, and gets back the descriptors ls has
    opened. *)

From Stdlib Require Import Eqdep String Ascii ZArith Lia List Bool.
From ITree Require Import ITree ITreeFacts Eq.Shallow Events.State Events.StateFacts.
From S2P Require Import Fs FsFile File Sysfile Ulib Printf.
Import ITreeNotations ListNotations.
Local Open Scope itree_scope.
Local Open Scope Z_scope.

(** ** System calls *)

Variant sysE : Type -> Type :=
| Open (path : list Z) (mode : Z) : sysE Z
| Close (fd : Z) : sysE Z
| Read (fd n : Z) : sysE (Z * list Z)
| Write (fd : Z) (bs : list Z) : sysE Z
| Fstat (fd : Z) : sysE (Z * stat)
| Unlink (path : list Z) : sysE Z
| Mkdir (path : list Z) : sysE Z
| Link (old new : list Z) : sysE Z
| Kill (pid : Z) : sysE Z
| Mknod (path : list Z) (major minor : Z) : sysE Z
| Dup (fd : Z) : sysE Z
| Fork : sysE Z
| Wait : sysE Z
| Exec (path : list Z) (argv : list (list Z)) : sysE Z
| SleepFor (n : Z) : sysE Z
| PipeFds : sysE (Z * (Z * Z))
| Chdir (path : list Z) : sysE Z
| Getpid : sysE Z
| Sbrk (n : Z) : sysE Z
| Uptime : sysE Z.

Definition call {T} (e : sysE T) : itree sysE T := ITree.trigger e.

(** A program is what main does with its arguments; the result is the status it
    exits with. *)
Definition program : Type := list (list Z) -> itree sysE Z.

Definition cstr (s : string) : list Z := List.map (fun a => Z.of_N (Ascii.N_of_ascii a)) (String.list_ascii_of_string s).
Definition nl : list Z := [10].

(** ** The library *)

(** The bytes of a C string. *)
Definition cbytes (a : list Z) : list Z := firstn (Z.to_nat (strlen a)) a.

(** [fprintf] writes one character at a time; its strings have one [%s] at most.
    A number that did not fit the buffer of printint would have no result; an int
    always fits. *)
Fixpoint put_chars (fd : Z) (out : list Z) : itree sysE unit :=
  match out with
  | [] => Ret tt
  | c :: out' => call (Write fd [c]) ;; put_chars fd out'
  end.

Definition fprintf (fd : Z) (str : list Z) (fmt args : list Z) : itree sysE unit :=
  match uprintf (fun _ => cbytes str) fmt args with
  | Some out => put_chars fd out
  | None => ITree.spin
  end.


Definition ustat (n : list Z) : itree sysE (Z * stat) :=
  fd <- call (Open n O_RDONLY) ;;
  if fd <? 0 then Ret (-1, Stat 0 0 0 0 0)
  else
    r <- call (Fstat fd) ;;
    call (Close fd) ;;
    Ret r.

(** ** echo *)

Fixpoint echo_loop (args : list (list Z)) : itree sysE unit :=
  match args with
  | [] => Ret tt
  | a :: args' =>
      call (Write 1 (cbytes a)) ;;
      call (Write 1 (match args' with [] => nl | _ => [32] end)) ;;
      echo_loop args'
  end.
Definition echo : program := fun argv => echo_loop (tl argv) ;; Ret 0.

(** ** cat *)

(** The loop over a file; the result is the status of a call of exit in it. *)
Definition cat_fd (fd : Z) : itree sysE (option Z) :=
  ITree.iter (fun _ : unit =>
    r <- call (Read fd 512) ;;
    if 0 <? fst r then
      w <- call (Write 1 (firstn (Z.to_nat (fst r)) (snd r))) ;;
      if negb (w =? fst r) then
        fprintf 2 [] (cstr "cat: write error" ++ nl) [] ;;
        Ret (inr (Some 1))
      else Ret (inl tt)
    else if fst r <? 0 then
      fprintf 2 [] (cstr "cat: read error" ++ nl) [] ;;
      Ret (inr (Some 1))
    else Ret (inr None)) tt.

Fixpoint cat_files (args : list (list Z)) : itree sysE Z :=
  match args with
  | [] => Ret 0
  | a :: args' =>
      fd <- call (Open a O_RDONLY) ;;
      if fd <? 0 then fprintf 2 a (cstr "cat: cannot open %s" ++ nl) [1] ;; Ret 1
      else
        x <- cat_fd fd ;;
        match x with
        | Some status => Ret status
        | None => call (Close fd) ;; cat_files args'
        end
  end.
Definition cat_main : program := fun argv =>
  if Z.of_nat (length argv) <=? 1 then
    x <- cat_fd 0 ;;
    Ret (match x with Some status => status | None => 0 end)
  else cat_files (tl argv).

(** ** rm, mkdir, ln, kill, zombie *)

Fixpoint rm_loop (args : list (list Z)) : itree sysE unit :=
  match args with
  | [] => Ret tt
  | a :: args' =>
      r <- call (Unlink a) ;;
      if r <? 0 then fprintf 2 a (cstr "rm: %s failed to delete" ++ nl) [1] else rm_loop args'
  end.
Definition rm : program := fun argv =>
  if Z.of_nat (length argv) <? 2 then fprintf 2 [] (cstr "Usage: rm files..." ++ nl) [] ;; Ret 1
  else rm_loop (tl argv) ;; Ret 0.

Fixpoint mkdir_loop (args : list (list Z)) : itree sysE unit :=
  match args with
  | [] => Ret tt
  | a :: args' =>
      r <- call (Mkdir a) ;;
      if r <? 0 then fprintf 2 a (cstr "mkdir: %s failed to create" ++ nl) [1] else mkdir_loop args'
  end.
Definition mkdir : program := fun argv =>
  if Z.of_nat (length argv) <? 2 then fprintf 2 [] (cstr "Usage: mkdir files..." ++ nl) [] ;; Ret 1
  else mkdir_loop (tl argv) ;; Ret 0.

(** The message of ln has two names; the first is printed by [fprintf], and the
    rest follows. *)
Definition ln : program := fun argv =>
  match argv with
  | [_; old; new] =>
      r <- call (Link old new) ;;
      (if r <? 0 then
         fprintf 2 old (cstr "link %s ") [1] ;;
         fprintf 2 new (cstr "%s: failed" ++ nl) [1]
       else Ret tt) ;;
      Ret 0
  | _ => fprintf 2 [] (cstr "Usage: ln old new" ++ nl) [] ;; Ret 1
  end.

Fixpoint kill_loop (args : list (list Z)) : itree sysE unit :=
  match args with
  | [] => Ret tt
  | a :: args' => call (Kill (atoi a)) ;; kill_loop args'
  end.
Definition kill : program := fun argv =>
  if Z.of_nat (length argv) <? 2 then fprintf 2 [] (cstr "usage: kill pid..." ++ nl) [] ;; Ret 1
  else kill_loop (tl argv) ;; Ret 0.

Definition zombie : program := fun _ =>
  p <- call Fork ;;
  (if 0 <? p then call (SleepFor 5) ;; Ret tt else Ret tt) ;;
  Ret 0.

(** ** init *)

Definition console_path : list Z := cstr "console".

Definition wait_loop (pid : Z) : itree sysE (unit + Z) :=
  ITree.iter (fun _ : unit =>
    wpid <- call Wait ;;
    if wpid =? pid then Ret (inr (inl tt))
    else if wpid <? 0 then
      fprintf 1 [] (cstr "init: wait returned an error" ++ nl) [] ;;
      Ret (inr (inr 1))
    else Ret (inl tt)) tt.

Definition init_loop : itree sysE Z :=
  ITree.iter (fun _ : unit =>
    fprintf 1 [] (cstr "init: starting sh" ++ nl) [] ;;
    pid <- call Fork ;;
    if pid <? 0 then
      fprintf 1 [] (cstr "init: fork failed" ++ nl) [] ;;
      Ret (inr 1)
    else if pid =? 0 then
      call (Exec (cstr "sh") [cstr "sh"]) ;;
      fprintf 1 [] (cstr "init: exec sh failed" ++ nl) [] ;;
      Ret (inr 1)
    else wait_loop pid) tt.

Definition init : program := fun _ =>
  fd <- call (Open console_path O_RDWR) ;;
  (if fd <? 0 then
     call (Mknod console_path CONSOLE 0) ;;
     call (Open console_path O_RDWR) ;; Ret tt
   else Ret tt) ;;
  call (Dup 0) ;;
  call (Dup 0) ;;
  init_loop.

(** ** ls *)


(** From the end of the string back to a slash. *)
Fixpoint back_to_slash (r : list Z) : list Z :=
  match r with
  | [] => []
  | c :: r' => if c =? SLASH then [] else c :: back_to_slash r'
  end.

Definition fmtname (path : list Z) : list Z :=
  let p := rev (back_to_slash (rev (cbytes path))) in
  if DIRSIZ <=? strlen p then p
  else p ++ repeat 32 (Z.to_nat (DIRSIZ - strlen p)).

Definition ls_format : list Z := cstr "%s %d %d %d" ++ nl.
Definition ls_line (path : list Z) (st : stat) : itree sysE unit :=
  fprintf 1 (fmtname path) ls_format [1; st_type st; st_ino st; st_size st].

Definition ls_loop (fd : Z) (path : list Z) : itree sysE unit :=
  ITree.iter (fun _ : unit =>
    r <- call (Read fd 16) ;;
    if fst r =? 16 then
      if de_inum (snd r) =? 0 then Ret (inl tt)
      else
        let buf := cbytes path ++ [SLASH] ++ cbytes (de_name (snd r)) in
        st <- ustat buf ;;
        (if fst st <? 0 then fprintf 1 buf (cstr "ls: cannot stat %s" ++ nl) [1]
         else ls_line buf (snd st)) ;;
        Ret (inl tt)
    else Ret (inr tt)) tt.

Definition ls1 (path : list Z) : itree sysE unit :=
  fd <- call (Open path O_RDONLY) ;;
  if fd <? 0 then fprintf 2 path (cstr "ls: cannot open %s" ++ nl) [1]
  else
    st <- call (Fstat fd) ;;
    if fst st <? 0 then
      fprintf 2 path (cstr "ls: cannot stat %s" ++ nl) [1] ;;
      call (Close fd) ;; Ret tt
    else
      (if ((st_type (snd st) =? T_DEVICE) || (st_type (snd st) =? T_FILE))%bool then ls_line path (snd st)
       else if st_type (snd st) =? T_DIR then
         if 512 <? strlen path + 1 + DIRSIZ + 1 then fprintf 1 [] (cstr "ls: path too long" ++ nl) []
         else ls_loop fd path
       else Ret tt) ;;
      call (Close fd) ;; Ret tt.

Fixpoint ls_args (args : list (list Z)) : itree sysE unit :=
  match args with
  | [] => Ret tt
  | a :: args' => ls1 a ;; ls_args args'
  end.
Definition ls : program := fun argv =>
  (if Z.of_nat (length argv) <? 2 then ls1 (cstr ".") else ls_args (tl argv)) ;; Ret 0.

(** ** Traces *)

(** A system call and its result. *)
Inductive obs : Type :=
| Obs : forall T, sysE T -> T -> obs.
Arguments Obs {T} e a.

(** The calls a program may have made so far, whatever the kernel answers; and
    those of a whole run with its result. *)
Inductive trace {R} : itree sysE R -> list obs -> Prop :=
| trace_nil t : trace t []
| trace_tau t u l : observe t = TauF u -> trace u l -> trace t l
| trace_vis t T (e : sysE T) k a l : observe t = VisF e k -> trace (k a) l -> trace t (Obs e a :: l).

Inductive run {R} : itree sysE R -> list obs -> R -> Prop :=
| run_ret t r : observe t = RetF r -> run t [] r
| run_tau t u l r : observe t = TauF u -> run u l r -> run t l r
| run_vis t T (e : sysE T) k a l r : observe t = VisF e k -> run (k a) l r -> run t (Obs e a :: l) r.

(** A kernel that answers the calls from a state, and the calls a program makes
    of it in [n] steps. *)
Definition kernel (S : Type) : Type := forall T, sysE T -> S -> S * T.

Fixpoint play {S R} (h : kernel S) (n : nat) (s : S) (t : itree sysE R) : list obs :=
  match n with
  | O => []
  | Datatypes.S n' =>
      match observe t with
      | RetF _ => []
      | TauF u => play h n' s u
      | VisF e k => Obs e (snd (h _ e s)) :: play h n' (fst (h _ e s)) (k (snd (h _ e s)))
      end
  end.

Lemma trace_observe {R} (t u : itree sysE R) l : observe t = observe u -> trace t l -> trace u l.
Proof.
  intros E H. revert u E. destruct H as [t|t v l E' H|t T e k a l E' H]; intros u E; [apply trace_nil|eapply trace_tau; [rewrite <- E; exact E'|exact H]|].
  eapply trace_vis; [rewrite <- E; exact E'|exact H].
Qed.

Lemma run_observe {R} (t u : itree sysE R) l r : observe t = observe u -> run t l r -> run u l r.
Proof.
  intros E H. revert u E. destruct H as [t r E'|t v l r E' H|t T e k a l r E' H]; intros u E;
    [apply run_ret; rewrite <- E; exact E'|eapply run_tau; [rewrite <- E; exact E'|exact H]|eapply run_vis; [rewrite <- E; exact E'|exact H]].
Qed.

Lemma observe_bind_eq {R S} (t : itree sysE R) (k : R -> itree sysE S) : observe (ITree.bind t k) =
  match observe t with
  | RetF r => observe (k r)
  | TauF u => TauF (ITree.bind u k)
  | VisF e h => VisF e (fun x => ITree.bind (h x) k)
  end.
Proof. rewrite observe_bind. now destruct (observe t). Qed.

Lemma vis_inj {R T} (e e' : sysE T) (k k' : T -> itree sysE R) : VisF e k = VisF (R := R) e' k' -> e = e' /\ k = k'.
Proof. intros E. inversion E as [[E1 E2]]. split; [exact (inj_pair2 _ _ _ _ _ E1)|exact (inj_pair2 _ (fun T => T -> itree sysE R) _ _ _ E2)]. Qed.

Lemma vis_type {R T T'} (e : sysE T) (e' : sysE T') (k : T -> itree sysE R) k' : VisF e k = VisF (R := R) e' k' -> T = T'.
Proof. intros E. now injection E. Qed.

Lemma trace_bind {R S} (t : itree sysE R) (k : R -> itree sysE S) l : trace (ITree.bind t k) l ->
  trace t l \/ exists l1 l2 r, l = l1 ++ l2 /\ run t l1 r /\ trace (k r) l2.
Proof.
  intros H. remember (ITree.bind t k) as b eqn:Eb. revert t Eb. induction H as [b|b u l E H IH|b T e h a l E H IH]; intros t ->.
  - left. apply trace_nil.
  - rewrite observe_bind_eq in E. destruct (observe t) as [r|t'|T e h] eqn:Et.
    + right. exists [], l, r. split; [easy|]. split; [now apply run_ret|]. eapply trace_tau; eassumption.
    + injection E as <-. destruct (IH t' eq_refl) as [?|(l1 & l2 & r & -> & Hr & Hk)]; [left; eapply trace_tau; eassumption|].
      right. exists l1, l2, r. split; [easy|]. split; [eapply run_tau; eassumption|easy].
    + discriminate.
  - rewrite observe_bind_eq in E. destruct (observe t) as [r|t'|T' e' h'] eqn:Et.
    + right. exists [], (Obs e a :: l), r. split; [easy|]. split; [now apply run_ret|]. eapply trace_vis; eassumption.
    + discriminate.
    + pose proof (vis_type _ _ _ _ E). subst T'. apply vis_inj in E as [-> <-].
      destruct (IH (h' a) eq_refl) as [?|(l1 & l2 & r & -> & Hr & Hk)]; [left; eapply trace_vis; eassumption|].
      right. exists (Obs e a :: l1), l2, r. split; [easy|]. split; [eapply run_vis; eassumption|easy].
Qed.

Lemma run_bind {R S} (t : itree sysE R) (k : R -> itree sysE S) l v : run (ITree.bind t k) l v ->
  exists l1 l2 r, l = l1 ++ l2 /\ run t l1 r /\ run (k r) l2 v.
Proof.
  intros H. remember (ITree.bind t k) as b eqn:Eb. revert t Eb. induction H as [b v E|b u l v E H IH|b T e h a l v E H IH]; intros t ->; rewrite observe_bind_eq in E;
    destruct (observe t) as [r|t'|T' e' h'] eqn:Et; try discriminate.
  - exists [], [], r. split; [easy|]. split; now apply run_ret.
  - exists [], l, r. split; [easy|]. split; [now apply run_ret|]. eapply run_tau; eassumption.
  - injection E as <-. destruct (IH t' eq_refl) as (l1 & l2 & r & -> & Hr & Hk). exists l1, l2, r. split; [easy|]. split; [eapply run_tau; eassumption|easy].
  - exists [], (Obs e a :: l), r. split; [easy|]. split; [now apply run_ret|]. eapply run_vis; eassumption.
  - pose proof (vis_type _ _ _ _ E). subst T'. apply vis_inj in E as [-> <-]. destruct (IH (h' a) eq_refl) as (l1 & l2 & r & -> & Hr & Hk).
    exists (Obs e a :: l1), l2, r. split; [easy|]. split; [eapply run_vis; eassumption|easy].
Qed.

(** One system call. *)
Lemma trace_call {T} (e : sysE T) l : trace (call e) l -> l = [] \/ exists a, l = [Obs e a].
Proof.
  intros H. inversion H as [|? ? ? E|? T' e' h a l' E H']; subst; [now left|discriminate|]. right. cbn in E.
  pose proof (vis_type _ _ _ _ E). subst T'. apply vis_inj in E as [-> <-]. exists a. inversion H' as [|? ? ? E'|? ? ? ? ? ? E']; subst; [easy|discriminate|discriminate].
Qed.

Lemma run_call {T} (e : sysE T) l r : run (call e) l r -> l = [Obs e r].
Proof.
  intros H. inversion H as [? ? E|? ? ? ? E|? T' e' h a l' ? E H']; subst; [discriminate|discriminate|]. cbn in E.
  pose proof (vis_type _ _ _ _ E). subst T'. apply vis_inj in E as [-> <-]. inversion H' as [? ? E'|? ? ? ? E'|? ? ? ? ? ? ? E']; subst; [|discriminate|discriminate].
  now injection E' as ->.
Qed.

Lemma trace_iter {A R} (f : A -> itree sysE (A + R)) i l : trace (ITree.iter f i) l ->
  trace (f i) l \/ exists l1 l2 r, l = l1 ++ l2 /\ run (f i) l1 r /\
    match r with inl j => trace (ITree.iter f j) l2 | inr _ => l2 = [] end.
Proof.
  intros H. apply (trace_observe _ (ITree.bind (f i) (fun lr => match lr with inl j => Tau (ITree.iter f j) | inr r => Ret r end))) in H; [|reflexivity].
  apply trace_bind in H as [H|(l1 & l2 & r & -> & Hr & H)]; [now left|]. right. exists l1, l2, r. split; [easy|]. split; [easy|].
  destruct r as [j|r].
  - inversion H as [|? u ? E H'|? ? ? ? ? ? E]; subst; [apply trace_nil|now injection E as <-|discriminate].
  - inversion H as [|? ? ? E|? ? ? ? ? ? E]; subst; [easy|discriminate|discriminate].
Qed.

Lemma run_iter {A R} (f : A -> itree sysE (A + R)) i l v : run (ITree.iter f i) l v ->
  exists l1 l2 r, l = l1 ++ l2 /\ run (f i) l1 r /\ match r with inl j => run (ITree.iter f j) l2 v | inr w => l2 = [] /\ w = v end.
Proof.
  intros H. apply (run_observe _ (ITree.bind (f i) (fun lr => match lr with inl j => Tau (ITree.iter f j) | inr r => Ret r end))) in H; [|reflexivity].
  apply run_bind in H as (l1 & l2 & r & -> & Hr & H). exists l1, l2, r. split; [easy|]. split; [easy|].
  destruct r as [j|r].
  - inversion H as [? ? E|? u ? ? E H'|? ? ? ? ? ? ? E]; subst; [discriminate|now injection E as <-|discriminate].
  - inversion H as [? ? E|? ? ? ? E|? ? ? ? ? ? ? E]; subst; [|discriminate|discriminate]. now injection E as ->.
Qed.

(** ** init keeps one shell *)

(** The shell that init has started and not seen exit, and whether a call of
    fork or wait has failed or made this the child, watched over the calls:
    forking with such a shell, or waiting without one, is a fault. *)
Definition seen : Type := option Z * bool.

Definition watch1 (st : seen) (o : obs) : option seen :=
  match o with
  | @Obs T e a =>
      match e in sysE T return T -> option seen with
      | Fork => fun a => match fst st with None => Some (if 0 <? a then (Some a, snd st) else (None, true)) | Some _ => None end
      | Wait => fun a => match fst st with
                | Some p => Some (if a =? p then (None, snd st) else if a <? 0 then (Some p, true) else st)
                | None => None
                end
      | _ => fun _ => Some st
      end a
  end.

Fixpoint watch (st : seen) (l : list obs) : option seen :=
  match l with
  | [] => Some st
  | o :: l' => match watch1 st o with Some st' => watch st' l' | None => None end
  end.

Lemma watch_app l1 : forall st l2, watch st (l1 ++ l2) = match watch st l1 with Some st' => watch st' l2 | None => None end.
Proof. induction l1 as [|o l1 IH]; intros st l2; cbn [app watch]; [easy|]. destruct (watch1 st o); [apply IH|easy]. Qed.

(** Calls that are neither fork nor wait. *)
Definition other (o : obs) : Prop := forall st, watch1 st o = Some st.

Lemma watch_other l : Forall other l -> forall st, watch st l = Some st.
Proof. induction 1 as [|o l Ho _ IH]; intros st; cbn [watch]; [easy|]. now rewrite Ho. Qed.

Lemma spin_trace {R} (l : list obs) : trace (R := R) ITree.spin l -> l = [].
Proof. intros H. remember ITree.spin as t eqn:Et. induction H as [|t u l E H IH|t T e k a l E H IH]; subst; [easy| |discriminate]. injection E as <-. now apply IH. Qed.

Lemma spin_run {R} (l : list obs) (r : R) : ~ run ITree.spin l r.
Proof. intros H. remember ITree.spin as t eqn:Et. induction H as [t r E|t u l r E H IH|t T e k a l r E H IH]; subst; [discriminate| |discriminate]. injection E as <-. now apply IH. Qed.

Lemma put_chars_trace fd out : forall l, trace (put_chars fd out) l -> Forall other l.
Proof.
  induction out as [|c out IH]; intros l H; cbn [put_chars] in H.
  - inversion H as [|? ? ? E|? ? ? ? ? ? E]; subst; [easy|discriminate|discriminate].
  - apply trace_bind in H as [H|(l1 & l2 & r & -> & Hr & H)].
    + apply trace_call in H as [->|[a ->]]; repeat constructor.
    + apply run_call in Hr as ->. apply Forall_app. split; [repeat constructor|now apply IH].
Qed.

Lemma put_chars_run fd out : forall l r, run (put_chars fd out) l r -> Forall other l.
Proof.
  induction out as [|c out IH]; intros l r H; cbn [put_chars] in H.
  - inversion H as [? ? E|? ? ? ? E|? ? ? ? ? ? ? E]; subst; [easy|discriminate|discriminate].
  - apply run_bind in H as (l1 & l2 & a & -> & Hr & H). apply run_call in Hr as ->. apply Forall_app. split; [repeat constructor|]. eapply IH. exact H.
Qed.

Lemma fprintf_trace fd s f a l : trace (fprintf fd s f a) l -> Forall other l.
Proof. unfold fprintf. destruct (uprintf _ f a); [apply put_chars_trace|]. intros ->%spin_trace. easy. Qed.

Lemma fprintf_run fd s f a l r : run (fprintf fd s f a) l r -> Forall other l.
Proof. unfold fprintf. destruct (uprintf _ f a); [apply put_chars_run|]. intros H. now apply spin_run in H. Qed.

(** A computation whose traces are watched from [st] without a fault, and whose
    results satisfy [Q] with the shell of the end. *)
Definition safe {R} (st : seen) (t : itree sysE R) (Q : R -> seen -> Prop) : Prop := forall l,
  (trace t l -> exists st', watch st l = Some st') /\ (forall r, run t l r -> exists st', watch st l = Some st' /\ Q r st').

Lemma safe_bind {R S} st (t : itree sysE R) (k : R -> itree sysE S) P Q : safe st t P -> (forall r st', P r st' -> safe st' (k r) Q) -> safe st (ITree.bind t k) Q.
Proof.
  intros Ht Hk l. split.
  - intros H. apply trace_bind in H as [H|(l1 & l2 & r & -> & Hr & H)]; [now apply Ht|]. destruct (proj2 (Ht l1) r Hr) as (st1 & E & HP).
    rewrite watch_app, E. now apply (Hk r st1 HP).
  - intros v H. apply run_bind in H as (l1 & l2 & r & -> & Hr & H). destruct (proj2 (Ht l1) r Hr) as (st1 & E & HP).
    rewrite watch_app, E. now apply (Hk r st1 HP).
Qed.

Lemma safe_ret {R} st (r : R) (Q : R -> seen -> Prop) : Q r st -> safe st (Ret r) Q.
Proof.
  intros HQ l. split.
  - intros H. inversion H as [|? ? ? E|? ? ? ? ? ? E]; subst; [now exists st|discriminate|discriminate].
  - intros v H. inversion H as [? ? E|? ? ? ? E|? ? ? ? ? ? ? E]; subst; [|discriminate|discriminate]. injection E as <-. now exists st.
Qed.

Lemma safe_fprintf st fd s f a : safe st (fprintf fd s f a) (fun _ st' => st' = st).
Proof.
  intros l. split; [intros H%fprintf_trace|intros r H%fprintf_run]; exists st; rewrite watch_other by easy; easy.
Qed.

Lemma safe_call {T} st (e : sysE T) (Q : T -> seen -> Prop) : (forall a, exists st', watch1 st (Obs e a) = Some st' /\ Q a st') -> safe st (call e) Q.
Proof.
  intros He l. split.
  - intros [->|[a ->]]%trace_call; [now exists st|]. destruct (He a) as (st' & E & _). exists st'. cbn [watch]. now rewrite E.
  - intros r ->%run_call. destruct (He r) as (st' & E & HQ). exists st'. cbn [watch]. now rewrite E.
Qed.

(** A loop whose body makes a call in every round that goes on. *)
Lemma safe_iter {A R} (f : A -> itree sysE (A + R)) (Inv : A -> seen -> Prop) (Q : R -> seen -> Prop) :
  (forall i st, Inv i st -> safe st (f i) (fun r st' => match r with inl j => Inv j st' | inr v => Q v st' end)) ->
  (forall i l j, run (f i) l (inl j) -> l <> []) ->
  forall i st, Inv i st -> safe st (ITree.iter f i) Q.
Proof.
  intros Hf Hne i st Hi l. remember (length l) as n eqn:En. revert l En i st Hi. induction n as [n IH] using (well_founded_induction lt_wf). intros l En i st Hi. split.
  - intros H. apply trace_iter in H as [H|(l1 & l2 & r & -> & Hr & H)]; [now apply (Hf i st Hi)|]. destruct (proj2 (Hf i st Hi l1) r Hr) as (st1 & E & HP).
    rewrite watch_app, E. destruct r as [j|v]; [|subst l2; now exists st1].
    assert (length l2 < n)%nat as Hlt by (subst n; rewrite length_app; destruct l1; [now apply Hne in Hr|cbn; lia]).
    exact (proj1 (IH (length l2) Hlt l2 eq_refl j st1 HP) H).
  - intros v H. apply run_iter in H as (l1 & l2 & r & -> & Hr & H). destruct (proj2 (Hf i st Hi l1) r Hr) as (st1 & E & HP). rewrite watch_app, E.
    destruct r as [j|w]; [|destruct H as [-> ->]; now exists st1].
    assert (length l2 < n)%nat as Hlt by (subst n; rewrite length_app; destruct l1; [now apply Hne in Hr|cbn; lia]).
    exact (proj2 (IH (length l2) Hlt l2 eq_refl j st1 HP) v H).
Qed.

Lemma wait_loop_safe pid b : 0 < pid -> safe (Some pid, b) (wait_loop pid) (fun r st => match r with inl _ => fst st = None | inr v => v = 1 /\ snd st = true end).
Proof.
  intros Hp. unfold wait_loop. apply (safe_iter _ (fun _ st => fst st = Some pid)); [| |easy].
  - intros [] [sh f] E. cbn [fst] in E. subst sh.
    eapply safe_bind; [apply (safe_call _ _ (fun a st => st = if a =? pid then (None, f) else if a <? 0 then (Some pid, true) else (Some pid, f))); intros a; eexists; split; reflexivity|].
    intros a st ->. destruct (a =? pid); [now apply safe_ret|]. destruct (a <? 0); [|now apply safe_ret].
    eapply safe_bind; [apply safe_fprintf|]. intros [] st ->. now apply safe_ret.
  - intros [] l [] H. apply run_bind in H as (l1 & l2 & r & -> & Hr & _). apply run_call in Hr as ->. easy.
Qed.

Lemma init_loop_safe b : safe (None, b) init_loop (fun v st => v = 1 /\ snd st = true).
Proof.
  unfold init_loop. apply (safe_iter _ (fun _ st => fst st = None)); [| |easy].
  - intros [] [sh f] E. cbn [fst] in E. subst sh. eapply safe_bind; [apply safe_fprintf|]. intros [] st ->.
    eapply safe_bind; [apply (safe_call _ _ (fun a st => st = if 0 <? a then (Some a, f) else (None, true))); intros a; eexists; split; reflexivity|].
    intros a st ->. destruct (Z.ltb_spec a 0) as [Ha|Ha].
    + rewrite (proj2 (Z.ltb_ge 0 a)) by lia. eapply safe_bind; [apply safe_fprintf|]. intros [] st ->. now apply safe_ret.
    + destruct (Z.eqb_spec a 0) as [->|Hne].
      * change (0 <? 0) with false. cbv iota. eapply safe_bind; [apply (safe_call _ _ (fun _ st => st = (None, true))); intros c; eexists; split; reflexivity|]. intros c st ->.
        eapply safe_bind; [apply safe_fprintf|]. intros [] st ->. now apply safe_ret.
      * rewrite (proj2 (Z.ltb_lt 0 a)) by lia. intros l. pose proof (wait_loop_safe a f ltac:(lia) l) as H. split; [apply H|]. intros [[]|v] Hr; exact (proj2 H _ Hr).
  - intros [] l [] H. apply run_bind in H as (l1 & l2 & r & -> & _ & H). apply run_bind in H as (l3 & l4 & a & -> & Hr & _). apply run_call in Hr as ->. now destruct l1.
Qed.

Lemma play_trace {S R} (h : kernel S) n : forall s (t : itree sysE R), trace t (play h n s t).
Proof.
  induction n as [|n IH]; intros s t; cbn [play]; [apply trace_nil|]. destruct (observe t) eqn:E; [apply trace_nil| |].
  - eapply trace_tau; [exact E|apply IH].
  - eapply trace_vis; [exact E|apply IH].
Qed.

(** C37: init keeps exactly one shell.  Whatever the kernel answers to its system
    calls, init forks only when it has no shell that it has not seen exit, and
    waits only when it has one: there are never two shells, and when the shell
    exits a new one is started.  It never ends, unless fork or wait fails or it
    is the child whose exec failed; the exit status is then 1. *)
Theorem init_one_shell argv l :
  (trace (init argv) l -> watch (None, false) l <> None) /\
  (forall v, run (init argv) l v -> v = 1 /\ exists st, watch (None, false) l = Some st /\ snd st = true).
Proof.
  assert (safe (None, false) (init argv) (fun v st => v = 1 /\ snd st = true)) as H.
  { assert (forall T (e : sysE T), (forall a, other (Obs e a)) -> safe (None, false) (call e) (fun _ st => st = (None, false))) as Ho.
    { intros T e He. apply safe_call. intros a. exists (None, false). split; [apply He|easy]. }
    unfold init. eapply safe_bind; [now apply Ho|]. intros fd st ->. eapply (safe_bind _ _ _ (fun _ st => st = (None, false))).
    - destruct (fd <? 0); [|now apply safe_ret]. eapply safe_bind; [now apply Ho|]. intros r st ->. eapply safe_bind; [now apply Ho|]. intros r' st ->. now apply safe_ret.
    - intros [] st ->. eapply safe_bind; [now apply Ho|]. intros r st ->. eapply safe_bind; [now apply Ho|]. intros r' st ->. apply init_loop_safe. }
  split.
  - intros Ht. destruct (proj1 (H l) Ht) as [st E]. now rewrite E.
  - intros v Hv. destruct (proj2 (H l) v Hv) as (st & E & -> & Hs). split; [easy|]. now exists st.
Qed.

(** A kernel that gives fork and wait the answers of a list. *)
Definition scripted : kernel (list Z) := fun T e s =>
  match e in sysE T return list Z * T with
  | Fork => (tl s, hd 0 s)
  | Wait => (tl s, hd 0 s)
  | Read _ _ => (s, (0, []))
  | Fstat _ => (s, (0, Stat 0 0 0 0 0))
  | PipeFds => (s, (-1, (0, 0)))
  | Chdir _ | Getpid | Sbrk _ | Uptime => (s, 0)
  | Open _ _ | Close _ | Write _ _ | Unlink _ | Mkdir _ | Link _ _ | Kill _ | Mknod _ _ _ | Dup _ | Exec _ _ | SleepFor _ => (s, 0)
  end.

(** The shell is process 2; an orphan, 7, exits before it; the next shell is
    process 3; then there is nothing to wait for. *)
Lemma init_one_shell_witness :
  let l := play scripted 200 [2; 7; 2; 3; 7; -1] (init [cstr "init"]) in
  watch (None, false) l = Some (Some 3, true) /\ watch (None, false) l <> None.
Proof. intros l. split; [vm_compute; reflexivity|]. apply (proj1 (init_one_shell [cstr "init"] l)). apply play_trace. Defined.

(** ** Running a program to its end on a kernel *)

Inductive runs_to {S R} (h : kernel S) : itree sysE R -> S -> S -> R -> Prop :=
| runs_ret t r s : observe t = RetF r -> runs_to h t s s r
| runs_tau t u s s' r : observe t = TauF u -> runs_to h u s s' r -> runs_to h t s s' r
| runs_vis t T (e : sysE T) k s s' r : observe t = VisF e k ->
    runs_to h (k (snd (h T e s))) (fst (h T e s)) s' r -> runs_to h t s s' r.

(** The program ends, with a result and a state of the kernel in [Q]. *)
Definition ends {S R} (h : kernel S) (s : S) (t : itree sysE R) (Q : R -> S -> Prop) : Prop :=
  exists s' r, runs_to h t s s' r /\ Q r s'.

Section ends.
Context {S : Type} (h : kernel S).

Lemma ends_ret {R} s (r : R) (Q : R -> S -> Prop) : Q r s -> ends h s (Ret r) Q.
Proof. intros H. exists s, r. split; [now apply runs_ret|easy]. Qed.

Lemma runs_observe {R} (t u : itree sysE R) s s' r : observe t = observe u -> runs_to h t s s' r -> runs_to h u s s' r.
Proof.
  intros E H. revert u E. destruct H as [t r s E'|t v s s' r E' H|t A e k s s' r E' H]; intros u E; rewrite E in E';
    [now apply runs_ret|eapply runs_tau; eassumption|eapply runs_vis; eassumption].
Qed.

Lemma runs_bind {R T} (t : itree sysE R) (k : R -> itree sysE T) s s1 r s2 v :
  runs_to h t s s1 r -> runs_to h (k r) s1 s2 v -> runs_to h (ITree.bind t k) s s2 v.
Proof.
  intros H Hk. induction H as [t r s E|t u s s' r E H IH|t A e k' s s' r E H IH].
  - eapply runs_observe; [|exact Hk]. now rewrite observe_bind_eq, E.
  - eapply runs_tau; [rewrite observe_bind_eq, E; reflexivity|now apply IH].
  - eapply runs_vis; [rewrite observe_bind_eq, E; reflexivity|now apply IH].
Qed.

Lemma ends_bind {R T} s (t : itree sysE R) (k : R -> itree sysE T) P Q :
  ends h s t P -> (forall r s', P r s' -> ends h s' (k r) Q) -> ends h s (ITree.bind t k) Q.
Proof.
  intros (s1 & r & Ht & HP) Hk. destruct (Hk r s1 HP) as (s2 & v & Hv & HQ). exists s2, v. split; [|easy]. eapply runs_bind; eassumption.
Qed.

Lemma ends_call {T} s (e : sysE T) (Q : T -> S -> Prop) : Q (snd (h T e s)) (fst (h T e s)) -> ends h s (call e) Q.
Proof. intros H. eexists _, _. split; [|exact H]. eapply runs_vis; [reflexivity|]. now apply runs_ret. Qed.

Lemma ends_weaken {R} s (t : itree sysE R) (P Q : R -> S -> Prop) : ends h s t P -> (forall r s', P r s' -> Q r s') -> ends h s t Q.
Proof. intros (s' & r & Ht & HP) HQ. exists s', r. split; [easy|now apply HQ]. Qed.

Lemma ends_iter {A R} (f : A -> itree sysE (A + R)) i s Q :
  ends h s (f i) (fun lr s' => match lr with inl j => ends h s' (ITree.iter f j) Q | inr r => Q r s' end) -> ends h s (ITree.iter f i) Q.
Proof.
  intros (s1 & lr & H1 & H2).
  assert (exists s2 v, runs_to h (ITree.bind (f i) (fun lr => match lr with inl j => Tau (ITree.iter f j) | inr r => Ret r end)) s s2 v /\ Q v s2) as (s2 & v & H & HQ).
  { destruct lr as [j|r].
    - destruct H2 as (s2 & v & H2 & HQ). exists s2, v. split; [|easy]. eapply runs_bind; [exact H1|]. cbn beta iota. eapply runs_tau; [reflexivity|exact H2].
    - exists s1, r. split; [|easy]. eapply runs_bind; [exact H1|]. now apply runs_ret. }
  exists s2, v. split; [|easy]. eapply runs_observe; [|exact H]. reflexivity.
Qed.
End ends.

(** ** The interface *)

Section prints.
Context {S : Type} (opened : S -> Z -> option (list Z * Z)) (avail : S -> nat) (out : S -> list (Z * Z)).

(** From [s] to [s'] the characters [l] have been written, each to its
    descriptor, and the open descriptors are as before. *)
Definition prints_ (s s' : S) (l : list (Z * Z)) : Prop :=
  (forall fd, opened s' fd = opened s fd) /\ avail s' = avail s /\ out s' = out s ++ l.
End prints.

(** The files a path designates, with what stat says and their contents, do not
    change while ls runs; a descriptor has the path it was opened with and an
    offset; [avail] descriptors are free. *)
Class Files {S} (h : kernel S) := {
  file : list Z -> option (stat * list Z);
  opened : S -> Z -> option (list Z * Z);
  avail : S -> nat;
  out : S -> list (Z * Z);
  prints := prints_ opened avail out;
  moves (s s' : S) (fd : Z) (x : option (list Z * Z)) : Prop :=
    (forall fd', opened s' fd' = if fd' =? fd then x else opened s fd') /\ out s' = out s;
  write_law s fd bs : fd = 1 \/ fd = 2 -> snd (h _ (Write fd bs) s) = Z.of_nat (length bs) /\
    prints s (fst (h _ (Write fd bs) s)) (List.map (pair fd) bs);
  open_none s p : file (cbytes p) = None ->
    snd (h _ (Open p O_RDONLY) s) < 0 /\ prints s (fst (h _ (Open p O_RDONLY) s)) [];
  open_law s p f : file (cbytes p) = Some f -> (0 < avail s)%nat ->
    let s' := fst (h _ (Open p O_RDONLY) s) in let fd := snd (h _ (Open p O_RDONLY) s) in
    0 <= fd /\ opened s fd = None /\ moves s s' fd (Some (cbytes p, 0)) /\ avail s = Datatypes.S (avail s');
  fstat_law s fd p off st d : opened s fd = Some (p, off) -> file p = Some (st, d) ->
    snd (h _ (Fstat fd) s) = (0, st) /\ prints s (fst (h _ (Fstat fd) s)) [];
  read_law s fd n p off st d : opened s fd = Some (p, off) -> file p = Some (st, d) -> 0 <= n ->
    let bs := firstn (Z.to_nat n) (skipn (Z.to_nat off) d) in let s' := fst (h _ (Read fd n) s) in
    snd (h _ (Read fd n) s) = (Z.of_nat (length bs), bs) /\
    moves s s' fd (Some (p, off + Z.of_nat (length bs))) /\ avail s' = avail s;
  close_law s fd x : opened s fd = Some x ->
    let s' := fst (h _ (Close fd) s) in moves s s' fd None /\ avail s' = Datatypes.S (avail s)
}.

(** ** What ls prints *)

(** The part of a path after its last slash. *)
Fixpoint base_name (l : list Z) : list Z :=
  match l with
  | [] => []
  | c :: l' => if existsb (Z.eqb SLASH) l' then base_name l' else if c =? SLASH then l' else c :: l'
  end.

Definition pad (l : list Z) : list Z := l ++ repeat 32 (Z.to_nat DIRSIZ - length l).

Definition line (path : list Z) (st : stat) : list Z :=
  pad (base_name path) ++ [32] ++ decimal (st_type st) ++ [32] ++ decimal (st_ino st) ++ [32] ++ decimal (st_size st) ++ nl.

(** The 16-byte entries of a directory. *)
Definition dirents (d : list Z) : list (list Z) :=
  List.map (fun i => firstn 16 (skipn (16 * i) d)) (seq 0 (length d / 16)).

Section text.
Variable file : list Z -> option (stat * list Z).

Definition entry_text (path de : list Z) : list Z :=
  if de_inum de =? 0 then []
  else
    let n := cbytes path ++ [SLASH] ++ cbytes (de_name de) in
    match file n with
    | Some (st, _) => line n st
    | None => cstr "ls: cannot stat " ++ n ++ nl
    end.

(** With the descriptor of each character. *)
Definition ls_text (path : list Z) : list (Z * Z) :=
  match file (cbytes path) with
  | None => List.map (pair 2) (cstr "ls: cannot open " ++ cbytes path ++ nl)
  | Some (st, d) => List.map (pair 1)
      (if (st_type st =? T_DEVICE) || (st_type st =? T_FILE) then line (cbytes path) st
       else if st_type st =? T_DIR then
         if 512 <? Z.of_nat (length (cbytes path)) + 1 + DIRSIZ + 1 then cstr "ls: path too long" ++ nl
         else flat_map (entry_text path) (dirents d)
       else [])
  end.
End text.

Fixpoint echo_text (args : list (list Z)) : list Z :=
  match args with
  | [] => []
  | [a] => cbytes a ++ nl
  | a :: args' => cbytes a ++ [32] ++ echo_text args'
  end.

(** What cat prints for its arguments, and its exit status. *)
Fixpoint cat_text (file : list Z -> option (stat * list Z)) (args : list (list Z)) : list (Z * Z) * Z :=
  match args with
  | [] => ([], 0)
  | a :: args' =>
      match file (cbytes a) with
      | None => (List.map (pair 2) (cstr "cat: cannot open " ++ cbytes a ++ nl), 1)
      | Some (_, d) => (List.map (pair 1) d ++ fst (cat_text file args'), snd (cat_text file args'))
      end
  end.

(** ** Strings *)

Lemma strlen_length s : Forall (fun c => c <> 0) s -> strlen s = Z.of_nat (length s).
Proof. induction 1 as [|c s Hc _ IH]; [easy|]. cbn [strlen length]. rewrite (proj2 (Z.eqb_neq c 0) Hc). lia. Qed.

Lemma cbytes_cons c s : cbytes (c :: s) = if c =? 0 then [] else c :: cbytes s.
Proof.
  unfold cbytes. cbn [strlen]. destruct (c =? 0); [easy|]. assert (0 <= strlen s) as H by (induction s as [|x s IH]; cbn; [lia|destruct (x =? 0); lia]).
  rewrite Z2Nat.inj_add by lia. easy.
Qed.

Lemma cbytes_chars s : Forall (fun c => c <> 0) (cbytes s).
Proof.
  induction s as [|c s IH]; [apply Forall_nil|]. rewrite cbytes_cons. destruct (Z.eqb_spec c 0); [apply Forall_nil|now apply Forall_cons].
Qed.

Lemma cbytes_id s : Forall (fun c => c <> 0) s -> cbytes s = s.
Proof. induction 1 as [|c s Hc _ IH]; [easy|]. rewrite cbytes_cons, IH. now rewrite (proj2 (Z.eqb_neq c 0) Hc). Qed.

Lemma strlen_cbytes s : strlen s = Z.of_nat (length (cbytes s)).
Proof. induction s as [|c s IH]; [easy|]. rewrite cbytes_cons. cbn [strlen]. destruct (c =? 0); [easy|]. cbn [length]. lia. Qed.

Lemma back_to_slash_app a b : back_to_slash (a ++ b) = if existsb (Z.eqb SLASH) a then back_to_slash a else a ++ back_to_slash b.
Proof.
  induction a as [|c a IH]; [easy|]. cbn [app back_to_slash existsb]. rewrite (Z.eqb_sym SLASH c). destruct (c =? SLASH); [easy|]. cbn [orb]. rewrite IH. now destruct (existsb _ a).
Qed.

Lemma existsb_rev (f : Z -> bool) l : existsb f (rev l) = existsb f l.
Proof. induction l as [|c l IH]; [easy|]. cbn [rev existsb]. rewrite existsb_app, IH. cbn. now rewrite orb_false_r, orb_comm. Qed.

Lemma base_name_back l : rev (back_to_slash (rev l)) = base_name l.
Proof.
  induction l as [|c l IH]; [easy|]. cbn [rev base_name]. rewrite back_to_slash_app, existsb_rev. destruct (existsb _ l); [easy|].
  cbn [back_to_slash]. destruct (c =? SLASH); [now rewrite app_nil_r, rev_involutive|]. now rewrite rev_app_distr, rev_involutive.
Qed.

Lemma base_name_forall (P : Z -> Prop) l : Forall P l -> Forall P (base_name l).
Proof.
  induction 1 as [|c l Hc Hl IH]; [apply Forall_nil|]. cbn [base_name]. destruct (existsb _ l); [easy|]. destruct (c =? SLASH); [easy|now apply Forall_cons].
Qed.

(** The buffer of fmtname holds the last component, padded. *)
Lemma fmtname_pad path : cbytes (fmtname path) = pad (base_name (cbytes path)).
Proof.
  pose proof (base_name_forall _ _ (cbytes_chars path)) as Hb. unfold fmtname. cbv zeta. rewrite base_name_back, (strlen_length _ Hb). unfold pad.
  destruct (Z.leb_spec DIRSIZ (Z.of_nat (length (base_name (cbytes path))))) as [H|H].
  - rewrite (proj2 (Nat.sub_0_le _ _)) by (unfold DIRSIZ in *; lia). cbn. now rewrite app_nil_r, cbytes_id.
  - rewrite cbytes_id; [|apply Forall_app; split; [easy|apply Forall_forall; intros x Hx; apply repeat_spec in Hx; now subst]].
    repeat f_equal. unfold DIRSIZ in *. lia.
Qed.

Lemma ls_line_prints path st : uprintf (fun _ => cbytes (fmtname path)) ls_format [1; st_type st; st_ino st; st_size st] = Some (line (cbytes path) st).
Proof.
  rewrite fmtname_pad. unfold line. generalize (pad (base_name (cbytes path))) as p. intros p.
  change ls_format with [37; 115; 32; 37; 100; 32; 37; 100; 32; 37; 100; 10]. unfold uprintf.
  cbn -[uprintint Prelude.int32 app decimal]. do 3 (rewrite uprintf_decimal; cbn -[uprintint Prelude.int32 app decimal]). reflexivity.
Qed.

(** ** The programs *)

Section ls.
Context {S : Type} (h : kernel S) {F : Files h}.

Lemma prints_refl s : prints s s [].
Proof. split; [easy|]. split; [easy|]. now rewrite app_nil_r. Qed.

Lemma prints_trans s1 s2 s3 a b : prints s1 s2 a -> prints s2 s3 b -> prints s1 s3 (a ++ b).
Proof. intros (A1 & A2 & A3) (B1 & B2 & B3). split; [intros fd; now rewrite B1|]. split; [congruence|]. now rewrite B3, A3, app_assoc. Qed.

(** The descriptor [fd] stays open, and is all that changes of the descriptors. *)
Definition works (fd : Z) (s s' : S) (l : list (Z * Z)) : Prop :=
  (forall fd', fd' <> fd -> opened s' fd' = opened s fd') /\ (exists x, opened s' fd = Some x) /\ avail s' = avail s /\ out s' = out s ++ l.

Lemma prints_works fd s s' l x : opened s fd = Some x -> prints s s' l -> works fd s s' l.
Proof. intros E (H1 & H2 & H3). split; [intros; apply H1|]. split; [exists x; now rewrite H1|easy]. Qed.

Lemma works_trans fd s1 s2 s3 a b : works fd s1 s2 a -> works fd s2 s3 b -> works fd s1 s3 (a ++ b).
Proof.
  intros (A1 & A2 & A3 & A4) (B1 & B2 & B3 & B4). split; [intros; now rewrite B1, A1|]. split; [easy|]. split; [congruence|]. now rewrite B4, A4, app_assoc.
Qed.

Lemma moves_works fd s s' x : moves s s' fd (Some x) -> avail s' = avail s -> works fd s s' [].
Proof.
  intros [M1 M2] Ha. split; [intros fd' Hne; rewrite M1; now rewrite (proj2 (Z.eqb_neq _ _) Hne)|].
  split; [exists x; now rewrite M1, Z.eqb_refl|]. split; [easy|now rewrite app_nil_r].
Qed.

(** What is opened and closed again leaves the descriptors as they were. *)
Lemma close_works s s1 s2 fd x l : opened s fd = None -> moves s s1 fd (Some x) -> avail s = Datatypes.S (avail s1) -> works fd s1 s2 l ->
  ends h s2 (call (Close fd)) (fun _ s3 => prints s s3 l).
Proof.
  intros E [Ho Hout] Ha (W1 & [y W2] & W3 & W4). apply ends_call. destruct (close_law s2 fd y W2) as [[C1 C2] C3].
  split; [|split].
  - intros fd'. rewrite C1. destruct (Z.eqb_spec fd' fd) as [->|Hne]; [easy|]. rewrite W1, Ho by easy. now rewrite (proj2 (Z.eqb_neq _ _) Hne).
  - now rewrite C3, W3.
  - now rewrite C2, W4, Hout.
Qed.

Lemma put_chars_prints fd o : fd = 1 \/ fd = 2 -> forall s, ends h s (put_chars fd o) (fun _ s' => prints s s' (List.map (pair fd) o)).
Proof.
  intros Hfd. induction o as [|c o IH]; intros s; [apply ends_ret, prints_refl|]. cbn [put_chars].
  eapply ends_bind; [exact (ends_call _ _ _ (fun _ s' => prints s s' [(fd, c)]) (proj2 (write_law s fd [c] Hfd)))|].
  intros ? s1 H1. eapply ends_weaken; [apply IH|]. intros ? s2 H2. exact (prints_trans _ _ _ _ _ H1 H2).
Qed.

Lemma fprintf_prints fd str fmt args o s : fd = 1 \/ fd = 2 -> uprintf (fun _ => cbytes str) fmt args = Some o ->
  ends h s (fprintf fd str fmt args) (fun _ s' => prints s s' (List.map (pair fd) o)).
Proof. intros Hfd E. unfold fprintf. rewrite E. now apply put_chars_prints. Qed.

Definition opens (s : S) (p : list Z) (fd : Z) (s' : S) : Prop :=
  0 <= fd /\ opened s fd = None /\ moves s s' fd (Some (cbytes p, 0)) /\ avail s = Datatypes.S (avail s').

Lemma ustat_stats p s : (0 < avail s)%nat -> ends h s (ustat p) (fun r s' => prints s s' [] /\
  match file (cbytes p) with None => fst r < 0 | Some (st, _) => r = (0, st) end).
Proof.
  intros Ha. unfold ustat. destruct (file (cbytes p)) as [[st d]|] eqn:E.
  - eapply ends_bind; [exact (ends_call _ _ _ (opens s p) (open_law s p _ E Ha))|]. intros fd s1 (Hfd & Hn & Hm & Hav).
    rewrite (proj2 (Z.ltb_ge fd 0) Hfd). assert (opened s1 fd = Some (cbytes p, 0)) as Eo by (destruct Hm as [Hm _]; rewrite Hm; now rewrite Z.eqb_refl).
    destruct (fstat_law s1 fd _ _ _ _ Eo E) as [F1 F2].
    eapply ends_bind; [apply (ends_call _ _ _ (fun r s' => r = (0, st) /\ prints s1 s' [])); easy|]. intros ? s2 [-> H2].
    eapply ends_bind; [eapply close_works; [exact Hn|exact Hm|exact Hav|exact (prints_works _ _ _ _ _ Eo H2)]|]. intros ? s3 H3. now apply ends_ret.
  - destruct (open_none s p E) as [Hfd Hp]. eapply ends_bind; [apply (ends_call _ _ _ (fun r s' => r < 0 /\ prints s s' [])); easy|].
    intros fd s' [Hneg H]. rewrite (proj2 (Z.ltb_lt fd 0) Hneg). now apply ends_ret.
Qed.

(** One entry. *)
Lemma entry_prints {R} path de s (v : R) : (0 < avail s)%nat -> de_inum de <> 0 ->
  let buf := cbytes path ++ [SLASH] ++ cbytes (de_name de) in
  ends h s (ITree.bind (ustat buf) (fun st =>
      ITree.bind (if fst st <? 0 then fprintf 1 buf (cstr "ls: cannot stat %s" ++ nl) [1] else ls_line buf (snd st)) (fun _ => Ret v)))
    (fun r s' => r = v /\ prints s s' (List.map (pair 1) (entry_text file path de))).
Proof.
  intros Ha Hi buf. eapply ends_bind; [now apply ustat_stats|]. intros r s1 [H1 Hr]. unfold entry_text. rewrite (proj2 (Z.eqb_neq _ _) Hi). cbv zeta. fold buf.
  assert (cbytes buf = buf) as Eb by (apply cbytes_id, Forall_app; split; [apply cbytes_chars|]; apply Forall_app; split; [now apply Forall_cons|apply cbytes_chars]).
  rewrite Eb in Hr. eapply (ends_bind _ _ _ _ (fun _ s2 => prints s1 s2 (List.map (pair 1) match file buf with Some (st, _) => line buf st | None => cstr "ls: cannot stat " ++ buf ++ nl end)));
    [|intros ? s2 H2; apply ends_ret; split; [reflexivity|exact (prints_trans _ _ _ _ _ H1 H2)]]. destruct (file buf) as [[st d]|].
  - subst r. cbn [fst snd Z.ltb Z.compare]. pose proof (ls_line_prints buf st) as Hl. rewrite Eb in Hl. apply fprintf_prints; [now left|exact Hl].
  - rewrite (proj2 (Z.ltb_lt _ _) Hr). apply fprintf_prints; [now left|]. rewrite Eb. reflexivity.
Qed.

(** The entries from the [i]th on. *)
Lemma ls_loop_prints fd path p st d : file p = Some (st, d) -> forall k i s,
  (i + k = length d / 16)%nat -> opened s fd = Some (p, Z.of_nat (16 * i)) -> (0 < avail s)%nat ->
  ends h s (ls_loop fd path) (fun _ s' => works fd s s'
    (List.map (pair 1) (flat_map (entry_text file path) (List.map (fun i => firstn 16 (skipn (16 * i) d)) (seq i k))))).
Proof.
  intros Ef. induction k as [|k IH]; intros i s Hk Eo Ha; unfold ls_loop; apply ends_iter; fold (ls_loop fd path);
    destruct (read_law s fd 16 _ _ _ _ Eo Ef ltac:(lia)) as (R1 & R2 & R3); rewrite Nat2Z.id in R1, R2; change (Z.to_nat 16) with 16%nat in R1, R2;
    pose proof (Nat.div_mod_eq (length d) 16) as Hdm; pose proof (Nat.mod_upper_bound (length d) 16 ltac:(lia)) as Hmod;
    (eapply ends_bind; [apply (ends_call _ _ _ (fun r s' => r = (Z.of_nat (length (firstn 16 (skipn (16 * i) d))), firstn 16 (skipn (16 * i) d)) /\ moves s s' fd (Some (p, Z.of_nat (16 * i) + Z.of_nat (length (firstn 16 (skipn (16 * i) d))))) /\ avail s' = avail s)); easy|]);
    intros r s1 (-> & M & Ha1); cbn [fst snd]; pose proof (moves_works _ _ _ _ M Ha1) as W; destruct M as [M _]; rewrite length_firstn, length_skipn in *.
  - rewrite (proj2 (Z.eqb_neq _ _)) by lia. now apply ends_ret.
  - rewrite (proj2 (Z.eqb_eq _ _)) by lia. cbn [seq List.map flat_map].
    assert (opened s1 fd = Some (p, Z.of_nat (16 * Datatypes.S i))) as Eo1 by (rewrite M, Z.eqb_refl; do 2 f_equal; lia).
    rewrite map_app. set (de := firstn 16 (skipn (16 * i) d)).
    assert (forall l, l = entry_text file path de -> forall s2, prints s1 s2 (List.map (pair 1) l) ->
      ends h s2 (ls_loop fd path) (fun _ s' => works fd s s' (List.map (pair 1) l ++ List.map (pair 1) (flat_map (entry_text file path) (List.map (fun i => firstn 16 (skipn (16 * i) d)) (seq (Datatypes.S i) k)))))) as Hnext.
    { intros l El s2 H2. eapply ends_weaken; [apply (IH (Datatypes.S i) s2); [lia|destruct H2 as [H2 _]; now rewrite H2|destruct H2 as (_ & H2 & _); lia]|].
      intros ? s3 H3. rewrite <- (app_nil_l (List.map (pair 1) l ++ _)). eapply works_trans; [exact W|]. eapply works_trans; [exact (prints_works _ _ _ _ _ Eo1 H2)|exact H3]. }
    destruct (Z.eqb_spec (de_inum de) 0) as [E|E].
    + apply ends_ret. assert (entry_text file path de = []) as -> by (unfold entry_text; now rewrite E). apply (Hnext []); [|apply prints_refl]. unfold entry_text. now rewrite E.
    + eapply ends_weaken; [apply entry_prints; [lia|exact E]|]. intros r s2 [-> H2]. now apply Hnext.
Qed.

(** What ls does with a file it has opened. *)
Lemma ls_body_prints fd path s st d : file (cbytes path) = Some (st, d) -> opened s fd = Some (cbytes path, 0) -> (0 < avail s)%nat ->
  ends h s
    (if ((st_type st =? T_DEVICE) || (st_type st =? T_FILE))%bool then ls_line path st
     else if st_type st =? T_DIR then
       if 512 <? strlen path + 1 + DIRSIZ + 1 then fprintf 1 [] (cstr "ls: path too long" ++ nl) []
       else ls_loop fd path
     else Ret tt)
    (fun _ s' => works fd s s' (List.map (pair 1)
      (if (st_type st =? T_DEVICE) || (st_type st =? T_FILE) then line (cbytes path) st
       else if st_type st =? T_DIR then
         if 512 <? Z.of_nat (length (cbytes path)) + 1 + DIRSIZ + 1 then cstr "ls: path too long" ++ nl
         else flat_map (entry_text file path) (dirents d)
       else []))).
Proof.
  intros E Eo Ha. rewrite strlen_cbytes.
  assert (forall t l, ends h s t (fun _ s' => prints s s' l) -> ends h s t (fun _ : unit => fun s' => works fd s s' l)) as Hw
    by (intros t l H; eapply ends_weaken; [exact H|]; intros ? s' H'; exact (prints_works _ _ _ _ _ Eo H')).
  destruct (_ || _); [apply Hw; apply fprintf_prints; [now left|apply ls_line_prints]|].
  destruct (_ =? T_DIR); [|apply Hw, ends_ret, prints_refl].
  destruct (512 <? _); [apply Hw; apply fprintf_prints; [now left|reflexivity]|].
  exact (ls_loop_prints fd path _ st d E (length d / 16) 0 s eq_refl Eo Ha).
Qed.

(** A descriptor for the file and one for [stat]. *)
Lemma ls1_prints path s : (1 < avail s)%nat -> ends h s (ls1 path) (fun _ s' => prints s s' (ls_text file path)).
Proof.
  intros Ha. unfold ls1, ls_text. destruct (file (cbytes path)) as [[st d]|] eqn:E.
  - eapply ends_bind; [exact (ends_call _ _ _ (opens s path) (open_law s path _ E ltac:(lia)))|]. intros fd s1 (Hfd & Hn & Hm & Hav).
    rewrite (proj2 (Z.ltb_ge fd 0) Hfd). assert (opened s1 fd = Some (cbytes path, 0)) as Eo by (destruct Hm as [Hm _]; rewrite Hm; now rewrite Z.eqb_refl).
    destruct (fstat_law s1 fd _ _ _ _ Eo E) as [F1 F2].
    eapply ends_bind; [apply (ends_call _ _ _ (fun r s' => r = (0, st) /\ prints s1 s' [])); easy|]. intros ? s2 [-> H2]. cbn [fst snd Z.ltb Z.compare].
    assert (opened s2 fd = Some (cbytes path, 0)) as Eo2 by (destruct H2 as [H2 _]; now rewrite H2).
    eapply ends_bind; [apply (ls_body_prints fd path s2 st d); [exact E|exact Eo2|destruct H2 as (_ & H2 & _); lia]|]. intros ? s3 H3.
    pose proof (works_trans _ _ _ _ _ _ (prints_works _ _ _ _ _ Eo H2) H3) as H13.
    eapply ends_bind; [eapply close_works; [exact Hn|exact Hm|exact Hav|exact H13]|]. intros ? s4 H4. apply ends_ret. exact H4.
  - destruct (open_none s path E) as [Hfd Hp]. eapply ends_bind; [apply (ends_call _ _ _ (fun r s' => r < 0 /\ prints s s' [])); easy|].
    intros fd s1 [Hneg H1]. rewrite (proj2 (Z.ltb_lt fd 0) Hneg). eapply ends_weaken; [apply fprintf_prints; [now right|reflexivity]|].
    intros ? s2 H2. exact (prints_trans _ _ _ _ _ H1 H2).
Qed.

Lemma ls_args_prints args : forall s, (1 < avail s)%nat -> ends h s (ls_args args) (fun _ s' => prints s s' (flat_map (ls_text file) args)).
Proof.
  induction args as [|a args IH]; intros s Ha; [apply ends_ret, prints_refl|]. cbn [ls_args flat_map].
  eapply ends_bind; [now apply ls1_prints|]. intros ? s1 H1. eapply ends_weaken; [apply IH; destruct H1 as (_ & H1 & _); lia|].
  intros ? s2 H2. exact (prints_trans _ _ _ _ _ H1 H2).
Qed.

Lemma echo_loop_prints args : forall s, ends h s (echo_loop args) (fun _ s' => prints s s' (List.map (pair 1) (echo_text args))).
Proof.
  induction args as [|a args IH]; intros s; [apply ends_ret, prints_refl|]. cbn [echo_loop].
  eapply ends_bind; [exact (ends_call _ _ _ (fun _ s' => prints s s' (List.map (pair 1) (cbytes a))) (proj2 (write_law s 1 _ (or_introl eq_refl))))|]. intros ? s1 H1.
  set (sep := match args with [] => nl | _ => [32] end).
  eapply ends_bind; [exact (ends_call _ _ _ (fun _ s' => prints s1 s' (List.map (pair 1) sep)) (proj2 (write_law s1 1 sep (or_introl eq_refl))))|]. intros ? s2 H2.
  eapply ends_weaken; [apply IH|]. intros ? s3 H3. pose proof (prints_trans _ _ _ _ _ H1 (prints_trans _ _ _ _ _ H2 H3)) as H. rewrite <- !map_app in H.
  subst sep. destruct args; [|exact H]. exact H.
Qed.

(** echo prints its arguments with a space between them and a newline at the end,
    and nothing without arguments. *)
Theorem echo_prints argv s : exists s', runs_to h (echo argv) s s' 0 /\ prints s s' (List.map (pair 1) (echo_text (tl argv))).
Proof.
  destruct (echo_loop_prints (tl argv) s) as (s' & [] & H & Hp). exists s'. split; [|easy]. unfold echo. eapply runs_bind; [exact H|]. now apply runs_ret.
Qed.

(** The rest of the file. *)
Lemma cat_fd_prints fd p st d : file p = Some (st, d) -> forall k off s, (length d - off <= k)%nat ->
  opened s fd = Some (p, Z.of_nat off) ->
  ends h s (cat_fd fd) (fun x s' => x = None /\ works fd s s' (List.map (pair 1) (skipn off d))).
Proof.
  intros Ef. induction k as [|k IH]; intros off s Hk Eo; unfold cat_fd; apply ends_iter; fold (cat_fd fd);
    destruct (read_law s fd 512 _ _ _ _ Eo Ef ltac:(lia)) as (R1 & R2 & R3); rewrite Nat2Z.id in R1, R2; change (Z.to_nat 512) with 512%nat in R1, R2;
    set (bs := firstn 512 (skipn off d)) in *;
    (eapply ends_bind; [apply (ends_call _ _ _ (fun r s' => r = (Z.of_nat (length bs), bs) /\ moves s s' fd (Some (p, Z.of_nat off + Z.of_nat (length bs))) /\ avail s' = avail s)); easy|]);
    intros r s1 (-> & M & Ha1); cbn [fst snd]; pose proof (moves_works _ _ _ _ M Ha1) as W; destruct M as [M _];
    assert (length bs = Nat.min 512 (length d - off)) as Hl by (unfold bs; now rewrite length_firstn, length_skipn).
  - rewrite (proj2 (Z.ltb_ge _ _)) by lia. rewrite (proj2 (Z.ltb_ge _ _)) by lia. apply ends_ret. split; [easy|]. rewrite skipn_all2 by lia. exact W.
  - destruct (Z.ltb_spec 0 (Z.of_nat (length bs))) as [Hp|Hp].
    2:{ rewrite (proj2 (Z.ltb_ge _ _)) by lia. apply ends_ret. split; [easy|]. rewrite skipn_all2 by lia. exact W. }
    rewrite Nat2Z.id, firstn_all. destruct (write_law s1 1 bs (or_introl eq_refl)) as [W1 W2].
    eapply ends_bind; [apply (ends_call _ _ _ (fun w s' => w = Z.of_nat (length bs) /\ prints s1 s' (List.map (pair 1) bs))); easy|].
    intros w s2 [-> H2]. rewrite Z.eqb_refl. cbn [negb]. apply ends_ret.
    assert (opened s1 fd = Some (p, Z.of_nat (off + length bs))) as Eo1 by (rewrite M, Z.eqb_refl; do 2 f_equal; lia).
    eapply ends_weaken; [apply (IH (off + length bs)%nat s2); [lia|destruct H2 as [H2 _]; now rewrite H2]|].
    intros x s3 [-> H3]. split; [easy|]. assert (skipn off d = bs ++ skipn (off + length bs) d) as ->.
    { unfold bs. rewrite <- (firstn_skipn 512 (skipn off d)) at 1. f_equal. rewrite skipn_skipn. destruct (Nat.le_ge_cases 512 (length d - off)) as [Hc|Hc].
      - f_equal. rewrite length_firstn, length_skipn. lia.
      - rewrite !skipn_all2; [easy| |]; rewrite ?length_firstn, ?length_skipn; lia. }
    rewrite map_app. rewrite <- (app_nil_l (_ ++ _)). eapply works_trans; [exact W|]. eapply works_trans; [exact (prints_works _ _ _ _ _ Eo1 H2)|exact H3].
Qed.

Lemma cat_files_prints args : forall s, (0 < avail s)%nat ->
  ends h s (cat_files args) (fun v s' => v = snd (cat_text file args) /\ prints s s' (fst (cat_text file args))).
Proof.
  induction args as [|a args IH]; intros s Ha; [apply ends_ret; split; [easy|apply prints_refl]|]. cbn [cat_files cat_text].
  destruct (file (cbytes a)) as [[st d]|] eqn:E; cbn [fst snd].
  - eapply ends_bind; [exact (ends_call _ _ _ (opens s a) (open_law s a _ E Ha))|]. intros fd s1 (Hfd & Hn & Hm & Hav).
    rewrite (proj2 (Z.ltb_ge fd 0) Hfd). assert (opened s1 fd = Some (cbytes a, Z.of_nat 0)) as Eo by (destruct Hm as [Hm _]; rewrite Hm; now rewrite Z.eqb_refl).
    eapply ends_bind; [exact (cat_fd_prints fd _ _ _ E _ 0 s1 (le_n _) Eo)|]. intros x s2 [-> W]. cbn [skipn] in W.
    eapply ends_bind; [eapply close_works; [exact Hn|exact Hm|exact Hav|exact W]|]. intros ? s3 H3.
    eapply ends_weaken; [apply IH; destruct H3 as (_ & H3 & _); lia|]. intros v s4 [-> H4]. split; [easy|]. exact (prints_trans _ _ _ _ _ H3 H4).
  - destruct (open_none s a E) as [Hfd Hp]. eapply ends_bind; [apply (ends_call _ _ _ (fun r s' => r < 0 /\ prints s s' [])); easy|].
    intros fd s1 [Hneg H1]. rewrite (proj2 (Z.ltb_lt fd 0) Hneg). eapply ends_bind; [apply fprintf_prints; [now right|reflexivity]|].
    intros ? s2 H2. apply ends_ret. split; [easy|]. exact (prints_trans _ _ _ _ _ H1 H2).
Qed.

(** cat of files prints their contents in order, up to the first that cannot be
    opened, and closes what it opens. *)
Theorem cat_prints prog a args s : (0 < avail s)%nat ->
  exists s', runs_to h (cat_main (prog :: a :: args)) s s' (snd (cat_text file (a :: args))) /\ prints s s' (fst (cat_text file (a :: args))).
Proof.
  intros Ha. destruct (cat_files_prints (a :: args) s Ha) as (s' & v & H & -> & Hp). exists s'. split; [|exact Hp].
  unfold cat_main. rewrite (proj2 (Z.leb_gt _ _)) by (cbn [length]; lia). exact H.
Qed.
End ls.

(** ** A kernel *)

(** Descriptors from 3 on, and what has been written. *)
Record desk := Desk { d_fds : list (option (list Z * Z)); d_out : list (Z * Z) }.

(** The lowest free slot, as fdalloc takes it. *)
Fixpoint grab (x : list Z * Z) (l : list (option (list Z * Z))) : option (nat * list (option (list Z * Z))) :=
  match l with
  | [] => None
  | None :: l' => Some (0%nat, Some x :: l')
  | y :: l' => match grab x l' with Some (i, l'') => Some (Datatypes.S i, y :: l'') | None => None end
  end.

Fixpoint put (i : nat) (x : option (list Z * Z)) (l : list (option (list Z * Z))) : list (option (list Z * Z)) :=
  match l, i with
  | [], _ => []
  | _ :: l', O => x :: l'
  | y :: l', Datatypes.S i' => y :: put i' x l'
  end.

Fixpoint spare (l : list (option (list Z * Z))) : nat :=
  match l with
  | [] => 0
  | None :: l' => Datatypes.S (spare l')
  | Some _ :: l' => spare l'
  end.

Definition slot (fd : Z) : nat := Z.to_nat (fd - 3).
Definition held (s : desk) (fd : Z) : option (list Z * Z) := if fd <? 3 then None else nth (slot fd) (d_fds s) None.
Definition hold (s : desk) (fd : Z) (x : option (list Z * Z)) : desk := Desk (put (slot fd) x (d_fds s)) (d_out s).

Section small.
Variable tree : list Z -> option (stat * list Z).

Definition small : kernel desk := fun T e s =>
  match e in sysE T return desk * T with
  | Open p _ =>
      match tree (cbytes p) with
      | None => (s, -1)
      | Some _ => match grab (cbytes p, 0) (d_fds s) with
                  | Some (i, l) => (Desk l (d_out s), 3 + Z.of_nat i)
                  | None => (s, -1)
                  end
      end
  | Close fd => match held s fd with Some _ => (hold s fd None, 0) | None => (s, -1) end
  | Read fd n =>
      match held s fd with
      | Some (p, off) =>
          let bs := match tree p with Some (_, d) => firstn (Z.to_nat n) (skipn (Z.to_nat off) d) | None => [] end in
          (hold s fd (Some (p, off + Z.of_nat (length bs))), (Z.of_nat (length bs), bs))
      | None => (s, (-1, []))
      end
  | Fstat fd =>
      match held s fd with
      | Some (p, _) => match tree p with Some (st, _) => (s, (0, st)) | None => (s, (-1, Stat 0 0 0 0 0)) end
      | None => (s, (-1, Stat 0 0 0 0 0))
      end
  | Write fd bs => (Desk (d_fds s) (d_out s ++ List.map (pair fd) bs), Z.of_nat (length bs))
  | PipeFds => (s, (-1, (0, 0)))
  | Fork | Wait | Chdir _ | Getpid | Sbrk _ | Uptime => (s, -1)
  | Unlink _ | Mkdir _ | Link _ _ | Kill _ | Mknod _ _ _ | Dup _ | Exec _ _ | SleepFor _ => (s, -1)
  end.

Lemma grab_spec x l : match grab x l with
  | Some (i, l') => nth i l None = None /\ l' = put i (Some x) l /\ (i < length l)%nat /\ spare l = Datatypes.S (spare l')
  | None => spare l = 0%nat
  end.
Proof.
  induction l as [|[y|] l IH]; cbn [grab spare]; [easy| |cbn; repeat split; lia].
  destruct (grab x l) as [[i l']|]; [|easy]. destruct IH as (H1 & -> & H3 & H4). cbn. repeat split; [easy|lia|easy].
Qed.

Lemma nth_put i x l : forall j, (i < length l)%nat -> nth j (put i x l) None = if (j =? i)%nat then x else nth j l None.
Proof.
  revert i. induction l as [|y l IH]; intros i j Hi; cbn [length] in Hi; [lia|]. destruct i as [|i], j as [|j]; try easy. cbn. apply IH. lia.
Qed.

Lemma spare_put i x l : (i < length l)%nat -> (spare (put i x l) + spare [nth i l None] = spare l + spare [x])%nat.
Proof.
  revert i. induction l as [|y l IH]; intros i Hi; cbn [length] in Hi; [lia|]. destruct i as [|i]; cbn [put nth].
  - destruct x, y; cbn; lia.
  - specialize (IH i ltac:(lia)). destruct y; cbn [spare] in *; lia.
Qed.

Lemma held_slot s fd x : held s fd = Some x -> 3 <= fd /\ (slot fd < length (d_fds s))%nat /\ nth (slot fd) (d_fds s) None = Some x.
Proof.
  unfold held. destruct (Z.ltb_spec fd 3); [easy|]. intros E. repeat split; [easy| |easy].
  destruct (Nat.ltb_spec (slot fd) (length (d_fds s))) as [?|Hge]; [easy|]. now rewrite nth_overflow in E.
Qed.

Lemma held_hold s fd x : 3 <= fd -> (slot fd < length (d_fds s))%nat -> forall fd', held (hold s fd x) fd' = if fd' =? fd then x else held s fd'.
Proof.
  intros H3 Hl fd'. unfold held, hold. cbn [d_fds]. destruct (Z.ltb_spec fd' 3), (Z.eqb_spec fd' fd); try easy; try lia.
  - subst fd'. now rewrite nth_put, Nat.eqb_refl.
  - rewrite nth_put by easy. rewrite (proj2 (Nat.eqb_neq _ _)); [easy|]. unfold slot. lia.
Qed.

Lemma spare_hold s fd x y : held s fd = Some y -> spare (d_fds (hold s fd x)) = (spare (d_fds s) + spare [x])%nat.
Proof. intros E. destruct (held_slot _ _ _ E) as (_ & Hl & En). pose proof (spare_put _ x _ Hl) as H. rewrite En in H. cbn in H |- *. lia. Qed.

Lemma held_same s : prints_ held (fun s => spare (d_fds s)) d_out s s [].
Proof. split; [easy|]. split; [easy|]. now rewrite app_nil_r. Qed.

#[refine, export] Instance small_files : Files small := {
  file := tree;
  opened := held;
  avail s := spare (d_fds s);
  out := d_out
}.
Proof.
  - intros s fd bs _. split; [easy|now split].
  - intros s p E. cbn. rewrite E. split; [easy|apply held_same].
  - intros s p f E Ha. cbn in *. rewrite E. pose proof (grab_spec (cbytes p, 0) (d_fds s)) as H. destruct (grab _ _) as [[i l]|]; [|lia].
    destruct H as (H1 & -> & H3 & H4). cbn [fst snd]. assert (slot (3 + Z.of_nat i) = i) as Es by (unfold slot; lia). split; [lia|]. split; [|split; [|easy]].
    + unfold held. rewrite (proj2 (Z.ltb_ge _ _)) by lia. now rewrite Es.
    + split; [|easy]. pose proof (held_hold s (3 + Z.of_nat i) (Some (cbytes p, 0)) ltac:(lia)) as H. unfold hold in H. rewrite Es in H. now apply H.
  - intros s fd p off st d E Ef. cbn. rewrite E, Ef. split; [easy|apply held_same].
  - intros s fd n p off st d E Ef Hn. cbn. rewrite E, Ef. split; [easy|]. cbn [fst]. destruct (held_slot _ _ _ E) as (H3 & Hl & _).
    split; [split; [now apply held_hold|easy]|]. rewrite (spare_hold _ _ _ _ E). cbn. lia.
  - intros s fd x E. cbn. rewrite E. destruct (held_slot _ _ _ E) as (H3 & Hl & _). split; [split; [now apply held_hold|easy]|].
    cbn [fst]. rewrite (spare_hold _ _ _ _ E). cbn. lia.
Defined.
End small.

(** A directory with itself, an entry not in use and a file. *)
Definition demo_tree (p : list Z) : option (stat * list Z) :=
  let root := (Stat 1 1 T_DIR 1 48, [1; 0; 46] ++ repeat 0 13 ++ repeat 0 16 ++ [2; 0] ++ cstr "README" ++ repeat 0 8) in
  if list_eq_dec Z.eq_dec p (cstr ".") then Some root
  else if list_eq_dec Z.eq_dec p (cstr "./.") then Some root
  else if list_eq_dec Z.eq_dec p (cstr "./README") then Some (Stat 1 2 T_FILE 1 2305, [])
  else None.

(** C30: What ls prints.  On every kernel that keeps the laws of [Files] and has two
    free descriptors, ls ends with status 0; for each of its arguments, or for the
    current directory, it has printed the line of a file, or the lines of the
    entries in use of a directory in the order of the directory (the name
    after the last slash padded to DIRSIZ, type, inode number and size), or its
    message where a file cannot be opened or the path is too long; and every
    descriptor it opened is closed again. *)
Theorem ls_prints {S} (h : kernel S) `{!Files h} argv s : (1 < avail s)%nat ->
  exists s', runs_to h (ls argv) s s' 0 /\ prints s s' (flat_map (ls_text file) (match tl argv with [] => [cstr "."] | args => args end)).
Proof.
  intros Ha. assert (ends h s (ls argv) (fun r s' => r = 0 /\ prints s s' (flat_map (ls_text file) (match tl argv with [] => [cstr "."] | args => args end)))) as (s' & r & H & -> & Hp);
    [|now exists s'].
  unfold ls. eapply ends_bind; [|intros ? s' H; apply ends_ret; split; [reflexivity|exact H]].
  destruct argv as [|a [|b argv]]; cbn [tl].
  - cbn [flat_map]. rewrite app_nil_r. exact (ls1_prints h (cstr ".") s Ha).
  - cbn [flat_map]. rewrite app_nil_r. exact (ls1_prints h (cstr ".") s Ha).
  - rewrite (proj2 (Z.ltb_ge _ _)) by (cbn [length]; lia). now apply ls_args_prints.
Qed.

Lemma ls_prints_witness : exists s', runs_to (small demo_tree) (ls [cstr "ls"]) (Desk [None; None] []) s' 0 /\ spare (d_fds s') = 2%nat /\
  d_out s' = List.map (pair 1) (cstr ".              1 1 48" ++ nl ++ cstr "README         2 2 2305" ++ nl).
Proof.
  destruct (@ls_prints desk (small demo_tree) (small_files demo_tree) [cstr "ls"] (Desk [None; None] []) (le_n 2)) as (s' & H & _ & Ha & Ho).
  exists s'. split; [exact H|]. split; [exact Ha|]. etransitivity; [exact Ho|]. vm_compute. reflexivity.
Defined.
